(* ===== verification/_CoqProject ===== *)
-Q . S2P
Prelude.v
Quad.v
QDiv.v
Spinlock.v
Bio.v
Disk.v
Ide.v
Log.v
KString.v
LString.v
Pipe.v
Kalloc.v
Vm.v
Seg.v
Search.v
Ctype.v
CStdlib.v
VmCopy.v
Proc.v
Fork.v
Syscall.v
Trap.v
PipeMem.v
Fs.v
FsBlocks.v
FsLog.v
FsFile.v
FsDir.v
FsPath.v
FsDemo.v
File.v
FileOk.v
FileDemo.v
Exec.v
Sysfile.v
Digits.v
Malloc.v
Env.v
Console.v
Kbd.v
User.v
Sh.v
ShOk.v
ShRun.v
Apps.v
Grep.v
Mp.v
Boot.v
Mkfs.v
