(* ===== verification/Prelude.v ===== *)
(** * lainos: a verification of the kernel, the C library and the user programs

    lainos is a small multiprocessor operating system for the 386, derived from
    xv6.  src/kernel has the boot loader, processes, memory, interrupts, drivers,
    a buffer cache with a redo log, the file system, pipes and system calls;
    src/libc is the C library, src/apps the user programs with the shell, and
    src/mkfs.c builds the disk image.  This library models them as Rocq functions
    and step relations and proves what they are relied on for.

    ** The disk and the file system

    - Spinlock.v models kernel/spinlock.c: [acquire] and [release] split into
      their memory accesses, run by any number of processors ([step]);
      [mutual_exclusion] is an invariant of every interleaving.  The other
      components use the view of one processor.
    - Bio.v models kernel/bio.c with its doubly linked list, over any disk
      driver that keeps the contract of a class ([DiskSpec]).  [cache_transparent]
      is a refinement: the cache behaves like the disk.  Two drivers keep the
      contract: kernel/memide.c in Disk.v and kernel/ide.c in Ide.v, the latter
      over the ports of a controller, as long as no command fails.  [ide_in_order]:
      requests of any number of processes are served in the order they were made,
      and what the driver does with commands that fail; it takes the controller to
      accept the data of a write at once ([prompt]), which the driver does not wait
      for.
    - Log.v models kernel/log.c over the cache.  [crash_safety]: stop a
      transaction at any disk write and recover, and the file system blocks are
      those before or those after the transaction.
    - Fs.v models kernel/fs.c over an interface to the block layer, the class
      [Blocks].  FsBlocks.v states what fs.c relies on ([BlocksSpec]) and proves
      the bitmap operations and the inodes on disk against it; FsLog.v shows that
      Log.v and Bio.v keep that contract, and follows a block allocation down to
      the disk.  FsFile.v proves that what [writei] wrote [readi] reads and that
      no other file changes, FsDir.v the same for names in directories, FsPath.v
      that [namex] walks the tree a path names.  FsDemo.v has their examples.
    - File.v, FileOk.v and FileDemo.v model kernel/file.c and carry a write for
      which there is room, cut into transactions, through to the read.  Sysfile.v models
      kernel/sysfile.c, Exec.v kernel/exec.c.
    - Mkfs.v models mkfs.c.  [mkfs_image]: the image holds the directory tree it
      was built from, as [readi] of the kernel reads it, and satisfies what the
      theorems on the file system assume of a disk, unless the entries of a
      directory end exactly with a block.

    ** Memory, processes and interrupts

    - Kalloc.v and Vm.v model kernel/kalloc.c and kernel/vm.c on byte memory.
      Pages in use are never handed out again, growing and shrinking a process
      cancel out, [copyout] writes the bytes where the page table says.  Seg.v has
      the part of vm.c that loads segments and page tables into a processor.  VmCopy.v
      shows what [setupkvm] and [copyuvm] build.
    - Pipe.v models kernel/pipe.c with any number of readers and writers, one
      step at a time: bytes arrive in order and once, and no process sleeps
      through the event it waits for, with one exception shown there.  PipeMem.v
      is the code of the same functions on a pipe in kernel memory.
    - Proc.v models kernel/proc.c: the operations over Kalloc and Vm, and the
      process table under any interleaving of the locked sections of any number
      of CPUs ([sys_step]).  A process runs on one CPU, pids are unique until
      [nextpid] wraps around, no zombie is forgotten, the scheduler starves
      nobody, [sleep] hands its lock over.  Fork.v follows [allocproc] and [fork] through to the child.
      [fork_copies]: it has its own copy of its parent's memory and registers, 0
      in eax, and the parent's files, and nothing in use has changed.
    - Syscall.v models kernel/syscall.c and kernel/sysproc.c: the checks on
      arguments and the dispatch.  Trap.v models kernel/trap.c.  [trap_safe]: a
      process that gets back to user mode has not been killed and has not
      faulted, and a fault in the kernel stops the machine.
    - Console.v models kernel/console.c and kernel/uart.c, Kbd.v kernel/kbd.c:
      a reader gets the lines that were typed and edited, and the keys type what
      is on them on a US keyboard.
    - Mp.v models kernel/mp.c, lapic.c, ioapic.c, picirq.c and timer.c: the
      processors of the firmware's table are found.  Boot.v models
      kernel/bootmain.c: the segments of the kernel are in memory when it starts, if
      no disk command fails.

    ** The C library and the user programs

    - KString.v and LString.v model kernel/string.c and libc/string.c; Search.v
      libc/search.c; Ctype.v libc/ctype.c; CStdlib.v libc/stdlib.c and
      libc/rand.c; Quad.v and QDiv.v the integer routines of libc/quad, each
      proved equal to the mathematical operation, [__qdivrem] included.
    - Malloc.v models libc/malloc.c on the bytes of a process: blocks handed out
      for requests below 2 GB never overlap.  Env.v has the environment functions of apps/lib/ulib.c on
      top of it.
    - Digits.v and User.v model apps/lib/printf.c and the rest of ulib.c as trees
      of system calls over any kernel; Apps.v and Grep.v the programs, Sh.v, ShOk.v
      and ShRun.v the shell: its parser is type safe and reads back printed
      commands, and the programs of a line are connected as the line says.

    ** Conventions

    This file has machine integers as [Z] with the wrap-around of the C types
    written out ([u32], [s32], ...), the outcome type and state monad of kernel
    code, byte ranges and little-endian words.

    A state is a record with one field per C variable; an operation is a
    function of type [M S A].  Its outcome is [Done], [Panic] with the message
    of the C code, [Sleep] where the model of a component ends at a call of
    [sleep], [Wild] where C has no defined behaviour (a null or unmapped
    pointer), or [NoFuel].  Loops that are not structural take a bound.  Bounds
    are computed from the data (the length of a list, the pages of a range) and
    the theorems about these functions conclude [Done], so the bound was
    enough; where a loop ends only when other processes or a device act
    ([wait_loop] and [sleep_loop] of Proc.v and Syscall.v, [idewait_loop] of
    Ide.v) the bound is an argument or part of the contract of the device.

    Code outside a component is an argument: the linker's symbols ([Linker],
    [DataSegment]), a comparison function ([Comparison]), the functions of a
    device ([Devices]), the handlers of interrupts ([Handlers]), the context
    switch and all that runs until it returns ([Switch]), the ports of a disk
    controller ([Controller], with the laws [Ata]).  The file layer below proc.c
    and syscall.c ([FileRefs], [FileCalls]) is supplied by Sysfile.v.

    ** Not modelled

    kernel/main.c, which calls the initialisation of the components in order and
    starts the other processors through code in assembler; the assembler files;
    the conversions between 64-bit integers and floating point in libc/quad, which
    need floating-point instructions; the error numbers of libc/tss_errno; the
    test programs usertests.c, stressfs.c, forktest.c and libctests.c, which are
    checks of the system from outside.  Memory is sequentially consistent. *)

From stdpp Require Export base relations list list_numbers numbers strings gmap fin_maps.
From Stdlib Require Export ZArith Lia.

#[global] Open Scope Z_scope.

(** ** Machine integers

    An [unsigned int] is kept as its value in [0, 2^32), a [signed int] as its
    value in [-2^31, 2^31); [uN]/[sN] are the conversions the C types perform. *)

Definition u8 (z : Z) : Z := z mod 2 ^ 8.
Definition u16 (z : Z) : Z := z mod 2 ^ 16.
Definition u32 (z : Z) : Z := z mod 2 ^ 32.
Definition u64 (z : Z) : Z := z mod 2 ^ 64.
Definition s8 (z : Z) : Z := (z + 2 ^ 7) mod 2 ^ 8 - 2 ^ 7.
Definition s16 (z : Z) : Z := (z + 2 ^ 15) mod 2 ^ 16 - 2 ^ 15.
Definition s32 (z : Z) : Z := (z + 2 ^ 31) mod 2 ^ 32 - 2 ^ 31.
Definition s64 (z : Z) : Z := (z + 2 ^ 63) mod 2 ^ 64 - 2 ^ 63.

(** A C comparison used as an integer. *)
Definition b2z (b : bool) : Z := if b then 1 else 0.

(** Unfold the conversions to [mod], turn [mod] and [/] into equations and
    finish with linear arithmetic. *)
Ltac wrap_unfold := unfold u8, u16, u32, u64, s8, s16, s32, s64 in *.
Ltac wrap_lia := wrap_unfold; Z.div_mod_to_equations; lia.

Lemma u32_range z : 0 <= u32 z < 2 ^ 32.
Proof. unfold u32. apply Z.mod_pos_bound. lia. Qed.

Lemma u32_small z : 0 <= z < 2 ^ 32 -> u32 z = z.
Proof. intros. unfold u32. by apply Z.mod_small. Qed.

Lemma u32_u32 z : u32 (u32 z) = u32 z.
Proof. apply u32_small, u32_range. Qed.

Lemma u64_range z : 0 <= u64 z < 2 ^ 64.
Proof. unfold u64. apply Z.mod_pos_bound. lia. Qed.

Lemma u64_small z : 0 <= z < 2 ^ 64 -> u64 z = z.
Proof. intros. unfold u64. by apply Z.mod_small. Qed.

Lemma s64_range z : - 2 ^ 63 <= s64 z < 2 ^ 63.
Proof. wrap_lia. Qed.

Lemma s64_small z : - 2 ^ 63 <= z < 2 ^ 63 -> s64 z = z.
Proof. intros. unfold s64. rewrite Z.mod_small; lia. Qed.

Lemma s32_range z : - 2 ^ 31 <= s32 z < 2 ^ 31.
Proof. unfold s32. pose proof (Z.mod_pos_bound (z + 2 ^ 31) (2 ^ 32)). lia. Qed.

Lemma s32_small z : - 2 ^ 31 <= z < 2 ^ 31 -> s32 z = z.
Proof. intros. unfold s32. rewrite Z.mod_small; lia. Qed.

Lemma s64_cong a b : (a - b) mod 2 ^ 64 = 0 -> s64 a = s64 b.
Proof.
  intros H. unfold s64. f_equal.
  apply Z.mod_divide in H; [|lia]. destruct H as [k H].
  replace (a + 2 ^ 63) with (b + 2 ^ 63 + k * 2 ^ 64) by lia.
  apply Z.mod_add. lia.
Qed.

Lemma s64_congr a b k : a = b + k * 2 ^ 64 -> s64 a = s64 b.
Proof.
  intros ->. apply s64_cong. replace (b + k * 2 ^ 64 - b) with (k * 2 ^ 64) by lia.
  apply Z.mod_mul. lia.
Qed.

Lemma u32_s32 z : u32 (s32 z) = u32 z.
Proof.
  unfold u32, s32. pose proof (Z.div_mod (z + 2 ^ 31) (2 ^ 32) ltac:(lia)).
  replace ((z + 2 ^ 31) mod 2 ^ 32 - 2 ^ 31) with (z + - ((z + 2 ^ 31) / 2 ^ 32) * 2 ^ 32) by lia.
  apply Z.mod_add. lia.
Qed.

Lemma s32_u32 z : s32 (u32 z) = s32 z.
Proof.
  unfold u32, s32. f_equal. pose proof (Z.div_mod z (2 ^ 32) ltac:(lia)).
  replace (z mod 2 ^ 32 + 2 ^ 31) with (z + 2 ^ 31 + - (z / 2 ^ 32) * 2 ^ 32) by lia.
  apply Z.mod_add. lia.
Qed.

(** Conversions of conversions, and the ranges of their results. *)
Create HintDb width.
#[export] Hint Rewrite u32_u32 u32_s32 s32_u32 : width.
#[export] Hint Resolve u32_range u64_range s64_range : width.

(** [x << n | y] is an addition when [y] fits in the low [n] bits. *)
Lemma lor_shift_add x y n : 0 <= n -> 0 <= y < 2 ^ n ->
  Z.lor (x * 2 ^ n) y = x * 2 ^ n + y.
Proof.
  intros Hn Hy. symmetry. apply Z.add_nocarry_lor. apply Z.bits_inj'. intros i Hi.
  rewrite Z.land_spec, Z.bits_0. destruct (Z.ltb_spec i n).
  - by rewrite Z.mul_pow2_bits_low.
  - rewrite <- (Z.mod_small y (2 ^ n)) by done.
    by rewrite (Z.mod_pow2_bits_high y), andb_false_r by lia.
Qed.

(** ** Effects

    Kernel code is modelled by functions from a state to an outcome. [Panic] is
    a call of [panic]; [Sleep] is a call of [sleep] on the given channel, with
    the state the process goes to sleep in; [Wild] is an access outside the
    object the code means to address, on which the C program has no defined
    behaviour; [NoFuel] says that the bound given to a loop was too small, and
    is what every termination theorem excludes. *)

Inductive chan :=
  | CBuf (b : nat)       (* sleep(b, ...) of bget and iderw *)
  | CLog                 (* &log *)
  | CInode (i : nat)     (* an inode of the in-memory cache *)
  | CPipeRead (p : Z)    (* &p->nread of the pipe at an address *)
  | CPipeWrite (p : Z)   (* &p->nwrite *)
  | CProc (p : nat)      (* a struct proc, slept on by wait *)
  | CTicks               (* &ticks *)
  | CInput.              (* &input.r *)

#[global] Instance chan_eq_dec : EqDecision chan.
Proof. solve_decision. Defined.

(** The spin locks of the kernel, by what they protect. *)
Inductive lock := LPtable | LTicks | LFtable | LPipe (p : Z) | LInput | LCons.

#[global] Instance lock_eq_dec : EqDecision lock.
Proof. solve_decision. Defined.

Inductive outcome (S A : Type) :=
  | Done (a : A) (s : S)
  | Panic (msg : string)
  | Sleep (c : chan) (s : S)
  | Wild (what : string)
  | NoFuel.

Arguments Done {S A} a s.
Arguments Panic {S A} msg.
Arguments Sleep {S A} c s.
Arguments Wild {S A} what.
Arguments NoFuel {S A}.

Definition M (S A : Type) : Type := S -> outcome S A.

Definition ret {S A} (a : A) : M S A := fun s => Done a s.

Definition bind {S A B} (m : M S A) (k : A -> M S B) : M S B := fun s =>
  match m s with
  | Done a s' => k a s'
  | Panic msg => Panic msg
  | Sleep c s' => Sleep c s'
  | Wild w => Wild w
  | NoFuel => NoFuel
  end.

Definition gets {S A} (f : S -> A) : M S A := fun s => Done (f s) s.
Definition modify {S} (f : S -> S) : M S unit := fun s => Done tt (f s).
Definition panic {S A} (msg : string) : M S A := fun _ => Panic msg.
Definition wild {S A} (w : string) : M S A := fun _ => Wild w.
Definition nofuel {S A} : M S A := fun _ => NoFuel.
Definition sleepOn {S A} (c : chan) : M S A := fun s => Sleep c s.
Definition when {S} (b : bool) (m : M S unit) : M S unit := if b then m else ret tt.

(** Run code of a component on its part of a larger state. *)
Definition zoom {S T A} (get : S -> T) (set : T -> S -> S) (m : M T A) : M S A := fun s =>
  match m (get s) with
  | Done a t => Done a (set t s)
  | Panic msg => Panic msg
  | Sleep c t => Sleep c (set t s)
  | Wild w => Wild w
  | NoFuel => NoFuel
  end.

Declare Scope krn_scope.
Delimit Scope krn_scope with krn.
Notation "'let!' x := m 'in' k" := (bind m (fun x => k))
  (at level 200, x binder, m at level 100, k at level 200,
   format "'[v' 'let!'  x  :=  m  'in' '/' k ']'") : krn_scope.
Notation "m ;! k" := (bind m (fun _ => k))
  (at level 100, k at level 200, right associativity, format "'[v' m ;! '/' k ']'") : krn_scope.
#[global] Open Scope krn_scope.

Lemma bind_Done {S A B} (m : M S A) (k : A -> M S B) s a s' :
  m s = Done a s' -> bind m k s = k a s'.
Proof. unfold bind. by intros ->. Qed.

Lemma bind_Panic {S A B} (m : M S A) (k : A -> M S B) s msg :
  m s = Panic msg -> bind m k s = Panic msg.
Proof. unfold bind. by intros ->. Qed.

Lemma bind_Sleep {S A B} (m : M S A) (k : A -> M S B) s c s' :
  m s = Sleep c s' -> bind m k s = Sleep c s'.
Proof. unfold bind. by intros ->. Qed.

Lemma bind_inv {S A B} (m : M S A) (k : A -> M S B) s b s' :
  bind m k s = Done b s' -> exists a s1, m s = Done a s1 /\ k a s1 = Done b s'.
Proof. unfold bind. destruct (m s); naive_solver. Qed.

Lemma zoom_Done {S T A} get (set : T -> S -> S) (m : M T A) s a t :
  m (get s) = Done a t -> zoom get set m s = Done a (set t s).
Proof. unfold zoom. by intros ->. Qed.

Lemma zoom_Panic {S T A} get (set : T -> S -> S) (m : M T A) s msg :
  m (get s) = Panic msg -> zoom get set m s = Panic msg.
Proof. unfold zoom. by intros ->. Qed.

(** [run H]: perform the first call of a sequence, whose outcome [H] states. *)
Ltac run H := first
  [ rewrite (bind_Done _ _ _ _ _ H) | rewrite (bind_Panic _ _ _ _ H)
  | rewrite (bind_Sleep _ _ _ _ _ H) ].

(** [for (i = 0; i < n; i++) body(i)] *)
Fixpoint forM {S A} (l : list A) (f : A -> M S unit) : M S unit :=
  match l with
  | [] => ret tt
  | x :: l' => f x ;! forM l' f
  end.

Lemma forM_app {S A} (l1 l2 : list A) (f : A -> M S unit) s :
  forM (l1 ++ l2) f s = bind (forM l1 f) (fun _ => forM l2 f) s.
Proof.
  revert s. induction l1 as [|x l1 IH]; intros s; [done|]. cbn [app forM].
  unfold bind in *. destruct (f x s); auto.
Qed.

(** ** Byte ranges

    [peek p n m] is the [n] bytes at offset [p] of the object [m]; [poke p x m]
    stores the bytes [x] there. *)

Definition peek (p n : nat) (m : list Z) : list Z := take n (drop p m).
Definition poke (p : nat) (x m : list Z) : list Z :=
  take p m ++ x ++ drop (p + length x) m.

Lemma length_poke p x m : (p + length x <= length m)%nat -> length (poke p x m) = length m.
Proof. intros. unfold poke. rewrite !length_app, length_take, length_drop. lia. Qed.

Lemma peek_poke p x m : (p + length x <= length m)%nat -> peek p (length x) (poke p x m) = x.
Proof.
  intros. unfold peek, poke. rewrite drop_app_ge by (rewrite length_take; lia).
  rewrite length_take, Nat.min_l, Nat.sub_diag, drop_0 by lia. by rewrite take_app_length.
Qed.

Lemma peek_poke_other p x q n m : (p + length x <= length m)%nat ->
  (q + n <= p \/ p + length x <= q)%nat -> peek q n (poke p x m) = peek q n m.
Proof.
  intros Hm Hd. unfold peek, poke. apply list_eq. intros i.
  destruct (decide (i < n)%nat) as [Hi|Hi]; [|rewrite !lookup_take_ge by lia; done].
  rewrite !lookup_take_lt, !lookup_drop by done. destruct Hd.
  - rewrite lookup_app_l by (rewrite length_take; lia). by rewrite lookup_take_lt by lia.
  - rewrite lookup_app_r by (rewrite length_take; lia). rewrite length_take, Nat.min_l by lia.
    rewrite lookup_app_r by lia. rewrite lookup_drop. f_equal. lia.
Qed.

Lemma length_peek p n m : (p + n <= length m)%nat -> length (peek p n m) = n.
Proof. intros. unfold peek. rewrite length_take, length_drop. lia. Qed.

Lemma peek_all m : peek 0 (length m) m = m.
Proof. unfold peek. by rewrite drop_0, take_ge by lia. Qed.

(** ** Little-endian integers *)

Fixpoint le_dec (l : list Z) : Z :=
  match l with [] => 0 | b :: l' => b + 256 * le_dec l' end.

Fixpoint le_enc (n : nat) (v : Z) : list Z :=
  match n with O => [] | S n' => v mod 256 :: le_enc n' (v / 256) end.

Definition byte (b : Z) : Prop := 0 <= b < 256.

Lemma length_le_enc n v : length (le_enc n v) = n.
Proof. revert v. induction n; intros; cbn; auto. Qed.

Lemma le_enc_bytes n v : Forall byte (le_enc n v).
Proof.
  revert v. induction n; intros; cbn; constructor; [|done]. apply Z.mod_pos_bound. lia.
Qed.

Lemma le_dec_enc n v : le_dec (le_enc n v) = v mod 256 ^ Z.of_nat n.
Proof.
  revert v. induction n as [|n IH]; intros v; [cbn; by rewrite Z.mod_1_r|].
  cbn [le_enc le_dec]. rewrite IH, Nat2Z.inj_succ, Z.pow_succ_r by lia.
  rewrite Z.rem_mul_r by (try lia; apply Z.pow_pos_nonneg; lia). lia.
Qed.

Lemma le_dec_bound l : Forall byte l -> 0 <= le_dec l < 256 ^ Z.of_nat (length l).
Proof.
  induction 1 as [|b l Hb _ IH]; cbn [le_dec length]; [done|]. unfold byte in Hb.
  rewrite Nat2Z.inj_succ, Z.pow_succ_r by lia. lia.
Qed.

Lemma le_enc_dec l : Forall byte l -> le_enc (length l) (le_dec l) = l.
Proof.
  induction 1 as [|b l Hb _ IH]; cbn [le_dec length le_enc]; [done|]. unfold byte in Hb.
  rewrite Z.mul_comm, Z.mod_add, Z.mod_small by lia.
  rewrite Z.div_add, Z.div_small, Z.add_0_l, IH by lia. done.
Qed.

(** A [uint] field at byte offset [p] of a block; [get16] is a [ushort]. *)
Definition get32 (m : list Z) (p : nat) : Z := le_dec (peek p 4 m).
Definition put32 (p : nat) (v : Z) (m : list Z) : list Z := poke p (le_enc 4 v) m.
Definition get16 (m : list Z) (p : nat) : Z := le_dec (peek p 2 m).
Definition put16 (p : nat) (v : Z) (m : list Z) : list Z := poke p (le_enc 2 v) m.

Lemma length_put32 p v m : (p + 4 <= length m)%nat -> length (put32 p v m) = length m.
Proof. intros. unfold put32. apply length_poke. by rewrite length_le_enc. Qed.

Lemma get_put32 p v m : (p + 4 <= length m)%nat -> get32 (put32 p v m) p = u32 v.
Proof.
  intros. unfold get32, put32.
  pose proof (peek_poke p (le_enc 4 v) m) as E. rewrite length_le_enc in E.
  rewrite E by lia. rewrite le_dec_enc. done.
Qed.

Lemma get_put32_ne p q v m : (p + 4 <= length m)%nat -> (q + 4 <= p \/ p + 4 <= q)%nat ->
  get32 (put32 p v m) q = get32 m q.
Proof.
  intros. unfold get32, put32. by rewrite peek_poke_other; rewrite ?length_le_enc; try lia.
Qed.

(** ** Finite sets *)

Lemma size_list_to_set_le {A} `{Countable A} (l : list A) :
  (size (list_to_set l : gset A) <= length l)%nat.
Proof.
  induction l as [|x l IH]; cbn [list_to_set length]; [by rewrite size_empty|].
  rewrite size_union_alt, size_singleton.
  assert ((size ((list_to_set l : gset A) ∖ {[x]}) <= size (list_to_set l : gset A))%nat)
    by (apply subseteq_size; set_solver). lia.
Qed.
