(* ===== verification/Quad.v ===== *)
(** * libc/quad: 64-bit arithmetic on a 32-bit machine

    The routines gcc calls for [long long] on i386, from [libc/quad/*.c].
    A quad is handled through the union [uu] of [quad.h]: two 32-bit halves
    read as unsigned ([ul]) or signed ([sl]) words.  [quad_t] arguments and
    results are signed 64-bit values, [u_quad_t] ones unsigned 64-bit values;
    each word of the union is kept in [0, 2^32) and every C expression of type
    [u_int] is wrapped with [u32] where C wraps it. *)

From S2P Require Import Prelude.

Module Quad.

(** [union uu] of quad.h: the high and the low word. *)
Record uu := UU { ulH : Z; ulL : Z }.

(** [tmp.q = a] / [tmp.uq = a]: store a quad in the union. *)
Definition of_q (a : Z) : uu := UU (u32 (Z.shiftr a 32)) (u32 a).
(** Reading the union back as [uq], as [q], and the high word as signed. *)
Definition to_uq (w : uu) : Z := ulH w * 2 ^ 32 + ulL w.
Definition to_q (w : uu) : Z := s64 (to_uq w).
Definition slH (w : uu) : Z := s32 (ulH w).

(** The constants and half-word macros of quad.h. *)
Definition INT_BITS : Z := 32.
Definition HALF_BITS : Z := 16.
Definition HHALF (x : Z) : Z := Z.shiftr (u32 x) HALF_BITS.
Definition LHALF (x : Z) : Z := Z.land (u32 x) (2 ^ HALF_BITS - 1).
Definition LHUP (x : Z) : Z := u32 (Z.shiftl (u32 x) HALF_BITS).

(** ** Addition, subtraction, negation, bitwise operations, comparisons *)

Definition __adddi3 (a b : Z) : Z :=
  let aa := of_q a in
  let bb := of_q b in
  let sumL := u32 (ulL aa + ulL bb) in
  let sumH := u32 (ulH aa + ulH bb + b2z (sumL <? ulL bb)) in
  to_q (UU sumH sumL).

Definition __subdi3 (a b : Z) : Z :=
  let aa := of_q a in
  let bb := of_q b in
  let diffL := u32 (ulL aa - ulL bb) in
  let diffH := u32 (ulH aa - ulH bb - b2z (diffL >? ulL aa)) in
  to_q (UU diffH diffL).

Definition __negdi2 (a : Z) : Z :=
  let aa := of_q a in
  let resL := u32 (- ulL aa) in
  let resH := u32 (- ulH aa - b2z (resL >? 0)) in
  to_q (UU resH resL).

Definition __anddi3 (a b : Z) : Z :=
  let aa := of_q a in
  let bb := of_q b in
  to_q (UU (Z.land (ulH aa) (ulH bb)) (Z.land (ulL aa) (ulL bb))).

Definition __iordi3 (a b : Z) : Z :=
  let aa := of_q a in
  let bb := of_q b in
  to_q (UU (Z.lor (ulH aa) (ulH bb)) (Z.lor (ulL aa) (ulL bb))).

Definition __xordi3 (a b : Z) : Z :=
  let aa := of_q a in
  let bb := of_q b in
  to_q (UU (Z.lxor (ulH aa) (ulH bb)) (Z.lxor (ulL aa) (ulL bb))).

Definition __one_cmpldi2 (a : Z) : Z :=
  let aa := of_q a in
  to_q (UU (u32 (Z.lnot (ulH aa))) (u32 (Z.lnot (ulL aa)))).

Definition __cmpdi2 (a b : Z) : Z :=
  let aa := of_q a in
  let bb := of_q b in
  if slH aa <? slH bb then 0
  else if slH aa >? slH bb then 2
  else if ulL aa <? ulL bb then 0
  else if ulL aa >? ulL bb then 2
  else 1.

Definition __ucmpdi2 (a b : Z) : Z :=
  let aa := of_q a in
  let bb := of_q b in
  if ulH aa <? ulH bb then 0
  else if ulH aa >? ulH bb then 2
  else if ulL aa <? ulL bb then 0
  else if ulL aa >? ulL bb then 2
  else 1.

(** ** Shifts *)

Definition __ashldi3 (a shift : Z) : Z :=
  if shift =? 0 then a else
  let aa := of_q a in
  if shift >=? INT_BITS then
    to_q (UU (u32 (Z.shiftl (ulL aa) (shift - INT_BITS))) 0)
  else
    to_q (UU (Z.lor (u32 (Z.shiftl (ulH aa) shift))
                    (Z.shiftr (ulL aa) (INT_BITS - shift)))
             (u32 (Z.shiftl (ulL aa) shift))).

Definition __lshldi3 (a shift : Z) : Z :=
  if shift =? 0 then a else
  let aa := of_q a in
  if shift >=? INT_BITS then
    to_q (UU (u32 (Z.shiftl (ulL aa) (shift - INT_BITS))) 0)
  else
    to_q (UU (Z.lor (u32 (Z.shiftl (ulH aa) shift))
                    (Z.shiftr (ulL aa) (INT_BITS - shift)))
             (u32 (Z.shiftl (ulL aa) shift))).

Definition __lshrdi3 (a shift : Z) : Z :=
  if shift =? 0 then a else
  let aa := of_q a in
  if shift >=? INT_BITS then
    to_q (UU 0 (Z.shiftr (ulH aa) (shift - INT_BITS)))
  else
    to_q (UU (Z.shiftr (ulH aa) shift)
             (Z.lor (Z.shiftr (ulL aa) shift)
                    (u32 (Z.shiftl (ulH aa) (INT_BITS - shift))))).

(** [aa.sl[H] >> k] is gcc's arithmetic shift. *)
Definition __ashrdi3 (a shift : Z) : Z :=
  if shift =? 0 then a else
  let aa := of_q a in
  if shift >=? INT_BITS then
    let s := Z.shiftr (Z.shiftr (slH aa) (INT_BITS - 1)) 1 in
    to_q (UU (u32 s) (u32 (Z.shiftr (slH aa) (shift - INT_BITS))))
  else
    to_q (UU (u32 (Z.shiftr (slH aa) shift))
             (Z.lor (Z.shiftr (ulL aa) shift)
                    (u32 (Z.shiftl (ulH aa) (INT_BITS - shift))))).

(** ** Multiplication *)

(** [__lmulq]: 32 x 32 -> 64 bit product from 16-bit halves. *)
Definition __lmulq (u v : Z) : Z :=
  let u1 := HHALF u in
  let u0 := LHALF u in
  let v1 := HHALF v in
  let v0 := LHALF v in
  let low := u32 (u0 * v0) in
  if (u1 =? 0) && (v1 =? 0) then low else
  let '(udiff, neg) :=
    if u1 >=? u0 then (u32 (u1 - u0), false) else (u32 (u0 - u1), true) in
  let '(vdiff, neg) :=
    if v0 >=? v1 then (u32 (v0 - v1), neg) else (u32 (v1 - v0), negb neg) in
  let mid := u32 (udiff * vdiff) in
  let high := u32 (u1 * v1) in
  let prodh := u32 (high + HHALF high) in
  let prodl := LHUP high in
  let '(prodl, prodh) :=
    if neg then
      let was := prodl in
      let prodl := u32 (prodl - LHUP mid) in
      (prodl, u32 (prodh - u32 (HHALF mid + b2z (prodl >? was))))
    else
      let was := prodl in
      let prodl := u32 (prodl + LHUP mid) in
      (prodl, u32 (prodh + u32 (HHALF mid + b2z (prodl <? was)))) in
  let was := prodl in
  let prodl := u32 (prodl + LHUP low) in
  let prodh := u32 (prodh + u32 (HHALF low + b2z (prodl <? was))) in
  let prodl := u32 (prodl + low) in
  let prodh := if prodl <? low then u32 (prodh + 1) else prodh in
  to_q (UU prodh prodl).

Definition __muldi3 (a b : Z) : Z :=
  let '(u, negall) := if a >=? 0 then (of_q a, false) else (of_q (- a), true) in
  let '(v, negall) := if b >=? 0 then (of_q b, negall) else (of_q (- b), negb negall) in
  let u1 := ulH u in
  let u0 := ulL u in
  let v1 := ulH v in
  let v0 := ulL v in
  let prod :=
    if (u1 =? 0) && (v1 =? 0) then of_q (__lmulq u0 v0)
    else
      let low := of_q (__lmulq u0 v0) in
      let '(udiff, negmid) :=
        if u1 >=? u0 then (u32 (u1 - u0), false) else (u32 (u0 - u1), true) in
      let '(vdiff, negmid) :=
        if v0 >=? v1 then (u32 (v0 - v1), negmid) else (u32 (v1 - v0), negb negmid) in
      let mid := u32 (udiff * vdiff) in
      let high := u32 (u1 * v1) in
      UU (u32 (high + (if negmid then u32 (- mid) else mid) + ulL low + ulH low))
         (ulL low) in
  if negall then s64 (- to_q prod) else to_q prod.

(** ** Correctness *)

Lemma of_q_uq a : to_uq (of_q a) = u64 a.
Proof.
  unfold to_uq, of_q; simpl. rewrite Z.shiftr_div_pow2 by lia. wrap_lia.
Qed.

Lemma of_q_range a : 0 <= ulH (of_q a) < 2 ^ 32 /\ 0 <= ulL (of_q a) < 2 ^ 32.
Proof. simpl. split; apply u32_range. Qed.

Lemma s64_u64 a : s64 (u64 a) = s64 a.
Proof. apply (s64_congr _ _ (- (a / 2 ^ 64))). wrap_lia. Qed.

(** A quad as two words: the value the union holds, modulo 2^64. *)
Lemma of_q_split a : exists h l k,
  of_q a = UU h l /\ a = h * 2 ^ 32 + l + k * 2 ^ 64 /\
  0 <= h < 2 ^ 32 /\ 0 <= l < 2 ^ 32.
Proof.
  exists (ulH (of_q a)), (ulL (of_q a)), (a / 2 ^ 64).
  pose proof (of_q_range a). pose proof (of_q_uq a) as E. unfold to_uq in E.
  split; [done|]. split; [|done]. rewrite E. wrap_lia.
Qed.

(** The union holding the words [h] and [l] reads as any integer congruent to
    it modulo 2^64. *)
Lemma to_q_eq h l z k : h * 2 ^ 32 + l = z + k * 2 ^ 64 -> to_q (UU h l) = s64 z.
Proof. intros. unfold to_q, to_uq. simpl. by apply (s64_congr _ _ k). Qed.

Lemma to_q_ex h l z : (exists k, h * 2 ^ 32 + l = z + k * 2 ^ 64) -> to_q (UU h l) = s64 z.
Proof. intros [k ?]. by apply (to_q_eq _ _ _ k). Qed.

(** [u32] as a subtraction, in the form [lia] can use. *)
Lemma u32_quot x : exists q, u32 x = x - 2 ^ 32 * q /\ 0 <= x - 2 ^ 32 * q < 2 ^ 32.
Proof. exists (x / 2 ^ 32). wrap_lia. Qed.

(** Replace each [u32 x] of the goal by [x - 2^32 * q], innermost first. *)
Ltac elim_u32 :=
  repeat match goal with
  | |- context [u32 ?x] =>
      lazymatch x with
      | context [u32 _] => fail
      | _ => let q := fresh "q" in let E := fresh "E" in let R := fresh "R" in
             destruct (u32_quot x) as (q & E & R); rewrite ?E in *; clear E
      end
  end.

Ltac split_q a :=
  let h := fresh "h" in let l := fresh "l" in let k := fresh "k" in
  let E := fresh "E" in
  destruct (of_q_split a) as (h & l & k & E & -> & ? & ?); rewrite ?E; clear E;
  cbn [ulH ulL].

Ltac cases_b2z :=
  repeat match goal with
  | |- context [Z.ltb ?x ?y] => destruct (Z.ltb_spec x y)
  | |- context [Z.gtb ?x ?y] => rewrite (Z.gtb_ltb x y)
  | |- context [Z.geb ?x ?y] => rewrite (Z.geb_leb x y)
  | |- context [Z.leb ?x ?y] => destruct (Z.leb_spec x y)
  | |- context [Z.eqb ?x ?y] => destruct (Z.eqb_spec x y)
  end; cbv [b2z] in *.

(** Name the quotient dropped from the high word. *)
Ltac elim_high q :=
  match goal with
  | |- exists k, u32 ?x * _ + _ = _ =>
      let E := fresh "E" in destruct (u32_quot x) as (q & E & ?); rewrite E; clear E
  end.

Lemma adddi3_eq a b : __adddi3 a b = s64 (a + b).
Proof.
  unfold __adddi3. split_q a. split_q b. apply to_q_ex. elim_high c.
  exists (- c - k - k0). cases_b2z; elim_u32; lia.
Qed.

Lemma subdi3_eq a b : __subdi3 a b = s64 (a - b).
Proof.
  unfold __subdi3. split_q a. split_q b. apply to_q_ex. elim_high c.
  exists (- c - k + k0). cases_b2z; elim_u32; lia.
Qed.

Lemma negdi2_eq a : __negdi2 a = s64 (- a).
Proof.
  unfold __negdi2. split_q a. apply to_q_ex. elim_high c.
  exists (- c + k). cases_b2z; elim_u32; lia.
Qed.

(** *** Bit-level view of a quad *)

Lemma u32_bits a i : 0 <= i -> Z.testbit (u32 a) i = (i <? 32) && Z.testbit a i.
Proof.
  intros. unfold u32. destruct (Z.ltb_spec i 32).
  - by rewrite Z.mod_pow2_bits_low by lia.
  - by rewrite Z.mod_pow2_bits_high by lia.
Qed.

Lemma s32_bits a i : 0 <= i -> Z.testbit (s32 a) i = Z.testbit a (Z.min i 31).
Proof.
  intros. unfold s32.
  assert (E : (a + 2 ^ 31) mod 2 ^ 32 - 2 ^ 31 =
              a mod 2 ^ 31 - (if Z.testbit a 31 then 2 ^ 31 else 0)).
  { rewrite Z.testbit_eqb by lia. destruct (Z.eqb_spec ((a / 2 ^ 31) mod 2) 1); wrap_lia. }
  rewrite E. destruct (Z.ltb_spec i 31) as [Hi|Hi].
  - rewrite Z.min_l by lia. destruct (Z.testbit a 31).
    + rewrite <- (Z.mod_pow2_bits_low _ 31) by lia.
      replace (a mod 2 ^ 31 - 2 ^ 31) with (a mod 2 ^ 31 + (-1) * 2 ^ 31) by lia.
      rewrite Z.mod_add, Z.mod_mod by lia. by rewrite Z.mod_pow2_bits_low by lia.
    + rewrite Z.sub_0_r. by rewrite Z.mod_pow2_bits_low by lia.
  - rewrite Z.min_r by lia. rewrite Z.testbit_eqb by lia.
    assert (0 <= a mod 2 ^ 31 < 2 ^ 31) by (apply Z.mod_pos_bound; lia).
    assert (2 ^ 31 <= 2 ^ i) by (apply Z.pow_le_mono_r; lia).
    destruct (Z.testbit a 31).
    + replace ((a mod 2 ^ 31 - 2 ^ 31) / 2 ^ i) with (-1); [done|].
      apply Z.div_unique with (a mod 2 ^ 31 - 2 ^ 31 + 2 ^ i); lia.
    + rewrite Z.sub_0_r, Z.div_small by lia. done.
Qed.

Lemma to_uq_bits h l i : 0 <= i -> 0 <= l < 2 ^ 32 ->
  Z.testbit (h * 2 ^ 32 + l) i =
  if i <? 32 then Z.testbit l i else Z.testbit h (i - 32).
Proof.
  intros Hi Hl. destruct (Z.ltb_spec i 32).
  - rewrite <- (Z.mod_pow2_bits_low _ 32) by lia.
    rewrite Z.add_comm, Z.mod_add by lia. by rewrite Z.mod_pow2_bits_low by lia.
  - replace i with (i - 32 + 32) at 1 by lia. rewrite <- Z.div_pow2_bits by lia.
    by rewrite Z.div_add_l, (Z.div_small l), Z.add_0_r by lia.
Qed.

(** Two integers with the same 64 low bits are the same quad. *)
Lemma s64_bits a b :
  (forall i, 0 <= i < 64 -> Z.testbit a i = Z.testbit b i) -> s64 a = s64 b.
Proof.
  intros H. rewrite <- (s64_u64 a), <- (s64_u64 b). f_equal. unfold u64.
  apply Z.bits_inj'. intros i Hi. destruct (Z.ltb_spec i 64).
  - rewrite !Z.mod_pow2_bits_low by lia. by apply H.
  - by rewrite !Z.mod_pow2_bits_high by lia.
Qed.

Lemma u32_bound_bits a : (forall i, 32 <= i -> Z.testbit a i = false) -> 0 <= a ->
  0 <= a < 2 ^ 32.
Proof.
  intros H Ha. assert (a = a mod 2 ^ 32) as ->; [|apply Z.mod_pos_bound; lia].
  apply Z.bits_inj'. intros i Hi. destruct (Z.ltb_spec i 32).
  - by rewrite Z.mod_pow2_bits_low by lia.
  - by rewrite Z.mod_pow2_bits_high, H by lia.
Qed.

(** Every operation below is proved bit by bit: the bits of its two words are
    the bits of the specification. *)
Lemma to_q_bits h l z :
  0 <= l -> (forall i, 32 <= i -> Z.testbit l i = false) ->
  (forall i, 0 <= i < 32 -> Z.testbit l i = Z.testbit z i) ->
  (forall i, 0 <= i < 32 -> Z.testbit h i = Z.testbit z (i + 32)) ->
  to_q (UU h l) = s64 z.
Proof.
  intros Hl0 Hl Hlo Hhi. apply s64_bits. intros i Hi.
  unfold to_uq; cbn [ulH ulL].
  rewrite to_uq_bits; [|lia|by apply u32_bound_bits].
  destruct (Z.ltb_spec i 32); [apply Hlo; lia|]. rewrite Hhi by lia. f_equal; lia.
Qed.

Lemma ulL_bits a i : Z.testbit (ulL (of_q a)) i = (i <? 32) && Z.testbit a i.
Proof.
  destruct (Z.ltb_spec i 0).
  - by rewrite !Z.testbit_neg_r, andb_false_r by done.
  - unfold of_q; cbn [ulL]. by apply u32_bits.
Qed.

Lemma ulH_bits a i :
  Z.testbit (ulH (of_q a)) i = (0 <=? i) && (i <? 32) && Z.testbit a (i + 32).
Proof.
  destruct (Z.leb_spec 0 i); [|by rewrite Z.testbit_neg_r].
  unfold of_q; cbn [ulH]. rewrite u32_bits by done.
  by rewrite Z.shiftr_spec by done.
Qed.

Lemma slH_bits a i : 0 <= i -> Z.testbit (slH (of_q a)) i = Z.testbit a (Z.min i 31 + 32).
Proof.
  intros. unfold slH. rewrite s32_bits, ulH_bits by done.
  destruct (Z.leb_spec 0 (Z.min i 31)), (Z.ltb_spec (Z.min i 31) 32); by try lia.
Qed.

Ltac qbits :=
  repeat first
    [ rewrite ulL_bits | rewrite ulH_bits | rewrite slH_bits by lia
    | rewrite u32_bits by lia | rewrite Z.bits_0
    | rewrite Z.land_spec | rewrite Z.lor_spec | rewrite Z.lxor_spec
    | rewrite Z.lnot_spec by lia
    | rewrite Z.shiftl_spec by lia | rewrite Z.shiftr_spec by lia ].

Ltac qcases :=
  repeat match goal with
  | |- context [Z.ltb ?x ?y] => destruct (Z.ltb_spec x y); try lia; cbn [andb orb negb]
  | |- context [Z.leb ?x ?y] => destruct (Z.leb_spec x y); try lia; cbn [andb orb negb]
  end.

(** Solve a bit goal: expand, split on the bit ranges, drop bits below 0. *)
Ltac qsolve :=
  intros; qbits; qcases;
  repeat match goal with
  | |- context [Z.testbit _ ?j] =>
      rewrite (Z.testbit_neg_r _ j) by lia; cbn [andb orb negb]
  end; rewrite ?andb_false_r, ?orb_false_r, ?andb_true_r; try reflexivity;
  try (f_equal; lia).

Lemma ulL_nonneg a : 0 <= ulL (of_q a).
Proof. apply of_q_range. Qed.
Lemma ulH_nonneg a : 0 <= ulH (of_q a).
Proof. apply of_q_range. Qed.

Lemma anddi3_eq a b : __anddi3 a b = s64 (Z.land a b).
Proof.
  apply to_q_bits; [|qsolve..]. apply Z.land_nonneg. left. apply ulL_nonneg.
Qed.

Lemma iordi3_eq a b : __iordi3 a b = s64 (Z.lor a b).
Proof.
  apply to_q_bits; [|qsolve..]. apply Z.lor_nonneg. split; apply ulL_nonneg.
Qed.

Lemma xordi3_eq a b : __xordi3 a b = s64 (Z.lxor a b).
Proof.
  apply to_q_bits; [|qsolve..]. apply Z.lxor_nonneg. split; intros; apply ulL_nonneg.
Qed.

Lemma one_cmpldi2_eq a : __one_cmpldi2 a = s64 (Z.lnot a).
Proof. apply to_q_bits; [apply u32_range|qsolve..]. Qed.

Lemma ashldi3_eq a n : 0 <= n < 64 -> - 2 ^ 63 <= a < 2 ^ 63 ->
  __ashldi3 a n = s64 (Z.shiftl a n).
Proof.
  intros Hn Ha. unfold __ashldi3, INT_BITS. destruct (Z.eqb_spec n 0) as [->|].
  { by rewrite Z.shiftl_0_r, s64_small. }
  rewrite Z.geb_leb. destruct (Z.leb_spec 32 n); (apply to_q_bits; [|qsolve..]).
  - lia.
  - apply u32_range.
Qed.

Lemma lshldi3_eq a n : 0 <= n < 64 -> - 2 ^ 63 <= a < 2 ^ 63 ->
  __lshldi3 a n = s64 (Z.shiftl a n).
Proof. apply ashldi3_eq. Qed.

Lemma shr_low_nonneg a n : 0 <= n ->
  0 <= Z.lor (Z.shiftr (ulL (of_q a)) n) (u32 (Z.shiftl (ulH (of_q a)) (32 - n))).
Proof.
  intros. apply Z.lor_nonneg. split.
  - apply Z.shiftr_nonneg, ulL_nonneg.
  - apply u32_range.
Qed.

Lemma u64_bits a i : 0 <= i -> Z.testbit (u64 a) i = (i <? 64) && Z.testbit a i.
Proof.
  intros. unfold u64. destruct (Z.ltb_spec i 64).
  - by rewrite Z.mod_pow2_bits_low by lia.
  - by rewrite Z.mod_pow2_bits_high by lia.
Qed.

Lemma lshrdi3_eq a n : 0 <= n < 64 -> - 2 ^ 63 <= a < 2 ^ 63 ->
  __lshrdi3 a n = s64 (Z.shiftr (u64 a) n).
Proof.
  intros Hn Ha. unfold __lshrdi3, INT_BITS. destruct (Z.eqb_spec n 0) as [->|].
  { by rewrite Z.shiftr_0_r, s64_u64, s64_small. }
  rewrite Z.geb_leb.
  destruct (Z.leb_spec 32 n); (apply to_q_bits; [| |intros; rewrite ?Z.shiftr_spec, ?u64_bits by lia..]);
    try (by qsolve).
  - apply Z.shiftr_nonneg, ulH_nonneg.
  - apply shr_low_nonneg; lia.
Qed.

(** The sign bit of a signed quad is repeated above bit 63. *)
Lemma s64_sign_bits a i : - 2 ^ 63 <= a < 2 ^ 63 -> 63 <= i ->
  Z.testbit a i = Z.testbit a 63.
Proof.
  intros Ha Hi. rewrite !Z.testbit_eqb by lia.
  assert (2 ^ 63 <= 2 ^ i) by (apply Z.pow_le_mono_r; lia).
  destruct (Z.ltb_spec a 0).
  - by rewrite <- (Z.div_unique a (2 ^ i) (-1) (a + 2 ^ i)),
      <- (Z.div_unique a (2 ^ 63) (-1) (a + 2 ^ 63)) by lia.
  - rewrite !Z.div_small by lia. done.
Qed.

Lemma s64_min_bits a j : - 2 ^ 63 <= a < 2 ^ 63 -> 0 <= j ->
  Z.testbit a j = Z.testbit a (Z.min j 63).
Proof.
  intros. destruct (Z.leb_spec j 63); [f_equal; lia|].
  rewrite Z.min_r by lia. apply s64_sign_bits; lia.
Qed.

Lemma ashrdi3_eq a n : 0 <= n < 64 -> - 2 ^ 63 <= a < 2 ^ 63 ->
  __ashrdi3 a n = Z.shiftr a n.
Proof.
  intros Hn Ha. rewrite <- (s64_small (Z.shiftr a n)).
  2: { rewrite Z.shiftr_div_pow2 by lia.
       assert (0 < 2 ^ n) by (apply Z.pow_pos_nonneg; lia).
       split; [apply Z.div_le_lower_bound | apply Z.div_lt_upper_bound]; nia. }
  unfold __ashrdi3, INT_BITS. destruct (Z.eqb_spec n 0) as [->|].
  { by rewrite Z.shiftr_0_r, s64_small. }
  rewrite Z.geb_leb. destruct (Z.leb_spec 32 n); apply to_q_bits;
    try (by qsolve); try apply u32_range; try (apply shr_low_nonneg; lia);
    intros; qbits; qcases; symmetry; rewrite (s64_min_bits a) by lia; f_equal; lia.
Qed.

(** The comparisons agree with the order of the (un)signed values. *)
Lemma cmpdi2_eq a b : - 2 ^ 63 <= a < 2 ^ 63 -> - 2 ^ 63 <= b < 2 ^ 63 ->
  __cmpdi2 a b = match a ?= b with Lt => 0 | Eq => 1 | Gt => 2 end.
Proof.
  intros Ha Hb. unfold __cmpdi2, slH.
  pose proof (of_q_uq a) as Ea. pose proof (of_q_uq b) as Eb.
  pose proof (of_q_range a) as [??]. pose proof (of_q_range b) as [??].
  unfold to_uq in *.
  assert (s32 (ulH (of_q a)) * 2 ^ 32 + ulL (of_q a) = a) by wrap_lia.
  assert (s32 (ulH (of_q b)) * 2 ^ 32 + ulL (of_q b) = b) by wrap_lia.
  cases_b2z; destruct (Z.compare_spec a b); lia.
Qed.

Lemma ucmpdi2_eq a b : 0 <= a < 2 ^ 64 -> 0 <= b < 2 ^ 64 ->
  __ucmpdi2 a b = match a ?= b with Lt => 0 | Eq => 1 | Gt => 2 end.
Proof.
  intros Ha Hb. unfold __ucmpdi2.
  pose proof (of_q_uq a) as Ea. pose proof (of_q_uq b) as Eb.
  pose proof (of_q_range a) as [??]. pose proof (of_q_range b) as [??].
  unfold to_uq in *. rewrite u64_small in Ea, Eb by done.
  cases_b2z; destruct (Z.compare_spec a b); lia.
Qed.

(** *** Multiplication *)

Lemma HHALF_div x : 0 <= x < 2 ^ 32 -> HHALF x = x / 2 ^ 16.
Proof. intros. unfold HHALF, HALF_BITS. rewrite u32_small by done. apply Z.shiftr_div_pow2. lia. Qed.

Lemma LHALF_mod x : LHALF x = u32 x mod 2 ^ 16.
Proof. unfold LHALF, HALF_BITS. rewrite <- Z.land_ones by lia. done. Qed.

Lemma LHUP_mod x : LHUP x = (u32 x mod 2 ^ 16) * 2 ^ 16.
Proof. unfold LHUP, HALF_BITS. rewrite Z.shiftl_mul_pow2 by lia. wrap_lia. Qed.

(** A 32-bit word as its two half words. *)
Lemma halves x : 0 <= x < 2 ^ 32 ->
  x = HHALF x * 2 ^ 16 + LHALF x /\ LHUP x = LHALF x * 2 ^ 16 /\
  0 <= HHALF x < 2 ^ 16 /\ 0 <= LHALF x < 2 ^ 16.
Proof.
  intros. rewrite HHALF_div, LHALF_mod, LHUP_mod by done. rewrite u32_small by done.
  Z.div_mod_to_equations; lia.
Qed.

(** The word pair [(h, l)] holds [z] modulo 2^64. *)
Definition holds_q (h l z : Z) : Prop :=
  0 <= l < 2 ^ 32 /\ exists k, h * 2 ^ 32 + l = z + k * 2 ^ 64.

Lemma holds_add h l z ah al : holds_q h l z -> 0 <= al < 2 ^ 32 ->
  holds_q (u32 (h + u32 (ah + b2z (u32 (l + al) <? l)))) (u32 (l + al))
          (z + ah * 2 ^ 32 + al).
Proof.
  intros (Hl & k & E) Ha. split; [apply u32_range|].
  elim_high c. destruct (u32_quot (ah + b2z (u32 (l + al) <? l))) as (d & -> & _).
  exists (k - c - d). cases_b2z; elim_u32; lia.
Qed.

Lemma holds_sub h l z ah al : holds_q h l z -> 0 <= al < 2 ^ 32 ->
  holds_q (u32 (h - u32 (ah + b2z (u32 (l - al) >? l)))) (u32 (l - al))
          (z - ah * 2 ^ 32 - al).
Proof.
  intros (Hl & k & E) Ha. split; [apply u32_range|].
  elim_high c. destruct (u32_quot (ah + b2z (u32 (l - al) >? l))) as (d & -> & _).
  exists (k - c + d). cases_b2z; elim_u32; lia.
Qed.

Lemma holds_inc h l z al : holds_q h l z -> 0 <= al < 2 ^ 32 ->
  holds_q (if u32 (l + al) <? al then u32 (h + 1) else h) (u32 (l + al)) (z + al).
Proof.
  intros (Hl & k & E) Ha. split; [apply u32_range|].
  destruct (Z.ltb_spec (u32 (l + al)) al).
  - elim_high c. exists (k - c). elim_u32; lia.
  - exists k. elim_u32; lia.
Qed.

(** Assembling the partial products of [__lmulq]:
    [(high << 32) + (high << 16) +/- (mid << 16) + (low << 16) + low]. *)
Lemma lmulq_assemble (neg : bool) high mid low :
  0 <= high < 2 ^ 32 -> 0 <= mid < 2 ^ 32 -> 0 <= low < 2 ^ 32 ->
  (let '(prodl, prodh) :=
    if neg then
      let was := LHUP high in
      let prodl := u32 (LHUP high - LHUP mid) in
      (prodl, u32 (u32 (high + HHALF high) - u32 (HHALF mid + b2z (prodl >? was))))
    else
      let was := LHUP high in
      let prodl := u32 (LHUP high + LHUP mid) in
      (prodl, u32 (u32 (high + HHALF high) + u32 (HHALF mid + b2z (prodl <? was)))) in
  let was := prodl in
  let prodl := u32 (prodl + LHUP low) in
  let prodh := u32 (prodh + u32 (HHALF low + b2z (prodl <? was))) in
  let prodl := u32 (prodl + low) in
  let prodh := if prodl <? low then u32 (prodh + 1) else prodh in
  to_q (UU prodh prodl)) =
  s64 (high * 2 ^ 32 + (high + (if neg then - mid else mid) + low) * 2 ^ 16 + low).
Proof.
  intros Hh Hm Hl.
  destruct (halves _ Hh) as (Eh & Uh & ? & ?). destruct (halves _ Hm) as (Em & Um & ? & ?).
  destruct (halves _ Hl) as (El & Ul & ? & ?).
  assert (Hb : holds_q (u32 (high + HHALF high)) (LHUP high) (high * 2 ^ 32 + high * 2 ^ 16)).
  { split; [lia|]. elim_high c. exists (- c). lia. }
  assert (Hmu : 0 <= LHUP mid < 2 ^ 32) by lia.
  assert (Hlu : 0 <= LHUP low < 2 ^ 32) by lia.
  destruct neg.
  - pose proof (holds_inc _ _ _ low (holds_add _ _ _ (HHALF low) _
      (holds_sub _ _ _ (HHALF mid) _ Hb Hmu) Hlu) Hl) as (_ & HH).
    etransitivity; [exact (to_q_ex _ _ _ HH)|]. f_equal. lia.
  - pose proof (holds_inc _ _ _ low (holds_add _ _ _ (HHALF low) _
      (holds_add _ _ _ (HHALF mid) _ Hb Hmu) Hlu) Hl) as (_ & HH).
    etransitivity; [exact (to_q_ex _ _ _ HH)|]. f_equal. lia.
Qed.

(** Drop the wrap on a difference the code has just ordered. *)
Ltac drop_diff :=
  repeat match goal with
  | |- context [u32 (?x - ?y)] => is_var x; is_var y; rewrite (u32_small (x - y)) by lia
  end.

Lemma lmulq_eq u v : 0 <= u < 2 ^ 32 -> 0 <= v < 2 ^ 32 -> __lmulq u v = s64 (u * v).
Proof.
  intros Hu Hv. unfold __lmulq.
  destruct (halves _ Hu) as (Eu & _ & ? & ?). destruct (halves _ Hv) as (Ev & _ & ? & ?).
  set (u1 := HHALF u) in *. set (u0 := LHALF u) in *.
  set (v1 := HHALF v) in *. set (v0 := LHALF v) in *. clearbody u1 u0 v1 v0. subst u v.
  assert (H3 : 0 <= u0 * v0 < 2 ^ 32) by nia. assert (H4 : 0 <= u1 * v1 < 2 ^ 32) by nia.
  rewrite (u32_small (u0 * v0)), (u32_small (u1 * v1)) by done.
  destruct ((u1 =? 0) && (v1 =? 0)) eqn:E0.
  { apply andb_true_iff in E0 as [->%Z.eqb_eq ->%Z.eqb_eq]. rewrite s64_small; lia. }
  rewrite !Z.geb_leb.
  assert (Hd : forall x y, 0 <= x < 2 ^ 16 -> 0 <= y < 2 ^ 16 -> 0 <= x * y < 2 ^ 32)
    by (intros; nia).
  destruct (Z.leb_spec u0 u1), (Z.leb_spec v1 v0);
    drop_diff; cbv beta iota delta [negb];
    match goal with |- context [u32 ((?x - ?y) * (?z - ?w))] =>
      assert (Hm : 0 <= (x - y) * (z - w) < 2 ^ 32) by (apply Hd; lia);
      rewrite (u32_small _ Hm)
    end.
  - etransitivity; [exact (lmulq_assemble false _ _ _ H4 Hm H3)|]. f_equal; ring.
  - etransitivity; [exact (lmulq_assemble true _ _ _ H4 Hm H3)|]. f_equal; ring.
  - etransitivity; [exact (lmulq_assemble true _ _ _ H4 Hm H3)|]. f_equal; ring.
  - etransitivity; [exact (lmulq_assemble false _ _ _ H4 Hm H3)|]. f_equal; ring.
Qed.

(** The high word of the product: the terms of weight 2^64 vanish. *)
Lemma muldi3_high u1 u0 v1 v0 high mid lowH lowL qh qm :
  lowH * 2 ^ 32 + lowL = u0 * v0 ->
  high = u1 * v1 - 2 ^ 32 * qh ->
  mid = (u1 - u0) * (v0 - v1) - 2 ^ 32 * qm ->
  to_q (UU (u32 (high + mid + lowL + lowH)) lowL) =
  s64 ((u1 * 2 ^ 32 + u0) * (v1 * 2 ^ 32 + v0)).
Proof.
  intros El -> ->. apply to_q_ex. elim_high c.
  exists (- c - qh - qm - u1 * v1 - lowH).
  replace ((u1 * 2 ^ 32 + u0) * (v1 * 2 ^ 32 + v0)) with
    (u1 * v1 * 2 ^ 64 + (u1 * v0 + u0 * v1) * 2 ^ 32 + u0 * v0) by ring.
  replace (u1 * v0 + u0 * v1) with (u1 * v1 + u0 * v0 + (u1 - u0) * (v0 - v1)) by ring.
  rewrite <- El. ring.
Qed.

(** The product of two non-negative quads held as words. *)
Lemma muldi3_unsigned u1 u0 v1 v0 :
  0 <= u1 < 2 ^ 32 -> 0 <= u0 < 2 ^ 32 -> 0 <= v1 < 2 ^ 32 -> 0 <= v0 < 2 ^ 32 ->
  to_q (if (u1 =? 0) && (v1 =? 0) then of_q (__lmulq u0 v0)
    else
      let low := of_q (__lmulq u0 v0) in
      let '(udiff, negmid) :=
        if u1 >=? u0 then (u32 (u1 - u0), false) else (u32 (u0 - u1), true) in
      let '(vdiff, negmid) :=
        if v0 >=? v1 then (u32 (v0 - v1), negmid) else (u32 (v1 - v0), negb negmid) in
      let mid := u32 (udiff * vdiff) in
      let high := u32 (u1 * v1) in
      UU (u32 (high + (if negmid then u32 (- mid) else mid) + ulL low + ulH low))
         (ulL low)) =
  s64 ((u1 * 2 ^ 32 + u0) * (v1 * 2 ^ 32 + v0)).
Proof.
  intros. assert (0 <= u0 * v0 < 2 ^ 64) by nia.
  rewrite lmulq_eq by done.
  assert (El : to_uq (of_q (s64 (u0 * v0))) = u0 * v0).
  { rewrite of_q_uq. unfold s64, u64. Z.div_mod_to_equations; lia. }
  destruct ((u1 =? 0) && (v1 =? 0)) eqn:E0.
  { apply andb_true_iff in E0 as [->%Z.eqb_eq ->%Z.eqb_eq].
    unfold to_q. rewrite El. f_equal; lia. }
  unfold to_uq in El. cbv zeta. generalize dependent (of_q (s64 (u0 * v0))). intros low El.
  destruct (u32_quot (u1 * v1)) as (qh & Eh & _).
  rewrite !Z.geb_leb.
  destruct (Z.leb_spec u0 u1), (Z.leb_spec v1 v0);
    drop_diff; cbv beta iota zeta delta [negb].
  1,4: match goal with |- context [u32 (?a * ?b)] =>
         lazymatch a with context [_ - _] =>
           destruct (u32_quot (a * b)) as (qm & Em & _);
           apply (muldi3_high _ _ _ _ _ _ _ _ qh qm El Eh); rewrite Em; ring end end.
  all: match goal with |- context [u32 (- u32 (?a * ?b))] =>
         destruct (u32_quot (a * b)) as (qm & Em & _);
         destruct (u32_quot (- u32 (a * b))) as (qn & En & _);
         apply (muldi3_high _ _ _ _ _ _ _ _ qh (qn - qm) El Eh); rewrite En, Em; ring end.
Qed.

(** [__muldi3] computes the low 64 bits of the signed product of any two
    64-bit operands: the sign handling, the shortcut for two one-word operands,
    the Knuth three-multiplication middle term and [__lmulq] together agree with
    multiplication modulo 2^64. *)
Theorem muldi3_eq a b : - 2 ^ 63 <= a < 2 ^ 63 -> - 2 ^ 63 <= b < 2 ^ 63 ->
  __muldi3 a b = s64 (a * b).
Proof.
  intros Ha Hb. unfold __muldi3.
  assert (Hneg : forall z, s64 (- s64 z) = s64 (- z)).
  { intros z. apply (s64_congr _ _ ((z + 2 ^ 63) / 2 ^ 64)). wrap_lia. }
  assert (Hm : forall x y, 0 <= x <= 2 ^ 63 -> 0 <= y <= 2 ^ 63 ->
    to_uq (of_q x) = x /\ to_uq (of_q y) = y).
  { intros x y ??. by rewrite !of_q_uq, !u64_small by lia. }
  rewrite !Z.geb_leb.
  destruct (Z.leb_spec 0 a), (Z.leb_spec 0 b); cbv iota beta zeta delta [negb];
    match goal with |- context [ulH (of_q ?x) =? 0] =>
    match goal with |- context [_ && (ulH (of_q ?y) =? 0)] =>
      destruct (Hm x y) as [Ex Ey]; [lia..|];
      destruct (of_q_range x), (of_q_range y);
      rewrite muldi3_unsigned by done; unfold to_uq in Ex, Ey; rewrite Ex, Ey
    end end; rewrite ?Hneg; f_equal; ring.
Qed.

Lemma muldi3_eq_witness :
  (- 2 ^ 63 <= -5000000000 < 2 ^ 63 /\ - 2 ^ 63 <= 7000000001 < 2 ^ 63) /\
  __muldi3 (-5000000000) 7000000001 = s64 (-5000000000 * 7000000001).
Proof. split; [lia|]. apply (muldi3_eq (-5000000000) 7000000001); lia. Defined.

(** the three 64-bit shifts agree with arithmetic for every count the
    compiler may pass (0..63): the left shift multiplies by a power of two
    modulo 2^64, the logical right shift divides the unsigned value and the
    arithmetic right shift rounds the signed value towards minus infinity. *)
Theorem shifts_eq a n : 0 <= n < 64 -> - 2 ^ 63 <= a < 2 ^ 63 ->
  __ashldi3 a n = s64 (a * 2 ^ n) /\
  __lshldi3 a n = s64 (a * 2 ^ n) /\
  __lshrdi3 a n = s64 (u64 a / 2 ^ n) /\
  __ashrdi3 a n = a / 2 ^ n.
Proof.
  intros Hn Ha.
  rewrite ashldi3_eq, lshldi3_eq, lshrdi3_eq, ashrdi3_eq by done.
  by rewrite Z.shiftl_mul_pow2, !Z.shiftr_div_pow2 by lia.
Qed.

Lemma shifts_eq_witness :
  (0 <= 37 < 64 /\ - 2 ^ 63 <= -123456789012345 < 2 ^ 63) /\
  __ashrdi3 (-123456789012345) 37 = -123456789012345 / 2 ^ 37.
Proof. split; [lia|]. apply (shifts_eq (-123456789012345) 37); lia. Defined.

End Quad.
