(* ===== verification/QDiv.v ===== *)
(** * libc/quad: 64-bit division

    [__qdivrem] of [libc/quad/qdivrem.c], Knuth's Algorithm D in base 2^16, and
    the signed and unsigned quotient and remainder routines built on it.  The
    digit arrays [uspace], [vspace] and [qspace] are lists of five 16-bit
    digits, and the moving pointers [u], [v] and [q] are offsets into them. *)

From S2P Require Import Prelude Quad.
Import Quad.

Module QDiv.

(** Digit base, and the two-digit combination macro. *)
Definition B : Z := Z.shiftl 1 HALF_BITS.
Definition COMBINE (a b : Z) : Z := Z.lor (u32 (Z.shiftl (u32 a) HALF_BITS)) b.

(** Array read; every index the code uses is in range. *)
Definition rd (a : list Z) (i : nat) : Z := nth i a 0.

(** [shl(p, len, sh)]: shift the digits [p[0..len]] left by [sh] bits; [p] is
    the offset [i] into [a] and [cnt] the number of digits still to do. *)
Fixpoint shl (a : list Z) (i cnt : nat) (sh : Z) : list Z :=
  match cnt with
  | O => <[i := u16 (LHALF (Z.shiftl (rd a i) sh))]> a
  | S cnt' =>
      shl (<[i := u16 (Z.lor (LHALF (Z.shiftl (rd a i) sh))
                             (Z.shiftr (rd a (S i)) (HALF_BITS - sh)))]> a)
          (S i) cnt' sh
  end.

(** [for (n = 4; v[1] == 0; v++) if (--n == 1) ...]: skip the leading zero
    digits of the divisor.  [inl vo] is the jump to the one-digit division. *)
Fixpoint strip_v (v : list Z) (vo n : nat) : nat + nat * nat :=
  match n with
  | O => inl vo
  | S n' =>
      if rd v (vo + 1) =? 0 then
        if (n' =? 1)%nat then inl vo else strip_v v (S vo) n'
      else inr (vo, n)
  end.

(** [for (m = 4 - n; u[1] == 0; u++) m--]. *)
Fixpoint strip_u (u : list Z) (uo m : nat) : nat * nat :=
  match m with
  | O => (uo, m)
  | S m' => if rd u (uo + 1) =? 0 then strip_u u (S uo) m' else (uo, m)
  end.

(** [for (i = 4 - m; --i >= 0;) q[i] = 0]. *)
Fixpoint zero_q (q : list Z) (i : nat) : list Z :=
  match i with
  | O => q
  | S i' => zero_q (<[i' := 0]> q) i'
  end.

(** [for (t = v[1]; t < B / 2; t <<= 1) d++]. *)
Fixpoint norm_d (fuel : nat) (t d : Z) : Z :=
  match fuel with
  | O => d
  | S fuel' => if t <? B / 2 then norm_d fuel' (u32 (Z.shiftl t 1)) (d + 1) else d
  end.

(** The label [qhat_too_big] and the loop test after it (step D3). *)
Fixpoint qhat_too_big (fuel : nat) (v1 v2 uj2 qhat rhat : Z) : Z :=
  let qhat := u32 (qhat - 1) in
  let rhat := u32 (rhat + v1) in
  if rhat >=? B then qhat else
  match fuel with
  | O => qhat
  | S fuel' =>
      if u32 (v2 * qhat) >? COMBINE rhat uj2
      then qhat_too_big fuel' v1 v2 uj2 qhat rhat
      else qhat
  end.

Definition calc_qhat (v1 v2 uj0 uj1 uj2 : Z) : Z :=
  if uj0 =? v1 then qhat_too_big 2 v1 v2 uj2 B uj1
  else
    let nn := COMBINE uj0 uj1 in
    let qhat := nn / v1 in
    let rhat := nn mod v1 in
    if u32 (v2 * qhat) >? COMBINE rhat uj2
    then qhat_too_big 2 v1 v2 uj2 qhat rhat
    else qhat.

(** Step D4: [for (t = 0, i = n; i > 0; i--)], [t] is the borrow. *)
Fixpoint mulsub (i : nat) (u v : list Z) (uj vo : nat) (qhat t : Z) : list Z * Z :=
  match i with
  | O => (u, t)
  | S i' =>
      let t := u32 (rd u (uj + i) - u32 (rd v (vo + i) * qhat) - t) in
      let u := <[(uj + i)%nat := u16 (LHALF t)]> u in
      let t := Z.land (u32 (B - HHALF t)) (B - 1) in
      mulsub i' u v uj vo qhat t
  end.

(** Step D6: add [v[1..n]] back to [u[j..j+n]]. *)
Fixpoint addback (i : nat) (u v : list Z) (uj vo : nat) (t : Z) : list Z * Z :=
  match i with
  | O => (u, t)
  | S i' =>
      let t := u32 (t + (rd u (uj + i) + rd v (vo + i))) in
      let u := <[(uj + i)%nat := u16 (LHALF t)]> u in
      let t := HHALF t in
      addback i' u v uj vo t
  end.

(** One iteration of the main loop (D3 to D6); [uj] is [&u[j]]. *)
Definition divstep (u v : list Z) (uj vo n : nat) (v1 v2 : Z) : list Z * Z :=
  let qhat := calc_qhat v1 v2 (rd u uj) (rd u (uj + 1)) (rd u (uj + 2)) in
  let '(u, t) := mulsub n u v uj vo qhat 0 in
  let t := u32 (rd u uj - t) in
  let u := <[uj := u16 (LHALF t)]> u in
  if negb (HHALF t =? 0) then
    let qhat := u32 (qhat - 1) in
    let '(u, t) := addback n u v uj vo 0 in
    let u := <[uj := u16 (LHALF (rd u uj + t))]> u in
    (u, qhat)
  else (u, qhat).

(** [do ... while (++j <= m)]: [cnt] iterations are left. *)
Fixpoint divloop (cnt : nat) (u v q : list Z) (uj vo qj n : nat) (v1 v2 : Z)
  : list Z * list Z :=
  match cnt with
  | O => (u, q)
  | S cnt' =>
      let '(u, qhat) := divstep u v uj vo n v1 v2 in
      divloop cnt' u v (<[qj := u16 qhat]> q) (S uj) vo (S qj) n v1 v2
  end.

(** The remainder, [u[m..m+n] >> d]:
    [for (i = m + n; i > m; --i) u[i] = ...; u[i] = 0]; [um] is [&u[m]]. *)
Fixpoint unnorm (i : nat) (u : list Z) (um : nat) (d : Z) : list Z :=
  match i with
  | O => <[um := 0]> u
  | S i' =>
      unnorm i'
        (<[(um + i)%nat := u16 (Z.lor (Z.shiftr (rd u (um + i)) d)
             (LHALF (Z.shiftl (rd u (um + i - 1)) (HALF_BITS - d))))]> u) um d
  end.

(** [tmp.ul[H] = COMBINE(a[1], a[2]); tmp.ul[L] = COMBINE(a[3], a[4])]. *)
Definition quad_of (a : list Z) : Z :=
  to_uq (UU (COMBINE (rd a 1) (rd a 2)) (COMBINE (rd a 3) (rd a 4))).

(** A quad as the digits [0, d1, d2, d3, d4]; digit 0 is [d0]. *)
Definition digits_of (d0 x : Z) : list Z :=
  let tmp := of_q x in
  [d0; u16 (HHALF (ulH tmp)); u16 (LHALF (ulH tmp));
       u16 (HHALF (ulL tmp)); u16 (LHALF (ulL tmp))].

(** Division by a one-digit divisor (exercise 16), completely unrolled. *)
Definition div1 (u : list Z) (t : Z) : Z * Z :=
  let q1 := u16 (rd u 1 / t) in
  let rbj := COMBINE (rd u 1 mod t) (rd u 2) in
  let q2 := u16 (rbj / t) in
  let rbj := COMBINE (rbj mod t) (rd u 3) in
  let q3 := u16 (rbj / t) in
  let rbj := COMBINE (rbj mod t) (rd u 4) in
  let q4 := u16 (rbj / t) in
  (to_uq (UU (COMBINE q1 q2) (COMBINE q3 q4)), rbj mod t).

(** [__qdivrem(uq, vq, &r)]: the quotient and the value stored in [r].
    [None] is the divide-error trap of [1 / zero].  [junk] is the content of
    the automatic arrays that the code never initialises. *)
Definition __qdivrem (junk : Z) (uq vq : Z) : option (Z * Z) :=
  if vq =? 0 then None
  else if uq <? vq then Some (0, uq)
  else
    let u := digits_of 0 uq in
    let v := digits_of junk vq in
    let q := replicate 5 junk in
    match strip_v v 0 4 with
    | inl vo => Some (div1 u (rd v (vo + 2)))
    | inr (vo, n) =>
        let '(uo, m) := strip_u u 0 (4 - n) in
        let q := zero_q q (4 - m) in
        let d := norm_d 16 (rd v (vo + 1)) 0 in
        let '(u, v) :=
          if d >? 0 then (shl u uo (m + n) d, shl v (vo + 1) (n - 1) d)
          else (u, v) in
        let '(u, q) := divloop (S m) u v q uo vo (4 - m) n (rd v (vo + 1)) (rd v (vo + 2)) in
        let u := if d =? 0 then u else unnorm n u (uo + m) d in
        Some (quad_of q, quad_of u)
    end.

Definition __udivdi3 (junk a b : Z) : option Z :=
  '(q, _) ← __qdivrem junk a b; Some q.

Definition __umoddi3 (junk a b : Z) : option Z :=
  '(_, r) ← __qdivrem junk a b; Some r.

Definition __divdi3 (junk a b : Z) : option Z :=
  let ua := u64 a in
  let ub := u64 b in
  let '(ua, neg) := if a <? 0 then (u64 (- ua), true) else (ua, false) in
  let '(ub, neg) := if b <? 0 then (u64 (- ub), negb neg) else (ub, neg) in
  '(uq, _) ← __qdivrem junk ua ub;
  let uq := if neg : bool then u64 (- uq) else uq in
  Some (s64 uq).

Definition __moddi3 (junk a b : Z) : option Z :=
  let ua := u64 a in
  let ub := u64 b in
  let '(ua, neg) := if a <? 0 then (u64 (- ua), true) else (ua, false) in
  let ub := if b <? 0 then u64 (- ub) else ub in
  '(_, ur) ← __qdivrem junk ua ub;
  let ur := if neg : bool then u64 (- ur) else ur in
  Some (s64 ur).

(** ** Multi-digit numbers *)

(** The digits [a[b], ..., a[b+k-1]], most significant first, as a number. *)
Fixpoint dval (a : list Z) (b k : nat) : Z :=
  match k with
  | O => 0
  | S k' => dval a b k' * 2 ^ 16 + rd a (b + k')
  end.

Definition digit (x : Z) : Prop := 0 <= x < 2 ^ 16.
Definition digits (a : list Z) : Prop := forall i, digit (rd a i).

Lemma B_eq : B = 2 ^ 16.
Proof. done. Qed.

Lemma rd_insert_eq a i x : (i < length a)%nat -> rd (<[i := x]> a) i = x.
Proof. intros. unfold rd. apply nth_lookup_Some. by apply list_lookup_insert_eq. Qed.

Lemma rd_insert_ne a i j x : i <> j -> rd (<[i := x]> a) j = rd a j.
Proof. intros. unfold rd. by rewrite !nth_lookup, list_lookup_insert_ne. Qed.

Lemma digits_insert a i x : digits a -> digit x -> digits (<[i := x]> a).
Proof.
  intros Ha Hx j. destruct (decide (i = j)) as [->|]; [|by rewrite rd_insert_ne].
  destruct (decide (j < length a)%nat); [by rewrite rd_insert_eq|].
  by rewrite list_insert_ge by lia.
Qed.

Lemma digit_LHALF x : digit (u16 (LHALF x)).
Proof. unfold digit, u16. apply Z.mod_pos_bound. lia. Qed.

Lemma u16_LHALF x : u16 (LHALF x) = x mod 2 ^ 16.
Proof. rewrite LHALF_mod. unfold u16, u32. Z.div_mod_to_equations; lia. Qed.

Lemma u16_digit x : digit x -> u16 x = x.
Proof. intros. unfold u16. by apply Z.mod_small. Qed.

Lemma dval_ext a a' b k :
  (forall i, (b <= i < b + k)%nat -> rd a i = rd a' i) -> dval a b k = dval a' b k.
Proof.
  induction k as [|k IH]; intros H; simpl; [done|].
  rewrite IH, (H (b + k)%nat); [done|lia|]. intros. apply H. lia.
Qed.

Lemma dval_insert_out a i x b k : (i < b \/ b + k <= i)%nat ->
  dval (<[i := x]> a) b k = dval a b k.
Proof. intros. apply dval_ext. intros. apply rd_insert_ne. lia. Qed.

Lemma pow16_S k : (2 ^ 16) ^ Z.of_nat (S k) = 2 ^ 16 * (2 ^ 16) ^ Z.of_nat k.
Proof. rewrite Nat2Z.inj_succ. apply Z.pow_succ_r. lia. Qed.

Lemma pow16_pos k : 0 < (2 ^ 16) ^ Z.of_nat k.
Proof. apply Z.pow_pos_nonneg; lia. Qed.

Lemma dval_bound a b k : digits a -> 0 <= dval a b k < (2 ^ 16) ^ Z.of_nat k.
Proof.
  intros Ha. induction k as [|k IH]; [simpl; lia|].
  rewrite pow16_S. cbn [dval]. pose proof (Ha (b + k)%nat) as H. unfold digit in H. lia.
Qed.

Lemma dval_add a b k1 k2 :
  dval a b (k1 + k2) = dval a b k1 * (2 ^ 16) ^ Z.of_nat k2 + dval a (b + k1) k2.
Proof.
  induction k2 as [|k2 IH].
  - rewrite Nat.add_0_r. cbn [dval]. change (Z.of_nat 0) with 0. rewrite Z.pow_0_r. lia.
  - rewrite Nat.add_succ_r, pow16_S. cbn [dval]. rewrite IH.
    rewrite (Nat.add_assoc b). ring.
Qed.

Lemma dval_1 a b : dval a b 1 = rd a b.
Proof. simpl. by rewrite Nat.add_0_r. Qed.

(** The most significant digit split off. *)
Lemma dval_head a b k : dval a b (S k) = rd a b * (2 ^ 16) ^ Z.of_nat k + dval a (b + 1) k.
Proof. by rewrite <- (Nat.add_1_l k), dval_add, dval_1. Qed.

Lemma COMBINE_eq a b : 0 <= a < 2 ^ 16 -> 0 <= b < 2 ^ 16 -> COMBINE a b = a * 2 ^ 16 + b.
Proof.
  intros. unfold COMBINE, HALF_BITS. rewrite (u32_small a) by lia.
  rewrite Z.shiftl_mul_pow2, u32_small by lia. by apply lor_shift_add.
Qed.

(** ** The inner loops *)

(** One digit of D4: the digit written and the borrow passed on. *)
Lemma borrow_digit x : - (2 ^ 32 - 2 ^ 16) <= x < 2 ^ 16 ->
  u16 (LHALF (u32 x)) = x mod 2 ^ 16 /\
  Z.land (u32 (B - HHALF (u32 x))) (B - 1) = - (x / 2 ^ 16).
Proof.
  intros Hx. split.
  { rewrite u16_LHALF. unfold u32. Z.div_mod_to_equations; lia. }
  rewrite HHALF_div by apply u32_range. rewrite B_eq.
  change (2 ^ 16 - 1) with (Z.ones 16). rewrite Z.land_ones by lia.
  unfold u32. Z.div_mod_to_equations; lia.
Qed.

(** D4 computes [u - qhat * v] on [i] digits, leaving the borrow. *)
Lemma mulsub_spec i u v uj vo qhat t u' t' :
  digits u -> digits v -> 0 <= qhat <= 2 ^ 16 - 1 -> digit t ->
  (uj + i < length u)%nat ->
  mulsub i u v uj vo qhat t = (u', t') ->
  digits u' /\ length u' = length u /\ digit t' /\
  (forall k, (k <= uj \/ uj + i < k)%nat -> rd u' k = rd u k) /\
  dval u' (uj + 1) i - t' * (2 ^ 16) ^ Z.of_nat i =
  dval u (uj + 1) i - qhat * dval v (vo + 1) i - t.
Proof.
  revert u t u' t'. induction i as [|i IH]; intros u t u' t' Hu Hv Hq Ht Hlen E.
  { simpl in E. simplify_eq. repeat split; auto; try apply Hu; try apply Ht. simpl. lia. }
  cbn [mulsub] in E.
  pose proof (Hu (uj + S i)%nat) as Da. pose proof (Hv (vo + S i)%nat) as Db.
  assert (Hp : 0 <= rd v (vo + S i) * qhat <= (2 ^ 16 - 1) * (2 ^ 16 - 1))
    by (unfold digit in *; nia).
  rewrite (u32_small (rd v _ * qhat)) in E by lia.
  set (x := rd u (uj + S i) - rd v (vo + S i) * qhat - t) in *.
  destruct (borrow_digit x) as [E1 E2]; [unfold digit in *; lia|].
  rewrite E1, E2 in E.
  assert (Dx : digit (x mod 2 ^ 16)) by (apply Z.mod_pos_bound; lia).
  assert (Dt : digit (- (x / 2 ^ 16))) by (unfold digit in *; Z.div_mod_to_equations; lia).
  apply IH in E as (Hu' & Hlen' & Ht' & Hout & Heq);
    [|by apply digits_insert|done|done|done|rewrite length_insert; lia].
  rewrite length_insert in Hlen'. repeat split; auto; try apply Hu'; try apply Ht'.
  - intros k Hk. rewrite Hout by lia. apply rd_insert_ne. lia.
  - rewrite pow16_S. cbn [dval].
    rewrite (Hout (uj + 1 + i)%nat) by lia.
    replace (uj + 1 + i)%nat with (uj + S i)%nat by lia.
    replace (vo + 1 + i)%nat with (vo + S i)%nat by lia.
    rewrite rd_insert_eq by lia. rewrite dval_insert_out in Heq by lia.
    assert (Ex : x = 2 ^ 16 * (x / 2 ^ 16) + x mod 2 ^ 16) by (apply Z.div_mod; lia).
    revert Heq Ex. generalize (x / 2 ^ 16) (x mod 2 ^ 16). intros qx rx Heq Ex.
    subst x. clear - Heq Ex. nia.
Qed.

(** D6 computes [u + v] on [i] digits, leaving the carry. *)
Lemma addback_spec i u v uj vo t u' t' :
  digits u -> digits v -> 0 <= t <= 1 ->
  (uj + i < length u)%nat ->
  addback i u v uj vo t = (u', t') ->
  digits u' /\ length u' = length u /\ 0 <= t' <= 1 /\
  (forall k, (k <= uj \/ uj + i < k)%nat -> rd u' k = rd u k) /\
  dval u' (uj + 1) i + t' * (2 ^ 16) ^ Z.of_nat i =
  dval u (uj + 1) i + dval v (vo + 1) i + t.
Proof.
  revert u t u' t'. induction i as [|i IH]; intros u t u' t' Hu Hv Ht Hlen E.
  { simpl in E. simplify_eq. repeat split; auto; try apply Hu; try lia. simpl. lia. }
  cbn [addback] in E.
  pose proof (Hu (uj + S i)%nat) as Da. pose proof (Hv (vo + S i)%nat) as Db.
  set (x := t + (rd u (uj + S i) + rd v (vo + S i))) in *.
  assert (Hx : 0 <= x < 2 ^ 17) by (unfold digit in *; lia).
  rewrite (u32_small x) in E by lia. rewrite u16_LHALF, HHALF_div in E by lia.
  assert (Dx : digit (x mod 2 ^ 16)) by (apply Z.mod_pos_bound; lia).
  apply IH in E as (Hu' & Hlen' & Ht' & Hout & Heq);
    [|by apply digits_insert|done|Z.div_mod_to_equations; lia|rewrite length_insert; lia].
  rewrite length_insert in Hlen'. repeat split; auto; try apply Hu'; try lia.
  - intros k Hk. rewrite Hout by lia. apply rd_insert_ne. lia.
  - rewrite pow16_S. cbn [dval].
    rewrite (Hout (uj + 1 + i)%nat) by lia.
    replace (uj + 1 + i)%nat with (uj + S i)%nat by lia.
    replace (vo + 1 + i)%nat with (vo + S i)%nat by lia.
    rewrite rd_insert_eq by lia. rewrite dval_insert_out in Heq by lia.
    assert (Ex : x = 2 ^ 16 * (x / 2 ^ 16) + x mod 2 ^ 16) by (apply Z.div_mod; lia).
    revert Heq Ex. generalize (x / 2 ^ 16) (x mod 2 ^ 16). intros qx rx Heq Ex.
    subst x. clear - Heq Ex. nia.
Qed.

(** ** Step D3: the trial quotient digit *)

Section TrialDigit.
(** The window [U] of the dividend and the divisor [V], by their leading
    digits: three for [U], two for [V], and the [P]-digit tails. *)
Variables (v1 v2 uj0 uj1 uj2 P vr ur U V q : Z).
Hypothesis Hv1 : 2 ^ 15 <= v1 < 2 ^ 16.
Hypothesis Hv2 : 0 <= v2 < 2 ^ 16.
Hypothesis Hu0 : 0 <= uj0 < 2 ^ 16.
Hypothesis Hu1 : 0 <= uj1 < 2 ^ 16.
Hypothesis Hu2 : 0 <= uj2 < 2 ^ 16.
Hypothesis HP : 0 < P.
Hypothesis Hvr : 0 <= vr < P.
Hypothesis Hur : 0 <= ur < P.
Hypothesis HV : V = (v1 * 2 ^ 16 + v2) * P + vr.
Hypothesis HU : U = ((uj0 * 2 ^ 16 + uj1) * 2 ^ 16 + uj2) * P + ur.
Hypothesis Hsmall : U < V * 2 ^ 16.
Hypothesis Hq : q * V <= U < (q + 1) * V.

Let N := uj0 * 2 ^ 16 + uj1.
Let D := v1 * 2 ^ 16 + v2.

Lemma trial_V_pos : 2 ^ 16 * P <= V.
Proof. rewrite HV. nia. Qed.

Lemma trial_q_bound : 0 <= q < 2 ^ 16.
Proof.
  pose proof trial_V_pos. assert (0 <= U) by (rewrite HU; nia).
  split; [|nia]. destruct (Z.leb_spec 0 q); nia.
Qed.

Lemma trial_exit qhat rhat :
  qhat * v1 + rhat = N -> 0 <= qhat <= 2 ^ 16 ->
  v2 * qhat <= rhat * 2 ^ 16 + uj2 -> qhat <= q + 1.
Proof.
  intros E Hqh Hle. pose proof trial_V_pos as HVp.
  assert (H1 : qhat * D <= N * 2 ^ 16 + uj2) by (subst D; lia).
  assert (H2 : qhat * D * P <= U).
  { rewrite HU. fold N. transitivity ((N * 2 ^ 16 + uj2) * P); [|lia].
    apply Z.mul_le_mono_nonneg_r; lia. }
  assert (H3 : qhat * V = qhat * D * P + qhat * vr) by (rewrite HV; subst D; ring).
  assert (H4 : qhat * vr <= 2 ^ 16 * vr) by (apply Z.mul_le_mono_nonneg_r; lia).
  assert (H5 : qhat * V < (q + 2) * V) by lia.
  apply Z.mul_lt_mono_pos_r in H5; lia.
Qed.

Lemma trial_dec qhat rhat :
  qhat * v1 + rhat = N -> 0 <= qhat ->
  rhat * 2 ^ 16 + uj2 < v2 * qhat -> q < qhat.
Proof.
  intros E Hqh Hlt. pose proof trial_V_pos as HVp.
  assert (H1 : N * 2 ^ 16 + uj2 + 1 <= qhat * D) by (subst D; lia).
  assert (H2 : (N * 2 ^ 16 + uj2 + 1) * P <= qhat * D * P)
    by (apply Z.mul_le_mono_nonneg_r; lia).
  assert (H3 : qhat * D * P <= qhat * V).
  { rewrite HV. fold D. rewrite <- Z.mul_assoc. apply Z.mul_le_mono_nonneg_l; lia. }
  assert (H5 : q * V < qhat * V) by (rewrite HU in Hq; fold N in Hq; lia).
  apply Z.mul_lt_mono_pos_r in H5; lia.
Qed.

Lemma prod_u32 x : 0 <= x <= 2 ^ 16 -> 0 <= v2 * x < 2 ^ 32.
Proof. intros. nia. Qed.

Lemma too_big_spec fuel qhat rhat :
  qhat * v1 + rhat = N -> 1 <= qhat <= 2 ^ 16 -> q < qhat ->
  0 <= rhat < 2 ^ 16 -> (fuel <> O \/ 2 ^ 15 <= rhat) ->
  q <= qhat_too_big fuel v1 v2 uj2 qhat rhat <= q + 1 /\
  0 <= qhat_too_big fuel v1 v2 uj2 qhat rhat <= 2 ^ 16 - 1.
Proof.
  pose proof trial_q_bound as Hqb.
  assert (Hexit : forall qh rh, qh * v1 + rh = N -> 0 <= qh < 2 ^ 16 ->
            2 ^ 16 <= rh -> qh <= q + 1).
  { intros qh rh ???. apply (trial_exit _ rh); [done|lia|].
    pose proof (prod_u32 qh). nia. }
  revert qhat rhat. induction fuel as [|fuel IH]; intros qhat rhat E Hqh Hlt Hr Hf;
    cbn [qhat_too_big]; rewrite (u32_small (qhat - 1)), (u32_small (rhat + v1)) by lia;
    rewrite Z.geb_leb, B_eq; destruct (Z.leb_spec (2 ^ 16) (rhat + v1)) as [Hge|Hge].
  - pose proof (Hexit (qhat - 1) (rhat + v1)). lia.
  - lia.
  - pose proof (Hexit (qhat - 1) (rhat + v1)). lia.
  - rewrite COMBINE_eq by lia. pose proof (prod_u32 (qhat - 1) ltac:(lia)).
    rewrite u32_small by done. rewrite Z.gtb_ltb.
    destruct (Z.ltb_spec ((rhat + v1) * 2 ^ 16 + uj2) (v2 * (qhat - 1))) as [Hc|Hc].
    + assert (q < qhat - 1) by (apply (trial_dec _ (rhat + v1)); lia).
      apply IH; lia.
    + assert (qhat - 1 <= q + 1) by (apply (trial_exit _ (rhat + v1)); lia). lia.
Qed.

(** [floor(uj0 uj1 / v1)] is never below the true digit. *)
Lemma trial_ge qhat rhat :
  qhat * v1 + rhat = N -> rhat < v1 -> q <= qhat.
Proof.
  intros E Hr. destruct (Z.leb_spec q qhat) as [|Hlt]; [done|]. exfalso.
  pose proof trial_q_bound.
  assert (H1 : N + 1 <= q * v1) by nia.
  assert (H2 : (N + 1) * (2 ^ 16 * P) <= q * v1 * (2 ^ 16 * P))
    by (apply Z.mul_le_mono_nonneg_r; lia).
  assert (H3 : q * (v1 * 2 ^ 16 * P) <= q * V).
  { apply Z.mul_le_mono_nonneg_l; [lia|]. rewrite HV. nia. }
  rewrite HU in Hq. fold N in Hq. nia.
Qed.

Lemma calc_qhat_spec :
  q <= calc_qhat v1 v2 uj0 uj1 uj2 <= q + 1 /\ 0 <= calc_qhat v1 v2 uj0 uj1 uj2 <= 2 ^ 16 - 1.
Proof.
  pose proof trial_q_bound as Hqb. unfold calc_qhat.
  destruct (Z.eqb_spec uj0 v1) as [Heq|Hne].
  { rewrite B_eq. apply too_big_spec; subst N; lia. }
  assert (Hu01 : uj0 < v1).
  { destruct (Z.ltb_spec uj0 v1); [done|]. exfalso.
    assert (H1 : (v1 + 1) * (2 ^ 32 * P) <= uj0 * (2 ^ 32 * P))
      by (apply Z.mul_le_mono_nonneg_r; lia).
    assert (H2 : v2 * (2 ^ 16 * P) <= (2 ^ 16 - 1) * (2 ^ 16 * P))
      by (apply Z.mul_le_mono_nonneg_r; lia).
    rewrite HU, HV in Hsmall. nia. }
  rewrite COMBINE_eq by done. fold N. cbv zeta.
  pose proof (Z.div_mod N v1 ltac:(lia)) as Ed.
  pose proof (Z.mod_pos_bound N v1 ltac:(lia)) as Hm.
  assert (Hd : 0 <= N / v1 <= 2 ^ 16 - 1).
  { subst N. split; [apply Z.div_pos; lia|]. apply Z.lt_le_pred, Z.div_lt_upper_bound; lia. }
  revert Ed Hm Hd. generalize (N / v1) (N mod v1). intros qhat rhat Ed Hm Hd.
  rewrite COMBINE_eq by lia. rewrite u32_small by (apply prod_u32; lia). rewrite Z.gtb_ltb.
  destruct (Z.ltb_spec (rhat * 2 ^ 16 + uj2) (v2 * qhat)) as [Hc|Hc].
  - assert (q < qhat) by (apply (trial_dec _ rhat); lia).
    apply too_big_spec; lia.
  - assert (qhat <= q + 1) by (apply (trial_exit _ rhat); lia).
    assert (q <= qhat) by (apply (trial_ge _ rhat); lia). lia.
Qed.
End TrialDigit.

(** ** Steps D3 to D6: one digit of the quotient *)

Lemma HHALF_sign y : - 2 ^ 16 < y < 2 ^ 16 ->
  negb (HHALF (u32 y) =? 0) = (y <? 0).
Proof.
  intros. rewrite HHALF_div by apply u32_range. destruct (Z.ltb_spec y 0).
  - destruct (Z.eqb_spec (u32 y / 2 ^ 16) 0) as [E|]; [|done]. exfalso. wrap_lia.
  - rewrite u32_small, Z.div_small by lia. done.
Qed.

Lemma mod_unique_Z a b q r : 0 <= r < b -> a = b * q + r -> a / b = q /\ a mod b = r.
Proof.
  intros. split; [symmetry; apply (Z.div_unique _ _ q r); lia
                 |symmetry; apply (Z.mod_unique _ _ q r); lia].
Qed.

Lemma divstep_spec u v uj vo n V :
  digits u -> digits v -> (2 <= n)%nat -> (uj + n < length u)%nat ->
  V = dval v (vo + 1) n -> 2 ^ 15 <= rd v (vo + 1) ->
  dval u uj (S n) < V * 2 ^ 16 ->
  exists u' qh, divstep u v uj vo n (rd v (vo + 1)) (rd v (vo + 2)) = (u', qh) /\
  digits u' /\ length u' = length u /\ digit qh /\
  (forall k, (k < uj \/ uj + n < k)%nat -> rd u' k = rd u k) /\
  qh = dval u uj (S n) / V /\ dval u' uj (S n) = dval u uj (S n) mod V.
Proof.
  intros Hu Hv Hn Hlen HV Hv1 Hsmall.
  pose proof (dval_bound u (uj + 3) (n - 2) Hu) as Bu.
  pose proof (dval_bound v (vo + 3) (n - 2) Hv) as Bv.
  pose proof (pow16_pos (n - 2)) as HP.
  assert (EU : dval u uj (S n) = ((rd u uj * 2 ^ 16 + rd u (uj + 1)) * 2 ^ 16 + rd u (uj + 2))
                 * (2 ^ 16) ^ Z.of_nat (n - 2) + dval u (uj + 3) (n - 2)).
  { replace (S n) with (3 + (n - 2))%nat by lia. rewrite dval_add.
    cbn [dval]. rewrite Nat.add_0_r. ring. }
  assert (EV : V = (rd v (vo + 1) * 2 ^ 16 + rd v (vo + 2))
                 * (2 ^ 16) ^ Z.of_nat (n - 2) + dval v (vo + 3) (n - 2)).
  { rewrite HV. replace n with (2 + (n - 2))%nat at 1 by lia. rewrite dval_add.
    cbn [dval]. rewrite Nat.add_0_r. replace (vo + 1 + 1)%nat with (vo + 2)%nat by lia.
    replace (vo + 1 + 2)%nat with (vo + 3)%nat by lia. ring. }
  pose proof (dval_bound v (vo + 1) n Hv) as BV. rewrite <- HV in BV.
  assert (HVp : 0 < V) by (rewrite EV; pose proof (Hv (vo + 2)%nat) as Hd2; unfold digit in Hd2; nia).
  pose proof (dval_bound u uj (S n) Hu) as BW.
  set (W := dval u uj (S n)) in *.
  assert (Hq0 : 0 <= W / V) by (apply Z.div_pos; lia).
  pose proof (Z.div_mod W V ltac:(lia)) as Edm. pose proof (Z.mod_pos_bound W V HVp) as Hmod.
  destruct (calc_qhat_spec (rd v (vo + 1)) (rd v (vo + 2)) (rd u uj) (rd u (uj + 1))
     (rd u (uj + 2)) _ _ _ W V (W / V) ltac:(split; [done|apply Hv]) ltac:(apply Hv)
     ltac:(apply Hu) ltac:(apply Hu) ltac:(apply Hu) HP Bv Bu EV EU Hsmall ltac:(nia))
    as [Hqh Hqd].
  unfold divstep. set (qhat := calc_qhat _ _ _ _ _) in *. clearbody qhat.
  destruct (mulsub n u v uj vo qhat 0) as [u1 t1] eqn:Em.
  apply mulsub_spec in Em as (Hu1 & Hl1 & Ht1 & Hout1 & Eq1);
    [|done|done|lia|unfold digit; lia|lia].
  rewrite <- HV in Eq1. rewrite (Hout1 uj) by lia.
  pose proof (Hu uj) as Du. pose proof (dval_bound u1 (uj + 1) n Hu1) as B1.
  set (y := rd u uj - t1) in *.
  assert (Hy : - 2 ^ 16 < y < 2 ^ 16) by (unfold digit in *; lia).
  set (Bn := (2 ^ 16) ^ Z.of_nat n) in *.
  assert (Etot : y * Bn + dval u1 (uj + 1) n = W - qhat * V).
  { subst W. rewrite dval_head. fold Bn. subst y. lia. }
  rewrite HHALF_sign by done.
  assert (Dy : digit (u16 (LHALF (u32 y)))) by apply digit_LHALF.
  destruct (Z.ltb_spec y 0) as [Hneg|Hpos].
  - (* qhat was one too large: add back *)
    assert (Eqh : qhat = W / V + 1) by nia.
    set (u2 := <[uj := u16 (LHALF (u32 y))]> u1).
    assert (Hu2 : digits u2) by by apply digits_insert.
    destruct (addback n u2 v uj vo 0) as [u3 c] eqn:Ea.
    apply addback_spec in Ea as (Hu3 & Hl3 & Hc & Hout3 & Eq3);
      [|done|done|lia|subst u2; rewrite length_insert; lia].
    subst u2. rewrite length_insert in Hl3. rewrite dval_insert_out, <- HV in Eq3 by lia.
    fold Bn in Eq3. rewrite (Hout3 uj), rd_insert_eq by lia.
    pose proof (dval_bound u3 (uj + 1) n Hu3) as B3. fold Bn in B3, B1.
    assert (Hyc : y + c = 0) by nia.
    assert (Ez : u16 (LHALF (u16 (LHALF (u32 y)) + c)) = 0).
    { rewrite !u16_LHALF. rewrite Z.add_mod_idemp_l by lia.
      unfold u32. Z.div_mod_to_equations; lia. }
    rewrite Ez. eexists _, _. split; [reflexivity|]. split_and!.
    + apply digits_insert; [done|]. unfold digit; lia.
    + rewrite length_insert. lia.
    + unfold digit. rewrite u32_small; lia.
    + intros k Hk. rewrite rd_insert_ne, Hout3, rd_insert_ne, Hout1 by lia. done.
    + rewrite u32_small; lia.
    + rewrite dval_head, dval_insert_out, rd_insert_eq by lia. nia.
  - assert (Eqh : qhat = W / V) by nia.
    eexists _, _. split; [reflexivity|]. split_and!; auto.
    + by apply digits_insert.
    + rewrite length_insert. lia.
    + unfold digit. lia.
    + intros k Hk. rewrite rd_insert_ne, Hout1 by lia. done.
    + rewrite dval_head, dval_insert_out, rd_insert_eq by lia. fold Bn.
      rewrite u16_LHALF, u32_small, Z.mod_small by lia. lia.
Qed.

(** ** The main loop: long division *)

Lemma divloop_spec cnt u v q uj vo qj n V :
  digits u -> digits v -> (2 <= n)%nat -> (uj + n + cnt <= length u)%nat ->
  (qj + cnt <= length q)%nat ->
  V = dval v (vo + 1) n -> 2 ^ 15 <= rd v (vo + 1) ->
  dval u uj n < V ->
  exists u' q', divloop cnt u v q uj vo qj n (rd v (vo + 1)) (rd v (vo + 2)) = (u', q') /\
  digits u' /\ length u' = length u /\ length q' = length q /\
  (forall k, (k < uj \/ uj + n + cnt <= k)%nat -> rd u' k = rd u k) /\
  (forall k, (k < qj \/ qj + cnt <= k)%nat -> rd q' k = rd q k) /\
  (forall k, (qj <= k < qj + cnt)%nat -> digit (rd q' k)) /\
  dval q' qj cnt = dval u uj (n + cnt) / V /\
  dval u' uj (n + cnt) = dval u uj (n + cnt) mod V.
Proof.
  revert u q uj qj. induction cnt as [|cnt IH];
    intros u q uj qj Hu Hv Hn Hlen Hqlen HV Hv1 Hlead; cbn [divloop].
  { exists u, q. rewrite (Nat.add_0_r n). pose proof (dval_bound u uj n Hu).
    split_and!; auto; try (intros; lia).
    - rewrite Z.div_small; [done|lia].
    - rewrite Z.mod_small; [done|lia]. }
  pose proof (dval_bound u uj n Hu) as Bl. pose proof (dval_bound v (vo + 1) n Hv) as BV.
  rewrite <- HV in BV. assert (HVp : 0 < V) by lia.
  assert (Hw : dval u uj (S n) < V * 2 ^ 16).
  { cbn [dval]. pose proof (Hu (uj + n)%nat) as Hd. unfold digit in Hd. nia. }
  destruct (divstep_spec u v uj vo n V) as (u1 & qh & -> & Hu1 & Hl1 & Hqh & Hout1 & Eq & Er);
    auto; [lia|].
  pose proof (Z.mod_pos_bound (dval u uj (S n)) V HVp) as Hm. rewrite <- Er in Hm.
  (* the remainder fits in n digits, so the leading digit is now zero *)
  assert (Hz : rd u1 uj = 0 /\ dval u1 (uj + 1) n = dval u1 uj (S n)).
  { rewrite dval_head in Hm |- *. pose proof (Hu1 uj) as Hd. unfold digit in Hd.
    pose proof (dval_bound u1 (uj + 1) n Hu1).
    assert (rd u1 uj = 0) by nia. lia. }
  destruct Hz as [Hz Hz'].
  destruct (IH u1 (<[qj := u16 qh]> q) (S uj) (S qj))
    as (u' & q' & -> & Hu' & Hl' & Hlq & Hout & Houtq & Hdq & Eq' & Er'); auto.
  { lia. } { rewrite length_insert. lia. }
  { replace (S uj) with (uj + 1)%nat by lia. lia. }
  rewrite length_insert in Hlq.
  exists u', q'. split; [done|]. rewrite u16_digit in * by done.
  replace (S uj) with (uj + 1)%nat in * by lia. replace (S qj) with (qj + 1)%nat in * by lia.
  set (Bc := (2 ^ 16) ^ Z.of_nat cnt) in *.
  assert (EX : dval u uj (n + S cnt) = dval u uj (S n) * Bc + dval u (uj + S n) cnt).
  { replace (n + S cnt)%nat with (S n + cnt)%nat by lia. by rewrite dval_add. }
  assert (EX1 : dval u1 (uj + 1) (n + cnt) = dval u1 uj (S n) * Bc + dval u (uj + S n) cnt).
  { rewrite dval_add, Hz'. f_equal. replace (uj + 1 + n)%nat with (uj + S n)%nat by lia.
    apply dval_ext. intros. apply Hout1. lia. }
  pose proof (Z.div_mod (dval u uj (S n)) V ltac:(lia)) as Ew.
  rewrite <- Eq, <- Er in Ew.
  pose proof (Z.div_mod (dval u1 (uj + 1) (n + cnt)) V ltac:(lia)) as Ex1.
  pose proof (Z.mod_pos_bound (dval u1 (uj + 1) (n + cnt)) V HVp) as Hm1.
  rewrite <- Eq', <- Er' in Ex1. rewrite <- Er' in Hm1.
  assert (Hq0 : rd q' qj = qh).
  { rewrite Houtq by lia. apply rd_insert_eq. lia. }
  assert (Hu0 : rd u' uj = 0) by (rewrite Hout; [done|lia]).
  assert (Eqv : dval q' qj (S cnt) = qh * Bc + dval q' (qj + 1) cnt) by (by rewrite dval_head, Hq0).
  assert (Erv : dval u' uj (n + S cnt) = dval u' (uj + 1) (n + cnt)).
  { rewrite Nat.add_succ_r, dval_head, Hu0. lia. }
  assert (Hfin : dval u uj (n + S cnt) / V = dval q' qj (S cnt) /\
                 dval u uj (n + S cnt) mod V = dval u' uj (n + S cnt)).
  { apply mod_unique_Z; [lia|]. rewrite EX, Erv, Eqv, Ew. rewrite EX1 in Ex1.
    rewrite Z.mul_add_distr_l. nia. }
  destruct Hfin as [F1 F2]. split_and!; auto; try lia.
  - intros k Hk. rewrite Hout, Hout1 by lia. done.
  - intros k Hk. rewrite Houtq by lia. apply rd_insert_ne. lia.
  - intros k Hk. destruct (decide (k = qj)) as [->|]; [by rewrite Hq0|]. apply Hdq. lia.
Qed.

(** ** Normalisation and its inverse *)

Lemma shl_spec a i cnt sh :
  digits a -> (i + cnt < length a)%nat -> 0 < sh < 16 ->
  digits (shl a i cnt sh) /\ length (shl a i cnt sh) = length a /\
  (forall k, (k < i \/ i + cnt < k)%nat -> rd (shl a i cnt sh) k = rd a k) /\
  dval (shl a i cnt sh) i (S cnt) =
  (dval a i (S cnt) * 2 ^ sh) mod (2 ^ 16) ^ Z.of_nat (S cnt).
Proof.
  revert a i. induction cnt as [|cnt IH]; intros a i Ha Hlen Hsh; cbn [shl].
  { rewrite u16_LHALF, Z.shiftl_mul_pow2 by lia.
    assert (D : digit ((rd a i * 2 ^ sh) mod 2 ^ 16)) by (apply Z.mod_pos_bound; lia).
    split_and!; [by apply digits_insert|by rewrite length_insert
                |intros; by apply rd_insert_ne; lia|].
    rewrite !dval_1, rd_insert_eq by lia. done. }
  set (w := u16 _). set (e := 2 ^ (16 - sh)). set (g := 2 ^ sh).
  assert (He : 0 < e) by (apply Z.pow_pos_nonneg; lia).
  assert (Hg : 0 < g) by (apply Z.pow_pos_nonneg; lia).
  assert (Heg : 2 ^ 16 = e * g) by (subst e g; rewrite <- Z.pow_add_r by lia; f_equal; lia).
  pose proof (Ha i) as D0. pose proof (Ha (S i)) as D1. unfold digit in D0, D1.
  assert (Ew : w = (rd a i * g) mod 2 ^ 16 + rd a (S i) / e /\ digit w).
  { subst w. unfold HALF_BITS. rewrite LHALF_mod, Z.shiftl_mul_pow2, Z.shiftr_div_pow2 by lia.
    fold g e.
    assert (E1 : u32 (rd a i * g) mod 2 ^ 16 = (rd a i mod e) * g).
    { unfold u32. rewrite <- Znumtheory.Zmod_div_mod; [|lia|lia|by exists (2 ^ 16)].
      rewrite Heg. by rewrite Z.mul_mod_distr_r by lia. }
    assert (E2 : (rd a i * g) mod 2 ^ 16 = (rd a i mod e) * g).
    { rewrite Heg. by rewrite Z.mul_mod_distr_r by lia. }
    assert (H1 : 0 <= rd a (S i) / e < g).
    { split; [apply Z.div_pos; lia|apply Z.div_lt_upper_bound; lia]. }
    rewrite E1, E2. pose proof (Z.mod_pos_bound (rd a i) e He).
    assert (El : Z.lor (rd a i mod e * g) (rd a (S i) / e) = rd a i mod e * g + rd a (S i) / e)
      by (apply lor_shift_add; fold g; lia).
    rewrite El.
    assert (Hr : digit (rd a i mod e * g + rd a (S i) / e)) by (unfold digit; nia).
    rewrite u16_digit by exact Hr. split; [done|exact Hr]. }
  destruct Ew as [Ew Dw].
  destruct (IH (<[i := w]> a) (S i)) as (Hd & Hl & Hout & Eq).
  { by apply digits_insert. } { rewrite length_insert. lia. } { done. }
  rewrite length_insert in Hl. split_and!; auto.
  - intros k Hk. rewrite Hout by lia. apply rd_insert_ne. lia.
  - rewrite dval_head. replace (i + 1)%nat with (S i) by lia.
    rewrite Eq, Hout, rd_insert_eq by lia. rewrite dval_insert_out by lia.
    rewrite (dval_head a i). replace (i + 1)%nat with (S i) by lia.
    rewrite (pow16_S (S cnt)). fold g.
    set (y := dval a (S i) (S cnt)). set (Bn := (2 ^ 16) ^ Z.of_nat (S cnt)).
    assert (HBn : 0 < Bn) by apply pow16_pos.
    (* the bits leaving the tail are the top bits of its first digit *)
    assert (Ey : rd a (S i) / e = y * g / Bn).
    { set (Bm := (2 ^ 16) ^ Z.of_nat cnt).
      assert (HBm : 0 < Bm) by apply pow16_pos.
      assert (Hy : y = rd a (S i) * Bm + dval a (S i + 1) cnt) by apply dval_head.
      assert (Hz : 0 <= dval a (S i + 1) cnt < Bm) by (by apply dval_bound).
      assert (HB : Bn = Bm * e * g) by (subst Bn; rewrite pow16_S; fold Bm; rewrite Heg; ring).
      rewrite HB, Z.div_mul_cancel_r by nia.
      rewrite <- Z.div_div by lia. f_equal. rewrite Hy.
      rewrite Z.div_add_l, (Z.div_small (dval _ _ _)) by lia. lia. }
    rewrite Ew, Ey.
    pose proof (Z.div_mod (y * g) Bn ltac:(lia)) as Ed.
    pose proof (Z.mod_pos_bound (y * g) Bn HBn).
    pose proof (Z.div_mod (rd a i * g) (2 ^ 16) ltac:(lia)) as Edi.
    symmetry. apply (mod_unique_Z _ _ (rd a i * g / 2 ^ 16)); [|nia].
    rewrite Ey in Ew. unfold digit in Dw. rewrite Ew in Dw. nia.
Qed.

Lemma unnorm_spec i u um d :
  digits u -> (um + i < length u)%nat -> 0 < d < 16 ->
  digits (unnorm i u um d) /\ length (unnorm i u um d) = length u /\
  rd (unnorm i u um d) um = 0 /\
  (forall k, (k < um \/ um + i < k)%nat -> rd (unnorm i u um d) k = rd u k) /\
  dval (unnorm i u um d) (um + 1) i =
  (dval u um (S i) / 2 ^ d) mod (2 ^ 16) ^ Z.of_nat i.
Proof.
  revert u. induction i as [|i IH]; intros u Hu Hlen Hd; cbn [unnorm].
  { split_and!; [apply digits_insert; [done|unfold digit; lia]|by rewrite length_insert
     |apply rd_insert_eq; lia|intros; apply rd_insert_ne; lia|].
    change (Z.of_nat 0) with 0. rewrite Z.pow_0_r, Z.mod_1_r. done. }
  set (w := u16 _). set (e := 2 ^ (16 - d)). set (g := 2 ^ d).
  assert (He : 0 < e) by (apply Z.pow_pos_nonneg; lia).
  assert (Hg : 0 < g) by (apply Z.pow_pos_nonneg; lia).
  assert (Heg : 2 ^ 16 = e * g) by (subst e g; rewrite <- Z.pow_add_r by lia; f_equal; lia).
  set (x := rd u (um + S i)). set (p := rd u (um + i)).
  assert (Dx : digit x) by apply Hu. assert (Dp : digit p) by apply Hu. unfold digit in Dx, Dp.
  assert (Ew : w = (p mod g) * e + x / g /\ digit w).
  { subst w. unfold HALF_BITS. replace (um + S i - 1)%nat with (um + i)%nat by lia.
    fold x p. rewrite LHALF_mod, Z.shiftl_mul_pow2, Z.shiftr_div_pow2 by lia. fold g e.
    assert (E1 : u32 (p * e) mod 2 ^ 16 = (p mod g) * e).
    { unfold u32. rewrite <- Znumtheory.Zmod_div_mod; [|lia|lia|by exists (2 ^ 16)].
      rewrite Heg, (Z.mul_comm e g). by rewrite Z.mul_mod_distr_r by lia. }
    assert (Hx : 0 <= x / g < e).
    { split; [apply Z.div_pos; lia|apply Z.div_lt_upper_bound; lia]. }
    pose proof (Z.mod_pos_bound p g Hg). rewrite E1, Z.lor_comm.
    assert (El : Z.lor (p mod g * e) (x / g) = p mod g * e + x / g)
      by (apply lor_shift_add; fold e; lia).
    assert (Hr : digit (p mod g * e + x / g)) by (unfold digit; nia).
    rewrite El, u16_digit by exact Hr. split; [done|exact Hr]. }
  destruct Ew as [Ew Dw].
  destruct (IH (<[(um + S i)%nat := w]> u)) as (Hd' & Hl & Hz & Hout & Eq).
  { by apply digits_insert. } { rewrite length_insert. lia. } { done. }
  rewrite length_insert in Hl. split_and!; auto.
  - intros k Hk. rewrite Hout by lia. apply rd_insert_ne. lia.
  - cbn [dval] in Eq |- *. replace (um + 1 + i)%nat with (um + S i)%nat by lia.
    rewrite Hout, rd_insert_eq by lia. rewrite Eq.
    rewrite dval_insert_out, rd_insert_ne by lia. fold p x g in Eq |- *.
    set (A := dval u um i * 2 ^ 16 + p). rewrite pow16_S.
    set (Bi := (2 ^ 16) ^ Z.of_nat i). assert (HBi : 0 < Bi) by apply pow16_pos.
    assert (Hpg : p mod g = A mod g).
    { subst A. rewrite Heg, Z.mul_assoc, Z.add_comm, Z.mod_add by lia. done. }
    pose proof (Z.div_mod A g ltac:(lia)) as EA. pose proof (Z.mod_pos_bound A g Hg).
    assert (Ediv : (A * 2 ^ 16 + x) / g = 2 ^ 16 * (A / g) + w).
    { replace (A * 2 ^ 16 + x) with (A * e * g + x) by (rewrite Heg; ring).
      rewrite Z.div_add_l by lia. rewrite Ew, Hpg, Heg, EA at 1. ring. }
    rewrite Ediv. pose proof (Z.div_mod (A / g) Bi ltac:(lia)) as EB.
    pose proof (Z.mod_pos_bound (A / g) Bi HBi).
    symmetry. apply (mod_unique_Z _ _ (A / g / Bi)); [unfold digit in Dw; nia|].
    rewrite EB at 1. ring.
Qed.

(** A number smaller than its low digits allow has zero high digits. *)
Lemma dval_high_zero a b k1 k2 : digits a ->
  dval a b (k1 + k2) < (2 ^ 16) ^ Z.of_nat k2 ->
  dval a b k1 = 0 /\ dval a (b + k1) k2 = dval a b (k1 + k2).
Proof.
  intros Ha. rewrite dval_add. intros H. pose proof (dval_bound a b k1 Ha).
  pose proof (dval_bound a (b + k1) k2 Ha). pose proof (pow16_pos k2).
  assert (dval a b k1 = 0) by nia. lia.
Qed.

Lemma dval_zero a b k : (forall i, (b <= i < b + k)%nat -> rd a i = 0) -> dval a b k = 0.
Proof.
  induction k as [|k IH]; intros H; cbn [dval]; [done|].
  rewrite IH, H; [done|lia|]. intros. apply H. lia.
Qed.

Lemma dval_zero_inv a b k : digits a -> dval a b k = 0 ->
  forall i, (b <= i < b + k)%nat -> rd a i = 0.
Proof.
  intros Ha. induction k as [|k IH]; intros E i Hi; [lia|]. cbn [dval] in E.
  pose proof (dval_bound a b k Ha). pose proof (Ha (b + k)%nat) as Hd. unfold digit in Hd.
  destruct (decide (i = b + k)%nat) as [->|]; [lia|]. apply IH; lia.
Qed.

Lemma strip_u_spec u uo m : digits u ->
  forall uo' m', strip_u u uo m = (uo', m') ->
  (uo' + m' = uo + m)%nat /\ (uo <= uo')%nat /\
  (forall i, (uo < i <= uo')%nat -> rd u i = 0).
Proof.
  intros Hu. revert uo. induction m as [|m IH]; intros uo uo' m' E; cbn [strip_u] in E.
  { simplify_eq. split_and!; [done|done|]. intros; lia. }
  destruct (Z.eqb_spec (rd u (uo + 1)) 0) as [Ez|]; [|simplify_eq; split_and!; try done; intros; lia].
  apply IH in E as (E1 & E2 & E3). split_and!; [lia|lia|]. intros i Hi.
  destruct (decide (i = uo + 1)%nat) as [->|]; [done|]. apply E3. lia.
Qed.

Lemma strip_v_spec v : digits v -> 0 < dval v 1 4 ->
  match strip_v v 0 4 with
  | inl vo => dval v 1 4 = rd v (vo + 2) /\ 0 < rd v (vo + 2)
  | inr (vo, n) => (vo + n = 4)%nat /\ (2 <= n)%nat /\ 0 < rd v (vo + 1) /\
                   dval v 1 4 = dval v (vo + 1) n
  end.
Proof.
  intros Hv Hpos. assert (Hge : forall i, 0 <= rd v i) by (intros i; apply Hv).
  pose proof (Hge 1%nat). pose proof (Hge 2%nat). pose proof (Hge 3%nat).
  cbn [dval Nat.add] in Hpos. cbn [strip_v Nat.add Nat.eqb].
  destruct (Z.eqb_spec (rd v 1) 0) as [E1|]; [|cbn [dval Nat.add]; split_and!; lia].
  destruct (Z.eqb_spec (rd v 2) 0) as [E2|]; [|cbn [dval Nat.add]; split_and!; lia].
  destruct (Z.eqb_spec (rd v 3) 0) as [E3|]; [|cbn [dval Nat.add]; split_and!; lia].
  cbn [dval Nat.add]. lia.
Qed.

Lemma norm_d_spec fuel t d0 : 1 <= t < 2 ^ 16 -> 2 ^ 15 <= t * 2 ^ Z.of_nat fuel ->
  exists k, norm_d fuel t d0 = d0 + k /\ 0 <= k <= Z.of_nat fuel /\
            2 ^ 15 <= t * 2 ^ k < 2 ^ 16.
Proof.
  revert t d0. induction fuel as [|fuel IH]; intros t d0 Ht Hf; cbn [norm_d].
  { exists 0. change (Z.of_nat 0) with 0 in *. rewrite Z.pow_0_r in *. lia. }
  change (B / 2) with (2 ^ 15). destruct (Z.ltb_spec t (2 ^ 15)).
  - rewrite Z.shiftl_mul_pow2, u32_small by lia. rewrite Nat2Z.inj_succ, Z.pow_succ_r in Hf by lia.
    destruct (IH (t * 2 ^ 1) (d0 + 1)) as (k & E & Hk & Hb); [lia|lia|].
    exists (1 + k). rewrite E. split; [lia|]. split; [lia|].
    rewrite Z.pow_add_r by lia. lia.
  - exists 0. rewrite Z.pow_0_r. lia.
Qed.

Lemma zero_q_spec q i : (i <= length q)%nat ->
  length (zero_q q i) = length q /\
  (forall k, (k < i)%nat -> rd (zero_q q i) k = 0) /\
  (forall k, (i <= k)%nat -> rd (zero_q q i) k = rd q k).
Proof.
  revert q. induction i as [|i IH]; intros q Hi; cbn [zero_q].
  { split_and!; [done|intros; lia|done]. }
  destruct (IH (<[i := 0]> q)) as (Hl & Hz & Hk); [rewrite length_insert; lia|].
  rewrite length_insert in Hl. split_and!; [done| |].
  - intros k Hki. destruct (decide (k = i)) as [->|]; [|apply Hz; lia].
    rewrite Hk by lia. apply rd_insert_eq. lia.
  - intros k Hki. rewrite Hk by lia. apply rd_insert_ne. lia.
Qed.

Lemma quad_of_eq a : (forall i, (1 <= i <= 4)%nat -> digit (rd a i)) -> quad_of a = dval a 1 4.
Proof.
  intros H. unfold quad_of, to_uq. cbn [ulH ulL].
  rewrite !COMBINE_eq by (apply H; lia). cbn [dval Nat.add]. ring.
Qed.

Lemma digits_of_eq d0 x : 0 <= x < 2 ^ 64 -> dval (digits_of d0 x) 1 4 = x.
Proof.
  intros. unfold digits_of. pose proof (of_q_uq x) as E. unfold to_uq in E.
  rewrite u64_small in E by done. destruct (of_q_range x) as [HH HL].
  destruct (halves _ HH) as (EH & _ & ? & ?). destruct (halves _ HL) as (EL & _ & ? & ?).
  cbn [dval rd nth Nat.add]. rewrite !u16_digit by done. lia.
Qed.

Lemma digits_of_digits d0 x : digit d0 -> digits (digits_of d0 x).
Proof.
  intros H i. unfold digits_of, rd.
  do 5 (destruct i as [|i]; [first [exact H | unfold digit, u16; apply Z.mod_pos_bound; lia]|]).
  destruct i; unfold digit; simpl; lia.
Qed.

Lemma div1_spec u t : digits u -> digit t -> 0 < t ->
  div1 u t = (dval u 1 4 / t, dval u 1 4 mod t).
Proof.
  intros Hu Dt Ht.
  assert (Hstep : forall r i, 0 <= r < t ->
    COMBINE r (rd u i) = r * 2 ^ 16 + rd u i /\
    digit ((r * 2 ^ 16 + rd u i) / t) /\ 0 <= (r * 2 ^ 16 + rd u i) mod t < t).
  { intros r i Hr. pose proof (Hu i) as Di. unfold digit in *.
    split_and!; [rewrite COMBINE_eq; lia|apply Z.div_pos; lia|apply Z.div_lt_upper_bound; nia
      |apply Z.mod_pos_bound; lia..]. }
  pose proof (Hu 1%nat) as D1.
  assert (H1 : digit (rd u 1 / t)).
  { unfold digit in *. split; [apply Z.div_pos; lia|apply Z.div_lt_upper_bound; nia]. }
  pose proof (Z.mod_pos_bound (rd u 1) t Ht) as R1.
  pose proof (Z.div_mod (rd u 1) t ltac:(lia)) as E1.
  unfold div1.
  destruct (Hstep _ 2%nat R1) as (C2 & D2 & R2). rewrite C2 in *.
  pose proof (Z.div_mod (rd u 1 mod t * 2 ^ 16 + rd u 2) t ltac:(lia)) as E2.
  destruct (Hstep _ 3%nat R2) as (C3 & D3 & R3). rewrite C3 in *.
  set (r2 := (rd u 1 mod t * 2 ^ 16 + rd u 2) mod t) in *.
  pose proof (Z.div_mod (r2 * 2 ^ 16 + rd u 3) t ltac:(lia)) as E3.
  destruct (Hstep _ 4%nat R3) as (C4 & D4 & R4). rewrite C4 in *.
  set (r3 := (r2 * 2 ^ 16 + rd u 3) mod t) in *.
  pose proof (Z.div_mod (r3 * 2 ^ 16 + rd u 4) t ltac:(lia)) as E4.
  rewrite !u16_digit by done. unfold to_uq; cbn [ulH ulL].
  rewrite !COMBINE_eq by done. cbn [dval Nat.add].
  set (r4 := (r3 * 2 ^ 16 + rd u 4) mod t) in *.
  match goal with |- (?Q, _) = (?D / _, _) => destruct (mod_unique_Z D t Q r4 R4) as [-> ->] end;
    [lia|done].
Qed.

(** *** The three phases of [__qdivrem]: normalise, divide, denormalise *)

Lemma norm_shift_spec a i cnt d :
  digits a -> (i + cnt < length a)%nat -> 0 <= d < 16 ->
  dval a i (S cnt) * 2 ^ d < (2 ^ 16) ^ Z.of_nat (S cnt) ->
  let a' := if d >? 0 then shl a i cnt d else a in
  digits a' /\ length a' = length a /\
  (forall k, (k < i)%nat -> rd a' k = rd a k) /\
  dval a' i (S cnt) = dval a i (S cnt) * 2 ^ d.
Proof.
  intros Ha Hlen Hd Hb a'. subst a'. pose proof (dval_bound a i (S cnt) Ha).
  destruct (Z.gtb_spec d 0).
  - destruct (shl_spec a i cnt d) as (H1 & H2 & H3 & H4); [done|done|lia|].
    split_and!; auto. rewrite H4. apply Z.mod_small. nia.
  - replace d with 0 by lia. rewrite Z.pow_0_r. split_and!; auto. lia.
Qed.

Lemma denorm_spec n u um d R :
  digits u -> (um + n < length u)%nat -> 0 <= d < 16 ->
  dval u um (S n) = R * 2 ^ d -> 0 <= R < (2 ^ 16) ^ Z.of_nat n ->
  (forall k, (k < um)%nat -> rd u k = 0) ->
  let u' := if d =? 0 then u else unnorm n u um d in
  digits u' /\ dval u' 0 (um + 1 + n) = R.
Proof.
  intros Hu Hlen Hd EU HR Hz u'. subst u'. destruct (Z.eqb_spec d 0) as [->|].
  { split; [done|]. rewrite <- Nat.add_assoc, dval_add, dval_zero by (intros; apply Hz; lia).
    change (1 + n)%nat with (S n). rewrite Nat.add_0_l, EU, Z.pow_0_r. lia. }
  destruct (unnorm_spec n u um d) as (H1 & H2 & H3 & H4 & H5); [done|done|lia|].
  split; [done|]. rewrite dval_add, dval_zero.
  - rewrite Nat.add_0_l, H5, EU, Z.div_mul by (apply Z.pow_nonzero; lia).
    rewrite Z.mod_small by done. lia.
  - intros i Hi. destruct (decide (i = um)) as [->|]; [done|]. rewrite H4 by lia. apply Hz. lia.
Qed.

(** The normalised divisor has its top bit set and still fits in [n] digits. *)
Lemma norm_divisor v i n d : digits v -> (2 <= n)%nat -> 0 <= d ->
  2 ^ 15 <= rd v i * 2 ^ d < 2 ^ 16 ->
  dval v i n * 2 ^ d < (2 ^ 16) ^ Z.of_nat n /\
  2 ^ 15 * (2 ^ 16) ^ Z.of_nat (n - 1) <= dval v i n * 2 ^ d.
Proof.
  intros Hv Hn Hd Hb. destruct n as [|n]; [lia|]. replace (S n - 1)%nat with n by lia.
  rewrite dval_head, pow16_S. set (x := rd v i) in *.
  pose proof (dval_bound v (i + 1) n Hv). set (y := dval v _ n) in *.
  set (P := (2 ^ 16) ^ Z.of_nat n) in *. assert (HP : 0 < P) by apply pow16_pos.
  assert (Hg : 0 < 2 ^ d) by (apply Z.pow_pos_nonneg; lia).
  assert (Hx : 0 < x) by nia.
  assert (Hdle : d <= 16).
  { destruct (Z.le_gt_cases d 16); [done|]. assert (2 ^ 16 <= 2 ^ d) by (apply Z.pow_le_mono_r; lia). nia. }
  assert (E : 2 ^ 16 = 2 ^ (16 - d) * 2 ^ d) by (rewrite <- Z.pow_add_r by lia; f_equal; lia).
  assert (x < 2 ^ (16 - d)) by nia. split; [|nia].
  assert (x * P + y < 2 ^ (16 - d) * P) by nia.
  replace (2 ^ 16 * P) with (2 ^ (16 - d) * P * 2 ^ d) by (rewrite E; ring). nia.
Qed.

Lemma top_digit v i n c : digits v -> (1 <= n)%nat ->
  c * (2 ^ 16) ^ Z.of_nat (n - 1) <= dval v i n -> c <= rd v i.
Proof.
  intros Hv Hn H. destruct n as [|n]; [lia|]. replace (S n - 1)%nat with n in H by lia.
  rewrite dval_head in H. pose proof (dval_bound v (i + 1) n Hv). pose proof (pow16_pos n). nia.
Qed.

Lemma lead_digits u1 v uo i m n U V g :
  digits u1 -> digits v -> (2 <= n)%nat -> 0 < g -> V = dval v i n -> 0 < rd v i ->
  0 <= U < (2 ^ 16) ^ Z.of_nat (m + n) -> dval u1 uo (S (m + n)) = U * g ->
  dval u1 uo n < V * g.
Proof.
  intros Hu1 Hv Hn Hg HV Hpos BU Eu1.
  replace (S (m + n)) with (n + S m)%nat in Eu1 by lia. rewrite dval_add in Eu1.
  pose proof (dval_bound u1 (uo + n) (S m) Hu1). pose proof (pow16_pos (S m)).
  pose proof (pow16_pos (n - 1)).
  assert (HVl : (2 ^ 16) ^ Z.of_nat (n - 1) <= V).
  { rewrite HV. replace n with (S (n - 1)) at 2 by lia. rewrite dval_head.
    pose proof (dval_bound v (i + 1) (n - 1) Hv). nia. }
  replace (m + n)%nat with (n - 1 + S m)%nat in BU by lia.
  rewrite Nat2Z.inj_add, Z.pow_add_r in BU by lia.
  assert (HUV : U < V * (2 ^ 16) ^ Z.of_nat (S m)) by nia. nia.
Qed.

Lemma remainder_quad u uo m n d R :
  digits u -> length u = 5%nat -> (uo + m + n = 4)%nat -> 0 <= d < 16 ->
  dval u uo (S (m + n)) = R * 2 ^ d -> 0 <= R < (2 ^ 16) ^ Z.of_nat n ->
  (forall k, (k < uo)%nat -> rd u k = 0) ->
  quad_of (if d =? 0 then u else unnorm n u (uo + m) d) = R.
Proof.
  intros Hu Lu Hm Hd Er HR Hz.
  assert (Hg : 0 < 2 ^ d < 2 ^ 16) by (split; [apply Z.pow_pos_nonneg|apply Z.pow_lt_mono_r]; lia).
  replace (S (m + n)) with (m + S n)%nat in Er by lia.
  destruct (dval_high_zero u uo m (S n)) as [Z0 Elow]; [done|rewrite Er, pow16_S; nia|].
  destruct (denorm_spec n u (uo + m) d R) as [D3 E3]; try done; try lia.
  { intros k Hk. destruct (decide (k < uo)%nat); [by apply Hz|].
    apply (dval_zero_inv u uo m); [done|done|lia]. }
  rewrite quad_of_eq by (intros; apply D3). set (u3 := if d =? 0 then _ else _) in *.
  replace (uo + m + 1 + n)%nat with (1 + 4)%nat in E3 by lia.
  destruct (dval_high_zero u3 0 1 4 D3) as [_ Hfin].
  { rewrite E3. assert ((2 ^ 16) ^ Z.of_nat n <= (2 ^ 16) ^ Z.of_nat 4)
      by (apply Z.pow_le_mono_r; lia). lia. }
  cbn [Nat.add] in Hfin, E3. by rewrite Hfin.
Qed.

Lemma long_division u v q uo vo m n :
  digits u -> digits v -> length u = 5%nat -> length v = 5%nat -> length q = 5%nat ->
  (uo + m + n = 4)%nat -> (vo + n = 4)%nat -> (2 <= n)%nat -> 0 < rd v (vo + 1) ->
  (forall k, (k <= uo)%nat -> rd u k = 0) ->
  let d := norm_d 16 (rd v (vo + 1)) 0 in
  let u1 := if d >? 0 then shl u uo (m + n) d else u in
  let v1 := if d >? 0 then shl v (vo + 1) (n - 1) d else v in
  let U := dval u 0 5 in
  let V := dval v (vo + 1) n in
  exists u2 q2,
    divloop (S m) u1 v1 (zero_q q (4 - m)) uo vo (4 - m) n (rd v1 (vo + 1)) (rd v1 (vo + 2))
      = (u2, q2) /\
    quad_of q2 = U / V /\
    quad_of (if d =? 0 then u2 else unnorm n u2 (uo + m) d) = U mod V.
Proof.
  intros Hu Hv Lu Lv Lq Hm Hvo Hn Hv1 Hz d u1 v1 U V.
  pose proof (Hv (vo + 1)%nat) as Dv. unfold digit in Dv.
  destruct (norm_d_spec 16 (rd v (vo + 1)) 0) as (k & Ed & Hk & Hb); [lia|lia|].
  change (norm_d _ _ 0) with d in Ed. rewrite Z.add_0_l in Ed. rewrite <- Ed in Hk, Hb. clear k Ed.
  assert (Hd : 0 <= d < 16).
  { split; [lia|]. destruct (Z.eq_dec d 16) as [E|]; [rewrite E in Hb; lia|lia]. }
  destruct (norm_divisor v (vo + 1) n d) as [HV1 HV2]; [done|done|lia|done|]. fold V in HV1, HV2.
  set (g := 2 ^ d) in *. assert (Hg : 0 < g) by (apply Z.pow_pos_nonneg; lia).
  assert (Hgb : g < 2 ^ 16) by (apply Z.pow_lt_mono_r; lia).
  pose proof (pow16_pos n) as Pn. pose proof (pow16_pos (n - 1)) as Pn1.
  assert (HV : 0 < V) by nia.
  assert (EU : U = dval u uo (S (m + n)) /\ dval u uo (S (m + n)) = dval u (uo + 1) (m + n)).
  { subst U. replace 5%nat with (uo + S (m + n))%nat by lia.
    rewrite dval_add, (dval_zero u 0 uo) by (intros; apply Hz; lia). cbn [Nat.add].
    rewrite dval_head, Hz by lia. lia. }
  destruct EU as [EU EU']. pose proof (dval_bound u (uo + 1) (m + n) Hu) as BU.
  rewrite <- EU', <- EU in BU.
  destruct (norm_shift_spec u uo (m + n) d) as (Du1 & Lu1 & Fu1 & Eu1); [done|lia|done| |].
  { rewrite <- EU, pow16_S. fold g. nia. }
  destruct (norm_shift_spec v (vo + 1) (n - 1) d) as (Dv1 & Lv1 & Fv1 & Ev1); [done|lia|done| |].
  { replace (S (n - 1)) with n by lia. done. }
  fold u1 in Du1, Lu1, Fu1, Eu1. fold v1 in Dv1, Lv1, Fv1, Ev1.
  replace (S (n - 1)) with n in Ev1 by lia. fold V g in Ev1, Eu1. rewrite <- EU in Eu1.
  destruct (zero_q_spec q (4 - m)) as (Lz & Zz & _); [lia|].
  assert (Hlead : dval u1 uo n < V * g).
  { apply (lead_digits u1 v uo (vo + 1) m n U V); try done; lia. }
  destruct (divloop_spec (S m) u1 v1 (zero_q q (4 - m)) uo vo (4 - m) n (V * g))
    as (u2 & q2 & E & Du2 & Lu2 & Lq2 & Fu2 & Fq2 & Dq2 & Eq & Er);
    [done|done|lia|lia|lia|lia| |done|].
  { apply (top_digit v1 (vo + 1) n); [done|lia|]. rewrite Ev1. exact HV2. }
  exists u2, q2. split; [exact E|].
  replace (n + S m)%nat with (S (m + n)) in Eq, Er by lia.
  rewrite Eu1 in Eq, Er. rewrite Z.div_mul_cancel_r in Eq by lia.
  rewrite Z.mul_mod_distr_r in Er by lia.
  pose proof (Z.mod_pos_bound U V HV) as HR. split.
  - rewrite quad_of_eq.
    + rewrite <- Eq. replace 4%nat with ((3 - m) + S m)%nat at 1 by lia.
      rewrite dval_add, dval_zero; [replace (1 + (3 - m))%nat with (4 - m)%nat by lia; lia|].
      intros i Hi. rewrite Fq2 by lia. apply Zz. lia.
    + intros i Hi. destruct (decide (i < 4 - m)%nat); [|apply Dq2; lia].
      rewrite Fq2, Zz by lia. unfold digit; lia.
  - apply (remainder_quad u2 uo m n); try done; try lia; [nia|].
    intros k Hlt. rewrite Fu2, Fu1 by lia. apply Hz. lia.
Qed.

Lemma qdivrem_eq junk uq vq : digit junk -> 0 <= uq < 2 ^ 64 -> 0 < vq < 2 ^ 64 ->
  __qdivrem junk uq vq = Some (uq / vq, uq mod vq).
Proof.
  intros Hj Hu Hv. unfold __qdivrem. destruct (Z.eqb_spec vq 0) as [|_]; [lia|].
  destruct (Z.ltb_spec uq vq).
  { by rewrite Z.div_small, Z.mod_small by lia. }
  pose proof (digits_of_digits 0 uq ltac:(unfold digit; lia)) as Du.
  pose proof (digits_of_digits junk vq Hj) as Dv.
  pose proof (digits_of_eq 0 uq Hu) as Eu. pose proof (digits_of_eq junk vq ltac:(lia)) as Ev.
  assert (E0 : rd (digits_of 0 uq) 0 = 0) by done.
  set (u := digits_of 0 uq) in *. set (v := digits_of junk vq) in *.
  pose proof (strip_v_spec v Dv ltac:(lia)) as Hs. rewrite Ev in Hs.
  destruct (strip_v v 0 4) as [vo|[vo n]].
  { destruct Hs as [Es Hs]. rewrite div1_spec by (done || apply Dv). by rewrite Eu, <- Es. }
  destruct Hs as (Hvo & Hn & Hpos & Es). destruct (strip_u u 0 (4 - n)) as [uo m] eqn:Esu.
  apply strip_u_spec in Esu as (S1 & S2 & S3); [|done].
  destruct (long_division u v (replicate 5 junk) uo vo m n) as (u2 & q2 & E & E1 & E2);
    try done; try lia.
  { intros k Hk. destruct k; [done|]. apply S3. lia. }
  assert (EU : dval u 0 5 = uq) by (rewrite dval_head, E0; cbn [Nat.add]; lia).
  rewrite EU, <- Es in E1, E2.
  cbv zeta. destruct (norm_d 16 (rd v (vo + 1)) 0 >? 0) eqn:Eg; cbv beta iota in *;
    rewrite E; by rewrite E1, E2.
Qed.

Lemma qdivrem_zero junk uq : __qdivrem junk uq 0 = None.
Proof. done. Qed.

(** The sign handling of the signed wrappers: the magnitude of a 64-bit
    two's complement number, computed on its unsigned image. *)
Lemma magnitude a : - 2 ^ 63 <= a < 2 ^ 63 ->
  (if a <? 0 then u64 (- u64 a) else u64 a) = Z.abs a /\ 0 <= Z.abs a < 2 ^ 64.
Proof.
  intros. split; [|lia]. unfold u64. destruct (Z.ltb_spec a 0); [|rewrite Z.mod_small; lia].
  rewrite <- (Z.mod_unique a (2 ^ 64) (-1) (a + 2 ^ 64)) by lia.
  symmetry. apply (Z.mod_unique _ _ (-1)); lia.
Qed.

Lemma quot_signs a b : b <> 0 ->
  Z.quot a b = (if xorb (a <? 0) (b <? 0) then - (Z.abs a / Z.abs b) else Z.abs a / Z.abs b).
Proof.
  intros Hb. rewrite Z.quot_div by done. destruct (Z.eq_dec a 0) as [->|].
  { rewrite Z.abs_0, Z.div_0_l by lia. by destruct (xorb _ _). }
  destruct (Z.ltb_spec a 0), (Z.ltb_spec b 0); cbn [xorb];
    rewrite ?(Z.sgn_neg a), ?(Z.sgn_neg b), ?(Z.sgn_pos a), ?(Z.sgn_pos b) by lia; lia.
Qed.

Lemma rem_signs a b : b <> 0 ->
  Z.rem a b = (if a <? 0 then - (Z.abs a mod Z.abs b) else Z.abs a mod Z.abs b).
Proof.
  intros Hb. rewrite Z.rem_mod by done. destruct (Z.eq_dec a 0) as [->|].
  { by rewrite Z.abs_0, Z.mod_0_l by lia. }
  destruct (Z.ltb_spec a 0); rewrite ?(Z.sgn_neg a), ?(Z.sgn_pos a) by lia; lia.
Qed.

Lemma s64_neg_u64 x : s64 (u64 (- x)) = s64 (- x).
Proof.
  apply (s64_congr _ _ (- (- x / 2 ^ 64))). unfold u64.
  pose proof (Z.div_mod (- x) (2 ^ 64)). lia.
Qed.

Lemma divdi3_eq junk a b :
  digit junk -> - 2 ^ 63 <= a < 2 ^ 63 -> - 2 ^ 63 <= b < 2 ^ 63 -> b <> 0 ->
  __divdi3 junk a b = Some (s64 (Z.quot a b)).
Proof.
  intros Hj Ha Hb Hb0. rewrite quot_signs by done. unfold __divdi3.
  destruct (magnitude a Ha) as [Ea Ra]. destruct (magnitude b Hb) as [Eb Rb].
  destruct (a <? 0), (b <? 0); rewrite Ea, Eb, qdivrem_eq by (done || lia);
    cbn [xorb negb mbind option_bind]; by rewrite ?s64_neg_u64.
Qed.

Lemma moddi3_eq junk a b :
  digit junk -> - 2 ^ 63 <= a < 2 ^ 63 -> - 2 ^ 63 <= b < 2 ^ 63 -> b <> 0 ->
  __moddi3 junk a b = Some (Z.rem a b).
Proof.
  intros Hj Ha Hb Hb0. assert (HR : s64 (Z.rem a b) = Z.rem a b).
  { apply s64_small. pose proof (Z.rem_bound_abs a b Hb0). lia. }
  rewrite <- HR, rem_signs by done. unfold __moddi3.
  destruct (magnitude a Ha) as [Ea Ra]. destruct (magnitude b Hb) as [Eb Rb].
  destruct (a <? 0), (b <? 0); rewrite Ea, Eb, qdivrem_eq by (done || lia);
    cbn [mbind option_bind]; by rewrite ?s64_neg_u64.
Qed.

(** C28: unsigned 64-bit division and remainder: for every dividend and every
    non-zero divisor Knuth's algorithm D as [__qdivrem] implements it returns the
    exact quotient and remainder, whatever the uninitialised digits of its work
    arrays hold; a zero divisor takes the trap. *)
Theorem udivdi3_umoddi3_eq junk a b :
  digit junk -> 0 <= a < 2 ^ 64 -> 0 <= b < 2 ^ 64 ->
  __udivdi3 junk a b = (if b =? 0 then None else Some (a / b)) /\
  __umoddi3 junk a b = (if b =? 0 then None else Some (a mod b)).
Proof.
  intros Hj Ha Hb. unfold __udivdi3, __umoddi3. destruct (Z.eqb_spec b 0) as [->|].
  - by rewrite qdivrem_zero.
  - by rewrite qdivrem_eq by (done || lia).
Qed.

Lemma udivdi3_umoddi3_witness :
  __udivdi3 7 (2 ^ 64 - 1) (2 ^ 33 + 12345) = Some ((2 ^ 64 - 1) / (2 ^ 33 + 12345)).
Proof.
  exact (proj1 (udivdi3_umoddi3_eq 7 (2 ^ 64 - 1) (2 ^ 33 + 12345)
    ltac:(unfold digit; lia) ltac:(lia) ltac:(lia))).
Defined.

(** signed 64-bit division truncates towards zero and the remainder takes
    the sign of the dividend, as C requires; the one overflowing quotient
    (-2^63 / -1) wraps to -2^63; a zero divisor takes the trap. *)
Theorem divdi3_moddi3_eq junk a b :
  digit junk -> - 2 ^ 63 <= a < 2 ^ 63 -> - 2 ^ 63 <= b < 2 ^ 63 ->
  __divdi3 junk a b = (if b =? 0 then None else Some (s64 (Z.quot a b))) /\
  __moddi3 junk a b = (if b =? 0 then None else Some (Z.rem a b)).
Proof.
  intros Hj Ha Hb. destruct (Z.eqb_spec b 0) as [->|].
  - unfold __divdi3, __moddi3. by destruct (a <? 0).
  - by rewrite divdi3_eq, moddi3_eq by done.
Qed.

Lemma divdi3_moddi3_witness : __divdi3 3 (-7) 2 = Some (-3) /\ __moddi3 3 (-7) 2 = Some (-1).
Proof.
  exact (divdi3_moddi3_eq 3 (-7) 2 ltac:(unfold digit; lia) ltac:(lia) ltac:(lia)).
Defined.

End QDiv.
