(* ===== verification/Spinlock.v ===== *)
(** * Spin locks (kernel/spinlock.c)

    The lock code at the granularity at which processors can interleave: every
    access to a shared field of a lock is one step of the processor that makes
    it, and [xchg] is the only atomic read-modify-write.  The interrupt flag and
    the [pushcli] nesting are per-processor state.  The second part gives the
    view the other components use: a lock the running processor holds or not. *)

From stdpp Require Import functions.
From S2P Require Import Prelude.

Module Spinlock.

(** ** Per-processor interrupt state *)

Record cpu := Cpu {
  ncli : Z;        (* depth of pushcli nesting *)
  intena : bool;   (* were interrupts enabled before pushcli? *)
  ifl : bool;      (* FL_IF of the processor's eflags *)
}.

Definition pushcli (c : cpu) : cpu :=
  {| ncli := ncli c + 1;
     intena := if ncli c =? 0 then ifl c else intena c;
     ifl := false |}.

Definition popcli (c : cpu) : outcome cpu unit :=
  if ifl c then Panic "popcli - interruptible"
  else
    let n := ncli c - 1 in
    if n <? 0 then Panic "popcli"
    else Done tt {| ncli := n; intena := intena c;
                    ifl := if (n =? 0) && intena c then true else ifl c |}.

(** A processor inside [pushcli] has interrupts off; a matched pair leaves the count and
    the flag as they were. *)
Definition balanced (c : cpu) : Prop := 0 <= ncli c /\ (ncli c = 0 \/ ifl c = false).

Lemma push_pop c : balanced c -> exists c', popcli (pushcli c) = Done tt c' /\
  ncli c' = ncli c /\ ifl c' = ifl c.
Proof.
  destruct c as [n e i]. intros [Hn Hi]. cbn in Hn, Hi. unfold popcli, pushcli. cbn [ifl ncli intena].
  replace (n + 1 - 1) with n by lia. rewrite (proj2 (Z.ltb_ge n 0)) by lia. eexists. split; [reflexivity|]. cbn. split; [done|].
  destruct (Z.eqb_spec n 0) as [->|]; cbn [andb]; [by destruct i|]. destruct Hi; done.
Qed.

(** ** Locks *)

Record spinlock := Lock {
  locked : Z;
  lkcpu : option nat;   (* the cpu holding the lock; 0 is None *)
  pcs : list Z;
}.

Definition initlock : spinlock := {| locked := 0; lkcpu := None; pcs := replicate 10 0 |}.

(** The test of [holding], given the two fields it reads. *)
Definition holding (lk : spinlock) (c : nat) : bool :=
  negb (locked lk =? 0) && bool_decide (lkcpu lk = Some c).

(** [getcallerpcs]: follow the chain of saved frame pointers in the stack
    memory [mem], which maps word addresses to words. *)
Definition KERNBASE : Z := 2147483648.

Fixpoint callerpcs (mem : Z -> Z) (n : nat) (ebp : Z) : list Z :=
  match n with
  | O => []
  | S n' =>
      if (ebp =? 0) || (ebp <? KERNBASE) || (ebp =? 4294967295) then replicate n 0
      else mem (u32 (ebp + 4)) :: callerpcs mem n' (mem ebp)
  end.

Definition getcallerpcs (mem : Z -> Z) (v : Z) : list Z := callerpcs mem 10 (u32 (v - 8)).

(** ** Interleaved execution

    [pc] says where in [acquire] or [release] a processor is. *)

Inductive pc :=
  | Idle                  (* in neither *)
  | AHold (l : nat)       (* acquire: about to read lk->locked for holding *)
  | AHold2 (l : nat)      (* acquire: about to read lk->cpu for holding *)
  | ASpin (l : nat)       (* acquire: in the xchg loop *)
  | ARec (l : nat)        (* acquire: about to record the cpu and the pcs *)
  | RHold (l : nat)       (* release: about to read lk->locked for holding *)
  | RHold2 (l : nat)      (* release: about to read lk->cpu for holding *)
  | RClr (l : nat)        (* release: about to clear pcs[0] and cpu *)
  | RXchg (l : nat)       (* release: about to xchg *)
  | RPop                  (* release: about to popcli *)
  | Panicked.

#[global] Instance pc_eq_dec : EqDecision pc.
Proof. solve_decision. Defined.

(** [held] is the list of the locks whose [xchg] this processor won and has not
    undone; no code reads it. *)
Record proc := Proc { at_ : pc; cpu_ : cpu; held : list nat }.

Record state := St { cpus : nat -> proc; locks : nat -> spinlock }.

Definition goto (q : pc) (p : proc) : proc := Proc q (cpu_ p) (held p).

Definition set_locked (z : Z) (k : spinlock) : spinlock := Lock z (lkcpu k) (pcs k).
Definition set_owner (o : option nat) (ps : list Z) (k : spinlock) : spinlock := Lock (locked k) o ps.

(** The steps of processor [c]; [mem]/[v] are its stack and the address of the
    argument, which only [getcallerpcs] reads. *)
Inductive step (c : nat) : state -> state -> Prop :=
  | start_acquire cs ls p l :
      cs c = p -> at_ p = Idle ->
      step c (St cs ls) (St (<[c := Proc (AHold l) (pushcli (cpu_ p)) (held p)]> cs) ls)
  | acquire_holding cs ls p l :
      cs c = p -> at_ p = AHold l ->
      step c (St cs ls)
        (St (<[c := goto (if locked (ls l) =? 0 then ASpin l else AHold2 l) p]> cs) ls)
  | acquire_holding2 cs ls p l :
      cs c = p -> at_ p = AHold2 l ->
      step c (St cs ls)
        (St (<[c := goto (if bool_decide (lkcpu (ls l) = Some c) then Panicked else ASpin l) p]> cs) ls)
  | acquire_xchg_fail cs ls p l :
      cs c = p -> at_ p = ASpin l -> locked (ls l) <> 0 ->
      step c (St cs ls) (St cs (<[l := set_locked 1 (ls l)]> ls))
  | acquire_xchg_win cs ls p l :
      cs c = p -> at_ p = ASpin l -> locked (ls l) = 0 ->
      step c (St cs ls)
        (St (<[c := Proc (ARec l) (cpu_ p) (l :: held p)]> cs) (<[l := set_locked 1 (ls l)]> ls))
  | acquire_record cs ls p l mem v :
      cs c = p -> at_ p = ARec l ->
      step c (St cs ls)
        (St (<[c := goto Idle p]> cs) (<[l := set_owner (Some c) (getcallerpcs mem v) (ls l)]> ls))
  | start_release cs ls p l :
      cs c = p -> at_ p = Idle ->
      step c (St cs ls) (St (<[c := goto (RHold l) p]> cs) ls)
  | release_holding cs ls p l :
      cs c = p -> at_ p = RHold l ->
      step c (St cs ls)
        (St (<[c := goto (if locked (ls l) =? 0 then Panicked else RHold2 l) p]> cs) ls)
  | release_holding2 cs ls p l :
      cs c = p -> at_ p = RHold2 l ->
      step c (St cs ls)
        (St (<[c := goto (if bool_decide (lkcpu (ls l) = Some c) then RClr l else Panicked) p]> cs) ls)
  | release_clear cs ls p l :
      cs c = p -> at_ p = RClr l ->
      step c (St cs ls)
        (St (<[c := goto (RXchg l) p]> cs) (<[l := set_owner None (<[0%nat := 0]> (pcs (ls l))) (ls l)]> ls))
  | release_xchg cs ls p l :
      cs c = p -> at_ p = RXchg l ->
      step c (St cs ls)
        (St (<[c := Proc RPop (cpu_ p) (filter (fun k => k <> l) (held p))]> cs)
            (<[l := set_locked 0 (ls l)]> ls))
  | release_popcli cs ls p u :
      cs c = p -> at_ p = RPop -> popcli (cpu_ p) = Done tt u ->
      step c (St cs ls) (St (<[c := Proc Idle u (held p)]> cs) ls)
  | release_popcli_panic cs ls p msg :
      cs c = p -> at_ p = RPop -> popcli (cpu_ p) = Panic msg ->
      step c (St cs ls) (St (<[c := goto Panicked p]> cs) ls).

(** Any interleaving of any number of processors. *)
Definition steps : state -> state -> Prop := rtc (fun s s' => exists c, step c s s').

(** Processors start outside the lock code, with [if0 c] their interrupt flag. *)
Definition init (if0 : nat -> bool) (s : state) : Prop :=
  (forall c, exists e, cpus s c = Proc Idle (Cpu 0 e (if0 c)) []) /\
  (forall l, locks s l = initlock).

(** ** The view of the other components

    Code that runs on one processor sees its lock as held or free: [acquire]
    and [release] on a state [S] that has the lock, with the panics of
    [holding].  Waiting for another processor is not visible to it. *)
Definition acquire {S} (get : S -> bool) (set : bool -> S -> S) : M S unit := fun s =>
  if get s then Panic "acquire" else Done tt (set true s).

Definition release {S} (get : S -> bool) (set : bool -> S -> S) : M S unit := fun s =>
  if get s then Done tt (set false s) else Panic "release".

(** ** Invariant *)

(** The processor has recorded itself as the owner of [l]. *)
Definition settled (p : proc) (l : nat) : Prop :=
  l ∈ held p /\ at_ p <> ARec l /\ at_ p <> RXchg l.

(** [pushcli] calls not accounted for by a held lock. *)
Definition pending (q : pc) : Z :=
  match q with AHold _ | AHold2 _ | ASpin _ | RPop => 1 | _ => 0 end.

Definition pc_ok (p : proc) : Prop :=
  match at_ p with
  | ARec l | RClr l | RXchg l => l ∈ held p
  | ASpin l => l ∉ held p
  | _ => True
  end.

Definition cli_ok (base : bool) (p : proc) : Prop :=
  let k := cpu_ p in
  at_ p = Panicked \/
  (ncli k = Z.of_nat (length (held p)) + pending (at_ p) /\
   if ncli k =? 0 then ifl k = base else ifl k = false /\ intena k = base).

#[global] Instance settled_dec p l : Decision (settled p l).
Proof. unfold settled. apply _. Defined.

Record inv (if0 : nat -> bool) (s : state) : Prop := {
  inv_01 : forall l, locked (locks s l) = 0 \/ locked (locks s l) = 1;
  inv_held : forall c l, l ∈ held (cpus s c) -> locked (locks s l) = 1;
  inv_owner : forall c c' l, l ∈ held (cpus s c) -> l ∈ held (cpus s c') -> c = c';
  inv_nodup : forall c, NoDup (held (cpus s c));
  inv_settled : forall c l, settled (cpus s c) l <-> lkcpu (locks s l) = Some c;
  inv_pc : forall c, pc_ok (cpus s c);
  inv_cli : forall c, cli_ok (if0 c) (cpus s c);
}.

Lemma init_inv if0 s : init if0 s -> inv if0 s.
Proof.
  intros [Hc Hl].
  assert (Hh : forall c, held (cpus s c) = []) by (intros c; by destruct (Hc c) as [e ->]).
  constructor; intros; try setoid_rewrite Hl; rewrite ?Hh in *; cbn; auto;
    try (by exfalso; set_solver).
  - constructor.
  - unfold settled. rewrite Hh. split; [set_solver|done].
  - unfold pc_ok. by destruct (Hc c) as [e ->].
  - unfold cli_ok. destruct (Hc c) as [e ->]. cbn. auto.
Qed.

Ltac fn_cases :=
  repeat match goal with
  | H : context [<[?i := _]> _ ?j] |- _ => destruct (decide (i = j)) as [<-|];
      [rewrite fn_lookup_insert in H | rewrite fn_lookup_insert_ne in H by done]
  | |- context [<[?i := _]> _ ?j] => destruct (decide (i = j)) as [<-|];
      [rewrite fn_lookup_insert | rewrite fn_lookup_insert_ne by done]
  end.

(** A step that touches only the processor's own state. *)
Lemma local_inv if0 cs ls c p' :
  inv if0 (St cs ls) ->
  held p' = held (cs c) -> (forall l, settled p' l <-> settled (cs c) l) ->
  pc_ok p' -> cli_ok (if0 c) p' ->
  inv if0 (St (<[c := p']> cs) ls).
Proof.
  intros [H1 H2 H3 H4 H5 H6 H7] Eh Es Hpc Hcli.
  constructor; cbn [cpus locks] in *; try done.
  - intros c' l Hl. fn_cases; rewrite ?Eh in *; eauto.
  - intros c1 c2 l Hl1 Hl2. fn_cases; rewrite ?Eh in *; eauto.
  - intros c'. fn_cases; rewrite ?Eh; eauto.
  - intros c' l. fn_cases; rewrite ?Es; apply H5.
  - intros c'. by fn_cases.
  - intros c'. by fn_cases.
Qed.

(** A step of the owner of [l], or of the processor that wins it. *)
Lemma lock_inv if0 cs ls c p' l k' :
  inv if0 (St cs ls) ->
  (forall c', c' <> c -> l ∉ held (cs c')) ->
  (forall l', l' <> l -> l' ∈ held p' <-> l' ∈ held (cs c)) ->
  (forall l', l' <> l -> settled p' l' <-> settled (cs c) l') ->
  (locked k' = 1 /\ l ∈ held p' \/ locked k' = 0 /\ l ∉ held p') ->
  (if decide (settled p' l) then lkcpu k' = Some c else lkcpu k' = None) ->
  NoDup (held p') -> pc_ok p' -> cli_ok (if0 c) p' ->
  inv if0 (St (<[c := p']> cs) (<[l := k']> ls)).
Proof.
  intros [H1 H2 H3 H4 H5 H6 H7] Hoth Hh Hs Hk Ho Hnd Hpc Hcli.
  cbn [cpus locks] in *. constructor; cbn [cpus locks] in *.
  - intros l'. fn_cases; [destruct Hk as [[-> _]|[-> _]]; auto|done].
  - intros c' l' Hl'. destruct (decide (l = l')) as [<-|Hne].
    + rewrite fn_lookup_insert. fn_cases; [by destruct Hk as [[-> _]|[_ ?]]|].
      by apply Hoth in Hl'.
    + rewrite fn_lookup_insert_ne by done. fn_cases; eauto. apply (H2 c). by apply Hh.
  - intros c1 c2 l' Hl1 Hl2. destruct (decide (l = l')) as [<-|Hne].
    + fn_cases; try done; exfalso; eapply Hoth; eauto.
    + fn_cases; rewrite ?Hh in * by done; eauto.
  - intros c'. fn_cases; eauto.
  - intros c' l'. destruct (decide (l = l')) as [<-|Hne].
    + rewrite fn_lookup_insert. fn_cases; [by case_decide; rewrite Ho|].
      split; [intros [Hl' _]; by apply Hoth in Hl'|]. case_decide; rewrite Ho; congruence.
    + rewrite (fn_lookup_insert_ne ls) by done. fn_cases; rewrite ?Hs by done; apply H5.
  - intros c'. by fn_cases.
  - intros c'. by fn_cases.
Qed.

(** The failed [xchg] stores the value the lock already has. *)
Lemma locks_ext_inv if0 cs ls ls' :
  inv if0 (St cs ls) ->
  (forall l, locked (ls' l) = locked (ls l) /\ lkcpu (ls' l) = lkcpu (ls l)) ->
  inv if0 (St cs ls').
Proof.
  intros [H1 H2 H3 H4 H5 H6 H7] E. constructor; cbn [cpus locks] in *; try done.
  - intros l. destruct (E l) as [-> _]. done.
  - intros c l Hl. destruct (E l) as [-> _]. eauto.
  - intros c l. destruct (E l) as [_ ->]. done.
Qed.

Lemma free_unheld if0 s l : inv if0 s -> locked (locks s l) = 0 ->
  (forall c, l ∉ held (cpus s c)) /\ lkcpu (locks s l) = None.
Proof.
  intros Hi Hl. assert (Hn : forall c, l ∉ held (cpus s c)).
  { intros c Hc. apply (inv_held _ _ Hi) in Hc. lia. }
  split; [done|]. destruct (lkcpu (locks s l)) as [c|] eqn:E; [|done].
  apply (inv_settled _ _ Hi) in E as [Hc _]. by apply Hn in Hc.
Qed.

Lemma owner_unique if0 s c l : inv if0 s -> l ∈ held (cpus s c) ->
  forall c', c' <> c -> l ∉ held (cpus s c').
Proof. intros Hi Hl c' Hne Hl'. apply Hne. by apply (inv_owner _ _ Hi c' c l). Qed.

(** Removing a lock from the list shortens it by one. *)
Lemma length_filter_ne (l : nat) k : NoDup k -> l ∈ k ->
  Z.of_nat (length (filter (fun x => x <> l) k)) = Z.of_nat (length k) - 1.
Proof.
  induction k as [|x k IH]; intros Hnd Hl; [set_solver|].
  apply NoDup_cons in Hnd as [Hx Hnd]. rewrite filter_cons. case_decide as Hc.
  - cbn [length]. rewrite !Nat2Z.inj_succ, IH; [lia|done|set_solver].
  - replace (filter (fun y => y <> l) k) with k; [cbn [length]; lia|].
    symmetry. clear IH Hnd Hl. induction k as [|y k IH]; [done|].
    rewrite filter_cons_True, IH by set_solver. done.
Qed.

Lemma cli_popcli base p : cli_ok base p -> at_ p = RPop ->
  exists u, popcli (cpu_ p) = Done tt u /\ cli_ok base (Proc Idle u (held p)).
Proof.
  intros [?|[En Hif]] Ha; [congruence|]. unfold popcli. rewrite Ha in En. cbn [pending] in En.
  destruct (Z.eqb_spec (ncli (cpu_ p)) 0); [lia|]. destruct Hif as [-> Hen].
  destruct (Z.ltb_spec (ncli (cpu_ p) - 1) 0); [lia|].
  eexists. split; [done|]. right. cbn. split; [lia|].
  destruct (Z.eqb_spec (ncli (cpu_ p) - 1) 0); cbn; [|done].
  rewrite Hen. by destruct base.
Qed.

Lemma cli_pushcli base p l : cli_ok base p -> at_ p = Idle ->
  cli_ok base (Proc (AHold l) (pushcli (cpu_ p)) (held p)).
Proof.
  intros [?|[En Hif]] Ha; [congruence|]. right. rewrite Ha in En. cbn in *.
  split; [lia|]. destruct (Z.eqb_spec (ncli (cpu_ p) + 1) 0); [lia|].
  split; [done|]. destruct (Z.eqb_spec (ncli (cpu_ p)) 0); [done|]. by destruct Hif.
Qed.

Lemma cli_goto base p q : cli_ok base p -> at_ p <> Panicked ->
  q = Panicked \/ pending q = pending (at_ p) -> cli_ok base (goto q p).
Proof. intros [?|[En Hif]] Hp [->|E]; [done|done|by left|]. right. cbn. by rewrite E. Qed.

(** Local moves between program points that own nothing new. *)
Lemma goto_inv if0 cs ls c q :
  inv if0 (St cs ls) -> at_ (cs c) <> Panicked ->
  (forall l, q <> ARec l /\ q <> RXchg l /\ at_ (cs c) <> ARec l /\ at_ (cs c) <> RXchg l) ->
  pc_ok (goto q (cs c)) ->
  q = Panicked \/ pending q = pending (at_ (cs c)) ->
  inv if0 (St (<[c := goto q (cs c)]> cs) ls).
Proof.
  intros Hi Hnp Hq Hpc Hpend. apply local_inv; [done|done| |done|].
  - intros l. unfold settled. cbn. specialize (Hq l). naive_solver.
  - apply cli_goto; [apply (inv_cli _ _ Hi c)|done|done].
Qed.

Lemma step_inv if0 c s s' : inv if0 s -> step c s s' -> inv if0 s'.
Proof.
  intros Hi Hs. destruct Hs as
    [cs ls p l E Ha|cs ls p l E Ha|cs ls p l E Ha|cs ls p l E Ha Hl|cs ls p l E Ha Hl
    |cs ls p l mem v E Ha|cs ls p l E Ha|cs ls p l E Ha|cs ls p l E Ha|cs ls p l E Ha
    |cs ls p l E Ha|cs ls p u E Ha Hpop|cs ls p msg E Ha Hpop]; subst p;
    pose proof (inv_pc _ _ Hi c) as Hpc; pose proof (inv_cli _ _ Hi c) as Hcli;
    cbn [cpus] in Hpc, Hcli; unfold pc_ok in Hpc; rewrite Ha in Hpc.
  - apply local_inv; [done|done| |done|by apply cli_pushcli].
    intros l'. unfold settled. cbn. rewrite Ha. naive_solver.
  - destruct (Z.eqb_spec (locked (ls l)) 0) as [E0|];
      (apply goto_inv; [done|congruence|intros; rewrite Ha; naive_solver| |rewrite Ha; auto]).
    + exact (proj1 (free_unheld _ _ _ Hi E0) c).
    + done.
  - case_bool_decide as Ho;
      (apply goto_inv; [done|congruence|intros; rewrite Ha; naive_solver| |rewrite Ha; auto]); [done|].
    unfold pc_ok. cbn. intros Hl. apply Ho. apply (inv_settled _ _ Hi c l).
    by unfold settled; cbn [cpus]; rewrite Ha.
  - apply (locks_ext_inv _ _ _ _ Hi). intros l'. fn_cases; [|done].
    split; [|done]. cbn. destruct (inv_01 _ _ Hi l); cbn in *; lia.
  - destruct (free_unheld _ _ _ Hi Hl) as [Hn Ho]. cbn [cpus locks] in Hn, Ho.
    apply lock_inv; cbn; [done|done|set_solver| |set_solver| |constructor; [done|apply (inv_nodup _ _ Hi c)]| |].
    + intros l' Hne. unfold settled. cbn. rewrite Ha. set_solver.
    + rewrite decide_False; [done|]. unfold settled. cbn. naive_solver.
    + unfold pc_ok. set_solver.
    + destruct Hcli as [?|[En Hif]]; [congruence|]. right. rewrite Ha in En. cbn in *.
      split; [lia|done].
  - pose proof (owner_unique _ _ _ _ Hi Hpc) as Hu. cbn [cpus] in Hu.
    apply lock_inv; cbn; [done|done|done| | | |apply (inv_nodup _ _ Hi c)|done|].
    + intros l' Hne. unfold settled. cbn. rewrite Ha. naive_solver.
    + left. split; [apply (inv_held _ _ Hi c l Hpc)|done].
    + rewrite decide_True; [done|]. unfold settled. by cbn.
    + apply cli_goto; [done|congruence|]. right. by rewrite Ha.
  - apply goto_inv; [done|congruence|intros; rewrite Ha; naive_solver|done|rewrite Ha; auto].
  - destruct (locked (ls l) =? 0);
      apply goto_inv; try done; try congruence; try (intros; rewrite Ha; naive_solver).
  - case_bool_decide as Ho;
      (apply goto_inv; [done|congruence|intros; rewrite Ha; naive_solver| |rewrite Ha; auto]); [|done].
    by apply (inv_settled _ _ Hi c l) in Ho as [? _].
  - pose proof (owner_unique _ _ _ _ Hi Hpc) as Hu. cbn [cpus] in Hu.
    apply lock_inv; cbn; [done|done|done| | | |apply (inv_nodup _ _ Hi c)|done|].
    + intros l' Hne. unfold settled. cbn. rewrite Ha. naive_solver.
    + left. split; [apply (inv_held _ _ Hi c l Hpc)|done].
    + rewrite decide_False; [done|]. unfold settled. cbn. naive_solver.
    + apply cli_goto; [done|congruence|]. right. by rewrite Ha.
  - pose proof (owner_unique _ _ _ _ Hi Hpc) as Hu. cbn [cpus] in Hu.
    apply lock_inv; cbn; [done|done| | | | |by apply NoDup_filter, (inv_nodup _ _ Hi c)|done|].
    + intros l' Hne. rewrite list_elem_of_filter. naive_solver.
    + intros l' Hne. unfold settled. cbn. rewrite list_elem_of_filter, Ha. naive_solver.
    + right. split; [done|]. rewrite list_elem_of_filter. naive_solver.
    + rewrite decide_False; [|unfold settled; cbn; rewrite list_elem_of_filter; naive_solver].
      destruct (lkcpu (ls l)) as [c'|] eqn:Eo; [|done].
      apply (inv_settled _ _ Hi c' l) in Eo as (Hh & _ & Hx). cbn [cpus] in Hh, Hx.
      destruct (decide (c' = c)) as [->|Hne]; [congruence|]. by apply Hu in Hne.
    + destruct Hcli as [?|[En Hif]]; [congruence|]. right. rewrite Ha in En. cbn in *.
      rewrite length_filter_ne by (done || apply (inv_nodup _ _ Hi c)). split; [lia|done].
  - destruct (cli_popcli _ _ Hcli Ha) as (u' & E & Hc'). rewrite Hpop in E. simplify_eq.
    apply local_inv; [done|done| |done|done].
    intros l. unfold settled. cbn. rewrite Ha. naive_solver.
  - destruct (cli_popcli _ _ Hcli Ha) as (u' & E & _). congruence.
Qed.

Lemma steps_inv if0 s0 s : init if0 s0 -> steps s0 s -> inv if0 s.
Proof.
  intros Hi Hs. apply init_inv in Hi. induction Hs as [|s0 s1 s [c H1] _ IH]; [done|].
  apply IH. by apply (step_inv if0 c s0).
Qed.

(** C3: mutual exclusion.  Whatever processors do and however they interleave, no
    lock is held by two of them; a processor between [acquire] and [release]
    runs with interrupts off, and one that holds no lock and is outside the lock
    code has the interrupt flag it started with and nesting depth 0. *)
Theorem mutual_exclusion if0 s0 s : init if0 s0 -> steps s0 s ->
  (forall c c' l, l ∈ held (cpus s c) -> l ∈ held (cpus s c') -> c = c') /\
  (forall c, at_ (cpus s c) <> Panicked -> held (cpus s c) <> [] -> ifl (cpu_ (cpus s c)) = false) /\
  (forall c, at_ (cpus s c) = Idle -> held (cpus s c) = [] ->
     ncli (cpu_ (cpus s c)) = 0 /\ ifl (cpu_ (cpus s c)) = if0 c).
Proof.
  intros Hi Hs. pose proof (steps_inv _ _ _ Hi Hs) as I. split_and!.
  - apply (inv_owner _ _ I).
  - intros c Hp Hh. destruct (inv_cli _ _ I c) as [?|[En Hif]]; [done|].
    destruct (held (cpus s c)); [done|]. cbn [length] in En.
    assert (0 <= pending (at_ (cpus s c))) by (destruct (at_ (cpus s c)); cbn; lia).
    destruct (Z.eqb_spec (ncli (cpu_ (cpus s c))) 0); [lia|tauto].
  - intros c Ha Hh. destruct (inv_cli _ _ I c) as [?|[En Hif]]; [congruence|].
    rewrite Ha, Hh in En. cbn in En. rewrite En in Hif. done.
Qed.

(** the panics of the lock code are exact: a processor panics only in
    [acquire] of a lock it holds itself or in [release] of a lock it does not
    hold.  In particular the racy reads of [holding] never mistake another
    processor's lock for one's own, and [popcli] never panics. *)
Theorem lock_panics_exact if0 s0 s c s' : init if0 s0 -> steps s0 s -> step c s s' ->
  at_ (cpus s c) <> Panicked -> at_ (cpus s' c) = Panicked ->
  (exists l, at_ (cpus s c) = AHold2 l /\ l ∈ held (cpus s c)) \/
  (exists l, (at_ (cpus s c) = RHold l \/ at_ (cpus s c) = RHold2 l) /\ l ∉ held (cpus s c)).
Proof.
  intros H0 Hs Hst Hn Hp. pose proof (steps_inv _ _ _ H0 Hs) as Hi.
  destruct Hst as
    [cs ls p l E Ha|cs ls p l E Ha|cs ls p l E Ha|cs ls p l E Ha Hl|cs ls p l E Ha Hl
    |cs ls p l mem v E Ha|cs ls p l E Ha|cs ls p l E Ha|cs ls p l E Ha|cs ls p l E Ha
    |cs ls p l E Ha|cs ls p u E Ha Hpop|cs ls p msg E Ha Hpop]; subst p; cbn [cpus] in *;
    rewrite ?fn_lookup_insert in Hp; cbn in Hp; try congruence.
  - destruct (locked (ls l) =? 0); done.
  - case_bool_decide as Ho; [|done]. left. exists l. split; [done|].
    by apply (inv_settled _ _ Hi c l) in Ho as [? _].
  - destruct (Z.eqb_spec (locked (ls l)) 0) as [E0|]; [|done]. right. exists l. split; [auto|].
    exact (proj1 (free_unheld _ _ _ Hi E0) c).
  - case_bool_decide as Ho; [done|]. right. exists l. split; [auto|]. intros Hl. apply Ho.
    apply (inv_settled _ _ Hi c l). by unfold settled; cbn [cpus]; rewrite Ha.
  - destruct (cli_popcli _ _ (inv_cli _ _ Hi c) Ha) as (u' & E & _). cbn [cpus] in E. congruence.
Qed.

(** ** Witnesses: two processors, one lock, processor 0 takes it *)

Definition boot : state := St (fun _ => Proc Idle (Cpu 0 false true) []) (fun _ => initlock).

Lemma boot_init : init (fun _ => true) boot.
Proof. split; [by exists false|done]. Qed.

(** A processor that runs alone completes [acquire] of a free lock. *)
Lemma acquire_solo c s l : at_ (cpus s c) = Idle -> locked (locks s l) = 0 ->
  exists s', rtc (step c) s s' /\ at_ (cpus s' c) = Idle /\
    held (cpus s' c) = l :: held (cpus s c) /\ holding (locks s' l) c = true.
Proof.
  destruct s as [cs ls]. cbn [cpus locks]. intros Ha Hl.
  pose (p1 := Proc (AHold l) (pushcli (cpu_ (cs c))) (held (cs c))).
  pose (cs1 := <[c := p1]> cs). assert (E1 : cs1 c = p1) by apply fn_lookup_insert.
  pose (cs2 := <[c := goto (ASpin l) p1]> cs1).
  assert (E2 : cs2 c = goto (ASpin l) p1) by apply fn_lookup_insert.
  pose (p3 := Proc (ARec l) (cpu_ p1) (l :: held (cs c))).
  pose (cs3 := <[c := p3]> cs2). assert (E3 : cs3 c = p3) by apply fn_lookup_insert.
  pose (ls3 := <[l := set_locked 1 (ls l)]> ls).
  eexists. split.
  - eapply rtc_l; [by apply (start_acquire c cs ls (cs c) l)|]. fold p1 cs1.
    eapply rtc_l; [by apply (acquire_holding c cs1 ls p1 l)|]. rewrite Hl. cbn [Z.eqb]. fold cs2.
    eapply rtc_l; [by apply (acquire_xchg_win c cs2 ls _ l E2)|]. fold p3 cs3 ls3.
    eapply rtc_l; [apply (acquire_record c cs3 ls3 p3 l (fun _ => 0) 0 E3 eq_refl)|]. apply rtc_refl.
  - cbn [cpus locks]. rewrite !fn_lookup_insert. unfold ls3, holding. cbn.
    rewrite fn_lookup_insert. cbn. by rewrite bool_decide_eq_true_2.
Qed.

Lemma solo_steps c s s' : rtc (step c) s s' -> steps s s'.
Proof. induction 1; [constructor|]. eapply rtc_l; eauto. Qed.

Lemma mutual_exclusion_witness : exists s, steps boot s /\
  0%nat ∈ held (cpus s 0%nat) /\ ifl (cpu_ (cpus s 0%nat)) = false /\ 0%nat ∉ held (cpus s 1%nat).
Proof.
  destruct (acquire_solo 0 boot 0 eq_refl eq_refl) as (s & Hs & Ha & Hh & _).
  apply solo_steps in Hs. destruct (mutual_exclusion _ _ _ boot_init Hs) as (Hx & Hf & _).
  assert (H0 : 0%nat ∈ held (cpus s 0%nat)) by (rewrite Hh; set_solver).
  exists s. split_and!; [done|done| |].
  - apply Hf; [congruence|]. rewrite Hh. done.
  - intros H1. specialize (Hx _ _ _ H0 H1). done.
Defined.

(** A processor that acquires a lock twice. *)
Lemma lock_panics_exact_witness : exists s s', steps boot s /\ step 0 s s' /\
  at_ (cpus s' 0%nat) = Panicked /\ exists l, at_ (cpus s 0%nat) = AHold2 l /\ l ∈ held (cpus s 0%nat).
Proof.
  destruct (acquire_solo 0 boot 0 eq_refl eq_refl) as ([cs ls] & Hs & Ha & Hh & Hl).
  cbn [cpus locks] in *.
  apply solo_steps in Hs. unfold holding in Hl. apply andb_true_iff in Hl as [Hl1 Hl2].
  apply bool_decide_eq_true in Hl2. apply negb_true_iff, Z.eqb_neq in Hl1.
  pose (p1 := Proc (AHold 0) (pushcli (cpu_ (cs 0%nat))) (held (cs 0%nat))).
  pose (cs1 := <[0%nat := p1]> cs). assert (E1 : cs1 0%nat = p1) by apply fn_lookup_insert.
  pose (cs2 := <[0%nat := goto (AHold2 0) p1]> cs1).
  assert (E2 : cs2 0%nat = goto (AHold2 0) p1) by apply fn_lookup_insert.
  assert (Hs2 : steps boot (St cs2 ls)).
  { etrans; [exact Hs|].
    eapply rtc_l; [exists 0%nat; by apply (start_acquire 0 cs ls (cs 0%nat) 0)|]. fold p1 cs1.
    eapply rtc_l; [exists 0%nat; by apply (acquire_holding 0 cs1 ls p1 0)|].
    destruct (Z.eqb_spec (locked (ls 0%nat)) 0); [done|]. apply rtc_refl. }
  pose proof (acquire_holding2 0 cs2 ls _ 0 E2 eq_refl) as Hst.
  eexists _, _. split; [exact Hs2|]. split; [exact Hst|].
  assert (Hp : at_ (cpus (St (<[0%nat := goto (if bool_decide (lkcpu (ls 0%nat) = Some 0%nat)
      then Panicked else ASpin 0) (goto (AHold2 0) p1)]> cs2) ls) 0%nat) = Panicked).
  { cbn. rewrite fn_lookup_insert. by rewrite bool_decide_eq_true_2. }
  split; [exact Hp|].
  destruct (lock_panics_exact _ _ _ _ _ boot_init Hs2 Hst) as [H|(l & [H|H] & _)];
    [cbn [cpus]; rewrite E2; done|exact Hp|exact H|cbn [cpus] in H; rewrite E2 in H; done..].
Defined.

End Spinlock.
