(* ===== verification/Bio.v ===== *)
(** * The buffer cache (kernel/bio.c)

    The cache is the array [bcache.buf] with the list head [bcache.head] at
    index [NBUF]; buffers are linked by index through [b_prev]/[b_next] exactly
    as the C structures are linked by pointers.  The disk driver is an
    interface ([DiskDriver], with its contract [DiskSpec]); Disk.v and Ide.v
    discharge it for the two drivers of the kernel.  The abstraction of the cache is the map
    of its pinned blocks (the busy and the dirty ones) over the disk contents:
    clean unreferenced buffers are invisible. *)

From S2P Require Import Prelude Spinlock.

Module Bio.

Definition NBUF : nat := 10.
Definition BSIZE : nat := 512.

Definition B_BUSY : Z := 1.
Definition B_VALID : Z := 2.
Definition B_DIRTY : Z := 4.

Notation block := (list Z).

Record buf := Buf {
  b_flags : Z;
  b_dev : Z;
  b_sector : Z;
  b_prev : nat;
  b_next : nat;
  b_data : block;
}.

#[global] Instance buf_inhabited : Inhabited buf := populate (Buf 0 0 0 0 0 []).

Definition set_flags f b := Buf f (b_dev b) (b_sector b) (b_prev b) (b_next b) (b_data b).
Definition set_prev i b := Buf (b_flags b) (b_dev b) (b_sector b) i (b_next b) (b_data b).
Definition set_next i b := Buf (b_flags b) (b_dev b) (b_sector b) (b_prev b) i (b_data b).
Definition set_data d b := Buf (b_flags b) (b_dev b) (b_sector b) (b_prev b) (b_next b) d.
Definition set_id dev sec b := Buf (b_flags b) dev sec (b_prev b) (b_next b) (b_data b).

(** [b->flags & f] *)
Definition has (f : Z) (b : buf) : bool := negb (Z.land (b_flags b) f =? 0).
(** [b->flags |= f] and [b->flags &= ~f] *)
Definition add_flag (f : Z) (b : buf) : buf := set_flags (Z.lor (b_flags b) f) b.
Definition del_flag (f : Z) (b : buf) : buf := set_flags (Z.land (b_flags b) (Z.lnot f)) b.

(** ** The driver's interface *)

(** [iderw b] run to completion: the buffer and the disk it leaves. *)
Class DiskDriver (D : Type) := iderw : buf -> D -> outcome D buf.

(** What the cache relies on: [dread] is the contents of a disk, [din] says
    which sectors it has. *)
Class DiskSpec (D : Type) `{DiskDriver D} := {
  dread : D -> Z -> Z -> block;
  din : D -> Z -> Z -> Prop;
  din_dev d dev sec : din d dev sec -> 0 <= dev < 2 ^ 32 - 1 /\ 0 <= sec < 2 ^ 32;
  dread_length d dev sec : din d dev sec -> length (dread d dev sec) = BSIZE;
  iderw_write b d : has B_BUSY b = true -> has B_DIRTY b = true ->
    din d (b_dev b) (b_sector b) -> length (b_data b) = BSIZE ->
    exists d', iderw b d = Done (del_flag B_DIRTY (add_flag B_VALID b)) d' /\
      (forall dev sec, din d' dev sec <-> din d dev sec) /\
      dread d' (b_dev b) (b_sector b) = b_data b /\
      (forall dev sec, din d dev sec -> (dev, sec) <> (b_dev b, b_sector b) ->
         dread d' dev sec = dread d dev sec);
  iderw_read b d : has B_BUSY b = true -> has B_DIRTY b = false -> has B_VALID b = false ->
    din d (b_dev b) (b_sector b) ->
    exists d', iderw b d =
      Done (add_flag B_VALID (set_data (dread d (b_dev b) (b_sector b)) b)) d' /\
      (forall dev sec, din d' dev sec <-> din d dev sec) /\
      (forall dev sec, din d dev sec -> dread d' dev sec = dread d dev sec);
}.

(** ** State and operations *)

Record bst (D : Type) := Bst {
  bc_lock : bool;        (* bcache.lock held by this processor *)
  bufs : list buf;       (* bcache.buf, then bcache.head *)
  dsk : D;
}.
Arguments Bst {D}. Arguments bc_lock {D}. Arguments bufs {D}. Arguments dsk {D}.

(** &bcache.head *)
Definition head : nat := NBUF.

Section Ops.
Context {D : Type} `{DiskDriver D}.

Definition set_bc_lock (l : bool) (s : bst D) : bst D := Bst l (bufs s) (dsk s).
Definition set_bufs (bs : list buf) (s : bst D) : bst D := Bst (bc_lock s) bs (dsk s).

(** [*b] and an update of [*b]. *)
Definition getb (b : nat) : M (bst D) buf := gets (fun s => bufs s !!! b).
Definition updb (b : nat) (f : buf -> buf) : M (bst D) unit :=
  modify (fun s => set_bufs (alter f b (bufs s)) s).

(** Storage is zero before [binit] runs. *)
Definition zero_buf : buf := Buf 0 0 0 0 0 (replicate BSIZE 0).

(** One iteration of [binit]'s loop, on the buffers. *)
Definition binit1 (bs : list buf) (b : nat) : list buf :=
  let n := b_next (bs !!! head) in
  let bs := alter (set_next n) b bs in
  let bs := alter (set_prev head) b bs in
  let bs := alter (fun x => set_id (u32 (-1)) (b_sector x) x) b bs in
  let bs := alter (set_prev b) (b_next (bs !!! head)) bs in
  alter (set_next b) head bs.

Definition binit (d : D) : bst D :=
  let bs := replicate (S NBUF) zero_buf in
  let bs := alter (fun x => set_next head (set_prev head x)) head bs in
  Bst false (foldl binit1 bs (seq 0 NBUF)) d.

(** [for (b = start; b != &head; b = b->link) if (p(b)) ...]: the first buffer
    on the chain that satisfies [p]; [None] when the chain does not come back
    to the head within [fuel] links. *)
Fixpoint scan (link : buf -> nat) (p : buf -> bool) (bs : list buf) (fuel : nat) (b : nat)
    : option (option nat) :=
  match fuel with
  | O => None
  | S fuel' =>
      if (b =? head)%nat then Some None
      else if p (bs !!! b) then Some (Some b)
      else scan link p bs fuel' (link (bs !!! b))
  end.

Definition FUEL : nat := S NBUF.

Definition is_block (dev sector : Z) (x : buf) : bool :=
  (b_dev x =? dev) && (b_sector x =? sector).
Definition is_free (x : buf) : bool := negb (has B_BUSY x) && negb (has B_DIRTY x).

Definition bget (dev sector : Z) : M (bst D) nat :=
  Spinlock.acquire bc_lock set_bc_lock ;!
  let! bs := gets bufs in
  match scan b_next (is_block dev sector) bs FUEL (b_next (bs !!! head)) with
  | None => nofuel
  | Some (Some b) =>
      if negb (has B_BUSY (bs !!! b)) then
        updb b (add_flag B_BUSY) ;!
        Spinlock.release bc_lock set_bc_lock ;!
        ret b
      else
        (* sleep(b, &bcache.lock) gives the lock up; then [goto loop] *)
        Spinlock.release bc_lock set_bc_lock ;!
        sleepOn (CBuf b)
  | Some None =>
      match scan b_prev is_free bs FUEL (b_prev (bs !!! head)) with
      | None => nofuel
      | Some (Some b) =>
          updb b (fun x => set_flags B_BUSY (set_id dev sector x)) ;!
          Spinlock.release bc_lock set_bc_lock ;!
          ret b
      | Some None => panic "bget: no buffers"
      end
  end.

(** [iderw(b)] on the buffer [b] of the cache. *)
Definition do_iderw (b : nat) : M (bst D) unit := fun s =>
  match iderw (bufs s !!! b) (dsk s) with
  | Done x d => Done tt (Bst (bc_lock s) (<[b := x]> (bufs s)) d)
  | Panic msg => Panic msg
  | Sleep c d => Sleep c (Bst (bc_lock s) (bufs s) d)
  | Wild w => Wild w
  | NoFuel => NoFuel
  end.

Definition bread (dev sector : Z) : M (bst D) nat :=
  let! b := bget dev sector in
  let! x := getb b in
  when (negb (has B_VALID x)) (do_iderw b) ;!
  ret b.

Definition bwrite (b : nat) : M (bst D) unit :=
  let! x := getb b in
  if negb (has B_BUSY x) then panic "bwrite"
  else
    updb b (add_flag B_DIRTY) ;!
    do_iderw b.

(** The six assignments of [brelse] that move [b] to the front. *)
Definition move_front (bs : list buf) (b : nat) : list buf :=
  let bs := alter (set_prev (b_prev (bs !!! b))) (b_next (bs !!! b)) bs in
  let bs := alter (set_next (b_next (bs !!! b))) (b_prev (bs !!! b)) bs in
  let bs := alter (set_next (b_next (bs !!! head))) b bs in
  let bs := alter (set_prev head) b bs in
  let bs := alter (set_prev b) (b_next (bs !!! head)) bs in
  alter (set_next b) head bs.

Definition brelse (b : nat) : M (bst D) unit :=
  let! x := getb b in
  if negb (has B_BUSY x) then panic "brelse"
  else
    Spinlock.acquire bc_lock set_bc_lock ;!
    modify (fun s => set_bufs (move_front (bufs s) b) s) ;!
    updb b (del_flag B_BUSY) ;!
    Spinlock.release bc_lock set_bc_lock.

End Ops.
(** ** Flags *)

Definition flag (f : Z) : Prop := f = B_BUSY \/ f = B_VALID \/ f = B_DIRTY.

Lemma flag_busy : flag B_BUSY. Proof. by left. Qed.
Lemma flag_valid : flag B_VALID. Proof. by right; left. Qed.
Lemma flag_dirty : flag B_DIRTY. Proof. by right; right. Qed.
#[local] Hint Resolve flag_busy flag_valid flag_dirty : core.

Lemma has_testbit i b : 0 <= i -> has (2 ^ i) b = Z.testbit (b_flags b) i.
Proof.
  intros Hi. unfold has. destruct (Z.testbit (b_flags b) i) eqn:E.
  - apply negb_true_iff, Z.eqb_neq. intros H0. apply (f_equal (fun z => Z.testbit z i)) in H0.
    rewrite Z.land_spec, Z.pow2_bits_true, E, Z.bits_0 in H0 by lia. done.
  - apply negb_false_iff, Z.eqb_eq. apply Z.bits_inj'. intros j Hj.
    rewrite Z.land_spec, Z.bits_0. destruct (Z.eq_dec i j) as [->|].
    + by rewrite E.
    + by rewrite Z.pow2_bits_false, andb_false_r by lia.
Qed.

Lemma flag_pow f : flag f -> exists i, 0 <= i <= 2 /\ f = 2 ^ i.
Proof. intros [-> | [-> | -> ] ]; [exists 0|exists 1|exists 2]; done. Qed.

Lemma has_add f g b : flag f -> flag g -> has f (add_flag g b) = has f b || (f =? g).
Proof.
  intros (i & Hi & ->)%flag_pow (j & Hj & ->)%flag_pow.
  rewrite !has_testbit by lia. cbn [add_flag set_flags b_flags]. rewrite Z.lor_spec. f_equal.
  destruct (Z.eqb_spec (2 ^ i) (2 ^ j)) as [E|E].
  - apply Z.pow_inj_r in E; [|lia..]. subst. apply Z.pow2_bits_true. lia.
  - apply Z.pow2_bits_false. congruence.
Qed.

Lemma has_del f g b : flag f -> flag g -> has f (del_flag g b) = has f b && negb (f =? g).
Proof.
  intros (i & Hi & ->)%flag_pow (j & Hj & ->)%flag_pow.
  rewrite !has_testbit by lia. cbn [del_flag set_flags b_flags].
  rewrite Z.land_spec, Z.lnot_spec by lia. do 2 f_equal.
  destruct (Z.eqb_spec (2 ^ i) (2 ^ j)) as [E|E].
  - apply Z.pow_inj_r in E; [|lia..]. subst. apply Z.pow2_bits_true. lia.
  - apply Z.pow2_bits_false. congruence.
Qed.

Lemma has_set_data f d b : has f (set_data d b) = has f b.
Proof. done. Qed.

(** Flags of a buffer the cache or the driver has just updated. *)
Ltac flags := repeat (rewrite ?has_add, ?has_del, ?has_set_data by auto; cbn [Z.eqb B_BUSY B_VALID B_DIRTY
  Pos.eqb orb andb negb]; rewrite ?orb_false_r, ?orb_true_r, ?andb_true_r, ?andb_false_r).

(** ** The circular list *)

Definition nx (bs : list buf) (i : nat) : nat := b_next (bs !!! i).
Definition pv (bs : list buf) (i : nat) : nat := b_prev (bs !!! i).

Fixpoint chain (n p : nat -> nat) (l : list nat) : Prop :=
  match l with
  | a :: ((b :: _) as r) => n a = b /\ p b = a /\ chain n p r
  | _ => True
  end.

Lemma chain_app n p l1 a l2 :
  chain n p (l1 ++ a :: l2) <-> chain n p (l1 ++ [a]) /\ chain n p (a :: l2).
Proof.
  induction l1 as [|x l1 IH]; cbn [app]; [by cbn; tauto|].
  destruct l1 as [|y l1]; cbn in *; tauto.
Qed.

Lemma chain_ext n p n' p' q z : chain n p (q ++ [z]) ->
  (forall x, x ∈ q -> n' x = n x) -> (forall x, x ∈ tail (q ++ [z]) -> p' x = p x) ->
  chain n' p' (q ++ [z]).
Proof.
  induction q as [|a q IH]; intros Hc Hn Hp; [done|].
  assert (Hgo : q ++ [z] <> []) by (by destruct q).
  cbn [app tail] in *. destruct (q ++ [z]) as [|b r] eqn:E; [done|].
  destruct Hc as (H1 & H2 & H3). cbn [chain]. split_and!.
  - rewrite Hn; [done|set_solver].
  - rewrite Hp; [done|set_solver].
  - apply IH; [done|set_solver|]. intros x Hx. apply Hp. set_solver.
Qed.

Lemma chain_rev n p l : chain n p l -> chain p n (reverse l).
Proof.
  induction l as [|a l IH]; [done|]. intros Hc. rewrite reverse_cons.
  destruct l as [|b l]; [done|]. destruct Hc as (H1 & H2 & H3).
  rewrite reverse_cons in *. rewrite <- app_assoc. cbn [app]. apply chain_app.
  split; [by apply IH|done].
Qed.

(** Unlinking [i] from a ring and linking it after the head. *)
Lemma chain_unlink n p n' p' h l1 i l2 :
  chain n p (h :: l1 ++ i :: l2 ++ [h]) -> NoDup (h :: l1 ++ i :: l2) ->
  (forall x, n' x = if decide (x = p i) then n i else n x) ->
  (forall x, p' x = if decide (x = n i) then p i else p x) ->
  chain n' p' (h :: l1 ++ l2 ++ [h]).
Proof.
  intros Hc Hnd Hn' Hp'. change (h :: l1 ++ i :: l2 ++ [h]) with ((h :: l1) ++ i :: l2 ++ [h]) in Hc.
  change (h :: l1 ++ l2 ++ [h]) with ((h :: l1) ++ l2 ++ [h]).
  change (h :: l1 ++ i :: l2) with ((h :: l1) ++ i :: l2) in Hnd.
  assert (El : tail (h :: l1) = l1) by done.
  destruct (exists_last (l := h :: l1) ltac:(done)) as (q & pr & E). rewrite E in *.
  assert (Er : exists nn r, l2 ++ [h] = nn :: r) by (destruct l2; cbn; eauto).
  destruct Er as (nn & r & Er).
  rewrite <- app_assoc in Hc. cbn [app] in Hc. apply chain_app in Hc as [C1 C2].
  cbn [chain app] in C2. rewrite Er in C2. destruct C2 as (N1 & P1 & N2 & P2 & C3).
  rewrite <- app_assoc in *. cbn [app] in *. rewrite Er.
  apply NoDup_app in Hnd as (Hq & Hq2 & Hr). apply NoDup_cons in Hr as [Hpr Hr].
  apply NoDup_cons in Hr as [Hi Hl2].
  assert (Hh : h ∈ q ++ [pr]) by (rewrite <- E; set_solver).
  apply chain_app. split; [|cbn [chain]; split_and!].
  - apply (chain_ext n p); [done| |].
    + intros x Hx. rewrite Hn', decide_False; [done|]. rewrite P1. intros ->.
      by apply (Hq2 pr Hx), elem_of_cons; left.
    + intros x Hx. rewrite El in Hx. rewrite Hp', decide_False; [done|]. rewrite N2. intros ->.
      assert (Hx' : nn ∈ q ++ [pr]) by (rewrite <- E; set_solver).
      assert (nn ∈ l2 ++ [h]) as [Hl|Hl]%elem_of_app by (rewrite Er; set_solver).
      * apply elem_of_app in Hx' as [Hx'|Hx']; [apply (Hq2 nn Hx'); set_solver|].
        apply list_elem_of_singleton in Hx' as ->. set_solver.
      * apply list_elem_of_singleton in Hl as ->.
        assert (NoDup (h :: l1)) as [Hh1 _]%NoDup_cons; [|done].
        rewrite E. apply NoDup_app. split_and!; [done| |apply NoDup_singleton].
        intros y Hy ->%list_elem_of_singleton. apply (Hq2 pr Hy). set_solver.
  - rewrite Hn', decide_True by done. done.
  - rewrite Hp', decide_True by done. done.
  - change (chain n' p' (nn :: r)). rewrite <- Er. apply (chain_ext n p); [rewrite Er; done| |].
    + intros x Hx. rewrite Hn', decide_False; [done|]. rewrite P1. intros ->. set_solver.
    + intros x Hx. rewrite Hp', decide_False; [done|]. rewrite N2. intros ->.
      rewrite Er in Hx. cbn [tail] in Hx.
      assert (Hnd2 : NoDup (l2 ++ [h])).
      { apply NoDup_app. split_and!; [done| |apply NoDup_singleton].
        intros y Hy ->%list_elem_of_singleton.
        apply elem_of_app in Hh as [Hh|Hh]; [apply (Hq2 h Hh); set_solver|set_solver]. }
      rewrite Er in Hnd2. apply NoDup_cons in Hnd2 as [? _]. done.
Qed.

Lemma chain_push n p n' p' h l i :
  chain n p (h :: l ++ [h]) -> NoDup (h :: i :: l) ->
  (forall x, n' x = if decide (x = h) then i else if decide (x = i) then n h else n x) ->
  (forall x, p' x = if decide (x = n h) then i else if decide (x = i) then h else p x) ->
  chain n' p' (h :: i :: l ++ [h]).
Proof.
  intros Hc Hnd Hn' Hp'. apply NoDup_cons in Hnd as [Hh Hnd]. apply NoDup_cons in Hnd as [Hi Hl].
  assert (Er : exists f r, l ++ [h] = f :: r) by (destruct l; cbn; eauto).
  destruct Er as (f & r & Er). rewrite Er in *. destruct Hc as (N & P & C).
  assert (Hnd : NoDup (f :: r)).
  { rewrite <- Er. apply NoDup_app. split_and!; [done| |apply NoDup_singleton].
    intros y Hy ->%list_elem_of_singleton. set_solver. }
  apply NoDup_cons in Hnd as [Hf _].
  assert (f ∈ l ++ [h]) as Hfl by (rewrite Er; set_solver).
  assert (f <> i) by set_solver.
  change (n' h = i /\ p' i = h /\ n' i = f /\ p' f = i /\ chain n' p' (f :: r)). split_and!.
  - by rewrite Hn', decide_True.
  - rewrite Hp', N, decide_False, decide_True by done. done.
  - rewrite Hn', decide_False, decide_True by set_solver. done.
  - by rewrite Hp', N, decide_True.
  - rewrite <- Er. apply (chain_ext n p); [by rewrite Er| |].
    + intros x Hx. rewrite Hn', !decide_False; [done|set_solver|set_solver].
    + intros x Hx. rewrite Hp', N, !decide_False; [done| |].
      * intros ->. assert (i ∈ l ++ [h]); [|set_solver]. rewrite Er in *. set_solver.
      * intros ->. by rewrite Er in Hx.
Qed.

(** [l] lists the buffers in the order of the list, most recently used first. *)
Definition ring (bs : list buf) (l : list nat) : Prop :=
  chain (nx bs) (pv bs) (head :: l ++ [head]) /\ l ≡ₚ seq 0 NBUF /\ length bs = S NBUF.

Lemma ring_NoDup bs l : ring bs l -> NoDup (head :: l).
Proof.
  intros (_ & Hp & _). apply NoDup_cons. rewrite Hp. split.
  - rewrite elem_of_seq. unfold head. lia.
  - apply NoDup_seq.
Qed.

Lemma ring_elem bs l i : ring bs l -> i ∈ l <-> (i < NBUF)%nat.
Proof. intros (_ & Hp & _). rewrite Hp, elem_of_seq. lia. Qed.

Lemma alter_total f i j (bs : list buf) : (i < length bs)%nat ->
  alter f i bs !!! j = if decide (j = i) then f (bs !!! i) else bs !!! j.
Proof.
  intros Hi. rewrite list_lookup_total_alter. repeat case_decide; naive_solver.
Qed.

Lemma scan_chain link back q bs fuel a l :
  chain (fun i => link (bs !!! i)) back (a :: l ++ [head]) -> head ∉ l -> (length l < fuel)%nat ->
  scan link q bs fuel (link (bs !!! a)) = Some (find (fun b => q (bs !!! b)) l).
Proof.
  revert a l. induction fuel as [|fuel IH]; intros a l Hc Hh Hf; [lia|]. cbn [scan].
  destruct l as [|b l]; cbn [app find length] in *.
  - destruct Hc as (-> & _). by rewrite Nat.eqb_refl.
  - destruct Hc as (-> & _ & Hc). destruct (Nat.eqb_spec b head); [set_solver|].
    destruct (q (bs !!! b)); [done|]. apply IH; [done|set_solver|lia].
Qed.

Lemma scan_next q bs l : ring bs l ->
  scan b_next q bs FUEL (b_next (bs !!! head)) = Some (find (fun b => q (bs !!! b)) l).
Proof.
  intros Hr. pose proof (ring_NoDup _ _ Hr) as [Hh _]%NoDup_cons. destruct Hr as (Hc & Hp & _).
  apply (scan_chain _ (pv bs)); [done|done|]. rewrite Hp, length_seq. unfold FUEL. lia.
Qed.

Lemma scan_prev q bs l : ring bs l ->
  scan b_prev q bs FUEL (b_prev (bs !!! head)) = Some (find (fun b => q (bs !!! b)) (reverse l)).
Proof.
  intros Hr. pose proof (ring_NoDup _ _ Hr) as [Hh _]%NoDup_cons. destruct Hr as (Hc & Hp & _).
  apply (scan_chain _ (nx bs)).
  - apply chain_rev in Hc. rewrite reverse_cons, reverse_app in Hc. done.
  - by rewrite elem_of_reverse.
  - rewrite length_reverse, Hp, length_seq. unfold FUEL. lia.
Qed.

(** A ring only depends on the links. *)
Lemma ring_ext bs bs' l : length bs' = length bs ->
  (forall i, nx bs' i = nx bs i) -> (forall i, pv bs' i = pv bs i) -> ring bs l -> ring bs' l.
Proof.
  intros Hl Hn Hp (Hc & Hperm & Hlen). split_and!; [|done|congruence].
  change (head :: l ++ [head]) with ((head :: l) ++ [head]) in *.
  by apply (chain_ext (nx bs) (pv bs)).
Qed.

Lemma nx_set_next v i bs j : (i < length bs)%nat ->
  nx (alter (set_next v) i bs) j = if decide (j = i) then v else nx bs j.
Proof. intros Hi. unfold nx. rewrite alter_total by done. by case_decide; subst. Qed.

Lemma pv_set_prev v i bs j : (i < length bs)%nat ->
  pv (alter (set_prev v) i bs) j = if decide (j = i) then v else pv bs j.
Proof. intros Hi. unfold pv. rewrite alter_total by done. by case_decide; subst. Qed.

Lemma nx_alter f i bs j : (i < length bs)%nat -> (forall x, b_next (f x) = b_next x) ->
  nx (alter f i bs) j = nx bs j.
Proof. intros Hi Hf. unfold nx. rewrite alter_total by done. by case_decide; subst. Qed.

Lemma pv_alter f i bs j : (i < length bs)%nat -> (forall x, b_prev (f x) = b_prev x) ->
  pv (alter f i bs) j = pv bs j.
Proof. intros Hi Hf. unfold pv. rewrite alter_total by done. by case_decide; subst. Qed.

(** The neighbours of a buffer are other elements of the ring. *)
Lemma ring_neighbours bs l1 b l2 : ring bs (l1 ++ b :: l2) ->
  (nx bs b < S NBUF)%nat /\ (pv bs b < S NBUF)%nat /\ nx bs b <> b /\ pv bs b <> b /\
  (nx bs head < S NBUF)%nat.
Proof.
  intros Hr. pose proof (ring_NoDup _ _ Hr) as Hnd.
  assert (Hin : forall i, i ∈ head :: l1 ++ b :: l2 -> (i < S NBUF)%nat).
  { intros i [->|Hi]%elem_of_cons; [unfold head; lia|]. apply (ring_elem _ _ i Hr) in Hi. lia. }
  destruct Hr as (Hc & _ & _).
  assert (Hh : nx bs head ∈ head :: l1 ++ b :: l2).
  { destruct l1; cbn in Hc; destruct Hc as (-> & _); set_solver. }
  rewrite <- app_assoc in Hc. cbn [app] in Hc.
  change (head :: l1 ++ b :: l2 ++ [head]) with ((head :: l1) ++ b :: l2 ++ [head]) in Hc.
  change (head :: l1 ++ b :: l2) with ((head :: l1) ++ b :: l2) in *.
  apply chain_app in Hc as [C1 C2].
  destruct (exists_last (l := head :: l1) ltac:(done)) as (q & p & E). rewrite E in *.
  rewrite <- app_assoc in C1. apply chain_app in C1 as (_ & _ & P & _).
  assert (exists n r, l2 ++ [head] = n :: r) as (n & r & Er) by (destruct l2; cbn; eauto).
  rewrite Er in C2. destruct C2 as (N & _ & _). rewrite N, P.
  assert (Hn : n ∈ (q ++ [p]) ++ l2).
  { rewrite <- E. assert (n ∈ l2 ++ [head]) by (rewrite Er; set_solver). set_solver. }
  assert (Hb : b ∉ (q ++ [p]) ++ l2).
  { assert ((q ++ [p]) ++ b :: l2 ≡ₚ b :: (q ++ [p]) ++ l2) as Hp by (by rewrite Permutation_middle).
    rewrite Hp in Hnd. by apply NoDup_cons in Hnd as [? _]. }
  split_and!; [apply Hin; set_solver|apply Hin; set_solver|by intros ->
    |intros ->; apply Hb; set_solver|by apply Hin].
Qed.

Lemma filter_ne_mid (b : nat) l1 l2 : NoDup (l1 ++ b :: l2) ->
  filter (fun i => i <> b) (l1 ++ b :: l2) = l1 ++ l2.
Proof.
  intros Hnd. rewrite filter_app, filter_cons_False by (intros Hf; by apply Hf).
  assert (Hid : forall k : list nat, b ∉ k -> filter (fun i => i <> b) k = k).
  { induction k as [|x k IH]; intros Hk; [done|].
    rewrite filter_cons_True, IH by set_solver. done. }
  apply NoDup_app in Hnd as (_ & H1 & [H2 _]%NoDup_cons).
  rewrite !Hid; [done|done|]. intros Hb. apply (H1 b Hb). set_solver.
Qed.

(** The last four assignments of [brelse] link [b] after the head. *)
Lemma push_links bs b l :
  length bs = S NBUF -> (b < S NBUF)%nat -> (nx bs head < S NBUF)%nat -> b <> head ->
  NoDup (head :: b :: l) -> chain (nx bs) (pv bs) (head :: l ++ [head]) ->
  let bs3 := alter (set_next (b_next (bs !!! head))) b bs in
  let bs4 := alter (set_prev head) b bs3 in
  let bs5 := alter (set_prev b) (b_next (bs4 !!! head)) bs4 in
  let bs6 := alter (set_next b) head bs5 in
  chain (nx bs6) (pv bs6) (head :: (b :: l) ++ [head]).
Proof.
  intros Hlen Hb Hn Hbh Hnd Hc bs3 bs4 bs5 bs6.
  assert (Hh : (head < S NBUF)%nat) by (unfold head; lia).
  assert (L3 : length bs3 = S NBUF) by (subst bs3; by rewrite length_alter).
  assert (L4 : length bs4 = S NBUF) by (subst bs4; by rewrite length_alter).
  assert (L5 : length bs5 = S NBUF) by (subst bs5; by rewrite length_alter).
  assert (N4 : forall x, nx bs4 x = if decide (x = b) then nx bs head else nx bs x).
  { intros. subst bs4 bs3. rewrite nx_alter, nx_set_next by (rewrite ?length_alter; lia || done). done. }
  assert (E5 : b_next (bs4 !!! head) = nx bs head).
  { change (nx bs4 head = nx bs head). by rewrite N4, decide_False. }
  apply (chain_push (nx bs) (pv bs)); [done|done| |]; intros x; subst bs6 bs5.
  - rewrite nx_set_next, nx_alter by (rewrite ?length_alter, ?E5; lia || done).
    by rewrite N4.
  - rewrite pv_alter, pv_set_prev by (rewrite ?length_alter, ?E5; lia || done).
    rewrite E5. subst bs4 bs3.
    by rewrite pv_set_prev, pv_alter by (rewrite ?length_alter; lia || done).
Qed.

Lemma ring_move_front bs l b : ring bs l -> (b < NBUF)%nat ->
  ring (move_front bs b) (b :: filter (fun i => i <> b) l).
Proof.
  intros Hr Hb. pose proof (ring_NoDup _ _ Hr) as Hnd.
  assert (Hb' : (b < S NBUF)%nat) by lia.
  apply (ring_elem _ _ b Hr) in Hb as (l1 & l2 & ->)%list_elem_of_split.
  pose proof (ring_neighbours _ _ _ _ Hr) as (B1 & B2 & X1 & X2 & B3).
  destruct Hr as (Hc & Hp & Hlen).
  assert (Hbh : b <> head).
  { intros ->. apply NoDup_cons in Hnd as [Hh _]. apply Hh. set_solver. }
  rewrite filter_ne_mid by (by apply NoDup_cons in Hnd as [_ ?]).
  unfold move_front. set (bs1 := alter _ (b_next (bs !!! b)) bs).
  assert (L1 : length bs1 = S NBUF) by (subst bs1; by rewrite length_alter).
  assert (N1 : forall x, nx bs1 x = nx bs x)
    by (intros; subst bs1; apply nx_alter; [unfold nx in B1; lia|done]).
  assert (P1 : forall x, pv bs1 x = if decide (x = nx bs b) then pv bs b else pv bs x)
    by (intros; subst bs1; apply pv_set_prev; unfold nx in *; lia).
  change (b_next (bs1 !!! b)) with (nx bs1 b). change (b_prev (bs1 !!! b)) with (pv bs1 b).
  rewrite N1, (P1 b), decide_False by done.
  set (bs2 := alter _ (pv bs b) bs1).
  assert (L2 : length bs2 = S NBUF) by (subst bs2; by rewrite length_alter).
  assert (N2 : forall x, nx bs2 x = if decide (x = pv bs b) then nx bs b else nx bs x)
    by (intros; subst bs2; rewrite nx_set_next, N1 by lia; done).
  assert (P2 : forall x, pv bs2 x = if decide (x = nx bs b) then pv bs b else pv bs x)
    by (intros; subst bs2; rewrite pv_alter by (lia || done); apply P1).
  rewrite <- app_assoc in Hc. cbn [app] in Hc.
  pose proof (chain_unlink _ _ _ _ _ _ _ _ Hc Hnd N2 P2) as C2.
  clearbody bs2. clear bs1 L1 N1 P1 N2 P2 X1 X2.
  assert (Hnd' : NoDup (head :: b :: l1 ++ l2)) by (by rewrite Permutation_middle).
  assert (Hh : (nx bs2 head < S NBUF)%nat /\ nx bs2 head <> b).
  { assert (nx bs2 head ∈ head :: l1 ++ l2) as Hin.
    { destruct l1, l2; cbn in C2; destruct C2 as (-> & _); set_solver. }
    split; [|intros E; rewrite E in Hin; apply NoDup_cons in Hnd' as [? [? _]%NoDup_cons]; set_solver].
    apply elem_of_cons in Hin as [->|Hin]; [unfold head; lia|].
    assert (nx bs2 head ∈ seq 0 NBUF) by (rewrite <- Hp; set_solver).
    rewrite elem_of_seq in *. lia. }
  destruct Hh as [B4 X4]. unfold ring. split_and!.
  - apply (push_links bs2); try done. by rewrite <- app_assoc.
  - by rewrite <- Hp, <- Permutation_middle.
  - by rewrite !length_alter.
Qed.

(** ** Abstraction: the pinned blocks *)

Record pin := Pin { p_idx : nat; p_busy : bool; p_dirty : bool; p_data : block }.

Definition key (x : buf) : Z * Z := (b_dev x, b_sector x).

(** What a buffer contributes to the abstract map. *)
Definition pin_of (i : nat) (x : buf) : option pin :=
  if has B_BUSY x || has B_DIRTY x
  then Some (Pin i (has B_BUSY x) (has B_DIRTY x) (b_data x)) else None.

Section Spec.
Context {D : Type} `{DiskSpec D}.

(** Two disks with the same contents; a disk after one sector write. *)
Definition deq (d d' : D) : Prop :=
  (forall dev sec, din d' dev sec <-> din d dev sec) /\
  (forall dev sec, din d dev sec -> dread d' dev sec = dread d dev sec).

Definition dupd (k : Z * Z) (x : block) (d d' : D) : Prop :=
  (forall dev sec, din d' dev sec <-> din d dev sec) /\ dread d' k.1 k.2 = x /\
  (forall dev sec, din d dev sec -> (dev, sec) <> k -> dread d' dev sec = dread d dev sec).

#[global] Instance deq_equiv : Equivalence deq.
Proof.
  split; unfold deq.
  - intros d. done.
  - intros d d' [H1 H2]. split; [naive_solver|]. intros. symmetry. apply H2. naive_solver.
  - intros d1 d2 d3 [H1 H2] [H3 H4]. split; [naive_solver|]. intros.
    rewrite H4, H2 by naive_solver. done.
Qed.

(** A buffer is consistent with the disk. *)
Definition bok (d : D) (x : buf) : Prop :=
  (has B_BUSY x || has B_DIRTY x = true -> has B_VALID x = true) /\
  (has B_VALID x = true -> din d (b_dev x) (b_sector x) /\ length (b_data x) = BSIZE) /\
  (has B_VALID x = true -> has B_BUSY x || has B_DIRTY x = false ->
   b_data x = dread d (b_dev x) (b_sector x)).

(** The representation relation of the cache. *)
Record brep (s : bst D) (P : gmap (Z * Z) pin) : Prop := {
  br_lock : bc_lock s = false;
  br_ring : exists l, ring (bufs s) l;
  br_uniq : forall i j, (i < NBUF)%nat -> (j < NBUF)%nat -> key (bufs s !!! i) = key (bufs s !!! j) ->
    b_dev (bufs s !!! i) <> u32 (-1) -> i = j;
  br_ok : forall i, (i < NBUF)%nat -> bok (dsk s) (bufs s !!! i);
  br_pins : forall k p, P !! k = Some p <->
    exists i, (i < NBUF)%nat /\ key (bufs s !!! i) = k /\ pin_of i (bufs s !!! i) = Some p;
}.

(** The contents of a block as the kernel sees it. *)
Definition blk (P : gmap (Z * Z) pin) (d : D) (k : Z * Z) : block :=
  match P !! k with Some p => p_data p | None => dread d k.1 k.2 end.

Definition isdirty (P : gmap (Z * Z) pin) (k : Z * Z) : bool :=
  match P !! k with Some p => p_dirty p | None => false end.

Lemma bok_deq d d' x : deq d d' -> bok d x -> bok d' x.
Proof.
  intros [H1 H2] (B1 & B2 & B3). split_and!; [done| |].
  - intros Hv. destruct (B2 Hv). split; [by apply H1|done].
  - intros Hv Hf. destruct (B2 Hv) as [Hd _]. rewrite H2 by done. auto.
Qed.

Lemma bok_dev d x : bok d x -> has B_VALID x = true -> b_dev x <> u32 (-1).
Proof.
  intros (_ & B2 & _) Hv. destruct (B2 Hv) as [Hd _]. apply din_dev in Hd as [Hd _].
  change (u32 (-1)) with (2 ^ 32 - 1). lia.
Qed.

Lemma pin_of_valid d i x p : bok d x -> pin_of i x = Some p -> has B_VALID x = true /\
  p = Pin i (has B_BUSY x) (has B_DIRTY x) (b_data x).
Proof.
  intros (B1 & _) Hp. unfold pin_of in Hp. destruct (_ || _) eqn:E; [|done].
  simplify_eq. auto.
Qed.

Lemma ring_length s P : brep s P -> length (bufs s) = S NBUF.
Proof. intros Hr. by destruct (br_ring _ _ Hr) as (l & _ & _ & ?). Qed.

(** The buffer that holds a pinned block. *)
Lemma brep_lookup s P k p : brep s P -> P !! k = Some p ->
  let x := bufs s !!! p_idx p in
  (p_idx p < NBUF)%nat /\ key x = k /\ has B_BUSY x = p_busy p /\ has B_DIRTY x = p_dirty p /\
  b_data x = p_data p /\ has B_VALID x = true /\ din (dsk s) k.1 k.2 /\ length (p_data p) = BSIZE /\
  p_busy p || p_dirty p = true.
Proof.
  intros Hr Hk. apply (br_pins _ _ Hr) in Hk as (i & Hi & Hk & Hp).
  pose proof (br_ok _ _ Hr i Hi) as Hok. destruct (pin_of_valid _ _ _ _ Hok Hp) as [Hv ->].
  destruct Hok as (_ & B2 & _). destruct (B2 Hv) as [Hd Hl]. cbn. subst k. cbn.
  split_and!; try done. unfold pin_of in Hp. by destruct (_ || _).
Qed.

(** Replacing one buffer. *)
Lemma brep_set s P i x' d' :
  brep s P -> (i < NBUF)%nat -> let x := bufs s !!! i in
  b_next x' = b_next x -> b_prev x' = b_prev x ->
  (pin_of i x = None \/ key x' = key x) ->
  (forall j, (j < NBUF)%nat -> j <> i -> key (bufs s !!! j) <> key x') ->
  bok d' x' -> (forall j, (j < NBUF)%nat -> j <> i -> bok d' (bufs s !!! j)) ->
  brep (Bst false (<[i := x']> (bufs s)) d') (partial_alter (fun _ => pin_of i x') (key x') P).
Proof.
  intros Hr Hi x Hn Hp Hpin Hother Hx' Hrest. pose proof (ring_length _ _ Hr) as Hlen.
  assert (Hl : forall j, <[i := x']> (bufs s) !!! j = if decide (j = i) then x' else bufs s !!! j).
  { intros j. case_decide; subst; [apply list_lookup_total_insert_eq; lia|].
    by apply list_lookup_total_insert_ne. }
  constructor; cbn [bc_lock bufs dsk]; [done|..].
  - destruct (br_ring _ _ Hr) as [l Hl']. exists l. apply (ring_ext (bufs s)); try done.
    + by rewrite length_insert.
    + intros j. unfold nx. rewrite Hl. by case_decide; subst.
    + intros j. unfold pv. rewrite Hl. by case_decide; subst.
  - intros j k Hj Hk. rewrite !Hl. repeat case_decide; subst; try done; intros E Hd.
    + by apply eq_sym, Hother in E.
    + by apply Hother in E.
    + by apply (br_uniq _ _ Hr).
  - intros j Hj. rewrite Hl. case_decide; auto.
  - intros k p. destruct (decide (k = key x')) as [->|Hk].
    + rewrite lookup_partial_alter_eq. split.
      * intros Hp'. exists i. rewrite Hl, decide_True by done. auto.
      * intros (j & Hj & Ek & Ep). rewrite Hl in Ek, Ep. case_decide; subst; [done|].
        by apply Hother in Ek.
    + rewrite lookup_partial_alter_ne by done. rewrite (br_pins _ _ Hr). split.
      * intros (j & Hj & Ek & Ep). exists j. rewrite Hl. case_decide; subst; [|done].
        unfold x in Hpin. destruct Hpin as [Hpin|Hpin]; congruence.
      * intros (j & Hj & Ek & Ep). rewrite Hl in Ek, Ep. case_decide; subst; [done|]. eauto.
Qed.

(** *** Finding and recycling buffers *)

Lemma find_unique (q : nat -> bool) l i : i ∈ l -> q i = true ->
  (forall j, j ∈ l -> q j = true -> j = i) -> find q l = Some i.
Proof.
  intros Hi Hq Hu. destruct (find q l) as [j|] eqn:E.
  - apply find_some in E as [Hj Hqj]. f_equal. apply Hu; [|done]. by apply list_elem_of_In.
  - rewrite (find_none _ _ E i) in Hq; [done|]. by apply list_elem_of_In.
Qed.

Lemma find_split {A} (q : A -> bool) l x : find q l = Some x ->
  exists l1 l2, l = l1 ++ x :: l2 /\ q x = true /\ Forall (fun y => q y = false) l1.
Proof.
  induction l as [|a l IH]; cbn; [done|]. destruct (q a) eqn:E.
  - intros [= ->]. exists [], l. done.
  - intros (l1 & l2 & -> & Hx & Hl)%IH. exists (a :: l1), l2. auto.
Qed.

Lemma is_block_key dev sec x : is_block dev sec x = true <-> key x = (dev, sec).
Proof. unfold is_block, key. rewrite andb_true_iff, !Z.eqb_eq. naive_solver. Qed.

Lemma alter_insert f i (bs : list buf) : (i < length bs)%nat ->
  alter f i bs = <[i := f (bs !!! i)]> bs.
Proof.
  intros Hi. apply list_eq. intros j. destruct (decide (j = i)) as [->|].
  - rewrite list_lookup_alter_eq, list_lookup_insert_eq by done.
    rewrite (list_lookup_lookup_total_lt bs i) by done. done.
  - by rewrite list_lookup_alter_ne, list_lookup_insert_ne by done.
Qed.

Lemma bget_hit s P dev sec i : brep s P -> (i < NBUF)%nat ->
  key (bufs s !!! i) = (dev, sec) -> dev <> u32 (-1) ->
  bget dev sec s =
    if has B_BUSY (bufs s !!! i) then Sleep (CBuf i) s
    else Done i (Bst false (<[i := add_flag B_BUSY (bufs s !!! i)]> (bufs s)) (dsk s)).
Proof.
  intros Hr Hi Hk Hd. pose proof (ring_length _ _ Hr) as Hlen.
  destruct (br_ring _ _ Hr) as [l Hl]. pose proof (br_lock _ _ Hr) as Hlk.
  assert (Hf : find (fun b => is_block dev sec (bufs s !!! b)) l = Some i).
  { apply find_unique.
    - by apply (ring_elem _ _ _ Hl).
    - by apply is_block_key.
    - intros j Hj Hq%is_block_key. apply (ring_elem _ _ _ Hl) in Hj.
      apply (br_uniq _ _ Hr); [done|done|congruence|].
      unfold key in Hq. simplify_eq. done. }
  destruct s as [lk bs d]; cbn [bc_lock bufs dsk] in *; subst lk.
  unfold bget, bind, Spinlock.acquire, gets. cbn [bc_lock set_bc_lock bufs dsk].
  rewrite (scan_next _ _ _ Hl), Hf.
  destruct (has B_BUSY (bs !!! i)); cbn; [done|]. rewrite alter_insert by lia. done.
Qed.

Lemma bget_miss s P dev sec : brep s P ->
  (forall j, (j < NBUF)%nat -> key (bufs s !!! j) <> (dev, sec)) ->
  forall l, ring (bufs s) l ->
  bget dev sec s =
    match find (fun b => is_free (bufs s !!! b)) (reverse l) with
    | Some i => Done i (Bst false (<[i := set_flags B_BUSY (set_id dev sec (bufs s !!! i))]> (bufs s)) (dsk s))
    | None => Panic "bget: no buffers"
    end.
Proof.
  intros Hr Hno l Hl. pose proof (ring_length _ _ Hr) as Hlen. pose proof (br_lock _ _ Hr) as Hlk.
  assert (Hf : find (fun b => is_block dev sec (bufs s !!! b)) l = None).
  { destruct (find _ l) as [j|] eqn:E; [|done]. apply find_some in E as [Hj Hq%is_block_key].
    apply list_elem_of_In, (ring_elem _ _ _ Hl), Hno in Hj. done. }
  destruct s as [lk bs d]; cbn [bc_lock bufs dsk] in *; subst lk.
  unfold bget, bind, Spinlock.acquire, gets. cbn [bc_lock set_bc_lock bufs dsk].
  rewrite (scan_next _ _ _ Hl), Hf, (scan_prev _ _ _ Hl).
  destruct (find _ (reverse l)) as [i|] eqn:E; cbn; [|done].
  apply find_some in E as [Hi _]. apply list_elem_of_In in Hi. rewrite elem_of_reverse in Hi.
  apply (ring_elem _ _ _ Hl) in Hi. rewrite alter_insert by lia. done.
Qed.

(** When fewer than [NBUF] blocks are pinned some buffer can be recycled. *)
Lemma free_exists s P l : brep s P -> ring (bufs s) l -> (size P < NBUF)%nat ->
  exists i, (i < NBUF)%nat /\ is_free (bufs s !!! i) = true /\
    find (fun b => is_free (bufs s !!! b)) (reverse l) = Some i.
Proof.
  intros Hr Hl Hsz. destruct (find _ (reverse l)) as [i|] eqn:E.
  { apply find_some in E as [Hi Hf]. exists i. split_and!; [|done|done].
    apply list_elem_of_In in Hi. rewrite elem_of_reverse in Hi. by apply (ring_elem _ _ _ Hl). }
  exfalso. pose (ks := (fun i => key (bufs s !!! i)) <$> seq 0 NBUF).
  assert (Hpin : forall i, (i < NBUF)%nat -> pin_of i (bufs s !!! i) <> None).
  { intros i Hi Hp. assert (Hf : is_free (bufs s !!! i) = true).
    { unfold pin_of in Hp. unfold is_free. by destruct (has B_BUSY _), (has B_DIRTY _). }
    rewrite (find_none _ _ E i) in Hf; [done|]. apply list_elem_of_In.
    rewrite elem_of_reverse. by apply (ring_elem _ _ _ Hl). }
  assert (Hnd : NoDup ks).
  { apply NoDup_fmap_2_strong; [|apply NoDup_seq]. intros i j Hi Hj Hk.
    apply elem_of_seq in Hi, Hj. apply (br_uniq _ _ Hr); [lia|lia|done|].
    destruct (pin_of i (bufs s !!! i)) as [p|] eqn:Ep; [|by apply Hpin in Ep; [|lia]].
    pose proof (br_ok _ _ Hr i ltac:(lia)) as Hok. apply (bok_dev _ _ Hok).
    by apply (pin_of_valid _ _ _ _ Hok Ep). }
  assert (Hsub : list_to_set ks ⊆ dom P).
  { intros k Hk. apply elem_of_list_to_set, list_elem_of_fmap in Hk as (i & -> & Hi).
    apply elem_of_seq in Hi. destruct (pin_of i (bufs s !!! i)) as [p|] eqn:Ep.
    - apply elem_of_dom. exists p. apply (br_pins _ _ Hr). exists i. split_and!; [lia|done|done].
    - by apply Hpin in Ep; [|lia]. }
  apply subseteq_size in Hsub. rewrite size_list_to_set in Hsub by done.
  unfold ks in Hsub. rewrite length_fmap, length_seq, size_dom in Hsub. lia.
Qed.

(** *** Contracts of the operations *)

(** The disk contents of pinned blocks do not matter to unpinned ones. *)
Lemma others_ok s P d' i : brep s P -> deq (dsk s) d' ->
  forall j, (j < NBUF)%nat -> j <> i -> bok d' (bufs s !!! j).
Proof. intros Hr Hd j Hj _. apply (bok_deq (dsk s)); [done|]. by apply (br_ok _ _ Hr). Qed.

Lemma unpinned_free s P i k : brep s P -> (i < NBUF)%nat -> key (bufs s !!! i) = k ->
  P !! k = None -> pin_of i (bufs s !!! i) = None.
Proof.
  intros Hr Hi Hk HP. destruct (pin_of i (bufs s !!! i)) as [p|] eqn:E; [|done].
  assert (P !! k = Some p); [|congruence]. apply (br_pins _ _ Hr). eauto.
Qed.

(** The outcome of reading an invalid busy buffer from the disk. *)
Lemma read_ok d x : has B_BUSY x = true -> has B_DIRTY x = false -> has B_VALID x = false ->
  din d (b_dev x) (b_sector x) ->
  exists d', iderw x d = Done (add_flag B_VALID (set_data (dread d (b_dev x) (b_sector x)) x)) d' /\
    deq d d' /\ bok d' (add_flag B_VALID (set_data (dread d (b_dev x) (b_sector x)) x)).
Proof.
  intros Hb Hd Hv Hin. destruct (iderw_read x d Hb Hd Hv Hin) as (d' & E & Hd1 & Hd2).
  exists d'. split_and!; [done|done|]. unfold bok.
  flags. rewrite Hb. cbn [orb]. split_and!; [done| |done].
  intros _. split; [by apply Hd1|by apply dread_length].
Qed.

Lemma pin_of_busy i x : has B_BUSY x = true ->
  pin_of i x = Some (Pin i true (has B_DIRTY x) (b_data x)).
Proof. intros Hb. unfold pin_of. by rewrite Hb. Qed.

Lemma brep_set_busy s P i x' d' k :
  brep s P -> (i < NBUF)%nat -> let x := bufs s !!! i in
  b_next x' = b_next x -> b_prev x' = b_prev x ->
  (pin_of i x = None \/ key x = k) ->
  (forall j, (j < NBUF)%nat -> j <> i -> key (bufs s !!! j) <> k) ->
  key x' = k -> has B_BUSY x' = true ->
  bok d' x' -> (forall j, (j < NBUF)%nat -> j <> i -> bok d' (bufs s !!! j)) ->
  brep (Bst false (<[i := x']> (bufs s)) d')
       (<[k := Pin i true (has B_DIRTY x') (b_data x')]> P).
Proof.
  intros Hr Hi x Hn Hp Hpin Hother <- Hb Hx' Hrest.
  pose proof (brep_set s P i x' d' Hr Hi Hn Hp) as Hs. rewrite (pin_of_busy i x' Hb) in Hs.
  apply Hs; try done. destruct Hpin; auto.
Qed.

(** A cached block that nobody holds has the contents the kernel sees. *)
Lemma cached_content s P i k : brep s P -> (i < NBUF)%nat -> key (bufs s !!! i) = k ->
  has B_VALID (bufs s !!! i) = true ->
  b_data (bufs s !!! i) = blk P (dsk s) k /\ has B_DIRTY (bufs s !!! i) = isdirty P k.
Proof.
  intros Hr Hi Hk Hv. pose proof (br_ok _ _ Hr i Hi) as Hok.
  unfold blk, isdirty. destruct (P !! k) as [p|] eqn:Ep.
  - pose proof (brep_lookup _ _ _ _ Hr Ep) as (Hj & Ek & _ & Hd & Ed & _).
    assert (i = p_idx p) as ->; [|done].
    apply (br_uniq _ _ Hr); [done|done|congruence|]. by apply (bok_dev _ _ Hok).
  - pose proof (unpinned_free _ _ _ _ Hr Hi Hk Ep) as Hf. unfold pin_of in Hf. subst k. cbn.
    destruct Hok as (_ & _ & B3).
    destruct (has B_BUSY _), (has B_DIRTY _); try done. by rewrite <- B3.
Qed.

(** At most one buffer has a given block. *)
Lemma key_other s P dev sec i : brep s P -> (i < NBUF)%nat -> key (bufs s !!! i) = (dev, sec) ->
  dev <> u32 (-1) -> forall j, (j < NBUF)%nat -> j <> i -> key (bufs s !!! j) <> (dev, sec).
Proof.
  intros Hr Hi Hk Hd j Hj Hne E. apply Hne. apply (br_uniq _ _ Hr); [done|done|by rewrite E|].
  unfold key in E. simplify_eq. done.
Qed.

Lemma din_not_nodev d dev sec : din d dev sec -> dev <> u32 (-1).
Proof. intros [Hd _]%din_dev. change (u32 (-1)) with (2 ^ 32 - 1). lia. Qed.

Lemma bread_hit s P dev sec i : brep s P -> (i < NBUF)%nat ->
  key (bufs s !!! i) = (dev, sec) -> din (dsk s) dev sec -> has B_BUSY (bufs s !!! i) = false ->
  exists s', bread dev sec s = Done i s' /\ deq (dsk s) (dsk s') /\
    brep s' (<[(dev, sec) := Pin i true (isdirty P (dev, sec)) (blk P (dsk s) (dev, sec))]> P).
Proof.
  intros Hr Hi Hk Hin Hb. pose proof (ring_length _ _ Hr) as Hlen.
  pose proof (din_not_nodev _ _ _ Hin) as Hdev.
  pose proof (bget_hit s P dev sec i Hr Hi Hk Hdev) as Hg. rewrite Hb in Hg.
  pose proof (key_other _ _ _ _ _ Hr Hi Hk Hdev) as Hother.
  unfold bread. run Hg. unfold bind, getb, gets. cbn [bufs].
  rewrite list_lookup_total_insert_eq by lia.
  pose proof (br_ok _ _ Hr i Hi) as Hok. pose proof (cached_content _ _ _ _ Hr Hi Hk) as Hc.
  set (x := bufs s !!! i) in *. flags. destruct (has B_VALID x) eqn:Hv; cbn [negb when].
  - destruct Hc as [Ed Ey]; [done|]. eexists. split; [done|]. split; [reflexivity|].
    replace (isdirty P (dev, sec)) with (has B_DIRTY (add_flag B_BUSY x)) by (by flags).
    rewrite <- Ed. apply (brep_set_busy s P i (add_flag B_BUSY x)); try done.
    + by right.
    + by flags.
    + destruct Hok as (_ & B2 & _). unfold bok. flags. split_and!; [done| |done]. by rewrite Hv in *.
    + by apply (others_ok _ _ _ _ Hr).
  - assert (Hd : has B_DIRTY x = false).
    { destruct Hok as (B1 & _). rewrite Hv, orb_true_iff in B1.
      destruct (has B_DIRTY x); [|done]. by discriminate B1; right. }
    assert (HP : P !! (dev, sec) = None).
    { destruct (P !! (dev, sec)) as [p|] eqn:Ep; [|done].
      pose proof (brep_lookup _ _ _ _ Hr Ep) as (Hj & Ek & _ & _ & _ & Hv' & _).
      destruct (decide (p_idx p = i)) as [E|Hne]; [rewrite E in Hv'; unfold x in Hv; congruence|].
      by apply Hother in Hne. }
    destruct (read_ok (dsk s) (add_flag B_BUSY x)) as (d' & E & Hd' & Hok').
    { by flags. } { by flags. } { by flags. } { unfold key in Hk. cbn. simplify_eq. done. }
    unfold do_iderw. cbn [bufs dsk bc_lock]. rewrite list_lookup_total_insert_eq, E by lia.
    rewrite list_insert_insert_eq. eexists. split; [done|]. split; [done|].
    unfold isdirty, blk. rewrite HP.
    replace (dread (dsk s) (dev, sec).1 (dev, sec).2) with
      (dread (dsk s) (b_dev (add_flag B_BUSY x)) (b_sector (add_flag B_BUSY x)))
      by (unfold key in Hk; cbn; simplify_eq; done).
    set (x' := add_flag B_VALID _) in *.
    assert (Hdx : has B_DIRTY x' = false) by (subst x'; by flags).
    change (dread _ _ _) with (b_data x'). erewrite <- Hdx at 2.
    apply (brep_set_busy s P i x'); try done.
    + by right.
    + subst x'. by flags.
    + by apply (others_ok _ _ _ _ Hr).
Qed.

Lemma bread_miss s P dev sec : brep s P ->
  (forall j, (j < NBUF)%nat -> key (bufs s !!! j) <> (dev, sec)) -> din (dsk s) dev sec ->
  (size P < NBUF)%nat ->
  exists i s', bread dev sec s = Done i s' /\ deq (dsk s) (dsk s') /\
    brep s' (<[(dev, sec) := Pin i true false (dread (dsk s) dev sec)]> P).
Proof.
  intros Hr Hno Hin Hsz. pose proof (ring_length _ _ Hr) as Hlen.
  destruct (br_ring _ _ Hr) as [l Hl]. pose proof (bget_miss _ _ dev sec Hr Hno l Hl) as Hg.
  destruct (free_exists _ _ _ Hr Hl Hsz) as (i & Hi & Hfree & Hf). rewrite Hf in Hg.
  exists i. unfold bread. run Hg. unfold bind, getb, gets. cbn [bufs].
  rewrite list_lookup_total_insert_eq by lia. set (x1 := set_flags B_BUSY _) in *.
  change (has B_VALID x1) with false. cbn [negb when].
  destruct (read_ok (dsk s) x1 eq_refl eq_refl eq_refl Hin) as (d' & E & Hd' & Hok').
  unfold do_iderw. cbn [bufs dsk bc_lock]. rewrite list_lookup_total_insert_eq, E by lia.
  rewrite list_insert_insert_eq. eexists. split; [done|]. split; [done|].
  apply (brep_set_busy s P i (add_flag B_VALID (set_data (dread (dsk s) dev sec) x1)));
    try done; [| |by apply (others_ok _ _ _ _ Hr)].
  - left. unfold pin_of. unfold is_free in Hfree. by destruct (has B_BUSY _), (has B_DIRTY _).
  - intros j Hj _. by apply Hno.
Qed.

Lemma cached_cases (s : bst D) k :
  (exists i, (i < NBUF)%nat /\ key (bufs s !!! i) = k) \/
  (forall i, (i < NBUF)%nat -> key (bufs s !!! i) <> k).
Proof.
  destruct (find (fun i => bool_decide (key (bufs s !!! i) = k)) (seq 0 NBUF)) as [i|] eqn:E.
  - apply find_some in E as [Hi Hk%bool_decide_eq_true]. left. exists i. split; [|done].
    apply list_elem_of_In, elem_of_seq in Hi. lia.
  - right. intros i Hi Hk. pose proof (find_none _ _ E i) as Hn. cbn beta in Hn.
    rewrite bool_decide_eq_true_2 in Hn by done. discriminate Hn.
    apply list_elem_of_In, elem_of_seq. lia.
Qed.

(** [bread] of a block nobody holds pins it with the contents the kernel sees. *)
Lemma bread_spec s P k : brep s P -> din (dsk s) k.1 k.2 ->
  (forall p, P !! k = Some p -> p_busy p = false) ->
  (P !! k = None -> (size P < NBUF)%nat) ->
  exists i s', bread k.1 k.2 s = Done i s' /\ deq (dsk s) (dsk s') /\
    brep s' (<[k := Pin i true (isdirty P k) (blk P (dsk s) k)]> P).
Proof.
  destruct k as [dev sec]. cbn [fst snd]. intros Hr Hin Hnb Hsz.
  destruct (cached_cases s (dev, sec)) as [(i & Hi & Hk)|Hno].
  - exists i. apply bread_hit; try done. destruct (has B_BUSY (bufs s !!! i)) eqn:Hb; [|done].
    pose proof (br_ok _ _ Hr i Hi) as (B1 & _). rewrite Hb in B1.
    assert (HP : P !! (dev, sec) = Some (Pin i true (has B_DIRTY (bufs s !!! i)) (b_data (bufs s !!! i)))).
    { apply (br_pins _ _ Hr). exists i. split_and!; [done|done|]. by apply pin_of_busy. }
    by apply Hnb in HP.
  - assert (HP : P !! (dev, sec) = None).
    { destruct (P !! (dev, sec)) as [p|] eqn:Ep; [|done]. exfalso.
      pose proof (brep_lookup _ _ _ _ Hr Ep) as (Hj & Ek & _). by apply (Hno _ Hj). }
    unfold isdirty, blk. rewrite HP. apply bread_miss; auto.
Qed.

(** [bread] of a held block sleeps on its buffer. *)
Lemma bread_sleeps s P k p : brep s P -> P !! k = Some p -> p_busy p = true ->
  bread k.1 k.2 s = Sleep (CBuf (p_idx p)) s.
Proof.
  intros Hr Hp Hb. pose proof (brep_lookup _ _ _ _ Hr Hp) as (Hi & Ek & Eb & _ & _ & _ & Hin & _).
  destruct k as [dev sec]. pose proof (din_not_nodev _ _ _ Hin) as Hd.
  pose proof (bget_hit _ _ _ _ _ Hr Hi Ek Hd) as Hg. rewrite Eb, Hb in Hg.
  unfold bread. by run Hg.
Qed.

(** A holder's update of its buffer. *)
Lemma brep_hold_set s P k p x' : brep s P -> P !! k = Some p -> p_busy p = true ->
  let x := bufs s !!! p_idx p in
  b_next x' = b_next x -> b_prev x' = b_prev x -> key x' = key x ->
  has B_BUSY x' = true -> has B_VALID x' = true -> length (b_data x') = BSIZE ->
  brep (Bst false (<[p_idx p := x']> (bufs s)) (dsk s))
       (<[k := Pin (p_idx p) true (has B_DIRTY x') (b_data x')]> P).
Proof.
  intros Hr Hp Hb x Hn Hpv Hk Hb' Hv' Hl'.
  pose proof (brep_lookup _ _ _ _ Hr Hp) as (Hi & Ek & Eb & _ & _ & Hv & Hin & _). fold x in Ek, Eb, Hv.
  destruct k as [dev sec].
  apply brep_set_busy; try done.
  - by right.
  - apply (key_other _ _ _ _ _ Hr Hi Ek). by apply (din_not_nodev (dsk s) dev sec).
  - congruence.
  - unfold bok. rewrite Hb', Hv'. cbn. split_and!; [done| |done].
    intros _. split; [|done]. rewrite Ek in Hk. unfold key in Hk. simplify_eq. done.
  - by apply (others_ok _ _ _ _ Hr).
Qed.

Lemma updb_run (s : bst D) i f : (i < length (bufs s))%nat ->
  updb i f s = Done tt (Bst (bc_lock s) (<[i := f (bufs s !!! i)]> (bufs s)) (dsk s)).
Proof. intros Hi. unfold updb, modify, set_bufs. by rewrite alter_insert. Qed.

Lemma set_data_spec s P k p d : brep s P -> P !! k = Some p -> p_busy p = true ->
  length d = BSIZE ->
  exists s', updb (p_idx p) (set_data d) s = Done tt s' /\ dsk s' = dsk s /\
    brep s' (<[k := Pin (p_idx p) true (p_dirty p) d]> P).
Proof.
  intros Hr Hp Hb Hd. pose proof (ring_length _ _ Hr) as Hlen. pose proof (br_lock _ _ Hr) as Hlk.
  pose proof (brep_lookup _ _ _ _ Hr Hp) as (Hi & _ & Eb & Ed & _ & Hv & _).
  rewrite updb_run by lia. eexists. split; [done|]. split; [done|]. rewrite Hlk, <- Ed.
  apply (brep_hold_set s P k p (set_data d (bufs s !!! p_idx p))); try done. by rewrite has_set_data, Eb.
Qed.

Lemma mark_dirty_spec s P k p : brep s P -> P !! k = Some p -> p_busy p = true ->
  exists s', updb (p_idx p) (add_flag B_DIRTY) s = Done tt s' /\ dsk s' = dsk s /\
    brep s' (<[k := Pin (p_idx p) true true (p_data p)]> P).
Proof.
  intros Hr Hp Hb. pose proof (ring_length _ _ Hr) as Hlen. pose proof (br_lock _ _ Hr) as Hlk.
  pose proof (brep_lookup _ _ _ _ Hr Hp) as (Hi & _ & Eb & _ & Ed & Hv & _ & Hl & _).
  rewrite updb_run by lia. eexists. split; [done|]. split; [done|].
  rewrite Hlk, <- Ed. set (x' := add_flag B_DIRTY _).
  replace true with (has B_DIRTY x') at 2 by (subst x'; by flags).
  apply (brep_hold_set s P k p x'); subst x'; try done; flags; try done; [by rewrite Eb|].
  cbn. by rewrite Ed.
Qed.

Lemma others_ok_upd s P k p d' x : brep s P -> P !! k = Some p -> dupd k x (dsk s) d' ->
  forall j, (j < NBUF)%nat -> j <> p_idx p -> bok d' (bufs s !!! j).
Proof.
  intros Hr Hp (Hd1 & _ & Hd2) j Hj Hne. destruct k as [dev sec].
  pose proof (brep_lookup _ _ _ _ Hr Hp) as (Hi & Ek & _ & _ & _ & _ & Hin & _).
  pose proof (key_other _ _ _ _ _ Hr Hi Ek (din_not_nodev _ _ _ Hin) j Hj Hne) as Hk.
  destruct (br_ok _ _ Hr j Hj) as (B1 & B2 & B3). split_and!; [done| |].
  - intros Hv. destruct (B2 Hv). split; [by apply Hd1|done].
  - intros Hv Hf. destruct (B2 Hv) as [Hin' _]. rewrite Hd2 by done. auto.
Qed.

(** [bwrite] of a held block makes the disk agree with it. *)
Lemma bwrite_spec s P k p : brep s P -> P !! k = Some p -> p_busy p = true ->
  exists s', bwrite (p_idx p) s = Done tt s' /\ dupd k (p_data p) (dsk s) (dsk s') /\
    brep s' (<[k := Pin (p_idx p) true false (p_data p)]> P).
Proof.
  intros Hr Hp Hb. pose proof (ring_length _ _ Hr) as Hlen. pose proof (br_lock _ _ Hr) as Hlk.
  pose proof (brep_lookup _ _ _ _ Hr Hp) as (Hi & Ek & Eb & _ & Ed & Hv & Hin & Hl & _).
  unfold bwrite, getb, gets, bind at 1. rewrite Eb, Hb. cbn [negb].
  unfold bind. rewrite updb_run by lia. unfold do_iderw. cbn [bufs dsk bc_lock].
  rewrite list_lookup_total_insert_eq by lia.
  set (x := bufs s !!! p_idx p) in *. destruct k as [dev sec].
  assert (Ekd : b_dev x = dev /\ b_sector x = sec) by (unfold key in Ek; by simplify_eq).
  destruct Ekd as [Edev Esec].
  destruct (iderw_write (add_flag B_DIRTY x) (dsk s)) as (d' & E & Hd1 & Hd2 & Hd3).
  { flags. by rewrite Eb. } { by flags. } { cbn. by rewrite Edev, Esec. } { cbn. by rewrite Ed. }
  cbn [add_flag set_flags b_dev b_sector b_data] in Hd2, Hd3. rewrite Edev, Esec in Hd2, Hd3.
  rewrite E, list_insert_insert_eq. set (x' := del_flag _ _).
  assert (Hu : dupd (dev, sec) (p_data p) (dsk s) d').
  { split_and!; [done|by cbn; rewrite Hd2|done]. }
  eexists. split; [done|]. split; [done|]. rewrite Hlk.
  assert (Hbx : has B_BUSY x' = true) by (subst x'; flags; by rewrite Eb).
  replace false with (has B_DIRTY x') at 2 by (subst x'; by flags).
  replace (p_data p) with (b_data x') by (by subst x'; cbn).
  apply brep_set_busy; try done.
  - by right.
  - apply (key_other _ _ _ _ _ Hr Hi Ek). by apply (din_not_nodev (dsk s) dev sec).
  - unfold bok. rewrite Hbx. cbn [orb]. split_and!; [intros _; subst x'; by flags| |done].
    intros _. subst x'. cbn. rewrite Edev, Esec, Ed. split; [by apply Hd1|done].
  - by apply (others_ok_upd _ _ _ _ _ _ Hr Hp Hu).
Qed.

Lemma bwrite_panics s P i : brep s P -> has B_BUSY (bufs s !!! i) = false ->
  bwrite i s = Panic "bwrite".
Proof. intros Hr Hb. unfold bwrite, getb, gets, bind. by rewrite Hb. Qed.

(** *** Release *)

(** The parts of a buffer other than its links. *)
Definition core (x : buf) : Z * Z * Z * block := (b_flags x, b_dev x, b_sector x, b_data x).

Lemma alter_core f i (bs : list buf) j : (forall x, core (f x) = core x) ->
  core (alter f i bs !!! j) = core (bs !!! j).
Proof.
  intros Hf. rewrite list_lookup_total_alter. case_decide as E; [|done].
  destruct E as [-> _]. apply Hf.
Qed.

Lemma move_front_core bs b j : core (move_front bs b !!! j) = core (bs !!! j).
Proof. unfold move_front. by rewrite !alter_core. Qed.

Lemma core_same x y : core x = core y ->
  key x = key y /\ (forall i, pin_of i x = pin_of i y) /\
  (forall f, has f x = has f y) /\ b_data x = b_data y /\ (forall d, bok d x <-> bok d y).
Proof.
  destruct x, y. unfold core. cbn. intros E. simplify_eq. split_and!; done.
Qed.

Lemma brep_relink s P bs' l : brep s P -> ring bs' l ->
  (forall j, core (bs' !!! j) = core (bufs s !!! j)) -> brep (Bst false bs' (dsk s)) P.
Proof.
  intros Hr Hl Hc. constructor; cbn [bc_lock bufs dsk].
  - done.
  - eauto.
  - intros i j Hi Hj. destruct (core_same _ _ (Hc i)) as (-> & _), (core_same _ _ (Hc j)) as (-> & _).
    intros Hk Hd. apply (br_uniq _ _ Hr); try done.
    assert (b_dev (bs' !!! i) = b_dev (bufs s !!! i)) as <-; [|done].
    specialize (Hc i). unfold core in Hc. congruence.
  - intros i Hi. apply (core_same _ _ (Hc i)). by apply (br_ok _ _ Hr).
  - intros k p. rewrite (br_pins _ _ Hr). apply exist_proper. intros i.
    destruct (core_same _ _ (Hc i)) as (-> & Hp & _). by rewrite Hp.
Qed.

(** [brelse] of a held block that is dirty keeps it pinned; a clean one must
    agree with the disk and becomes invisible. *)
Lemma brelse_spec s P k p : brep s P -> P !! k = Some p -> p_busy p = true ->
  (p_dirty p = false -> p_data p = dread (dsk s) k.1 k.2) ->
  exists s', brelse (p_idx p) s = Done tt s' /\ dsk s' = dsk s /\
    brep s' (if p_dirty p then <[k := Pin (p_idx p) false true (p_data p)]> P else delete k P).
Proof.
  intros Hr Hp Hb Hclean. pose proof (ring_length _ _ Hr) as Hlen. pose proof (br_lock _ _ Hr) as Hlk.
  pose proof (brep_lookup _ _ _ _ Hr Hp) as (Hi & Ek & Eb & Ey & Ed & Hv & Hin & Hl & _).
  destruct (br_ring _ _ Hr) as [l Hring].
  pose proof (ring_move_front _ _ _ Hring Hi) as Hring'.
  pose proof (brep_relink _ _ _ _ Hr Hring' (move_front_core (bufs s) (p_idx p))) as Hr'.
  set (bs' := move_front (bufs s) (p_idx p)) in *.
  pose proof (brep_lookup _ _ _ _ Hr' Hp) as (_ & Ek' & Eb' & Ey' & Ed' & Hv' & _).
  cbn [bufs dsk] in *. destruct k as [dev sec].
  assert (Hlen' : length bs' = S NBUF) by apply Hring'.
  eexists. split; [|split].
  { unfold brelse, getb, gets, bind at 1. rewrite Eb, Hb. cbn [negb].
    unfold bind, Spinlock.acquire. rewrite Hlk. cbn [modify set_bc_lock set_bufs bc_lock bufs dsk].
    fold bs'.
    rewrite updb_run by (cbn [bufs set_bufs]; lia). unfold Spinlock.release. cbn. reflexivity. }
  { done. }
  set (x := bs' !!! p_idx p) in *. set (x' := del_flag B_BUSY x).
  pose proof (brep_set _ _ (p_idx p) x' (dsk s) Hr' Hi eq_refl eq_refl (or_intror eq_refl)) as Hs.
  cbn [bufs dsk] in Hs. fold x in Hs. change (key x') with (key x) in Hs. rewrite Ek' in Hs.
  assert (Hpin : pin_of (p_idx p) x' =
    if p_dirty p then Some (Pin (p_idx p) false true (p_data p)) else None).
  { unfold pin_of. subst x'. flags. rewrite Ey'. cbn. rewrite Ed'. by destruct (p_dirty p). }
  rewrite Hpin in Hs. destruct (p_dirty p) eqn:Edirty; (apply Hs;
    [apply (key_other _ _ _ _ _ Hr' Hi Ek'), (din_not_nodev (dsk s) dev sec); done
    | |by apply (others_ok _ _ _ _ Hr')]);
    (unfold bok; subst x'; flags; rewrite Hv', Ey'; cbn [del_flag set_flags b_dev b_sector b_data];
     rewrite Ed'; unfold key in Ek'; simplify_eq; split_and!; auto).
Qed.

Lemma brelse_panics s P i : brep s P -> has B_BUSY (bufs s !!! i) = false ->
  brelse i s = Panic "brelse".
Proof. intros Hr Hb. unfold brelse, getb, gets, bind. by rewrite Hb. Qed.

(** [binit] leaves an empty cache. *)
Lemma binit_bufs (d : D) i : (i < NBUF)%nat ->
  b_flags (bufs (binit d) !!! i) = 0 /\ b_dev (bufs (binit d) !!! i) = u32 (-1).
Proof.
  intros Hi. do 10 (destruct i as [|i]; [by vm_compute|]). unfold NBUF in Hi. lia.
Qed.

Lemma binit_ring (d : D) : ring (bufs (binit d)) (reverse (seq 0 NBUF)).
Proof.
  split_and!; [|by rewrite reverse_Permutation|by vm_compute].
  vm_compute. split_and!; done.
Qed.

Lemma binit_spec (d : D) : brep (binit d) ∅.
Proof.
  pose proof (binit_ring d) as Hring. pose proof (binit_bufs d) as Hb.
  assert (Hl : bc_lock (binit d) = false) by reflexivity.
  generalize dependent (binit d). intros s0 Hring Hb Hl.
  assert (Hf : forall f i, (i < NBUF)%nat -> has f (bufs s0 !!! i) = false).
  { intros f i Hi. unfold has. by rewrite (proj1 (Hb i Hi)). }
  constructor.
  - done.
  - eauto.
  - intros i j Hi Hj _ Hd. by destruct (Hb i Hi).
  - intros i Hi. unfold bok. by rewrite !Hf.
  - intros k p. split; [by rewrite lookup_empty|]. intros (i & Hi & _ & Hp).
    unfold pin_of in Hp. by rewrite !Hf in Hp.
Qed.

Lemma binit_no_key (d : D) j k : (j < NBUF)%nat -> k.1 <> u32 (-1) ->
  key (bufs (binit d) !!! j) <> k.
Proof.
  intros Hj Hk. pose proof (binit_bufs d j Hj) as [_ Hd]. generalize dependent (bufs (binit d) !!! j).
  intros x Hx E. apply Hk. by rewrite <- E.
Qed.

Lemma binit_free (d : D) j : (j < NBUF)%nat -> is_free (bufs (binit d) !!! j) = true.
Proof.
  intros Hj. pose proof (binit_bufs d j Hj) as [Hf _]. generalize dependent (bufs (binit d) !!! j).
  intros x Hx. unfold is_free, has. by rewrite Hx.
Qed.

(** ** Transparency of the cache

    A client that holds a block while it uses it and writes through.  [crun]
    runs its requests on the cache, with the buffers it holds in [h]; [arun] is
    the specification: a plain map from blocks to contents. *)

Inductive bop := ORead (k : Z * Z) | OWrite (k : Z * Z) (d : block) | ORelse (k : Z * Z).

Fixpoint crun (ops : list bop) (h : gmap (Z * Z) nat) : M (bst D) (list block) :=
  match ops with
  | [] => ret []
  | ORead k :: ops' =>
      let! b := bread k.1 k.2 in
      let! x := getb b in
      let! out := crun ops' (<[k := b]> h) in
      ret (b_data x :: out)
  | OWrite k d :: ops' =>
      match h !! k with
      | None => wild "no buffer"
      | Some b => updb b (set_data d) ;! bwrite b ;! crun ops' h
      end
  | ORelse k :: ops' =>
      match h !! k with
      | None => wild "no buffer"
      | Some b => brelse b ;! crun ops' (delete k h)
      end
  end.

Definition fupd (k : Z * Z) (x : block) (m : Z * Z -> block) (k' : Z * Z) : block :=
  if decide (k' = k) then x else m k'.

Fixpoint arun (ops : list bop) (held : gset (Z * Z)) (m : Z * Z -> block)
    : option (list block * (Z * Z -> block)) :=
  match ops with
  | [] => Some ([], m)
  | ORead k :: ops' =>
      if decide (k ∉ held /\ (size held < NBUF)%nat) then
        '(out, m') ← arun ops' ({[k]} ∪ held) m; Some (m k :: out, m')
      else None
  | OWrite k d :: ops' =>
      if decide (k ∈ held /\ length d = BSIZE) then arun ops' held (fupd k d m) else None
  | ORelse k :: ops' =>
      if decide (k ∈ held) then arun ops' (held ∖ {[k]}) m else None
  end.

Definition op_key (o : bop) : Z * Z :=
  match o with ORead k | OWrite k _ | ORelse k => k end.

(** The client holds exactly the pinned blocks, none is dirty, and the disk and
    the held buffers agree with the specification's map. *)
Definition sim (s : bst D) (h : gmap (Z * Z) nat) (m : Z * Z -> block) (P : gmap (Z * Z) pin) : Prop :=
  brep s P /\ (forall k b, h !! k = Some b <-> P !! k = Some (Pin b true false (m k))) /\
  (forall k p, P !! k = Some p -> exists b, p = Pin b true false (m k)) /\
  (forall k, din (dsk s) k.1 k.2 -> dread (dsk s) k.1 k.2 = m k).

Lemma sim_dom s h m P : sim s h m P -> dom P = dom h.
Proof.
  intros (_ & Hh & HP & _). apply set_eq. intros k. rewrite !elem_of_dom. split.
  - intros [p Hp]. destruct (HP _ _ Hp) as [b ->]. exists b. by apply Hh.
  - intros [b Hb]. apply Hh in Hb. eauto.
Qed.

Lemma sim_size s h m P : sim s h m P -> size P = size (dom h).
Proof. intros Hs. by rewrite <- (sim_dom _ _ _ _ Hs), size_dom. Qed.

Lemma pins_insert (h : gmap (Z * Z) nat) (P : gmap (Z * Z) pin) (m m' : Z * Z -> block) k b :
  (forall k b, h !! k = Some b <-> P !! k = Some (Pin b true false (m k))) ->
  (forall k p, P !! k = Some p -> exists b, p = Pin b true false (m k)) ->
  (forall k', k' <> k -> m' k' = m k') ->
  (forall k0 b0, <[k := b]> h !! k0 = Some b0 <->
     <[k := Pin b true false (m' k)]> P !! k0 = Some (Pin b0 true false (m' k0))) /\
  (forall k0 p, <[k := Pin b true false (m' k)]> P !! k0 = Some p ->
     exists b0, p = Pin b0 true false (m' k0)).
Proof.
  intros Hh HP Hm. split.
  - intros k0 b0. destruct (decide (k0 = k)) as [->|].
    + rewrite !lookup_insert_eq. naive_solver.
    + rewrite !lookup_insert_ne, Hm by done. apply Hh.
  - intros k0 p. destruct (decide (k0 = k)) as [->|].
    + rewrite lookup_insert_eq. naive_solver.
    + rewrite lookup_insert_ne, Hm by done. apply HP.
Qed.

Lemma sim_read s h m P k : sim s h m P -> din (dsk s) k.1 k.2 -> k ∉ dom h ->
  (size (dom h) < NBUF)%nat ->
  exists b s1 P1, bread k.1 k.2 s = Done b s1 /\ b_data (bufs s1 !!! b) = m k /\
    sim s1 (<[k := b]> h) m P1 /\ (forall dev sec, din (dsk s1) dev sec <-> din (dsk s) dev sec).
Proof.
  intros Hsim Hk Hk1 Hk2. pose proof (sim_size _ _ _ _ Hsim) as Hsz.
  rewrite <- (sim_dom _ _ _ _ Hsim) in Hk1. apply not_elem_of_dom in Hk1.
  destruct Hsim as (Hr & Hh & HP & Hm).
  destruct (bread_spec s P k Hr Hk) as (b & s1 & E & [Hd1 Hd2] & Hr1); [congruence|lia|].
  unfold isdirty, blk in Hr1. rewrite Hk1, Hm in Hr1 by done.
  destruct (pins_insert h P m m k b Hh HP) as [Hh1 HP1]; [done|].
  pose proof (brep_lookup _ _ _ _ Hr1 (lookup_insert_eq _ _ _)) as (_ & _ & _ & _ & Ed & _).
  exists b, s1, (<[k := Pin b true false (m k)]> P). split_and!; try done.
  split_and!; [done..|]. intros k' Hk'. apply Hd1 in Hk'. rewrite Hd2 by done. by apply Hm.
Qed.

Lemma sim_write s h m P k d b : sim s h m P -> h !! k = Some b -> length d = BSIZE ->
  exists s1 s2 P2, updb b (set_data d) s = Done tt s1 /\ bwrite b s1 = Done tt s2 /\
    sim s2 h (fupd k d m) P2 /\ (forall dev sec, din (dsk s2) dev sec <-> din (dsk s) dev sec).
Proof.
  intros (Hr & Hh & HP & Hm) Hb Hl. pose proof (proj1 (Hh _ _) Hb) as Hp.
  destruct (set_data_spec s P k _ d Hr Hp eq_refl Hl) as (s1 & E1 & Ed1 & Hr1).
  destruct (bwrite_spec s1 _ k _ Hr1 (lookup_insert_eq _ _ _) eq_refl) as (s2 & E2 & Hu & Hr2).
  cbn [p_idx p_data p_dirty] in *. rewrite insert_insert_eq in Hr2. rewrite Ed1 in Hu.
  destruct Hu as (Hu1 & Hu2 & Hu3).
  destruct (pins_insert h P m (fupd k d m) k b Hh HP) as [Hh1 HP1].
  { intros k' Hne. unfold fupd. by rewrite decide_False. }
  replace (fupd k d m k) with d in Hh1, HP1 by (unfold fupd; by rewrite decide_True).
  rewrite insert_id in Hh1 by done.
  exists s1, s2, (<[k := Pin b true false d]> P). split_and!; try done. split_and!; [done..|].
  intros [dev sec] Hk'. cbn in *. unfold fupd. case_decide as E; [subst; done|].
  rewrite Hu3 by (done || by apply Hu1). apply (Hm (dev, sec)). by apply Hu1.
Qed.

Lemma sim_relse s h m P k b : sim s h m P -> din (dsk s) k.1 k.2 -> h !! k = Some b ->
  exists s1 P1, brelse b s = Done tt s1 /\ sim s1 (delete k h) m P1 /\ dsk s1 = dsk s.
Proof.
  intros (Hr & Hh & HP & Hm) Hk Hb. pose proof (proj1 (Hh _ _) Hb) as Hp.
  destruct (brelse_spec s P k _ Hr Hp eq_refl) as (s1 & E1 & Ed1 & Hr1).
  { intros _. cbn. by rewrite Hm. }
  exists s1, (delete k P). split_and!; try done. rewrite <- Ed1 in Hm.
  split_and!; [exact Hr1| | |exact Hm].
  - intros k' b'. rewrite !lookup_delete_Some. split; intros [? ?%Hh]; auto.
  - intros k' p'. rewrite lookup_delete_Some. intros [_ ?]. by apply HP.
Qed.

Lemma crun_arun ops : forall s h m P out m',
  sim s h m P -> Forall (fun o => din (dsk s) (op_key o).1 (op_key o).2) ops ->
  arun ops (dom h) m = Some (out, m') ->
  exists s', crun ops h s = Done out s' /\
    (forall k, din (dsk s) k.1 k.2 -> din (dsk s') k.1 k.2 /\ dread (dsk s') k.1 k.2 = m' k).
Proof.
  induction ops as [|[k|k d|k] ops IH]; intros s h m P out m' Hsim Hin Hrun;
    cbn [arun crun] in *.
  { simplify_eq. exists s. split; [done|]. destruct Hsim as (_ & _ & _ & Hd). auto. }
  all: apply Forall_cons in Hin as [Hk Hin]; cbn [op_key] in Hk; case_decide as Hc; try done.
  - destruct (arun ops _ m) as [[out1 m1]|] eqn:Ea; [|done]. cbn in Hrun. simplify_eq.
    destruct (sim_read _ _ _ _ k Hsim Hk) as (b & s1 & P1 & E & Ed & Hsim1 & Hd); [tauto..|].
    run E. unfold bind at 1, getb, gets. rewrite Ed.
    destruct (IH s1 (<[k := b]> h) m P1 out1 m') as (s2 & E2 & Hd2);
      [done|by setoid_rewrite Hd|by rewrite dom_insert_L|].
    run E2. eexists. split; [done|]. intros k' Hk'. apply Hd2. by apply Hd.
  - destruct Hc as [[b Hb]%elem_of_dom Hl]. rewrite Hb.
    destruct (sim_write _ _ _ _ k d b Hsim Hb Hl) as (s1 & s2 & P2 & E1 & E2 & Hsim2 & Hd).
    run E1. run E2.
    destruct (IH s2 h (fupd k d m) P2 out m') as (s3 & E3 & Hd3); [done|by setoid_rewrite Hd|done|].
    exists s3. split; [done|]. intros k' Hk'. apply Hd3. by apply Hd.
  - apply elem_of_dom in Hc as [b Hb]. rewrite Hb.
    destruct (sim_relse _ _ _ _ k b Hsim Hk Hb) as (s1 & P1 & E1 & Hsim1 & Hd). run E1.
    rewrite <- Hd in Hin |- *. apply (IH s1 (delete k h) m P1); [done|done|by rewrite dom_delete_L].
Qed.

(** C2: the buffer cache is transparent.  For every sequence of requests in which
    a client holds a block (between bread and brelse) while it reads and writes
    it, and never more than [NBUF] at a time, the cache started by [binit] on any
    disk runs to the end without panicking or sleeping, every [bread] returns
    the last data written to the block, and the disk ends with exactly the
    contents the specification's map has. *)
Theorem cache_transparent (d : D) ops out m' :
  Forall (fun o => din d (op_key o).1 (op_key o).2) ops ->
  arun ops ∅ (fun k => dread d k.1 k.2) = Some (out, m') ->
  exists s', crun ops ∅ (binit d) = Done out s' /\
    (forall k, din d k.1 k.2 -> dread (dsk s') k.1 k.2 = m' k).
Proof.
  intros Hin Hrun.
  destruct (crun_arun ops (binit d) ∅ (fun k => dread d k.1 k.2) ∅ out m') as (s' & E & Hd).
  - split_and!; [apply binit_spec|set_solver..|done].
  - exact Hin.
  - by rewrite dom_empty_L.
  - exists s'. split; [done|]. intros k Hk. by apply Hd.
Qed.

(** replacement.  When a block that is not cached is read, [bget] recycles
    the least recently released buffer that is neither busy nor dirty: every
    buffer after it in the list order is busy or dirty.  It panics only when
    every buffer is busy or dirty. *)
Theorem bget_lru s P dev sec l : brep s P -> ring (bufs s) l ->
  (forall j, (j < NBUF)%nat -> key (bufs s !!! j) <> (dev, sec)) ->
  (exists i s' l1 l2, bget dev sec s = Done i s' /\ l = l1 ++ i :: l2 /\
     is_free (bufs s !!! i) = true /\ Forall (fun j => is_free (bufs s !!! j) = false) l2) \/
  (bget dev sec s = Panic "bget: no buffers" /\ Forall (fun j => is_free (bufs s !!! j) = false) l).
Proof.
  intros Hr Hl Hno. rewrite (bget_miss _ _ dev sec Hr Hno l Hl).
  destruct (find _ (reverse l)) as [i|] eqn:E.
  - left. apply find_split in E as (k1 & k2 & El & Hi & Hk).
    exists i. eexists. exists (reverse k2), (reverse k1). split_and!; [done| |done|].
    + rewrite <- (reverse_involutive l), El, reverse_app, reverse_cons, <- app_assoc. done.
    + apply Forall_reverse. done.
  - right. split; [done|]. apply Forall_forall. intros j Hj. apply (find_none _ _ E).
    apply list_elem_of_In. by rewrite elem_of_reverse.
Qed.

End Spec.
(** ** Invariants of the disk's history

    [I] is a property of the disk that reading preserves and that a write of
    block [k] with contents [x] preserves when [W k x] holds of the disk before
    it.  Crash safety of the log is such a property of a traced disk. *)
Class DiskGhost (D : Type) `{DiskSpec D} (I : D -> Prop) (W : Z * Z -> block -> D -> Prop) := {
  ghost_read b d b' d' : has B_BUSY b = true -> has B_DIRTY b = false -> has B_VALID b = false ->
    din d (b_dev b) (b_sector b) -> iderw b d = Done b' d' -> I d -> I d';
  ghost_write b d b' d' : has B_BUSY b = true -> has B_DIRTY b = true ->
    din d (b_dev b) (b_sector b) -> length (b_data b) = BSIZE -> iderw b d = Done b' d' ->
    W (key b) (b_data b) d -> I d -> I d';
}.

Section Ghost.
Context {D : Type} `{DiskSpec D} (I : D -> Prop) (W : Z * Z -> block -> D -> Prop).
Context `{!DiskGhost D I W}.

(** The buffer [bget] returns is dirty only if it is valid. *)
Lemma bget_not_dirty s P k j s1 : brep s P -> din (dsk s) k.1 k.2 -> bget k.1 k.2 s = Done j s1 ->
  dsk s1 = dsk s /\ has B_BUSY (bufs s1 !!! j) = true /\ key (bufs s1 !!! j) = k /\
  (has B_VALID (bufs s1 !!! j) = false -> has B_DIRTY (bufs s1 !!! j) = false).
Proof.
  destruct k as [dev sec]. cbn [fst snd]. intros Hr Hin Eg. pose proof (ring_length _ _ Hr) as Hlen.
  destruct (cached_cases s (dev, sec)) as [(i & Hi & Hk)|Hno].
  - rewrite (bget_hit _ _ _ _ _ Hr Hi Hk (din_not_nodev _ _ _ Hin)) in Eg.
    destruct (has B_BUSY (bufs s !!! i)) eqn:Hb; [done|]. simplify_eq. cbn [dsk bufs].
    rewrite list_lookup_total_insert_eq by lia. flags. split_and!; [done..|].
    destruct (br_ok _ _ Hr j Hi) as (B1 & _). rewrite Hb in B1. cbn in B1.
    intros Hv. destruct (has B_DIRTY _); [|done]. by rewrite B1 in Hv.
  - destruct (br_ring _ _ Hr) as [l Hl]. rewrite (bget_miss _ _ _ _ Hr Hno l Hl) in Eg.
    destruct (find _ _) as [i|] eqn:Ef; [|done]. simplify_eq. cbn [dsk bufs].
    apply find_some in Ef as [Hi _]. apply list_elem_of_In in Hi. rewrite elem_of_reverse in Hi.
    apply (ring_elem _ _ _ Hl) in Hi. by rewrite list_lookup_total_insert_eq by lia.
Qed.

Lemma bread_ghost s P k i s' : brep s P -> din (dsk s) k.1 k.2 -> bread k.1 k.2 s = Done i s' ->
  I (dsk s) -> I (dsk s').
Proof.
  intros Hr Hin E HI. unfold bread in E. apply bind_inv in E as (j & s1 & Eg & E).
  destruct (bget_not_dirty _ _ _ _ _ Hr Hin Eg) as (Ed & Hb & Hk & Hnd).
  unfold bind, getb, gets in E. destruct (has B_VALID (bufs s1 !!! j)) eqn:Hv; cbn [negb when] in E.
  - unfold ret in E. simplify_eq. by rewrite Ed.
  - unfold do_iderw in E. destruct (iderw _ _) as [b' d'| | | |] eqn:Ei; try done.
    unfold ret in E. simplify_eq. cbn [dsk]. rewrite Ed in Ei.
    eapply ghost_read; [exact Hb|by apply Hnd|done| |exact Ei|done]. done.
Qed.

Lemma bwrite_ghost s P k p s' : brep s P -> P !! k = Some p -> bwrite (p_idx p) s = Done tt s' ->
  W k (p_data p) (dsk s) -> I (dsk s) -> I (dsk s').
Proof.
  intros Hr Hp E HW HI. pose proof (ring_length _ _ Hr) as Hlen.
  pose proof (brep_lookup _ _ _ _ Hr Hp) as (Hi & Ek & _ & _ & Ed & _ & Hin & Hl & _).
  unfold bwrite, getb, gets, bind at 1 in E. destruct (has B_BUSY _) eqn:Hb; cbn [negb] in E; [|done].
  unfold bind in E. rewrite updb_run in E by lia. unfold do_iderw in E. cbn [bufs dsk bc_lock] in E.
  rewrite list_lookup_total_insert_eq in E by lia.
  destruct (iderw _ _) as [b' d'| | | |] eqn:Ei; try done. simplify_eq. cbn [dsk].
  eapply ghost_write; [| | | |exact Ei| |done]; [by flags|by flags|done|by cbn; rewrite Ed|].
  cbn [b_data add_flag set_flags]. by rewrite Ed.
Qed.

End Ghost.

End Bio.
