(* ===== verification/Disk.v ===== *)
(** * The in-memory disk driver (kernel/memide.c)

    [Memide] is the driver that serves the cache from a disk image in memory,
    and the proof that it satisfies the contract of [Bio.DiskSpec].  [Traced]
    wraps any driver and keeps the history of the disk states between sector
    writes, which is what a crash can expose. *)

From S2P Require Import Prelude Spinlock Bio.

Module Memide.
Import Bio.

(** [memdisk] and [disksize]. *)
Record memdisk := Memdisk { image : list Z; disksize : Z }.

(** [ideinit]: the image linked into the kernel. *)
Definition ideinit (img : list Z) : memdisk :=
  Memdisk img (u32 (Z.of_nat (length img)) / 512).

#[global] Instance iderw : DiskDriver memdisk := fun b d =>
  if negb (has B_BUSY b) then Panic "iderw: buf not busy"
  else if Z.land (b_flags b) (Z.lor B_VALID B_DIRTY) =? B_VALID then Panic "iderw: nothing to do"
  else if negb (b_dev b =? 1) then Panic "iderw: request not for disk 1"
  else if disksize d <=? b_sector b then Panic "iderw: sector out of range"
  else
    let p := Z.to_nat (b_sector b * 512) in
    let '(b, d) :=
      if has B_DIRTY b then
        let b := del_flag B_DIRTY b in
        (b, Memdisk (poke p (take 512 (b_data b)) (image d)) (disksize d))
      else (set_data (peek p 512 (image d)) b, d) in
    Done (add_flag B_VALID b) d.

Definition in_range (d : memdisk) (dev sec : Z) : Prop :=
  dev = 1 /\ 0 <= sec < disksize d /\ disksize d * 512 <= Z.of_nat (length (image d)) /\
  disksize d <= 2 ^ 32.

(** The test for nothing to do, by flags. *)
Lemma nothing_to_do b : Z.land (b_flags b) (Z.lor B_VALID B_DIRTY) = B_VALID ->
  has B_VALID b = true /\ has B_DIRTY b = false.
Proof.
  intros E. change (has B_VALID b) with (has (2 ^ 1) b). change (has B_DIRTY b) with (has (2 ^ 2) b).
  rewrite !has_testbit by lia. split.
  - apply (f_equal (fun z => Z.testbit z 1)) in E. rewrite Z.land_spec in E.
    by rewrite andb_true_r in E.
  - apply (f_equal (fun z => Z.testbit z 2)) in E. rewrite Z.land_spec in E.
    by rewrite andb_true_r in E.
Qed.

Lemma set_then_clear x : add_flag B_VALID (del_flag B_DIRTY x) = del_flag B_DIRTY (add_flag B_VALID x).
Proof.
  unfold add_flag, del_flag, set_flags. cbn. f_equal. apply Z.bits_inj'. intros i Hi.
  rewrite !Z.lor_spec, !Z.land_spec, !Z.lor_spec. rewrite Z.lnot_spec by lia.
  destruct (Z.eq_dec i 1) as [->|]; [by destruct (Z.testbit (b_flags x) 1)|].
  change B_VALID with (2 ^ 1). by rewrite (Z.pow2_bits_false 1 i), !orb_false_r by lia.
Qed.

#[global] Program Instance memide_spec : DiskSpec memdisk := {|
  dread d dev sec := peek (Z.to_nat (sec * 512)) 512 (image d);
  din := in_range;
|}.
Next Obligation. intros d dev sec (-> & H1 & _ & H2). lia. Qed.
Next Obligation.
  intros d dev sec (-> & H1 & H2 & _). unfold peek, BSIZE. rewrite length_take, length_drop. lia.
Qed.
Next Obligation.
  intros b d Hb Hd (Hdev & Hs & Hl & Hu) Hlen. unfold Bio.iderw, iderw. rewrite Hb, Hdev. cbn [negb].
  destruct (Z.eqb_spec (Z.land (b_flags b) (Z.lor B_VALID B_DIRTY)) B_VALID) as [E|_].
  { apply nothing_to_do in E as [_ ?]. congruence. }
  cbn [Z.eqb Pos.eqb negb]. destruct (Z.leb_spec (disksize d) (b_sector b)); [lia|].
  rewrite Hd, set_then_clear. unfold BSIZE in Hlen.
  cbn [del_flag set_flags b_data]. rewrite take_ge by lia.
  assert (Hin : (Z.to_nat (b_sector b * 512) + length (b_data b) <= length (image d))%nat) by lia.
  eexists. split; [done|]. cbn [image disksize]. split_and!.
  - intros dev sec. unfold in_range. cbn [image disksize]. by rewrite length_poke by done.
  - rewrite <- Hlen. by apply peek_poke.
  - intros dev sec (-> & Hs' & _ & _) Hne. apply peek_poke_other; [done|].
    assert (sec <> b_sector b) by congruence. lia.
Qed.
Next Obligation.
  intros b d Hb Hd Hv (Hdev & Hs & Hl & Hu). unfold Bio.iderw, iderw. rewrite Hb, Hdev. cbn [negb].
  destruct (Z.eqb_spec (Z.land (b_flags b) (Z.lor B_VALID B_DIRTY)) B_VALID) as [E|_].
  { apply nothing_to_do in E as [? _]. congruence. }
  cbn [Z.eqb Pos.eqb negb]. destruct (Z.leb_spec (disksize d) (b_sector b)); [lia|].
  rewrite Hd. exists d. split_and!; done.
Qed.

(** A request for a sector the image does not have panics and leaves no trace. *)
Lemma iderw_out_of_range b d : has B_BUSY b = true ->
  Z.land (b_flags b) (Z.lor B_VALID B_DIRTY) <> B_VALID -> b_dev b = 1 ->
  disksize d <= b_sector b -> iderw b d = Panic "iderw: sector out of range".
Proof.
  intros Hb Hn Hd Hs. unfold iderw. rewrite Hb, Hd. cbn.
  destruct (Z.eqb_spec (Z.land (b_flags b) (Z.lor B_VALID B_DIRTY)) B_VALID); [done|].
  destruct (Z.leb_spec (disksize d) (b_sector b)); [done|lia].
Qed.

End Memide.

(** ** Disk histories *)

Module Traced.
Import Bio.

Section Wrap.
Context {D : Type} `{HD : DiskDriver D} {HS : @DiskSpec D HD}.

(** A disk and the states it went through, the oldest first. *)
Record traced := Tr { now : D; past : list D }.

#[global] Instance iderw_traced : DiskDriver traced := fun b t =>
  match Bio.iderw b (now t) with
  | Done b' d => Done b' (Tr d (past t ++ [now t]))
  | Panic msg => Panic msg
  | Sleep c d => Sleep c (Tr d (past t ++ [now t]))
  | Wild w => Wild w
  | NoFuel => NoFuel
  end.

(** Every disk a crash may leave behind. *)
Definition crash_points (t : traced) : list D := past t ++ [now t].

#[global] Program Instance traced_spec : DiskSpec traced := {|
  dread t := dread (now t);
  din t := din (now t);
|}.
Next Obligation. intros t dev sec. apply din_dev. Qed.
Next Obligation. intros t dev sec. apply dread_length. Qed.
Next Obligation.
  intros b t Hb Hd Hin Hl. destruct (iderw_write b (now t) Hb Hd Hin Hl) as (d' & E & H1 & H2 & H3).
  unfold Bio.iderw at 1, iderw_traced. exists (Tr d' (past t ++ [now t])). by rewrite E.
Qed.
Next Obligation.
  intros b t Hb Hd Hv Hin. destruct (iderw_read b (now t) Hb Hd Hv Hin) as (d' & E & H1 & H2).
  unfold Bio.iderw at 1, iderw_traced. exists (Tr d' (past t ++ [now t])). by rewrite E.
Qed.

(** A property of single disks, checked at every crash point. *)
Definition always (Q : D -> Prop) (t : traced) : Prop := Forall Q (crash_points t).

Definition write_keeps (Q : D -> Prop) (k : Z * Z) (x : block) (t : traced) : Prop :=
  forall d', dupd k x (now t) d' -> Q d'.

#[global] Instance traced_ghost Q : (forall d d', deq d d' -> Q d -> Q d') ->
  DiskGhost traced (always Q) (write_keeps Q).
Proof.
  intros HQ. assert (Hlast : forall d l, Forall Q (l ++ [d]) -> Q d).
  { intros d l H. apply Forall_app in H as [_ H]. by apply Forall_cons in H as [? _]. }
  split; intros b t b' t' Hb Hd; unfold Bio.iderw at 1, iderw_traced, always, crash_points, write_keeps.
  - intros Hv Hin. destruct (iderw_read b (now t) Hb Hd Hv Hin) as (d' & E & Hq).
    rewrite E. intros ? Ht. simplify_eq. cbn [now past]. rewrite Forall_app. split; [done|].
    apply Forall_singleton. apply (HQ (now t)); [exact Hq|]. by apply Hlast in Ht.
  - intros Hin Hl. destruct (iderw_write b (now t) Hb Hd Hin Hl) as (d' & E & Hu).
    rewrite E. intros ? HW Ht. simplify_eq. cbn [now past]. rewrite Forall_app. split; [done|].
    apply Forall_singleton, HW. exact Hu.
Qed.

End Wrap.
Arguments traced : clear implicits.
End Traced.

(** ** Examples: the cache over a small image *)

Module Demo.
Import Bio.

Definition small : Memide.memdisk := Memide.ideinit (replicate 1536 0).
Definition script : list bop :=
  [ORead (1, 0); OWrite (1, 0) (replicate 512 5); ORelse (1, 0); ORead (1, 0); ORelse (1, 0)].

Lemma cache_transparent_witness :
  exists s', crun script ∅ (binit small) = Done [replicate 512 0; replicate 512 5] s'.
Proof.
  assert (Ha : fst <$> arun script ∅ (fun k => dread small k.1 k.2)
               = Some [replicate 512 0; replicate 512 5]) by (vm_compute; reflexivity).
  destruct (arun script ∅ (fun k => dread small k.1 k.2)) as [[out m']|] eqn:E; [|discriminate Ha].
  assert (Eo : out = [replicate 512 0; replicate 512 5])
    by exact (f_equal (default []) Ha).
  destruct (cache_transparent small script out m') as (s' & Ec & _).
  - repeat (apply Forall_cons; split); [..|apply Forall_nil; exact I];
      (split; [reflexivity|split; [split; [discriminate|reflexivity]|split; discriminate]]).
  - exact E.
  - exists s'. exact (eq_rect out (fun o => crun script ∅ (binit small) = Done o s') Ec _ Eo).
Defined.

Lemma bget_lru_witness :
  exists i s', bget 1 0 (binit small) = Done i s' /\ is_free (bufs (binit small) !!! i) = true.
Proof.
  destruct (bget_lru (binit small) ∅ 1 0 (reverse (seq 0 NBUF)) (binit_spec small) (binit_ring small))
    as [(i & s' & _ & _ & E & _ & Hf & _)|[_ HF]].
  - intros j Hj. apply binit_no_key; [exact Hj|discriminate].
  - exists i, s'. exact (conj E Hf).
  - exfalso. rewrite Forall_forall in HF. specialize (HF 0%nat).
    rewrite elem_of_reverse, elem_of_seq in HF. specialize (HF ltac:(unfold NBUF; lia)).
    rewrite binit_free in HF by (unfold NBUF; lia). discriminate HF.
Defined.

End Demo.
