(* ===== verification/Ide.v ===== *)
(** * The IDE disk driver (kernel/ide.c)

    The driver's queue is linked through [qnext] of the buffers, as in the code; the
    controller is an argument: its ports ([Controller]) and what the driver relies on
    of them ([Ata], the registers of an ATA task file).  Processes that ask for
    blocks and the interrupts of the controller come in any order; each runs with
    [idelock] held and is one step.  The requests are served in the order they came,
    each is finished by one interrupt, and the data are those of a disk that serves
    one request at a time, where a command the controller reports as failed leaves
    the disk or the buffer as it was.  A process that runs alone sees the contract
    [Bio.DiskSpec] that the cache and the log are proved against. *)

From S2P Require Import Prelude Spinlock Bio Disk.

Module Ide.
Import Bio.

Definition IDE_BSY : Z := 128.
Definition IDE_DRDY : Z := 64.
Definition IDE_DF : Z := 32.
Definition IDE_ERR : Z := 1.
Definition IDE_CMD_READ : Z := 32.
Definition IDE_CMD_WRITE : Z := 48.

(** ** The controller *)

(** Port input and output; [insl] and [outsl] move words, given by their bytes. *)
Class Controller (H : Type) := {
  inb : Z -> H -> Z * H;
  outb : Z -> Z -> H -> H;
  insl : Z -> nat -> H -> list Z * H;
  outsl : Z -> list Z -> H -> H;
}.

(** The command whose data are to be moved. *)
Inductive phase := Idle | Reading | Writing.

(** What the driver relies on.  [media] is the contents of the two drives, [reg] what
    was written last to a register, [delay] how often the status is read before the
    controller is ready, at most [polls] times, and [faulty] whether the last command
    failed.  The registers are written when the controller is ready; a command takes
    some time.  The data of a write are taken when the status shows that the controller
    asks for them ([wants_data]: not busy, and DRQ); what a write that fails leaves in
    its sector is not known, and a read that fails gives no data. *)
Definition IDE_DRQ : Z := 8.

Definition wants_data `{Controller H} (h : H) : bool :=
  (Z.land (inb 503 h).1 IDE_BSY =? 0) && negb (Z.land (inb 503 h).1 IDE_DRQ =? 0).

Class Ata (H : Type) `{Controller H} := {
  media : H -> Z -> Z -> block;
  sectors : Z -> Z;
  reg : H -> Z -> Z;
  cmd : H -> phase;
  delay : H -> nat;
  faulty : H -> bool;
  polls : nat;
  drive h := Z.land (Z.shiftr (reg h 502) 4) 1;
  lba h := reg h 499 + reg h 500 * 2 ^ 8 + reg h 501 * 2 ^ 16 + Z.land (reg h 502) 15 * 2 ^ 24;
  delay_polls h : (delay h < polls)%nat;
  media_length h d s : 0 <= s < sectors d -> length (media h d s) = BSIZE;
  inb_status h :
    (Z.land (inb 503 h).1 (Z.lor IDE_BSY IDE_DRDY) =? IDE_DRDY) = (delay h =? 0)%nat /\
    (delay h = 0%nat -> negb (Z.land (inb 503 h).1 (Z.lor IDE_DF IDE_ERR) =? 0) = faulty h) /\
    delay (inb 503 h).2 = pred (delay h) /\
    media (inb 503 h).2 = media h /\ reg (inb 503 h).2 = reg h /\ cmd (inb 503 h).2 = cmd h /\ faulty (inb 503 h).2 = faulty h;
  outb_control v h : delay h = 0%nat -> delay (outb 1014 v h) = 0%nat /\ media (outb 1014 v h) = media h;
  outb_register p v h : 498 <= p <= 502 -> delay h = 0%nat ->
    delay (outb p v h) = 0%nat /\ media (outb p v h) = media h /\ (forall q, reg (outb p v h) q = if q =? p then v else reg h q);
  outb_command c h : delay h = 0%nat -> c = IDE_CMD_READ \/ c = IDE_CMD_WRITE ->
    media (outb 503 c h) = media h /\ reg (outb 503 c h) = reg h /\ cmd (outb 503 c h) = if c =? IDE_CMD_READ then Reading else Writing;
  insl_data h : cmd h = Reading -> delay h = 0%nat -> faulty h = false -> reg h 498 = 1 -> 0 <= lba h < sectors (drive h) ->
    (insl 496 128 h).1 = media h (drive h) (lba h) /\ media (insl 496 128 h).2 = media h;
  outsl_data h x : cmd h = Writing -> wants_data h = true -> reg h 498 = 1 -> 0 <= lba h < sectors (drive h) -> length x = BSIZE ->
    (faulty (outsl 496 x h) = false -> media (outsl 496 x h) (drive h) (lba h) = x) /\
    forall d s, (d =? drive h) && (s =? lba h) = false -> media (outsl 496 x h) d s = media h d s;
}.

(** ** The driver *)

(** A buffer with its link. *)
Record rq := Rq { rb : buf; qnext : option nat }.

Record ist (H : Type) := Ist {
  ibufs : gmap nat rq;
  idequeue : option nat;
  idelock : bool;
  havedisk1 : bool;
  hw : H;
  woken : list nat;      (* the buffers whose sleepers were woken, the oldest first *)
}.
Arguments Ist {H}. Arguments ibufs {H}. Arguments idequeue {H}. Arguments idelock {H}.
Arguments havedisk1 {H}. Arguments hw {H}. Arguments woken {H}.

(** [pp] of [iderw]: [&idequeue] or [&b->qnext]. *)
Inductive place := PQueue | PNext (b : nat).

Section Driver.
Context {H : Type} `{Controller H} (fuel : nat).

Definition set_ibufs (m : gmap nat rq) (s : ist H) : ist H := Ist m (idequeue s) (idelock s) (havedisk1 s) (hw s) (woken s).
Definition set_idequeue (q : option nat) (s : ist H) : ist H := Ist (ibufs s) q (idelock s) (havedisk1 s) (hw s) (woken s).
Definition set_idelock (l : bool) (s : ist H) : ist H := Ist (ibufs s) (idequeue s) l (havedisk1 s) (hw s) (woken s).
Definition set_havedisk1 (x : bool) (s : ist H) : ist H := Ist (ibufs s) (idequeue s) (idelock s) x (hw s) (woken s).
Definition set_hw (h : H) (s : ist H) : ist H := Ist (ibufs s) (idequeue s) (idelock s) (havedisk1 s) h (woken s).
Definition wake (b : nat) (s : ist H) : ist H := Ist (ibufs s) (idequeue s) (idelock s) (havedisk1 s) (hw s) (woken s ++ [b]).

Definition getq (b : nat) : M (ist H) rq := fun s => match ibufs s !! b with Some r => Done r s | None => Wild "buf" end.
Definition upd (b : nat) (f : buf -> buf) : M (ist H) unit := modify (fun s => set_ibufs (alter (fun r => Rq (f (rb r)) (qnext r)) b (ibufs s)) s).
Definition on_hw {A} (m : M H A) : M (ist H) A := zoom hw set_hw m.
Definition out (p v : Z) : M H unit := modify (outb p v).
Definition acquire_ide : M (ist H) unit := Spinlock.acquire idelock set_idelock.
Definition release_ide : M (ist H) unit := Spinlock.release idelock set_idelock.

Fixpoint idewait_loop (n : nat) (checkerr : bool) : M H Z := fun h =>
  match n with
  | O => NoFuel
  | S n' =>
      let '(r, h) := inb 503 h in
      if negb (Z.land r (Z.lor IDE_BSY IDE_DRDY) =? IDE_DRDY) then idewait_loop n' checkerr h
      else if checkerr && negb (Z.land r (Z.lor IDE_DF IDE_ERR) =? 0) then Done (-1) h
      else Done 0 h
  end.

Definition idewait (checkerr : bool) : M H Z := idewait_loop fuel checkerr.

(** [for (i = 0; i < 1000; i++) if (inb(0x1f7) != 0) ...] *)
Fixpoint probe (n : nat) : M H bool := fun h =>
  match n with
  | O => Done false h
  | S n' => let '(r, h) := inb 503 h in if negb (r =? 0) then Done true h else probe n' h
  end.

Definition ideinit : M (ist H) unit :=
  modify (set_idelock false) ;!
  on_hw (idewait false) ;!
  on_hw (out 502 (Z.lor 224 (Z.shiftl 1 4))) ;!
  let! found := on_hw (probe 1000) in
  when found (modify (set_havedisk1 true)) ;!
  on_hw (out 502 (Z.lor 224 (Z.shiftl 0 4))).

(** The controller's part of [idestart]. *)
Definition start (b : buf) : M H unit :=
  idewait false ;!
  out 1014 0 ;!
  out 498 1 ;!
  out 499 (Z.land (b_sector b) 255) ;!
  out 500 (Z.land (Z.shiftr (b_sector b) 8) 255) ;!
  out 501 (Z.land (Z.shiftr (b_sector b) 16) 255) ;!
  out 502 (Z.lor (Z.lor 224 (Z.shiftl (Z.land (b_dev b) 1) 4)) (Z.land (Z.shiftr (b_sector b) 24) 15)) ;!
  if has B_DIRTY b then
    out 503 IDE_CMD_WRITE ;!
    modify (outsl 496 (take 512 (b_data b)))
  else out 503 IDE_CMD_READ.

Definition idestart (b : option nat) : M (ist H) unit :=
  match b with
  | None => panic "idestart"
  | Some b => let! r := getq b in on_hw (start (rb r))
  end.

(** Read data if needed. *)
Definition receive (b : nat) (x : buf) : M (ist H) unit :=
  if negb (has B_DIRTY x) then
    let! w := on_hw (idewait true) in
    if 0 <=? w then let! d := on_hw (fun h => let '(d, h) := insl 496 128 h in Done d h) in upd b (set_data d)
    else ret tt
  else ret tt.

Definition ideintr : M (ist H) unit :=
  acquire_ide ;!
  let! q := gets idequeue in
  match q with
  | None => release_ide
  | Some b =>
      let! r := getq b in
      modify (set_idequeue (qnext r)) ;!
      receive b (rb r) ;!
      upd b (fun x => del_flag B_DIRTY (add_flag B_VALID x)) ;!
      modify (wake b) ;!
      let! q := gets idequeue in
      when (bool_decide (is_Some q)) (idestart q) ;!
      release_ide
  end.

(** [*pp] *)
Definition deref (p : place) (s : ist H) : option (option nat) :=
  match p with PQueue => Some (idequeue s) | PNext b => qnext <$> ibufs s !! b end.

(** [for (pp = &idequeue; *pp; pp = &( *pp)->qnext)] *)
Fixpoint last_place (n : nat) (p : place) : M (ist H) place := fun s =>
  match deref p s with
  | None => Wild "buf"
  | Some None => Done p s
  | Some (Some b) => match n with O => NoFuel | S n' => last_place n' (PNext b) s end
  end.

(** [*pp = b] *)
Definition assign (p : place) (b : nat) : M (ist H) unit :=
  modify (fun s =>
    match p with
    | PQueue => set_idequeue (Some b) s
    | PNext c => set_ibufs (alter (fun r => Rq (rb r) (Some b)) c (ibufs s)) s
    end).

(** Append [b] to [idequeue]. *)
Definition append (b : nat) : M (ist H) unit :=
  modify (fun s => set_ibufs (alter (fun r => Rq (rb r) None) b (ibufs s)) s) ;!
  let! n := gets (fun s => size (ibufs s)) in
  let! pp := last_place n PQueue in
  assign pp b.

(** [while ((b->flags & (B_VALID | B_DIRTY)) != B_VALID) sleep(b, &idelock)], then
    [release]; a process that was woken runs it again after it has the lock. *)
Definition iderw_wait (b : nat) : M (ist H) unit :=
  let! r := getq b in
  if Z.land (b_flags (rb r)) (Z.lor B_VALID B_DIRTY) =? B_VALID then release_ide
  else modify (set_idelock false) ;! sleepOn (CBuf b).

Definition iderw (b : nat) : M (ist H) unit :=
  let! r := getq b in
  if negb (has B_BUSY (rb r)) then panic "iderw: buf not busy"
  else if Z.land (b_flags (rb r)) (Z.lor B_VALID B_DIRTY) =? B_VALID then panic "iderw: nothing to do"
  else
    let! present := gets havedisk1 in
    if negb (b_dev (rb r) =? 0) && negb present then panic "iderw: ide disk 1 not present"
    else
      acquire_ide ;!
      append b ;!
      let! q := gets idequeue in
      when (bool_decide (q = Some b)) (idestart (Some b)) ;!
      iderw_wait b.

End Driver.

(** ** The controller obeys *)

(** Writing a register is the next thing the driver does. *)
Ltac write_register h' D' M' R' :=
  match goal with
  | D : delay ?h = 0%nat |- context [bind (out ?p ?v) ?k ?h] =>
      rewrite (bind_Done (out p v) k h tt (outb p v h) eq_refl);
      destruct (outb_register p v h ltac:(lia) D) as (D' & M' & R'); set (h' := outb p v h) in *
  end.

(** The parts of a sector number and of the drive register. *)
Lemma sector_bytes x : 0 <= x < 2 ^ 28 ->
  Z.land x 255 + Z.land (Z.shiftr x 8) 255 * 2 ^ 8 + Z.land (Z.shiftr x 16) 255 * 2 ^ 16 + Z.land (Z.shiftr x 24) 15 * 2 ^ 24 = x.
Proof.
  intros Hx. change 255 with (Z.ones 8). change 15 with (Z.ones 4). rewrite !Z.land_ones, !Z.shiftr_div_pow2 by lia.
  change (2 ^ 4) with 16. change (2 ^ 8) with 256. change (2 ^ 16) with 65536. change (2 ^ 24) with 16777216. Z.div_mod_to_equations. lia.
Qed.

Lemma drive_register d k : 0 <= d < 2 -> 0 <= k < 16 ->
  let r := Z.lor (Z.lor 224 (Z.shiftl d 4)) k in Z.land r 15 = k /\ Z.land (Z.shiftr r 4) 1 = d.
Proof.
  intros Hd Hk.
  assert (A : forallb (fun d => forallb (fun k => let r := Z.lor (Z.lor 224 (Z.shiftl d 4)) k in (Z.land r 15 =? k) && (Z.land (Z.shiftr r 4) 1 =? d))
    (map Z.of_nat (seq 0 16))) (map Z.of_nat (seq 0 2)) = true) by reflexivity.
  assert (I : forall n x, 0 <= x < Z.of_nat n -> In x (map Z.of_nat (seq 0 n))).
  { intros n x Hx. apply in_map_iff. exists (Z.to_nat x). split; [lia|]. apply in_seq. lia. }
  rewrite forallb_forall in A. specialize (A d (I 2%nat d Hd)). rewrite forallb_forall in A. specialize (A k (I 16%nat k Hk)).
  cbv zeta in *. lia.
Qed.

Section Hardware.
Context {H : Type} `{HA : Ata H} (fuel : nat) (Hfuel : (polls <= fuel)%nat).

Lemma idewait_loop_ok n : forall ck h, (delay h < n)%nat ->
  exists h', idewait_loop n ck h = Done (if ck && faulty h then -1 else 0) h' /\ delay h' = 0%nat /\
    media h' = media h /\ reg h' = reg h /\ cmd h' = cmd h /\ faulty h' = faulty h.
Proof.
  induction n as [|n IH]; intros ck h Hd; [lia|]. cbn [idewait_loop]. destruct (inb_status h) as (R & E & D & Em & Er & Ec & Ef).
  destruct (inb 503 h) as [r h1]. cbn [fst snd] in *. rewrite R. destruct (Nat.eqb_spec (delay h) 0) as [Z0|N0]; cbn [negb].
  - rewrite (E Z0). exists h1. rewrite Z0 in D. destruct ck, (faulty h); split_and!; done.
  - destruct (IH ck h1) as (h' & Eh & D' & M' & R' & C' & F'); [lia|]. exists h'. rewrite Eh, Ef. split_and!; congruence.
Qed.

Lemma idewait_ok ck h : exists h', idewait fuel ck h = Done (if ck && faulty h then -1 else 0) h' /\ delay h' = 0%nat /\
  media h' = media h /\ reg h' = reg h /\ cmd h' = cmd h /\ faulty h' = faulty h.
Proof. apply idewait_loop_ok. pose proof (delay_polls h). lia. Qed.

(** The drive of a buffer, and whether its sector is on it. *)
Definition drive_of (b : buf) : Z := Z.land (b_dev b) 1.
Definition on_disk (b : buf) : Prop := 0 <= b_sector b < 2 ^ 28 /\ b_sector b < sectors (drive_of b).

(** [m] where the sector of [b] is as in [n]. *)
Definition store (m : Z -> Z -> block) (b : buf) (n : Z -> Z -> block) : Z -> Z -> block :=
  fun d s => if (d =? drive_of b) && (s =? b_sector b) then n d s else m d s.

(** The controller takes the data of a write as soon as it has the command.  The driver
    does not wait for it to ask. *)
Definition prompt : Prop := forall h, delay h = 0%nat -> 0 <= lba h < sectors (drive h) -> wants_data (outb 503 IDE_CMD_WRITE h) = true.
Context (Hprompt : prompt).

(** What a write that was started has done: its data are in the sector unless it failed. *)
Definition written (m : Z -> Z -> block) (b : buf) (h : H) : Prop :=
  (faulty h = false -> media h (drive_of b) (b_sector b) = b_data b) /\ forall d s, media h d s = store m b (media h) d s.

(** The registers address the sector of [b]. *)
Definition addresses (h : H) (b : buf) : Prop := reg h 498 = 1 /\ drive h = drive_of b /\ lba h = b_sector b.

Lemma start_ok b h : on_disk b -> (has B_DIRTY b = true -> length (b_data b) = BSIZE) ->
  exists h', start fuel b h = Done tt h' /\
    if has B_DIRTY b then written (media h) b h'
    else media h' = media h /\ cmd h' = Reading /\ addresses h' b.
Proof.
  intros [Hs Hn] Hl. unfold start. destruct (idewait_ok false h) as (h0 & E & D & M0 & _). run E.
  pose proof (outb_control 0 h0 D) as [D1 M1]. set (h1 := outb 1014 0 h0) in *. rewrite (bind_Done (out 1014 0) _ h0 tt h1 eq_refl).
  write_register h2 D2 M2 R2. write_register h3 D3 M3 R3. write_register h4 D4 M4 R4. write_register h5 D5 M5 R5.
  set (v6 := Z.lor _ _). write_register h6 D6 M6 R6.
  assert (Em : media h6 = media h) by congruence. clear M0 M1 M2 M3 M4 M5 M6 E.
  assert (Dr : 0 <= Z.land (b_dev b) 1 < 2) by (change 1 with (Z.ones 1); rewrite Z.land_ones by lia; apply Z.mod_pos_bound; lia).
  assert (Hi : 0 <= Z.land (Z.shiftr (b_sector b) 24) 15 < 16) by (change 15 with (Z.ones 4); rewrite Z.land_ones by lia; apply Z.mod_pos_bound; lia).
  pose proof (drive_register _ _ Dr Hi) as [Lo Up]. fold v6 in Lo, Up. cbv zeta in Lo, Up.
  assert (Ad : addresses h6 b).
  { unfold addresses, drive, lba. rewrite !R6, !R5, !R4, !R3, !R2. cbn. split; [done|]. split; [done|]. rewrite Lo. by apply sector_bytes. }
  destruct (has B_DIRTY b) eqn:Hd.
  - specialize (Hl eq_refl). destruct (outb_command IDE_CMD_WRITE h6 D6 ltac:(auto)) as (M7 & R7 & C7). set (h7 := outb 503 IDE_CMD_WRITE h6) in *.
    rewrite (bind_Done (out 503 IDE_CMD_WRITE) _ h6 tt h7 eq_refl). eexists. split; [reflexivity|]. rewrite take_ge by (unfold BSIZE in Hl; lia).
    destruct Ad as (A1 & A2 & A3). assert (In : 0 <= lba h6 < sectors (drive h6)) by (rewrite A2, A3; lia). pose proof (Hprompt h6 D6 In) as Wd.
    fold h7 in Wd. assert (E7 : drive h7 = drive_of b /\ lba h7 = b_sector b) by (unfold drive, lba in *; by rewrite R7). destruct E7 as [Ed El].
    destruct (outsl_data h7 (b_data b)) as [Go Ot]; [done|done|by rewrite R7|rewrite Ed, El; lia|done|]. rewrite Ed, El in Go, Ot. split; [done|].
    intros d s. unfold store. destruct (_ && _) eqn:Eq; [done|]. by rewrite Ot, M7, Em.
  - destruct (outb_command IDE_CMD_READ h6 D6 ltac:(auto)) as (M7 & R7 & C7). eexists. split; [reflexivity|]. split; [congruence|]. split; [done|].
    unfold addresses, drive, lba in *. rewrite R7. done.
Qed.

(** ** A disk that serves one request at a time *)

Record ast := Ast { amedia : Z -> Z -> block; abufs : gmap nat buf; queue : list nat; served : list nat }.

(** A buffer that can be asked for: busy, something to do, a sector of a disk that is
    there. *)
Definition requestable (present : bool) (b : buf) : Prop :=
  has B_BUSY b = true /\ has B_VALID b && negb (has B_DIRTY b) = false /\ on_disk b /\ (has B_DIRTY b = true -> length (b_data b) = BSIZE) /\ (b_dev b = 0 \/ present = true).

(** How a command ended; a write that failed has left something in its sector. *)
Inductive verdict := Good | Failed (left : Z -> Z -> block).

(** What serving a request makes of its buffer and of the disk.  After a read that
    failed, the buffer has the bytes it had before, and is valid all the same. *)
Definition finish (m : Z -> Z -> block) (o : verdict) (b : buf) : buf :=
  del_flag B_DIRTY (add_flag B_VALID
    match has B_DIRTY b, o with false, Good => set_data (m (drive_of b) (b_sector b)) b | _, _ => b end).
Definition commit (m : Z -> Z -> block) (o : verdict) (b : buf) : Z -> Z -> block :=
  if has B_DIRTY b then store m b match o with Good => fun _ _ => b_data b | Failed n => n end else m.

(** A process asks for a buffer, which it has filled in; the controller interrupts. *)
Inductive event := Ask (b : nat) (x : buf) | Interrupt.

Definition astep (a : ast) (eo : event * verdict) : ast :=
  match eo.1 with
  | Ask b x => Ast (amedia a) (<[b := x]> (abufs a)) (queue a ++ [b]) (served a)
  | Interrupt =>
      match queue a with
      | [] => a
      | b :: q =>
          match abufs a !! b with
          | Some x => Ast (commit (amedia a) eo.2 x) (<[b := finish (amedia a) eo.2 x]> (abufs a)) q (served a ++ [b])
          | None => a
          end
      end
  end.

(** A buffer is not asked for while it waits in the queue [q]. *)
Fixpoint allowed (present : bool) (l : list event) (q : list nat) : Prop :=
  match l with
  | [] => True
  | Ask b x :: l' => requestable present x /\ b ∉ q /\ allowed present l' (q ++ [b])
  | Interrupt :: l' => allowed present l' (tail q)
  end.

(** The events as the driver handles them; a process that asks goes to sleep. *)
Definition fill (b : nat) (x : buf) (s : ist H) : ist H :=
  set_ibufs (<[b := Rq x (r ← ibufs s !! b; qnext r)]> (ibufs s)) s.

Definition istep (e : event) (s : ist H) : option (ist H) :=
  match e with
  | Ask b x => match iderw fuel b (fill b x s) with Sleep c s' => if bool_decide (c = CBuf b) then Some s' else None | _ => None end
  | Interrupt => match ideintr fuel s with Done _ s' => Some s' | _ => None end
  end.

Fixpoint irun (l : list event) (s : ist H) : option (ist H) :=
  match l with [] => Some s | e :: l' => s' ← istep e s; irun l' s' end.

(** How the controller says that the command ended that each event finds. *)
Definition verdict_of (s : ist H) : verdict := if faulty (hw s) then Failed (media (hw s)) else Good.
Fixpoint verdicts (l : list event) (s : ist H) : list verdict :=
  match l with
  | [] => []
  | e :: l' => verdict_of s :: match istep e s with Some s' => verdicts l' s' | None => [] end
  end.

(** ** The driver implements it *)

(** The list from [p] through the links. *)
Fixpoint linked (m : gmap nat rq) (p : option nat) (q : list nat) : Prop :=
  match q with
  | [] => p = None
  | b :: q' => p = Some b /\ exists r, m !! b = Some r /\ linked m (qnext r) q'
  end.

(** What the controller is doing: the data of a write are on their way, a read has
    been started. *)
Definition active (h : H) (a : ast) : Prop :=
  match b ← queue a !! 0%nat; abufs a !! b with
  | None => forall d s, media h d s = amedia a d s
  | Some x =>
      if has B_DIRTY x then written (amedia a) x h
      else (forall d s, media h d s = amedia a d s) /\ cmd h = Reading /\ addresses h x
  end.

Record sim (s : ist H) (a : ast) : Prop := {
  sim_bufs b : rb <$> ibufs s !! b = abufs a !! b;
  sim_linked : linked (ibufs s) (idequeue s) (queue a);
  sim_nodup : NoDup (queue a);
  sim_asked : Forall (fun b => exists x, abufs a !! b = Some x /\ requestable (havedisk1 s) x) (queue a);
  sim_lock : idelock s = false;
  sim_woken : woken s = served a;
  sim_active : active (hw s) a;
}.

Lemma land_bit f i : 0 <= i -> Z.land f (2 ^ i) = if Z.testbit f i then 2 ^ i else 0.
Proof.
  intros Hi. apply Z.bits_inj'. intros j Hj. rewrite Z.land_spec. destruct (Z.eq_dec i j) as [->|N].
  - rewrite Z.pow2_bits_true by lia. destruct (Z.testbit f j) eqn:E; [by rewrite Z.pow2_bits_true|by rewrite Z.bits_0].
  - rewrite (Z.pow2_bits_false i j) by lia. rewrite andb_false_r. destruct (Z.testbit f i); [by rewrite Z.pow2_bits_false|by rewrite Z.bits_0].
Qed.

(** The test of [iderw] for a buffer that has its data. *)
Lemma flags_done b : (Z.land (b_flags b) (Z.lor B_VALID B_DIRTY) =? B_VALID) = has B_VALID b && negb (has B_DIRTY b).
Proof.
  change B_VALID with (2 ^ 1). change B_DIRTY with (2 ^ 2). rewrite Z.land_lor_distr_r, !land_bit, !has_testbit by lia.
  by destruct (Z.testbit (b_flags b) 1), (Z.testbit (b_flags b) 2).
Qed.

Lemma linked_other m m' q : (forall b, b ∈ q -> m' !! b = m !! b) -> forall p, linked m p q -> linked m' p q.
Proof.
  induction q as [|b q IH]; intros E p; cbn; [done|]. intros (-> & r & Hr & L). split; [done|]. exists r. rewrite E by by left.
  split; [done|]. apply IH; [|done]. intros c Hc. apply E. by right.
Qed.

(** Changing what is in the buffers does not change the list. *)
Lemma linked_contents m m' q : (forall b, b ∈ q -> qnext <$> m' !! b = qnext <$> m !! b) -> forall p, linked m p q -> linked m' p q.
Proof.
  induction q as [|b q IH]; intros E p; cbn; [done|]. intros (-> & r & Hr & L). split; [done|]. pose proof (E b ltac:(by left)) as Eb. rewrite Hr in Eb.
  destruct (m' !! b) as [r'|] eqn:Hr'; [|done]. exists r'. split; [done|]. injection Eb as ->. apply IH; [|done]. intros c Hc. apply E. by right.
Qed.

(** The place the loop of [iderw] ends at. *)
Definition last_of (p : place) (q : list nat) : place := match last q with Some b => PNext b | None => p end.

Lemma last_place_ok q : forall n p (s : ist H) x, deref p s = Some x -> linked (ibufs s) x q -> (length q <= n)%nat ->
  last_place n p s = Done (last_of p q) s.
Proof.
  induction q as [|b q IH]; intros n p s x Hp; cbn [linked length]; [intros ->|intros (-> & r & Hr & L)]; intros Hn.
  - destruct n; cbn [last_place]; by rewrite Hp.
  - destruct n as [|n]; [lia|]. cbn [last_place]. rewrite Hp. rewrite (IH n (PNext b) s (qnext r)); [|cbn; by rewrite Hr|done|lia].
    f_equal. unfold last_of. rewrite last_cons. by destruct (last q).
Qed.

Lemma linked_length (m : gmap nat rq) q p : linked m p q -> NoDup q -> (length q <= size m)%nat.
Proof.
  intros L ND. rewrite <- size_dom. rewrite <- (size_list_to_set (C := gset nat) q ND). apply subseteq_size. intros b Hb.
  apply elem_of_list_to_set in Hb. clear ND. revert p L. induction q as [|c q IH]; intros p; [by apply not_elem_of_nil in Hb|]. intros (_ & r & Hr & L).
  apply elem_of_cons in Hb as [->|Hb]; [apply elem_of_dom; by exists r|by apply (IH Hb (qnext r))].
Qed.

(** [*pp = b] at the end of the list. *)
Lemma linked_snoc m q c b : forall p, linked m p (q ++ [c]) -> NoDup (q ++ [c]) -> b ∉ q ++ [c] -> (exists r, m !! b = Some r /\ qnext r = None) ->
  linked (alter (fun r => Rq (rb r) (Some b)) c m) p (q ++ [c; b]).
Proof.
  induction q as [|d q IH]; intros p L ND Nb Hb; cbn in *.
  - destruct L as (-> & r & Hr & _). split; [done|]. exists (Rq (rb r) (Some b)). rewrite lookup_alter_eq, Hr. cbn. split; [done|]. split; [done|].
    destruct Hb as (rb' & Hb & E). exists rb'. rewrite lookup_alter_ne by (intros ->; apply Nb; by left). done.
  - destruct L as (-> & r & Hr & L). apply NoDup_cons in ND as [Nd ND]. split; [done|]. exists r. rewrite lookup_alter_ne.
    + split; [done|]. apply IH; [done|done|intros X; apply Nb; by right|done].
    + intros ->. apply Nd. rewrite elem_of_app. right. by left.
Qed.

Lemma bind_modify {S B} (f : S -> S) (k : unit -> M S B) s : bind (modify f) k s = k tt (f s).
Proof. done. Qed.

Lemma bind_gets {S A B} (f : S -> A) (k : A -> M S B) s : bind (gets f) k s = k (f s) s.
Proof. done. Qed.

Lemma getq_ok b s r : ibufs s !! b = Some r -> getq (H := H) b s = Done r s.
Proof. unfold getq. by intros ->. Qed.

Lemma append_ok b x q (s : ist H) : rb <$> ibufs s !! b = Some x -> linked (ibufs s) (idequeue s) q -> NoDup q -> b ∉ q ->
  exists m p, append b s = Done tt (set_ibufs m (set_idequeue p s)) /\ linked m p (q ++ [b]) /\ m !! b = Some (Rq x None) /\
    (forall c, rb <$> m !! c = rb <$> ibufs s !! c) /\ p = Some (default b (q !! 0%nat)).
Proof.
  intros Hb L ND Nb. unfold append. set (m2 := alter (fun r => Rq (rb r) None) b (ibufs s)). set (s2 := set_ibufs m2 s).
  rewrite bind_modify. fold m2 s2. rewrite bind_gets.
  assert (L2 : linked m2 (idequeue s) q). { eapply linked_other; [|exact L]. intros c Hc. apply lookup_alter_ne. by intros ->. }
  run (last_place_ok q (size m2) PQueue s2 (idequeue s) eq_refl L2 (linked_length _ _ _ L2 ND)).
  assert (G2 : m2 !! b = Some (Rq x None)). { unfold m2. rewrite lookup_alter_eq. destruct (ibufs s !! b) as [r|]; [|done]. by injection Hb as <-. }
  assert (E2 : forall c, rb <$> m2 !! c = rb <$> ibufs s !! c).
  { intros c. destruct (decide (c = b)) as [->|]; [rewrite G2; by rewrite Hb|unfold m2; by rewrite lookup_alter_ne]. }
  assert (C : q = [] \/ exists q0 c, q = q0 ++ [c]) by (destruct q as [|c q0] using rev_ind; eauto). destruct C as [->|(q0 & c & ->)].
  - exists m2, (Some b). split; [done|]. split_and!; [|done|done|done]. cbn. split; [done|]. by exists (Rq x None).
  - unfold last_of. rewrite last_snoc. exists (alter (fun r => Rq (rb r) (Some b)) c m2), (idequeue s). split; [by destruct s|]. split_and!.
    + rewrite <- app_assoc. apply linked_snoc; [done..|by exists (Rq x None)].
    + rewrite lookup_alter_ne; [done|]. intros ->. apply Nb. rewrite elem_of_app. right. by left.
    + intros d. rewrite <- E2. destruct (decide (d = c)) as [->|]; [rewrite lookup_alter_eq; by destruct (m2 !! c)|by rewrite lookup_alter_ne].
    + destruct q0; by destruct L as [-> _].
Qed.

Lemma written_ext m m' b h : written m b h -> (forall d s, m d s = m' d s) -> written m' b h.
Proof. intros [G W] E. split; [done|]. intros d s. rewrite W. unfold store. by rewrite E. Qed.

(** Asking for a buffer puts it at the end of the queue and starts the controller if the
    queue was empty. *)
Lemma ask_ok b x o s a : sim s a -> requestable (havedisk1 s) x -> b ∉ queue a ->
  exists s', istep (Ask b x) s = Some s' /\ sim s' (astep a (Ask b x, o)) /\ havedisk1 s' = havedisk1 s.
Proof.
  intros S R Nb. pose proof R as (Hbusy & Hdone & Hon & Hlen & Hdev). cbn [istep]. unfold iderw.
  set (s0 := fill b x s). set (nx := r ← ibufs s !! b; qnext r).
  assert (G0 : ibufs s0 !! b = Some (Rq x nx)) by apply lookup_insert_eq. run (getq_ok _ _ _ G0). cbn [rb]. rewrite Hbusy, flags_done, Hdone. cbn [negb].
  rewrite (bind_Done (gets havedisk1) _ s0 (havedisk1 s) s0 eq_refl).
  replace (negb (b_dev x =? 0) && negb (havedisk1 s)) with false by (destruct Hdev as [->| ->]; [done|by rewrite andb_false_r]).
  set (s1 := set_idelock true s0). rewrite (bind_Done acquire_ide _ s0 tt s1) by (unfold acquire_ide, Spinlock.acquire; cbn; by rewrite (sim_lock _ _ S)).
  destruct (append_ok b x (queue a) s1) as (m & p & Ea & L & G & E & ->); [change (ibufs s1) with (ibufs s0); by rewrite G0| |apply (sim_nodup _ _ S)|done|].
  { eapply linked_other; [|apply (sim_linked _ _ S)]. intros c Hc. apply lookup_insert_ne. by intros ->. }
  run Ea. set (s2 := set_ibufs m _). rewrite (bind_Done (gets idequeue) _ s2 _ s2 eq_refl). cbn [idequeue s2 set_ibufs set_idequeue].
  assert (St : exists h', when (bool_decide (Some (default b (queue a !! 0%nat)) = Some b)) (idestart fuel (Some b)) s2 = Done tt (set_hw h' s2) /\
    active h' (astep a (Ask b x, o))).
  { pose proof (sim_active _ _ S) as Act. unfold active in *. cbn [astep fst queue abufs amedia]. destruct (queue a) as [|c q]; cbn in *.
    - rewrite bool_decide_true by done. rewrite lookup_insert_eq. destruct (start_ok x (hw s2) Hon Hlen) as (h' & Eh & A). exists h'.
      split; [cbn [when]; run (getq_ok b s2 _ G); by apply zoom_Done|]. destruct (has B_DIRTY x); [by apply (written_ext (media (hw s)))|].
      destruct A as (Em & C & Ad). split; [intros d t; rewrite Em; apply Act|done].
    - assert (c <> b) by (intros ->; apply Nb; by left). rewrite bool_decide_false by congruence. rewrite lookup_insert_ne by done. exists (hw s2). split; [done|exact Act]. }
  destruct St as (h' & Eh & Act). run Eh. unfold iderw_wait. run (getq_ok b (set_hw h' s2) _ G). cbn [rb]. rewrite flags_done, Hdone. cbn [bind modify sleepOn].
  rewrite bool_decide_true by done. eexists. split; [reflexivity|]. split; [|done]. constructor; cbn [astep fst queue abufs amedia served]; try done.
  - intros c. cbn. rewrite E. cbn. destruct (decide (c = b)) as [->|]; [by rewrite !lookup_insert_eq|rewrite !lookup_insert_ne by done; apply (sim_bufs _ _ S)].
  - rewrite NoDup_app. split_and!; [apply (sim_nodup _ _ S)| |apply NoDup_singleton]. intros c Hc ->%list_elem_of_singleton. done.
  - apply Forall_app. split; [|constructor; [exists x; by rewrite lookup_insert_eq|done]]. eapply Forall_impl; [apply (sim_asked _ _ S)|].
    intros c (y & Hy & Ry). destruct (decide (c = b)) as [->|]; [exists x; by rewrite lookup_insert_eq|exists y; by rewrite lookup_insert_ne].
  - apply (sim_woken _ _ S).
Qed.

(** A read that failed is not noticed: the buffer keeps the bytes it had and is marked
    valid. *)
Lemma read_error_ignored s b r : idelock s = false -> idequeue s = Some b -> ibufs s !! b = Some r -> qnext r = None -> has B_DIRTY (rb r) = false -> faulty (hw s) = true ->
  exists s', ideintr fuel s = Done tt s' /\ ibufs s' !! b = Some (Rq (del_flag B_DIRTY (add_flag B_VALID (rb r))) None).
Proof.
  intros L Q Hr N Hd F. unfold ideintr. set (s1 := set_idelock true s). rewrite (bind_Done acquire_ide _ s tt s1) by (unfold acquire_ide, Spinlock.acquire; by rewrite L).
  rewrite bind_gets. cbn [idequeue s1 set_idelock]. rewrite Q. run (getq_ok b s1 r Hr). rewrite bind_modify. unfold receive. rewrite Hd. cbn [negb].
  destruct (idewait_ok true (hw s)) as (h1 & E1 & _). rewrite F in E1. set (s2 := set_idequeue (qnext r) s1).
  rewrite (bind_Done _ _ s2 tt (set_hw h1 s2)) by (rewrite (bind_Done _ _ s2 (-1) (set_hw h1 s2)) by (by apply zoom_Done); done).
  unfold upd. rewrite !bind_modify, bind_gets. cbn. rewrite N. cbn. unfold release_ide, Spinlock.release. cbn. eexists. split; [reflexivity|]. cbn.
  rewrite lookup_alter_eq, Hr. cbn. by rewrite N.
Qed.

(** The transfer that ends a request. *)
Lemma receive_ok b x r q a (s : ist H) : let o := verdict_of s in queue a = b :: q -> abufs a !! b = Some x -> ibufs s !! b = Some r -> rb r = x -> on_disk x -> active (hw s) a ->
  exists h', receive fuel b x s = Done tt (set_ibufs (<[b := Rq match has B_DIRTY x, o with false, Good => set_data (amedia a (drive_of x) (b_sector x)) x | _, _ => x end (qnext r)]> (ibufs s)) (set_hw h' s)) /\
    (forall d t, media h' d t = commit (amedia a) o x d t).
Proof.
  intros o Eq Ha Hr Ex [Hs Hn] Act. unfold active in Act. rewrite Eq in Act. cbn in Act. rewrite Ha in Act. unfold receive, commit, o, verdict_of.
  assert (Keep : forall h, set_ibufs (<[b := Rq x (qnext r)]> (ibufs s)) (set_hw h s) = set_hw h s).
  { intros h. rewrite insert_id by (rewrite Hr; subst x; by destruct r). by destruct s. }
  destruct (has B_DIRTY x); cbn [negb].
  - exists (hw s). split; [by rewrite Keep; destruct s|]. destruct Act as [Go W]. intros d t. rewrite W. unfold store.
    destruct (_ && _) eqn:E; [|done]. destruct (faulty (hw s)); [done|]. rewrite <- Go by done. f_equal; lia.
  - destruct Act as (Em & Ec & A1 & A2 & A3). assert (In : 0 <= lba (hw s) < sectors (drive (hw s))) by (rewrite A2, A3; lia).
    destruct (idewait_ok true (hw s)) as (h1 & E1 & D1 & M1 & R1 & C1 & F1). destruct (faulty (hw s)); cbn [andb] in E1.
    { rewrite (bind_Done _ _ s (-1) (set_hw h1 s)) by (by apply zoom_Done). exists h1. split; [by rewrite Keep|]. intros d t. by rewrite M1. }
    rewrite (bind_Done _ _ s 0 (set_hw h1 s)) by (by apply zoom_Done). cbn [Z.leb Z.compare].
    destruct (insl_data h1) as [Ed Mi]; [congruence|done|done|by rewrite R1|unfold lba, drive in *; by rewrite R1|].
    destruct (insl 496 128 h1) as [d h2] eqn:Ei. cbn [fst snd] in *.
    rewrite (bind_Done _ _ (set_hw h1 s) d (set_hw h2 (set_hw h1 s))) by (apply zoom_Done; cbn; by rewrite Ei). exists h2. split.
    + unfold upd, modify. do 2 f_equal. cbn. rewrite <- (insert_id (ibufs s) b r) at 1 by done. rewrite alter_insert_eq. rewrite Ex.
      unfold lba, drive in *. rewrite R1, M1, A2, A3, Em in Ed. rewrite Ed. by destruct s.
    + intros d' t. rewrite Mi, M1. apply Em.
Qed.

(** An interrupt finishes the first request, wakes its process and starts the next. *)
Lemma interrupt_ok s a : sim s a ->
  exists s', istep Interrupt s = Some s' /\ sim s' (astep a (Interrupt, verdict_of s)) /\ havedisk1 s' = havedisk1 s.
Proof.
  intros S. set (o := verdict_of s). cbn [istep astep fst snd]. unfold ideintr. set (s1 := set_idelock true s).
  rewrite (bind_Done acquire_ide _ s tt s1) by (unfold acquire_ide, Spinlock.acquire; by rewrite (sim_lock _ _ S)). rewrite bind_gets. cbn [idequeue s1 set_idelock].
  pose proof (sim_linked _ _ S) as L. pose proof (sim_nodup _ _ S) as ND. pose proof (sim_asked _ _ S) as As.
  destruct (queue a) as [|b q] eqn:Eq; cbn [linked] in L.
  { rewrite L. unfold release_ide, Spinlock.release. cbn. exists s. split; [|done]. f_equal. pose proof (sim_lock _ _ S). destruct s. cbn in *. by subst. }
  destruct L as (-> & r & Hr & L). apply Forall_cons in As as [(x & Hx & Rx) As]. apply NoDup_cons in ND as [Nb ND]. rewrite Hx.
  assert (Ex : rb r = x). { pose proof (sim_bufs _ _ S b) as E. rewrite Hr, Hx in E. by injection E. }
  run (getq_ok b s1 r Hr). rewrite bind_modify. rewrite Ex. destruct Rx as (Rb & Rd & Ron & Rl & Rv).
  destruct (receive_ok b x r q a (set_idequeue (qnext r) s1) Eq Hx Hr Ex Ron (sim_active _ _ S)) as (h1 & E1 & M1). change (verdict_of _) with o in E1, M1. run E1.
  unfold upd. rewrite !bind_modify, bind_gets. cbn [ibufs set_ibufs set_hw set_idequeue wake idequeue]. rewrite alter_insert_eq. cbn [rb qnext].
  assert (Ef : del_flag B_DIRTY (add_flag B_VALID match has B_DIRTY x, o with false, Good => set_data (amedia a (drive_of x) (b_sector x)) x | _, _ => x end) = finish (amedia a) o x) by done.
  rewrite Ef. set (m3 := <[b := Rq (finish (amedia a) o x) (qnext r)]> (ibufs s)). set (s3 := wake b _).
  set (a' := Ast (commit (amedia a) o x) (<[b := finish (amedia a) o x]> (abufs a)) q (served a ++ [b])).
  assert (St : exists h', when (bool_decide (is_Some (qnext r))) (idestart fuel (qnext r)) s3 = Done tt (set_hw h' s3) /\ active h' a').
  { unfold active, a'. cbn [queue abufs amedia]. destruct q as [|c q]; cbn [linked] in L.
    - rewrite L. exists h1. split; [done|]. exact M1.
    - destruct L as (-> & rc & Hc & _). apply Forall_cons in As as [(y & Hy & Ry) _]. assert (c <> b) by (intros ->; apply Nb; by left).
      assert (Ey : rb rc = y). { pose proof (sim_bufs _ _ S c) as E. rewrite Hc, Hy in E. by injection E. }
      destruct Ry as (_ & _ & Yon & Yl & _). destruct (start_ok y h1 Yon Yl) as (h2 & E2 & A2). exists h2. rewrite bool_decide_true by (by exists c).
      cbn [when idestart]. assert (Gc : ibufs s3 !! c = Some rc) by (cbn; unfold m3; by rewrite lookup_insert_ne). run (getq_ok c s3 rc Gc). rewrite Ey.
      split; [by apply zoom_Done|]. cbn. rewrite lookup_insert_ne by done. rewrite Hy.
      destruct (has B_DIRTY y); [by apply (written_ext (media h1))|]. destruct A2 as (Em & C & Ad). split; [intros d t; rewrite Em; apply M1|done]. }
  destruct St as (h' & Eh & Act). run Eh. unfold release_ide, Spinlock.release. cbn. eexists. split; [reflexivity|]. split; [|done]. constructor; try done.
  - intros c. cbn. unfold m3. destruct (decide (c = b)) as [->|]; [by rewrite !lookup_insert_eq|rewrite !lookup_insert_ne by done; apply (sim_bufs _ _ S)].
  - cbn. eapply linked_other; [|exact L]. intros c Hc. apply lookup_insert_ne. by intros ->.
  - apply Forall_forall. intros c Hc. rewrite Forall_forall in As. destruct (As c Hc) as (y & Hy & Ry). exists y. cbn. split; [|done].
    rewrite lookup_insert_ne; [done|]. by intros ->.
  - cbn. by rewrite (sim_woken _ _ S).
Qed.

(** The queue of the disk moves on as [allowed] takes it to. *)
Lemma astep_queue s a e o : sim s a -> queue (astep a (e, o)) = match e with Ask b _ => queue a ++ [b] | Interrupt => tail (queue a) end.
Proof.
  intros S. destruct e; [done|]. cbn. pose proof (sim_asked _ _ S) as As. destruct (queue a) as [|b q] eqn:E; [done|].
  apply Forall_cons in As as [(x & -> & _) _]. done.
Qed.

Definition arun (evs : list event) (os : list verdict) (a : ast) : ast := foldl astep a (zip evs os).

Lemma irun_ok evs : forall s a, sim s a -> allowed (havedisk1 s) evs (queue a) -> exists s', irun evs s = Some s' /\ sim s' (arun evs (verdicts evs s) a).
Proof.
  induction evs as [|e evs IH]; intros s a S; cbn [irun verdicts]; [by exists s|]. intros Al.
  assert (St : exists s1, istep e s = Some s1 /\ sim s1 (astep a (e, verdict_of s)) /\ havedisk1 s1 = havedisk1 s /\
    allowed (havedisk1 s) evs (queue (astep a (e, verdict_of s)))).
  { rewrite (astep_queue s) by done. destruct e as [b x|]; cbn [allowed] in Al.
    - destruct Al as (R & Nb & Al). destruct (ask_ok b x (verdict_of s) s a S R Nb) as (s1 & ? & ? & ?). by exists s1.
    - destruct (interrupt_ok s a S) as (s1 & ? & ? & ?). by exists s1. }
  destruct St as (s1 & -> & S1 & E1 & Al1). rewrite <- E1 in Al1. exact (IH s1 _ S1 Al1).
Qed.

Lemma interrupts_allowed p n q : allowed p (replicate n Interrupt) q.
Proof. revert q. induction n as [|n IH]; intros q; [done|apply IH]. Qed.

(** As many interrupts as there are requests serve them all. *)
Lemma interrupts_serve n : forall s a, sim s a -> n = length (queue a) -> exists s' a', irun (replicate n Interrupt) s = Some s' /\ sim s' a' /\
  queue a' = [] /\ served a' = served a ++ queue a.
Proof.
  induction n as [|n IH]; intros s a S Hn.
  - exists s, a. destruct (queue a) eqn:E; [by rewrite app_nil_r|done].
  - destruct (interrupt_ok s a S) as (s1 & E1 & S1 & _). pose proof (sim_asked _ _ S) as As. destruct (queue a) as [|b q] eqn:Eq; [done|].
    apply Forall_cons in As as [(x & Hx & _) _]. cbn [astep fst] in S1. rewrite Eq, Hx in S1.
    destruct (IH s1 _ S1) as (s' & a' & E' & S' & Q' & W'); [cbn in *; lia|]. exists s', a'. cbn [replicate irun]. rewrite E1. split; [exact E'|]. split; [done|].
    split; [done|]. rewrite W'. cbn. by rewrite <- app_assoc.
Qed.

(** ** One process alone

    The contract the cache is proved against has no errors: here no command fails. *)
Context (Hgood : forall h, faulty h = false).

Lemma verdict_good s : verdict_of s = Good.
Proof. unfold verdict_of. by rewrite Hgood. Qed.

(** [iderw] from its call to its return when nothing else is queued: the process sleeps,
    the interrupt comes, and the process goes on. *)
Definition iderw_alone (b : buf) (s : ist H) : outcome (ist H) buf :=
  match iderw fuel 0 (fill 0 b s) with
  | Sleep _ s =>
      match (ideintr fuel ;! acquire_ide ;! iderw_wait 0 ;! getq 0) s with
      | Done r s => Done (rb r) s
      | Panic m => Panic m
      | Sleep c s => Sleep c s
      | Wild w => Wild w
      | NoFuel => NoFuel
      end
  | Done _ s => Done b s
  | Panic m => Panic m
  | Wild w => Wild w
  | NoFuel => NoFuel
  end.

Definition idle (s : ist H) : Prop := exists a, sim s a /\ queue a = [].

Lemma iderw_alone_ok b s a : sim s a -> queue a = [] -> requestable (havedisk1 s) b ->
  exists s', iderw_alone b s = Done (finish (amedia a) Good b) s' /\ idle s' /\ havedisk1 s' = havedisk1 s /\
    forall d t, media (hw s') d t = commit (amedia a) Good b d t.
Proof.
  intros S Q R. destruct (ask_ok 0 b Good s a S R ltac:(rewrite Q; apply not_elem_of_nil)) as (s1 & E1 & S1 & V1). unfold iderw_alone.
  cbn [istep] in E1. destruct (iderw fuel 0 (fill 0 b s)) as [| |c s1'| |]; try done. case_bool_decide; [|done]. injection E1 as ->.
  destruct (interrupt_ok s1 _ S1) as (s2 & E2 & S2 & V2). cbn [istep] in E2. destruct (ideintr fuel s1) as [[] s2'| | | |] eqn:Ei; try done. injection E2 as ->.
  run Ei. rewrite verdict_good in S2. cbn [astep fst snd queue abufs amedia served] in S2. rewrite Q in S2. cbn [app] in S2. rewrite lookup_insert_eq in S2.
  rewrite (bind_Done acquire_ide _ s2 tt (set_idelock true s2)) by (unfold acquire_ide, Spinlock.acquire; by rewrite (sim_lock _ _ S2)).
  pose proof (sim_bufs _ _ S2 0%nat) as Eb. cbn [abufs] in Eb. rewrite lookup_insert_eq in Eb. destruct (ibufs s2 !! 0%nat) as [r|] eqn:Er; [|done]. injection Eb as Eb.
  assert (W : iderw_wait 0 (set_idelock true s2) = Done tt s2).
  { unfold iderw_wait. run (getq_ok 0 (set_idelock true s2) r Er). rewrite flags_done, Eb. unfold finish. rewrite !has_del, !has_add by (unfold flag; auto). cbn. rewrite orb_true_r, andb_false_r. cbn.
    unfold release_ide, Spinlock.release. cbn. pose proof (sim_lock _ _ S2). destruct s2. cbn in *. by subst. }
  run W. rewrite (getq_ok 0 s2 r Er), Eb. exists s2. split; [done|]. split; [eexists; split; [exact S2|done]|]. split; [congruence|].
  exact (sim_active _ _ S2).
Qed.

Lemma del_absent b : has B_DIRTY b = false -> del_flag B_DIRTY (add_flag B_VALID b) = add_flag B_VALID b.
Proof.
  change B_DIRTY with (2 ^ 2). rewrite has_testbit by lia. intros Hd. unfold del_flag, add_flag, set_flags. cbn. f_equal. apply Z.bits_inj'. intros i Hi.
  rewrite Z.land_spec, Z.lnot_spec, Z.lor_spec by lia. change 4 with (2 ^ 2). change B_VALID with (2 ^ 1). destruct (Z.eq_dec i 2) as [->|N].
  - rewrite Hd, (Z.pow2_bits_true 2), (Z.pow2_bits_false 1 2) by lia. done.
  - rewrite (Z.pow2_bits_false 2 i) by lia. by rewrite andb_true_r.
Qed.

#[local] Instance ide_driver : DiskDriver (ist H) := iderw_alone.

(** The contract of the cache and the log. *)
#[local] Program Instance ide_spec : DiskSpec (ist H) := {|
  dread s dev sec := media (hw s) dev sec;
  din s dev sec := idle s /\ (dev = 0 \/ dev = 1 /\ havedisk1 s = true) /\ 0 <= sec < 2 ^ 28 /\ sec < sectors dev;
|}.
Next Obligation. intros s dev sec (_ & Hd & Hs & _). lia. Qed.
Next Obligation. intros s dev sec (_ & Hd & Hs & Hn). apply media_length. lia. Qed.
Next Obligation.
  intros b s Hb Hd ((a & S & Q) & Hdev & Hs & Hn) Hl. assert (Ed : drive_of b = b_dev b) by (unfold drive_of; by destruct Hdev as [->|[-> _]]).
  destruct (iderw_alone_ok b s a S Q) as (s' & E & I' & V' & M'); [split_and!; [done|by rewrite Hd, andb_false_r|split; [done|by rewrite Ed]|done|tauto]|].
  pose proof (sim_active _ _ S) as Act. unfold active in Act. rewrite Q in Act. cbn in Act. unfold finish, commit, store in *. rewrite Hd in *.
  exists s'. split; [exact E|]. rewrite V'. split_and!.
  - intros dev sec. split; intros (_ & X); (split; [|exact X]); [by exists a|done].
  - by rewrite M', Ed, !Z.eqb_refl.
  - intros dev sec _ N. rewrite M', Ed, Act. destruct (Z.eqb_spec dev (b_dev b)), (Z.eqb_spec sec (b_sector b)); try done. congruence.
Qed.
Next Obligation.
  intros b s Hb Hd Hv ((a & S & Q) & Hdev & Hs & Hn). assert (Ed : drive_of b = b_dev b) by (unfold drive_of; by destruct Hdev as [->|[-> _]]).
  destruct (iderw_alone_ok b s a S Q) as (s' & E & I' & V' & M'); [split_and!; [done|by rewrite Hv|split; [done|by rewrite Ed]|congruence|tauto]|].
  pose proof (sim_active _ _ S) as Act. unfold active in Act. rewrite Q in Act. cbn in Act. unfold finish, commit, store in *. rewrite Hd in *.
  rewrite del_absent, Ed, <- Act in E by done. exists s'. split; [exact E|]. rewrite V'. split_and!.
  - intros dev sec. split; intros (_ & X); (split; [|exact X]); [by exists a|done].
  - intros dev sec _. by rewrite M', Act.
Qed.

End Hardware.

(** ** The property *)

Section Property.
Context {H : Type} `{HA : Ata H}.

(** C4: The disk driver serves requests in order.  Processes ask for buffers and the
    controller interrupts, in any order and any number of times; the controller is as
    [Ata] says and takes the data of a write at once ([prompt]), and its commands end well
    or with an error as it reports ([verdicts]).  Then no call panics or goes wrong, and
    the driver is at every point what a disk that serves one request at a time would be:
    the queue holds the requests in the order they came, each interrupt finishes the
    first and wakes its process.  A read that ended well has the data of its sector at
    that time, including every write that was asked for before it.  Errors are not
    reported: a read that failed leaves the buffer with the bytes it had before and marks
    it valid, and a write that failed counts as done, whatever is in its sector; all other
    sectors keep their data.  A process whose buffer is finished returns from [iderw],
    and as many interrupts as there are requests serve them all. *)
Theorem ide_in_order fuel evs (s : ist H) a : (polls <= fuel)%nat -> prompt -> sim s a -> allowed (havedisk1 s) evs (queue a) ->
  let a' := arun evs (verdicts fuel evs s) a in
  exists s', irun fuel evs s = Some s' /\ sim s' a' /\
    (forall b x, abufs a' !! b = Some x -> has B_VALID x && negb (has B_DIRTY x) = true -> (acquire_ide ;! iderw_wait b) s' = Done tt s') /\
    exists s'', irun fuel (replicate (length (queue a')) Interrupt) s' = Some s'' /\ idequeue s'' = None /\ woken s'' = served a' ++ queue a'.
Proof.
  intros Hf Hp S Al. cbv zeta. destruct (irun_ok fuel Hf Hp evs s a S Al) as (s' & E & S'). set (a' := arun _ _ a) in *. exists s'. split; [done|]. split; [done|]. split.
  - intros b x Hx Hd. rewrite (bind_Done acquire_ide _ s' tt (set_idelock true s')) by (unfold acquire_ide, Spinlock.acquire; by rewrite (sim_lock _ _ S')).
    pose proof (sim_bufs _ _ S' b) as Eb. rewrite Hx in Eb. destruct (ibufs s' !! b) as [r|] eqn:Er; [|done]. injection Eb as Eb.
    unfold iderw_wait. run (getq_ok b (set_idelock true s') r Er). rewrite (flags_done fuel Hf), Eb, Hd. unfold release_ide, Spinlock.release. cbn.
    pose proof (sim_lock _ _ S'). destruct s'. cbn in *. by subst.
  - destruct (interrupts_serve fuel Hf Hp _ s' a' S' eq_refl) as (s'' & a'' & E'' & S'' & Q & W). exists s''. split; [done|].
    split; [|by rewrite (sim_woken _ _ S'')]. pose proof (sim_linked _ _ S'') as L. by rewrite Q in L.
Qed.

End Property.

(** ** A controller *)

(** One drive of sixteen sectors that is ready two reads of the status after a command to
    read or the data of a write; sector [bad] is broken. *)
Record ctl := Ctl { c_media : Z -> Z -> block; c_reg : Z -> Z; c_cmd : phase; c_delay : nat }.

Definition c_drive (h : ctl) : Z := Z.land (Z.shiftr (c_reg h 502) 4) 1.
Definition c_lba (h : ctl) : Z := c_reg h 499 + c_reg h 500 * 2 ^ 8 + c_reg h 501 * 2 ^ 16 + Z.land (c_reg h 502) 15 * 2 ^ 24.
Definition whole (x : block) : block := take BSIZE (x ++ replicate BSIZE 0).

Section Ctl.
Context (bad : Z).

Definition c_status (h : ctl) : Z :=
  Z.lor IDE_DRDY (Z.lor match c_cmd h with Idle => 0 | _ => IDE_DRQ end (if c_lba h =? bad then IDE_ERR else 0)).

#[local] Instance ctl_ports : Controller ctl := {|
  inb p h := (if (Nat.min (c_delay h) 3 =? 0)%nat then c_status h else IDE_BSY, Ctl (c_media h) (c_reg h) (c_cmd h) (pred (Nat.min (c_delay h) 3)));
  outb p v h :=
    if p =? 503 then Ctl (c_media h) (c_reg h) (if v =? IDE_CMD_READ then Reading else Writing) (if v =? IDE_CMD_READ then 2 else 0)
    else Ctl (c_media h) (fun q => if q =? p then v else c_reg h q) (c_cmd h) (c_delay h);
  insl p n h := (whole (c_media h (c_drive h) (c_lba h)), Ctl (c_media h) (c_reg h) Idle (c_delay h));
  outsl p x h := Ctl (fun d s => if (d =? c_drive h) && (s =? c_lba h) then x else c_media h d s) (c_reg h) Idle 2;
|}.

#[local] Program Instance ctl_ata : Ata ctl := {|
  media h d s := whole (c_media h d s);
  sectors d := if d =? 0 then 16 else 0;
  reg := c_reg;
  cmd := c_cmd;
  delay h := Nat.min (c_delay h) 3;
  faulty h := c_lba h =? bad;
  polls := 4;
|}.
Next Obligation. intros h. cbn. lia. Qed.
Next Obligation. intros h d s _. unfold whole. rewrite length_take, length_app, length_replicate. lia. Qed.
Next Obligation.
  intros h. cbn [inb ctl_ports fst snd c_media c_reg c_cmd c_delay]. change (c_lba (Ctl _ (c_reg h) _ _)) with (c_lba h). unfold c_status.
  destruct (Nat.eqb_spec (Nat.min (c_delay h) 3) 0) as [E|E]; [|split_and!; (done || lia)]. destruct (c_cmd h), (c_lba h =? bad); split_and!; (done || lia).
Qed.
Next Obligation. intros v h D. done. Qed.
Next Obligation. intros p v h Hp D. cbn. destruct (Z.eqb_spec p 503); [lia|]. done. Qed.
Next Obligation. intros c h D [->| ->]; done. Qed.
Next Obligation. done. Qed.
Next Obligation.
  intros h x C _ N L Hx. split.
  - intros _. change (whole (if (c_drive h =? c_drive h) && (c_lba h =? c_lba h) then x else c_media h (c_drive h) (c_lba h)) = x).
    rewrite !Z.eqb_refl. cbn [andb]. unfold whole. by rewrite <- Hx, take_app_length.
  - intros d s E. change (whole (if (d =? c_drive h) && (s =? c_lba h) then x else c_media h d s) = whole (c_media h d s)).
    change ((d =? c_drive h) && (s =? c_lba h) = false) in E. by rewrite E.
Qed.

Lemma ctl_prompt : prompt (H := ctl).
Proof. intros h D _. unfold wants_data. cbn. unfold c_status. cbn. by destruct (_ =? bad). Qed.

End Ctl.

#[local] Existing Instance ctl_ports.
#[local] Existing Instance ctl_ata.

(** A write of sector 2, a read of it that is asked for before the write is done, and a
    read of the broken sector, into a buffer that has threes in it. *)
Definition idle_ctl : ist ctl := Ist ∅ None false false (Ctl (fun _ _ => []) (fun _ => 0) Idle 0) [].
Definition three_requests : list event :=
  [Ask 3 (Buf (Z.lor B_BUSY B_DIRTY) 0 2 0 0 (replicate 512 7)); Ask 5 (Buf B_BUSY 0 2 0 0 (replicate 512 0)); Interrupt;
   Ask 6 (Buf B_BUSY 0 9 0 0 (replicate 512 3)); Interrupt; Interrupt].

Lemma ide_in_order_witness : exists s', irun (H0 := ctl_ports 9) 4 three_requests idle_ctl = Some s' /\
  (b_data ∘ rb <$> ibufs s' !! 5%nat) = Some (replicate 512 7) /\
  (b_data ∘ rb <$> ibufs s' !! 6%nat) = Some (replicate 512 3) /\ (has B_VALID ∘ rb <$> ibufs s' !! 6%nat) = Some true /\ woken s' = [3; 5; 6]%nat.
Proof.
  destruct (ide_in_order (HA := ctl_ata 9) 4 three_requests idle_ctl (Ast (fun _ _ => whole []) ∅ [] []) (le_n 4) (ctl_prompt 9)) as (s' & E & S & _).
  - constructor; try done. apply NoDup_nil_2.
  - assert (On : forall b, b_sector b ∈ [2; 9] -> b_dev b = 0 -> on_disk (HA := ctl_ata 9) b).
    { intros b Hs Hd. unfold on_disk, drive_of. rewrite Hd. cbn. rewrite !elem_of_cons in Hs. destruct Hs as [->|[->|[]%not_elem_of_nil]]; (split; [lia|done]). }
    cbn [allowed three_requests]. split_and!; try (cbn; set_solver); try done; split_and!; try done; try (by left); apply On; cbn; set_solver.
  - exists s'. split; [exact E|]. clear E. pose proof (sim_bufs _ _ S) as Eb.
    rewrite !(option_fmap_compose rb), !Eb, (sim_woken _ _ S). vm_compute. done.
Defined.

End Ide.
