(* ===== verification/Log.v ===== *)
(** * The redo log (kernel/log.c)

    Operations of the log on top of the buffer cache, and its crash safety: at
    every point between two sector writes of a transaction, and again at every
    point of a recovery, rebooting restores either all of the blocks as they
    were before the transaction or all of them as it left them. *)

From S2P Require Import Prelude Spinlock Bio Disk.

Module Log.
Import Bio.

Definition LOGSIZE : nat := 10.
Definition ROOTDEV : Z := 1.

(** [struct log], the cache below it, and the in-memory [struct logheader]. *)
Record lst (D : Type) := Lst {
  lbio : bst D;
  lg_lock : bool;
  lg_start : Z;
  lg_size : Z;
  lg_busy : Z;
  lg_dev : Z;
  lh_n : Z;
  lh_sector : list Z;    (* LOGSIZE entries *)
}.
Arguments Lst {D}. Arguments lbio {D}. Arguments lg_lock {D}. Arguments lg_start {D}.
Arguments lg_size {D}. Arguments lg_busy {D}. Arguments lg_dev {D}. Arguments lh_n {D}.
Arguments lh_sector {D}.

(** The super block. *)
Record superblock := Superblock { sb_size : Z; sb_nblocks : Z; sb_ninodes : Z; sb_nlog : Z }.

Definition sb_dec (m : block) : superblock :=
  Superblock (get32 m 0) (get32 m 4) (get32 m 8) (get32 m 12).

Section Ops.
Context {D : Type} `{DiskDriver D}.

Definition set_lbio (b : bst D) (s : lst D) : lst D :=
  Lst b (lg_lock s) (lg_start s) (lg_size s) (lg_busy s) (lg_dev s) (lh_n s) (lh_sector s).
Definition set_lg_lock (l : bool) (s : lst D) : lst D :=
  Lst (lbio s) l (lg_start s) (lg_size s) (lg_busy s) (lg_dev s) (lh_n s) (lh_sector s).
Definition set_region (start size dev : Z) (s : lst D) : lst D :=
  Lst (lbio s) (lg_lock s) start size (lg_busy s) dev (lh_n s) (lh_sector s).
Definition set_busy (z : Z) (s : lst D) : lst D :=
  Lst (lbio s) (lg_lock s) (lg_start s) (lg_size s) z (lg_dev s) (lh_n s) (lh_sector s).
Definition set_n (n : Z) (s : lst D) : lst D :=
  Lst (lbio s) (lg_lock s) (lg_start s) (lg_size s) (lg_busy s) (lg_dev s) n (lh_sector s).
Definition set_sectors (l : list Z) (s : lst D) : lst D :=
  Lst (lbio s) (lg_lock s) (lg_start s) (lg_size s) (lg_busy s) (lg_dev s) (lh_n s) l.

(** A call into the buffer cache. *)
Definition bio {A} (m : M (bst D) A) : M (lst D) A := zoom lbio set_lbio m.

(** [log.lh.sector[i]], read and written; the array has [LOGSIZE] entries. *)
Definition get_sector (i : nat) : M (lst D) Z := fun s =>
  match lh_sector s !! i with Some z => Done z s | None => Wild "log.lh.sector" end.
Definition put_sector (i : nat) (z : Z) : M (lst D) unit := fun s =>
  if (i <? LOGSIZE)%nat then Done tt (set_sectors (<[i := z]> (lh_sector s)) s)
  else Wild "log.lh.sector".

(** fs.c: the copy of the super block of [dev]. *)
Definition readsb (dev : Z) : M (lst D) superblock :=
  let! b := bio (bread (u32 dev) 1) in
  let! x := bio (getb b) in
  let sb := sb_dec (b_data x) in
  bio (brelse b) ;!
  ret sb.

Definition loop_to (n : Z) : list nat := seq 0 (Z.to_nat n).

Definition install1 (tail : nat) : M (lst D) unit :=
  let! dev := gets lg_dev in
  let! start := gets lg_start in
  let! lbuf := bio (bread (u32 dev) (u32 (start + Z.of_nat tail + 1))) in
  let! sec := get_sector tail in
  let! dbuf := bio (bread (u32 dev) (u32 sec)) in
  let! x := bio (getb lbuf) in
  bio (updb dbuf (set_data (b_data x))) ;!
  bio (bwrite dbuf) ;!
  bio (brelse lbuf) ;!
  bio (brelse dbuf).

Definition install_trans : M (lst D) unit :=
  let! n := gets lh_n in
  forM (loop_to n) install1.

Definition read_head : M (lst D) unit :=
  let! dev := gets lg_dev in
  let! start := gets lg_start in
  let! b := bio (bread (u32 dev) (u32 start)) in
  let! x := bio (getb b) in
  let n := s32 (get32 (b_data x) 0) in
  modify (set_n n) ;!
  forM (loop_to n) (fun i =>
    if (4 + 4 * i + 4 <=? BSIZE)%nat
    then put_sector i (s32 (get32 (b_data x) (4 + 4 * i)%nat))
    else wild "lh->sector") ;!
  bio (brelse b).

Definition write_head : M (lst D) unit :=
  let! dev := gets lg_dev in
  let! start := gets lg_start in
  let! b := bio (bread (u32 dev) (u32 start)) in
  let! n := gets lh_n in
  bio (updb b (fun x => set_data (put32 0 n (b_data x)) x)) ;!
  forM (loop_to n) (fun i =>
    let! z := get_sector i in
    bio (updb b (fun x => set_data (put32 (4 + 4 * i) z (b_data x)) x))) ;!
  bio (bwrite b) ;!
  bio (brelse b).

Definition recover_from_log : M (lst D) unit :=
  read_head ;!
  install_trans ;!
  modify (set_n 0) ;!
  write_head.

(** [sizeof(struct logheader)] *)
Definition sizeof_logheader : nat := 4 + 4 * LOGSIZE.

Definition initlog : M (lst D) unit :=
  if (BSIZE <=? sizeof_logheader)%nat then panic "initlog: too big logheader"
  else
    modify (set_lg_lock false) ;!
    let! sb := readsb ROOTDEV in
    modify (set_region (s32 (sb_size sb - sb_nlog sb)) (s32 (sb_nlog sb)) ROOTDEV) ;!
    recover_from_log.

Definition begin_trans : M (lst D) unit :=
  Spinlock.acquire lg_lock set_lg_lock ;!
  let! busy := gets lg_busy in
  if negb (busy =? 0) then
    (* sleep(&log, &log.lock) gives the lock up *)
    Spinlock.release lg_lock set_lg_lock ;!
    sleepOn CLog
  else
    modify (set_busy 1) ;!
    Spinlock.release lg_lock set_lg_lock.

Definition commit_trans : M (lst D) unit :=
  let! n := gets lh_n in
  when (0 <? n) (
    write_head ;!
    install_trans ;!
    modify (set_n 0) ;!
    write_head) ;!
  Spinlock.acquire lg_lock set_lg_lock ;!
  modify (set_busy 0) ;!
  Spinlock.release lg_lock set_lg_lock.

(** The index log absorption finds: that of the first of the [n] entries equal
    to [sec], or [n]. *)
Fixpoint absorb_index (sec : Z) (l : list Z) (n : nat) : nat :=
  match n, l with
  | S n', z :: l' => if u32 z =? sec then O else S (absorb_index sec l' n')
  | _, _ => O
  end.

Definition log_write (b : nat) : M (lst D) unit :=
  let! n := gets lh_n in
  let! size := gets lg_size in
  if (Z.of_nat LOGSIZE <=? n) || (size - 1 <=? n) then panic "too big a transaction"
  else
    let! busy := gets lg_busy in
    if busy =? 0 then panic "write outside of trans"
    else
      let! x := bio (getb b) in
      let! l := gets lh_sector in
      let i := absorb_index (b_sector x) l (Z.to_nat n) in
      put_sector i (s32 (b_sector x)) ;!
      let! start := gets lg_start in
      let! lbuf := bio (bread (b_dev x) (u32 (start + Z.of_nat i + 1))) in
      let! y := bio (getb b) in
      bio (updb lbuf (set_data (b_data y))) ;!
      bio (bwrite lbuf) ;!
      bio (brelse lbuf) ;!
      when (Z.of_nat i =? n) (modify (set_n (n + 1))) ;!
      bio (updb b (add_flag B_DIRTY)).

(** The typical use the comment before [log_write] gives, for the whole contents
    of a block, and a transaction of such updates. *)
Definition update1 (w : Z * block) : M (lst D) unit :=
  let! bp := bio (bread ROOTDEV w.1) in
  bio (updb bp (set_data w.2)) ;!
  log_write bp ;!
  bio (brelse bp).

Definition transaction (ws : list (Z * block)) : M (lst D) unit :=
  begin_trans ;!
  forM ws update1 ;!
  commit_trans.

(** The state of the log before [initlog], over a fresh cache. *)
Definition boot (d : D) : lst D := Lst (binit d) false 0 0 0 0 0 (replicate LOGSIZE 0).

End Ops.
(** ** The log on a device

    [N] blocks on device [ROOTDEV], of which the last [nlog] from [start] on are
    the log.  [m] is the contents of the disk; [I]/[W] is the invariant of the
    disk's history, and [Phase] the property of the contents that gives it. *)

Definition dev : Z := ROOTDEV.

Definition mupd (sec : Z) (x : block) (m : Z -> block) (sec' : Z) : block :=
  if decide (sec' = sec) then x else m sec'.

Lemma mupd_eq sec x m : mupd sec x m sec = x.
Proof. unfold mupd. by rewrite decide_True. Qed.

Lemma mupd_ne sec sec' x m : sec' <> sec -> mupd sec x m sec' = m sec'.
Proof. intros. unfold mupd. by rewrite decide_False. Qed.

Section Proofs.
Context {D : Type} `{DiskSpec D} (I : D -> Prop) (W : Z * Z -> block -> D -> Prop).
Context `{!DiskGhost D I W}.
Context (N start nlog : Z).
Context (Hregion : 2 <= start /\ start + nlog = N /\ N < 2 ^ 31 /\ 2 <= nlog).
Context (Phase : (Z -> block) -> Prop).

Definition contents (d : D) (m : Z -> block) : Prop :=
  (forall sec, 0 <= sec < N -> din d dev sec) /\
  (forall sec, 0 <= sec < N -> dread d dev sec = m sec).

Context (HW : forall d m sec x, contents d m -> 0 <= sec < N -> Phase (mupd sec x m) -> W (dev, sec) x d).

Record lok (s : lst D) (P : gmap (Z * Z) pin) (m : Z -> block) : Prop := {
  lok_rep : brep (lbio s) P;
  lok_I : I (dsk (lbio s));
  lok_m : contents (dsk (lbio s)) m;
  lok_lock : lg_lock s = false;
  lok_start : lg_start s = start;
  lok_size : lg_size s = nlog;
  lok_dev : lg_dev s = dev;
}.

(** What the kernel sees in a block. *)
Definition view (P : gmap (Z * Z) pin) (m : Z -> block) (sec : Z) : block :=
  match P !! (dev, sec) with Some p => p_data p | None => m sec end.

(** Every call of the cache changes only the cache. *)
Definition same_log (s s' : lst D) : Prop := s' = set_lbio (lbio s') s.

Lemma same_log_trans s1 s2 s3 : same_log s1 s2 -> same_log s2 s3 -> same_log s1 s3.
Proof. unfold same_log. intros -> ->. done. Qed.

Lemma contents_deq d d' m : deq d d' -> contents d m -> contents d' m.
Proof.
  intros [Hd1 Hd2] [H1 H2]. split; intros sec Hs.
  - apply Hd1. auto.
  - rewrite Hd2 by auto. auto.
Qed.

Lemma contents_dupd d d' m sec x : dupd (dev, sec) x d d' -> 0 <= sec < N ->
  contents d m -> contents d' (mupd sec x m).
Proof.
  intros (Hd1 & Hd2 & Hd3) Hs [H1 H2]. split; intros sec' Hs'.
  - apply Hd1. auto.
  - destruct (decide (sec' = sec)) as [->|Hne].
    + by rewrite mupd_eq.
    + rewrite mupd_ne, Hd3 by (auto; congruence). auto.
Qed.

Lemma lok_set s P m b' P' m' : lok s P m -> brep b' P' -> I (dsk b') -> contents (dsk b') m' ->
  lok (set_lbio b' s) P' m'.
Proof. intros [H1 H2 H3 H4 H5 H6 H7] Hr HI Hm. by constructor. Qed.

Lemma lread s P m sec : lok s P m -> 0 <= sec < N ->
  (forall p, P !! (dev, sec) = Some p -> p_busy p = false) ->
  (P !! (dev, sec) = None -> (size P < NBUF)%nat) ->
  exists i s', bio (bread dev sec) s = Done i s' /\ same_log s s' /\
    lok s' (<[(dev, sec) := Pin i true (isdirty P (dev, sec)) (view P m sec)]> P) m.
Proof.
  intros Hl Hs Hnb Hsz. destruct (lok_m _ _ _ Hl) as [Hin Hm].
  destruct (bread_spec (lbio s) P (dev, sec) (lok_rep _ _ _ Hl)) as (i & b' & E & Hd & Hr);
    [by apply Hin|done|done|]. cbn [fst snd] in E.
  exists i, (set_lbio b' s). split; [by apply zoom_Done|]. split; [done|].
  apply (lok_set s P m); [done| |exact (bread_ghost I W _ _ (dev, sec) _ _ (lok_rep _ _ _ Hl)
    (Hin _ Hs) E (lok_I _ _ _ Hl))|].
  - unfold blk in Hr. cbn [fst snd] in Hr. rewrite Hm in Hr by done. exact Hr.
  - eapply contents_deq; [exact Hd|by apply (lok_m _ _ _ Hl)].
Qed.

Lemma lget s P m k p : lok s P m -> P !! k = Some p ->
  exists x, bio (getb (p_idx p)) s = Done x s /\ key x = k /\ b_data x = p_data p.
Proof.
  intros Hl Hp. pose proof (brep_lookup _ _ _ _ (lok_rep _ _ _ Hl) Hp) as (_ & Ek & _ & _ & Ed & _).
  exists (bufs (lbio s) !!! p_idx p). split; [|done]. unfold bio, zoom, getb, gets.
  by destruct s.
Qed.

Lemma lset s P m k p x : lok s P m -> P !! k = Some p -> p_busy p = true -> length x = BSIZE ->
  exists s', bio (updb (p_idx p) (set_data x)) s = Done tt s' /\ same_log s s' /\
    lok s' (<[k := Pin (p_idx p) true (p_dirty p) x]> P) m.
Proof.
  intros Hl Hp Hb Hx. destruct (set_data_spec _ _ _ _ x (lok_rep _ _ _ Hl) Hp Hb Hx)
    as (b' & E & Hd & Hr).
  exists (set_lbio b' s). split; [by apply zoom_Done|]. split; [done|].
  apply (lok_set s P m); [done|done|rewrite Hd; apply (lok_I _ _ _ Hl)|rewrite Hd; apply (lok_m _ _ _ Hl)].
Qed.

Lemma ldirty s P m k p : lok s P m -> P !! k = Some p -> p_busy p = true ->
  exists s', bio (updb (p_idx p) (add_flag B_DIRTY)) s = Done tt s' /\ same_log s s' /\
    lok s' (<[k := Pin (p_idx p) true true (p_data p)]> P) m.
Proof.
  intros Hl Hp Hb. destruct (mark_dirty_spec _ _ _ _ (lok_rep _ _ _ Hl) Hp Hb) as (b' & E & Hd & Hr).
  exists (set_lbio b' s). split; [by apply zoom_Done|]. split; [done|].
  apply (lok_set s P m); [done|done|rewrite Hd; apply (lok_I _ _ _ Hl)|rewrite Hd; apply (lok_m _ _ _ Hl)].
Qed.

Lemma lwrite s P m sec p : lok s P m -> P !! (dev, sec) = Some p -> p_busy p = true ->
  0 <= sec < N -> Phase (mupd sec (p_data p) m) ->
  exists s', bio (bwrite (p_idx p)) s = Done tt s' /\ same_log s s' /\
    lok s' (<[(dev, sec) := Pin (p_idx p) true false (p_data p)]> P) (mupd sec (p_data p) m).
Proof.
  intros Hl Hp Hb Hs Hph. pose proof (lok_rep _ _ _ Hl) as Hrep.
  destruct (bwrite_spec _ _ _ _ Hrep Hp Hb) as (b' & E & Hd & Hr).
  exists (set_lbio b' s). split; [by apply zoom_Done|]. split; [done|].
  apply (lok_set s P m); [done|done| |].
  - apply (bwrite_ghost I W _ _ _ _ _ Hrep Hp E); [|apply (lok_I _ _ _ Hl)].
    apply (HW _ m); [apply (lok_m _ _ _ Hl)|done|done].
  - by apply (contents_dupd (dsk (lbio s))), (lok_m _ _ _ Hl).
Qed.

Lemma lrelse s P m sec p : lok s P m -> P !! (dev, sec) = Some p -> p_busy p = true ->
  0 <= sec < N -> (p_dirty p = false -> p_data p = m sec) ->
  exists s', bio (brelse (p_idx p)) s = Done tt s' /\ same_log s s' /\
    lok s' (if p_dirty p then <[(dev, sec) := Pin (p_idx p) false true (p_data p)]> P
            else delete (dev, sec) P) m.
Proof.
  intros Hl Hp Hb Hs Hc. destruct (lok_m _ _ _ Hl) as [Hin Hm].
  destruct (brelse_spec _ _ _ _ (lok_rep _ _ _ Hl) Hp Hb) as (b' & E & Hd & Hr).
  { intros Hy. cbn. rewrite Hm by done. auto. }
  exists (set_lbio b' s). split; [by apply zoom_Done|]. split; [done|].
  apply (lok_set s P m); [done|done|rewrite Hd; apply (lok_I _ _ _ Hl)|rewrite Hd; apply (lok_m _ _ _ Hl)].
Qed.

(** *** The header block *)

Definition hdr_n (x : block) : Z := s32 (get32 x 0).
Definition hdr_sec (x : block) (i : nat) : Z := s32 (get32 x (4 + 4 * i)).

(** The block [write_head] leaves after copying [j] sector numbers. *)
Fixpoint whead (n : Z) (secs : list Z) (x : block) (j : nat) : block :=
  match j with
  | O => put32 0 n x
  | S j' => put32 (4 + 4 * j') (secs !!! j') (whead n secs x j')
  end.

Lemma length_whead n secs x j : length x = BSIZE -> (j <= LOGSIZE)%nat ->
  length (whead n secs x j) = BSIZE.
Proof.
  unfold LOGSIZE. intros Hx. induction j as [|j IH]; intros Hj; cbn [whead].
  - rewrite length_put32; [done|]. rewrite Hx. unfold BSIZE. lia.
  - rewrite length_put32; [apply IH; lia|]. rewrite IH by lia. unfold BSIZE. lia.
Qed.

Lemma hdr_n_whead n secs x j : length x = BSIZE -> (j <= LOGSIZE)%nat -> - 2 ^ 31 <= n < 2 ^ 31 ->
  hdr_n (whead n secs x j) = n.
Proof.
  intros Hx Hj Hn. unfold hdr_n. induction j as [|j IH]; cbn [whead].
  - rewrite get_put32 by (rewrite Hx; unfold BSIZE; lia). by rewrite s32_u32, s32_small.
  - rewrite get_put32_ne; [apply IH; lia| |lia].
    rewrite length_whead by (done || lia). unfold BSIZE, LOGSIZE in *. lia.
Qed.

Lemma hdr_sec_whead n secs x j i : length x = BSIZE -> (j <= LOGSIZE)%nat -> (i < j)%nat ->
  - 2 ^ 31 <= secs !!! i < 2 ^ 31 -> hdr_sec (whead n secs x j) i = secs !!! i.
Proof.
  intros Hx Hj. unfold hdr_sec. induction j as [|j IH]; intros Hi Hs; [lia|]. cbn [whead].
  assert (Hb : (4 + 4 * j + 4 <= length (whead n secs x j))%nat).
  { rewrite length_whead by (done || lia). unfold BSIZE, LOGSIZE in *. lia. }
  destruct (decide (i = j)) as [->|].
  - rewrite get_put32 by done. by rewrite s32_u32, s32_small.
  - rewrite get_put32_ne by lia. apply IH; [lia|lia|done].
Qed.

Lemma lget_sector (s : lst D) i z : lh_sector s !! i = Some z -> get_sector i s = Done z s.
Proof. intros E. unfold get_sector. by rewrite E. Qed.

(** A read-modify-write of the contents of a held block. *)
Lemma lmod s P m k p f : lok s P m -> P !! k = Some p -> p_busy p = true ->
  length (f (p_data p)) = BSIZE ->
  exists s', bio (updb (p_idx p) (fun y => set_data (f (b_data y)) y)) s = Done tt s' /\
    same_log s s' /\ lok s' (<[k := Pin (p_idx p) true (p_dirty p) (f (p_data p))]> P) m.
Proof.
  intros Hl HP Hb Hf. destruct (lset _ _ _ _ _ _ Hl HP Hb Hf) as (s' & E & Hs).
  exists s'. split; [|done]. rewrite <- E. unfold bio, zoom.
  pose proof (brep_lookup _ _ _ _ (lok_rep _ _ _ Hl) HP) as (Hi & _ & _ & _ & Ed & _).
  pose proof (ring_length _ _ (lok_rep _ _ _ Hl)) as Hlen.
  rewrite !updb_run by lia. by rewrite Ed.
Qed.

Lemma write_head_loop b j : forall s P m x0 x,
  lok s P m -> P !! (dev, start) = Some (Pin b true false (whead (lh_n s) (lh_sector s) x0 0)) ->
  x = x0 -> length x = BSIZE -> (j <= LOGSIZE)%nat -> length (lh_sector s) = LOGSIZE ->
  exists s', forM (seq 0 j) (fun i => let! z := get_sector i in
        bio (updb b (fun y => set_data (put32 (4 + 4 * i) z (b_data y)) y))) s = Done tt s' /\
    same_log s s' /\
    lok s' (<[(dev, start) := Pin b true false (whead (lh_n s) (lh_sector s) x j)]> P) m.
Proof.
  induction j as [|j IH]; intros s P m x0 x Hl HP -> Hx Hj Hlen.
  - exists s. split; [done|]. split; [by destruct s|]. by rewrite insert_id.
  - destruct (IH s P m x0 x0 Hl HP eq_refl Hx ltac:(lia) Hlen) as (s1 & E1 & Hs1 & Hl1).
    rewrite seq_S, forM_app. run E1. rewrite Nat.add_0_l. cbn [forM].
    assert (Hsec : lh_sector s1 !! j = Some (lh_sector s !!! j)).
    { rewrite Hs1. cbn. apply list_lookup_lookup_total_lt. lia. }
    destruct (lmod s1 _ m _ _ (put32 (4 + 4 * j) (lh_sector s !!! j)) Hl1 (lookup_insert_eq _ _ _) eq_refl)
      as (s2 & E2 & Hs2 & Hl2).
    { cbn [p_data]. rewrite length_put32; rewrite ?length_whead by (done || lia); [done|].
      unfold BSIZE, LOGSIZE in *. lia. }
    cbn [p_idx p_dirty p_data] in E2, Hl2.
    unfold bind at 1. run (lget_sector _ _ _ Hsec). rewrite E2. exists s2. split; [done|].
    split; [by eapply same_log_trans|]. by rewrite insert_insert_eq in Hl2.
Qed.

Lemma same_fields s s' : same_log s s' ->
  lh_n s' = lh_n s /\ lh_sector s' = lh_sector s /\ lg_busy s' = lg_busy s.
Proof. intros ->. done. Qed.

Lemma u32_sec sec : 0 <= sec < N -> u32 sec = sec.
Proof. intros. apply u32_small. lia. Qed.

Lemma start_in : 0 <= start < N.
Proof. lia. Qed.

Lemma u32_dev : u32 dev = dev.
Proof. done. Qed.

(** [write_head] writes the in-memory header over the header block. *)
Lemma write_head_spec s P m n : lok s P m -> lh_n s = Z.of_nat n -> (n <= LOGSIZE)%nat ->
  length (lh_sector s) = LOGSIZE -> P !! (dev, start) = None -> (size P < NBUF)%nat ->
  length (m start) = BSIZE ->
  let x := whead (lh_n s) (lh_sector s) (m start) n in
  Phase (mupd start x m) ->
  exists s', write_head s = Done tt s' /\ same_log s s' /\ lok s' P (mupd start x m).
Proof.
  intros Hl Hn Hle Hlen HP Hsz Hml x Hph. pose proof start_in as Hin. unfold write_head.
  unfold bind at 1, gets at 1. rewrite (lok_dev _ _ _ Hl), u32_dev.
  unfold bind at 1, gets at 1. rewrite (lok_start _ _ _ Hl), u32_sec by done.
  destruct (lread s P m start Hl Hin) as (b & s1 & E1 & Hs1 & Hl1); [congruence|done|].
  unfold isdirty, view in Hl1. rewrite HP in Hl1. run E1.
  unfold bind at 1, gets at 1. destruct (same_fields _ _ Hs1) as (F1 & F2 & _). rewrite F1.
  destruct (lmod s1 _ m _ _ (put32 0 (lh_n s)) Hl1 (lookup_insert_eq _ _ _) eq_refl)
    as (s2 & E2 & Hs2 & Hl2).
  { cbn [p_data]. rewrite length_put32; [done|]. rewrite Hml. unfold BSIZE. lia. }
  cbn [p_idx p_dirty p_data] in E2, Hl2. rewrite insert_insert_eq in Hl2. run E2.
  destruct (same_fields _ _ Hs2) as (F3 & F4 & _).
  destruct (write_head_loop b n s2 _ m (m start) (m start) Hl2) as (s3 & E3 & Hs3 & Hl3).
  { rewrite lookup_insert_eq, F3, F1. done. } { done. } { done. } { done. } { by rewrite F4, F2. }
  unfold loop_to. rewrite Hn, Nat2Z.id. run E3.
  rewrite insert_insert_eq, F3, F4, F1, F2 in Hl3. fold x in Hl3.
  destruct (lwrite s3 _ m start _ Hl3 (lookup_insert_eq _ _ _) eq_refl Hin Hph) as (s4 & E4 & Hs4 & Hl4).
  cbn [p_idx p_data] in E4, Hl4. rewrite insert_insert_eq in Hl4. run E4.
  destruct (lrelse s4 _ _ start _ Hl4 (lookup_insert_eq _ _ _) eq_refl Hin) as (s5 & E5 & Hs5 & Hl5).
  { intros _. cbn. by rewrite mupd_eq. }
  cbn [p_idx p_dirty] in E5, Hl5. rewrite delete_insert_id in Hl5 by done.
  exists s5. split; [done|]. split; [|done]. by do 4 (eapply same_log_trans; [eassumption|]).
Qed.

(** *** Reading the header *)

Definition rsecs (x : block) (l : list Z) (j : nat) : list Z :=
  foldl (fun l i => <[i := hdr_sec x i]> l) l (seq 0 j).

Lemma length_rsecs x l j : length (rsecs x l j) = length l.
Proof.
  unfold rsecs. generalize (seq 0 j). intros k. revert l.
  induction k as [|i k IH]; intros l; cbn; [done|]. by rewrite IH, length_insert.
Qed.

Lemma lookup_rsecs x l j i : (i < j)%nat -> (j <= length l)%nat ->
  rsecs x l j !! i = Some (hdr_sec x i).
Proof.
  induction j as [|j IH]; intros Hi Hj; [lia|]. unfold rsecs in *.
  rewrite seq_S, foldl_app. cbn [foldl Nat.add]. fold (rsecs x l j).
  destruct (decide (i = j)) as [->|].
  - apply list_lookup_insert_eq. rewrite length_rsecs. lia.
  - rewrite list_lookup_insert_ne by done. apply IH; lia.
Qed.

Lemma read_loop x j : forall s : lst D, (j <= LOGSIZE)%nat ->
  forM (seq 0 j) (fun i =>
    if (4 + 4 * i + 4 <=? BSIZE)%nat then put_sector i (s32 (get32 x (4 + 4 * i)%nat))
    else wild "lh->sector") s = Done tt (set_sectors (rsecs x (lh_sector s) j) s).
Proof.
  induction j as [|j IH]; intros s Hj; [by destruct s|].
  assert (Hin : (8 + 4 * j <= BSIZE)%nat) by (unfold BSIZE, LOGSIZE in *; lia).
  rewrite seq_S, forM_app. run (IH s ltac:(lia)). rewrite Nat.add_0_l. cbn [forM].
  unfold bind at 1. rewrite (proj2 (Nat.leb_le _ _)) by lia.
  unfold put_sector. rewrite (proj2 (Nat.ltb_lt _ _)) by lia.
  unfold rsecs. rewrite seq_S, foldl_app. done.
Qed.

Lemma lok_n s P m n : lok s P m -> lok (set_n n s) P m.
Proof. intros []. by constructor. Qed.
Lemma lok_sectors s P m l : lok s P m -> lok (set_sectors l s) P m.
Proof. intros []. by constructor. Qed.
Lemma lok_busy s P m z : lok s P m -> lok (set_busy z s) P m.
Proof. intros []. by constructor. Qed.

Lemma read_head_spec s P m n : lok s P m -> hdr_n (m start) = Z.of_nat n -> (n <= LOGSIZE)%nat ->
  length (lh_sector s) = LOGSIZE -> P !! (dev, start) = None -> (size P < NBUF)%nat ->
  exists s', read_head s = Done tt s' /\ lok s' P m /\ lh_n s' = Z.of_nat n /\
    length (lh_sector s') = LOGSIZE /\ lg_busy s' = lg_busy s /\
    (forall i, (i < n)%nat -> lh_sector s' !! i = Some (hdr_sec (m start) i)).
Proof.
  intros Hl Hn Hle Hlen HP Hsz. pose proof start_in as Hin. unfold read_head.
  unfold bind at 1, gets at 1. rewrite (lok_dev _ _ _ Hl), u32_dev.
  unfold bind at 1, gets at 1. rewrite (lok_start _ _ _ Hl), u32_sec by done.
  destruct (lread s P m start Hl Hin) as (b & s1 & E1 & Hs1 & Hl1); [congruence|done|].
  unfold isdirty, view in Hl1. rewrite HP in Hl1. run E1.
  destruct (lget _ _ _ _ _ Hl1 (lookup_insert_eq _ _ _)) as (x & Ex & _ & Ed).
  cbn [p_idx p_data] in Ex, Ed. run Ex. rewrite Ed. fold (hdr_n (m start)). rewrite Hn.
  unfold bind at 1, modify. unfold loop_to. rewrite Nat2Z.id.
  run (read_loop (m start) n (set_n (Z.of_nat n) s1) Hle).
  destruct (same_fields _ _ Hs1) as (F1 & F2 & F3).
  set (s2 := set_sectors _ _).
  assert (Hl2 : lok s2 (<[(dev, start) := Pin b true false (m start)]> P) m)
    by (by apply lok_sectors, lok_n).
  destruct (lrelse s2 _ _ start _ Hl2 (lookup_insert_eq _ _ _) eq_refl Hin) as (s3 & E3 & Hs3 & Hl3);
    [done|]. cbn [p_idx p_dirty] in E3, Hl3. rewrite delete_insert_id in Hl3 by done.
  destruct (same_fields _ _ Hs3) as (F4 & F5 & F6).
  exists s3. rewrite F4, F5, F6. cbn [s2 set_sectors set_n lh_n lh_sector lg_busy].
  split_and!; try done.
  - by rewrite length_rsecs, F2.
  - intros i Hi. apply lookup_rsecs; [done|]. by rewrite F2, Hlen.
Qed.

(** ** Transactions

    [old] is the contents before the transaction; [T] the blocks it logs, in
    the order of the log. *)

Definition Tok (T : list (Z * block)) : Prop :=
  NoDup T.*1 /\ Forall (fun e => 0 <= e.1 < start /\ length e.2 = BSIZE) T /\
  (length T <= LOGSIZE)%nat /\ Z.of_nat (length T) <= nlog - 1.

(** The log is erased and the blocks are untouched. *)
Definition PA (old m : Z -> block) : Prop :=
  hdr_n (m start) = 0 /\ (forall sec, 0 <= sec < start -> m sec = old sec).

(** The header names the blocks of [T], the log has their contents, and each
    block is either as before the transaction or as [T] has it. *)
Definition PB (old : Z -> block) (T : list (Z * block)) (m : Z -> block) : Prop :=
  hdr_n (m start) = Z.of_nat (length T) /\
  (forall i e, T !! i = Some e ->
     hdr_sec (m start) i = e.1 /\ m (start + Z.of_nat i + 1) = e.2) /\
  (forall sec, 0 <= sec < start -> m sec = old sec \/ (sec, m sec) ∈ T).

(** Installed up to entry [j]. *)
Definition installed (T : list (Z * block)) (j : nat) (m : Z -> block) : Prop :=
  forall i e, (i < j)%nat -> T !! i = Some e -> m e.1 = e.2.

Lemma Tok_entry T i e : Tok T -> T !! i = Some e ->
  0 <= e.1 < start /\ length e.2 = BSIZE /\ (i < length T)%nat /\ start + Z.of_nat i + 1 < N.
Proof.
  intros (_ & HF & _ & Hn) Hi. pose proof (lookup_lt_Some _ _ _ Hi).
  rewrite Forall_lookup in HF. destruct (HF _ _ Hi).
  split_and!; try done; lia.
Qed.

Lemma PB_install old T m i e : Tok T -> PB old T m -> T !! i = Some e -> PB old T (mupd e.1 e.2 m).
Proof.
  intros HT (H1 & H2 & H3) Hi. destruct (Tok_entry _ _ _ HT Hi) as (He & _).
  split_and!.
  - by rewrite mupd_ne by lia.
  - intros k f Hk. destruct (Tok_entry _ _ _ HT Hk) as (Hf & _).
    rewrite !mupd_ne by lia. by apply H2.
  - intros sec Hs. destruct (decide (sec = e.1)) as [->|].
    + rewrite mupd_eq. right. rewrite <- surjective_pairing. by eapply list_elem_of_lookup_2.
    + rewrite mupd_ne by done. by apply H3.
Qed.

Lemma installed_step T j m e : Tok T -> installed T j m -> T !! j = Some e ->
  installed T (S j) (mupd e.1 e.2 m).
Proof.
  intros (Hnd & _) Hm Hj i f Hi Hf. destruct (decide (i = j)) as [->|].
  - simplify_eq. apply mupd_eq.
  - rewrite mupd_ne; [apply (Hm i); [lia|done]|]. intros E.
    assert (i = j); [|done]. apply (NoDup_lookup T.*1 i j e.1 Hnd);
      rewrite list_lookup_fmap; [by rewrite Hf, <- E|by rewrite Hj].
Qed.

(** Pinned blocks while entries from [j] on are still to be installed: dirty
    buffers of those entries, all of them (commit) or none (recovery). *)
Definition suffix_pins (T : list (Z * block)) (j : nat) (P : gmap (Z * Z) pin) : Prop :=
  (forall k p, P !! k = Some p -> p_busy p = false /\
     exists i e, (j <= i)%nat /\ T !! i = Some e /\ k = (dev, e.1)) /\
  (P = ∅ \/ forall i e, (j <= i)%nat -> T !! i = Some e -> is_Some (P !! (dev, e.1))) /\
  (size P < NBUF)%nat.

Lemma suffix_pins_home T j P sec : Tok T -> suffix_pins T j P -> start <= sec -> P !! (dev, sec) = None.
Proof.
  intros HT [HP _] Hs. destruct (P !! (dev, sec)) as [p|] eqn:E; [|done].
  destruct (HP _ _ E) as (_ & i & e & _ & Hi & Ek). destruct (Tok_entry _ _ _ HT Hi) as (He & _).
  simplify_eq. lia.
Qed.

Lemma suffix_pins_step T j P e : Tok T -> suffix_pins T j P -> T !! j = Some e ->
  suffix_pins T (S j) (delete (dev, e.1) P).
Proof.
  intros (Hnd & _) (H1 & H2 & H3) Hj.
  assert (Hne : forall i f, (j <= i)%nat -> T !! i = Some f -> i <> j -> (dev, f.1) <> (dev, e.1)).
  { intros i f _ Hf Hne E. apply Hne. apply (NoDup_lookup T.*1 i j e.1 Hnd);
      rewrite list_lookup_fmap; [rewrite Hf; cbn; congruence|by rewrite Hj]. }
  split_and!.
  - intros k p [Hk Hp]%lookup_delete_Some. destruct (H1 _ _ Hp) as (Hb & i & f & Hi & Hf & ->).
    split; [done|]. exists i, f. split_and!; try done. destruct (decide (i = j)) as [->|]; [|lia].
    simplify_eq.
  - destruct H2 as [->|H2]; [left; apply delete_empty|right]. intros i f Hi Hf.
    rewrite lookup_delete_ne; [apply (H2 i); [lia|done]|].
    intros E. by apply (Hne i f); [lia| |lia|].
  - pose proof (map_size_delete (dev, e.1) P) as Hs. destruct (P !! (dev, e.1)); cbn in Hs; lia.
Qed.

(** One iteration of [install_trans]. *)
Lemma install1_spec s P m old T j e :
  (forall m', PB old T m' -> Phase m') ->
  lok s P m -> Tok T -> PB old T m -> suffix_pins T j P -> T !! j = Some e ->
  lh_sector s !! j = Some e.1 ->
  exists s', install1 j s = Done tt s' /\ same_log s s' /\
    lok s' (delete (dev, e.1) P) (mupd e.1 e.2 m).
Proof.
  intros HPB Hl HT HB Hpins Hj Hsec. destruct (Tok_entry _ _ _ HT Hj) as (He & Hlen & Hjl & Hjn).
  assert (Hlin : 0 <= start + Z.of_nat j + 1 < N) by lia.
  assert (Hein : 0 <= e.1 < N) by lia.
  assert (Hkne : (dev, e.1) <> (dev, start + Z.of_nat j + 1)) by (intros ?; simplify_eq; lia).
  pose proof (suffix_pins_home _ _ _ (start + Z.of_nat j + 1) HT Hpins ltac:(lia)) as Hlog.
  destruct HB as (B1 & B2 & B3). destruct (B2 _ _ Hj) as [_ Hx].
  pose proof Hpins as (Q1 & Q2 & Q3).
  unfold install1. unfold bind at 1, gets at 1. rewrite (lok_dev _ _ _ Hl), u32_dev.
  unfold bind at 1, gets at 1. rewrite (lok_start _ _ _ Hl), u32_sec by done.
  destruct (lread s P m _ Hl Hlin) as (lb & s1 & E1 & Hs1 & Hl1); [congruence|done|].
  unfold isdirty, view in Hl1. rewrite Hlog, Hx in Hl1. run E1.
  destruct (same_fields _ _ Hs1) as (_ & F2 & _). rewrite <- F2 in Hsec.
  run (lget_sector _ _ _ Hsec). rewrite u32_sec by done.
  destruct (lread s1 _ m e.1 Hl1 Hein) as (db & s2 & E2 & Hs2 & Hl2).
  { intros p. rewrite lookup_insert_ne by done. intros Hp. by apply Q1 in Hp as [? _]. }
  { rewrite lookup_insert_ne by done. intros Hn. destruct Q2 as [->|Q2].
    - rewrite map_size_insert_None, map_size_empty by done. unfold NBUF. lia.
    - destruct (Q2 j e (le_n _) Hj) as [p Hp]. congruence. }
  run E2. set (P1 := <[(dev, start + Z.of_nat j + 1) := _]> P) in *.
  set (P2 := <[(dev, e.1) := _]> P1) in *.
  assert (HP2 : P2 !! (dev, start + Z.of_nat j + 1) = Some (Pin lb true false e.2)).
  { unfold P2. rewrite lookup_insert_ne by done. apply lookup_insert_eq. }
  destruct (lget _ _ _ _ _ Hl2 HP2) as (x & Ex & _ & Ed). cbn [p_idx p_data] in Ex, Ed.
  run Ex. rewrite Ed.
  destruct (lset s2 P2 m (dev, e.1) _ e.2 Hl2 (lookup_insert_eq _ _ _) eq_refl Hlen)
    as (s3 & E3 & Hs3 & Hl3). cbn [p_idx p_dirty] in E3, Hl3. run E3.
  destruct (lwrite s3 _ m e.1 _ Hl3 (lookup_insert_eq _ _ _) eq_refl Hein) as (s4 & E4 & Hs4 & Hl4).
  { apply HPB, (PB_install _ _ _ j); done. }
  cbn [p_idx p_data] in E4, Hl4. run E4. rewrite insert_insert_eq in Hl4. unfold P2 in Hl4.
  rewrite insert_insert_eq in Hl4.
  destruct (lrelse s4 _ _ (start + Z.of_nat j + 1) (Pin lb true false e.2) Hl4) as (s5 & E5 & Hs5 & Hl5).
  { rewrite lookup_insert_ne by done. apply lookup_insert_eq. } { done. } { done. }
  { intros _. cbn. rewrite mupd_ne by lia. by rewrite Hx. }
  cbn [p_idx p_dirty] in E5, Hl5. run E5.
  rewrite delete_insert_ne in Hl5 by done. unfold P1 in Hl5. rewrite delete_insert_id in Hl5 by done.
  destruct (lrelse s5 _ _ e.1 _ Hl5 (lookup_insert_eq _ _ _) eq_refl Hein) as (s6 & E6 & Hs6 & Hl6).
  { intros _. cbn. by rewrite mupd_eq. }
  cbn [p_idx p_dirty] in E6, Hl6. rewrite delete_insert_eq in Hl6.
  exists s6. split; [done|]. split; [by do 5 (eapply same_log_trans; [eassumption|])|done].
Qed.

Lemma install_loop old T r : (forall m', PB old T m' -> Phase m') -> Tok T ->
  forall s P m j, lok s P m -> PB old T m -> suffix_pins T j P -> installed T j m ->
  (j + r = length T)%nat ->
  (forall i e, T !! i = Some e -> lh_sector s !! i = Some e.1) ->
  exists s' m', forM (seq j r) install1 s = Done tt s' /\ same_log s s' /\ lok s' ∅ m' /\
    PB old T m' /\ installed T (length T) m'.
Proof.
  intros HPB HT. induction r as [|r IH]; intros s P m j Hl HB Hpins Hin Hr Hsec; cbn [seq forM].
  - exists s, m. split; [done|]. split; [by destruct s|]. replace (length T) with j by lia.
    split; [|done]. replace ∅ with P; [done|]. apply map_eq. intros k. rewrite lookup_empty.
    destruct (P !! k) as [p|] eqn:E; [|done]. destruct Hpins as [H1 _].
    destruct (H1 _ _ E) as (_ & i & e & Hi & He & _). apply lookup_lt_Some in He. lia.
  - destruct (lookup_lt_is_Some_2 T j ltac:(lia)) as [e He].
    destruct (install1_spec s P m old T j e HPB Hl HT HB Hpins He (Hsec _ _ He)) as (s1 & E1 & Hs1 & Hl1).
    run E1. destruct (same_fields _ _ Hs1) as (_ & F2 & _).
    destruct (IH s1 _ _ (S j) Hl1) as (s2 & m2 & E2 & Hs2 & Hl2 & HB2 & Hin2).
    { by apply (PB_install _ _ _ j). } { by apply suffix_pins_step. } { by apply installed_step. }
    { lia. } { by rewrite F2. }
    exists s2, m2. split_and!; try done. by eapply same_log_trans.
Qed.

(** The contents once every block of [T] is installed. *)
Definition final (old : Z -> block) (T : list (Z * block)) (sec : Z) : block :=
  match list_find (fun e => e.1 = sec) T with Some (_, e) => e.2 | None => old sec end.

Lemma final_installed old T m : PB old T m -> installed T (length T) m ->
  forall sec, 0 <= sec < start -> m sec = final old T sec.
Proof.
  intros (_ & _ & H3) Hin sec Hs. unfold final. destruct (list_find _ T) as [[i e]|] eqn:E.
  - apply list_find_Some in E as (He & <- & _). apply (Hin i); [|done]. by apply lookup_lt_Some in He.
  - destruct (H3 sec Hs) as [|Hm]; [done|]. rewrite list_find_None, Forall_forall in E.
    by apply E in Hm.
Qed.

Lemma lok_length s P m sec : lok s P m -> 0 <= sec < N -> length (m sec) = BSIZE.
Proof.
  intros Hl Hs. destruct (lok_m _ _ _ Hl) as [Hin Hm]. rewrite <- Hm by done.
  apply dread_length. auto.
Qed.

(** Erasing the log. *)
Lemma erase_spec s m old : (forall m', PA old m' -> Phase m') ->
  lok s ∅ m -> lh_n s = 0 -> length (lh_sector s) = LOGSIZE ->
  (forall sec, 0 <= sec < start -> m sec = old sec) ->
  exists s' m', write_head s = Done tt s' /\ same_log s s' /\ lok s' ∅ m' /\ PA old m'.
Proof.
  intros HPA Hl Hn Hlen Hm. pose proof start_in as Hin.
  pose proof (lok_length _ _ _ start Hl Hin) as Hb.
  pose (x := whead (lh_n s) (lh_sector s) (m start) 0).
  assert (HA : PA old (mupd start x m)).
  { split.
    - rewrite mupd_eq. unfold x. rewrite hdr_n_whead; [done|done|lia|lia].
    - intros sec Hs. rewrite mupd_ne by lia. auto. }
  destruct (write_head_spec s ∅ m 0 Hl) as (s' & E & Hs & Hl');
    [done|lia|done|by rewrite lookup_empty|rewrite map_size_empty; unfold NBUF; lia|done|by apply HPA|].
  eauto 10.
Qed.

Lemma PB_PA old m : PA old m <-> PB old [] m.
Proof using start.
  clear. split.
  - intros [H1 H2]. split_and!; [done|by intros|]. left. auto.
  - intros (H1 & _ & H3). split; [done|]. intros sec Hs. destruct (H3 sec Hs); [done|set_solver].
Qed.

Lemma Tok_nil : Tok [].
Proof. unfold Tok. cbn. split_and!; [constructor|constructor|lia|lia]. Qed.

(** [recover_from_log] finishes a committed transaction and erases the log. *)
Lemma recover_spec s m old T :
  (forall m', PB old T m' -> Phase m') -> (forall m', PA (final old T) m' -> Phase m') ->
  lok s ∅ m -> Tok T -> PB old T m -> length (lh_sector s) = LOGSIZE ->
  exists s' m', recover_from_log s = Done tt s' /\ lok s' ∅ m' /\ PA (final old T) m' /\
    lh_n s' = 0 /\ length (lh_sector s') = LOGSIZE /\ lg_busy s' = lg_busy s.
Proof.
  intros HPB HPA Hl HT HB Hlen. pose proof start_in as Hin. pose proof HB as (B1 & B2 & _).
  pose proof HT as (_ & _ & HTl & _). unfold recover_from_log.
  destruct (read_head_spec s ∅ m (length T) Hl B1 HTl Hlen) as (s1 & E1 & Hl1 & N1 & L1 & Y1 & S1);
    [by rewrite lookup_empty|rewrite map_size_empty; unfold NBUF; lia|]. run E1.
  assert (Hpins : suffix_pins T 0 ∅).
  { split_and!; [by intros ? ?|by left|rewrite map_size_empty; unfold NBUF; lia]. }
  destruct (install_loop old T (length T) HPB HT s1 ∅ m 0 Hl1 HB Hpins) as (s2 & m2 & E2 & Hs2 & Hl2 & HB2 & Hi2).
  { intros i e Hi. lia. } { done. }
  { intros i e Hi. rewrite S1 by (by apply lookup_lt_Some in Hi). f_equal. by apply B2. }
  unfold bind at 1, install_trans, bind at 1, gets. rewrite N1. unfold loop_to. rewrite Nat2Z.id, E2.
  destruct (same_fields _ _ Hs2) as (_ & F2 & F3). unfold bind at 1, modify.
  destruct (erase_spec (set_n 0 s2) m2 (final old T) HPA) as (s3 & m3 & E3 & Hs3 & Hl3 & HA3).
  { by apply lok_n. } { done. } { cbn. by rewrite F2. } { by apply final_installed. }
  destruct (same_fields _ _ Hs3) as (G1 & G2 & G3). exists s3, m3. rewrite G1, G2, G3. cbn. rewrite F2, F3. done.
Qed.

(** *** Booting *)

Lemma bio_region {A} (m : M (bst D) A) a b c s x s1 :
  bio m (set_region a b c s) = Done x s1 -> bio m s = Done x (set_lbio (lbio s1) s).
Proof. unfold bio, zoom. cbn. destruct (m (lbio s)); naive_solver. Qed.

Lemma readsb_spec s m : lok (set_region start nlog dev s) ∅ m ->
  exists s', readsb ROOTDEV s = Done (sb_dec (m 1)) s' /\ same_log s s' /\
    lok (set_region start nlog dev s') ∅ m.
Proof.
  intros Hl. assert (H1 : 0 <= 1 < N) by lia. unfold readsb. change (u32 ROOTDEV) with dev.
  destruct (lread _ _ _ 1 Hl H1) as (b & s1 & E1 & Hs1 & Hl1);
    [by intros ?|intros _; rewrite map_size_empty; unfold NBUF; lia|].
  unfold isdirty, view in Hl1. rewrite lookup_empty in Hl1.
  run (bio_region _ _ _ _ _ _ _ E1).
  destruct (lget _ _ _ _ _ Hl1 (lookup_insert_eq _ _ _)) as (x & Ex & _ & Ed).
  cbn [p_idx p_data] in Ex, Ed. rewrite Hs1 in Ex.
  assert (Ex' : bio (getb b) (set_lbio (lbio s1) s) = Done x (set_lbio (lbio s1) s)).
  { unfold bio, zoom, getb, gets in *. cbn in *. by simplify_eq. }
  run Ex'. rewrite Ed.
  destruct (lrelse s1 _ _ 1 _ Hl1 (lookup_insert_eq _ _ _) eq_refl H1) as (s2 & E2 & Hs2 & Hl2); [done|].
  cbn [p_idx p_dirty] in E2, Hl2. rewrite delete_insert_id in Hl2 by apply lookup_empty.
  rewrite Hs1 in E2.
  pose proof (bio_region (brelse b) start nlog dev (set_lbio (lbio s1) s) tt s2 E2) as E3.
  run E3. eexists. split; [done|]. split; [done|].
  rewrite Hs2, Hs1 in Hl2. exact Hl2.
Qed.

(** [initlog] of a freshly booted kernel. *)
Lemma initlog_spec s m old T :
  (forall m', PB old T m' -> Phase m') -> (forall m', PA (final old T) m' -> Phase m') ->
  lok (set_region start nlog dev s) ∅ m -> Tok T -> PB old T m -> length (lh_sector s) = LOGSIZE ->
  sb_size (sb_dec (m 1)) = N -> sb_nlog (sb_dec (m 1)) = nlog ->
  exists s' m', initlog s = Done tt s' /\ lok s' ∅ m' /\ PA (final old T) m' /\
    lh_n s' = 0 /\ length (lh_sector s') = LOGSIZE /\ lg_busy s' = lg_busy s.
Proof.
  intros HPB HPA Hl HT HB Hlen Hsz Hnl. unfold initlog.
  change (BSIZE <=? sizeof_logheader)%nat with false. cbv iota.
  unfold bind at 1, modify at 1.
  assert (Hs0 : set_lg_lock false s = s).
  { pose proof (lok_lock _ _ _ Hl) as Hk. destruct s. cbn in *. by subst. }
  rewrite Hs0. destruct (readsb_spec s m Hl) as (s1 & E1 & Hs1 & Hl1). run E1.
  unfold bind at 1, modify. rewrite Hsz, Hnl. rewrite !s32_small by lia.
  replace (N - nlog) with start by lia. change ROOTDEV with dev.
  destruct (same_fields _ _ Hs1) as (_ & F2 & F3).
  destruct (recover_spec (set_region start nlog dev s1) m old T HPB HPA Hl1 HT HB)
    as (s2 & m2 & E2 & Hl2 & HA & Hr); [cbn; by rewrite F2|].
  rewrite E2. cbn in Hr. rewrite F3 in Hr. eauto 10.
Qed.

(** *** Inside a transaction *)

Definition log_pos (sec : Z) (T : list (Z * block)) : nat :=
  match list_find (fun e => e.1 = sec) T with Some (i, _) => i | None => length T end.

(** Log absorption: a block is logged once, with its latest contents. *)
Definition absorb (sec : Z) (x : block) (T : list (Z * block)) : list (Z * block) :=
  match list_find (fun e => e.1 = sec) T with
  | Some (i, _) => <[i := (sec, x)]> T
  | None => T ++ [(sec, x)]
  end.

Record tst (s : lst D) (P : gmap (Z * Z) pin) (m : Z -> block) (T : list (Z * block)) : Prop := {
  ts_n : lh_n s = Z.of_nat (length T);
  ts_len : length (lh_sector s) = LOGSIZE;
  ts_secs : forall i e, T !! i = Some e -> lh_sector s !! i = Some e.1;
  ts_busy : lg_busy s = 1;
  ts_log : forall i e, T !! i = Some e -> m (start + Z.of_nat i + 1) = e.2;
  ts_tok : Tok T;
  ts_dirty : forall k p, P !! k = Some p -> p_dirty p = true ->
    exists i e, T !! i = Some e /\ k = (dev, e.1) /\ (p_busy p = false -> p_data p = e.2);
  ts_pin : forall i e, T !! i = Some e -> exists p, P !! (dev, e.1) = Some p /\ p_dirty p = true;
  ts_home : forall sec p, P !! (dev, sec) = Some p -> sec < start;
}.

Lemma absorb_lookup sec x T : NoDup T.*1 -> 
  absorb sec x T !! log_pos sec T = Some (sec, x) /\
  (forall i e, absorb sec x T !! i = Some e -> i = log_pos sec T /\ e = (sec, x) \/
     i <> log_pos sec T /\ T !! i = Some e /\ e.1 <> sec) /\
  (forall i e, T !! i = Some e -> i <> log_pos sec T -> absorb sec x T !! i = Some e) /\
  (log_pos sec T <= length T)%nat.
Proof.
  intros Hnd. unfold absorb, log_pos. destruct (list_find _ T) as [[i e]|] eqn:E.
  - apply list_find_Some in E as (He & Hsec & _). pose proof (lookup_lt_Some _ _ _ He).
    assert (Hu : forall j f, T !! j = Some f -> f.1 = sec -> j = i).
    { intros j f Hf Ef. apply (NoDup_lookup T.*1 j i sec Hnd); rewrite list_lookup_fmap;
        [by rewrite Hf; cbn; rewrite Ef|by rewrite He; cbn; rewrite Hsec]. }
    split_and!; [by apply list_lookup_insert_eq| | |lia].
    + intros j f Hf. destruct (decide (j = i)) as [->|Hne].
      * rewrite list_lookup_insert_eq in Hf by done. naive_solver.
      * rewrite list_lookup_insert_ne in Hf by done. right. split_and!; [done|done|].
        intros Ef. by apply Hne, (Hu j f).
    + intros j f Hf Hne. by rewrite list_lookup_insert_ne.
  - rewrite list_find_None, Forall_lookup in E. split_and!; [| | |lia].
    + by rewrite lookup_app_r, Nat.sub_diag by lia.
    + intros j f Hf. apply lookup_app_Some in Hf as [Hf|[Hj Hf]].
      * right. split_and!; [apply lookup_lt_Some in Hf; lia|done|by apply (E j)].
      * left. apply list_lookup_singleton_Some in Hf as [? <-]. split; [lia|done].
    + intros j f Hf _. by apply lookup_app_l_Some.
Qed.

Lemma length_absorb sec x T :
  length (absorb sec x T) = if decide (log_pos sec T = length T) then S (length T) else length T.
Proof.
  unfold absorb, log_pos. destruct (list_find _ T) as [[i e]|] eqn:E.
  - apply list_find_Some in E as (He%lookup_lt_Some & _). rewrite length_insert, decide_False by lia. done.
  - rewrite length_app, decide_True by done. cbn. lia.
Qed.

Lemma absorb_NoDup sec x T : NoDup T.*1 -> NoDup (absorb sec x T).*1.
Proof.
  intros Hnd. destruct (absorb_lookup sec x T Hnd) as (_ & H2 & _).
  apply NoDup_alt. intros i j z Hi Hj.
  apply list_lookup_fmap_Some in Hi as (e & -> & He). apply list_lookup_fmap_Some in Hj as (f & Ef & Hf).
  destruct (H2 _ _ He) as [[-> ->]|(Hi & He' & Hne)], (H2 _ _ Hf) as [[-> ->]|(Hj & Hf' & Hne')];
    [done|by rewrite <- Ef in Hne'|by cbn in Ef|].
  apply (NoDup_lookup T.*1 i j e.1 Hnd); rewrite list_lookup_fmap;
    [by rewrite He'|by rewrite Hf'; cbn; rewrite Ef].
Qed.

(** The search loop of [log_write] finds the position. *)
Lemma absorb_index_eq sec T : forall l, 0 <= sec < N ->
  Forall (fun e => 0 <= e.1 < start /\ length e.2 = BSIZE) T ->
  (forall i e, T !! i = Some e -> l !! i = Some e.1) ->
  absorb_index sec l (length T) = log_pos sec T.
Proof.
  unfold log_pos. induction T as [|e T IH]; intros l Hs HF Hl;
    cbn [absorb_index list_find length]; [by destruct l|].
  apply Forall_cons in HF as [[He _] HF].
  pose proof (Hl O e eq_refl) as H0l. destruct l as [|z l]; [done|]. cbn in H0l. simplify_eq.
  cbn [absorb_index].
  rewrite u32_sec by lia. destruct (Z.eqb_spec e.1 sec) as [Ee|Hne].
  - by rewrite decide_True.
  - rewrite decide_False by done. rewrite (IH l Hs HF).
    + cbn. by destruct (list_find _ T) as [[i f]|].
    + intros i f Hf. by apply (Hl (S i)).
Qed.

Lemma put_sector_run (s : lst D) i z : (i < LOGSIZE)%nat ->
  put_sector i z s = Done tt (set_sectors (<[i := z]> (lh_sector s)) s).
Proof. intros Hi. unfold put_sector. by rewrite (proj2 (Nat.ltb_lt _ _)). Qed.

Lemma Tok_absorb T sec x : Tok T -> 0 <= sec < start -> length x = BSIZE ->
  (length T < LOGSIZE)%nat -> Z.of_nat (length T) < nlog - 1 -> Tok (absorb sec x T).
Proof.
  intros (Hnd & HF & H1 & H2) Hs Hx Hl Hn. split_and!.
  - by apply absorb_NoDup.
  - apply Forall_lookup. intros i e He. destruct (absorb_lookup sec x T Hnd) as (_ & H3 & _).
    destruct (H3 _ _ He) as [[_ ->]|(_ & He' & _)]; [done|]. rewrite Forall_lookup in HF. eauto.
  - rewrite length_absorb. case_decide; lia.
  - rewrite length_absorb. case_decide; lia.
Qed.

(** The bookkeeping of [log_write]. *)
Lemma tst_absorb s P m T b x sec s' m' :
  tst s P m T -> 0 <= sec < start -> length x = BSIZE ->
  (length T < LOGSIZE)%nat -> Z.of_nat (length T) < nlog - 1 ->
  let i := log_pos sec T in
  lh_n s' = Z.of_nat (length (absorb sec x T)) -> lh_sector s' = <[i := sec]> (lh_sector s) ->
  lg_busy s' = lg_busy s -> m' = mupd (start + Z.of_nat i + 1) x m ->
  tst s' (<[(dev, sec) := Pin b true true x]> P) m' (absorb sec x T).
Proof.
  intros [A1 A2 A3 A4 A5 A6 A7 A8 A9] Hs Hx Hlt Hlt' i En Es Eb ->.
  pose proof A6 as (Hnd & _). destruct (absorb_lookup sec x T Hnd) as (L1 & L2 & L3 & L4).
  fold i in L1, L2, L3, L4. constructor.
  - done.
  - by rewrite Es, length_insert.
  - intros j e Hj. rewrite Es. destruct (L2 _ _ Hj) as [[-> ->]|(Hne & He & _)].
    + apply list_lookup_insert_eq. lia.
    + rewrite list_lookup_insert_ne by done. eauto.
  - by rewrite Eb.
  - intros j e Hj. destruct (L2 _ _ Hj) as [[-> ->]|(Hne & He & _)].
    + by rewrite mupd_eq.
    + rewrite mupd_ne by lia. eauto.
  - by apply Tok_absorb.
  - intros k p [[<- <-]|[Hk Hp]]%lookup_insert_Some Hd; [by exists i, (sec, x)|].
    destruct (A7 _ _ Hp Hd) as (j & e & Hj & -> & Hb). exists j, e. split_and!; [|done|done].
    apply L3; [done|]. intros ->. assert (e.1 = sec); [|congruence].
    unfold i, log_pos in Hj. destruct (list_find _ T) as [[j' f]|] eqn:E.
    + apply list_find_Some in E as (Hf & <- & _). congruence.
    + apply lookup_lt_Some in Hj. lia.
  - intros j e Hj. destruct (decide (e.1 = sec)) as [->|Hne]; [eexists; by rewrite lookup_insert_eq|].
    rewrite lookup_insert_ne by congruence. destruct (L2 _ _ Hj) as [[_ ->]|(_ & He & _)]; [done|eauto].
  - intros sec' p [[[= <-] _]|[_ Hp]]%lookup_insert_Some; [lia|eauto].
Qed.

(** Copying a held block into an unpinned one: the middle of [log_write]. *)
Lemma log_copy s P m sec k p (cont : unit -> M (lst D) unit) :
  lok s P m -> P !! k = Some p -> k <> (dev, sec) -> 0 <= sec < N -> P !! (dev, sec) = None ->
  (size P < NBUF)%nat -> Phase (mupd sec (p_data p) m) ->
  exists s', (let! lbuf := bio (bread dev sec) in
     let! y := bio (getb (p_idx p)) in
     bio (updb lbuf (set_data (b_data y))) ;!
     bio (bwrite lbuf) ;!
     bio (brelse lbuf) ;! cont tt) s = cont tt s' /\
    same_log s s' /\ lok s' P (mupd sec (p_data p) m).
Proof.
  intros Hl HP Hkne Hlin Hlog Hsz Hph.
  pose proof (brep_lookup _ _ _ _ (lok_rep _ _ _ Hl) HP) as (_ & _ & _ & _ & _ & _ & _ & Hlen & _).
  destruct (lread s P m _ Hl Hlin) as (lb & s2 & E2 & Hs2 & Hl2); [congruence|done|].
  unfold isdirty, view in Hl2. rewrite Hlog in Hl2. run E2.
  assert (HP2 : <[(dev, sec) := Pin lb true false (m sec)]> P !! k = Some p) by (by rewrite lookup_insert_ne).
  destruct (lget _ _ _ _ _ Hl2 HP2) as (y & Ey & _ & Ed). run Ey. rewrite Ed.
  destruct (lset s2 _ m _ _ (p_data p) Hl2 (lookup_insert_eq _ _ _) eq_refl Hlen)
    as (s3 & E3 & Hs3 & Hl3). cbn [p_idx p_dirty] in E3, Hl3. run E3. rewrite insert_insert_eq in Hl3.
  destruct (lwrite s3 _ m _ _ Hl3 (lookup_insert_eq _ _ _) eq_refl Hlin Hph) as (s4 & E4 & Hs4 & Hl4).
  cbn [p_idx p_data] in E4, Hl4. run E4. rewrite insert_insert_eq in Hl4.
  destruct (lrelse s4 _ _ _ _ Hl4 (lookup_insert_eq _ _ _) eq_refl Hlin) as (s5 & E5 & Hs5 & Hl5).
  { intros _. cbn. by rewrite mupd_eq. }
  cbn [p_idx p_dirty] in E5, Hl5. rewrite delete_insert_id in Hl5 by done. run E5.
  exists s5. split; [done|]. split; [by do 3 (eapply same_log_trans; [eassumption|])|done].
Qed.

(** [log_write] of a held block logs its contents and pins it. *)
Lemma log_write_spec s P m T sec p :
  lok s P m -> tst s P m T -> P !! (dev, sec) = Some p -> p_busy p = true -> 0 <= sec < start ->
  (length T < LOGSIZE)%nat -> Z.of_nat (length T) < nlog - 1 -> (size P < NBUF)%nat ->
  let m' := mupd (start + Z.of_nat (log_pos sec T) + 1) (p_data p) m in
  Phase m' ->
  exists s', log_write (p_idx p) s = Done tt s' /\
    lok s' (<[(dev, sec) := Pin (p_idx p) true true (p_data p)]> P) m' /\
    tst s' (<[(dev, sec) := Pin (p_idx p) true true (p_data p)]> P) m' (absorb sec (p_data p) T).
Proof.
  intros Hl Ht HP Hb Hs Hlt Hlt' Hsz m' Hph. set (i := log_pos sec T) in *.
  pose proof (brep_lookup _ _ _ _ (lok_rep _ _ _ Hl) HP) as (_ & _ & _ & _ & _ & _ & _ & Hlen & _).
  pose proof (ts_tok _ _ _ _ Ht) as HT. pose proof HT as (Hnd & HF & _).
  destruct (absorb_lookup sec (p_data p) T Hnd) as (_ & _ & _ & Hi). fold i in Hi.
  assert (Hlin : 0 <= start + Z.of_nat i + 1 < N) by lia.
  assert (Hlog : P !! (dev, start + Z.of_nat i + 1) = None).
  { destruct (P !! (dev, start + Z.of_nat i + 1)) as [q|] eqn:E; [|done]. apply (ts_home _ _ _ _ Ht) in E. lia. }
  assert (Hkne : (dev, sec) <> (dev, start + Z.of_nat i + 1)) by (intros ?; simplify_eq; lia).
  unfold log_write. unfold bind at 1, gets at 1. unfold bind at 1, gets at 1.
  rewrite (ts_n _ _ _ _ Ht), (lok_size _ _ _ Hl).
  destruct (Z.leb_spec (Z.of_nat LOGSIZE) (Z.of_nat (length T))); [lia|].
  destruct (Z.leb_spec (nlog - 1) (Z.of_nat (length T))); [lia|]. cbn [orb].
  unfold bind at 1, gets at 1. rewrite (ts_busy _ _ _ _ Ht). cbn [Z.eqb].
  destruct (lget _ _ _ _ _ Hl HP) as (x & Ex & Ek & _). run Ex.
  unfold key in Ek. injection Ek as Ekd Eks. rewrite Ekd, Eks.
  unfold bind at 1, gets at 1. rewrite Nat2Z.id.
  rewrite (absorb_index_eq sec T) by (try done; try lia; apply (ts_secs _ _ _ _ Ht)). fold i.
  run (put_sector_run s i (s32 sec) ltac:(lia)). rewrite s32_small by lia.
  set (s1 := set_sectors _ s). assert (Hl1 : lok s1 P m) by (by apply lok_sectors).
  unfold bind at 1, gets at 1. rewrite (lok_start _ _ _ Hl1), u32_sec by done.
  destruct (log_copy s1 P m (start + Z.of_nat i + 1) _ p
    (fun _ => when (Z.of_nat i =? Z.of_nat (length T)) (modify (set_n (Z.of_nat (length T) + 1))) ;!
              bio (updb (p_idx p) (add_flag B_DIRTY)))
    Hl1 HP Hkne Hlin Hlog Hsz Hph) as (s5 & E5 & Hs15 & Hl5). rewrite E5. fold m' in Hl5.
  destruct (same_fields _ _ Hs15) as (F1 & F2 & F3).
  set (n' := Z.of_nat (length (absorb sec (p_data p) T))).
  assert (Ew : when (Z.of_nat i =? Z.of_nat (length T)) (modify (set_n (Z.of_nat (length T) + 1))) s5
               = Done tt (set_n n' s5)).
  { subst n'. rewrite length_absorb. fold i. destruct (Z.eqb_spec (Z.of_nat i) (Z.of_nat (length T))).
    - rewrite decide_True by lia. cbn. unfold modify. do 2 f_equal. lia.
    - rewrite decide_False by lia. cbn. unfold ret. f_equal. rewrite Hs15. unfold set_n, s1. cbn.
      by rewrite <- (ts_n _ _ _ _ Ht). }
  run Ew.
  destruct (ldirty (set_n n' s5) P m' (dev, sec) p (lok_n _ _ _ _ Hl5) HP Hb) as (s6 & E6 & Hs6 & Hl6).
  rewrite E6. exists s6. split; [done|]. split; [done|].
  destruct (same_fields _ _ Hs6) as (G1 & G2 & G3).
  apply (tst_absorb s P m T); try done.
  - rewrite G2. cbn. by rewrite F2.
  - rewrite G3. cbn. by rewrite F3.
Qed.

(** *** Commit *)

Lemma tst_suffix_pins s P m T : tst s P m T -> (forall k p, P !! k = Some p -> p_busy p = false) ->
  brep (lbio s) P -> (size P < NBUF)%nat -> suffix_pins T 0 P.
Proof.
  intros Ht Hnb Hr Hsz. split_and!; [| |done].
  - intros k p Hp. split; [eauto|].
    pose proof (brep_lookup _ _ _ _ Hr Hp) as (_ & _ & _ & _ & _ & _ & _ & _ & Hbd).
    rewrite (Hnb _ _ Hp) in Hbd. cbn in Hbd.
    destruct (ts_dirty _ _ _ _ Ht _ _ Hp Hbd) as (i & e & Hi & -> & _). exists i, e. split_and!; [lia|done|done].
  - right. intros i e _ Hi. destruct (ts_pin _ _ _ _ Ht _ _ Hi) as (p & Hp & _). eauto.
Qed.

Lemma PB_commit s P m old T : tst s P m T -> length (m start) = BSIZE ->
  (forall sec, 0 <= sec < start -> m sec = old sec) ->
  PB old T (mupd start (whead (lh_n s) (lh_sector s) (m start) (length T)) m).
Proof.
  intros Ht Hlen Hold. pose proof (ts_tok _ _ _ _ Ht) as HT. pose proof HT as (_ & _ & Hl & Hn).
  split_and!.
  - rewrite mupd_eq, hdr_n_whead; [apply (ts_n _ _ _ _ Ht)|done|done|].
    rewrite (ts_n _ _ _ _ Ht). lia.
  - intros i e Hi. destruct (Tok_entry _ _ _ HT Hi) as (He & _ & Hlt & _).
    assert (Hsec : lh_sector s !!! i = e.1)
      by (apply list_lookup_total_correct, (ts_secs _ _ _ _ Ht), Hi).
    rewrite mupd_eq, (mupd_ne start) by lia. split; [|by apply (ts_log _ _ _ _ Ht)].
    rewrite hdr_sec_whead by (done || lia). done.
  - intros sec Hs. left. rewrite mupd_ne by lia. auto.
Qed.

Lemma unlock_run (s : lst D) z : lg_lock s = false ->
  (Spinlock.acquire lg_lock set_lg_lock ;! modify (set_busy z) ;!
   Spinlock.release lg_lock set_lg_lock) s = Done tt (set_busy z s).
Proof. intros Hk. unfold bind, Spinlock.acquire. rewrite Hk. cbn. destruct s. cbn in *. by subst. Qed.

Lemma commit_spec s P m old T :
  (forall m', PB old T m' -> Phase m') -> (forall m', PA (final old T) m' -> Phase m') ->
  lok s P m -> tst s P m T -> PA old m ->
  (forall k p, P !! k = Some p -> p_busy p = false) -> (size P < NBUF)%nat ->
  exists s' m', commit_trans s = Done tt s' /\ lok s' ∅ m' /\ PA (final old T) m' /\
    lh_n s' = 0 /\ length (lh_sector s') = LOGSIZE /\ lg_busy s' = 0.
Proof.
  intros HPB HPA Hl Ht [Hh0 Hold] Hnb Hsz. pose proof start_in as Hin.
  pose proof (lok_length _ _ _ start Hl Hin) as Hlen. pose proof (ts_tok _ _ _ _ Ht) as HT.
  pose proof (tst_suffix_pins _ _ _ _ Ht Hnb (lok_rep _ _ _ Hl) Hsz) as Hpins.
  unfold commit_trans. unfold bind at 1, gets at 1. rewrite (ts_n _ _ _ _ Ht).
  assert (Hgo : exists s' m',
    when (0 <? Z.of_nat (length T)) (write_head ;! install_trans ;! modify (set_n 0) ;! write_head) s
      = Done tt s' /\ lok s' ∅ m' /\ PA (final old T) m' /\ lh_n s' = 0 /\ length (lh_sector s') = LOGSIZE).
  { destruct (Z.ltb_spec 0 (Z.of_nat (length T))); cbn [when].
    - destruct (write_head_spec s P m (length T) Hl (ts_n _ _ _ _ Ht)) as (s1 & E1 & Hs1 & Hl1);
        [apply HT|apply (ts_len _ _ _ _ Ht)|by apply (suffix_pins_home T 0)|done|done
        |by apply HPB, (PB_commit s P)|].
      run E1. destruct (same_fields _ _ Hs1) as (F1 & F2 & _).
      destruct (install_loop old T (length T) HPB HT s1 P _ 0 Hl1) as (s2 & m2 & E2 & Hs2 & Hl2 & HB2 & Hi2).
      { by apply (PB_commit s P). } { done. } { intros i e Hi. lia. } { done. }
      { rewrite F2. apply (ts_secs _ _ _ _ Ht). }
      unfold bind at 1, install_trans, bind at 1, gets.
      rewrite F1, (ts_n _ _ _ _ Ht). unfold loop_to. rewrite Nat2Z.id, E2.
      destruct (same_fields _ _ Hs2) as (_ & G2 & _). unfold bind at 1, modify.
      destruct (erase_spec (set_n 0 s2) m2 (final old T) HPA) as (s3 & m3 & E3 & Hs3 & Hl3 & HA3).
      { by apply lok_n. } { done. } { cbn. rewrite G2, F2. apply (ts_len _ _ _ _ Ht). }
      { by apply final_installed. }
      destruct (same_fields _ _ Hs3) as (K1 & K2 & _). exists s3, m3. split_and!; try done; [].
      rewrite K2. cbn. rewrite G2, F2. apply (ts_len _ _ _ _ Ht).
    - destruct T; [|cbn [length] in *; lia]. exists s, m. split; [done|].
      assert (HP : P = ∅).
      { apply map_eq. intros k. rewrite lookup_empty. destruct (P !! k) as [p|] eqn:E; [|done].
        destruct Hpins as [Hp _]. by destruct (Hp _ _ E) as (_ & i & e & _ & ? & _). }
      subst P. split; [done|]. split; [done|].
      split; [apply (ts_n _ _ _ _ Ht)|apply (ts_len _ _ _ _ Ht)]. }
  destruct Hgo as (s1 & m1 & E1 & Hl1 & HA1 & N1 & L1). run E1.
  rewrite unlock_run by apply (lok_lock _ _ _ Hl1).
  exists (set_busy 0 s1), m1. split_and!; try done. by apply lok_busy.
Qed.

Lemma begin_spec s P m : lok s P m -> lg_busy s = 0 -> begin_trans s = Done tt (set_busy 1 s).
Proof.
  intros Hl Hb. unfold begin_trans. unfold bind at 1, Spinlock.acquire.
  rewrite (lok_lock _ _ _ Hl). unfold bind at 1, gets. cbn. rewrite Hb. cbn.
  pose proof (lok_lock _ _ _ Hl) as Hk. destruct s. cbn in *. by subst.
Qed.

(** A second transaction waits for the first. *)
Lemma begin_waits s P m : lok s P m -> lg_busy s = 1 -> begin_trans s = Sleep CLog s.
Proof.
  intros Hl Hb. unfold begin_trans. unfold bind at 1, Spinlock.acquire.
  rewrite (lok_lock _ _ _ Hl). unfold bind at 1, gets. cbn. rewrite Hb. cbn.
  pose proof (lok_lock _ _ _ Hl) as Hk. destruct s. cbn in *. by subst.
Qed.

(** *** A whole transaction *)

Lemma size_bound (P : gmap (Z * Z) pin) (l : list Z) :
  (forall k p, P !! k = Some p -> exists z, z ∈ l /\ k = (dev, z)) -> (size P <= length l)%nat.
Proof.
  intros HP. rewrite <- size_dom.
  assert (Hsub : dom P ⊆ list_to_set ((fun z => (dev, z)) <$> l)).
  { intros k Hk. apply elem_of_dom in Hk as [p Hp]. destruct (HP _ _ Hp) as (z & Hz & ->).
    apply elem_of_list_to_set, list_elem_of_fmap. eauto. }
  apply subseteq_size in Hsub. etrans; [exact Hsub|].
  rewrite <- (length_fmap (fun z => (dev, z)) l). apply size_list_to_set_le.
Qed.

(** The limits of the log: room for the next block in the log and, for the log
    block itself, in the cache. *)
Fixpoint fits (T : list (Z * block)) (ws : list (Z * block)) : bool :=
  match ws with
  | [] => true
  | w :: ws' =>
      (length T <? LOGSIZE)%nat && (Z.of_nat (length T) <? nlog - 1) &&
      (length (absorb w.1 w.2 T) <? NBUF)%nat && fits (absorb w.1 w.2 T) ws'
  end.

Definition logged (T ws : list (Z * block)) : list (Z * block) :=
  foldl (fun T w => absorb w.1 w.2 T) T ws.

Lemma tst_size s P m T : tst s P m T -> brep (lbio s) P ->
  (forall k p, P !! k = Some p -> p_busy p = false) -> (size P <= length T)%nat.
Proof.
  intros Ht Hr Hnb. rewrite <- (length_fmap fst T). apply size_bound. intros k p Hp.
  pose proof (brep_lookup _ _ _ _ Hr Hp) as (_ & _ & _ & _ & _ & _ & _ & _ & Hbd).
  rewrite (Hnb _ _ Hp) in Hbd. cbn in Hbd.
  destruct (ts_dirty _ _ _ _ Ht _ _ Hp Hbd) as (i & e & Hi & -> & _).
  exists e.1. split; [|done]. apply list_elem_of_fmap. exists e. split; [done|].
  by eapply list_elem_of_lookup_2.
Qed.

(** Holding a block does not disturb the transaction. *)
Lemma tst_hold s P m T s' sec b x : tst s P m T -> same_log s s' -> sec < start ->
  tst s' (<[(dev, sec) := Pin b true (isdirty P (dev, sec)) x]> P) m T.
Proof.
  intros [A1 A2 A3 A4 A5 A6 A7 A8 A9] Hs Hsec. destruct (same_fields _ _ Hs) as (F1 & F2 & F3).
  constructor; rewrite ?F1, ?F2, ?F3; try done.
  - intros k p [[<- <-]|[Hk Hp]]%lookup_insert_Some Hd; [|eauto]. cbn in *. unfold isdirty in Hd.
    destruct (P !! (dev, sec)) as [p|] eqn:Ep; [|done].
    destruct (A7 _ _ Ep Hd) as (i & e & Hi & E & _). by exists i, e.
  - intros i e Hi. destruct (A8 _ _ Hi) as (p & Hp & Hd).
    destruct (decide (e.1 = sec)) as [<-|]; [|rewrite lookup_insert_ne by congruence; eauto].
    rewrite lookup_insert_eq. eexists. split; [done|]. cbn. unfold isdirty. by rewrite Hp.
  - intros sec' p [[[= <-] _]|[_ Hp]]%lookup_insert_Some; [done|eauto].
Qed.

Lemma tst_set s P m T s' sec b x y dirty : 
  tst s (<[(dev, sec) := Pin b true dirty x]> P) m T -> same_log s s' ->
  tst s' (<[(dev, sec) := Pin b true dirty y]> P) m T.
Proof.
  intros [A1 A2 A3 A4 A5 A6 A7 A8 A9] Hs. destruct (same_fields _ _ Hs) as (F1 & F2 & F3).
  constructor; rewrite ?F1, ?F2, ?F3; try done.
  - intros k p [[<- <-]|[Hk Hp]]%lookup_insert_Some Hd.
    + destruct (A7 _ _ (lookup_insert_eq _ _ _) Hd) as (i & e & Hi & E & _). by exists i, e.
    + apply (A7 k p); [by rewrite lookup_insert_ne|done].
  - intros i e Hi. destruct (A8 _ _ Hi) as (p & Hp & Hd).
    destruct (decide (e.1 = sec)) as [<-|].
    + rewrite lookup_insert_eq in Hp |- *. simplify_eq. eauto.
    + rewrite lookup_insert_ne in Hp |- * by congruence. eauto.
  - intros sec' p [[[= <-] _]|[? Hp]]%lookup_insert_Some.
    + by apply (A9 sec (Pin b true dirty x)), lookup_insert_eq.
    + apply (A9 sec' p). by rewrite lookup_insert_ne.
Qed.

Lemma tst_release s P m T s' sec b x : tst s (<[(dev, sec) := Pin b true true x]> P) m T ->
  same_log s s' -> (forall i e, T !! i = Some e -> e.1 = sec -> e.2 = x) ->
  tst s' (<[(dev, sec) := Pin b false true x]> P) m T.
Proof.
  intros [A1 A2 A3 A4 A5 A6 A7 A8 A9] Hs Hx. destruct (same_fields _ _ Hs) as (F1 & F2 & F3).
  constructor; rewrite ?F1, ?F2, ?F3; try done.
  - intros k p [[<- <-]|[Hk Hp]]%lookup_insert_Some Hd.
    + destruct (A7 _ _ (lookup_insert_eq _ _ _) Hd) as (i & e & Hi & E & _).
      exists i, e. split_and!; [done|done|]. intros _. symmetry. apply (Hx i); [done|]. by simplify_eq.
    + apply (A7 k p); [by rewrite lookup_insert_ne|done].
  - intros i e Hi. destruct (A8 _ _ Hi) as (p & Hp & Hd).
    destruct (decide (e.1 = sec)) as [<-|].
    + rewrite lookup_insert_eq in Hp |- *. simplify_eq. eauto.
    + rewrite lookup_insert_ne in Hp |- * by congruence. eauto.
  - intros sec' p [[[= <-] _]|[? Hp]]%lookup_insert_Some.
    + by apply (A9 sec (Pin b true true x)), lookup_insert_eq.
    + apply (A9 sec' p). by rewrite lookup_insert_ne.
Qed.

Lemma PA_log old m sec x : PA old m -> start < sec -> PA old (mupd sec x m).
Proof.
  intros [H1 H2] Hs. split; [by rewrite mupd_ne by lia|].
  intros sec' Hs'. rewrite mupd_ne by lia. auto.
Qed.

(** With one more block held, no more blocks are pinned than will be logged. *)
Lemma hold_size s P m T sec x q : tst s P m T -> brep (lbio s) P ->
  (forall k p, P !! k = Some p -> p_busy p = false) ->
  (size (<[(dev, sec) := q]> P) <= length (absorb sec x T))%nat.
Proof.
  intros Ht Hr Hnb. pose proof (ts_tok _ _ _ _ Ht) as (Hnd & _).
  destruct (absorb_lookup sec x T Hnd) as (L1 & _ & L3 & _).
  rewrite <- (length_fmap fst). apply size_bound. intros k p [[<- <-]|[Hk Hp]]%lookup_insert_Some.
  - exists sec. split; [|done]. apply list_elem_of_fmap. exists (sec, x). split; [done|].
    by eapply list_elem_of_lookup_2.
  - pose proof (brep_lookup _ _ _ _ Hr Hp) as (_ & _ & _ & _ & _ & _ & _ & _ & Hbd).
    rewrite (Hnb _ _ Hp) in Hbd. cbn in Hbd.
    destruct (ts_dirty _ _ _ _ Ht _ _ Hp Hbd) as (i & e & Hi & -> & _).
    exists e.1. split; [|done]. apply list_elem_of_fmap. exists e. split; [done|].
    eapply list_elem_of_lookup_2. apply L3; [exact Hi|]. intros ->.
    apply Hk. f_equal. unfold log_pos in Hi. destruct (list_find _ T) as [[j' f]|] eqn:E.
    + apply list_find_Some in E as (Hf & <- & _). congruence.
    + apply lookup_lt_Some in Hi. lia.
Qed.

(** One update inside a transaction. *)
Lemma update1_spec s P m T old w :
  (forall m', PA old m' -> Phase m') ->
  lok s P m -> tst s P m T -> PA old m -> (forall k p, P !! k = Some p -> p_busy p = false) ->
  0 <= w.1 < start -> length w.2 = BSIZE ->
  (length T < LOGSIZE)%nat -> Z.of_nat (length T) < nlog - 1 ->
  (length (absorb w.1 w.2 T) < NBUF)%nat ->
  exists s' P' m', update1 w s = Done tt s' /\ lok s' P' m' /\ tst s' P' m' (absorb w.1 w.2 T) /\
    PA old m' /\ (forall k p, P' !! k = Some p -> p_busy p = false).
Proof.
  intros HPA Hl Ht HA Hnb Hs Hx H1 H2 H3. destruct w as [sec x]. cbn [fst snd] in *.
  pose proof (ts_tok _ _ _ _ Ht) as (Hnd & _).
  destruct (absorb_lookup sec x T Hnd) as (L1 & L2 & L3 & L4).
  assert (Hle : (length T <= length (absorb sec x T))%nat) by (rewrite length_absorb; case_decide; lia).
  pose proof (tst_size _ _ _ _ Ht (lok_rep _ _ _ Hl) Hnb) as Hsz.
  unfold update1. cbn [fst snd]. change ROOTDEV with dev.
  destruct (lread s P m sec Hl ltac:(lia)) as (b & s1 & E1 & Hs1 & Hl1); [eauto|lia|]. run E1.
  pose proof (tst_hold _ _ _ _ _ sec b (view P m sec) Ht Hs1 ltac:(lia)) as Ht1.
  destruct (lset s1 _ m _ _ x Hl1 (lookup_insert_eq _ _ _) eq_refl Hx) as (s2 & E2 & Hs2 & Hl2).
  cbn [p_idx p_dirty] in E2, Hl2. rewrite insert_insert_eq in Hl2. run E2.
  pose proof (tst_set _ _ _ _ _ _ _ _ x _ Ht1 Hs2) as Ht2.
  set (P2 := <[(dev, sec) := Pin b true (isdirty P (dev, sec)) x]> P) in *.
  assert (Hsz2 : (size P2 < NBUF)%nat) by (eapply Nat.le_lt_trans; [exact (hold_size _ _ _ _ sec x _ Ht (lok_rep _ _ _ Hl) Hnb)|exact H3]).
  destruct (log_write_spec s2 P2 m T sec (Pin b true (isdirty P (dev, sec)) x) Hl2 Ht2
    (lookup_insert_eq _ _ _) eq_refl Hs H1 H2 Hsz2) as (s3 & E3 & Hl3 & Ht3).
  { apply HPA, PA_log; [done|lia]. }
  cbn [p_idx p_data] in E3, Hl3, Ht3. unfold P2 in Hl3, Ht3. rewrite insert_insert_eq in Hl3, Ht3. run E3.
  destruct (lrelse s3 _ _ sec _ Hl3 (lookup_insert_eq _ _ _) eq_refl ltac:(lia)) as (s4 & E4 & Hs4 & Hl4);
    [done|]. cbn [p_idx p_dirty p_data] in E4, Hl4. rewrite insert_insert_eq in Hl4.
  eexists s4, _, _. split; [exact E4|]. split; [exact Hl4|].
  split; [|split; [apply PA_log; [done|lia]|]].
  - apply (tst_release s3); [done|done|]. intros i e Hi He.
    destruct (L2 _ _ Hi) as [[_ ->]|(_ & _ & ?)]; [done|done].
  - intros k p [[<- <-]|[_ Hp]]%lookup_insert_Some; [done|eauto].
Qed.

Lemma updates_spec old ws : (forall m', PA old m' -> Phase m') ->
  Forall (fun w => 0 <= w.1 < start /\ length w.2 = BSIZE) ws ->
  forall s P m T, lok s P m -> tst s P m T -> PA old m ->
  (forall k p, P !! k = Some p -> p_busy p = false) -> fits T ws = true -> (length T < NBUF)%nat ->
  exists s' P' m', forM ws update1 s = Done tt s' /\ lok s' P' m' /\ tst s' P' m' (logged T ws) /\
    PA old m' /\ (forall k p, P' !! k = Some p -> p_busy p = false) /\ (size P' < NBUF)%nat.
Proof.
  intros HPA HF. induction HF as [|w ws [Hw Hx] _ IH]; intros s P m T Hl Ht HA Hnb Hfit Hlen; cbn [forM].
  - exists s, P, m. split_and!; try done; [apply HA..|].
    pose proof (tst_size _ _ _ _ Ht (lok_rep _ _ _ Hl) Hnb). lia.
  - cbn [fits] in Hfit. rewrite !andb_true_iff, !Nat.ltb_lt, Z.ltb_lt in Hfit.
    destruct Hfit as [[[F1 F2] F3] F4].
    destruct (update1_spec s P m T old w HPA Hl Ht HA Hnb Hw Hx F1 F2 F3)
      as (s1 & P1 & m1 & E1 & Hl1 & Ht1 & HA1 & Hnb1).
    run E1. by apply (IH s1 P1 m1).
Qed.

(** A transaction of a quiescent log runs to completion and installs its writes. *)
Lemma transaction_spec s m old ws :
  (forall m', PA old m' -> Phase m') -> (forall m', PB old (logged [] ws) m' -> Phase m') ->
  (forall m', PA (final old (logged [] ws)) m' -> Phase m') ->
  Forall (fun w => 0 <= w.1 < start /\ length w.2 = BSIZE) ws -> fits [] ws = true ->
  lok s ∅ m -> PA old m -> lh_n s = 0 -> length (lh_sector s) = LOGSIZE -> lg_busy s = 0 ->
  exists s' m', transaction ws s = Done tt s' /\ lok s' ∅ m' /\ PA (final old (logged [] ws)) m' /\
    lh_n s' = 0 /\ length (lh_sector s') = LOGSIZE /\ lg_busy s' = 0.
Proof.
  intros HPA HPB HPC HF Hfit Hl HA Hn Hlen Hb. unfold transaction.
  run (begin_spec s ∅ m Hl Hb).
  destruct (updates_spec old ws HPA HF (set_busy 1 s) ∅ m []) as (s1 & P1 & m1 & E1 & Hl1 & Ht1 & HA1 & Hnb1 & Hsz1).
  { by apply lok_busy. }
  { constructor; try done; apply Tok_nil. }
  { done. } { by intros ? ?. } { done. } { cbn. unfold NBUF. lia. }
  run E1. by apply (commit_spec s1 P1 m1).
Qed.

End Proofs.
(** ** Crash safety *)

(** The effect of the updates of a transaction on the contents of the device. *)
Definition writes (ws : list (Z * block)) (m : Z -> block) : Z -> block :=
  foldl (fun m w => mupd w.1 w.2 m) m ws.

Lemma writes_ext ws f g sec : (forall sec, f sec = g sec) -> writes ws f sec = writes ws g sec.
Proof.
  revert f g. induction ws as [|w ws IH]; intros f g E; [apply E|]. cbn. apply IH.
  intros sec'. unfold mupd. case_decide; [done|apply E].
Qed.

Lemma list_find_snoc {A} (P : A -> Prop) `{forall x, Decision (P x)} l y :
  list_find P (l ++ [y]) =
    match list_find P l with
    | Some r => Some r
    | None => if decide (P y) then Some (length l, y) else None
    end.
Proof.
  induction l as [|x l IH]; cbn; [done|]. destruct (decide (P x)); [done|]. rewrite IH.
  destruct (list_find P l) as [[i z]|]; [done|]. by destruct (decide (P y)).
Qed.

Lemma final_absorb old T sec x sec' :
  final old (absorb sec x T) sec' = mupd sec x (final old T) sec'.
Proof.
  unfold final, absorb. destruct (list_find (fun e => e.1 = sec) T) as [[i e]|] eqn:E.
  - apply list_find_Some in E as (He & Hsec & Hfirst).
    pose proof (lookup_lt_Some _ _ _ He) as Hlt. destruct (decide (sec' = sec)) as [->|Hne].
    + rewrite mupd_eq. replace (list_find _ (<[i := (sec, x)]> T)) with (Some (i, (sec, x))); [done|].
      symmetry. apply list_find_Some. split_and!; [by apply list_lookup_insert_eq|done|].
      intros j f Hj Hlj. rewrite list_lookup_insert_ne in Hj by lia. eauto.
    + rewrite mupd_ne by done. destruct (list_find (fun e => e.1 = sec') T) as [[j f]|] eqn:E2.
      * apply list_find_Some in E2 as (Hf & Hs' & Hfst).
        replace (list_find _ (<[i := (sec, x)]> T)) with (Some (j, f)); [done|]. symmetry.
        apply list_find_Some. assert (j <> i) by (intros ->; congruence).
        split_and!; [by rewrite list_lookup_insert_ne by lia|done|]. intros k g Hk Hlk.
        destruct (decide (k = i)) as [->|]; [rewrite list_lookup_insert_eq in Hk by done; naive_solver|].
        rewrite list_lookup_insert_ne in Hk by done. eauto.
      * replace (list_find _ (<[i := (sec, x)]> T)) with (@None (nat * (Z * block))); [done|]. symmetry.
        apply list_find_None. rewrite list_find_None in E2. apply Forall_lookup. intros k g Hk.
        rewrite Forall_lookup in E2. destruct (decide (k = i)) as [->|].
        -- rewrite list_lookup_insert_eq in Hk by done. by simplify_eq.
        -- rewrite list_lookup_insert_ne in Hk by done. eauto.
  - rewrite list_find_snoc. destruct (decide (sec' = sec)) as [->|Hne].
    + rewrite E, mupd_eq. cbn. by rewrite decide_True.
    + rewrite mupd_ne by done. destruct (list_find (fun e => e.1 = sec') T) as [[j f]|]; [done|].
      cbn. by rewrite decide_False.
Qed.

Lemma final_logged old ws : forall T sec, final old (logged T ws) sec = writes ws (final old T) sec.
Proof.
  induction ws as [|w ws IH]; intros T sec; [done|]. cbn. rewrite IH. apply writes_ext.
  intros sec'. apply final_absorb.
Qed.

(** The two refusals of [log_write], on any state. *)
Lemma log_write_panics {D} `{DiskDriver D} (s : lst D) b :
  (Z.of_nat LOGSIZE <= lh_n s \/ lg_size s - 1 <= lh_n s -> log_write b s = Panic "too big a transaction") /\
  (lh_n s < Z.of_nat LOGSIZE -> lh_n s < lg_size s - 1 -> lg_busy s = 0 ->
   log_write b s = Panic "write outside of trans").
Proof.
  unfold log_write, bind, gets.
  destruct (Z.leb_spec (Z.of_nat LOGSIZE) (lh_n s)), (Z.leb_spec (lg_size s - 1) (lh_n s)); cbn [orb];
    (split; [intros Hl; try done; lia|intros Hn Hn' Hb; try lia]). by rewrite Hb.
Qed.

(** The log that mkfs makes has [LOGSIZE] blocks including the header, so a
    transaction that has logged [LOGSIZE - 1] blocks cannot log again, not even
    a block that is already in the log. *)
Lemma log_write_full {D} `{DiskDriver D} (s : lst D) b :
  lg_size s = Z.of_nat LOGSIZE -> lh_n s = Z.of_nat LOGSIZE - 1 ->
  log_write b s = Panic "too big a transaction".
Proof. intros H1 H2. apply log_write_panics. lia. Qed.

Section Crash.
Context {D : Type} `{DS : DiskSpec D}.
Import Traced.

(** A device of [N] blocks whose last [nlog] are the log, its contents [m0] with
    the log erased, and the updates [ws] of a transaction. *)
Context (N start nlog : Z) (m0 : Z -> block) (ws : list (Z * block)).
Context (Hregion : 2 <= start /\ start + nlog = N /\ N < 2 ^ 31 /\ 2 <= nlog).
Context (Hsb : sb_size (sb_dec (m0 1)) = N /\ sb_nlog (sb_dec (m0 1)) = nlog).
Context (Hempty : hdr_n (m0 start) = 0).
Context (Hws : Forall (fun w => 2 <= w.1 < start /\ length w.2 = BSIZE) ws).
Context (Hfit : fits nlog [] ws = true).

Let T := logged [] ws.

Definition Phase0 (m : Z -> block) : Prop :=
  PA start m0 m \/ PB start m0 T m \/ PA start (final m0 T) m.

(** A disk from which a reboot can restore a consistent state. *)
Definition recoverable (d : D) : Prop := exists m, contents N d m /\ Phase0 m.

Lemma recoverable_deq d d' : deq d d' -> recoverable d -> recoverable d'.
Proof. intros Hd (m & Hm & Hp). exists m. split; [|done]. by apply (contents_deq N d). Qed.

#[local] Instance crash_ghost : DiskGhost (traced D) (always recoverable) (write_keeps recoverable) :=
  traced_ghost recoverable recoverable_deq.

Lemma crash_HW (t : traced D) m sec x : contents N t m -> 0 <= sec < N ->
  Phase0 (mupd sec x m) -> write_keeps recoverable (dev, sec) x t.
Proof.
  intros Hm Hs Hp d' Hd. exists (mupd sec x m). split; [|done].
  by apply (contents_dupd N (now t)).
Qed.

Lemma boot_lok d m : contents N d m -> Phase0 m ->
  lok (always recoverable) N start nlog (set_region start nlog dev (boot (Tr d []))) ∅ m.
Proof.
  intros Hm Hp. constructor; [apply (binit_spec (Tr d []))| |exact Hm|reflexivity..].
  constructor; [by exists m|constructor].
Qed.

Lemma ws_home : Forall (fun w => 0 <= w.1 < start /\ length w.2 = BSIZE) ws.
Proof. eapply Forall_impl; [exact Hws|]. cbn. intros w [? ?]. split; [lia|done]. Qed.

Lemma logged_sectors l T0 e : e ∈ logged T0 l -> e ∈ T0 \/ e ∈ l.
Proof.
  revert T0. induction l as [|w l IH]; intros T0 He; [auto|]. cbn in He.
  destruct (IH _ He) as [Ha|]; [|set_solver]. unfold absorb in Ha.
  destruct (list_find _ T0) as [[i f]|].
  - apply list_elem_of_lookup in Ha as [k Hk]. apply list_lookup_insert_Some in Hk as [(_ & <- & _)|[_ Hk]].
    + right. rewrite <- surjective_pairing. set_solver.
    + left. by eapply list_elem_of_lookup_2.
  - apply elem_of_app in Ha as [|Ha]; [auto|]. apply list_elem_of_singleton in Ha as ->.
    right. rewrite <- surjective_pairing. set_solver.
Qed.

(** No phase changes the super block. *)
Lemma sb_kept m : Phase0 m -> m 1 = m0 1.
Proof.
  assert (Hno : forall x, (1, x) ∉ T).
  { intros x Hx. unfold T in Hx. apply logged_sectors in Hx as [Hx|Hx]; [set_solver|].
    rewrite Forall_forall in Hws. apply Hws in Hx as [? _]. cbn in *. lia. }
  intros [[_ H1]|[(_ & _ & H3)|[_ H1]]].
  - apply H1. lia.
  - destruct (H3 1) as [|Hx]; [lia|done|by apply Hno in Hx].
  - rewrite H1 by lia. unfold final. destruct (list_find _ T) as [[i [z x]]|] eqn:E; [|done].
    apply list_find_Some in E as (He & Hz & _). cbn in Hz. subst z.
    apply list_elem_of_lookup_2, Hno in He. done.
Qed.

Lemma Tok_logged l : forall T0, Tok start nlog T0 ->
  Forall (fun w => 0 <= w.1 < start /\ length w.2 = BSIZE) l -> fits nlog T0 l = true ->
  Tok start nlog (logged T0 l).
Proof.
  induction l as [|w l IH]; intros T0 HT HF Hf; [done|]. apply Forall_cons in HF as [[Hw Hx] HF].
  cbn [fits] in Hf. rewrite !andb_true_iff, !Nat.ltb_lt, Z.ltb_lt in Hf. destruct Hf as [[[F1 F2] F3] F4].
  cbn. apply IH; [|done|done]. by apply (Tok_absorb N).
Qed.

(** The contents of the blocks outside the log. *)
Definition home_is (d : D) (c : Z -> block) : Prop :=
  forall sec, 0 <= sec < start -> dread d dev sec = c sec.

Lemma home_PA d m c : contents N d m -> PA start c m -> home_is d c.
Proof. intros [_ Hm] [_ Hc] sec Hs. rewrite Hm by lia. auto. Qed.

Lemma final_T sec : final m0 T sec = writes ws m0 sec.
Proof. unfold T. by rewrite final_logged. Qed.

(** Booting from a recoverable disk. *)
Lemma reboot_old d m : contents N d m -> PA start m0 m ->
  exists s m', initlog (boot (Tr d [])) = Done tt s /\
    lok (always recoverable) N start nlog s ∅ m' /\ PA start m0 m' /\
    lh_n s = 0 /\ length (lh_sector s) = LOGSIZE /\ lg_busy s = 0.
Proof.
  intros Hm HA. assert (Hp : Phase0 m) by (by left).
  destruct Hsb as [Hs1 Hs2].
  refine (initlog_spec (always recoverable) (write_keeps recoverable) N start nlog Hregion Phase0 crash_HW
    (boot (Tr d [])) m m0 [] _ _ _ _ _ _ _ _).
  - intros m' HB. left. exact (proj2 (PB_PA _ _ _) HB).
  - intros m' HB. by left.
  - by apply boot_lok.
  - by apply (Tok_nil N).
  - exact (proj1 (PB_PA _ _ _) HA).
  - done.
  - by rewrite (sb_kept m).
  - by rewrite (sb_kept m).
Qed.

Lemma reboot_new d m : contents N d m -> PB start m0 T m \/ PA start (final m0 T) m ->
  exists s m', initlog (boot (Tr d [])) = Done tt s /\
    lok (always recoverable) N start nlog s ∅ m' /\ PA start (final m0 T) m' /\
    lh_n s = 0 /\ length (lh_sector s) = LOGSIZE /\ lg_busy s = 0.
Proof.
  intros Hm HA. assert (Hp : Phase0 m) by (right; tauto). destruct Hsb as [Hs1 Hs2].
  pose proof (Tok_logged ws [] (Tok_nil N start nlog Hregion) ws_home Hfit) as HT. fold T in HT.
  destruct HA as [HB|HA].
  - refine (initlog_spec (always recoverable) (write_keeps recoverable) N start nlog Hregion Phase0 crash_HW
      (boot (Tr d [])) m m0 T _ _ _ HT HB eq_refl _ _).
    + intros m' HB'. right. by left.
    + intros m' HB'. right. by right.
    + by apply boot_lok.
    + by rewrite (sb_kept m).
    + by rewrite (sb_kept m).
  - refine (initlog_spec (always recoverable) (write_keeps recoverable) N start nlog Hregion Phase0 crash_HW
      (boot (Tr d [])) m (final m0 T) [] _ _ _ _ _ _ _ _).
    + intros m' HB. right. right. exact (proj2 (PB_PA _ _ _) HB).
    + intros m' HB. right. by right.
    + by apply boot_lok.
    + by apply (Tok_nil N).
    + exact (proj1 (PB_PA _ _ _) HA).
    + done.
    + by rewrite (sb_kept m).
    + by rewrite (sb_kept m).
Qed.

(** A reboot from [d] that crashes again, leaving [d']. *)
Definition reboot (d d' : D) : Prop :=
  exists s, initlog (boot (Tr d [])) = Done tt s /\ d' ∈ crash_points (dsk (lbio s)).

Lemma reboot_cases d : recoverable d ->
  exists s, initlog (boot (Tr d [])) = Done tt s /\
    (home_is (now (dsk (lbio s))) m0 \/ home_is (now (dsk (lbio s))) (writes ws m0)) /\
    Forall recoverable (crash_points (dsk (lbio s))).
Proof.
  intros (m & Hm & Hp).
  assert (Hgo : exists s m', initlog (boot (Tr d [])) = Done tt s /\
    lok (always recoverable) N start nlog s ∅ m' /\ (PA start m0 m' \/ PA start (final m0 T) m')).
  { destruct Hp as [HA|HB].
    - destruct (reboot_old d m Hm HA) as (s & m' & E & Hl & HA' & _). eauto 10.
    - destruct (reboot_new d m Hm HB) as (s & m' & E & Hl & HA' & _). eauto 10. }
  destruct Hgo as (s & m' & E & Hl & HA). exists s. split_and!; [done| |apply (lok_I _ _ _ _ _ _ _ Hl)].
  pose proof (lok_m _ _ _ _ _ _ _ Hl) as Hm'. destruct HA as [HA|HA].
  - left. by apply (home_PA _ m').
  - right. intros sec Hs. rewrite <- final_T. by apply (home_PA _ m').
Qed.

Lemma recoverable_reboot d d' : recoverable d -> rtc reboot d d' -> recoverable d'.
Proof.
  intros Hd. induction 1 as [|d d1 d2 (s & E & Hin) _ IH]; [done|]. apply IH.
  destruct (reboot_cases d Hd) as (s' & E' & _ & HF). rewrite E in E'. injection E' as <-.
  rewrite Forall_forall in HF. by apply HF.
Qed.

(** C1: crash safety of transactions.  On any disk whose log is erased, booting and
    running a transaction of whole-block updates that fits the log completes and
    leaves exactly its updates on the disk.  If the machine stops at any point
    between two sector writes, and then again at any points of any number of
    recoveries, the next boot completes and finds either every block as before
    the transaction or every block as the transaction left it. *)
Theorem crash_safety d0 : contents N d0 m0 ->
  exists s, (initlog ;! transaction ws) (boot (Tr d0 [])) = Done tt s /\
    home_is (now (dsk (lbio s))) (writes ws m0) /\
    (forall d d', d ∈ crash_points (dsk (lbio s)) -> rtc reboot d d' ->
       exists s', initlog (boot (Tr d' [])) = Done tt s' /\
         (home_is (now (dsk (lbio s'))) m0 \/ home_is (now (dsk (lbio s'))) (writes ws m0))).
Proof.
  intros Hm. assert (HA0 : PA start m0 m0) by done.
  destruct (reboot_old d0 m0 Hm HA0) as (s0 & m1 & E0 & Hl0 & HA1 & N0 & L0 & B0).
  destruct (transaction_spec (always recoverable) (write_keeps recoverable) N start nlog Hregion Phase0
    crash_HW s0 m1 m0 ws (fun _ H' => or_introl H') (fun _ H' => or_intror (or_introl H'))
    (fun _ H' => or_intror (or_intror H')) ws_home Hfit Hl0 HA1 N0 L0 B0) as (s & m2 & E & Hl & HA & _).
  exists s. split; [run E0; exact E|]. split.
  - intros sec Hs. rewrite <- final_T.
    exact (home_PA _ m2 _ (lok_m _ _ _ _ _ _ _ Hl) HA sec Hs).
  - intros d d' Hd Hr. pose proof (lok_I _ _ _ _ _ _ _ Hl) as HI. unfold always in HI.
    rewrite Forall_forall in HI. apply HI in Hd.
    destruct (reboot_cases d' (recoverable_reboot _ _ Hd Hr)) as (s' & E' & Hc & _).
    exists s'. exact (conj E' Hc).
Qed.

End Crash.

(** A disk of 14 blocks with 10 log blocks, and a transaction that writes two
    blocks, one of them twice. *)
Definition demo_sb : block :=
  le_enc 4 14 ++ le_enc 4 2 ++ le_enc 4 0 ++ le_enc 4 10 ++ replicate 496 0.
Definition demo_disk : Memide.memdisk :=
  Memide.ideinit (replicate 512 0 ++ demo_sb ++ replicate (12 * 512) 0).
Definition demo_ws : list (Z * block) :=
  [(2, replicate 512 7); (3, replicate 512 9); (2, replicate 512 8)].

Lemma crash_safety_witness :
  let m0 := fun sec => dread demo_disk dev sec in
  exists s, (initlog ;! transaction demo_ws) (boot (Traced.Tr demo_disk [])) = Done tt s /\
    home_is 4 (Traced.now (dsk (lbio s))) (writes demo_ws m0).
Proof.
  cbv zeta. edestruct (crash_safety 14 4 10 (fun sec => dread demo_disk dev sec) demo_ws)
    as (s & E & Hh & _); [lia|by vm_compute|by vm_compute| |by vm_compute| |exists s; split; [exact E|exact Hh]].
  - repeat constructor; cbn; lia.
  - split; [|done]. intros sec Hs. split; [done|]. split; [exact Hs|]. split; vm_compute; discriminate.
Defined.

End Log.
