(* ===== verification/KString.v ===== *)
(** * Memory and string functions of the kernel (kernel/string.c)

    Memory is a map from addresses to bytes; objects do not wrap around the end
    of the address space.  A loop over a counter is recursion on the counter; a
    loop that stops at a NUL byte takes fuel and the theorems show how much is
    enough. *)

From stdpp Require Import functions.
From S2P Require Import Prelude.

Definition mem := Z -> Z.

(** The bytes at [s], and the NUL-terminated string at [s]. *)
Definition bytes_at (m : mem) (s : Z) (l : list Z) : Prop :=
  forall i z, l !! i = Some z -> m (s + Z.of_nat i) = z.

Definition cstr (m : mem) (s : Z) (l : list Z) : Prop :=
  bytes_at m s l /\ Forall (fun z => 0 < z < 256) l /\ m (s + Z.of_nat (length l)) = 0.

(** [m'] is [m] with the [n] bytes from [d] on replaced by [f]. *)
Definition stored (d : Z) (n : nat) (f : Z -> Z) (m m' : mem) : Prop :=
  forall a, m' a = if (d <=? a) && (a <? d + Z.of_nat n) then f (a - d) else m a.

Module KString.

(** x86.h: [rep stosb] and [rep stosl]. *)
Fixpoint stosb (addr data : Z) (cnt : nat) (m : mem) : mem :=
  match cnt with
  | O => m
  | S cnt' => stosb (addr + 1) data cnt' (<[addr := u8 data]> m)
  end.

Definition store32 (addr data : Z) (m : mem) : mem :=
  <[addr + 3 := u8 (Z.shiftr data 24)]>
  (<[addr + 2 := u8 (Z.shiftr data 16)]>
  (<[addr + 1 := u8 (Z.shiftr data 8)]>
  (<[addr := u8 data]> m))).

Fixpoint stosl (addr data : Z) (cnt : nat) (m : mem) : mem :=
  match cnt with
  | O => m
  | S cnt' => stosl (addr + 4) data cnt' (store32 addr data m)
  end.

Definition memset (dst c : Z) (n : nat) (m : mem) : mem :=
  if (Z.rem (s32 dst) 4 =? 0) && (Z.of_nat n mod 4 =? 0) then
    let c := Z.land c 255 in
    stosl dst (u32 (Z.lor (Z.lor (Z.lor (Z.shiftl c 24) (Z.shiftl c 16)) (Z.shiftl c 8)) c))
      (n / 4)%nat m
  else stosb dst c n m.

Fixpoint memcmp (v1 v2 : Z) (n : nat) (m : mem) : Z :=
  match n with
  | O => 0
  | S n' => if negb (m v1 =? m v2) then m v1 - m v2 else memcmp (v1 + 1) (v2 + 1) n' m
  end.

(** The two copy loops; [copy_down] takes the ends of the objects. *)
Fixpoint copy_up (d s : Z) (n : nat) (m : mem) : mem :=
  match n with
  | O => m
  | S n' => copy_up (d + 1) (s + 1) n' (<[d := m s]> m)
  end.

Fixpoint copy_down (d s : Z) (n : nat) (m : mem) : mem :=
  match n with
  | O => m
  | S n' => copy_down (d - 1) (s - 1) n' (<[d - 1 := m (s - 1)]> m)
  end.

Definition memmove (dst src : Z) (n : nat) (m : mem) : mem :=
  if (src <? dst) && (dst <? src + Z.of_nat n)
  then copy_down (dst + Z.of_nat n) (src + Z.of_nat n) n m
  else copy_up dst src n m.

Definition memcpy (dst src : Z) (n : nat) (m : mem) : mem := memmove dst src n m.

Fixpoint strncmp (p q : Z) (n : nat) (m : mem) : Z :=
  match n with
  | O => 0
  | S n' =>
      if negb (m p =? 0) && (m p =? m q) then strncmp (p + 1) (q + 1) n' m
      else m p - m q
  end.

Fixpoint zero_fill (s : Z) (n : nat) (m : mem) : mem :=
  match n with O => m | S n' => zero_fill (s + 1) n' (<[s := 0]> m) end.

(** The copy loop of [strncpy] and, after the NUL, the padding loop. *)
Fixpoint strncpy (s t : Z) (n : nat) (m : mem) : mem :=
  match n with
  | O => m
  | S n' =>
      let c := m t in
      let m := <[s := c]> m in
      if c =? 0 then zero_fill (s + 1) n' m else strncpy (s + 1) (t + 1) n' m
  end.

(** [safestrcpy]'s loop runs while [--n > 0]; [k] is [n - 1]. *)
Fixpoint safe_loop (s t : Z) (k : nat) (m : mem) : mem :=
  match k with
  | O => <[s := 0]> m
  | S k' =>
      let c := m t in
      let m := <[s := c]> m in
      if c =? 0 then <[s + 1 := 0]> m else safe_loop (s + 1) (t + 1) k' m
  end.

Definition safestrcpy (s t : Z) (n : Z) (m : mem) : mem :=
  if n <=? 0 then m else safe_loop s t (Z.to_nat (n - 1)) m.

Fixpoint strlen_from (fuel : nat) (s n : Z) (m : mem) : option Z :=
  match fuel with
  | O => None
  | S fuel' => if m (s + n) =? 0 then Some n else strlen_from fuel' s (n + 1) m
  end.

Definition strlen (fuel : nat) (s : Z) (m : mem) : option Z := strlen_from fuel s 0 m.

(** ** Filling *)

Lemma stored_0 d f m : stored d 0 f m m.
Proof. intros a. destruct (Z.leb_spec d a), (Z.ltb_spec a (d + Z.of_nat 0)); cbn; try done; lia. Qed.

(** Case analysis on whether an address is in a stored range. *)
Ltac in_range := repeat match goal with
  | |- context [?x <=? ?y] => destruct (Z.leb_spec x y)
  | |- context [?x <? ?y] => destruct (Z.ltb_spec x y)
  | |- context [?x =? ?y] => destruct (Z.eqb_spec x y)
  end; cbn [andb orb negb]; try lia.

Lemma insert_at (m : mem) a v b : <[a := v]> m b = if decide (a = b) then v else m b.
Proof. case_decide as E; [subst; apply fn_lookup_insert|by apply fn_lookup_insert_ne]. Qed.

(** Storing one byte and then the rest. *)
Lemma stored_cons d n f g v m m' : stored (d + 1) n g (<[d := v]> m) m' ->
  f 0 = v -> (forall i, 0 <= i < Z.of_nat n -> f (i + 1) = g i) -> stored d (S n) f m m'.
Proof.
  intros H0 Hv Hf a. rewrite H0, insert_at. case_decide as E.
  - subst a. in_range. by rewrite Z.sub_diag.
  - in_range; try done. rewrite <- Hf by lia. f_equal. lia.
Qed.

Lemma stosb_stored d c n m : stored d n (fun _ => u8 c) m (stosb d c n m).
Proof.
  revert d m. induction n as [|n IH]; intros d m; cbn [stosb]; [apply stored_0|].
  by eapply (stored_cons d n _ (fun _ => u8 c)).
Qed.

Lemma zero_fill_stored d n m : stored d n (fun _ => 0) m (zero_fill d n m).
Proof.
  revert d m. induction n as [|n IH]; intros d m; cbn [zero_fill]; [apply stored_0|].
  by eapply (stored_cons d n _ (fun _ => 0)).
Qed.

(** The word [memset] stores has the byte four times. *)
Definition fill_word (c : Z) : Z :=
  u32 (Z.lor (Z.lor (Z.lor (Z.shiftl c 24) (Z.shiftl c 16)) (Z.shiftl c 8)) c).

Lemma fill_word_bytes c : 0 <= c < 256 ->
  u8 (fill_word c) = c /\ u8 (Z.shiftr (fill_word c) 8) = c /\
  u8 (Z.shiftr (fill_word c) 16) = c /\ u8 (Z.shiftr (fill_word c) 24) = c.
Proof.
  intros Hc. pose (ok := fun c => (u8 (fill_word c) =? c) && (u8 (Z.shiftr (fill_word c) 8) =? c) &&
    (u8 (Z.shiftr (fill_word c) 16) =? c) && (u8 (Z.shiftr (fill_word c) 24) =? c)).
  assert (Hall : forallb ok (seqZ 0 256) = true) by (vm_compute; reflexivity).
  rewrite forallb_forall in Hall. specialize (Hall c). rewrite <- list_elem_of_In, elem_of_seqZ in Hall.
  specialize (Hall ltac:(lia)). unfold ok in Hall. rewrite !andb_true_iff, !Z.eqb_eq in Hall. tauto.
Qed.

Lemma stosl_stored d c n m : 0 <= c < 256 -> stored d (4 * n) (fun _ => c) m (stosl d (fill_word c) n m).
Proof.
  intros Hc. destruct (fill_word_bytes c Hc) as (B0 & B1 & B2 & B3).
  revert d m. induction n as [|n IH]; intros d m; cbn [stosl]; [apply stored_0|].
  intros a. rewrite IH. unfold store32. rewrite B0, B1, B2, B3, !insert_at.
  repeat case_decide; in_range; done.
Qed.

(** [memset] stores the low byte of [c] in every byte of the range and nothing
    else, on the word path as on the byte path. *)
Lemma memset_spec d c n m : stored d n (fun _ => u8 c) m (memset d c n m).
Proof.
  unfold memset. destruct (Z.rem (s32 d) 4 =? 0), (Z.eqb_spec (Z.of_nat n mod 4) 0) as [E|];
    cbn [andb]; try apply stosb_stored.
  assert (Hc : Z.land c 255 = u8 c) by (by change 255 with (Z.ones 8); rewrite Z.land_ones).
  cbv zeta. rewrite Hc. fold (fill_word (u8 c)).
  assert (En : n = (4 * (n / 4))%nat).
  { pose proof (Nat.div_mod_eq n 4). pose proof (Nat2Z.inj_mod n 4) as Hm.
    change (Z.of_nat 4) with 4 in Hm. lia. }
  rewrite En at 1. apply stosl_stored. unfold u8. apply Z.mod_pos_bound. lia.
Qed.

(** ** Moving *)

Lemma copy_up_stored d s n m : (d <= s \/ s + Z.of_nat n <= d) ->
  stored d n (fun i => m (s + i)) m (copy_up d s n m).
Proof.
  revert d s m. induction n as [|n IH]; intros d s m Hd; cbn [copy_up]; [apply stored_0|].
  eapply (stored_cons d n _ (fun i => (<[d := m s]> m) (s + 1 + i))).
  - apply IH. lia.
  - by rewrite Z.add_0_r.
  - intros i Hi. rewrite insert_at, decide_False by lia. f_equal. lia.
Qed.

Lemma copy_down_stored d s n m : (s <= d \/ d + Z.of_nat n <= s) ->
  stored d n (fun i => m (s + i)) m (copy_down (d + Z.of_nat n) (s + Z.of_nat n) n m).
Proof.
  revert m. induction n as [|n IH]; intros m Hd; cbn [copy_down]; [apply stored_0|].
  replace (d + Z.of_nat (S n) - 1) with (d + Z.of_nat n) by lia.
  replace (s + Z.of_nat (S n) - 1) with (s + Z.of_nat n) by lia.
  intros a. rewrite IH by lia. rewrite !insert_at. in_range; repeat case_decide; try done; try lia.
  - subst a. f_equal. lia.
Qed.

(** [memmove] copies the original contents of the source to the destination
    and changes nothing else, whether the objects are disjoint or overlap in
    either direction. *)
Lemma memmove_spec d s n m : stored d n (fun i => m (s + i)) m (memmove d s n m).
Proof.
  unfold memmove. destruct (Z.ltb_spec s d), (Z.ltb_spec d (s + Z.of_nat n)); cbn [andb];
    first [apply copy_down_stored; lia|apply copy_up_stored; lia].
Qed.

(** ** Comparing *)

(** [memcmp] returns the difference of the first bytes that differ, or 0. *)
Lemma memcmp_spec a b n m :
  (memcmp a b n m = 0 /\ forall i, 0 <= i < Z.of_nat n -> m (a + i) = m (b + i)) \/
  (exists k, 0 <= k < Z.of_nat n /\ m (a + k) <> m (b + k) /\ memcmp a b n m = m (a + k) - m (b + k) /\
     forall i, 0 <= i < k -> m (a + i) = m (b + i)).
Proof.
  revert a b. induction n as [|n IH]; intros a b; cbn [memcmp]; [left; split; [done|lia]|].
  destruct (Z.eqb_spec (m a) (m b)) as [E|E]; cbn [negb].
  - destruct (IH (a + 1) (b + 1)) as [[-> Hi]|(k & Hk & Hne & -> & Hi)].
    + left. split; [done|]. intros i Hi'. destruct (Z.eq_dec i 0) as [->|]; [by rewrite !Z.add_0_r|].
      specialize (Hi (i - 1) ltac:(lia)). replace (a + 1 + (i - 1)) with (a + i) in Hi by lia.
      by replace (b + 1 + (i - 1)) with (b + i) in Hi by lia.
    + right. exists (k + 1). replace (a + (k + 1)) with (a + 1 + k) by lia.
      replace (b + (k + 1)) with (b + 1 + k) by lia. split_and!; try done; try lia.
      intros i Hi'. destruct (Z.eq_dec i 0) as [->|]; [by rewrite !Z.add_0_r|].
      specialize (Hi (i - 1) ltac:(lia)). replace (a + 1 + (i - 1)) with (a + i) in Hi by lia.
      by replace (b + 1 + (i - 1)) with (b + i) in Hi by lia.
  - right. exists 0. rewrite !Z.add_0_r. split_and!; try done; lia.
Qed.

Lemma bytes_at_cons m s z l : bytes_at m s (z :: l) <-> m s = z /\ bytes_at m (s + 1) l.
Proof.
  split.
  - intros Hb. split; [specialize (Hb O z eq_refl); by rewrite Z.add_0_r in Hb|].
    intros i y Hi. specialize (Hb (S i) y Hi). rewrite <- Hb. f_equal. lia.
  - intros [H0 Hb] [|i] y Hi; [simplify_eq/=; by rewrite Z.add_0_r|].
    specialize (Hb i y Hi). rewrite <- Hb. f_equal. lia.
Qed.

Lemma cstr_nil m s : cstr m s [] -> m s = 0.
Proof. intros (_ & _ & H0). by rewrite Z.add_0_r in H0. Qed.

Lemma cstr_cons m s z l : cstr m s (z :: l) -> m s = z /\ 0 < z < 256 /\ cstr m (s + 1) l.
Proof.
  intros (Hb & HF & H0). apply bytes_at_cons in Hb as [H1 Hb]. apply Forall_cons in HF as [Hz HF].
  split_and!; try done; try lia. split_and!; try done. rewrite <- H0. f_equal. cbn [length]. lia.
Qed.

Lemma strlen_spec fuel m s l : cstr m s l -> (length l < fuel)%nat ->
  strlen fuel s m = Some (Z.of_nat (length l)).
Proof.
  intros Hc Hf. unfold strlen.
  assert (Hgo : forall k n, length l = (k + n)%nat -> (n < fuel)%nat ->
    strlen_from fuel s (Z.of_nat k) m = Some (Z.of_nat (length l))); [|apply (Hgo 0%nat (length l)); lia].
  destruct Hc as (Hb & HF & H0). clear Hf. induction fuel as [|fuel IH]; intros k n Hn Hf; [lia|].
  cbn [strlen_from]. destruct n as [|n].
  - replace k with (length l) by lia. by rewrite H0.
  - destruct (lookup_lt_is_Some_2 l k ltac:(lia)) as [z Hz]. rewrite (Hb _ _ Hz).
    rewrite Forall_lookup in HF. specialize (HF _ _ Hz). destruct (Z.eqb_spec z 0); [lia|].
    replace (Z.of_nat k + 1) with (Z.of_nat (S k)) by lia. apply (IH (S k) n); lia.
Qed.

(** [strncmp] is 0 exactly when the strings agree on their first [n] bytes. *)
Lemma strncmp_zero p q n m la lb : cstr m p la -> cstr m q lb ->
  strncmp p q n m = 0 <-> take n la = take n lb.
Proof.
  revert p q la lb. induction n as [|n IH]; intros p q la lb Ha Hb; cbn [strncmp]; [done|].
  destruct la as [|x la].
  - apply cstr_nil in Ha. rewrite Ha. cbn [Z.eqb negb andb]. destruct lb as [|y lb].
    + apply cstr_nil in Hb. rewrite Hb. done.
    + apply cstr_cons in Hb as (Hy & Hr & _). rewrite Hy. split; [lia|done].
  - apply cstr_cons in Ha as (Hx & Hrx & Ha). rewrite Hx. destruct (Z.eqb_spec x 0); [lia|].
    cbn [negb andb]. destruct lb as [|y lb].
    + apply cstr_nil in Hb. rewrite Hb. destruct (Z.eqb_spec x 0); [lia|]. split; [lia|done].
    + apply cstr_cons in Hb as (Hy & Hry & Hb). rewrite Hy. destruct (Z.eqb_spec x y) as [->|Hne].
      * rewrite (IH _ _ _ _ Ha Hb). cbn. split; congruence.
      * split; [lia|]. cbn. congruence.
Qed.

(** ** Bounded string copies *)

(** Byte [i] of a string padded with NULs. *)
Definition padded (l : list Z) (i : Z) : Z := nth (Z.to_nat i) l 0.

Lemma padded_cons z l i : 0 <= i -> padded (z :: l) (i + 1) = padded l i.
Proof. intros. unfold padded. replace (Z.to_nat (i + 1)) with (S (Z.to_nat i)) by lia. done. Qed.

(** Storing a byte outside a string does not change the string. *)
Lemma cstr_insert m s l a v : cstr m s l -> (a < s \/ s + Z.of_nat (length l) < a) ->
  cstr (<[a := v]> m) s l.
Proof.
  intros (Hb & HF & H0) Ha. split_and!; [|done|].
  - intros i z Hi. rewrite insert_at. pose proof (lookup_lt_Some _ _ _ Hi).
    rewrite decide_False by lia. by apply Hb.
  - rewrite insert_at, decide_False by lia. done.
Qed.

(** [strncpy] copies the string and pads the rest of the [n] bytes with NULs. *)
Lemma strncpy_spec s t n m l : cstr m t l ->
  (s + Z.of_nat n <= t \/ t + Z.of_nat (length l) < s) ->
  stored s n (padded l) m (strncpy s t n m).
Proof.
  revert s t m l. induction n as [|n IH]; intros s t m l Hc Hd; cbn [strncpy]; [apply stored_0|].
  destruct l as [|z l].
  - rewrite (cstr_nil _ _ Hc). cbn [Z.eqb].
    eapply (stored_cons s n _ (fun _ => 0)); [apply zero_fill_stored|done|].
    intros i Hi. unfold padded. by destruct (Z.to_nat (i + 1)).
  - pose proof (cstr_cons _ _ _ _ Hc) as (Hz & Hr & Hc'). rewrite Hz. cbn [length] in Hd.
    destruct (Z.eqb_spec z 0); [lia|].
    apply (stored_cons s n _ (padded l) z); [|done|].
    + subst z. apply IH; [|lia]. apply cstr_insert; [done|lia].
    + intros i Hi. apply padded_cons. lia.
Qed.

Lemma safe_loop_spec s t k m l : cstr m t l ->
  (s + Z.of_nat k < t \/ t + Z.of_nat (length l) < s) ->
  (forall i, 0 <= i <= Z.of_nat (min k (length l)) -> safe_loop s t k m (s + i) = padded (take k l) i) /\
  (forall a, (a < s \/ s + Z.of_nat k < a) -> safe_loop s t k m a = m a).
Proof.
  revert s t m l. induction k as [|k IH]; intros s t m l Hc Hd; cbn [safe_loop].
  - split; intros; rewrite insert_at; [rewrite decide_True by lia; by replace i with 0 by lia|].
    by rewrite decide_False by lia.
  - destruct l as [|z l].
    + rewrite (cstr_nil _ _ Hc). cbn [Z.eqb]. split; intros.
      * cbn in *. replace i with 0 by lia. rewrite !insert_at, decide_False, decide_True by lia. done.
      * rewrite !insert_at, !decide_False by lia. done.
    + pose proof (cstr_cons _ _ _ _ Hc) as (Hz & Hr & Hc'). rewrite Hz. cbn [length] in Hd.
      destruct (Z.eqb_spec z 0); [lia|].
      destruct (IH (s + 1) (t + 1) (<[s := z]> m) l) as [H1 H2]; [apply cstr_insert; [done|lia]|lia|].
      split.
      * intros i Hi. destruct (Z.eq_dec i 0) as [->|].
        -- rewrite H2 by lia. rewrite insert_at, decide_True by lia. done.
        -- replace (s + i) with (s + 1 + (i - 1)) by lia. rewrite H1 by (cbn [length] in Hi; lia).
           cbn [take]. replace i with (i - 1 + 1) at 2 by lia. by rewrite padded_cons by lia.
      * intros a Ha. rewrite H2 by lia. rewrite insert_at, decide_False by lia. done.
Qed.

(** [safestrcpy] always leaves a NUL-terminated string in the [n] bytes it
    may write: the longest prefix of the source of less than [n] bytes; no byte
    outside those [n] changes, and for [n <= 0] none at all. *)
Theorem safestrcpy_spec s t n m l : cstr m t l ->
  (s + n <= t \/ t + Z.of_nat (length l) < s) ->
  (0 < n -> cstr (safestrcpy s t n m) s (take (Z.to_nat (n - 1)) l)) /\
  (forall a, (a < s \/ s + n <= a) -> safestrcpy s t n m a = m a).
Proof.
  intros Hc Hd. unfold safestrcpy. destruct (Z.leb_spec n 0); [by split; [lia|]|].
  destruct (safe_loop_spec s t (Z.to_nat (n - 1)) m l Hc) as [H1 H2]; [lia|].
  split; [|intros a Ha; apply H2; lia]. intros _. set (k := Z.to_nat (n - 1)) in *.
  destruct Hc as (_ & HF & _). split_and!.
  - intros i z Hi. pose proof (lookup_lt_Some _ _ _ Hi) as Hlt. rewrite length_take in Hlt.
    rewrite H1 by lia. unfold padded. rewrite Nat2Z.id. by apply nth_lookup_Some.
  - by apply Forall_take.
  - rewrite length_take. rewrite H1 by lia. unfold padded. rewrite Nat2Z.id.
    apply nth_overflow. rewrite length_take. lia.
Qed.

Definition hello : mem := fun a => match a with 100 => 104 | 101 => 105 | 102 => 33 | _ => 0 end.

Lemma safestrcpy_witness : cstr (safestrcpy 0 100 3 hello) 0 [104; 105].
Proof.
  refine (proj1 (safestrcpy_spec 0 100 3 hello [104; 105; 33] _ _) _); [|lia|lia].
  split_and!; [|repeat constructor; lia|reflexivity].
  intros i z Hi. do 3 (destruct i as [|i]; [cbn in Hi; injection Hi as <-; reflexivity|]). discriminate Hi.
Defined.

End KString.
