(* ===== verification/LString.v ===== *)
(** * The C library's string functions (libc/string.c)

    Same memory as KString.v.  A pointer result is [Some address], NULL is
    [None]; functions whose loops stop at a NUL byte take fuel and return
    [option] of their result, [None] meaning that the fuel ran out. *)

From stdpp Require Import functions.
From S2P Require Import Prelude KString.

Module LString.
Import KString.

Fixpoint memchr (s c : Z) (n : nat) (m : mem) : option Z :=
  match n with
  | O => None
  | S n' => if m s =? u8 c then Some s else memchr (s + 1) c n' m
  end.

Fixpoint memcmp (s1 s2 : Z) (n : nat) (m : mem) : Z :=
  match n with
  | O => 0
  | S n' => if negb (m s1 =? m s2) then m s1 - m s2 else memcmp (s1 + 1) (s2 + 1) n' m
  end.

(** The copies go upwards, or downwards from the ends, [n] times. *)
Definition memcpy (s1 s2 : Z) (n : nat) (m : mem) : mem := copy_up s1 s2 n m.

Definition memmove (s1 s2 : Z) (n : nat) (m : mem) : mem :=
  if s1 <=? s2 then copy_up s1 s2 n m
  else copy_down (s1 + Z.of_nat n) (s2 + Z.of_nat n) n m.

Fixpoint memset (s c : Z) (n : nat) (m : mem) : mem :=
  match n with O => m | S n' => memset (s + 1) c n' (<[s := u8 c]> m) end.

(** [while (( *s1++ = *s2++));] *)
Fixpoint strcpy (fuel : nat) (s1 s2 : Z) (m : mem) : option mem :=
  match fuel with
  | O => None
  | S fuel' =>
      let c := m s2 in
      let m := <[s1 := c]> m in
      if c =? 0 then Some m else strcpy fuel' (s1 + 1) (s2 + 1) m
  end.

(** The address of the first NUL at or after [s]. *)
Fixpoint find_nul (fuel : nat) (s : Z) (m : mem) : option Z :=
  match fuel with
  | O => None
  | S fuel' => if m s =? 0 then Some s else find_nul fuel' (s + 1) m
  end.

Definition strcat (fuel : nat) (s1 s2 : Z) (m : mem) : option mem :=
  e ← find_nul fuel s1 m; strcpy fuel e s2 m.

Fixpoint strchr (fuel : nat) (s c : Z) (m : mem) : option (option Z) :=
  match fuel with
  | O => None
  | S fuel' =>
      if m s =? u8 c then Some (Some s)
      else if m s =? 0 then Some None
      else strchr fuel' (s + 1) c m
  end.

Fixpoint strcmp (fuel : nat) (s1 s2 : Z) (m : mem) : option Z :=
  match fuel with
  | O => None
  | S fuel' =>
      if negb (m s1 =? 0) && (m s1 =? m s2) then strcmp fuel' (s1 + 1) (s2 + 1) m
      else Some (m s1 - m s2)
  end.

(** [p = s2; while ( *p) if (c == *p++) found]: is [c] in the string at [p]? *)
Fixpoint member (fuel : nat) (c p : Z) (m : mem) : option bool :=
  match fuel with
  | O => None
  | S fuel' =>
      if m p =? 0 then Some false
      else if c =? m p then Some true
      else member fuel' c (p + 1) m
  end.

(** The outer loop of [strspn] ([want = true]) and [strcspn] ([want = false]). *)
Fixpoint span (fuel fuel2 : nat) (want : bool) (s1 s2 len : Z) (m : mem) : option Z :=
  match fuel with
  | O => None
  | S fuel' =>
      if m (s1 + len) =? 0 then Some len
      else
        b ← member fuel2 (m (s1 + len)) s2 m;
        if Bool.eqb b want then span fuel' fuel2 want s1 s2 (len + 1) m else Some len
  end.

Definition strspn (fuel : nat) (s1 s2 : Z) (m : mem) : option Z := span fuel fuel true s1 s2 0 m.
Definition strcspn (fuel : nat) (s1 s2 : Z) (m : mem) : option Z := span fuel fuel false s1 s2 0 m.

Fixpoint strpbrk (fuel fuel2 : nat) (p1 s2 : Z) (m : mem) : option (option Z) :=
  match fuel with
  | O => None
  | S fuel' =>
      if m p1 =? 0 then Some None
      else
        b ← member fuel2 (m p1) s2 m;
        if b : bool then Some (Some p1) else strpbrk fuel' fuel2 (p1 + 1) s2 m
  end.

Fixpoint strlen_loop (fuel : nat) (s rc : Z) (m : mem) : option Z :=
  match fuel with
  | O => None
  | S fuel' => if m (s + rc) =? 0 then Some rc else strlen_loop fuel' s (rc + 1) m
  end.

Definition strlen (fuel : nat) (s : Z) (m : mem) : option Z := strlen_loop fuel s 0 m.

Fixpoint strnlen_loop (k : nat) (s len : Z) (m : mem) : Z :=
  match k with
  | O => len
  | S k' => if m (s + len) =? 0 then len else strnlen_loop k' s (len + 1) m
  end.

Definition strnlen (s : Z) (maxlen : nat) (m : mem) : Z := strnlen_loop maxlen s 0 m.

(** [while (n && ( *s1++ = *s2++)) --n; if (n == 0) *s1 = 0;] *)
Fixpoint strncat_loop (n : nat) (s1 s2 : Z) (m : mem) : mem :=
  match n with
  | O => <[s1 := 0]> m
  | S n' =>
      let c := m s2 in
      let m := <[s1 := c]> m in
      if c =? 0 then m else strncat_loop n' (s1 + 1) (s2 + 1) m
  end.

Definition strncat (fuel : nat) (s1 s2 : Z) (n : nat) (m : mem) : option mem :=
  e ← find_nul fuel s1 m; Some (strncat_loop n e s2 m).

Fixpoint strncmp (s1 s2 : Z) (n : nat) (m : mem) : Z :=
  match n with
  | O => 0
  | S n' =>
      if negb (m s1 =? 0) && (m s1 =? m s2) then strncmp (s1 + 1) (s2 + 1) n' m
      else m s1 - m s2
  end.

Fixpoint strncpy (s1 s2 : Z) (n : nat) (m : mem) : mem :=
  match n with
  | O => m
  | S n' =>
      let c := m s2 in
      let m := <[s1 := c]> m in
      if c =? 0 then zero_fill (s1 + 1) n' m else strncpy (s1 + 1) (s2 + 1) n' m
  end.

(** The backward loop of [strrchr], from [s + i] down to [s]. *)
Fixpoint rscan (i : nat) (s c : Z) (m : mem) : option Z :=
  if m (s + Z.of_nat i) =? u8 c then Some (s + Z.of_nat i)
  else match i with O => None | S i' => rscan i' s c m end.

Definition strrchr (fuel : nat) (s c : Z) (m : mem) : option (option Z) :=
  e ← find_nul fuel s m; Some (rscan (Z.to_nat (e - s)) s c m).

(** [while ( *p2 && ( *p1 == *p2)) ++p1, ++p2;]: does [p2] end there? *)
Fixpoint prefix_at (fuel : nat) (p1 p2 : Z) (m : mem) : option bool :=
  match fuel with
  | O => None
  | S fuel' =>
      if m p2 =? 0 then Some true
      else if m p1 =? m p2 then prefix_at fuel' (p1 + 1) (p2 + 1) m
      else Some false
  end.

Fixpoint strstr (fuel fuel2 : nat) (s1 s2 : Z) (m : mem) : option (option Z) :=
  match fuel with
  | O => None
  | S fuel' =>
      if m s1 =? 0 then Some None
      else
        b ← prefix_at fuel2 s1 s2 m;
        if b : bool then Some (Some s1) else strstr fuel' fuel2 (s1 + 1) s2 m
  end.

(** [strtok]: the two scanning loops, then the function on its static [tmp]. *)
Fixpoint skip_delims (fuel : nat) (s1 s2 p : Z) (m : mem) : option Z :=
  match fuel with
  | O => None
  | S fuel' =>
      if (m p =? 0) || (m s1 =? 0) then Some s1
      else if m s1 =? m p then skip_delims fuel' (s1 + 1) s2 s2 m
      else skip_delims fuel' s1 s2 (p + 1) m
  end.

Fixpoint token_end (fuel fuel2 : nat) (tmp s2 : Z) (m : mem) : option (option Z) :=
  match fuel with
  | O => None
  | S fuel' =>
      if m tmp =? 0 then Some None
      else
        b ← member fuel2 (m tmp) s2 m;
        if b : bool then Some (Some tmp) else token_end fuel' fuel2 (tmp + 1) s2 m
  end.

(** Result, the new [tmp], and memory. *)
Definition strtok (fuel : nat) (tmp : option Z) (s1 : option Z) (s2 : Z) (m : mem)
    : option (option Z * option Z * mem) :=
  match (match s1 with Some s => Some s | None => tmp end) with
  | None => Some (None, tmp, m)
  | Some s =>
      s ← skip_delims fuel s s2 s2 m;
      if m s =? 0 then Some (None, None, m)
      else
        e ← token_end fuel fuel s s2 m;
        match e with
        | Some e => Some (Some s, Some (e + 1), <[e := 0]> m)
        | None => Some (Some s, None, m)
        end
  end.

(** ** Strings as lists *)

(** [l] up to its first byte with [f], and from that byte on. *)
Fixpoint before (f : Z -> bool) (l : list Z) : list Z :=
  match l with [] => [] | z :: l' => if f z then [] else z :: before f l' end.

Fixpoint from (f : Z -> bool) (l : list Z) : list Z :=
  match l with [] => [] | z :: l' => if f z then l else from f l' end.

Lemma before_from f l : before f l ++ from f l = l.
Proof. induction l as [|z l IH]; cbn; [done|]. destruct (f z); cbn; congruence. Qed.

Lemma from_head f l z l' : from f l = z :: l' -> f z = true.
Proof. induction l as [|y l IH]; cbn; [done|]. destruct (f y) eqn:E; [congruence|auto]. Qed.

Lemma length_before_from f l : (length (before f l) + length (from f l) = length l)%nat.
Proof. by rewrite <- length_app, before_from. Qed.

Definition has (d : list Z) (c : Z) : bool := existsb (Z.eqb c) d.

Lemma cstr_app m s l l' : cstr m s (l ++ l') -> cstr m (s + Z.of_nat (length l)) l'.
Proof.
  revert s. induction l as [|z l IH]; intros s Hc; cbn [length].
  - by rewrite Z.add_0_r.
  - apply cstr_cons in Hc as (_ & _ & Hc). apply IH in Hc. by replace (s + Z.of_nat (S (length l)))
      with (s + 1 + Z.of_nat (length l)) by lia.
Qed.

Lemma find_nul_spec fuel m s l : cstr m s l -> (length l < fuel)%nat ->
  find_nul fuel s m = Some (s + Z.of_nat (length l)).
Proof.
  revert s l. induction fuel as [|fuel IH]; intros s l Hc Hf; [lia|]. cbn [find_nul]. destruct l as [|z l].
  - by rewrite (cstr_nil _ _ Hc), Z.add_0_r.
  - apply cstr_cons in Hc as (-> & Hz & Hc). destruct (Z.eqb_spec z 0); [lia|].
    cbn [length] in *. rewrite (IH _ l Hc) by lia. f_equal. lia.
Qed.

Lemma member_spec fuel c m p d : cstr m p d -> (length d < fuel)%nat ->
  member fuel c p m = Some (has d c).
Proof.
  revert p d. induction fuel as [|fuel IH]; intros p d Hc Hf; [lia|]. cbn [member]. destruct d as [|z d].
  - by rewrite (cstr_nil _ _ Hc).
  - apply cstr_cons in Hc as (-> & Hz & Hc). destruct (Z.eqb_spec z 0); [lia|].
    cbn [length has existsb] in *. destruct (Z.eqb_spec c z); [done|]. apply IH; [done|lia].
Qed.

(** ** Searching *)

Lemma strchr_spec fuel m s l c : cstr m s l -> (length l < fuel)%nat ->
  strchr fuel s c m = Some (if has (l ++ [0]) (u8 c)
                            then Some (s + Z.of_nat (length (before (Z.eqb (u8 c)) l))) else None).
Proof.
  revert s l. induction fuel as [|fuel IH]; intros s l Hc Hf; [lia|]. cbn [strchr]. destruct l as [|z l].
  - rewrite (cstr_nil _ _ Hc). cbn [app has existsb before length]. rewrite (Z.eqb_sym (u8 c)).
    destruct (0 =? u8 c); cbn [orb]; [by rewrite Z.add_0_r|done].
  - apply cstr_cons in Hc as (-> & Hz & Hc). cbn [before has existsb app length] in *.
    rewrite (Z.eqb_sym (u8 c)). destruct (z =? u8 c); cbn; [by rewrite Z.add_0_r|].
    destruct (Z.eqb_spec z 0); [lia|]. rewrite (IH _ l Hc) by lia. unfold has.
    destruct (existsb _ _); [|done]. do 2 f_equal. lia.
Qed.

Lemma rscan_spec i s c m :
  match rscan i s c m with
  | Some a => exists k, (k <= i)%nat /\ a = s + Z.of_nat k /\ m a = u8 c /\
                forall j, (k < j <= i)%nat -> m (s + Z.of_nat j) <> u8 c
  | None => forall j, (j <= i)%nat -> m (s + Z.of_nat j) <> u8 c
  end.
Proof.
  induction i as [|i IH]; cbn [rscan];
    match goal with |- context [m ?a =? u8 c] => destruct (Z.eqb_spec (m a) (u8 c)) as [E|E] end;
    try (eexists; split_and!; [reflexivity|done|done|lia]).
  - intros j Hj. by replace j with 0%nat by lia.
  - destruct (rscan i s c m) as [a|].
    + destruct IH as (k & Hk & Ha & Hm & Hj). exists k. split_and!; try done; [lia|].
      intros j Hj'. destruct (decide (j = S i)) as [->|]; [done|]. apply Hj. lia.
    + intros j Hj. destruct (decide (j = S i)) as [->|]; [done|]. apply IH. lia.
Qed.

(** [strrchr] finds the last occurrence, the terminating NUL included. *)
Lemma strrchr_spec fuel m s l c : cstr m s l -> (length l < fuel)%nat ->
  exists r, strrchr fuel s c m = Some r /\
  match r with
  | Some a => exists k, (l ++ [0]) !! k = Some (u8 c) /\ a = s + Z.of_nat k /\
                forall j, (k < j)%nat -> (l ++ [0]) !! j <> Some (u8 c)
  | None => u8 c ∉ l ++ [0]
  end.
Proof.
  intros Hc Hf. unfold strrchr. rewrite (find_nul_spec _ _ _ _ Hc Hf). cbn [mbind option_bind].
  replace (Z.to_nat (s + Z.of_nat (length l) - s)) with (length l) by lia.
  eexists. split; [reflexivity|]. pose proof (rscan_spec (length l) s c m) as Hr.
  assert (Hat : forall j z, (l ++ [0]) !! j = Some z -> m (s + Z.of_nat j) = z).
  { destruct Hc as (Hb & _ & H0). intros j z [?|[? Hz]]%lookup_app_Some; [by apply Hb|].
    apply list_lookup_singleton_Some in Hz as [? <-]. by replace j with (length l) by lia. }
  assert (Hlt : forall j z, (l ++ [0]) !! j = Some z -> (j <= length l)%nat).
  { intros j z Hj%lookup_lt_Some. rewrite length_app in Hj. cbn in Hj. lia. }
  destruct (rscan (length l) s c m) as [a|].
  - destruct Hr as (k & Hk & -> & Hm & Hj). exists k. split_and!; [|done|].
    + destruct (lookup_lt_is_Some_2 (l ++ [0]) k) as [z Hz]; [rewrite length_app; cbn; lia|].
      by rewrite Hz, <- Hm, (Hat _ _ Hz).
    + intros j Hlj He. apply (Hj j); [split; [done|by eapply Hlt]|by apply Hat].
  - intros [j Hj]%list_elem_of_lookup. apply (Hr j); [by eapply Hlt|by apply Hat].
Qed.

Lemma span_spec fuel fuel2 want m s1 s2 l d n : cstr m (s1 + n) l -> cstr m s2 d ->
  (length l < fuel)%nat -> (length d < fuel2)%nat ->
  span fuel fuel2 want s1 s2 n m =
    Some (n + Z.of_nat (length (before (fun c => negb (Bool.eqb (has d c) want)) l))).
Proof.
  revert n l. induction fuel as [|fuel IH]; intros n l Hc Hd Hf Hf2; [lia|]. cbn [span].
  destruct l as [|z l].
  - by rewrite (cstr_nil _ _ Hc), Z.add_0_r.
  - apply cstr_cons in Hc as (-> & Hz & Hc). destruct (Z.eqb_spec z 0); [lia|].
    rewrite (member_spec _ _ _ _ _ Hd Hf2). cbn [mbind option_bind before].
    destruct (Bool.eqb (has d z) want); cbn [negb length] in *; [|f_equal; lia].
    rewrite (IH (n + 1) l); [f_equal; lia| |done|lia|done]. by rewrite Z.add_assoc.
Qed.

(** [strspn] and [strcspn] return the length of the longest prefix made of
    bytes in, respectively not in, the second string. *)
Lemma strspn_strcspn_spec fuel m s1 s2 l d : cstr m s1 l -> cstr m s2 d ->
  (length l < fuel)%nat -> (length d < fuel)%nat ->
  strspn fuel s1 s2 m = Some (Z.of_nat (length (before (fun c => negb (has d c)) l))) /\
  strcspn fuel s1 s2 m = Some (Z.of_nat (length (before (has d) l))).
Proof.
  intros Hl Hd Hf Hf2. unfold strspn, strcspn.
  rewrite !(span_spec _ _ _ _ _ _ l d) by (done || by rewrite Z.add_0_r). rewrite !Z.add_0_l.
  assert (Hext : forall f g : Z -> bool, (forall c, f c = g c) -> before f l = before g l).
  { intros f g Hfg. clear -Hfg. induction l as [|z l IH]; cbn; [done|]. by rewrite Hfg, IH. }
  split; do 3 f_equal; apply Hext; intros c; by destruct (has d c).
Qed.

Lemma prefix_at_spec fuel m p1 p2 l1 l2 : cstr m p1 l1 -> cstr m p2 l2 -> (length l2 < fuel)%nat ->
  prefix_at fuel p1 p2 m = Some (bool_decide (l2 `prefix_of` l1)).
Proof.
  revert p1 p2 l1 l2. induction fuel as [|fuel IH]; intros p1 p2 l1 l2 H1 H2 Hf; [lia|].
  cbn [prefix_at]. destruct l2 as [|y l2].
  - rewrite (cstr_nil _ _ H2). cbn. by rewrite bool_decide_eq_true_2 by apply prefix_nil.
  - apply cstr_cons in H2 as (-> & Hy & H2). destruct (Z.eqb_spec y 0); [lia|].
    cbn [length] in Hf. destruct l1 as [|x l1].
    + rewrite (cstr_nil _ _ H1). destruct (Z.eqb_spec 0 y); [lia|].
      by rewrite bool_decide_eq_false_2 by apply prefix_nil_not.
    + apply cstr_cons in H1 as (-> & Hx & H1). destruct (Z.eqb_spec x y) as [->|Hne].
      * rewrite (IH _ _ l1 l2) by (done || lia). f_equal. apply bool_decide_ext. split.
        -- apply prefix_cons.
        -- apply prefix_cons_inv_2.
      * rewrite bool_decide_eq_false_2; [done|]. intros Hp%prefix_cons_inv_1. congruence.
Qed.

(** [strstr] returns the first position of the first string at which the
    second one occurs, and NULL when there is none.  The end of the first
    string is not tried: [strstr] of two empty strings is NULL. *)
Theorem strstr_spec fuel m s1 s2 l1 l2 : cstr m s1 l1 -> cstr m s2 l2 ->
  (length l1 < fuel)%nat ->
  exists r, strstr fuel (S (length l2)) s1 s2 m = Some r /\
  match r with
  | Some a => exists k, (k < length l1)%nat /\ a = s1 + Z.of_nat k /\ l2 `prefix_of` drop k l1 /\
                forall j, (j < k)%nat -> ~ l2 `prefix_of` drop j l1
  | None => forall j, (j < length l1)%nat -> ~ l2 `prefix_of` drop j l1
  end.
Proof.
  revert s1 l1. induction fuel as [|fuel IH]; intros s1 l1 H1 H2 Hf; [lia|]. cbn [strstr].
  destruct l1 as [|x l1].
  - rewrite (cstr_nil _ _ H1). eexists. split; [done|]. cbn. lia.
  - pose proof (cstr_cons _ _ _ _ H1) as (Hx & Hr & H1'). rewrite Hx. destruct (Z.eqb_spec x 0); [lia|].
    rewrite (prefix_at_spec _ _ _ _ _ _ H1 H2) by lia. cbn [mbind option_bind length] in *.
    case_bool_decide as Hp.
    + eexists. split; [done|]. exists 0%nat. split_and!; try done; lia.
    + destruct (IH (s1 + 1) l1 H1' H2 ltac:(lia)) as (r & -> & Hspec). exists r. split; [done|].
      destruct r as [a|].
      * destruct Hspec as (k & Hk & -> & Hpk & Hj). exists (S k). split_and!; [lia|lia|done|].
        intros [|j] Hlt; [done|]. apply Hj. lia.
      * intros [|j] Hlt; [done|]. apply Hspec. lia.
Qed.

(** ** Copying, appending, comparing *)

Lemma memset_stored s c n m : stored s n (fun _ => u8 c) m (memset s c n m).
Proof.
  revert s m. induction n as [|n IH]; intros s m; cbn [memset]; [apply stored_0|].
  by eapply (stored_cons s n _ (fun _ => u8 c)).
Qed.

Lemma memmove_stored d s n m : stored d n (fun i => m (s + i)) m (memmove d s n m).
Proof.
  unfold memmove. destruct (Z.leb_spec d s); [apply copy_up_stored|apply copy_down_stored]; lia.
Qed.

(** C40: the kernel's and the library's [memmove] are equivalent: they choose the
    direction of the copy by different tests, and both leave the original
    source bytes in the destination and every other byte unchanged, however
    the two ranges overlap; the kernel's [memcpy] and, for ranges that do not
    overlap, the library's are the same function too. *)
Theorem memmove_equiv d s n m a :
  KString.memmove d s n m a = (if (d <=? a) && (a <? d + Z.of_nat n) then m (s + (a - d)) else m a) /\
  memmove d s n m a = KString.memmove d s n m a /\
  KString.memcpy d s n m a = KString.memmove d s n m a /\
  (d + Z.of_nat n <= s \/ s + Z.of_nat n <= d -> memcpy d s n m a = KString.memmove d s n m a).
Proof.
  rewrite (KString.memmove_spec d s n m a), (memmove_stored d s n m a). unfold KString.memcpy.
  rewrite (KString.memmove_spec d s n m a). split_and!; try done. intros Hd.
  unfold memcpy. rewrite (copy_up_stored d s n m) by lia. done.
Qed.

Lemma strcpy_spec fuel m s1 s2 l : cstr m s2 l -> (length l < fuel)%nat ->
  (s1 + Z.of_nat (length l) < s2 \/ s2 + Z.of_nat (length l) < s1) ->
  exists m', strcpy fuel s1 s2 m = Some m' /\ stored s1 (S (length l)) (padded l) m m'.
Proof.
  revert m s1 s2 l. induction fuel as [|fuel IH]; intros m s1 s2 l Hc Hf Hd; [lia|]. cbn [strcpy].
  destruct l as [|z l].
  - rewrite (cstr_nil _ _ Hc). eexists. split; [reflexivity|].
    by apply (stored_cons s1 0 _ (fun _ => 0) 0); [apply stored_0| |intros; lia].
  - pose proof (cstr_cons _ _ _ _ Hc) as (Hz & Hr & Hc'). rewrite Hz.
    destruct (Z.eqb_spec z 0); [lia|]. cbn [length] in *.
    destruct (IH (<[s1 := z]> m) (s1 + 1) (s2 + 1) l) as (m' & Hm' & Hst);
      [apply cstr_insert; [done|lia]|lia|lia|].
    exists m'. split; [done|]. apply (stored_cons s1 (S (length l)) _ (padded l) z); [done|done|].
    intros i Hi. apply padded_cons. lia.
Qed.

Lemma stored_cstr m m' d l : Forall (fun z => 0 < z < 256) l -> stored d (S (length l)) (padded l) m m' ->
  cstr m' d l.
Proof.
  intros HF Hst. split_and!; [|done|].
  - intros i z Hi. pose proof (lookup_lt_Some _ _ _ Hi). rewrite Hst.
    destruct (Z.leb_spec d (d + Z.of_nat i)), (Z.ltb_spec (d + Z.of_nat i) (d + Z.of_nat (S (length l)))); try lia.
    cbn [andb]. unfold padded. replace (Z.to_nat _) with i by lia. by apply nth_lookup_Some.
  - rewrite Hst. destruct (Z.leb_spec d (d + Z.of_nat (length l))),
      (Z.ltb_spec (d + Z.of_nat (length l)) (d + Z.of_nat (S (length l)))); try lia.
    cbn [andb]. unfold padded. apply nth_overflow. lia.
Qed.

Lemma cstr_concat m s l l' : bytes_at m s l -> Forall (fun z => 0 < z < 256) l ->
  cstr m (s + Z.of_nat (length l)) l' -> cstr m s (l ++ l').
Proof.
  intros Hb HF (Hb' & HF' & H0). split_and!; [|by apply Forall_app|].
  - intros i z [?|[? Hz]]%lookup_app_Some; [by apply Hb|]. rewrite <- (Hb' _ _ Hz). f_equal. lia.
  - rewrite length_app, <- H0. f_equal. lia.
Qed.

(** [strcat] leaves the concatenation at [s1] and writes only behind the end of
    the first string. *)
Lemma strcat_spec fuel m s1 s2 l1 l2 : cstr m s1 l1 -> cstr m s2 l2 ->
  (length l1 < fuel)%nat -> (length l2 < fuel)%nat ->
  (s1 + Z.of_nat (length l1 + length l2) < s2 \/ s2 + Z.of_nat (length l2) < s1) ->
  exists m', strcat fuel s1 s2 m = Some m' /\ cstr m' s1 (l1 ++ l2) /\
    stored (s1 + Z.of_nat (length l1)) (S (length l2)) (padded l2) m m'.
Proof.
  intros H1 H2 Hf1 Hf2 Hd. unfold strcat. rewrite (find_nul_spec _ _ _ _ H1 Hf1). cbn [mbind option_bind].
  destruct (strcpy_spec fuel m (s1 + Z.of_nat (length l1)) s2 l2 H2 Hf2) as (m' & -> & Hst); [lia|].
  exists m'. split_and!; [done| |done]. destruct H1 as (Hb & HF & H0). apply cstr_concat; [|done|].
  - intros i z Hi. rewrite Hst. pose proof (lookup_lt_Some _ _ _ Hi).
    destruct (Z.leb_spec (s1 + Z.of_nat (length l1)) (s1 + Z.of_nat i)); [lia|]. cbn [andb]. by apply Hb.
  - eapply stored_cstr; [by destruct H2 as (_ & ? & _)|done].
Qed.

(** Lexicographic order of strings. *)
Fixpoint lex (a b : list Z) : comparison :=
  match a, b with
  | [], [] => Eq
  | [], _ => Lt
  | _, [] => Gt
  | x :: a', y :: b' => match x ?= y with Eq => lex a' b' | c => c end
  end.

Lemma strcmp_spec fuel m s1 s2 l1 l2 : cstr m s1 l1 -> cstr m s2 l2 -> (length l1 < fuel)%nat ->
  exists r, strcmp fuel s1 s2 m = Some r /\ (r ?= 0) = lex l1 l2.
Proof.
  revert s1 s2 l1 l2. induction fuel as [|fuel IH]; intros s1 s2 l1 l2 H1 H2 Hf; [lia|].
  cbn [strcmp]. destruct l1 as [|x l1].
  - rewrite (cstr_nil _ _ H1). cbn [Z.eqb negb andb lex]. eexists. split; [done|]. destruct l2 as [|y l2].
    + by rewrite (cstr_nil _ _ H2).
    + apply cstr_cons in H2 as (-> & Hy & _). apply Z.compare_lt_iff. lia.
  - apply cstr_cons in H1 as (-> & Hx & H1). destruct (Z.eqb_spec x 0); [lia|]. cbn [negb andb lex].
    destruct l2 as [|y l2].
    + rewrite (cstr_nil _ _ H2). destruct (Z.eqb_spec x 0); [lia|]. eexists. split; [done|].
      apply Z.compare_gt_iff. lia.
    + apply cstr_cons in H2 as (-> & Hy & H2). cbn [length] in Hf. destruct (Z.compare_spec x y) as [->|Hl|Hl].
      * rewrite Z.eqb_refl. apply IH; [done|done|lia].
      * destruct (Z.eqb_spec x y); [lia|]. eexists. split; [done|]. apply Z.compare_lt_iff. lia.
      * destruct (Z.eqb_spec x y); [lia|]. eexists. split; [done|]. apply Z.compare_gt_iff. lia.
Qed.

(** ** Tokens *)

Lemma skip_delims_spec fuel m s1 s2 d l k : cstr m s2 d -> cstr m s1 l ->
  (k <= length d)%nat -> (forall z, head l = Some z -> has (take k d) z = false) ->
  (length l * S (length d) + (length d - k) < fuel)%nat ->
  skip_delims fuel s1 s2 (s2 + Z.of_nat k) m =
    Some (s1 + Z.of_nat (length l - length (from (fun c => negb (has d c)) l))).
Proof.
  revert s1 l k. induction fuel as [|fuel IH]; intros s1 l k Hd Hl Hk Hpre Hf; [lia|].
  cbn [skip_delims]. pose proof Hd as (Hb & HF & H0).
  destruct l as [|z l]; [rewrite (cstr_nil _ _ Hl), orb_true_r; cbn; by rewrite Z.add_0_r|].
  specialize (Hpre z eq_refl). pose proof (cstr_cons _ _ _ _ Hl) as (Hz & Hr & Hl'). rewrite Hz.
  destruct (decide (k = length d)) as [->|Hne].
  - rewrite H0. cbn [Z.eqb orb from]. rewrite firstn_all in Hpre. rewrite Hpre. cbn [negb].
    rewrite Nat.sub_diag. by rewrite Z.add_0_r.
  - destruct (lookup_lt_is_Some_2 d k ltac:(lia)) as [y Hy]. rewrite (Hb _ _ Hy).
    rewrite Forall_lookup in HF. pose proof (HF _ _ Hy).
    destruct (Z.eqb_spec y 0), (Z.eqb_spec z 0); try lia. cbn [orb].
    destruct (Z.eqb_spec z y) as [->|Hzy].
    + assert (has d y = true) as Hh.
      { apply existsb_exists. exists y. split; [|apply Z.eqb_refl]. apply list_elem_of_In.
        by eapply list_elem_of_lookup_2. }
      cbn [from]. rewrite Hh. cbn [negb length] in *.
      replace s2 with (s2 + Z.of_nat 0) at 2 by lia. rewrite (IH (s1 + 1) l 0%nat); try done; try lia.
      pose proof (length_before_from (fun c => negb (has d c)) l). f_equal. lia.
    + replace (s2 + Z.of_nat k + 1) with (s2 + Z.of_nat (S k)) by lia.
      rewrite (IH s1 (z :: l) (S k)); try done; try lia. intros z' [= <-].
      rewrite (take_S_r _ _ _ Hy). unfold has in *. rewrite existsb_app, Hpre. cbn.
      by destruct (Z.eqb_spec z y).
Qed.

Lemma token_end_spec fuel fuel2 m t s2 l d : cstr m t l -> cstr m s2 d ->
  (length l < fuel)%nat -> (length d < fuel2)%nat ->
  token_end fuel fuel2 t s2 m =
    Some (match from (has d) l with
          | [] => None
          | _ => Some (t + Z.of_nat (length (before (has d) l)))
          end).
Proof.
  revert t l. induction fuel as [|fuel IH]; intros t l Hl Hd Hf Hf2; [lia|]. cbn [token_end].
  destruct l as [|z l]; [by rewrite (cstr_nil _ _ Hl)|].
  apply cstr_cons in Hl as (-> & Hz & Hl). destruct (Z.eqb_spec z 0); [lia|].
  rewrite (member_spec _ _ _ _ _ Hd Hf2). cbn [mbind option_bind from before length] in *.
  destruct (has d z); cbn [length]; [by rewrite Z.add_0_r|]. rewrite (IH _ l); try done; [|lia].
  destruct (from (has d) l); do 2 f_equal. lia.
Qed.

Lemma cstr_cut m p tok z rest : cstr m p (tok ++ z :: rest) ->
  cstr (<[p + Z.of_nat (length tok) := 0]> m) p tok /\
  cstr (<[p + Z.of_nat (length tok) := 0]> m) (p + Z.of_nat (length tok) + 1) rest.
Proof.
  intros Hc. split.
  - destruct Hc as (Hb & HF & _). apply Forall_app in HF as [HF _]. split_and!; [|done|].
    + intros i y Hi. pose proof (lookup_lt_Some _ _ _ Hi). rewrite insert_at, decide_False by lia.
      apply Hb. by apply lookup_app_l_Some.
    + by rewrite insert_at, decide_True.
  - apply cstr_app in Hc. apply cstr_cons in Hc as (_ & _ & Hc). apply cstr_insert; [done|lia].
Qed.

(** [strtok] returns the next token.  With [tok] the longest run of
    non-delimiters after the leading delimiters: the result is the address of
    the NUL-terminated [tok], the state points at the rest of the string, and
    at most one byte (the delimiter behind the token) has changed; with no
    token left it returns NULL and forgets the string. *)
Theorem strtok_spec fuel tmp s1 s2 m s l d :
  (match s1 with Some s => Some s | None => tmp end) = Some s ->
  cstr m s l -> cstr m s2 d ->
  (s + Z.of_nat (length l) < s2 \/ s2 + Z.of_nat (length d) < s) ->
  (S (length l) * S (length d) < fuel)%nat ->
  let l' := from (fun c => negb (has d c)) l in
  let p := s + Z.of_nat (length l - length l') in
  let tok := before (has d) l' in
  match l' with
  | [] => strtok fuel tmp s1 s2 m = Some (None, None, m)
  | _ => exists tmp' m', strtok fuel tmp s1 s2 m = Some (Some p, tmp', m') /\
           cstr m' p tok /\ cstr m' s2 d /\
           match from (has d) l' with
           | [] => tmp' = None /\ m' = m
           | _ :: rest => tmp' = Some (p + Z.of_nat (length tok) + 1) /\
                          cstr m' (p + Z.of_nat (length tok) + 1) rest /\
                          m' = <[p + Z.of_nat (length tok) := 0]> m
           end
  end.
Proof.
  intros Hs Hl Hd Hdis Hf l' p tok. unfold strtok. rewrite Hs.
  pose proof (skip_delims_spec fuel m s s2 d l 0 Hd Hl ltac:(lia) ltac:(done) ltac:(lia)) as Hskip.
  rewrite Z.add_0_r in Hskip. fold l' p in Hskip. rewrite Hskip. cbn [mbind option_bind].
  pose proof (length_before_from (fun c => negb (has d c)) l) as Hlen. fold l' in Hlen.
  assert (Hp : cstr m p l').
  { unfold p. replace (length l - length l')%nat with (length (before (fun c => negb (has d c)) l)) by lia.
    apply cstr_app. unfold l'. by rewrite before_from. }
  assert (Hfl : (length l' < fuel)%nat) by nia.
  pose proof (token_end_spec fuel fuel m p s2 l' d Hp Hd Hfl ltac:(nia)) as Ht. fold tok in Ht.
  pose proof (before_from (has d) l') as Hbf. fold tok in Hbf.
  pose proof (length_before_from (has d) l') as Hlt. fold tok in Hlt.
  destruct l' as [|z l''] eqn:El; [by rewrite (cstr_nil _ _ Hp)|].
  pose proof (cstr_cons _ _ _ _ Hp) as (Hz & Hr & _). rewrite Hz.
  destruct (Z.eqb_spec z 0); [lia|]. rewrite Ht. cbn [mbind option_bind].
  destruct (from (has d) (z :: l'')) as [|y rest].
  - exists None, m. rewrite app_nil_r in Hbf. by rewrite Hbf.
  - eexists _, _. split; [reflexivity|]. rewrite <- Hbf in Hp. destruct (cstr_cut _ _ _ _ _ Hp) as [H1 H2].
    split_and!; try done. apply cstr_insert; [done|]. unfold p. cbn [length] in *. lia.
Qed.

Lemma memmove_equiv_witness : memcpy 0 100 4 (fun a => a) 2 = 102 /\ KString.memmove 0 100 4 (fun a => a) 2 = 102.
Proof.
  destruct (memmove_equiv 0 100 4 (fun a => a) 2) as (E & _ & _ & H). rewrite (H ltac:(lia)). split; exact E.
Defined.

(** A program with the two strings ["ab  c"] at 100 and [" "] at 200. *)
Definition two : mem := fun a => match a with
  | 100 => 97 | 101 => 98 | 102 => 32 | 103 => 32 | 104 => 99 | 200 => 32 | _ => 0 end.

Lemma cstr_two : cstr two 100 [97; 98; 32; 32; 99] /\ cstr two 200 [32].
Proof.
  split; (split_and!; [|repeat constructor; lia|reflexivity]); intros i z Hi;
    do 5 (destruct i as [|i]; [cbn in Hi; simplify_eq; reflexivity|]); discriminate Hi.
Qed.

Lemma strtok_witness : exists m',
  strtok 100 None (Some 100) 200 two = Some (Some 100, Some 103, m') /\ cstr m' 100 [97; 98].
Proof.
  destruct cstr_two as [H1 H2].
  pose proof (strtok_spec 100 None (Some 100) 200 two 100 _ _ eq_refl H1 H2 ltac:(cbn; lia) ltac:(cbn; lia)) as H.
  cbn -[strtok cstr two insert] in H. destruct H as (tmp' & m' & He & Hc & _ & -> & _). by exists m'.
Defined.

Lemma strstr_witness : exists r, strstr 10 2 100 200 two = Some r /\ r = Some 102.
Proof.
  destruct cstr_two as [H1 H2].
  destruct (strstr_spec 10 two 100 200 _ _ H1 H2 ltac:(cbn; lia)) as (r & Hr & _).
  exists r. split; [exact Hr|]. vm_compute in Hr. congruence.
Defined.

End LString.
