(* ===== verification/Pipe.v ===== *)
(** * Pipes (kernel/pipe.c)

    One pipe shared by any number of processes.  Each process runs [pipewrite],
    [piperead] or [pipeclose] in the micro steps between which another CPU can
    act: waiting for the pipe's lock, the tests of the loops, storing or taking
    one byte, the wakeup-and-sleep, the wakeup-and-release.  A step of the
    system is one such step of a process that may run, a new call, the close of
    an end, or a [kill].  [hw] and [hr] record the bytes stored and taken. *)

From stdpp Require Import functions.
From S2P Require Import Prelude.

Module Pipe.

Definition PIPESIZE : Z := 512.

Record pipe := { data : list Z; nread : Z; nwrite : Z; readopen : bool; writeopen : bool }.

(** What [pipealloc] writes into the page it got; [data] is left as it was. *)
Definition pipe_init (d : list Z) : pipe :=
  {| data := d; nread := 0; nwrite := 0; readopen := true; writeopen := true |}.

(** The two sleep channels, [&p->nread] and [&p->nwrite]. *)
Inductive chan := ChRead | ChWrite.

(** Where a process is in its call.  [n] is the argument, [i] the loop
    variable, [out] what [piperead] has put into the caller's buffer. *)
Inductive pc :=
  | Idle
  | WAcq (addr : Z -> Z) (n : Z)
  | WFor (addr : Z -> Z) (n i : Z)
  | WWhile (addr : Z -> Z) (n i : Z)
  | WDoze (addr : Z -> Z) (n i : Z)
  | WSleep (addr : Z -> Z) (n i : Z)
  | WWoken (addr : Z -> Z) (n i : Z)
  | WPut (addr : Z -> Z) (n i : Z)
  | WEnd (n : Z)
  | RAcq (n : Z)
  | RWhile (n : Z)
  | RDoze (n : Z)
  | RSleep (n : Z)
  | RWoken (n : Z)
  | RFor (n i : Z) (out : list Z)
  | REnd (i : Z) (out : list Z)
  | Return (r : Z) (out : list Z).

Definition full (p : pipe) : bool := nwrite p =? u32 (nread p + PIPESIZE).
Definition empty (p : pipe) : bool := nread p =? nwrite p.

(** [p->data[p->nwrite++ % PIPESIZE] = c] and [p->data[p->nread++ % PIPESIZE]]. *)
Definition put (c : Z) (p : pipe) : pipe :=
  {| data := <[Z.to_nat (nwrite p mod PIPESIZE) := c]> (data p); nread := nread p;
     nwrite := u32 (nwrite p + 1); readopen := readopen p; writeopen := writeopen p |}.
Definition take1 (p : pipe) : Z * pipe :=
  (data p !!! Z.to_nat (nread p mod PIPESIZE),
   {| data := data p; nread := u32 (nread p + 1); nwrite := nwrite p;
      readopen := readopen p; writeopen := writeopen p |}).

(** The effect of a micro step besides the new program point: the channel woken
    and whether the process gives up the lock. *)
Record effect := { woken : option chan; unlocks : bool }.
Definition quiet : effect := {| woken := None; unlocks := false |}.

(** One micro step of [pipewrite] and [piperead] with the lock held. *)
Definition inside_step (p : pipe) (killed : bool) (c : pc) : option (pipe * pc * effect) :=
  match c with
  | WFor addr n i => Some (p, if i <? n then WWhile addr n i else WEnd n, quiet)
  | WWhile addr n i =>
      if full p then
        if negb (readopen p) || killed
        then Some (p, Return (-1) [], {| woken := None; unlocks := true |})
        else Some (p, WDoze addr n i, quiet)
      else Some (p, WPut addr n i, quiet)
  | WDoze addr n i => Some (p, WSleep addr n i, {| woken := Some ChRead; unlocks := true |})
  | WPut addr n i => Some (put (u8 (addr i)) p, WFor addr n (i + 1), quiet)
  | WEnd n => Some (p, Return n [], {| woken := Some ChRead; unlocks := true |})
  | RWhile n =>
      if empty p && writeopen p then
        if killed then Some (p, Return (-1) [], {| woken := None; unlocks := true |})
        else Some (p, RDoze n, quiet)
      else Some (p, RFor n 0 [], quiet)
  | RDoze n => Some (p, RSleep n, {| woken := None; unlocks := true |})
  | RFor n i out =>
      if i <? n then
        if empty p then Some (p, REnd i out, quiet)
        else let '(c, p') := take1 p in Some (p', RFor n (i + 1) (out ++ [c]), quiet)
      else Some (p, REnd i out, quiet)
  | REnd i out => Some (p, Return i out, {| woken := Some ChWrite; unlocks := true |})
  | _ => None
  end.

(** The program point a process reaches when it gets the lock. *)
Definition acquired (c : pc) : option pc :=
  match c with
  | WAcq addr n => Some (WFor addr n 0)
  | WWoken addr n i => Some (WWhile addr n i)
  | RAcq n => Some (RWhile n)
  | RWoken n => Some (RWhile n)
  | _ => None
  end.

(** [wakeup(chan)]: a process sleeping on the channel goes on to re-acquire the
    lock.  [kill] does the same to a process sleeping on any channel. *)
Definition wake (ch : chan) (c : pc) : pc :=
  match c, ch with
  | WSleep addr n i, ChWrite => WWoken addr n i
  | RSleep n, ChRead => RWoken n
  | _, _ => c
  end.
Definition wake_opt (o : option chan) (c : pc) : pc :=
  match o with Some ch => wake ch c | None => c end.
Definition unsleep (c : pc) : pc := wake ChRead (wake ChWrite c).

(** [pipeclose], with the lock, and whether the pipe's page is freed. *)
Definition pipeclose (p : pipe) (writable : bool) : pipe * chan * bool :=
  let p' := {| data := data p; nread := nread p; nwrite := nwrite p;
               readopen := if writable then readopen p else false;
               writeopen := if writable then false else writeopen p |} in
  (p', if writable then ChRead else ChWrite, negb (readopen p') && negb (writeopen p')).

(** ** The system *)

Record st := {
  pp : pipe; owner : option nat; thr : nat -> pc; killed : nat -> bool; freed : bool;
  hw : list Z; hr : list Z }.

Definition writing (c : pc) : bool :=
  match c with
  | WAcq _ _ | WFor _ _ _ | WWhile _ _ _ | WDoze _ _ _ | WSleep _ _ _ | WWoken _ _ _ | WPut _ _ _ | WEnd _ => true
  | _ => false
  end.
Definition reading (c : pc) : bool :=
  match c with
  | RAcq _ | RWhile _ | RDoze _ | RSleep _ | RWoken _ | RFor _ _ _ | REnd _ _ => true
  | _ => false
  end.
Definition inside (c : pc) : bool :=
  match c with
  | WFor _ _ _ | WWhile _ _ _ | WDoze _ _ _ | WPut _ _ _ | WEnd _
  | RWhile _ | RDoze _ | RFor _ _ _ | REnd _ _ => true
  | _ => false
  end.

(** The byte a micro step stores or takes. *)
Definition stores (c : pc) : list Z := match c with WPut addr _ i => [u8 (addr i)] | _ => [] end.
Definition takes (p : pipe) (c : pc) : list Z :=
  match c with RFor n i _ => if (i <? n) && negb (empty p) then [fst (take1 p)] else [] | _ => [] end.

(** A process calls [pipewrite] only through an open write end, and holds a
    reference to it for the whole call; an end is closed when the last
    reference to it is dropped (file.c), so when no process is in a call on it. *)
Inductive step : st -> st -> Prop :=
  | S_write s t addr n : thr s t = Idle -> writeopen (pp s) = true ->
      step s {| pp := pp s; owner := owner s; thr := <[t := WAcq addr n]> (thr s);
                killed := killed s; freed := freed s; hw := hw s; hr := hr s |}
  | S_read s t n : thr s t = Idle -> readopen (pp s) = true ->
      step s {| pp := pp s; owner := owner s; thr := <[t := RAcq n]> (thr s);
                killed := killed s; freed := freed s; hw := hw s; hr := hr s |}
  | S_return s t r out : thr s t = Return r out ->
      step s {| pp := pp s; owner := owner s; thr := <[t := Idle]> (thr s);
                killed := killed s; freed := freed s; hw := hw s; hr := hr s |}
  | S_acquire s t c : owner s = None -> acquired (thr s t) = Some c ->
      step s {| pp := pp s; owner := Some t; thr := <[t := c]> (thr s);
                killed := killed s; freed := freed s; hw := hw s; hr := hr s |}
  | S_inside s t p c e : owner s = Some t ->
      inside_step (pp s) (killed s t) (thr s t) = Some (p, c, e) ->
      step s {| pp := p; owner := if unlocks e then None else Some t;
                thr := <[t := c]> (fun u => wake_opt (woken e) (thr s u));
                killed := killed s; freed := freed s;
                hw := hw s ++ stores (thr s t); hr := hr s ++ takes (pp s) (thr s t) |}
  | S_close s w p ch f : owner s = None -> pipeclose (pp s) w = (p, ch, f) ->
      (if w then writeopen (pp s) else readopen (pp s)) = true ->
      (forall t, (if w then writing else reading) (thr s t) = false) ->
      step s {| pp := p; owner := None; thr := fun u => wake ch (thr s u);
                killed := killed s; freed := f; hw := hw s; hr := hr s |}
  | S_kill s t :
      step s {| pp := pp s; owner := owner s; thr := <[t := unsleep (thr s t)]> (thr s);
                killed := <[t := true]> (killed s); freed := freed s; hw := hw s; hr := hr s |}.

Definition init (d : list Z) : st :=
  {| pp := pipe_init d; owner := None; thr := fun _ => Idle; killed := fun _ => false;
     freed := false; hw := []; hr := [] |}.

Inductive reachable (d : list Z) : st -> Prop :=
  | reach_init : reachable d (init d)
  | reach_step s s' : reachable d s -> step s s' -> reachable d s'.

(** ** The ring buffer holds a queue *)

(** [q] is what the ring holds, oldest byte first; the counters wrap around at
    2^32, a multiple of the ring's size. *)
Definition ring (p : pipe) (q : list Z) : Prop :=
  length (data p) = 512%nat /\ 0 <= nread p < 2 ^ 32 /\ (length q <= 512)%nat /\
  nwrite p = u32 (nread p + Z.of_nat (length q)) /\
  forall i c, q !! i = Some c -> data p !! Z.to_nat ((nread p + Z.of_nat i) mod 512) = Some c.

Lemma ring_full p q : ring p q -> full p = true <-> length q = 512%nat.
Proof.
  intros (_ & Hn & Hq & Hw & _). unfold full, PIPESIZE. rewrite Hw, Z.eqb_eq. unfold u32. 
  split; [|by intros ->]. intros E. Z.div_mod_to_equations. lia.
Qed.

Lemma ring_empty p q : ring p q -> empty p = true <-> q = [].
Proof.
  intros (_ & Hn & Hq & Hw & _). unfold empty. rewrite Hw, Z.eqb_eq. unfold u32. split.
  - intros E. destruct q; [done|]. cbn [length] in *. Z.div_mod_to_equations. lia.
  - intros ->. cbn. rewrite Z.add_0_r, Z.mod_small; lia.
Qed.

Lemma u32_mod512 z : u32 z mod 512 = z mod 512.
Proof. wrap_lia. Qed.

Lemma ring_put p q c : ring p q -> (length q < 512)%nat -> ring (put c p) (q ++ [c]).
Proof.
  intros (Hd & Hn & Hq & Hw & Hl) Hlt. unfold ring, put, PIPESIZE. cbn. rewrite length_insert, length_app. cbn.
  split_and!; try done; try lia.
  - rewrite Hw. unfold u32. rewrite Zplus_mod_idemp_l. f_equal. lia.
  - rewrite Hw, u32_mod512. intros i y [Hi|[Hi Hy]]%lookup_app_Some.
    + pose proof (lookup_lt_Some _ _ _ Hi). rewrite list_lookup_insert_ne; [by apply Hl|].
      intros E. apply Z2Nat.inj in E; [|apply Z.mod_pos_bound; lia..]. Z.div_mod_to_equations. lia.
    + apply list_lookup_singleton_Some in Hy as [Hi0 <-]. replace i with (length q) by lia.
      apply list_lookup_insert_eq. rewrite Hd. pose proof (Z.mod_pos_bound (nread p + Z.of_nat (length q)) 512). lia.
Qed.

Lemma ring_take p q c : ring p (c :: q) -> fst (take1 p) = c /\ ring (snd (take1 p)) q.
Proof.
  intros (Hd & Hn & Hq & Hw & Hl). split.
  - cbn. apply list_lookup_total_correct. specialize (Hl 0%nat c eq_refl). by rewrite Z.add_0_r in Hl.
  - unfold ring. cbn [take1 snd data nread nwrite]. cbn [length] in *. split_and!; try done; try lia.
    + apply u32_range.
    + apply u32_range.
    + rewrite Hw. unfold u32. rewrite Zplus_mod_idemp_l. f_equal. lia.
    + intros i y Hi. specialize (Hl (S i) y Hi). rewrite <- Hl. do 2 f_equal.
      rewrite <- (u32_mod512 (u32 (nread p + 1) + Z.of_nat i)), <- (u32_mod512 (nread p + Z.of_nat (S i))).
      f_equal. unfold u32. rewrite Zplus_mod_idemp_l. f_equal. lia.
Qed.

(** ** The invariant *)

Definition held_by (f : pc -> bool) (s : st) : Prop := exists u, owner s = Some u /\ f (thr s u) = true.

(** A reader past its waiting loop: it wakes the writers before it returns. *)
Definition draining (c : pc) : bool := match c with RFor _ _ _ | REnd _ _ => true | _ => false end.

(** What holds at each program point. *)
Definition at_pc (s : st) (c : pc) : Prop :=
  match c with
  | WPut _ _ _ => full (pp s) = false
  | WDoze _ _ _ => full (pp s) = true /\ readopen (pp s) = true
  | RDoze _ => empty (pp s) = true /\ writeopen (pp s) = true
  | WSleep _ _ _ => (full (pp s) = true /\ readopen (pp s) = true) \/ held_by draining s
  | RSleep _ => (forall u, killed s u = false) ->
                (empty (pp s) = true /\ writeopen (pp s) = true) \/ held_by writing s
  | _ => True
  end.

Record inv (s : st) : Prop := {
  inv_lock : forall t, inside (thr s t) = true <-> owner s = Some t;
  inv_w : forall t, writing (thr s t) = true -> writeopen (pp s) = true;
  inv_r : forall t, reading (thr s t) = true -> readopen (pp s) = true;
  inv_at : forall t, at_pc s (thr s t);
  inv_q : exists q, ring (pp s) q /\ hw s = hr s ++ q;
  inv_freed : freed s = true -> readopen (pp s) = false /\ writeopen (pp s) = false }.

Lemma inv_init d : length d = 512%nat -> inv (init d).
Proof.
  intros Hd. split; cbn; try done. exists []. split; [|done]. unfold ring. cbn. split_and!; try done; lia.
Qed.

Lemma wake_pc ch c : (wake ch c = c /\ (forall a n i, c = WSleep a n i -> ch = ChRead) /\
                                      (forall n, c = RSleep n -> ch = ChWrite)) \/
  (exists a n i, ch = ChWrite /\ c = WSleep a n i /\ wake ch c = WWoken a n i) \/
  (exists n, ch = ChRead /\ c = RSleep n /\ wake ch c = RWoken n).
Proof. destruct ch, c; cbn; naive_solver. Qed.

Lemma wake_class o c : inside (wake_opt o c) = inside c /\ writing (wake_opt o c) = writing c /\
  reading (wake_opt o c) = reading c /\ draining (wake_opt o c) = draining c.
Proof. by destruct o as [[]|], c. Qed.

(** Steps that do not touch the pipe keep what the other processes rely on. *)
Lemma at_pc_mono s s' c : pp s' = pp s -> (forall u, killed s' u = false -> killed s u = false) ->
  (held_by draining s -> held_by draining s') -> (held_by writing s -> held_by writing s') ->
  at_pc s c -> at_pc s' c.
Proof.
  intros Hp Hk Hr Hw. destruct c; cbn; rewrite ?Hp; try done; [naive_solver|].
  intros H Hall. destruct (H (fun u => Hk u (Hall u))); naive_solver.
Qed.

(** A process whose new program point promises nothing and is outside. *)
Lemma inv_move s t c k : inv s -> inside c = false -> inside (thr s t) = false ->
  (writing c = true -> writeopen (pp s) = true) -> (reading c = true -> readopen (pp s) = true) ->
  (forall s', at_pc s' c) -> (forall u, k u = false -> killed s u = false) ->
  inv {| pp := pp s; owner := owner s; thr := <[t := c]> (thr s); killed := k; freed := freed s;
         hw := hw s; hr := hr s |}.
Proof.
  intros Hi Hc Ht Hw Hr Hat Hk. pose proof (inv_lock _ Hi) as Hl.
  assert (Hown : owner s <> Some t) by (rewrite <- Hl; congruence).
  assert (Hh : forall f, held_by f s -> held_by f {| pp := pp s; owner := owner s; thr := <[t := c]> (thr s);
     killed := k; freed := freed s; hw := hw s; hr := hr s |}).
  { intros f (u & Hu & Hf). exists u. cbn. split; [done|]. rewrite fn_lookup_insert_ne; [done|congruence]. }
  split; cbn; [| | | |apply Hi|apply Hi]; intros u; (destruct (decide (t = u)) as [<-|Hne];
    [rewrite !fn_lookup_insert|rewrite !fn_lookup_insert_ne by done]).
  - split; congruence.
  - apply Hl.
  - exact Hw.
  - apply (inv_w _ Hi).
  - exact Hr.
  - apply (inv_r _ Hi).
  - apply Hat.
  - eapply at_pc_mono; [..|apply (inv_at _ Hi)]; [reflexivity|exact Hk|apply Hh|apply Hh].
Qed.

(** One micro step with the lock held, case by case. *)
Lemma inside_inv p k c p' c' e : inside_step p k c = Some (p', c', e) ->
  inside c' = negb (unlocks e) /\
  (writing c' = true -> writing c = true) /\ (reading c' = true -> reading c = true) /\
  readopen p' = readopen p /\ writeopen p' = writeopen p.
Proof.
  destruct c; cbn; try done; repeat case_match; intros; simplify_eq; cbn; repeat case_match; done.
Qed.

Lemma inside_ring s t p c e : inv s -> owner s = Some t ->
  inside_step (pp s) (killed s t) (thr s t) = Some (p, c, e) ->
  exists q, ring p q /\ hw s ++ stores (thr s t) = (hr s ++ takes (pp s) (thr s t)) ++ q.
Proof.
  intros Hi Ho Hs. destruct (inv_q _ Hi) as (q & Hq & Hh). pose proof (inv_at _ Hi t) as Hat.
  destruct (thr s t) eqn:Et; cbn in Hs; try done; cbn [stores takes];
    try (exists q; rewrite !app_nil_r; repeat case_match; simplify_eq; done).
  - cbn in Hat. exists (q ++ [u8 (addr i)]). simplify_eq. rewrite Hh, app_nil_r, app_assoc. split; [|done].
    apply ring_put; [done|]. pose proof (ring_full _ _ Hq) as Hf. rewrite Hat in Hf.
    destruct Hq as (_ & _ & ? & _). destruct (decide (length q = 512%nat)); [naive_solver|lia].
  - rewrite app_nil_r. pose proof (ring_empty _ _ Hq) as He.
    destruct (i <? n), (empty (pp s)); cbn [andb negb]; simplify_eq;
      try (exists q; rewrite app_nil_r; done).
    destruct q as [|z q]; [naive_solver|]. apply ring_take in Hq as [Hz Hq].
    exists q. rewrite Hh, Hz, <- app_assoc. done.
Qed.

Lemma not_full_empty s : inv s -> full (pp s) = true -> empty (pp s) = true -> False.
Proof.
  intros Hi Hf He. destruct (inv_q _ Hi) as (q & Hq & _).
  apply (ring_full _ _ Hq) in Hf. apply (ring_empty _ _ Hq) in He. by subst.
Qed.

(** The process with the lock either wakes the sleeping writers, or still has to
    wake them, or they have to wait on; the same for sleeping readers, unless a
    writer was killed. *)
Lemma inside_wsleep s t p c e u addr n i : inv s -> owner s = Some t ->
  inside_step (pp s) (killed s t) (thr s t) = Some (p, c, e) -> thr s u = WSleep addr n i ->
  woken e = Some ChWrite \/ (unlocks e = false /\ draining c = true) \/ (full p = true /\ readopen p = true).
Proof.
  intros Hi Ho Hs Hu. pose proof (inv_at _ Hi u) as Hau. rewrite Hu in Hau. cbn in Hau.
  pose proof (inv_at _ Hi t) as Hat. pose proof (not_full_empty s Hi) as Hfe.
  assert (Hcase : draining (thr s t) = true \/ (full (pp s) = true /\ readopen (pp s) = true)).
  { destruct Hau as [?|(v & Hv & Hd)]; [by right|]. left. congruence. }
  clear Hi Hau Ho Hu. destruct (thr s t); cbn in Hs; try done; cbn in Hat, Hcase;
    repeat case_match; simplify_eq; cbn; naive_solver.
Qed.

Lemma inside_rsleep s t p c e u n : inv s -> owner s = Some t -> (forall v, killed s v = false) ->
  inside_step (pp s) (killed s t) (thr s t) = Some (p, c, e) -> thr s u = RSleep n ->
  woken e = Some ChRead \/ (unlocks e = false /\ writing c = true) \/ (empty p = true /\ writeopen p = true).
Proof.
  intros Hi Ho Hk Hs Hu. pose proof (inv_at _ Hi u) as Hau. rewrite Hu in Hau. cbn in Hau.
  specialize (Hau Hk). rewrite Hk in Hs. assert (Hro : readopen (pp s) = true) by (apply (inv_r _ Hi u); by rewrite Hu).
  pose proof (inv_at _ Hi t) as Hat.
  assert (Hcase : writing (thr s t) = true \/ (empty (pp s) = true /\ writeopen (pp s) = true)).
  { destruct Hau as [?|(v & Hv & Hd)]; [by right|]. left. congruence. }
  clear Hi Hau Ho Hu Hk. destruct (thr s t); cbn in Hs; try done; cbn in Hat, Hcase; rewrite ?Hro in Hs; cbn [negb orb] in Hs;
    repeat case_match; simplify_eq; cbn; intuition congruence.
Qed.

Lemma inside_at s t p c e s' : inv s -> owner s = Some t ->
  inside_step (pp s) (killed s t) (thr s t) = Some (p, c, e) -> p = pp s' -> at_pc s' c.
Proof.
  intros Hi Ho Hs ->. pose proof (inv_at _ Hi t) as Hat. clear Hi Ho.
  destruct (thr s t); cbn in Hs; try done; cbn in Hat; repeat case_match; simplify_eq; cbn;
    rewrite ?orb_false_iff, ?negb_false_iff, ?andb_true_iff in *; try done;
    match goal with E : pp _ = pp _ |- _ => rewrite <- E end; tauto.
Qed.

Lemma held_owner f s t : owner s = Some t -> held_by f s <-> f (thr s t) = true.
Proof. intros Ho. split; [intros (u & Hu & Hf); congruence|by exists t]. Qed.

Lemma inv_inside s t p c e : inv s -> owner s = Some t ->
  inside_step (pp s) (killed s t) (thr s t) = Some (p, c, e) ->
  inv {| pp := p; owner := if unlocks e then None else Some t;
         thr := <[t := c]> (fun u => wake_opt (woken e) (thr s u));
         killed := killed s; freed := freed s;
         hw := hw s ++ stores (thr s t); hr := hr s ++ takes (pp s) (thr s t) |}.
Proof.
  intros Hi Ho Hs. destruct (inside_inv _ _ _ _ _ _ Hs) as (Hin & Hw & Hr & Hro & Hwo).
  split; cbn; [| | | |by eapply inside_ring|rewrite Hro, Hwo; apply Hi];
    intros u; (destruct (decide (t = u)) as [<-|Hne];
    [rewrite fn_lookup_insert|rewrite fn_lookup_insert_ne by done]);
    try (destruct (wake_class (woken e) (thr s u)) as (Hc1 & Hc2 & Hc3 & _); rewrite ?Hc1, ?Hc2, ?Hc3).
  - rewrite Hin. by destruct (unlocks e).
  - rewrite (inv_lock _ Hi). destruct (unlocks e); split; congruence.
  - rewrite Hwo. intros H. apply (inv_w _ Hi t). auto.
  - rewrite Hwo. apply (inv_w _ Hi).
  - rewrite Hro. intros H. apply (inv_r _ Hi t). auto.
  - rewrite Hro. apply (inv_r _ Hi).
  - by eapply inside_at.
  - assert (Hout : inside (thr s u) = false).
    { destruct (inside (thr s u)) eqn:E; [|done]. apply (inv_lock _ Hi) in E. congruence. }
    destruct (thr s u) eqn:Eu; cbn in Hout; try done;
      try (destruct (woken e) as [[]|]; exact I).
    + pose proof (inside_wsleep _ _ _ _ _ _ _ _ _ Hi Ho Hs Eu) as Hx.
      destruct (woken e) as [[]|] eqn:Ew; cbn; try exact I; (destruct Hx as [?|[[Hu ?]|?]]; [done| |by left]);
        right; exists t; cbn; by rewrite Hu, fn_lookup_insert.
    + pose proof (fun Hk => inside_rsleep _ _ _ _ _ _ _ Hi Ho Hk Hs Eu) as Hx.
      destruct (woken e) as [[]|] eqn:Ew; cbn; try exact I; intros Hk;
        (destruct (Hx Hk) as [?|[[Hu ?]|?]]; [done| |by left]);
        right; exists t; cbn; by rewrite Hu, fn_lookup_insert.
Qed.

Lemma inv_acquire s t c : inv s -> owner s = None -> acquired (thr s t) = Some c ->
  inv {| pp := pp s; owner := Some t; thr := <[t := c]> (thr s); killed := killed s;
         freed := freed s; hw := hw s; hr := hr s |}.
Proof.
  intros Hi Ho Ha.
  assert (Hc : inside c = true /\ writing c = writing (thr s t) /\ reading c = reading (thr s t) /\
               forall s', at_pc s' c) by (destruct (thr s t); cbn in Ha; simplify_eq; done).
  destruct Hc as (Hc1 & Hc2 & Hc3 & Hc4).
  split; cbn; [| | | |apply Hi|apply Hi]; intros u; (destruct (decide (t = u)) as [<-|Hne];
    [rewrite !fn_lookup_insert|rewrite !fn_lookup_insert_ne by done]).
  - done.
  - rewrite (inv_lock _ Hi). split; congruence.
  - rewrite Hc2. apply (inv_w _ Hi).
  - apply (inv_w _ Hi).
  - rewrite Hc3. apply (inv_r _ Hi).
  - apply (inv_r _ Hi).
  - apply Hc4.
  - eapply at_pc_mono; [..|apply (inv_at _ Hi)]; [reflexivity|done|intros (v & Hv & _); congruence..].
Qed.

Lemma inv_close s w p ch f : inv s -> owner s = None -> pipeclose (pp s) w = (p, ch, f) ->
  (forall t, (if w then writing else reading) (thr s t) = false) ->
  inv {| pp := p; owner := None; thr := fun u => wake ch (thr s u);
         killed := killed s; freed := f; hw := hw s; hr := hr s |}.
Proof.
  intros Hi Ho Hcl Hno. unfold pipeclose in Hcl. simplify_eq/=.
  assert (Hnot : forall u, inside (thr s u) = false).
  { intros u. destruct (inside (thr s u)) eqn:E; [|done]. apply (inv_lock _ Hi) in E. congruence. }
  split; cbn; try (intros u; destruct (wake_class (Some (if w then ChRead else ChWrite)) (thr s u))
    as (Hc1 & Hc2 & Hc3 & _); cbn [wake_opt] in *; rewrite ?Hc1, ?Hc2, ?Hc3).
  - rewrite Hnot. done.
  - destruct w; [rewrite Hno; done|apply (inv_w _ Hi)].
  - destruct w; [apply (inv_r _ Hi)|rewrite Hno; done].
  - specialize (Hno u). specialize (Hnot u). by destruct w, (thr s u).
  - apply Hi.
  - destruct w; rewrite andb_true_iff, !negb_true_iff; tauto.
Qed.

Lemma inv_kill s t : inv s ->
  inv {| pp := pp s; owner := owner s; thr := <[t := unsleep (thr s t)]> (thr s);
         killed := <[t := true]> (killed s); freed := freed s; hw := hw s; hr := hr s |}.
Proof.
  intros Hi. destruct (inside (thr s t)) eqn:Ein.
  - assert (Hu : forall u, (<[t := unsleep (thr s t)]> (thr s) : nat -> pc) u = thr s u).
    { intros u. destruct (decide (t = u)) as [<-|]; [rewrite fn_lookup_insert|by rewrite fn_lookup_insert_ne].
      by destruct (thr s t). }
    split; cbn; [intros u; rewrite Hu; apply Hi..| |apply Hi|apply Hi].
    intros u. rewrite Hu. eapply at_pc_mono; [..|apply (inv_at _ Hi)]; [reflexivity| | |].
    + intros v. cbn. destruct (decide (t = v)) as [<-|];
        [by rewrite fn_lookup_insert|by rewrite fn_lookup_insert_ne].
    + intros (v & Hv & Hf). exists v. cbn. by rewrite Hu.
    + intros (v & Hv & Hf). exists v. cbn. by rewrite Hu.
  - apply inv_move; try done.
    + by destruct (thr s t).
    + pose proof (inv_w _ Hi t). by destruct (thr s t).
    + pose proof (inv_r _ Hi t). by destruct (thr s t).
    + by destruct (thr s t).
    + intros v. destruct (decide (t = v)) as [<-|];
        [by rewrite fn_lookup_insert|by rewrite fn_lookup_insert_ne].
Qed.

Lemma inv_reachable d s : length d = 512%nat -> reachable d s -> inv s.
Proof.
  intros Hd. induction 1 as [|s s' _ IH Hst]; [by apply inv_init|]. destruct Hst.
  - apply inv_move; try done. by rewrite H.
  - apply inv_move; try done. by rewrite H.
  - apply inv_move; try done. by rewrite H.
  - by apply inv_acquire.
  - by apply inv_inside.
  - by eapply inv_close.
  - by apply inv_kill.
Qed.

(** ** Properties *)

(** C29: first in, first out.  In every interleaving of any number of readers and
    writers, the bytes stored so far are the bytes taken so far followed by the
    at most 512 bytes of the ring, in order, also when the 32-bit counters wrap. *)
Theorem pipe_fifo d s : length d = 512%nat -> reachable d s ->
  exists q, hw s = hr s ++ q /\ (length q <= 512)%nat /\
    nwrite (pp s) = u32 (nread (pp s) + Z.of_nat (length q)) /\
    forall i c, q !! i = Some c -> data (pp s) !! Z.to_nat ((nread (pp s) + Z.of_nat i) mod PIPESIZE) = Some c.
Proof.
  intros Hd Hr. destruct (inv_q _ (inv_reachable _ _ Hd Hr)) as (q & (H1 & H2 & H3 & H4 & H5) & H6). by exists q.
Qed.

(** C30: no wakeup is lost.  Whenever the lock is free: a sleeping writer means a
    full pipe with an open read end, and, as long as no process was killed, a
    sleeping reader means an empty pipe with an open write end.  So readers and
    writers never all sleep, and no process uses the pipe after it is freed. *)
Theorem no_lost_wakeup d s : length d = 512%nat -> reachable d s -> owner s = None ->
  (forall t addr n i, thr s t = WSleep addr n i -> full (pp s) = true /\ readopen (pp s) = true) /\
  ((forall t, killed s t = false) -> forall t n, thr s t = RSleep n ->
     empty (pp s) = true /\ writeopen (pp s) = true /\
     forall u addr k i, thr s u <> WSleep addr k i) /\
  (freed s = true -> forall t, writing (thr s t) = false /\ reading (thr s t) = false).
Proof.
  intros Hd Hre Ho. pose proof (inv_reachable _ _ Hd Hre) as Hi.
  assert (Hno : forall f, ~ held_by f s) by (intros f (v & Hv & _); congruence).
  assert (Hw : forall t addr n i, thr s t = WSleep addr n i -> full (pp s) = true /\ readopen (pp s) = true).
  { intros t addr n i Ht. pose proof (inv_at _ Hi t) as Hat. rewrite Ht in Hat.
    destruct Hat as [?|Hb]; [done|by apply Hno in Hb]. }
  split_and!; [done| |].
  - intros Hk t n Ht. pose proof (inv_at _ Hi t) as Hat. rewrite Ht in Hat.
    destruct (Hat Hk) as [[He Hwo]|Hb]; [|by apply Hno in Hb]. split_and!; try done.
    intros u addr k i Hu. apply Hw in Hu as [Hf _]. by eapply not_full_empty.
  - intros Hf t. apply (inv_freed _ Hi) in Hf as [Hfr Hfw].
    pose proof (inv_w _ Hi t). pose proof (inv_r _ Hi t).
    destruct (writing (thr s t)), (reading (thr s t)); split; try done; intuition congruence.
Qed.

(** ** Executions

    A scheduler's choices, run one after the other: used to exhibit reachable
    states. *)
Inductive choice :=
  | DoWrite (t : nat) (addr : Z -> Z) (n : Z) | DoRead (t : nat) (n : Z) | DoAcquire (t : nat)
  | DoInside (t : nat) | DoReturn (t : nat) | DoKill (t : nat).

Definition exec1 (ch : choice) (s : st) : option st :=
  match ch with
  | DoWrite t addr n =>
      match thr s t with
      | Idle => if writeopen (pp s) then
          Some {| pp := pp s; owner := owner s; thr := <[t := WAcq addr n]> (thr s);
                  killed := killed s; freed := freed s; hw := hw s; hr := hr s |} else None
      | _ => None
      end
  | DoRead t n =>
      match thr s t with
      | Idle => if readopen (pp s) then
          Some {| pp := pp s; owner := owner s; thr := <[t := RAcq n]> (thr s);
                  killed := killed s; freed := freed s; hw := hw s; hr := hr s |} else None
      | _ => None
      end
  | DoAcquire t =>
      match owner s, acquired (thr s t) with
      | None, Some c =>
          Some {| pp := pp s; owner := Some t; thr := <[t := c]> (thr s);
                  killed := killed s; freed := freed s; hw := hw s; hr := hr s |}
      | _, _ => None
      end
  | DoInside t =>
      match owner s with
      | Some u => if decide (u = t) then
          match inside_step (pp s) (killed s t) (thr s t) with
          | Some (p, c, e) =>
              Some {| pp := p; owner := if unlocks e then None else Some t;
                      thr := <[t := c]> (fun u => wake_opt (woken e) (thr s u));
                      killed := killed s; freed := freed s;
                      hw := hw s ++ stores (thr s t); hr := hr s ++ takes (pp s) (thr s t) |}
          | None => None
          end else None
      | None => None
      end
  | DoReturn t =>
      match thr s t with
      | Return _ _ =>
          Some {| pp := pp s; owner := owner s; thr := <[t := Idle]> (thr s);
                  killed := killed s; freed := freed s; hw := hw s; hr := hr s |}
      | _ => None
      end
  | DoKill t =>
      Some {| pp := pp s; owner := owner s; thr := <[t := unsleep (thr s t)]> (thr s);
              killed := <[t := true]> (killed s); freed := freed s; hw := hw s; hr := hr s |}
  end.

Fixpoint exec (l : list choice) (s : st) : option st :=
  match l with [] => Some s | ch :: l' => s' ← exec1 ch s; exec l' s' end.

Lemma exec1_step ch s s' : exec1 ch s = Some s' -> step s s'.
Proof.
  destruct ch; cbn; repeat case_match; intros [= <-]; subst.
  all: try first [by apply S_write|by apply S_read|by eapply S_return|by apply S_acquire|apply S_kill].
  all: match goal with Ho : owner _ = _, Hs : inside_step _ _ _ = _, He : unlocks _ = _ |- _ =>
         pose proof (S_inside _ _ _ _ _ Ho Hs) as Hx; rewrite He in Hx; exact Hx end.
Qed.

Lemma exec_reachable d l s s' : reachable d s -> exec l s = Some s' -> reachable d s'.
Proof.
  revert s. induction l as [|ch l IH]; cbn; intros s Hr He; [by simplify_eq|].
  destruct (exec1 ch s) as [s1|] eqn:E1; [|done]. cbn in He.
  eapply IH; [|done]. eapply reach_step; [done|by apply exec1_step in E1].
Qed.

(** A reader sleeps on the empty pipe; a writer stores 512 bytes of a longer
    buffer, is killed, finds the pipe full and returns -1. *)
Definition lost_run : list choice :=
  [DoRead 0 10; DoAcquire 0; DoInside 0; DoInside 0; DoWrite 1 (fun i => i) 600; DoAcquire 1] ++
  replicate (3 * 512 + 1) (DoInside 1) ++ [DoKill 1; DoInside 1].

(** Without the restriction to processes that are not killed the reader's half
    of [no_lost_wakeup] fails: a writer killed at the full pipe returns without
    waking the readers, which sleep on with 512 bytes to read. *)
Theorem killed_writer_loses_wakeup : exists s, reachable (replicate 512 0) s /\
  owner s = None /\ thr s 0%nat = RSleep 10 /\ empty (pp s) = false /\ full (pp s) = true /\
  thr s 1%nat = Return (-1) [].
Proof.
  pose (look := fun o => match o with
    | Some s => Some (owner s, thr s 0%nat, empty (pp s), full (pp s), thr s 1%nat) | None => None end).
  assert (F : look (exec lost_run (init (replicate 512 0))) = Some (None, RSleep 10, false, true, Return (-1) []))
    by (vm_compute; reflexivity).
  destruct (exec lost_run (init (replicate 512 0))) as [s|] eqn:E; [|discriminate F].
  exists s. split; [exact (exec_reachable _ _ _ _ (reach_init _) E)|].
  unfold look in F. injection F as -> -> -> -> ->. split_and!; reflexivity.
Qed.

Definition demo_run : list choice :=
  [DoRead 0 2; DoAcquire 0; DoInside 0; DoInside 0; DoWrite 1 (fun i => 10 + i) 3; DoAcquire 1] ++
  replicate 11 (DoInside 1) ++ [DoAcquire 0] ++ replicate 5 (DoInside 0).

Lemma pipe_fifo_witness : exists s, reachable (replicate 512 0) s /\ hw s = [10; 11; 12] /\
  hr s = [10; 11] /\ exists q, [10; 11; 12] = [10; 11] ++ q /\ (length q <= 512)%nat.
Proof.
  pose (look := fun o => match o with Some s => Some (hw s, hr s) | None => None end).
  assert (F : look (exec demo_run (init (replicate 512 0))) = Some ([10; 11; 12], [10; 11]))
    by (vm_compute; reflexivity).
  destruct (exec demo_run (init (replicate 512 0))) as [s|] eqn:E; [|discriminate F].
  pose proof (exec_reachable _ _ _ _ (reach_init _) E) as Hr. clear E. exists s.
  destruct (pipe_fifo (replicate 512 0) s eq_refl Hr) as (q & Hq & Hl & _).
  unfold look in F. injection F as F1 F2. rewrite F1, F2 in Hq. rewrite F1, F2. eauto 6.
Defined.

Lemma no_lost_wakeup_witness : exists s, reachable (replicate 512 0) s /\ thr s 0%nat = RSleep 2 /\
  empty (pp s) = true /\ writeopen (pp s) = true.
Proof.
  set (s := {| pp := pipe_init (replicate 512 0); owner := None;
               thr := <[0%nat := RSleep 2]> (<[0%nat := RDoze 2]> (<[0%nat := RWhile 2]>
                        (<[0%nat := RAcq 2]> (fun _ => Idle)))) : nat -> pc;
               killed := fun _ => false; freed := false; hw := []; hr := [] |}).
  assert (E : exec (take 4 demo_run) (init (replicate 512 0)) = Some s) by reflexivity.
  pose proof (exec_reachable _ _ _ _ (reach_init _) E) as Hr. clear E. exists s.
  destruct (no_lost_wakeup (replicate 512 0) s eq_refl Hr eq_refl) as (_ & H & _).
  destruct (H (fun _ => eq_refl) 0%nat 2 eq_refl) as (He & Hw & _). auto.
Defined.

End Pipe.
