(* ===== verification/Kalloc.v ===== *)
(** * The physical page allocator (kernel/kalloc.c)

    Memory is the byte memory of KString.v at kernel virtual addresses.  The
    free list is threaded through the free pages themselves, as in the code.
    [kend] is the linker's symbol [end], a parameter of the model. *)

From stdpp Require Import functions.
From S2P Require Import Prelude Spinlock KString.

Definition PGSIZE : Z := 4096.
Definition KERNBASE : Z := 2147483648.
Definition PHYSTOP : Z := 234881024.
Definition PGROUNDUP (sz : Z) : Z := Z.land (u32 (sz + PGSIZE - 1)) (u32 (Z.lnot (PGSIZE - 1))).
Definition PGROUNDDOWN (a : Z) : Z := Z.land (u32 a) (u32 (Z.lnot (PGSIZE - 1))).
Definition v2p (a : Z) : Z := u32 (a - KERNBASE).
Definition p2v (a : Z) : Z := u32 (a + KERNBASE).

(** A 32-bit word at an address; [store32] is in KString.v. *)
Definition load32 (m : mem) (a : Z) : Z :=
  u8 (m a) + Z.shiftl (u8 (m (a + 1))) 8 + Z.shiftl (u8 (m (a + 2))) 16 + Z.shiftl (u8 (m (a + 3))) 24.

Lemma u8_shift z k : 0 <= k -> u8 (Z.shiftr z k) = z / 2 ^ k mod 256.
Proof. intros. by rewrite Z.shiftr_div_pow2. Qed.

Lemma load32_store32 m a v : load32 (KString.store32 a v m) a = u32 v.
Proof.
  unfold load32, KString.store32. rewrite !KString.insert_at. repeat (case_decide; try lia).
  rewrite !u8_shift, !Z.shiftl_mul_pow2 by lia.
  change (2 ^ 8) with 256. change (2 ^ 16) with 65536. change (2 ^ 24) with 16777216. wrap_lia.
Qed.

Lemma load32_ext m m' a : (forall i, 0 <= i < 4 -> m' (a + i) = m (a + i)) -> load32 m' a = load32 m a.
Proof.
  intros H. unfold load32. pose proof (H 0 ltac:(lia)) as H0. rewrite Z.add_0_r in H0.
  by rewrite H0, !H by lia.
Qed.

Lemma store32_other m a v b : (b < a \/ a + 4 <= b) -> KString.store32 a v m b = m b.
Proof. intros H. unfold KString.store32. rewrite !KString.insert_at. by repeat (case_decide; try lia). Qed.

Lemma load32_range m a : 0 <= load32 m a < 2 ^ 32.
Proof. unfold load32. rewrite !Z.shiftl_mul_pow2 by lia. wrap_lia. Qed.

(** Pages and rounding. *)
Lemma land_pgmask z : 0 <= z < 2 ^ 32 -> Z.land z (u32 (Z.lnot (PGSIZE - 1))) = z - z mod PGSIZE.
Proof.
  intros Hz. change (u32 (Z.lnot (PGSIZE - 1))) with (Z.lnot (Z.ones 12) mod 2 ^ 32).
  rewrite <- Z.land_ones by lia. rewrite Z.land_assoc, (Z.land_comm z), <- Z.land_assoc.
  rewrite Z.land_ones, Z.mod_small by lia. rewrite Z.land_comm, <- Z.ldiff_land, Z.ldiff_ones_r by lia.
  rewrite Z.shiftr_div_pow2, Z.shiftl_mul_pow2 by lia. unfold PGSIZE. change (2 ^ 12) with 4096.
  Z.div_mod_to_equations; lia.
Qed.

Class Linker := { kend : Z; kend_ok : KERNBASE < kend < KERNBASE + PHYSTOP }.

Module Kalloc.
Section WithLinker.
Context `{Linker}.

Record kmem := { mm : mem; lock : bool; use_lock : bool; freelist : Z }.

Definition set_mm (m : mem) (s : kmem) : kmem :=
  {| mm := m; lock := lock s; use_lock := use_lock s; freelist := freelist s |}.
Definition set_lock (b : bool) (s : kmem) : kmem :=
  {| mm := mm s; lock := b; use_lock := use_lock s; freelist := freelist s |}.
Definition set_use_lock (b : bool) (s : kmem) : kmem :=
  {| mm := mm s; lock := lock s; use_lock := b; freelist := freelist s |}.
Definition set_freelist (r : Z) (s : kmem) : kmem :=
  {| mm := mm s; lock := lock s; use_lock := use_lock s; freelist := r |}.

Definition kacquire : M kmem unit :=
  let! u := gets use_lock in when u (Spinlock.acquire lock set_lock).
Definition krelease : M kmem unit :=
  let! u := gets use_lock in when u (Spinlock.release lock set_lock).

Definition kfree (v : Z) : M kmem unit :=
  if negb (v mod PGSIZE =? 0) || (v <? kend) || (v2p v >=? PHYSTOP) then panic "kfree"
  else
    modify (fun s => set_mm (KString.memset v 1 (Z.to_nat PGSIZE) (mm s)) s) ;!
    kacquire ;!
    modify (fun s => set_freelist v (set_mm (KString.store32 v (freelist s) (mm s)) s)) ;!
    krelease.

Definition kalloc : M kmem Z :=
  kacquire ;!
  let! r := gets freelist in
  when (negb (r =? 0)) (modify (fun s => set_freelist (load32 (mm s) r) s)) ;!
  krelease ;!
  ret r.

(** [for (; p + PGSIZE <= vend; p += PGSIZE) kfree(p)] *)
Fixpoint freerange_from (fuel : nat) (p vend : Z) : M kmem unit :=
  match fuel with
  | O => nofuel
  | S fuel' => if p + PGSIZE <=? vend then kfree p ;! freerange_from fuel' (p + PGSIZE) vend else ret tt
  end.

Definition freerange (fuel : nat) (vstart vend : Z) : M kmem unit :=
  freerange_from fuel (PGROUNDUP vstart) vend.

Definition kinit1 (fuel : nat) (vstart vend : Z) : M kmem unit :=
  modify (set_lock false) ;! modify (set_use_lock false) ;! freerange fuel vstart vend.

Definition kinit2 (fuel : nat) (vstart vend : Z) : M kmem unit :=
  freerange fuel vstart vend ;! modify (set_use_lock true).

(** ** The free list *)

Fixpoint chain (m : mem) (head : Z) (l : list Z) : Prop :=
  match l with
  | [] => head = 0
  | v :: l' => head = v /\ chain m (load32 m v) l'
  end.

(** A page the allocator may handle. *)
Definition is_page (v : Z) : Prop := v mod PGSIZE = 0 /\ kend <= v < KERNBASE + PHYSTOP.

Definition in_page (v a : Z) : Prop := v <= a < v + PGSIZE.

(** [l] lists the free pages. *)
Record free (s : kmem) (l : list Z) : Prop := {
  free_chain : chain (mm s) (freelist s) l;
  free_nodup : NoDup l;
  free_pages : Forall is_page l;
  free_lock : lock s = false }.

Lemma is_page_pos v : is_page v -> 0 < v < 2 ^ 32 /\ v2p v < PHYSTOP.
Proof. intros [_ Hv]. pose proof kend_ok. unfold v2p, KERNBASE, PHYSTOP in *. rewrite u32_small; lia. Qed.

Lemma kfree_guard v : is_page v -> negb (v mod PGSIZE =? 0) || (v <? kend) || (v2p v >=? PHYSTOP) = false.
Proof.
  intros Hp. pose proof (is_page_pos v Hp) as [_ Hph]. destruct Hp as [Ha Hr]. rewrite Ha.
  destruct (Z.ltb_spec v kend); [lia|]. rewrite Z.geb_leb. destruct (Z.leb_spec PHYSTOP (v2p v)); [lia|done].
Qed.

Lemma guard_page v : 0 <= v < 2 ^ 32 ->
  negb (v mod PGSIZE =? 0) || (v <? kend) || (v2p v >=? PHYSTOP) = false -> is_page v.
Proof.
  intros Hv Hg. rewrite !orb_false_iff, negb_false_iff, Z.eqb_eq, Z.ltb_ge, Z.geb_leb, Z.leb_gt in Hg.
  destruct Hg as [[Ha Hb] Hc]. pose proof kend_ok. unfold v2p, KERNBASE, PHYSTOP in *.
  rewrite u32_small in Hc by lia. split; [done|]. unfold KERNBASE, PHYSTOP. lia.
Qed.

Lemma pages_apart v w a : v mod PGSIZE = 0 -> w mod PGSIZE = 0 -> v <> w -> in_page v a -> ~ in_page w a.
Proof. unfold in_page, PGSIZE. intros. Z.div_mod_to_equations. lia. Qed.

Lemma page_word v i : v mod PGSIZE = 0 -> 0 <= i < 4 -> in_page v (v + i).
Proof. unfold in_page, PGSIZE. lia. Qed.

(** The free list depends only on the bytes of the free pages. *)
Lemma chain_frame m m' h l : (forall v a, v ∈ l -> in_page v a -> m' a = m a) ->
  chain m h l -> chain m' h l.
Proof.
  revert h. induction l as [|v l IH]; intros h Hf; [done|]. cbn. intros [-> Hc]. split; [done|].
  rewrite (load32_ext m m') by (intros i Hi; apply (Hf v); [left|unfold in_page, PGSIZE; lia]).
  apply IH; [|done]. intros w a Hw. apply Hf. by right.
Qed.

Lemma free_frame s l m' : free s l -> (forall v a, v ∈ l -> in_page v a -> m' a = mm s a) ->
  free (set_mm m' s) l.
Proof. intros [H1 H2 H3 H4] Hf. split; try done. by eapply chain_frame. Qed.

Lemma free_head s l : free s l -> freelist s = 0 <-> l = [].
Proof.
  intros [Hc _ Hp _]. destruct l as [|v l]; [done|]. cbn in Hc. destruct Hc as [-> _].
  apply Forall_cons in Hp as [Hp _]. apply is_page_pos in Hp. split; [lia|done].
Qed.

(** The contents of a page just freed: the link, then junk. *)
Definition freed_page (v next : Z) (m : mem) : mem :=
  KString.store32 v next (KString.memset v 1 (Z.to_nat PGSIZE) m).

Lemma freed_page_other v next m a : ~ in_page v a -> freed_page v next m a = m a.
Proof.
  intros Ha. unfold freed_page, in_page in *. rewrite store32_other by (unfold PGSIZE in *; lia).
  rewrite (KString.memset_spec v 1 (Z.to_nat PGSIZE) m a). rewrite Z2Nat.id by (unfold PGSIZE; lia).
  destruct (Z.leb_spec v a), (Z.ltb_spec a (v + PGSIZE)); try done. lia.
Qed.

(** ** The operations *)

(** [kfree] of a page that is not free puts it at the head of the list and
    changes no byte outside it; anything that is no page panics. *)
Lemma kfree_spec s l v : free s l -> is_page v -> v ∉ l ->
  kfree v s = Done tt (set_freelist v (set_mm (freed_page v (freelist s) (mm s)) s)) /\
  free (set_freelist v (set_mm (freed_page v (freelist s) (mm s)) s)) (v :: l).
Proof.
  intros [Hc Hn Hp Hl] Hv Hnot. split.
  - unfold kfree. rewrite (kfree_guard v Hv). unfold kacquire, krelease, bind, gets, modify, when, ret,
      Spinlock.acquire, Spinlock.release. destruct s as [m lk ul fl]; cbn in *. subst lk.
    destruct ul; cbn; reflexivity.
  - split; cbn; [|by apply NoDup_cons|by apply Forall_cons|done].
    split; [done|]. 
    replace (load32 _ v) with (u32 (freelist s)) by (symmetry; apply load32_store32).
    assert (Hfl : u32 (freelist s) = freelist s).
    { destruct l as [|w l]; cbn in Hc; [by rewrite Hc|]. destruct Hc as [-> _].
      apply Forall_cons in Hp as [Hw _]. apply is_page_pos in Hw. apply u32_small. lia. }
    rewrite Hfl. eapply chain_frame; [|exact Hc]. intros w a Hw Ha. apply freed_page_other.
    rewrite Forall_forall in Hp. destruct (Hp w Hw) as [Hwa _], Hv as [Hva _].
    eapply pages_apart; [exact Hwa|exact Hva| |exact Ha]. intros ->. done.
Qed.

Lemma kfree_panics s v : 0 <= v < 2 ^ 32 -> ~ is_page v -> kfree v s = Panic "kfree".
Proof.
  intros Hv Hp. unfold kfree. destruct (_ || _) eqn:E; [done|]. by apply guard_page in E.
Qed.

(** [kalloc] takes the head of the list, and returns 0 only when there is none. *)
Lemma kalloc_spec s l : free s l ->
  match l with
  | [] => kalloc s = Done 0 s
  | v :: l' => kalloc s = Done v (set_freelist (load32 (mm s) v) s) /\
               free (set_freelist (load32 (mm s) v) s) l'
  end.
Proof.
  intros [Hc Hn Hp Hl].
  unfold kalloc, kacquire, krelease, bind, gets, modify, when, ret, Spinlock.acquire, Spinlock.release.
  destruct s as [m lk ul fl]; cbn in *. subst lk. destruct l as [|v l].
  - rewrite Hc. by destruct ul.
  - destruct Hc as [-> Hc]. apply NoDup_cons in Hn as [_ Hn]. apply Forall_cons in Hp as [Hv Hp].
    apply is_page_pos in Hv. assert (Hv0 : (v =? 0) = false) by lia.
    split; [|by split]. destruct ul; cbn; rewrite Hv0; done.
Qed.

(** The pages of a range, in the order [freerange] frees them. *)
Fixpoint pages_from (p : Z) (n : nat) : list Z :=
  match n with O => [] | S n' => p :: pages_from (p + PGSIZE) n' end.

Lemma elem_pages_from p n v : v ∈ pages_from p n <-> exists i, v = p + PGSIZE * i /\ 0 <= i < Z.of_nat n.
Proof.
  revert p. induction n as [|n IH]; intros p; cbn [pages_from].
  - split; [by intros ?%not_elem_of_nil|]. intros (i & _ & Hi). lia.
  - rewrite elem_of_cons, IH. split.
    + intros [->|(i & -> & Hi)]; [exists 0|exists (i + 1)]; unfold PGSIZE; lia.
    + intros (i & -> & Hi). destruct (Z.eq_dec i 0); [left|right; exists (i - 1)]; unfold PGSIZE; lia.
Qed.

Lemma freerange_from_spec n : forall fuel s l p vend, free s l -> (n < fuel)%nat ->
  p mod PGSIZE = 0 -> kend <= p -> p + PGSIZE * Z.of_nat n <= vend < p + PGSIZE * (Z.of_nat n + 1) ->
  vend <= KERNBASE + PHYSTOP -> (forall v, v ∈ l -> v < p) ->
  exists s', freerange_from fuel p vend s = Done tt s' /\ free s' (reverse (pages_from p n) ++ l) /\
    use_lock s' = use_lock s /\
    forall a, (forall v, v ∈ pages_from p n -> ~ in_page v a) -> mm s' a = mm s a.
Proof.
  induction n as [|n IH]; intros fuel s l p vend Hf Hfuel Ha Hk Hr Hv Hl; (destruct fuel as [|fuel]; [lia|]);
    cbn [freerange_from]; destruct (Z.leb_spec (p + PGSIZE) vend); try (unfold PGSIZE in *; lia).
  - exists s. by split_and!.
  - assert (Hp : is_page p) by (split; [done|]; unfold PGSIZE in *; lia).
    assert (Hnot : p ∉ l) by (intros Hin; specialize (Hl _ Hin); lia).
    destruct (kfree_spec s l p Hf Hp Hnot) as [Hrun Hf']. run Hrun.
    destruct (IH fuel _ _ (p + PGSIZE) vend Hf') as (s' & -> & Hfr & Hu & Hm); try (unfold PGSIZE in *; lia).
    + unfold PGSIZE in *. Z.div_mod_to_equations. lia.
    + intros v [->|Hin]%elem_of_cons; [|specialize (Hl _ Hin)]; unfold PGSIZE; lia.
    + exists s'. cbn [pages_from]. rewrite reverse_cons, <- app_assoc. split_and!; try done.
      intros a Hap. rewrite Hm by (intros v Hin; apply Hap; by right). cbn. apply freed_page_other, Hap. left.
Qed.

Lemma PGROUNDUP_spec v : 0 <= v <= 2 ^ 32 - PGSIZE ->
  PGROUNDUP v mod PGSIZE = 0 /\ v <= PGROUNDUP v < v + PGSIZE.
Proof.
  intros Hv. unfold PGROUNDUP. rewrite (u32_small (v + PGSIZE - 1)) by (unfold PGSIZE in *; lia).
  rewrite land_pgmask by (unfold PGSIZE in *; lia). unfold PGSIZE in *. Z.div_mod_to_equations. lia.
Qed.

Lemma aligned_mult v : v mod PGSIZE = 0 -> exists k, v = PGSIZE * k.
Proof. intros Hv. exists (v / PGSIZE). unfold PGSIZE in *. Z.div_mod_to_equations. lia. Qed.

Lemma mult_aligned k : (PGSIZE * k) mod PGSIZE = 0.
Proof. rewrite Z.mul_comm. apply Z.mod_mul. done. Qed.

(** ** The boot sequence and the pool *)

(** Number of whole pages [freerange] finds between two addresses. *)
Definition npages (vstart vend : Z) : nat := Z.to_nat ((vend - PGROUNDUP vstart) / PGSIZE).

Lemma npages_spec vstart vend : PGROUNDUP vstart <= vend ->
  PGSIZE * Z.of_nat (npages vstart vend) <= vend - PGROUNDUP vstart < PGSIZE * (Z.of_nat (npages vstart vend) + 1).
Proof.
  intros Hle. unfold npages. generalize dependent (PGROUNDUP vstart). intros p Hle.
  rewrite Z2Nat.id by (apply Z.div_pos; unfold PGSIZE; lia). unfold PGSIZE. Z.div_mod_to_equations. lia.
Qed.

Lemma freerange_spec fuel s l vstart vend : free s l -> kend <= vstart <= vend -> vend <= KERNBASE + PHYSTOP ->
  (npages vstart vend < fuel)%nat -> (forall v, v ∈ l -> v < PGROUNDUP vstart) ->
  PGROUNDUP vstart <= vend ->
  exists s', freerange fuel vstart vend s = Done tt s' /\
    free s' (reverse (pages_from (PGROUNDUP vstart) (npages vstart vend)) ++ l) /\ use_lock s' = use_lock s.
Proof.
  intros Hf Hs Hv Hfuel Hl Hle. pose proof kend_ok as Hk.
  destruct (PGROUNDUP_spec vstart) as [Ha Hr]; [unfold PGSIZE, KERNBASE, PHYSTOP in *; lia|].
  unfold freerange. destruct (freerange_from_spec (npages vstart vend) fuel s l (PGROUNDUP vstart) vend)
    as (s' & ? & ? & ? & _); try done; [lia|pose proof (npages_spec vstart vend Hle); lia|by exists s'].
Qed.

(** after [kinit1(vstart, mid)] and [kinit2(mid, top)] every whole page
    between [vstart] and [top] is on the free list exactly once, and the
    allocator locks from then on. *)
Theorem kinit_pool fuel s vstart mid top : freelist s = 0 ->
  kend <= vstart <= mid -> mid mod PGSIZE = 0 -> mid <= top <= KERNBASE + PHYSTOP ->
  (npages vstart mid < fuel)%nat -> (npages mid top < fuel)%nat ->
  exists s' l, (kinit1 fuel vstart mid ;! kinit2 fuel mid top) s = Done tt s' /\ free s' l /\
    use_lock s' = true /\
    forall v, v ∈ l <-> v mod PGSIZE = 0 /\ vstart <= v /\ v + PGSIZE <= top.
Proof.
  intros H0 Hs Hmid Htop Hf1 Hf2. pose proof kend_ok as Hk.
  assert (Hf : free (set_use_lock false (set_lock false s)) []).
  { split; cbn; [done|constructor|constructor|done]. }
  destruct (PGROUNDUP_spec vstart) as [Ha1 Hr1]; [unfold PGSIZE, KERNBASE, PHYSTOP in *; lia|].
  destruct (PGROUNDUP_spec mid) as [Ha2 Hr2]; [unfold PGSIZE, KERNBASE, PHYSTOP in *; lia|].
  destruct (aligned_mult _ Ha1) as [a Ea], (aligned_mult _ Hmid) as [b Eb], (aligned_mult _ Ha2) as [b' Eb'].
  assert (Hmm : PGROUNDUP mid = mid) by (unfold PGSIZE in *; lia). clear b' Eb' Ha2 Hr2.
  assert (Hle : PGROUNDUP vstart <= mid) by (unfold PGSIZE in *; lia).
  pose proof (npages_spec vstart mid Hle) as Hn1. pose proof (npages_spec mid top ltac:(lia)) as Hn2.
  destruct (freerange_spec fuel _ [] vstart mid Hf) as (s1 & E1 & F1 & U1); try done; try lia; [by intros ? ?%not_elem_of_nil|].
  destruct (freerange_spec fuel _ _ mid top F1) as (s2 & E2 & F2 & U2); try done; try lia.
  { intros v. rewrite app_nil_r, elem_of_reverse, elem_pages_from, Hmm. unfold PGSIZE in *.
    intros (i & -> & Hi). lia. }
  eexists (set_use_lock true s2), _. split_and!.
  - assert (K1 : kinit1 fuel vstart mid s = Done tt s1) by exact E1. run K1.
    unfold kinit2. run E2. reflexivity.
  - destruct F2 as [? ? ? ?]. by split.
  - done.
  - intros v. rewrite app_nil_r, elem_of_app, !elem_of_reverse, !elem_pages_from, Hmm.
    rewrite Hmm in Hn2. rewrite Ea, Eb in *. clear -Hn1 Hn2 Hr1 Htop. split.
    + intros [(i & -> & Hi)|(i & -> & Hi)]; rewrite <- Z.mul_add_distr_l, mult_aligned; unfold PGSIZE in *; lia.
    + intros (Hv & Hlo & Hhi). destruct (aligned_mult _ Hv) as [k ->]. clear Hv. unfold PGSIZE in *.
      destruct (Z.lt_ge_cases k b); [right; exists (k - a)|left; exists (k - b)]; lia.
Qed.

(** ** Clients

    What the rest of the kernel does with the allocator: it allocates, writes
    into the pages it holds, and frees pages it holds. *)
Inductive use : kmem * list Z -> kmem * list Z -> Prop :=
  | use_alloc s O r s' : kalloc s = Done r s' -> use (s, O) (s', if r =? 0 then O else r :: O)
  | use_free s O1 v O2 s' : kfree v s = Done tt s' -> use (s, O1 ++ v :: O2) (s', O1 ++ O2)
  | use_write s O v a b : v ∈ O -> in_page v a -> use (s, O) (set_mm (<[a := b]> (mm s)) s, O).

Definition uses := rtc use.

Lemma free_zero s l : free s l -> 0 ∉ l.
Proof. intros Hf H0. destruct Hf as [_ _ Hp _]. rewrite Forall_forall in Hp. apply Hp, is_page_pos in H0. lia. Qed.

(** The held and the free pages are always the pages of the start. *)
Lemma use_inv l0 s O s' O' : Forall is_page l0 -> NoDup l0 -> use (s, O) (s', O') ->
  (exists l, free s l /\ O ++ l ≡ₚ l0) -> exists l, free s' l /\ O' ++ l ≡ₚ l0.
Proof.
  intros Hp0 Hn0 Hu (l & Hf & Hperm). inversion Hu as [? ? r ? Hk|? O1 v O2 ? Hk|? ? v a b Hv Ha]; subst.
  - pose proof (kalloc_spec s l Hf) as Hs. pose proof (free_zero s l Hf) as H0. destruct l as [|v l].
    + rewrite Hs in Hk. simplify_eq. exists []. by rewrite Z.eqb_refl.
    + destruct Hs as [E Hf']. rewrite E in Hk. simplify_eq. exists l. split; [done|].
      case_match eqn:Er; [apply Z.eqb_eq in Er; subst; exfalso; apply H0; left|].
      rewrite <- Hperm. cbn. by rewrite Permutation_middle.
  - assert (Hv : is_page v).
    { rewrite Forall_forall in Hp0. apply Hp0. rewrite <- Hperm. set_solver. }
    assert (Hnot : v ∉ l).
    { rewrite <- Hperm in Hn0. rewrite <- app_assoc in Hn0. cbn in Hn0.
      apply NoDup_app in Hn0 as (_ & _ & Hn0). apply NoDup_cons in Hn0 as [Hn0 _]. set_solver. }
    destruct (kfree_spec s l v Hf Hv Hnot) as [E Hf']. rewrite E in Hk. simplify_eq. exists (v :: l). split; [done|].
    rewrite <- Hperm, <- !app_assoc. cbn. by rewrite !Permutation_middle.
  - exists l. split; [|done]. apply free_frame; [done|]. intros w a' Hw Ha'. rewrite KString.insert_at.
    case_decide; [|done]. subst a'. exfalso.
    assert (Hnd : NoDup (O' ++ l)) by (by rewrite Hperm). apply NoDup_app in Hnd as (_ & Hd & _).
    assert (Hpv : forall x, x ∈ O' ++ l -> x mod PGSIZE = 0).
    { intros x Hx. rewrite Hperm in Hx. rewrite Forall_forall in Hp0. by apply Hp0. }
    eapply (pages_apart w v); [apply Hpv; set_solver|apply Hpv; set_solver| |done|done].
    intros ->. by apply (Hd v).
Qed.

(** C14: pages are exclusive.  After any sequence of allocations, writes into held
    pages and frees of held pages: [kalloc] succeeds in giving a page nobody
    holds, or returns 0 exactly when every page is held; [kfree] of a held page
    succeeds; and neither changes a byte of another held page. *)
Theorem pages_exclusive s0 l0 s O : free s0 l0 -> uses (s0, []) (s, O) ->
  (exists r s', kalloc s = Done r s' /\ mm s' = mm s /\ (r <> 0 -> r ∈ l0 /\ r ∉ O) /\
     (r = 0 <-> O ≡ₚ l0)) /\
  (forall v, v ∈ O -> exists s', kfree v s = Done tt s' /\
     forall w a, w ∈ O -> w <> v -> in_page w a -> mm s' a = mm s a).
Proof.
  intros Hf0 Hu. pose proof (free_pages _ _ Hf0) as Hp0. pose proof (free_nodup _ _ Hf0) as Hn0.
  assert (Hinv : exists l, free s l /\ O ++ l ≡ₚ l0).
  { apply (rtc_ind_r (fun x => exists l, free x.1 l /\ x.2 ++ l ≡ₚ l0) (s0, [])) with (z := (s, O)) in Hu; [done| |].
    - by exists l0.
    - intros [s1 O1] [s2 O2] _ Hst IH. by eapply use_inv. }
  destruct Hinv as (l & Hf & Hperm). assert (Hnd : NoDup (O ++ l)) by (by rewrite Hperm).
  apply NoDup_app in Hnd as (_ & Hd & _).
  assert (Hpv : forall x, x ∈ O ++ l -> is_page x).
  { intros x Hx. rewrite Hperm in Hx. rewrite Forall_forall in Hp0. by apply Hp0. }
  split.
  - pose proof (kalloc_spec s l Hf) as Hs. destruct l as [|v l].
    + exists 0, s. rewrite app_nil_r in Hperm. by split_and!.
    + destruct Hs as [E Hf']. eexists _, _. split; [exact E|]. split_and!; [done| |].
      * intros _. split; [rewrite <- Hperm; set_solver|]. intros Hv. apply (Hd v Hv). left.
      * split; [|intros HO]. 
        -- intros ->. exfalso. apply (free_zero _ _ Hf). left.
        -- exfalso. apply Permutation_length in HO, Hperm. rewrite length_app in Hperm. cbn in Hperm. lia.
  - intros v Hv. assert (Hnot : v ∉ l) by (by apply Hd). assert (Hpg : is_page v) by (apply Hpv; set_solver).
    destruct (kfree_spec s l v Hf Hpg Hnot) as [E _]. eexists. split; [exact E|].
    intros w a Hw Hne Ha. cbn. apply freed_page_other.
    eapply (pages_apart w); [apply Hpv; set_solver|apply Hpg|done|done].
Qed.

End WithLinker.

(** ** A small machine *)

(** The kernel ends at 0x80100000; the pool is the two pages behind it. *)
Definition demo_linker : Linker.
Proof. refine {| kend := 2148532224 |}. unfold KERNBASE, PHYSTOP. lia. Defined.

Definition boot : kmem := {| mm := fun _ => 0; lock := true; use_lock := true; freelist := 0 |}.

Lemma kinit_pool_witness : exists s' l,
  (@kinit1 demo_linker 3 2148532225 2148540416 ;! @kinit2 demo_linker 3 2148540416 2148544512) boot = Done tt s' /\
  @free demo_linker s' l /\ (forall v, v ∈ l <-> v mod PGSIZE = 0 /\ 2148532225 <= v /\ v + PGSIZE <= 2148544512).
Proof.
  destruct (@kinit_pool demo_linker 3 boot 2148532225 2148540416 2148544512) as (s' & l & E & Hf & _ & Hl);
    [reflexivity|cbn; lia|reflexivity|unfold KERNBASE, PHYSTOP; lia|vm_compute; lia|vm_compute; lia|].
  exists s', l. auto.
Defined.

(** One free page. *)
Definition one : kmem := {| mm := fun _ => 0; lock := false; use_lock := true; freelist := 2148536320 |}.

Lemma pages_exclusive_witness : exists s' : kmem, kalloc one = Done 2148536320 s' /\
  exists r s'', kalloc s' = Done r s'' /\ r = 0.
Proof.
  exists (set_freelist 0 one). split; [reflexivity|].
  assert (Hf : @free demo_linker one [2148536320]).
  { split; [split; reflexivity|repeat constructor; set_solver| |reflexivity].
    constructor; [|constructor]. split; [reflexivity|]. cbn. unfold KERNBASE, PHYSTOP. lia. }
  assert (Hu : @uses demo_linker (one, []) (set_freelist 0 one, [2148536320])).
  { apply rtc_once. exact (@use_alloc demo_linker one [] 2148536320 (set_freelist 0 one) eq_refl). }
  destruct (@pages_exclusive demo_linker _ _ _ _ Hf Hu) as [(r & s'' & E & _ & _ & Hr) _].
  exists r, s''. split; [exact E|]. by apply Hr.
Defined.

End Kalloc.
