(* ===== verification/Vm.v ===== *)
(** * Page tables and user memory (kernel/vm.c)

    Page directories and page tables are pages of the allocator's memory, read
    and written word by word as in the code.  [pte] is the hardware's walk of
    the two levels: the theorems say what each operation does to the mapping it
    defines, to the pages behind it and to the pool of free pages.

    The counts of the loops are computed from their bounds; the theorems show
    that they suffice ([NoFuel] does not occur).  The start of the kernel's data
    segment, set by the linker script, is a parameter. *)

From stdpp Require Import functions.
From S2P Require Import Prelude KString Kalloc.

Definition EXTMEM : Z := 1048576.
Definition KERNLINK : Z := KERNBASE + EXTMEM.
Definition DEVSPACE : Z := 4261412864.

Definition PTE_P : Z := 1.
Definition PTE_W : Z := 2.
Definition PTE_U : Z := 4.
Definition NPDENTRIES : Z := 1024.
Definition NPTENTRIES : Z := 1024.
Definition PDX (va : Z) : Z := Z.land (Z.shiftr (u32 va) 22) 1023.
Definition PTX (va : Z) : Z := Z.land (Z.shiftr (u32 va) 12) 1023.
Definition PTE_ADDR (pte : Z) : Z := Z.land (u32 pte) (u32 (Z.lnot 4095)).
Definition PTE_FLAGS (pte : Z) : Z := Z.land (u32 pte) 4095.

(** The linker's symbol [data]: page aligned, behind the kernel's text. *)
Class DataSegment `{Linker} := {
  kdata : Z; kdata_ok : kdata mod PGSIZE = 0 /\ KERNLINK < kdata <= kend }.

Module Vm.
Import Kalloc.
Section WithLinker.
Context `{Linker}.

Definition ld (a : Z) : M kmem Z := gets (fun s => load32 (mm s) a).
Definition st (a v : Z) : M kmem unit := modify (fun s => set_mm (KString.store32 a v (mm s)) s).
Definition memset (a c n : Z) : M kmem unit :=
  modify (fun s => set_mm (KString.memset a c (Z.to_nat n) (mm s)) s).
Definition memmove (d a n : Z) : M kmem unit :=
  modify (fun s => set_mm (KString.memmove d a (Z.to_nat n) (mm s)) s).

(** [memmove] from [src], bytes of another address space or of the kernel's stack. *)
Fixpoint store_bytes (a : Z) (src : list Z) (m : mem) : mem :=
  match src with [] => m | b :: src' => store_bytes (a + 1) src' (<[a := b]> m) end.
Definition copy_in (a : Z) (src : list Z) : M kmem unit := modify (fun s => set_mm (store_bytes a src (mm s)) s).

(** [*pte & bit] as a condition. *)
Definition has (e bit : Z) : bool := negb (Z.land e bit =? 0).

Definition walkpgdir (pgdir va : Z) (alloc : bool) : M kmem Z :=
  let pde := pgdir + 4 * PDX va in
  let! e := ld pde in
  if has e PTE_P then ret (p2v (PTE_ADDR e) + 4 * PTX va)
  else if negb alloc then ret 0
  else
    let! pgtab := kalloc in
    if pgtab =? 0 then ret 0
    else
      memset pgtab 0 PGSIZE ;!
      st pde (Z.lor (Z.lor (Z.lor (v2p pgtab) PTE_P) PTE_W) PTE_U) ;!
      ret (pgtab + 4 * PTX va).

(** The endless loop of [mappages], left when [a == last]. *)
Fixpoint mappages_loop (n : nat) (pgdir a last pa perm : Z) : M kmem Z :=
  match n with
  | O => nofuel
  | S n' =>
      let! pte := walkpgdir pgdir a true in
      if pte =? 0 then ret (-1)
      else
        let! e := ld pte in
        if has e PTE_P then panic "remap"
        else
          st pte (Z.lor (Z.lor pa perm) PTE_P) ;!
          if a =? last then ret 0
          else mappages_loop n' pgdir (u32 (a + PGSIZE)) last (u32 (pa + PGSIZE)) perm
  end.

Definition mappages (pgdir va size pa perm : Z) : M kmem Z :=
  let a := PGROUNDDOWN va in
  let last := PGROUNDDOWN (va + size - 1) in
  mappages_loop (Z.to_nat (u32 (last - a) / PGSIZE + 1)) pgdir a last pa perm.

Definition inituvm (pgdir init sz : Z) : M kmem unit :=
  if sz >=? PGSIZE then panic "inituvm: more than a page"
  else
    let! m := kalloc in
    if m =? 0 then wild "inituvm: memset of a null pointer"
    else
      memset m 0 PGSIZE ;!
      mappages pgdir 0 PGSIZE (v2p m) (Z.lor PTE_W PTE_U) ;!
      memmove m init sz.

(** [for (; a < oldsz; a += PGSIZE)] of [deallocuvm]. *)
Fixpoint dealloc_loop (n : nat) (pgdir a oldsz : Z) : M kmem unit :=
  match n with
  | O => nofuel
  | S n' =>
      if a <? oldsz then
        let! pte := walkpgdir pgdir a false in
        if pte =? 0 then
          dealloc_loop n' pgdir (u32 (u32 (a + (NPTENTRIES - 1) * PGSIZE) + PGSIZE)) oldsz
        else
          let! e := ld pte in
          (if has e PTE_P then
             let pa := PTE_ADDR e in
             if pa =? 0 then panic "kfree" else kfree (p2v pa) ;! st pte 0
           else ret tt) ;!
          dealloc_loop n' pgdir (u32 (a + PGSIZE)) oldsz
      else ret tt
  end.

Definition deallocuvm (pgdir oldsz newsz : Z) : M kmem Z :=
  if newsz >=? oldsz then ret oldsz
  else
    dealloc_loop (Z.to_nat ((oldsz - newsz) / PGSIZE + 2)) pgdir (PGROUNDUP newsz) oldsz ;!
    ret newsz.

(** [for (; a < newsz; a += PGSIZE)] of [allocuvm]; the result is false when
    the function returned 0 from inside the loop. *)
Fixpoint alloc_loop (n : nat) (pgdir a oldsz newsz : Z) : M kmem bool :=
  match n with
  | O => nofuel
  | S n' =>
      if a <? newsz then
        let! m := kalloc in
        if m =? 0 then
          deallocuvm pgdir newsz oldsz ;! ret false
        else
          memset m 0 PGSIZE ;!
          mappages pgdir a PGSIZE (v2p m) (Z.lor PTE_W PTE_U) ;!
          alloc_loop n' pgdir (u32 (a + PGSIZE)) oldsz newsz
      else ret true
  end.

Definition allocuvm (pgdir oldsz newsz : Z) : M kmem Z :=
  if newsz >=? KERNBASE then ret 0
  else if newsz <? oldsz then ret oldsz
  else
    let! ok := alloc_loop (Z.to_nat ((newsz - oldsz) / PGSIZE + 2)) pgdir (PGROUNDUP oldsz) oldsz newsz in
    ret (if ok : bool then newsz else 0).

(** [for (i = 0; i < NPDENTRIES; i++)] of [freevm]. *)
Definition free_tables (pgdir : Z) : M kmem unit :=
  forM (seqZ 0 NPDENTRIES) (fun i =>
    let! e := ld (pgdir + 4 * i) in
    if has e PTE_P then kfree (p2v (PTE_ADDR e)) else ret tt).

Definition freevm (pgdir : Z) : M kmem unit :=
  if pgdir =? 0 then panic "freevm: no pgdir"
  else
    deallocuvm pgdir KERNBASE 0 ;!
    free_tables pgdir ;!
    kfree pgdir.

Definition clearpteu (pgdir uva : Z) : M kmem unit :=
  let! pte := walkpgdir pgdir uva false in
  if pte =? 0 then panic "clearpteu"
  else let! e := ld pte in st pte (Z.land e (u32 (Z.lnot PTE_U))).

Definition uva2ka (pgdir uva : Z) : M kmem Z :=
  let! pte := walkpgdir pgdir uva false in
  if pte =? 0 then wild "uva2ka: read of a null pointer"
  else
    let! e := ld pte in
    if negb (has e PTE_P) then ret 0
    else if negb (has e PTE_U) then ret 0
    else ret (p2v (PTE_ADDR e)).

(** [buf] is what is left of the bytes at [p]: [len] and [buf] of the code. *)
Fixpoint copyout_loop (n : nat) (pgdir va : Z) (buf : list Z) : M kmem Z :=
  match n with
  | O => nofuel
  | S n' =>
      let len := Z.of_nat (length buf) in
      if len >? 0 then
        let va0 := PGROUNDDOWN va in
        let! pa0 := uva2ka pgdir va0 in
        if pa0 =? 0 then ret (-1)
        else
          let n0 := PGSIZE - (va - va0) in
          let n0 := if n0 >? len then len else n0 in
          copy_in (pa0 + (va - va0)) (take (Z.to_nat n0) buf) ;!
          copyout_loop n' pgdir (u32 (va0 + PGSIZE)) (drop (Z.to_nat n0) buf)
      else ret 0
  end.

Definition copyout (pgdir va : Z) (p : list Z) : M kmem Z :=
  copyout_loop (Z.to_nat (Z.of_nat (length p) / PGSIZE + 3)) pgdir va p.

(** The kernel's part of every page table. *)
Record kmap_entry := { virt : Z; phys_start : Z; phys_end : Z; kperm : Z }.

Definition kmap `{!DataSegment} : list kmap_entry := [
  {| virt := KERNBASE; phys_start := 0; phys_end := EXTMEM; kperm := PTE_W |};
  {| virt := KERNLINK; phys_start := v2p KERNLINK; phys_end := v2p kdata; kperm := 0 |};
  {| virt := kdata; phys_start := v2p kdata; phys_end := PHYSTOP; kperm := PTE_W |};
  {| virt := DEVSPACE; phys_start := DEVSPACE; phys_end := 0; kperm := PTE_W |}].

(** The loop over [kmap]: false when a [mappages] failed. *)
Fixpoint map_all (pgdir : Z) (l : list kmap_entry) : M kmem bool :=
  match l with
  | [] => ret true
  | k :: l' =>
      let! r := mappages pgdir (virt k) (u32 (phys_end k - phys_start k)) (phys_start k) (kperm k) in
      if r <? 0 then ret false else map_all pgdir l'
  end.

Definition setupkvm `{!DataSegment} : M kmem Z :=
  let! pgdir := kalloc in
  if pgdir =? 0 then ret 0
  else
    memset pgdir 0 PGSIZE ;!
    if p2v PHYSTOP >? DEVSPACE then panic "PHYSTOP too high"
    else
      let! ok := map_all pgdir kmap in
      ret (if ok : bool then pgdir else 0).

(** The loop of [copyuvm]: false is the jump to [bad]. *)
Fixpoint copy_loop (n : nat) (pgdir d i sz : Z) : M kmem bool :=
  match n with
  | O => nofuel
  | S n' =>
      if i <? sz then
        let! pte := walkpgdir pgdir i false in
        if pte =? 0 then panic "copyuvm: pte should exist"
        else
          let! e := ld pte in
          if negb (has e PTE_P) then panic "copyuvm: page not present"
          else
            let! m := kalloc in
            if m =? 0 then ret false
            else
              memmove m (p2v (PTE_ADDR e)) PGSIZE ;!
              let! r := mappages d i PGSIZE (v2p m) (PTE_FLAGS e) in
              if r <? 0 then ret false
              else copy_loop n' pgdir d (u32 (i + PGSIZE)) sz
      else ret true
  end.

Definition copyuvm `{!DataSegment} (pgdir sz : Z) : M kmem Z :=
  let! d := setupkvm in
  if d =? 0 then ret 0
  else
    let! ok := copy_loop (Z.to_nat (sz / PGSIZE + 2)) pgdir d 0 sz in
    if ok : bool then ret d else freevm d ;! ret 0.

(** [loaduvm], in a larger state that also has the file, with its [readi]
    (dst, offset, n). *)
Fixpoint load_loop {S} (lift : forall A, M kmem A -> M S A) (readi : Z -> Z -> Z -> M S Z)
    (n : nat) (pgdir addr offset i sz : Z) : M S Z :=
  match n with
  | O => nofuel
  | S n' =>
      if i <? sz then
        let! pte := lift _ (walkpgdir pgdir (addr + i) false) in
        if pte =? 0 then panic "loaduvm: address should exist"
        else
          let! e := lift _ (ld pte) in
          let pa := PTE_ADDR e in
          let n0 := if sz - i <? PGSIZE then sz - i else PGSIZE in
          let! r := readi (p2v pa) (u32 (offset + i)) n0 in
          if negb (r =? n0) then ret (-1)
          else load_loop lift readi n' pgdir addr offset (u32 (i + PGSIZE)) sz
      else ret 0
  end.

Definition loaduvm {S} (lift : forall A, M kmem A -> M S A) (readi : Z -> Z -> Z -> M S Z)
    (pgdir addr offset sz : Z) : M S Z :=
  if negb (addr mod PGSIZE =? 0) then panic "loaduvm: addr must be page aligned"
  else load_loop lift readi (Z.to_nat (sz / PGSIZE + 2)) pgdir addr offset 0 sz.

(** ** Entries *)

Lemma PDX_eq va : PDX va = u32 va / 4194304.
Proof.
  unfold PDX. rewrite Z.shiftr_div_pow2 by lia. change 1023 with (Z.ones 10). rewrite Z.land_ones by lia.
  change (2 ^ 22) with 4194304. change (2 ^ 10) with 1024. wrap_lia.
Qed.

Lemma PTX_eq va : PTX va = u32 va / 4096 mod 1024.
Proof.
  unfold PTX. rewrite Z.shiftr_div_pow2 by lia. change 1023 with (Z.ones 10). rewrite Z.land_ones by lia. done.
Qed.

Lemma PDX_range va : 0 <= PDX va < 1024.
Proof. rewrite PDX_eq. wrap_lia. Qed.

Lemma PTX_range va : 0 <= PTX va < 1024.
Proof. rewrite PTX_eq. wrap_lia. Qed.

(** Two page-aligned addresses with the same indices are the same. *)
Lemma index_inj a b : 0 <= a < 2 ^ 32 -> 0 <= b < 2 ^ 32 -> PDX a = PDX b -> PTX a = PTX b ->
  a - a mod PGSIZE = b - b mod PGSIZE.
Proof.
  intros Ha Hb. rewrite !PDX_eq, !PTX_eq, !(u32_small a), !(u32_small b) by done. unfold PGSIZE.
  Z.div_mod_to_equations. lia.
Qed.

Lemma index_down a : 0 <= a < 2 ^ 32 -> PDX (a - a mod PGSIZE) = PDX a /\ PTX (a - a mod PGSIZE) = PTX a.
Proof.
  intros Ha. assert (Hd : 0 <= a - a mod PGSIZE < 2 ^ 32) by (unfold PGSIZE; Z.div_mod_to_equations; lia).
  rewrite !PDX_eq, !PTX_eq, (u32_small a), (u32_small (a - a mod PGSIZE)) by done. unfold PGSIZE.
  Z.div_mod_to_equations. lia.
Qed.

(** The addresses of the page at [a] are those with its indices. *)
Lemma same_page a va : 0 <= a < 2 ^ 32 -> a mod PGSIZE = 0 -> 0 <= va < 2 ^ 32 ->
  (PDX va = PDX a /\ PTX va = PTX a) <-> a <= va < a + PGSIZE.
Proof.
  intros Ha Hal Hva. split.
  - intros [E1 E2]. pose proof (index_inj va a Hva Ha E1 E2) as Hd. rewrite Hal, Z.sub_0_r in Hd.
    pose proof (Z.mod_pos_bound va PGSIZE ltac:(done)). lia.
  - intros Hr. assert (Hd : va - va mod PGSIZE = a) by (unfold PGSIZE in *; Z.div_mod_to_equations; lia).
    destruct (index_down va Hva) as [<- <-]. by rewrite Hd.
Qed.

Lemma land_1_odd x : 0 <= x -> Z.land x 1 = x mod 2.
Proof. intros. change 1 with (Z.ones 1) at 1. by rewrite Z.land_ones. Qed.

(** An entry is an aligned address plus flags. *)
Lemma entry_or pa fl : 0 <= pa -> pa mod PGSIZE = 0 -> 0 <= fl < PGSIZE -> Z.lor pa fl = pa + fl.
Proof.
  intros Hp Ha Hf. pose proof (lor_shift_add (pa / 4096) fl 12) as Hl.
  change (2 ^ 12) with 4096 in Hl.
  unfold PGSIZE in *. replace (pa / 4096 * 4096) with pa in Hl by (Z.div_mod_to_equations; lia).
  apply Hl; lia.
Qed.

Lemma entry_parts pa fl : 0 <= pa < 2 ^ 32 -> pa mod PGSIZE = 0 -> 0 <= fl < PGSIZE ->
  PTE_ADDR (pa + fl) = pa /\ PTE_FLAGS (pa + fl) = fl /\ u32 (pa + fl) = pa + fl.
Proof.
  intros Hp Ha Hf. assert (Hu : u32 (pa + fl) = pa + fl).
  { apply u32_small. unfold PGSIZE in *. Z.div_mod_to_equations. lia. }
  unfold PTE_ADDR, PTE_FLAGS. rewrite Hu. change (u32 (Z.lnot 4095)) with (u32 (Z.lnot (PGSIZE - 1))).
  rewrite land_pgmask by (unfold PGSIZE in *; Z.div_mod_to_equations; lia).
  change 4095 with (Z.ones 12). rewrite Z.land_ones by lia. change (2 ^ 12) with 4096.
  unfold PGSIZE in *. split_and!; [..|done]; Z.div_mod_to_equations; lia.
Qed.

Lemma has_P x : 0 <= x -> has x PTE_P = negb (x mod 2 =? 0).
Proof. intros. unfold has, PTE_P. by rewrite land_1_odd. Qed.

(** Setting the present bit of flags. *)
Definition present (perm : Z) : Z := Z.lor perm PTE_P.

Lemma present_flags perm : 0 <= perm < PGSIZE -> 0 <= present perm < PGSIZE /\ present perm mod 2 = 1.
Proof.
  intros Hp. unfold present, PTE_P. split.
  - split; [apply Z.lor_nonneg; lia|]. destruct (Z.eq_dec (Z.lor perm 1) 0) as [->|]; [unfold PGSIZE; lia|].
    apply Z.log2_lt_cancel. rewrite Z.log2_lor by lia. change (Z.log2 PGSIZE) with 12. change (Z.log2 1) with 0.
    destruct (Z.eq_dec perm 0) as [->|]; [cbn; lia|].
    pose proof (Z.log2_lt_pow2 perm 12). unfold PGSIZE in *. change (2 ^ 12) with 4096 in *.
    pose proof (Z.log2_nonneg perm). lia.
  - change 2 with (2 ^ 1). rewrite <- Z.land_ones by lia. change (Z.ones 1) with 1. rewrite Z.land_lor_distr_l.
    change (Z.land 1 1) with 1. rewrite land_1_odd by lia.
    assert (perm mod 2 = 0 \/ perm mod 2 = 1) as [->| ->] by (Z.div_mod_to_equations; lia); done.
Qed.

Lemma entry_has_P pa fl : 0 <= pa -> pa mod PGSIZE = 0 -> 0 <= fl -> fl mod 2 = 1 -> has (pa + fl) PTE_P = true.
Proof.
  intros Hp Ha Hf Ho. rewrite has_P by lia. apply negb_true_iff, Z.eqb_neq.
  unfold PGSIZE in *. Z.div_mod_to_equations. lia.
Qed.

Lemma page_phys v : is_page v -> v2p v mod PGSIZE = 0 /\ 0 <= v2p v < PHYSTOP /\ p2v (v2p v) = v.
Proof.
  intros [Ha Hv]. pose proof kend_ok. unfold v2p, p2v, KERNBASE, PHYSTOP in *.
  rewrite (u32_small (v - 2147483648)) by lia. rewrite u32_small by lia. unfold PGSIZE in *.
  split_and!; try lia. Z.div_mod_to_equations. lia.
Qed.

(** ** Words of pages *)

Lemma word_in_page v i b : 0 <= i < 1024 -> v + 4 * i <= b < v + 4 * i + 4 -> in_page v b.
Proof. unfold in_page, PGSIZE. lia. Qed.

Lemma load_store_page m v w i j e : v mod PGSIZE = 0 -> w mod PGSIZE = 0 -> 0 <= i < 1024 -> 0 <= j < 1024 ->
  load32 (KString.store32 (v + 4 * i) e m) (w + 4 * j) =
    if decide (v = w /\ i = j) then u32 e else load32 m (w + 4 * j).
Proof.
  intros Hv Hw Hi Hj. case_decide as Hd; [destruct Hd as [-> ->]; apply load32_store32|].
  apply load32_ext. intros k Hk. apply store32_other. unfold PGSIZE in *.
  destruct (Z.eq_dec v w) as [->|]; [lia|]. Z.div_mod_to_equations. lia.
Qed.

Lemma memset_page_other m v b : ~ in_page v b -> KString.memset v 0 (Z.to_nat PGSIZE) m b = m b.
Proof.
  intros Hb. rewrite (KString.memset_spec v 0 (Z.to_nat PGSIZE) m b). rewrite Z2Nat.id by (unfold PGSIZE; lia).
  unfold in_page in Hb. destruct (Z.leb_spec v b), (Z.ltb_spec b (v + PGSIZE)); try done. lia.
Qed.

Lemma memset_page_in m v b : in_page v b -> KString.memset v 0 (Z.to_nat PGSIZE) m b = 0.
Proof.
  intros Hb. rewrite (KString.memset_spec v 0 (Z.to_nat PGSIZE) m b). rewrite Z2Nat.id by (unfold PGSIZE; lia).
  unfold in_page in Hb. destruct (Z.leb_spec v b), (Z.ltb_spec b (v + PGSIZE)); try lia. done.
Qed.

Lemma load_memset m v w j : v mod PGSIZE = 0 -> w mod PGSIZE = 0 -> 0 <= j < 1024 ->
  load32 (KString.memset v 0 (Z.to_nat PGSIZE) m) (w + 4 * j) = if decide (v = w) then 0 else load32 m (w + 4 * j).
Proof.
  intros Hv Hw Hj. case_decide as Hd.
  - subst w. unfold load32. rewrite !memset_page_in by (unfold in_page, PGSIZE; lia). done.
  - apply load32_ext. intros k Hk. apply memset_page_other. unfold in_page, PGSIZE in *.
    Z.div_mod_to_equations. lia.
Qed.

(** ** The mapping a page directory defines *)

(** The page table of directory entry [i]. *)
Definition table (m : mem) (pgdir i : Z) : option Z :=
  let e := load32 m (pgdir + 4 * i) in
  if has e PTE_P then Some (p2v (PTE_ADDR e)) else None.

(** The entry the hardware finds for [va], when it is present. *)
Definition pte (m : mem) (pgdir va : Z) : option Z :=
  t ← table m pgdir (PDX va);
  let e := load32 m (t + 4 * PTX va) in
  if has e PTE_P then Some e else None.

(** [pgdir] is a page directory: it and its page tables are pages of their own,
    none of them free. *)
Record wf (s : kmem) (l : list Z) (pgdir : Z) : Prop := {
  wf_free : free s l;
  wf_dir : is_page pgdir;
  wf_dir_used : pgdir ∉ l;
  wf_tab : forall i t, 0 <= i < 1024 -> table (mm s) pgdir i = Some t -> is_page t /\ t <> pgdir /\ t ∉ l;
  wf_inj : forall i j t, 0 <= i < 1024 -> 0 <= j < 1024 ->
    table (mm s) pgdir i = Some t -> table (mm s) pgdir j = Some t -> i = j }.

(** The directory has kept its tables, gained tables only from the free list,
    and nothing outside the directory and its tables was written. *)
Record grows (s : kmem) (l : list Z) (s' : kmem) (l' : list Z) (pgdir : Z) : Prop := {
  grows_used : exists used, l = used ++ l' /\
    forall p, p ∈ used -> exists i, 0 <= i < 1024 /\ table (mm s') pgdir i = Some p;
  grows_tab : forall i t, 0 <= i < 1024 -> table (mm s) pgdir i = Some t -> table (mm s') pgdir i = Some t;
  grows_new : forall i t, 0 <= i < 1024 -> table (mm s') pgdir i = Some t -> table (mm s) pgdir i = Some t \/ t ∈ l;
  grows_frame : forall b, ~ in_page pgdir b ->
    (forall i t, 0 <= i < 1024 -> table (mm s') pgdir i = Some t -> ~ in_page t b) -> mm s' b = mm s b }.

Lemma grows_refl s l pgdir : grows s l s l pgdir.
Proof. split; [|done|by left|done]. exists []. split; [done|]. by intros p ?%not_elem_of_nil. Qed.

Lemma grows_trans s l s1 l1 s2 l2 pgdir : grows s l s1 l1 pgdir -> grows s1 l1 s2 l2 pgdir -> grows s l s2 l2 pgdir.
Proof.
  intros [(u1 & -> & Hu1) Ht1 Hn1 Hf1] [(u2 & -> & Hu2) Ht2 Hn2 Hf2]. split.
  - exists (u1 ++ u2). rewrite app_assoc. split; [done|]. intros p [Hp|Hp]%elem_of_app; [|by apply Hu2].
    destruct (Hu1 p Hp) as (i & Hi & Ht). eauto.
  - eauto.
  - intros i t Hi Ht. destruct (Hn2 i t Hi Ht) as [Ht'|]; [|right; set_solver]. by apply Hn1.
  - intros b Hb Hn. rewrite Hf2 by done. apply Hf1; [done|]. intros i t Hi Ht. eapply Hn; eauto.
Qed.

Lemma table_ext m m' pgdir i : load32 m' (pgdir + 4 * i) = load32 m (pgdir + 4 * i) ->
  table m' pgdir i = table m pgdir i.
Proof. unfold table. by intros ->. Qed.

(** Storing an entry of a page table. *)
Lemma set_pte s l pgdir va t e : wf s l pgdir -> table (mm s) pgdir (PDX va) = Some t ->
  let s' := set_mm (KString.store32 (t + 4 * PTX va) e (mm s)) s in
  wf s' l pgdir /\ grows s l s' l pgdir /\
  forall va', pte (mm s') pgdir va' =
    if decide (PDX va' = PDX va /\ PTX va' = PTX va) then (if has (u32 e) PTE_P then Some (u32 e) else None)
    else pte (mm s) pgdir va'.
Proof.
  intros Hwf Ht s'. pose proof (PDX_range va) as Hd. pose proof (PTX_range va) as Hx.
  destruct (wf_tab _ _ _ Hwf _ _ Hd Ht) as ([Hta Htr] & Htd & Htl). pose proof (wf_dir _ _ _ Hwf) as [Hpa Hpr].
  assert (Hsame : forall i, 0 <= i < 1024 -> table (mm s') pgdir i = table (mm s) pgdir i).
  { intros i Hi. apply table_ext. cbn. rewrite load_store_page by done. case_decide; naive_solver. }
  assert (Hfr : forall b, ~ in_page t b -> mm s' b = mm s b).
  { intros b Hb. cbn. apply store32_other. unfold in_page, PGSIZE in Hb. lia. }
  split_and!.
  - split; [|apply Hwf|apply Hwf| |].
    + apply free_frame; [apply Hwf|]. intros v b Hv Hb. apply Hfr.
      pose proof (free_pages _ _ (wf_free _ _ _ Hwf)) as Hp. rewrite Forall_forall in Hp. destruct (Hp v Hv) as [Hva _].
      eapply (pages_apart v); [done|done| |done]. by intros ->.
    + intros i t' Hi. rewrite Hsame by done. by apply (wf_tab _ _ _ Hwf).
    + intros i j t' Hi Hj. rewrite !Hsame by done. by apply (wf_inj _ _ _ Hwf).
  - split; [exists []; split; [done|by intros p ?%not_elem_of_nil]|intros i t' Hi; by rewrite Hsame| |].
    { intros i t' Hi. rewrite Hsame by done. by left. }
    intros b _ Hn. apply Hfr. apply (Hn (PDX va)); [done|]. by rewrite Hsame.
  - intros va'. unfold pte. pose proof (PDX_range va') as Hd'. pose proof (PTX_range va') as Hx'.
    rewrite Hsame by done. destruct (table (mm s) pgdir (PDX va')) as [t'|] eqn:Et'; cbn [mbind option_bind].
    + destruct (wf_tab _ _ _ Hwf _ _ Hd' Et') as ([Hta' _] & _). cbn. rewrite load_store_page by done.
      destruct (decide (PDX va' = PDX va /\ PTX va' = PTX va)) as [[E1 E2]|Hne].
      * rewrite E1, Ht in Et'. simplify_eq. by rewrite decide_True.
      * rewrite decide_False; [done|]. intros [-> E2]. apply Hne. split; [|done].
        by eapply (wf_inj _ _ _ Hwf).
    + case_decide as Hx1; [|done]. destruct Hx1 as [E1 _]. congruence.
Qed.

(** The directory entry for a page table. *)
Lemma table_entry t : is_page t ->
  let e := Z.lor (Z.lor (Z.lor (v2p t) PTE_P) PTE_W) PTE_U in
  has (u32 e) PTE_P = true /\ p2v (PTE_ADDR (u32 e)) = t.
Proof.
  intros Ht. destruct (page_phys t Ht) as (Ha & Hr & Hp). cbv zeta.
  rewrite <- !Z.lor_assoc. change (Z.lor PTE_P (Z.lor PTE_W PTE_U)) with 7. unfold PHYSTOP in Hr.
  rewrite entry_or by (unfold PGSIZE in *; lia).
  destruct (entry_parts (v2p t) 7) as (E1 & _ & E3); [lia|done|unfold PGSIZE; lia|]. rewrite E3, E1.
  split; [|done]. apply entry_has_P; try done; lia.
Qed.

(** Memory after a fresh page table has been entered for [va]. *)
Definition with_table (t pgdir va : Z) (m : mem) : mem :=
  KString.store32 (pgdir + 4 * PDX va) (Z.lor (Z.lor (Z.lor (v2p t) PTE_P) PTE_W) PTE_U)
    (KString.memset t 0 (Z.to_nat PGSIZE) m).

Lemma new_table s t l pgdir va : wf s (t :: l) pgdir -> table (mm s) pgdir (PDX va) = None ->
  let s' := set_mm (with_table t pgdir va (mm s)) (set_freelist (load32 (mm s) t) s) in
  wf s' l pgdir /\ grows s (t :: l) s' l pgdir /\ table (mm s') pgdir (PDX va) = Some t /\
  forall va', pte (mm s') pgdir va' = pte (mm s) pgdir va'.
Proof.
  intros Hwf Hnone s'. pose proof (PDX_range va) as Hd.
  pose proof (kalloc_spec _ _ (wf_free _ _ _ Hwf)) as [_ Hf1].
  pose proof (free_pages _ _ (wf_free _ _ _ Hwf)) as Hps. apply Forall_cons in Hps as [Htp Hps].
  pose proof (free_nodup _ _ (wf_free _ _ _ Hwf)) as Hnd. apply NoDup_cons in Hnd as [Htl _].
  pose proof (wf_dir _ _ _ Hwf) as [Hpa Hpr]. pose proof (wf_dir_used _ _ _ Hwf) as Hpl.
  assert (Htd : t <> pgdir) by set_solver. destruct (table_entry t Htp) as [He1 He2].
  assert (Hta : t mod PGSIZE = 0) by apply Htp. rewrite Forall_forall in Hps.
  assert (Htab : forall i, 0 <= i < 1024 -> table (mm s') pgdir i =
            if decide (i = PDX va) then Some t else table (mm s) pgdir i).
  { intros i Hi. unfold table. cbn. unfold with_table. rewrite load_store_page by done.
    destruct (decide (i = PDX va)) as [->|Hne].
    - rewrite decide_True by done. by rewrite He1, He2.
    - rewrite decide_False by naive_solver. by rewrite load_memset, decide_False by done. }
  assert (Hfr : forall b, ~ in_page t b -> ~ in_page pgdir b -> mm s' b = mm s b).
  { intros b Hb1 Hb2. cbn. unfold with_table. rewrite store32_other by (unfold in_page, PGSIZE in Hb2; lia).
    by apply memset_page_other. }
  split_and!.
  - split; [|apply Hwf|set_solver| |].
    + apply (free_frame _ _ _ Hf1). intros v b Hv Hb. apply Hfr; (eapply (pages_apart v);
        [apply (Hps v Hv)|done|intros ->; set_solver|done]).
    + intros i t' Hi. rewrite Htab by done. case_decide; [intros [= <-]; done|].
      intros Ht'. apply (wf_tab _ _ _ Hwf) in Ht'; [|done]. set_solver.
    + intros i j t' Hi Hj. rewrite !Htab by done. repeat case_decide; subst; try done; intros E1 E2; simplify_eq.
      * apply (wf_tab _ _ _ Hwf) in E2; [|done]. set_solver.
      * apply (wf_tab _ _ _ Hwf) in E1; [|done]. set_solver.
      * by eapply (wf_inj _ _ _ Hwf).
  - split.
    + exists [t]. split; [done|]. intros p ->%list_elem_of_singleton. exists (PDX va).
      by rewrite Htab, decide_True.
    + intros i t' Hi Ht'. rewrite Htab by done. by rewrite decide_False by congruence.
    + intros i t' Hi. rewrite Htab by done. case_decide; [|by left]. intros [= <-]. right. left.
    + intros b Hb Hn. apply Hfr; [|done]. apply (Hn (PDX va)); [done|]. by rewrite Htab, decide_True.
  - by rewrite Htab, decide_True.
  - intros va'. unfold pte. rewrite Htab by apply PDX_range. pose proof (PTX_range va').
    case_decide as Hc; [rewrite Hc, Hnone; cbn; unfold with_table; rewrite load_store_page by done;
      rewrite decide_False by naive_solver; by rewrite load_memset, decide_True|].
    destruct (table (mm s) pgdir (PDX va')) as [t'|] eqn:Et'; [|done]. cbn [mbind option_bind].
    destruct (wf_tab _ _ _ Hwf _ _ (PDX_range _) Et') as ([Hta' _] & Htd' & Htl'). cbn. unfold with_table.
    rewrite load_store_page, decide_False by (done || naive_solver).
    by rewrite load_memset, decide_False by (done || set_solver).
Qed.

Lemma p2v_nonzero t i : is_page t -> 0 <= i < 1024 -> (t + 4 * i =? 0) = false.
Proof. intros Ht Hi. apply is_page_pos in Ht. lia. Qed.

Lemma walk_lookup s l pgdir va : wf s l pgdir ->
  walkpgdir pgdir va false s =
    Done (match table (mm s) pgdir (PDX va) with Some t => t + 4 * PTX va | None => 0 end) s.
Proof. intros Hwf. unfold walkpgdir, table, bind, ld, gets. by destruct (has _ PTE_P). Qed.

Lemma walk_eq pgdir va s : walkpgdir pgdir va true s =
  let e := load32 (mm s) (pgdir + 4 * PDX va) in
  if has e PTE_P then Done (p2v (PTE_ADDR e) + 4 * PTX va) s
  else bind kalloc (fun pgtab => if pgtab =? 0 then ret 0 else
    fun s => Done (pgtab + 4 * PTX va) (set_mm (with_table pgtab pgdir va (mm s)) s)) s.
Proof. unfold walkpgdir, bind at 1, ld, gets. by destruct (has _ PTE_P). Qed.

(** [walkpgdir] with [alloc]: the address of the entry, or 0 when there is no
    memory for a page table; the mapping does not change. *)
Lemma walk_alloc s l pgdir va : wf s l pgdir ->
  (l = [] /\ table (mm s) pgdir (PDX va) = None /\ walkpgdir pgdir va true s = Done 0 s) \/
  exists s' l' t, walkpgdir pgdir va true s = Done (t + 4 * PTX va) s' /\ wf s' l' pgdir /\
    grows s l s' l' pgdir /\ table (mm s') pgdir (PDX va) = Some t /\ (length l <= S (length l'))%nat /\
    forall va', pte (mm s') pgdir va' = pte (mm s) pgdir va'.
Proof.
  intros Hwf. rewrite !walk_eq. cbv zeta. destruct (has (load32 (mm s) (pgdir + 4 * PDX va)) PTE_P) eqn:E.
  - right. exists s, l. eexists. split; [reflexivity|]. split_and!; try done; [apply grows_refl| |lia].
    unfold table. by rewrite E.
  - assert (Hn : table (mm s) pgdir (PDX va) = None) by (unfold table; by rewrite E). cbn [negb].
    pose proof (kalloc_spec _ _ (wf_free _ _ _ Hwf)) as Hk. destruct l as [|t l].
    + left. split_and!; try done. by rewrite (bind_Done _ _ _ _ _ Hk).
    + right. destruct Hk as [Hk Hf]. destruct (new_table s t l pgdir va Hwf Hn) as (H1 & H2 & H3 & H4).
      eexists _, l, t. split; [|split_and!; [exact H1|exact H2|exact H3|cbn; lia|exact H4]].
      rewrite (bind_Done _ _ _ _ _ Hk). pose proof (free_pages _ _ (wf_free _ _ _ Hwf)) as Hps.
      apply Forall_cons in Hps as [Htp _]. apply is_page_pos in Htp.
      assert (E0 : (t =? 0) = false) by lia. by rewrite E0.
Qed.

(** ** Creating mappings *)

(** The mapping [old] with [k] pages from [a] on sent to [pa] on. *)
Definition mapped (a pa fl : Z) (k : nat) (old : Z -> option Z) (va : Z) : option Z :=
  if (a <=? va) && (va <? a + PGSIZE * Z.of_nat k) then Some (pa + (va - va mod PGSIZE - a) + fl) else old va.

Lemma mapped_0 a pa fl old va : mapped a pa fl 0 old va = old va.
Proof. unfold mapped. destruct (Z.leb_spec a va), (Z.ltb_spec va (a + PGSIZE * Z.of_nat 0)); cbn; try done; lia. Qed.

Lemma mapped_ext a pa fl k old old' va : old va = old' va -> mapped a pa fl k old va = mapped a pa fl k old' va.
Proof. unfold mapped. by intros ->. Qed.

Lemma mapped_S a pa fl k old va : a mod PGSIZE = 0 ->
  mapped (a + PGSIZE) (pa + PGSIZE) fl k (mapped a pa fl 1 old) va = mapped a pa fl (S k) old va.
Proof.
  intros Ha. unfold mapped. pose proof (Z.mod_pos_bound va PGSIZE ltac:(done)).
  destruct (Z.leb_spec (a + PGSIZE) va), (Z.ltb_spec va (a + PGSIZE + PGSIZE * Z.of_nat k)), (Z.leb_spec a va),
    (Z.ltb_spec va (a + PGSIZE * Z.of_nat 1)), (Z.ltb_spec va (a + PGSIZE * Z.of_nat (S k))); cbn [andb];
    try done; try (unfold PGSIZE in *; lia). f_equal. lia.
Qed.

(** One page: the entry is found or made, is not present, and is written. *)
Lemma map_one s l pgdir a pa perm : wf s l pgdir -> 0 <= a < 2 ^ 32 -> a mod PGSIZE = 0 ->
  0 <= pa < 2 ^ 32 -> pa mod PGSIZE = 0 -> 0 <= perm < PGSIZE -> pte (mm s) pgdir a = None ->
  (l = [] /\ walkpgdir pgdir a true s = Done 0 s) \/
  exists q s1 s' l', walkpgdir pgdir a true s = Done q s1 /\ (q =? 0) = false /\
    has (load32 (mm s1) q) PTE_P = false /\
    s' = set_mm (KString.store32 q (Z.lor (Z.lor pa perm) PTE_P) (mm s1)) s1 /\
    wf s' l' pgdir /\ grows s l s' l' pgdir /\ (length l <= S (length l'))%nat /\
    forall va, 0 <= va < 2 ^ 32 -> pte (mm s') pgdir va = mapped a pa (present perm) 1 (pte (mm s) pgdir) va.
Proof.
  intros Hwf Ha Hal Hp Hpal Hperm Hnone.
  destruct (walk_alloc s l pgdir a Hwf) as [(? & _ & ?)|(s1 & l1 & t & Hw & Hwf1 & Hg1 & Ht & Hlen & Hpte)]; [by left|].
  right. exists (t + 4 * PTX a), s1. pose proof (PTX_range a) as Hx.
  destruct (wf_tab _ _ _ Hwf1 _ _ (PDX_range a) Ht) as (Htp & _ & _).
  assert (Hnp : has (load32 (mm s1) (t + 4 * PTX a)) PTE_P = false).
  { specialize (Hpte a). rewrite Hnone in Hpte. unfold pte in Hpte. rewrite Ht in Hpte. cbn in Hpte.
    by destruct (has _ PTE_P). }
  destruct (set_pte s1 l1 pgdir a t (Z.lor (Z.lor pa perm) PTE_P) Hwf1 Ht) as (Hwf2 & Hg2 & Hpte2).
  eexists _, l1. split_and!; [done|by apply p2v_nonzero|done|reflexivity|exact Hwf2|by eapply grows_trans|done|].
  intros va Hva. rewrite Hpte2, Hpte.
  destruct (present_flags perm Hperm) as [Hf1 Hf2]. rewrite <- Z.lor_assoc. fold (present perm).
  rewrite entry_or by (done || lia). destruct (entry_parts pa (present perm)) as (_ & _ & ->); [done|done|done|].
  rewrite entry_has_P by (done || lia). unfold mapped.
  pose proof (same_page a va Ha Hal Hva) as Hsp. pose proof (Z.mod_pos_bound va PGSIZE ltac:(done)).
  destruct (decide (PDX va = PDX a /\ PTX va = PTX a)) as [Hi|Hne]; rewrite Hsp in *;
    destruct (Z.leb_spec a va), (Z.ltb_spec va (a + PGSIZE * Z.of_nat 1)); cbn [andb]; try lia; [|done..].
  f_equal. unfold PGSIZE in *. Z.div_mod_to_equations. lia.
Qed.

Lemma mappages_loop_spec n : forall s l pgdir a last pa perm, wf s l pgdir -> 0 <= a -> a mod PGSIZE = 0 ->
  a + PGSIZE * Z.of_nat n = last -> last + PGSIZE <= 2 ^ 32 -> 0 <= pa -> pa mod PGSIZE = 0 ->
  pa + PGSIZE * Z.of_nat n < 2 ^ 32 -> 0 <= perm < PGSIZE ->
  (forall va, a <= va < last + PGSIZE -> pte (mm s) pgdir va = None) ->
  exists r s' l' k, mappages_loop (S n) pgdir a last pa perm s = Done r s' /\ wf s' l' pgdir /\
    grows s l s' l' pgdir /\ (length l <= length l' + S n)%nat /\
    ((r = 0 /\ k = S n) \/ (r = -1 /\ (k <= n)%nat /\ l' = [])) /\
    forall va, 0 <= va < 2 ^ 32 -> pte (mm s') pgdir va = mapped a pa (present perm) k (pte (mm s) pgdir) va.
Proof.
  induction n as [|n IH]; intros s l pgdir a last pa perm Hwf Ha Hal Hlast Hl32 Hp Hpal Hp32 Hperm Hnone;
    (destruct (map_one s l pgdir a pa perm) as [[-> Hw]|(q & s1 & s' & l' & Hw & Hq & Hnp & Hs' & Hwf' & Hg & Hlen & Hpte)];
      [done|unfold PGSIZE in *; lia|done|unfold PGSIZE in *; lia|done|done|apply Hnone; unfold PGSIZE in *; lia|
       exists (-1), s, [], 0%nat; split_and!; try done; [|apply grows_refl|cbn; lia|right; split_and!; [done|lia|done]|by intros; rewrite mapped_0];
         cbn [mappages_loop]; by rewrite (bind_Done _ _ _ _ _ Hw)|]);
    cbn [mappages_loop]; rewrite (bind_Done _ _ _ _ _ Hw), Hq; unfold bind at 1; cbn [ld gets]; rewrite Hnp;
    unfold bind at 1; cbn [st modify]; rewrite <- Hs'.
  - replace (a =? last) with true by lia. exists 0, s', l', 1%nat. split_and!; try done; [lia|by left].
  - replace (a =? last) with false by (unfold PGSIZE in *; lia).
    rewrite (u32_small (a + PGSIZE)), (u32_small (pa + PGSIZE)) by (unfold PGSIZE in *; lia).
    destruct (IH s' l' pgdir (a + PGSIZE) last (pa + PGSIZE) perm) as (r & s2 & l2 & k & E & Hwf2 & Hg2 & Hlen2 & Hr & Hpte2);
      try done; try (unfold PGSIZE in *; lia); try (unfold PGSIZE in *; Z.div_mod_to_equations; lia).
    { intros va Hva. rewrite Hpte by (unfold PGSIZE in *; lia). unfold mapped.
      destruct (Z.leb_spec a va), (Z.ltb_spec va (a + PGSIZE * Z.of_nat 1)); cbn [andb];
        try (unfold PGSIZE in *; lia). apply Hnone. unfold PGSIZE in *; lia. }
    exists r, s2, l2, (S k). split_and!; try done; [by eapply grows_trans|lia|naive_solver lia|].
    intros va Hva. rewrite Hpte2, <- mapped_S by done. by apply mapped_ext, Hpte.
Qed.

Lemma PGROUNDDOWN_eq va : 0 <= va < 2 ^ 32 -> PGROUNDDOWN va = va - va mod PGSIZE.
Proof. intros. unfold PGROUNDDOWN. rewrite u32_small by done. by apply land_pgmask. Qed.

Lemma down_aligned v : (v - v mod PGSIZE) mod PGSIZE = 0.
Proof. unfold PGSIZE. Z.div_mod_to_equations. lia. Qed.

(** [mappages].  On a well-formed page directory in which no page of
    [va, va + size) is present it never panics and stays well-formed.  It
    returns 0 exactly when every page of the range is mapped to the
    corresponding physical page with the given permissions; otherwise memory
    is exhausted, it returns -1, and a prefix of the range is mapped.  All
    other addresses keep their mapping, page tables come from the free list
    only, and no byte outside the directory and its tables changes. *)
Theorem mappages_maps s l pgdir va size pa perm : wf s l pgdir -> 0 <= va -> 0 < size -> va + size <= 2 ^ 32 ->
  0 <= pa -> pa mod PGSIZE = 0 -> pa + size + PGSIZE <= 2 ^ 32 -> 0 <= perm < PGSIZE ->
  let a := va - va mod PGSIZE in
  let n := Z.to_nat ((va + size - 1) / PGSIZE - va / PGSIZE + 1) in
  (forall v, a <= v < a + PGSIZE * Z.of_nat n -> pte (mm s) pgdir v = None) ->
  exists r s' l' k, mappages pgdir va size pa perm s = Done r s' /\ wf s' l' pgdir /\ grows s l s' l' pgdir /\
    ((r = 0 /\ k = n) \/ (r = -1 /\ (k < n)%nat /\ l' = [])) /\
    forall v, 0 <= v < 2 ^ 32 -> pte (mm s') pgdir v = mapped a pa (present perm) k (pte (mm s) pgdir) v.
Proof.
  intros Hwf Hva Hsz H32 Hp Hpal Hp32 Hperm a n Hnone. unfold mappages.
  assert (Hb : 0 <= va < 2 ^ 32 /\ 0 <= va + size - 1 < 2 ^ 32) by lia. destruct Hb as [Hb1 Hb2].
  rewrite !PGROUNDDOWN_eq by done. fold a. pose proof (down_aligned va) as Hal. fold a in Hal.
  set (last := va + size - 1 - (va + size - 1) mod PGSIZE).
  assert (Hn : a + PGSIZE * Z.of_nat (n - 1) = last /\ (0 < n)%nat /\ 0 <= a /\ last + PGSIZE <= 2 ^ 32 /\
               last - a <= size + PGSIZE).
  { subst a n last. unfold PGSIZE in *. clear -Hva Hsz H32 Hb1 Hb2. Z.div_mod_to_equations. lia. }
  destruct Hn as (Hlast & Hn0 & Ha0 & Hl32 & Hspan).
  assert (Hcnt : Z.to_nat (u32 (last - a) / PGSIZE + 1) = S (n - 1)).
  { rewrite u32_small by (unfold PGSIZE in *; lia). replace (last - a) with (Z.of_nat (n - 1) * PGSIZE) by lia.
    rewrite Z.div_mul by done. lia. }
  rewrite Hcnt. assert (Hpn : pa + PGSIZE * Z.of_nat (n - 1) < 2 ^ 32).
  { assert (PGSIZE * Z.of_nat (n - 1) < size + PGSIZE); [|lia].
    subst a last. pose proof (Z.mod_pos_bound va PGSIZE ltac:(done)).
    pose proof (Z.mod_pos_bound (va + size - 1) PGSIZE ltac:(done)). lia. }
  destruct (mappages_loop_spec (n - 1) s l pgdir a last pa perm) as (r & s' & l' & k & E & H1 & H2 & _ & H3 & H4); try done.
  { intros v Hv. apply Hnone. unfold PGSIZE in *. lia. }
  exists r, s', l', k. split_and!; try done. destruct H3 as [[-> ->]|(-> & ? & ->)]; [left|right]; split_and!; try done; lia.
Qed.

(** ** Growing a process *)

(** [p] is a page that is in use and not part of the page tables. *)
Record data_page (s : kmem) (l : list Z) (pgdir p : Z) : Prop := {
  data_page_page : is_page p;
  data_used : p ∉ l;
  data_dir : p <> pgdir;
  data_tab : forall i, 0 <= i < 1024 -> table (mm s) pgdir i <> Some p }.

Lemma data_grows s l s' l' pgdir p : wf s' l' pgdir -> grows s l s' l' pgdir -> data_page s l pgdir p ->
  data_page s' l' pgdir p /\ forall b, in_page p b -> mm s' b = mm s b.
Proof.
  intros Hwf [(u & -> & _) _ Hn Hf] [Hp Hu Hd Ht]. split.
  - split; try done; [set_solver|]. intros i Hi E. destruct (Hn i p Hi E); [by eapply Ht|done].
  - intros b Hb. apply Hf.
    + eapply (pages_apart p); [apply Hp|apply Hwf|done|done].
    + intros i t Hi E. pose proof (wf_tab _ _ _ Hwf i t Hi E) as (Htp & _).
      eapply (pages_apart p); [apply Hp|apply Htp| |done]. intros <-.
      destruct (Hn i p Hi E); [by eapply Ht|done].
Qed.

(** Writing into a data page leaves the tables alone. *)
Lemma write_data s l pgdir p m' : wf s l pgdir -> data_page s l pgdir p ->
  (forall b, ~ in_page p b -> m' b = mm s b) ->
  wf (set_mm m' s) l pgdir /\
  (forall i, 0 <= i < 1024 -> table m' pgdir i = table (mm s) pgdir i) /\
  (forall va, pte m' pgdir va = pte (mm s) pgdir va) /\
  (forall q, data_page s l pgdir q -> data_page (set_mm m' s) l pgdir q).
Proof.
  intros Hwf [Hp Hu Hd Ht] Hm.
  assert (Hpg : forall q b, is_page q -> q <> p -> in_page q b -> m' b = mm s b).
  { intros q b Hq Hne Hb. apply Hm. eapply (pages_apart q); [apply Hq|apply Hp|done|done]. }
  assert (Hw : forall q i, is_page q -> q <> p -> 0 <= i < 1024 -> load32 m' (q + 4 * i) = load32 (mm s) (q + 4 * i)).
  { intros q i Hq Hne Hi. apply load32_ext. intros k Hk. apply (Hpg q); [done|done|]. unfold in_page, PGSIZE. lia. }
  assert (Htab : forall i, 0 <= i < 1024 -> table m' pgdir i = table (mm s) pgdir i).
  { intros i Hi. apply table_ext, Hw; [apply Hwf|congruence|done]. }
  split_and!; [|done| |].
  - split; [|apply Hwf|apply Hwf| |].
    + apply free_frame; [apply Hwf|]. intros v b Hv Hb. apply (Hpg v); [|by intros ->|done].
      pose proof (free_pages _ _ (wf_free _ _ _ Hwf)) as HF. rewrite Forall_forall in HF. by apply HF.
    + intros i t Hi. cbn. rewrite Htab by done. by apply (wf_tab _ _ _ Hwf).
    + intros i j t Hi Hj. cbn. rewrite !Htab by done. by apply (wf_inj _ _ _ Hwf).
  - intros va. unfold pte. rewrite Htab by apply PDX_range.
    destruct (table (mm s) pgdir (PDX va)) as [t|] eqn:E; [|done]. cbn [mbind option_bind].
    destruct (wf_tab _ _ _ Hwf _ _ (PDX_range va) E) as (Htp & _ & _).
    rewrite Hw; [done|done| |apply PTX_range]. intros ->. apply (Ht _ (PDX_range va) E).
  - intros q [Hq1 Hq2 Hq3 Hq4]. split; try done. intros i Hi. cbn. rewrite Htab by done. by apply Hq4.
Qed.

(** Taking a page for data from the free list. *)
Lemma take_data s p l pgdir : wf s (p :: l) pgdir ->
  let s' := set_freelist (load32 (mm s) p) s in
  kalloc s = Done p s' /\ (p =? 0) = false /\ wf s' l pgdir /\ data_page s' l pgdir p /\
  (forall q, data_page s (p :: l) pgdir q -> data_page s' l pgdir q /\ q <> p).
Proof.
  intros Hwf s'. destruct (kalloc_spec _ _ (wf_free _ _ _ Hwf)) as [Hk Hf].
  pose proof (free_pages _ _ (wf_free _ _ _ Hwf)) as Hps. apply Forall_cons in Hps as [Hp _].
  pose proof (free_nodup _ _ (wf_free _ _ _ Hwf)) as Hnd. apply NoDup_cons in Hnd as [Hpl _].
  pose proof (wf_dir_used _ _ _ Hwf) as Hdl. pose proof (is_page_pos _ Hp) as [Hpos _].
  split_and!; [done|lia| | |].
  - split; [done|apply Hwf|set_solver| |apply Hwf]. intros i t Hi E.
    destruct (wf_tab _ _ _ Hwf i t Hi E) as (? & ? & ?). set_solver.
  - split; [done|done|set_solver|]. intros i Hi E. destruct (wf_tab _ _ _ Hwf i p Hi E) as (_ & _ & Hn). set_solver.
  - intros q [H1 H2 H3 H4]. split; [|set_solver]. split; try done. set_solver.
Qed.

(** The flags of user pages. *)
Definition uflags : Z := Z.lor (Z.lor PTE_W PTE_U) PTE_P.

Lemma map_user s l pgdir a p : wf s l pgdir -> 0 <= a -> a + PGSIZE <= 2 ^ 32 -> a mod PGSIZE = 0 -> is_page p ->
  l <> [] -> (forall va, a <= va < a + PGSIZE -> pte (mm s) pgdir va = None) ->
  exists s' l', mappages pgdir a PGSIZE (v2p p) (Z.lor PTE_W PTE_U) s = Done 0 s' /\ wf s' l' pgdir /\
    grows s l s' l' pgdir /\ (length l <= S (length l'))%nat /\
    forall va, 0 <= va < 2 ^ 32 -> pte (mm s') pgdir va = mapped a (v2p p) uflags 1 (pte (mm s) pgdir) va.
Proof.
  intros Hwf Ha H32 Hal Hp Hne Hnone. destruct (page_phys p Hp) as (Hpa & Hpr & _). unfold PHYSTOP in Hpr.
  unfold mappages. rewrite !PGROUNDDOWN_eq by (unfold PGSIZE in *; lia).
  replace ((a + PGSIZE - 1) - (a + PGSIZE - 1) mod PGSIZE) with a
    by (unfold PGSIZE in *; Z.div_mod_to_equations; lia).
  rewrite Hal, Z.sub_0_r, Z.sub_diag. change (Z.to_nat (u32 0 / PGSIZE + 1)) with 1%nat.
  destruct (map_one s l pgdir a (v2p p) (Z.lor PTE_W PTE_U)) as [[-> _]|(q & s1 & s' & l' & Hw & Hq & Hnp & Hs' & Hwf' & Hg & Hlen & Hpte)];
    [done|unfold PGSIZE in *; lia|done|lia|done|by vm_compute|apply Hnone; unfold PGSIZE; lia|done|].
  exists s', l'. split_and!; try done. cbn [mappages_loop]. rewrite (bind_Done _ _ _ _ _ Hw), Hq. unfold bind at 1.
  cbn [ld gets]. rewrite Hnp. unfold bind at 1. cbn [st modify]. rewrite <- Hs', Z.eqb_refl. done.
Qed.

(** What a page that stays in use sees of a step: it stays in use and keeps its
    bytes. *)
Definition keeps (s : kmem) (l : list Z) (s' : kmem) (l' : list Z) (pgdir q : Z) : Prop :=
  data_page s l pgdir q -> data_page s' l' pgdir q /\ forall b, in_page q b -> mm s' b = mm s b.

(** [x] is a page table of the directory. *)
Definition is_table (s : kmem) (pgdir x : Z) : Prop := exists i, 0 <= i < 1024 /\ table (mm s) pgdir i = Some x.

(** One turn of the loop of [allocuvm], with two free pages at hand. *)
Lemma alloc_one s p l pgdir a : wf s (p :: l) pgdir -> l <> [] -> 0 <= a -> a + PGSIZE <= 2 ^ 32 ->
  a mod PGSIZE = 0 -> (forall va, a <= va < a + PGSIZE -> pte (mm s) pgdir va = None) ->
  exists s' l', (forall (k : M kmem bool) old new,
      (let! m := kalloc in if m =? 0 then deallocuvm pgdir new old ;! ret false else
       memset m 0 PGSIZE ;! mappages pgdir a PGSIZE (v2p m) (Z.lor PTE_W PTE_U) ;! k) s = k s') /\
    wf s' l' pgdir /\ (length l <= S (length l'))%nat /\ l' ⊆ l /\
    data_page s' l' pgdir p /\ (forall b, in_page p b -> mm s' b = 0) /\
    (forall va, 0 <= va < 2 ^ 32 -> pte (mm s') pgdir va = mapped a (v2p p) uflags 1 (pte (mm s) pgdir) va) /\
    (forall q, keeps s (p :: l) s' l' pgdir q) /\
    (forall x, x ∈ l -> x ∈ l' \/ is_table s' pgdir x) /\ (forall x, is_table s pgdir x -> is_table s' pgdir x).
Proof.
  intros Hwf Hl Ha H32 Hal Hnone. destruct (take_data s p l pgdir Hwf) as (Hk & Hp0 & Hwf1 & Hdp & Hkeep).
  set (s1 := set_freelist (load32 (mm s) p) s) in *.
  destruct (write_data s1 l pgdir p (KString.memset p 0 (Z.to_nat PGSIZE) (mm s1)) Hwf1 Hdp) as (Hwf2 & Htab2 & Hpte2 & Hd2).
  { intros b Hb. by apply memset_page_other. }
  set (s2 := set_mm (KString.memset p 0 (Z.to_nat PGSIZE) (mm s1)) s1) in *.
  destruct (map_user s2 l pgdir a p) as (s3 & l3 & Hm & Hwf3 & Hg & Hlen & Hpte3); try done.
  { apply Hdp. } { intros va Hva. cbn. rewrite Hpte2. by apply Hnone. }
  destruct (data_grows _ _ _ _ _ p Hwf3 Hg (Hd2 _ Hdp)) as [Hdp3 Hb3].
  exists s3, l3. split_and!; try done.
  - intros k old new. rewrite (bind_Done _ _ _ _ _ Hk), Hp0.
    rewrite (bind_Done (memset p 0 PGSIZE) _ s1 tt s2 eq_refl). by rewrite (bind_Done _ _ _ _ _ Hm).
  - destruct (grows_used _ _ _ _ _ Hg) as (u & -> & _). set_solver.
  - intros b Hb. rewrite Hb3 by done. by apply memset_page_in.
  - intros va Hva. rewrite Hpte3 by done. apply mapped_ext. apply Hpte2.
  - intros q Hq. destruct (Hkeep q Hq) as [Hq1 Hne].
    destruct (data_grows _ _ _ _ _ q Hwf3 Hg (Hd2 _ Hq1)) as [Hq3 Hbq]. split; [done|].
    intros b Hb. rewrite Hbq by done. apply memset_page_other.
    eapply (pages_apart q); [apply Hq1|apply Hdp|done|done].
  - intros x Hx. destruct (grows_used _ _ _ _ _ Hg) as (u & -> & Hu). apply elem_of_app in Hx as [Hx|Hx]; [|by left].
    right. by apply Hu.
  - intros x (i & Hi & E). exists i. split; [done|]. apply (grows_tab _ _ _ _ _ Hg); [done|].
    cbn. by rewrite Htab2.
Qed.

Lemma alloc_loop_spec k : forall fuel s l pgdir a oldsz newsz, wf s l pgdir -> (k < fuel)%nat ->
  0 <= a -> a mod PGSIZE = 0 -> newsz < KERNBASE -> newsz <= a + PGSIZE * Z.of_nat k ->
  (k <> 0%nat -> a + PGSIZE * Z.of_nat k < newsz + PGSIZE) -> (2 * k <= length l)%nat ->
  (forall va, a <= va < a + PGSIZE * Z.of_nat k -> pte (mm s) pgdir va = None) ->
  exists s' l' ps, alloc_loop fuel pgdir a oldsz newsz s = Done true s' /\ wf s' l' pgdir /\
    length ps = k /\ NoDup ps /\ l' ⊆ l /\
    (forall i p, ps !! i = Some p -> p ∈ l /\ data_page s' l' pgdir p /\ (forall b, in_page p b -> mm s' b = 0) /\
       pte (mm s') pgdir (a + PGSIZE * Z.of_nat i) = Some (v2p p + uflags)) /\
    (forall va, 0 <= va < 2 ^ 32 -> ~ (a <= va < a + PGSIZE * Z.of_nat k) ->
       pte (mm s') pgdir va = pte (mm s) pgdir va) /\
    (forall q, keeps s l s' l' pgdir q) /\ (forall q, data_page s l pgdir q -> q ∉ ps) /\
    (forall x, x ∈ l -> x ∈ l' \/ x ∈ ps \/ is_table s' pgdir x) /\
    (forall x, is_table s pgdir x -> is_table s' pgdir x).
Proof.
  induction k as [|k IH]; intros fuel s l pgdir a oldsz newsz Hwf Hfuel Ha Hal Hn Hend Hlast Hlen Hnone;
    (destruct fuel as [|fuel]; [lia|]); cbn [alloc_loop].
  { replace (a <? newsz) with false by lia. exists s, l, []. split_and!; try done; [constructor| |by left].
    intros q _. apply not_elem_of_nil. }
  specialize (Hlast ltac:(done)). replace (a <? newsz) with true by (unfold PGSIZE in *; lia).
  assert (Ha32 : a + PGSIZE <= 2 ^ 32) by (unfold PGSIZE, KERNBASE in *; lia).
  destruct l as [|p l]; [cbn in Hlen; lia|]. 
  destruct (alloc_one s p l pgdir a) as (s1 & l1 & Hrun & Hwf1 & Hlen1 & Hsub & Hdp & Hz & Hpte & Hk & Hacc & Hkt); try done.
  { intros ->. cbn in Hlen. lia. } { intros va Hva. apply Hnone. unfold PGSIZE in *. lia. }
  rewrite Hrun, u32_small by (unfold PGSIZE, KERNBASE in *; lia).
  destruct (IH fuel s1 l1 pgdir (a + PGSIZE) oldsz newsz) as (s' & l' & ps & E & Hwf' & Hlp & Hnd & Hsub' & Hps & Hoth & Hkeep & Hnew & Hacc' & Hkt');
    try done; try (unfold PGSIZE in *; lia).
  { unfold PGSIZE in *. Z.div_mod_to_equations. lia. } { cbn [length] in *. lia. }
  { intros va Hva. rewrite Hpte by (unfold PGSIZE, KERNBASE in *; lia). unfold mapped.
    destruct (Z.leb_spec a va), (Z.ltb_spec va (a + PGSIZE * Z.of_nat 1)); cbn [andb]; try (unfold PGSIZE in *; lia).
    apply Hnone. unfold PGSIZE in *. lia. }
  assert (Hpos : 0 < PGSIZE) by done. destruct (Hkeep p Hdp) as [Hdp' Hbp].
  exists s', l', (p :: ps). split_and!; try done; [cbn; lia|constructor; [by apply Hnew|done]|set_solver| | | | | |auto].
  - intros [|i] q Hq; cbn in Hq.
    + injection Hq as <-. split_and!; [left|done|intros b Hb; rewrite Hbp by done; by apply Hz|].
      rewrite Z.add_0_r, Hoth by (unfold PGSIZE in *; lia). rewrite Hpte by (unfold PGSIZE in *; lia).
      unfold mapped. rewrite Hal. destruct (Z.leb_spec a a), (Z.ltb_spec a (a + PGSIZE * Z.of_nat 1)); cbn [andb]; try lia.
      f_equal. lia.
    + destruct (Hps i q Hq) as (Hin & Hd & Hzq & Hpq). split_and!; [set_solver|done|done|].
      rewrite <- Hpq. f_equal. lia.
  - intros va Hva Hout. rewrite Hoth by (unfold PGSIZE in *; lia). rewrite Hpte by done. unfold mapped.
    destruct (Z.leb_spec a va), (Z.ltb_spec va (a + PGSIZE * Z.of_nat 1)); cbn [andb]; try done. lia.
  - intros q Hq. destruct (Hk q Hq) as [Hq1 Hb1]. destruct (Hkeep q Hq1) as [Hq2 Hb2]. split; [done|].
    intros b Hb. rewrite Hb2 by done. by apply Hb1.
  - intros q Hq [->|Hin]%elem_of_cons; [destruct Hq as [_ Hq _ _]; set_solver|].
    by apply (Hnew q (proj1 (Hk q Hq))).
  - intros x [->|Hx]%elem_of_cons; [right; left; left|]. destruct (Hacc x Hx) as [Hx1|Hx1]; [|by right; right; apply Hkt'].
    destruct (Hacc' x Hx1) as [?|[?|?]]; [by left|right; left; by right|by right; right].
Qed.

(** Number of pages a process of size [newsz] has beyond one of size [oldsz]. *)
Definition npages_between (oldsz newsz : Z) : nat := Z.to_nat ((PGROUNDUP newsz - PGROUNDUP oldsz) / PGSIZE).

Lemma npages_between_spec oldsz newsz : 0 <= oldsz <= newsz -> newsz < KERNBASE ->
  PGROUNDUP newsz = PGROUNDUP oldsz + PGSIZE * Z.of_nat (npages_between oldsz newsz) /\
  (npages_between oldsz newsz < Z.to_nat ((newsz - oldsz) / PGSIZE + 2))%nat.
Proof.
  intros Ho Hn. unfold KERNBASE in Hn. unfold npages_between.
  destruct (PGROUNDUP_spec oldsz) as [Ha1 Hr1]; [unfold PGSIZE; lia|].
  destruct (PGROUNDUP_spec newsz) as [Ha2 Hr2]; [unfold PGSIZE; lia|].
  destruct (aligned_mult _ Ha1) as [x Ex], (aligned_mult _ Ha2) as [y Ey]. rewrite Ex, Ey in *.
  replace (PGSIZE * y - PGSIZE * x) with ((y - x) * PGSIZE) by lia. rewrite Z.div_mul by done.
  assert (Hxy : 0 <= y - x /\ y - x < (newsz - oldsz) / PGSIZE + 2).
  { unfold PGSIZE in *. Z.div_mod_to_equations. lia. }
  rewrite Z2Nat.id by lia. split; lia.
Qed.

(** [allocuvm] with two free pages for each new page. *)
Lemma allocuvm_grows s l pgdir oldsz newsz : wf s l pgdir -> 0 <= oldsz <= newsz -> newsz < KERNBASE ->
  let k := npages_between oldsz newsz in
  (2 * k <= length l)%nat ->
  (forall va, PGROUNDUP oldsz <= va < PGROUNDUP newsz -> pte (mm s) pgdir va = None) ->
  exists s' l' ps, allocuvm pgdir oldsz newsz s = Done newsz s' /\ wf s' l' pgdir /\
    length ps = k /\ NoDup ps /\
    (forall i p, ps !! i = Some p -> p ∈ l /\ data_page s' l' pgdir p /\ (forall b, in_page p b -> mm s' b = 0) /\
       pte (mm s') pgdir (PGROUNDUP oldsz + PGSIZE * Z.of_nat i) = Some (v2p p + uflags)) /\
    (forall va, 0 <= va < 2 ^ 32 -> ~ (PGROUNDUP oldsz <= va < PGROUNDUP newsz) ->
       pte (mm s') pgdir va = pte (mm s) pgdir va) /\
    (forall q, keeps s l s' l' pgdir q) /\
    (forall x, x ∈ l -> x ∈ l' \/ x ∈ ps \/ is_table s' pgdir x).
Proof.
  intros Hwf Ho Hn k Hlen Hnone. destruct (npages_between_spec oldsz newsz Ho Hn) as [Hup Hcnt]. fold k in Hup, Hcnt.
  destruct (PGROUNDUP_spec oldsz) as [Ha1 Hr1]; [unfold PGSIZE, KERNBASE in *; lia|].
  destruct (PGROUNDUP_spec newsz) as [Ha2 Hr2]; [unfold PGSIZE, KERNBASE in *; lia|].
  destruct (alloc_loop_spec k (Z.to_nat ((newsz - oldsz) / PGSIZE + 2)) s l pgdir (PGROUNDUP oldsz) oldsz newsz)
    as (s' & l' & ps & E & H1 & H2 & H3 & _ & H5 & H6 & H7 & _ & H8 & _); try done; try lia.
  { intros va Hva. apply Hnone. lia. }
  exists s', l', ps. rewrite Hup. split_and!; try done. unfold allocuvm.
  replace (newsz >=? KERNBASE) with false by lia. replace (newsz <? oldsz) with false by lia.
  by rewrite (bind_Done _ _ _ _ _ E).
Qed.

(** ** Shrinking a process *)

Lemma free_data s l pgdir p : wf s l pgdir -> data_page s l pgdir p ->
  exists s', kfree p s = Done tt s' /\ wf s' (p :: l) pgdir /\
    (forall i, 0 <= i < 1024 -> table (mm s') pgdir i = table (mm s) pgdir i) /\
    (forall va, pte (mm s') pgdir va = pte (mm s) pgdir va) /\
    (forall q, q <> p -> keeps s l s' (p :: l) pgdir q).
Proof.
  intros Hwf Hd. destruct (kfree_spec s l p (wf_free _ _ _ Hwf)) as [Hk Hf]; [apply Hd|apply Hd|].
  destruct (write_data s l pgdir p (freed_page p (freelist s) (mm s)) Hwf Hd) as (Hwf1 & Ht1 & Hp1 & Hd1).
  { intros b Hb. by apply freed_page_other. }
  eexists. split; [exact Hk|]. split_and!; try done.
  - split; [done|apply Hwf| | |].
    + pose proof (wf_dir_used _ _ _ Hwf). destruct Hd as [_ _ ? _]. set_solver.
    + intros i t Hi E. cbn in E. destruct (wf_tab _ _ _ Hwf1 i t Hi E) as (? & ? & ?). split_and!; try done.
      rewrite Ht1 in E by done. destruct Hd as [_ _ _ Hdt]. specialize (Hdt i Hi). set_solver.
    + intros i j t Hi Hj. apply (wf_inj _ _ _ Hwf1); done.
  - intros q Hne Hq. split.
    + destruct (Hd1 q Hq) as [? ? ? ?]. split; try done. set_solver.
    + intros b Hb. cbn. apply freed_page_other. eapply (pages_apart q); [apply Hq|apply Hd|done|done].
Qed.

(** One turn of the loop of [deallocuvm] at a mapped page. *)
Lemma dealloc_one s l pgdir a p fl : wf s l pgdir -> data_page s l pgdir p -> 0 <= fl < PGSIZE ->
  0 <= a < 2 ^ 32 -> a mod PGSIZE = 0 -> pte (mm s) pgdir a = Some (v2p p + fl) ->
  exists s', (forall (k : M kmem unit) (k0 : M kmem unit),
      (let! q := walkpgdir pgdir a false in if q =? 0 then k0 else
       let! e := ld q in
       (if has e PTE_P then if PTE_ADDR e =? 0 then panic "kfree" else kfree (p2v (PTE_ADDR e)) ;! st q 0 else ret tt) ;! k) s
      = k s') /\
    wf s' (p :: l) pgdir /\
    (forall va, 0 <= va < 2 ^ 32 -> pte (mm s') pgdir va = if (a <=? va) && (va <? a + PGSIZE) then None else pte (mm s) pgdir va) /\
    (forall q, q <> p -> keeps s l s' (p :: l) pgdir q) /\ (forall x, is_table s pgdir x -> is_table s' pgdir x).
Proof.
  intros Hwf Hd Hfl Ha Hal Hpte. destruct (page_phys p) as (Hpa & Hpr & Hpp); [apply Hd|].
  assert (Ht : exists t, table (mm s) pgdir (PDX a) = Some t /\ load32 (mm s) (t + 4 * PTX a) = v2p p + fl /\
                         has (v2p p + fl) PTE_P = true).
  { unfold pte in Hpte. destruct (table (mm s) pgdir (PDX a)) as [t|]; [|done]. cbn in Hpte. exists t.
    destruct (has (load32 _ _) PTE_P) eqn:E; [|done]. by injection Hpte as <-. }
  destruct Ht as (t & Ht & Hld & Hhas). destruct (wf_tab _ _ _ Hwf _ _ (PDX_range a) Ht) as (Htp & _).
  destruct (free_data s l pgdir p Hwf Hd) as (s1 & Hk & Hwf1 & Ht1 & Hp1 & Hkeep).
  destruct (set_pte s1 (p :: l) pgdir a t 0 Hwf1) as (Hwf2 & Hg2 & Hp2); [by rewrite Ht1 by apply PDX_range|].
  unfold PHYSTOP in Hpr. destruct (entry_parts (v2p p) fl) as (Hadr & _ & _); [lia|done|done|].
  eexists. split_and!; [|exact Hwf2| | |].
  - intros k k0. rewrite (bind_Done _ _ _ _ _ (walk_lookup s l pgdir a Hwf)), Ht, (p2v_nonzero t _ Htp (PTX_range a)).
    unfold bind at 1. cbn [ld gets]. rewrite Hld, Hhas, Hadr, Hpp.
    assert (Hnz : (v2p p =? 0) = false).
    { pose proof kend_ok. destruct (data_page_page _ _ _ _ Hd) as [_ Hpk]. unfold v2p, KERNBASE, PHYSTOP in *.
      rewrite u32_small; lia. }
    rewrite Hnz. unfold bind. rewrite Hk. reflexivity.
  - intros va Hva. rewrite Hp2, Hp1. change (has (u32 0) PTE_P) with false.
    pose proof (same_page a va Ha Hal Hva) as Hsp.
    destruct (decide (PDX va = PDX a /\ PTX va = PTX a)) as [Hi|Hne]; rewrite Hsp in *;
      destruct (Z.leb_spec a va), (Z.ltb_spec va (a + PGSIZE)); cbn [andb]; try done; lia.
  - intros q Hne Hq. destruct (Hkeep q Hne Hq) as [Hq1 Hb1].
    destruct (data_grows _ _ _ _ _ q Hwf2 Hg2 Hq1) as [Hq2 Hb2]. split; [done|].
    intros b Hb. rewrite Hb2 by done. by apply Hb1.
  - intros x (i & Hi & E). exists i. split; [done|]. apply (grows_tab _ _ _ _ _ Hg2); [done|]. by rewrite Ht1.
Qed.

Lemma dealloc_loop_spec ps : forall fuel s l pgdir a oldsz, wf s l pgdir -> (length ps < fuel)%nat ->
  0 <= a -> a mod PGSIZE = 0 -> oldsz <= KERNBASE -> oldsz <= a + PGSIZE * Z.of_nat (length ps) ->
  (ps <> [] -> a + PGSIZE * Z.of_nat (length ps) < oldsz + PGSIZE) -> NoDup ps ->
  (forall i p, ps !! i = Some p -> data_page s l pgdir p /\
     exists fl, 0 <= fl < PGSIZE /\ pte (mm s) pgdir (a + PGSIZE * Z.of_nat i) = Some (v2p p + fl)) ->
  exists s', dealloc_loop fuel pgdir a oldsz s = Done tt s' /\ wf s' (reverse ps ++ l) pgdir /\
    (forall va, 0 <= va < 2 ^ 32 -> pte (mm s') pgdir va =
       if (a <=? va) && (va <? a + PGSIZE * Z.of_nat (length ps)) then None else pte (mm s) pgdir va) /\
    (forall q, q ∉ ps -> keeps s l s' (reverse ps ++ l) pgdir q) /\
    (forall x, is_table s pgdir x -> is_table s' pgdir x).
Proof.
  induction ps as [|p ps IH]; intros fuel s l pgdir a oldsz Hwf Hfuel Ha Hal Ho Hend Hlast Hnd Hps;
    (destruct fuel as [|fuel]; [cbn in Hfuel; lia|]); cbn [dealloc_loop length] in *.
  { replace (a <? oldsz) with false by lia. exists s. split_and!; try done.
    intros va Hva. destruct (Z.leb_spec a va), (Z.ltb_spec va (a + PGSIZE * Z.of_nat 0)); cbn [andb]; try done; lia. }
  specialize (Hlast ltac:(done)). replace (a <? oldsz) with true by (unfold PGSIZE in *; lia).
  assert (Ha32 : a + PGSIZE <= 2 ^ 32) by (unfold PGSIZE, KERNBASE in *; lia).
  apply NoDup_cons in Hnd as [Hpn Hnd].
  destruct (Hps 0%nat p eq_refl) as (Hd & fl & Hfl & Hpte). rewrite Z.add_0_r in Hpte.
  destruct (dealloc_one s l pgdir a p fl) as (s1 & Hrun & Hwf1 & Hp1 & Hk1 & Ht1); try done; [unfold PGSIZE in *; lia|].
  rewrite Hrun, u32_small by (unfold PGSIZE, KERNBASE in *; lia).
  destruct (IH fuel s1 (p :: l) pgdir (a + PGSIZE) oldsz) as (s' & E & Hwf' & Hp' & Hk' & Ht'); try done;
    try (unfold PGSIZE in *; lia).
  { unfold PGSIZE in *. Z.div_mod_to_equations. lia. }
  { intros i q Hq. assert (Hqp : q <> p) by (intros ->; by apply list_elem_of_lookup_2 in Hq).
    destruct (Hps (S i) q Hq) as (Hdq & fq & Hfq & Hpq). split; [by apply Hk1|]. exists fq. split; [done|].
    assert (Hlt : (i < length ps)%nat) by by eapply lookup_lt_Some.
    rewrite Hp1 by (unfold PGSIZE, KERNBASE in *; lia). rewrite <- Hpq.
    destruct (Z.leb_spec a (a + PGSIZE + PGSIZE * Z.of_nat i)),
      (Z.ltb_spec (a + PGSIZE + PGSIZE * Z.of_nat i) (a + PGSIZE)); cbn [andb]; try (unfold PGSIZE in *; lia).
    f_equal. lia. }
  assert (Hl : reverse (p :: ps) ++ l = reverse ps ++ p :: l) by (by rewrite reverse_cons, <- app_assoc).
  exists s'. rewrite Hl. split_and!; try done; [| |auto].
  - intros va Hva. rewrite Hp', Hp1 by done.
    destruct (Z.leb_spec (a + PGSIZE) va), (Z.ltb_spec va (a + PGSIZE + PGSIZE * Z.of_nat (length ps))), (Z.leb_spec a va),
      (Z.ltb_spec va (a + PGSIZE)), (Z.ltb_spec va (a + PGSIZE * Z.of_nat (S (length ps)))); cbn [andb]; try done;
      unfold PGSIZE in *; lia.
  - intros q Hq. apply not_elem_of_cons in Hq as [Hq1 Hq2]. intros Hdq. destruct (Hk1 q Hq1 Hdq) as [Hd1 Hb1].
    destruct (Hk' q Hq2 Hd1) as [Hd2 Hb2]. split; [done|]. intros b Hb. rewrite Hb2 by done. by apply Hb1.
Qed.



(** C32: growing and shrinking a process.  With two free pages for each new page
    [allocuvm] returns the new size, and every new page is mapped, writable by
    the user, to a page of its own that was free, is used for nothing else and
    holds zeros; the rest of the mapping and all memory in use is unchanged.
    [deallocuvm] back to the old size restores the mapping, and every page
    that was free is free again, except those that became page tables. *)
Theorem allocuvm_deallocuvm s l pgdir oldsz newsz : wf s l pgdir -> 0 <= oldsz <= newsz -> newsz < KERNBASE ->
  let k := npages_between oldsz newsz in
  (2 * k <= length l)%nat ->
  (forall va, PGROUNDUP oldsz <= va < PGROUNDUP newsz -> pte (mm s) pgdir va = None) ->
  exists s1 l1 ps, allocuvm pgdir oldsz newsz s = Done newsz s1 /\ wf s1 l1 pgdir /\ length ps = k /\ NoDup ps /\
    (forall i p, ps !! i = Some p -> p ∈ l /\ data_page s1 l1 pgdir p /\ (forall b, in_page p b -> mm s1 b = 0) /\
       pte (mm s1) pgdir (PGROUNDUP oldsz + PGSIZE * Z.of_nat i) = Some (v2p p + uflags)) /\
    (forall va, 0 <= va < 2 ^ 32 -> ~ (PGROUNDUP oldsz <= va < PGROUNDUP newsz) ->
       pte (mm s1) pgdir va = pte (mm s) pgdir va) /\
    (forall q, keeps s l s1 l1 pgdir q) /\
  exists s2 l2, deallocuvm pgdir newsz oldsz s1 = Done oldsz s2 /\ wf s2 l2 pgdir /\
    (forall va, 0 <= va < 2 ^ 32 -> pte (mm s2) pgdir va = pte (mm s) pgdir va) /\
    (forall x, x ∈ l -> x ∈ l2 \/ is_table s2 pgdir x).
Proof.
  intros Hwf Ho Hn k Hlen Hnone. destruct (npages_between_spec oldsz newsz Ho Hn) as [Hup Hcnt]. fold k in Hup, Hcnt.
  destruct (PGROUNDUP_spec oldsz) as [Ha1 Hr1]; [unfold PGSIZE, KERNBASE in *; lia|].
  destruct (PGROUNDUP_spec newsz) as [Ha2 Hr2]; [unfold PGSIZE, KERNBASE in *; lia|].
  destruct (allocuvm_grows s l pgdir oldsz newsz Hwf Ho Hn Hlen Hnone) as
    (s1 & l1 & ps & E & H1 & H2 & H3 & H4 & H5 & H6 & H7). fold k in H2.
  exists s1, l1, ps. split_and!; try done. unfold deallocuvm.
  destruct (Z.geb_spec oldsz newsz) as [Hge|Hlt].
  { assert (ps = []) as -> by (apply length_zero_iff_nil; replace newsz with oldsz in Hup by lia; unfold PGSIZE in *; lia).
    exists s1, l1. replace newsz with oldsz by lia. split_and!; try done.
    - intros va Hva. apply H5; [done|]. replace newsz with oldsz by lia. lia.
    - intros x Hx. destruct (H7 x Hx) as [?|[?%not_elem_of_nil|?]]; [by left|done|by right]. }
  destruct (dealloc_loop_spec ps (Z.to_nat ((newsz - oldsz) / PGSIZE + 2)) s1 l1 pgdir (PGROUNDUP oldsz) newsz)
    as (s2 & E2 & Hwf2 & Hp2 & _ & Ht2); try done; try lia.
  { intros i p Hp. destruct (H4 i p Hp) as (_ & Hd & _ & Hpte). split; [done|]. exists uflags. split; [by vm_compute|done]. }
  exists s2, (reverse ps ++ l1). rewrite (bind_Done _ _ _ _ _ E2). split_and!; try done.
  - intros va Hva. rewrite Hp2 by done. rewrite H2, <- Hup.
    destruct (Z.leb_spec (PGROUNDUP oldsz) va), (Z.ltb_spec va (PGROUNDUP newsz)); cbn [andb];
      try (apply H5; [done|lia]). symmetry. apply Hnone. lia.
  - intros x Hx. rewrite elem_of_app, elem_of_reverse. destruct (H7 x Hx) as [?|[?|?]]; [by left; right|by left; left|].
    right. by apply Ht2.
Qed.

(** ** Copying to user space *)

(** The kernel address of user address [va], if the user may use it. *)
Definition ka (m : mem) (pgdir va : Z) : option Z :=
  e ← pte m pgdir va;
  if has e PTE_U then Some (p2v (PTE_ADDR e) + va mod PGSIZE) else None.

Lemma uva2ka_spec s l pgdir va p off : wf s l pgdir -> 0 <= va < 2 ^ 32 -> ka (mm s) pgdir va = Some (p + off) ->
  off = va mod PGSIZE -> uva2ka pgdir (va - va mod PGSIZE) s = Done p s.
Proof.
  intros Hwf Hva Hka ->. destruct (index_down va Hva) as [Ed Ex]. unfold uva2ka.
  rewrite (bind_Done _ _ _ _ _ (walk_lookup s l pgdir _ Hwf)), Ed, Ex. unfold ka, pte in Hka.
  destruct (table (mm s) pgdir (PDX va)) as [t|] eqn:Et; [|done]. cbn in Hka.
  destruct (wf_tab _ _ _ Hwf _ _ (PDX_range va) Et) as (Htp & _). rewrite (p2v_nonzero t _ Htp (PTX_range va)).
  unfold bind. cbn [ld gets]. destruct (has _ PTE_P); [|done]. cbn in Hka. destruct (has _ PTE_U); [|done].
  cbn. injection Hka as Hka. unfold ret. f_equal. lia.
Qed.

(** Within a page the kernel addresses are consecutive. *)
Lemma ka_page m pgdir va x i : 0 <= va < 2 ^ 32 -> ka m pgdir va = Some x -> 0 <= i -> va mod PGSIZE + i < PGSIZE ->
  va + i < 2 ^ 32 -> ka m pgdir (va + i) = Some (x + i).
Proof.
  intros Hva Hka Hi Hp H32. unfold ka, pte in *.
  assert (Hm : (va + i) mod PGSIZE = va mod PGSIZE + i) by (unfold PGSIZE in *; Z.div_mod_to_equations; lia).
  destruct (index_down va Hva) as [<- <-] in Hka. destruct (index_down (va + i)) as [<- <-]; [lia|].
  replace (va + i - (va + i) mod PGSIZE) with (va - va mod PGSIZE) by lia.
  destruct (table _ _ _) as [t|]; [|done]. cbn in *. destruct (has _ PTE_P); [|done]. cbn in *.
  destruct (has _ PTE_U); [|done]. injection Hka as Hka. f_equal. lia.
Qed.

(** The user's bytes [va, va + len) lie in data pages, different ones at
    different addresses. *)
Record target (s : kmem) (l : list Z) (pgdir va len : Z) : Prop := {
  target_page : forall v, va <= v < va + len -> exists p, data_page s l pgdir p /\
    ka (mm s) pgdir v = Some (p + v mod PGSIZE);
  target_inj : forall v w x, va <= v < va + len -> va <= w < va + len ->
    ka (mm s) pgdir v = Some x -> ka (mm s) pgdir w = Some x -> v = w }.

Lemma store_bytes_stored a src m :
  KString.stored a (length src) (fun i => src !!! Z.to_nat i) m (store_bytes a src m).
Proof.
  revert a m. induction src as [|b src IH]; intros a m; cbn [store_bytes length]; [apply KString.stored_0|].
  eapply (KString.stored_cons _ _ _ (fun i => src !!! Z.to_nat i)); [apply IH|done|].
  intros i Hi. replace (Z.to_nat (i + 1)) with (S (Z.to_nat i)) by lia. done.
Qed.

(** Copying [src] within one page. *)
Lemma copy_one s l pgdir va len src p : wf s l pgdir -> target s l pgdir va len -> 0 <= va ->
  let n0 := Z.of_nat (length src) in
  va + len <= 2 ^ 32 -> 0 < n0 <= len -> va mod PGSIZE + n0 <= PGSIZE -> data_page s l pgdir p ->
  ka (mm s) pgdir va = Some (p + va mod PGSIZE) -> 
  let s' := set_mm (store_bytes (p + va mod PGSIZE) src (mm s)) s in
  wf s' l pgdir /\ target s' l pgdir (va + n0) (len - n0) /\
  (forall v, ka (mm s') pgdir v = ka (mm s) pgdir v) /\
  (forall b, mm s' b = if (p + va mod PGSIZE <=? b) && (b <? p + va mod PGSIZE + n0)
                       then src !!! Z.to_nat (b - (p + va mod PGSIZE)) else mm s b).
Proof.
  intros Hwf Ht Hva n0 H32 Hn0 Hpg Hd Hka s'.
  assert (Hmm : forall b, mm s' b = if (p + va mod PGSIZE <=? b) && (b <? p + va mod PGSIZE + n0)
                          then src !!! Z.to_nat (b - (p + va mod PGSIZE)) else mm s b).
  { intros b. cbn. by rewrite (store_bytes_stored _ _ _ b). }
  destruct (write_data s l pgdir p (mm s') Hwf Hd) as (Hwf' & _ & Hpte & Hd').
  { intros b Hb. rewrite Hmm. pose proof (Z.mod_pos_bound va PGSIZE ltac:(done)). unfold in_page in Hb.
    destruct (Z.leb_spec (p + va mod PGSIZE) b), (Z.ltb_spec b (p + va mod PGSIZE + n0)); cbn [andb]; try done. lia. }
  assert (Hk : forall v, ka (mm s') pgdir v = ka (mm s) pgdir v) by (intros v; unfold ka; by rewrite Hpte).
  split_and!; [done| |done|done]. destruct Ht as [Ht1 Ht2]. split.
  - intros v Hv. destruct (Ht1 v ltac:(lia)) as (q & Hq & Hkq). exists q. split; [by apply Hd'|by rewrite Hk].
  - intros v w x Hv Hw. rewrite !Hk. apply Ht2; lia.
Qed.

Lemma copyout_loop_spec n : forall s l pgdir va buf, wf s l pgdir -> 0 <= va ->
  let len := Z.of_nat (length buf) in
  target s l pgdir va len -> va + len <= 2 ^ 32 -> (len = 0 \/ len + va mod PGSIZE <= PGSIZE * Z.of_nat n) ->
  exists s', copyout_loop (S n) pgdir va buf s = Done 0 s' /\ wf s' l pgdir /\
    (forall v, ka (mm s') pgdir v = ka (mm s) pgdir v) /\
    (forall i x, 0 <= i < len -> ka (mm s) pgdir (va + i) = Some x -> mm s' x = buf !!! Z.to_nat i) /\
    (forall b, (forall i, 0 <= i < len -> ka (mm s) pgdir (va + i) <> Some b) -> mm s' b = mm s b).
Proof.
  induction n as [|n IH]; intros s l pgdir va buf Hwf Hva len Ht H32 Hn; cbn [copyout_loop]; fold len;
    assert (Hlen : 0 <= len) by lia; pose proof (Z.mod_pos_bound va PGSIZE ltac:(done)) as Hoff;
    (destruct (Z.eq_dec len 0) as [E0|Hpos];
      [replace (len >? 0) with false by lia; exists s; split_and!; [done..|intros; lia|done]|]).
  { exfalso. lia. }
  assert (Hpos' : (len >? 0) = true) by lia. rewrite Hpos', PGROUNDDOWN_eq by lia.
  destruct (target_page _ _ _ _ _ Ht va ltac:(lia)) as (p & Hd & Hka).
  rewrite (bind_Done _ _ _ _ _ (uva2ka_spec s l pgdir va p _ Hwf ltac:(lia) Hka eq_refl)).
  assert (Hp0 : (p =? 0) = false) by (pose proof (is_page_pos p (data_page_page _ _ _ _ Hd)); lia). rewrite Hp0.
  replace (va - (va - va mod PGSIZE)) with (va mod PGSIZE) by lia.
  set (n0 := if PGSIZE - va mod PGSIZE >? len then len else PGSIZE - va mod PGSIZE).
  assert (Hn0 : 0 < n0 <= len /\ va mod PGSIZE + n0 <= PGSIZE /\ (n0 < len -> va mod PGSIZE + n0 = PGSIZE)).
  { subst n0. destruct (Z.gtb_spec (PGSIZE - va mod PGSIZE) len); lia. }
  destruct Hn0 as (Hn1 & Hn2 & Hn3).
  assert (Ln : Z.of_nat (length (take (Z.to_nat n0) buf)) = n0) by (rewrite length_take; lia).
  destruct (copy_one s l pgdir va len (take (Z.to_nat n0) buf) p) as (Hwf1 & Ht1 & Hk1 & Hm1); rewrite ?Ln; try done.
  rewrite Ln in Ht1. set (s1 := set_mm _ s) in *. rewrite (bind_Done (copy_in _ _) _ s tt s1 eq_refl).
  assert (Hin : forall i x, 0 <= i < n0 -> ka (mm s) pgdir (va + i) = Some x -> x = p + va mod PGSIZE + i).
  { intros i x Hi Hx. rewrite (ka_page _ _ va (p + va mod PGSIZE)) in Hx by (done || lia). congruence. }
  assert (Ld : Z.of_nat (length (drop (Z.to_nat n0) buf)) = len - n0) by (rewrite length_drop; lia).
  assert (Hrest : exists s', copyout_loop (S n) pgdir (u32 (va - va mod PGSIZE + PGSIZE)) (drop (Z.to_nat n0) buf) s1 = Done 0 s' /\
    wf s' l pgdir /\ (forall v, ka (mm s') pgdir v = ka (mm s1) pgdir v) /\
    (forall i x, 0 <= i < len - n0 -> ka (mm s1) pgdir (va + n0 + i) = Some x -> mm s' x = drop (Z.to_nat n0) buf !!! Z.to_nat i) /\
    (forall b, (forall i, 0 <= i < len - n0 -> ka (mm s1) pgdir (va + n0 + i) <> Some b) -> mm s' b = mm s1 b)).
  { destruct (Z.eq_dec n0 len) as [E0|Hne].
    - exists s1. rewrite drop_ge by lia. split_and!; (done || lia).
    - replace (va - va mod PGSIZE + PGSIZE) with (va + n0) by lia. rewrite u32_small by lia.
      rewrite <- Ld. apply IH; rewrite ?Ld; try done; try lia. right. destruct Hn as [?|Hn]; [lia|].
      replace (va + n0) with (va - va mod PGSIZE + 1 * PGSIZE) by lia. rewrite Z.mod_add, down_aligned by done. lia. }
  destruct Hrest as (s' & E & Hwf' & Hk' & Hc' & Ho'). exists s'. split_and!; [done|done| | |].
  - intros v. by rewrite Hk', Hk1.
  - intros i x Hi Hx. destruct (Z.lt_ge_cases i n0) as [Hlt|Hge].
    + rewrite Ho'.
      * rewrite Hm1, Ln, (Hin i x ltac:(lia) Hx).
        destruct (Z.leb_spec (p + va mod PGSIZE) (p + va mod PGSIZE + i)),
          (Z.ltb_spec (p + va mod PGSIZE + i) (p + va mod PGSIZE + n0)); cbn [andb]; try lia.
        replace (p + va mod PGSIZE + i - (p + va mod PGSIZE)) with i by lia. rewrite lookup_total_take_lt; [done|lia].
      * intros j Hj Hx'. rewrite Hk1 in Hx'. pose proof (target_inj _ _ _ _ _ Ht (va + i) (va + n0 + j) x ltac:(lia) ltac:(lia) Hx Hx'). lia.
    + rewrite (Hc' (i - n0) x); [|lia|rewrite Hk1; by replace (va + n0 + (i - n0)) with (va + i) by lia].
      rewrite lookup_total_drop. f_equal. lia.
  - intros b Hb. rewrite Ho'.
    + rewrite Hm1, Ln. destruct (Z.leb_spec (p + va mod PGSIZE) b), (Z.ltb_spec b (p + va mod PGSIZE + n0)); cbn [andb]; try done.
      exfalso. apply (Hb (b - (p + va mod PGSIZE))); [lia|]. rewrite (ka_page _ _ va (p + va mod PGSIZE)) by (done || lia).
      f_equal. lia.
    + intros i Hi. rewrite Hk1. replace (va + n0 + i) with (va + (n0 + i)) by lia. apply Hb. lia.
Qed.

Lemma copyout_fuel len va : 0 <= len -> 0 <= va ->
  exists n, Z.to_nat (len / PGSIZE + 3) = S n /\ len + va mod PGSIZE <= PGSIZE * Z.of_nat n.
Proof.
  intros Hl Hv. exists (Z.to_nat (len / PGSIZE + 2)). pose proof (Z.div_pos len PGSIZE Hl ltac:(done)). split; [lia|].
  rewrite Z2Nat.id by lia. pose proof (Z.mod_pos_bound va PGSIZE ltac:(done)).
  pose proof (Z.div_mod len PGSIZE ltac:(done)). pose proof (Z.mod_pos_bound len PGSIZE ltac:(done)). lia.
Qed.

Lemma copyout_ok s l pgdir va buf : wf s l pgdir -> 0 <= va ->
  let len := Z.of_nat (length buf) in
  target s l pgdir va len -> va + len <= 2 ^ 32 ->
  exists s', copyout pgdir va buf s = Done 0 s' /\ wf s' l pgdir /\
    (forall v, ka (mm s') pgdir v = ka (mm s) pgdir v) /\
    (forall i x, 0 <= i < len -> ka (mm s) pgdir (va + i) = Some x -> mm s' x = buf !!! Z.to_nat i) /\
    (forall b, (forall i, 0 <= i < len -> ka (mm s) pgdir (va + i) <> Some b) -> mm s' b = mm s b).
Proof.
  intros Hwf Hva len Ht H32. unfold copyout. fold len. destruct (copyout_fuel len va) as (n & -> & Hn); [lia..|].
  apply copyout_loop_spec; auto.
Qed.

(** C26: [copyout] copies to user space.  When every byte of [va, va + len) is
    mapped for the user, to different bytes of data pages, it returns 0, the bytes
    are at the addresses the page table gives, and no other byte of memory
    changes. *)
Theorem copyout_copies s l pgdir va buf : wf s l pgdir -> 0 <= va ->
  let len := Z.of_nat (length buf) in
  target s l pgdir va len -> va + len <= 2 ^ 32 ->
  exists s', copyout pgdir va buf s = Done 0 s' /\ wf s' l pgdir /\
    (forall v, ka (mm s') pgdir v = ka (mm s) pgdir v) /\
    (forall i x, 0 <= i < len -> ka (mm s) pgdir (va + i) = Some x -> mm s' x = buf !!! Z.to_nat i) /\
    (forall b, (forall i, 0 <= i < len -> ka (mm s) pgdir (va + i) <> Some b) -> mm s' b = mm s b).
Proof.
  intros Hwf Hva len Ht H32. exact (copyout_ok s l pgdir va buf Hwf Hva Ht H32).
Qed.

(** [uva2ka] does not check the result of [walkpgdir]: an address whose page
    table does not exist makes it read through a null pointer. *)
Lemma copyout_no_table s l pgdir va buf : wf s l pgdir -> 0 <= va < 2 ^ 32 -> buf <> [] ->
  table (mm s) pgdir (PDX va) = None ->
  copyout pgdir va buf s = Wild "uva2ka: read of a null pointer".
Proof.
  intros Hwf Hva Hb Ht. unfold copyout. destruct (copyout_fuel (Z.of_nat (length buf)) va) as (n & -> & _); [lia..|].
  cbn [copyout_loop]. replace (Z.of_nat (length buf) >? 0) with true by (by destruct buf).
  rewrite PGROUNDDOWN_eq by done. destruct (index_down va Hva) as [Ed _].
  assert (Hu : uva2ka pgdir (va - va mod PGSIZE) s = Wild "uva2ka: read of a null pointer").
  { unfold uva2ka. by rewrite (bind_Done _ _ _ _ _ (walk_lookup s l pgdir _ Hwf)), Ed, Ht. }
  unfold bind. by rewrite Hu.
Qed.

End WithLinker.

(** ** A small machine *)

Section Demo.
#[local] Existing Instance demo_linker.

Definition pg (i : Z) : Z := 2148532224 + PGSIZE * i.

(** An empty page directory in page 0; pages 1 and 2 are free. *)
Definition empty_dir : kmem :=
  {| mm := KString.store32 (pg 1) (pg 2) (fun _ => 0); lock := false; use_lock := true; freelist := pg 1 |}.

Lemma pg_page i : 0 <= i < 100 -> is_page (pg i).
Proof.
  intros Hi. unfold is_page, pg, KERNBASE, PHYSTOP. cbn. unfold PGSIZE. split; [|lia].
  Z.div_mod_to_equations. lia.
Qed.

Lemma empty_dir_tables i : 0 <= i < 1024 -> table (mm empty_dir) (pg 0) i = None.
Proof.
  intros Hi. unfold table. cbn [mm empty_dir]. replace (pg 1) with (pg 1 + 4 * 0) at 1 by lia.
  rewrite load_store_page; [|reflexivity|reflexivity|lia|done].
  rewrite decide_False by (intros [E _]; unfold pg, PGSIZE in E; lia). reflexivity.
Qed.

Lemma empty_dir_wf : wf empty_dir [pg 1; pg 2] (pg 0).
Proof.
  split.
  - split; [|apply (bool_decide_unpack _); by vm_compute| |reflexivity].
    + split; [reflexivity|]. split; vm_compute; reflexivity.
    + repeat (constructor; [apply pg_page; lia|]). constructor.
  - by apply pg_page.
  - apply (bool_decide_unpack _). by vm_compute.
  - intros i t Hi. by rewrite empty_dir_tables.
  - intros i j t Hi. by rewrite empty_dir_tables.
Qed.

Lemma empty_dir_pte va : pte (mm empty_dir) (pg 0) va = None.
Proof. unfold pte. by rewrite empty_dir_tables by apply PDX_range. Qed.

Lemma mappages_maps_witness : exists r s' l', mappages (pg 0) 0 PGSIZE 0 PTE_W empty_dir = Done r s' /\ r = 0 /\
  wf s' l' (pg 0).
Proof.
  destruct (mappages_maps empty_dir [pg 1; pg 2] (pg 0) 0 PGSIZE 0 PTE_W empty_dir_wf) as (r & s' & l' & k & E & Hwf & _);
    [lia|done|done|lia|done|done|by vm_compute|intros; apply empty_dir_pte|].
  exists r, s', l'. split_and!; [done| |done].
  apply (f_equal (fun o => match o with Done r _ => Some r | _ => None end)) in E. vm_compute in E. congruence.
Defined.

Lemma allocuvm_deallocuvm_witness : exists s1, allocuvm (pg 0) 0 100 empty_dir = Done 100 s1 /\
  exists s2, deallocuvm (pg 0) 100 0 s1 = Done 0 s2 /\ pte (mm s2) (pg 0) 0 = None.
Proof.
  destruct (allocuvm_deallocuvm empty_dir [pg 1; pg 2] (pg 0) 0 100 empty_dir_wf)
    as (s1 & l1 & ps & E & _ & _ & _ & _ & _ & _ & s2 & l2 & E2 & _ & Hp & _);
    [lia|done|vm_compute; lia|intros; apply empty_dir_pte|].
  exists s1. split; [done|]. exists s2. split; [done|]. rewrite Hp by lia. apply empty_dir_pte.
Defined.

(** Page 1 is the only free page: [allocuvm] takes it for the data, [mappages]
    finds no memory for the page table, and [allocuvm], which ignores its
    result, reports success for a page that is not mapped. *)
Definition one_left : kmem :=
  {| mm := fun _ => 0; lock := false; use_lock := true; freelist := pg 1 |}.

Theorem allocuvm_ignores_failure : exists s', allocuvm (pg 0) 0 PGSIZE one_left = Done PGSIZE s' /\
  pte (mm s') (pg 0) 0 = None /\ freelist s' = 0.
Proof.
  pose (look := fun o : outcome kmem Z => match o with
    | Done r s => Some (r, pte (mm s) (pg 0) 0, freelist s) | _ => None end).
  assert (F : look (allocuvm (pg 0) 0 PGSIZE one_left) = Some (PGSIZE, None, 0)) by (vm_compute; reflexivity).
  destruct (allocuvm (pg 0) 0 PGSIZE one_left) as [r s'| | | |] eqn:E; try discriminate F.
  unfold look in F. injection F as -> F1 F2. exists s'. auto.
Qed.

(** User page 0 is page 2, through the page table in page 1. *)
Definition one_page : kmem :=
  {| mm := KString.store32 (pg 1) (v2p (pg 2) + 7) (KString.store32 (pg 0) (v2p (pg 1) + 7)
             (KString.store32 100 197121 (fun _ => 0)));
     lock := false; use_lock := true; freelist := 0 |}.

Lemma one_page_tables i : 0 <= i < 1024 -> table (mm one_page) (pg 0) i = if decide (i = 0) then Some (pg 1) else None.
Proof.
  intros Hi. case_decide as Hc; [subst i; vm_compute; reflexivity|]. unfold table. cbn [mm one_page].
  replace (pg 1) with (pg 1 + 4 * 0) at 1 by lia. rewrite load_store_page; [|reflexivity|reflexivity|lia|done].
  rewrite decide_False by (intros [E _]; unfold pg, PGSIZE in E; lia).
  replace (pg 0) with (pg 0 + 4 * 0) at 1 by lia. rewrite load_store_page; [|reflexivity|reflexivity|lia|done].
  rewrite decide_False by (intros [_ E]; lia).
  rewrite (load32_ext (fun _ => 0)); [reflexivity|]. intros k Hk. apply store32_other. unfold pg, PGSIZE. lia.
Qed.

Lemma one_page_wf : wf one_page [] (pg 0).
Proof.
  split.
  - split; [reflexivity|constructor|constructor|reflexivity].
  - by apply pg_page.
  - apply not_elem_of_nil.
  - intros i t Hi. rewrite one_page_tables by done. case_decide; [|done]. intros [= <-].
    split_and!; [by apply pg_page|by vm_compute|apply not_elem_of_nil].
  - intros i j t Hi Hj. rewrite !one_page_tables by done. repeat case_decide; congruence.
Qed.

Lemma one_page_target : target one_page [] (pg 0) 5 3.
Proof.
  assert (Hk : forall v, 5 <= v < 8 -> ka (mm one_page) (pg 0) v = Some (pg 2 + v mod PGSIZE)).
  { intros v Hv. assert (v = 5 \/ v = 6 \/ v = 7) as [->|[->| ->]] by lia; vm_compute; reflexivity. }
  split.
  - intros v Hv. exists (pg 2). split; [|by apply Hk].
    split; [by apply pg_page|apply not_elem_of_nil|by vm_compute|]. intros i Hi. rewrite one_page_tables by done.
    case_decide; [|done]. intros [= E].
  - intros v w x Hv Hw. rewrite !Hk by done. intros [= E1] [= E2]. rewrite !Z.mod_small in * by (unfold PGSIZE; lia). lia.
Qed.

Lemma copyout_copies_witness : exists s', copyout (pg 0) 5 [7; 8; 9] one_page = Done 0 s' /\ wf s' [] (pg 0) /\
  mm s' (pg 2 + 5) = 7 /\ mm s' (pg 2 + 6) = 8 /\ mm s' (pg 2 + 7) = 9.
Proof.
  destruct (copyout_copies one_page [] (pg 0) 5 [7; 8; 9] one_page_wf ltac:(lia) one_page_target ltac:(cbn; lia))
    as (s' & E & Hwf & _ & Hc & _). exists s'. split; [exact E|]. split; [exact Hwf|].
  split_and!; [rewrite (Hc 0)|rewrite (Hc 1)|rewrite (Hc 2)]; try reflexivity; try (cbn; lia); vm_compute; reflexivity.
Defined.
End Demo.

End Vm.
