(* ===== verification/Seg.v ===== *)
(** * Segments and address spaces of a processor (kernel/vm.c)

    The descriptors of mmu.h as they are packed, and the part of vm.c that loads the
    registers of a processor: [seginit], [switchkvm], [switchuvm] and [kvmalloc].  The
    theorem unpacks what the processor finds when it uses them. *)

From S2P Require Import Prelude Spinlock KString Kalloc Vm.

Module Seg.
Import Kalloc Vm.

Definition SEG_KCODE : Z := 1.
Definition SEG_KDATA : Z := 2.
Definition SEG_KCPU : Z := 3.
Definition SEG_UCODE : Z := 4.
Definition SEG_UDATA : Z := 5.
Definition SEG_TSS : Z := 6.
Definition STA_X : Z := 8.
Definition STA_W : Z := 2.
Definition STA_R : Z := 2.
Definition STS_T32A : Z := 9.
Definition DPL_USER : Z := 3.
Definition KSTACKSIZE : Z := 4096.

Record segdesc := Segdesc {
  lim_15_0 : Z; base_15_0 : Z; base_23_16 : Z; type : Z; s_ : Z; dpl : Z; p_ : Z;
  lim_19_16 : Z; avl : Z; rsv1 : Z; db : Z; g_ : Z; base_31_24 : Z }.

Definition SEG (type base lim dpl : Z) : segdesc :=
  Segdesc (Z.land (Z.shiftr lim 12) 65535) (Z.land (u32 base) 65535) (Z.land (Z.shiftr (u32 base) 16) 255) type 1 dpl 1
    (Z.shiftr (u32 lim) 28) 0 0 1 1 (Z.shiftr (u32 base) 24).

Definition SEG16 (type base lim dpl : Z) : segdesc :=
  Segdesc (Z.land lim 65535) (Z.land (u32 base) 65535) (Z.land (Z.shiftr (u32 base) 16) 255) type 1 dpl 1
    (Z.shiftr (u32 lim) 16) 0 0 1 0 (Z.shiftr (u32 base) 24).

Definition set_s (x : Z) (d : segdesc) : segdesc :=
  Segdesc (lim_15_0 d) (base_15_0 d) (base_23_16 d) (type d) x (dpl d) (p_ d) (lim_19_16 d) (avl d) (rsv1 d) (db d) (g_ d) (base_31_24 d).

(** [struct cpu]: the offsets of [ts], [gdt] and [cpu], and the sizes of the first two. *)
Definition TS_AT : Z := 8.
Definition GDT_AT : Z := 112.
Definition CPU_AT : Z := 180.
Definition SIZEOF_TS : Z := 104.
Definition SIZEOF_GDT : Z := 56.

(** A processor: what seginit and switchuvm store in its [struct cpu], its registers,
    and the nesting of [pushcli]. *)
Record pst := Pst {
  gdt : list segdesc; ss0 : Z; esp0 : Z; gdtr : Z * Z; gs : Z; tr : Z; cr3 : Z;
  cpu : Z; proc : option Z; nest : Spinlock.cpu }.

Definition set_desc (k : Z) (d : segdesc) (s : pst) : pst :=
  Pst (<[Z.to_nat k := d]> (gdt s)) (ss0 s) (esp0 s) (gdtr s) (gs s) (tr s) (cr3 s) (cpu s) (proc s) (nest s).
Definition on_desc (k : Z) (f : segdesc -> segdesc) (s : pst) : pst :=
  Pst (alter f (Z.to_nat k) (gdt s)) (ss0 s) (esp0 s) (gdtr s) (gs s) (tr s) (cr3 s) (cpu s) (proc s) (nest s).
Definition set_nest (n : Spinlock.cpu) (s : pst) : pst :=
  Pst (gdt s) (ss0 s) (esp0 s) (gdtr s) (gs s) (tr s) (cr3 s) (cpu s) (proc s) n.
Definition lcr3 (x : Z) (s : pst) : pst := Pst (gdt s) (ss0 s) (esp0 s) (gdtr s) (gs s) (tr s) x (cpu s) (proc s) (nest s).
Definition set_ts (ss esp sel : Z) (s : pst) : pst := Pst (gdt s) ss esp (gdtr s) (gs s) sel (cr3 s) (cpu s) (proc s) (nest s).

(** [c] is the address of the processor's entry of [cpus]. *)
Definition seginit (c : Z) : M pst unit :=
  modify (set_desc SEG_KCODE (SEG (Z.lor STA_X STA_R) 0 4294967295 0)) ;!
  modify (set_desc SEG_KDATA (SEG STA_W 0 4294967295 0)) ;!
  modify (set_desc SEG_UCODE (SEG (Z.lor STA_X STA_R) 0 4294967295 DPL_USER)) ;!
  modify (set_desc SEG_UDATA (SEG STA_W 0 4294967295 DPL_USER)) ;!
  modify (set_desc SEG_KCPU (SEG STA_W (c + CPU_AT) 8 0)) ;!
  modify (fun s => Pst (gdt s) (ss0 s) (esp0 s) (c + GDT_AT, SIZEOF_GDT - 1) (Z.shiftl SEG_KCPU 3) (tr s) (cr3 s) c None (nest s)).

Definition switchkvm (kpgdir : Z) : M pst unit := modify (lcr3 (v2p kpgdir)).

Definition popcli : M pst unit := zoom nest set_nest Spinlock.popcli.

(** [kstack] is that of the current process, [pgdir] that of the argument. *)
Definition switchuvm (kstack pgdir : Z) : M pst unit :=
  modify (fun s => set_nest (Spinlock.pushcli (nest s)) s) ;!
  modify (fun s => set_desc SEG_TSS (SEG16 STS_T32A (cpu s + TS_AT) (SIZEOF_TS - 1) 0) s) ;!
  modify (fun s => on_desc SEG_TSS (set_s 0) s) ;!
  modify (set_ts (Z.shiftl SEG_KDATA 3) (u32 (kstack + KSTACKSIZE)) (Z.shiftl SEG_TSS 3)) ;!
  if pgdir =? 0 then panic "switchuvm: no pgdir"
  else
    modify (lcr3 (v2p pgdir)) ;!
    popcli.

(** The kernel's page table, which is also loaded. *)
Definition kvmalloc `{DataSegment} : M (kmem * pst) Z :=
  let! kpgdir := zoom fst (fun m s => (m, s.2)) setupkvm in
  zoom snd (fun p s => (s.1, p)) (switchkvm kpgdir) ;!
  ret kpgdir.

(** ** What the processor reads *)

Definition seg_base (d : segdesc) : Z := base_15_0 d + base_23_16 d * 2 ^ 16 + base_31_24 d * 2 ^ 24.
Definition seg_limit (d : segdesc) : Z :=
  let l := lim_15_0 d + lim_19_16 d * 2 ^ 16 in if g_ d =? 0 then l else l * 4096 + 4095.

Lemma base_split b : 0 <= b < 2 ^ 32 ->
  Z.land (u32 b) 65535 + Z.land (Z.shiftr (u32 b) 16) 255 * 2 ^ 16 + Z.shiftr (u32 b) 24 * 2 ^ 24 = b.
Proof.
  intros Hb. rewrite u32_small by lia. change 65535 with (Z.ones 16). change 255 with (Z.ones 8).
  rewrite !Z.land_ones, !Z.shiftr_div_pow2 by lia. replace (2 ^ 24) with (2 ^ 16 * 2 ^ 8) by reflexivity.
  rewrite <- Z.div_div by lia. pose proof (Z.div_mod b (2 ^ 16) ltac:(lia)). pose proof (Z.div_mod (b / 2 ^ 16) (2 ^ 8) ltac:(lia)). lia.
Qed.

Lemma SEG_base type b lim d : 0 <= b < 2 ^ 32 -> seg_base (SEG type b lim d) = b.
Proof. intros. by apply base_split. Qed.
Lemma SEG16_base type b lim d : 0 <= b < 2 ^ 32 -> seg_base (SEG16 type b lim d) = b.
Proof. intros. by apply base_split. Qed.

(** A segment over all addresses. *)
Definition flat (kind priv : Z) (d : segdesc) : Prop :=
  seg_base d = 0 /\ seg_limit d = 2 ^ 32 - 1 /\ type d = kind /\ s_ d = 1 /\ dpl d = priv /\ p_ d = 1.

(** The table of a processor after its start and a switch to a process: the kernel's and
    the user's segments cover all addresses with their privilege levels, the segment of
    the processor's variables starts at its entry of [cpus], and the task register leads
    to the processor's task state, in which the stack for interrupts is the process's
    kernel stack; its page table is loaded and the interrupt flag is as before.  Without a
    page table the switch panics. *)
Lemma switchuvm_space c kstack pgdir s : length (gdt s) = 7%nat -> 0 <= c -> c + 188 <= 2 ^ 32 -> Spinlock.balanced (nest s) ->
  (pgdir = 0 -> (seginit c ;! switchuvm kstack pgdir) s = Panic "switchuvm: no pgdir") /\
  (pgdir <> 0 -> exists s' kc kd kp uc ud ts, (seginit c ;! switchuvm kstack pgdir) s = Done tt s' /\
    drop 1 (gdt s') = [kc; kd; kp; uc; ud; ts] /\ flat (Z.lor STA_X STA_R) 0 kc /\ flat STA_W 0 kd /\
    flat (Z.lor STA_X STA_R) DPL_USER uc /\ flat STA_W DPL_USER ud /\ seg_base kp = c + CPU_AT /\ CPU_AT + 8 <= 188 <= seg_limit kp /\
    gs s' = Z.shiftl SEG_KCPU 3 /\ tr s' = Z.shiftl SEG_TSS 3 /\ gdtr s' = (c + GDT_AT, SIZEOF_GDT - 1) /\
    seg_base ts = c + TS_AT /\ seg_limit ts = SIZEOF_TS - 1 /\ s_ ts = 0 /\ dpl ts = 0 /\ p_ ts = 1 /\
    ss0 s' = Z.shiftl SEG_KDATA 3 /\ esp0 s' = u32 (kstack + KSTACKSIZE) /\ cr3 s' = v2p pgdir /\ cpu s' = c /\
    Spinlock.ncli (nest s') = Spinlock.ncli (nest s) /\ Spinlock.ifl (nest s') = Spinlock.ifl (nest s)).
Proof.
  intros Hl Hc Hc' Hb. destruct s as [g a1 a2 a3 a4 a5 a6 a7 a8 n]. cbn in Hl, Hb.
  do 8 (destruct g as [|? g]; [done || (cbn in Hl; try lia)|]); [|cbn in Hl; lia]. destruct (Spinlock.push_pop n Hb) as (n' & E & En & Ei). split; intros Hp.
  - subst pgdir. reflexivity.
  - assert (Ez : (pgdir =? 0) = false) by (by apply Z.eqb_neq).
    do 7 eexists. split.
    { unfold seginit, switchuvm, popcli, bind, modify, zoom. cbn -[Spinlock.popcli Spinlock.pushcli SEG SEG16 u32 v2p Z.shiftl].
      rewrite Ez. cbn -[Spinlock.popcli Spinlock.pushcli SEG SEG16 u32 v2p Z.shiftl]. rewrite E. reflexivity. }
    split; [reflexivity|].
    unfold CPU_AT, TS_AT. rewrite !SEG_base by (unfold CPU_AT; lia). change (seg_base (set_s 0 ?d)) with (seg_base d).
    repeat split; try reflexivity; try done. apply SEG16_base. lia.
Qed.

End Seg.
