(* ===== verification/Search.v ===== *)
(** * Searching and sorting of the C library (libc/search.c)

    An array of [nmemb] elements of [size] bytes is a list, and a pointer into
    it an index (the address less the base, divided by [size]); an access
    outside the array, a push on a full stack and the end of the fuel are
    [None].  The comparison function is a parameter. *)

From Stdlib Require Import Sorting.Permutation.
From S2P Require Import Prelude.

Module Search.
Section WithOrder.
Context {A : Type} (compar : A -> A -> Z).

Definition T : Z := 7.
Definition STACKSIZE : Z := 64.

Definition rd (a : list A) (i : Z) : option A := if 0 <=? i then a !! Z.to_nat i else None.

Definition memswp (i j : Z) (a : list A) : option (list A) :=
  x ← rd a i; y ← rd a j; Some (<[Z.to_nat j := x]> (<[Z.to_nat i := y]> a)).

(** [if (compar(i, j) > 0) memswp(i, j)] *)
Definition order2 (i j : Z) (a : list A) : option (list A) :=
  x ← rd a i; y ← rd a j; if compar x y >? 0 then memswp i j a else Some a.

(** [do i += size; while (compar(i, base_) < 0);] *)
Fixpoint scan_right (fuel : nat) (i b : Z) (a : list A) : option Z :=
  match fuel with
  | O => None
  | S fuel' =>
      let i := i + 1 in
      x ← rd a i; p ← rd a b;
      if compar x p <? 0 then scan_right fuel' i b a else Some i
  end.

(** [do j -= size; while (compar(j, base_) > 0);] *)
Fixpoint scan_left (fuel : nat) (j b : Z) (a : list A) : option Z :=
  match fuel with
  | O => None
  | S fuel' =>
      let j := j - 1 in
      x ← rd a j; p ← rd a b;
      if compar x p >? 0 then scan_left fuel' j b a else Some j
  end.

(** The main loop of the partition, until the pointers cross. *)
Fixpoint partition (fuel fuel2 : nat) (i j b : Z) (a : list A) : option (list A * Z * Z) :=
  match fuel with
  | O => None
  | S fuel' =>
      i ← scan_right fuel2 i b a;
      j ← scan_left fuel2 j b a;
      if i >? j then Some (a, i, j)
      else a ← memswp i j a; partition fuel' fuel2 i j b a
  end.

(** Insertion sort: the inner loop moves the element behind [j] down. *)
Fixpoint insert_down (fuel : nat) (j b : Z) (a : list A) : option (list A) :=
  match fuel with
  | O => None
  | S fuel' =>
      x ← rd a j; y ← rd a (j + 1);
      if compar x y >? 0 then
        a ← memswp j (j + 1) a;
        if j =? b then Some a else insert_down fuel' (j - 1) b a
      else Some a
  end.

Fixpoint insertion (fuel fuel2 : nat) (j i b limit : Z) (a : list A) : option (list A) :=
  match fuel with
  | O => None
  | S fuel' =>
      if i <? limit then a ← insert_down fuel2 j b a; insertion fuel' fuel2 i (i + 1) b limit a
      else Some a
  end.

Fixpoint qsort_loop (fuel fuel2 : nat) (b limit : Z) (stack : list (Z * Z)) (a : list A) : option (list A) :=
  match fuel with
  | O => None
  | S fuel' =>
      if limit - b >? T then
        let i := b + 1 in
        let j := limit - 1 in
        a ← memswp ((limit - b) / 2 + b) b a;
        a ← order2 i j a;
        a ← order2 b j a;
        a ← order2 i b a;
        '(a, i, j) ← partition fuel2 fuel2 i j b a;
        a ← memswp b j a;
        if 2 * Z.of_nat (length stack) + 2 >? STACKSIZE then None
        else if j - b >? limit - i then qsort_loop fuel' fuel2 i limit ((b, j) :: stack) a
        else qsort_loop fuel' fuel2 b j ((i, limit) :: stack) a
      else
        a ← insertion fuel2 fuel2 b (b + 1) b limit a;
        match stack with
        | (b, limit) :: stack => qsort_loop fuel' fuel2 b limit stack a
        | [] => Some a
        end
  end.

(** The number of turns is at most twice the number of elements, plus one. *)
Definition qsort (a : list A) : option (list A) :=
  qsort_loop (2 * length a + 2) (length a + 2) 0 (Z.of_nat (length a)) [] a.

(** [bsearch]: [None] for the NULL pointer inside the fuel's option. *)
Fixpoint bsearch_loop {K : Type} (cmpk : K -> A -> Z) (fuel : nat) (key : K) (base nmemb : Z) (a : list A)
    : option (option Z) :=
  match fuel with
  | O => None
  | S fuel' =>
      if nmemb =? 0 then Some None
      else
        let corr := nmemb mod 2 in
        let nmemb := nmemb / 2 in
        let pivot := base + nmemb in
        x ← rd a pivot;
        let rc := cmpk key x in
        if rc >? 0 then bsearch_loop cmpk fuel' key (pivot + 1) (nmemb - (1 - corr)) a
        else if rc =? 0 then Some (Some pivot)
        else bsearch_loop cmpk fuel' key base nmemb a
  end.

Definition bsearch {K : Type} (cmpk : K -> A -> Z) (key : K) (a : list A) : option (option Z) :=
  bsearch_loop cmpk (S (length a)) key 0 (Z.of_nat (length a)) a.

End WithOrder.

(** ** Searching *)

Section Search.
Context {K A : Type} (cmpk : K -> A -> Z).

Lemma rd_Some (a : list A) i x : rd a i = Some x <-> 0 <= i /\ a !! Z.to_nat i = Some x.
Proof. unfold rd. destruct (Z.leb_spec 0 i); naive_solver lia. Qed.

Lemma rd_in (a : list A) i : 0 <= i < Z.of_nat (length a) -> exists x, rd a i = Some x.
Proof.
  intros Hi. destruct (lookup_lt_is_Some_2 a (Z.to_nat i) ltac:(lia)) as [x Hx]. exists x.
  apply rd_Some. auto with lia.
Qed.

(** The array is sorted for [key]: first the elements below it, then those that
    match, then those above. *)
Definition sorted_for (key : K) (a : list A) : Prop :=
  forall i j x y, (i < j)%nat -> a !! i = Some x -> a !! j = Some y ->
    (cmpk key x < 0 -> cmpk key y < 0) /\ (cmpk key y > 0 -> cmpk key x > 0).

Lemma bsearch_loop_spec (key : K) (a : list A) : sorted_for key a ->
  forall fuel base nmemb, 0 <= base -> 0 <= nmemb -> base + nmemb <= Z.of_nat (length a) ->
  nmemb < Z.of_nat fuel ->
  (forall i x, rd a i = Some x -> cmpk key x = 0 -> base <= i < base + nmemb) ->
  exists r, bsearch_loop cmpk fuel key base nmemb a = Some r /\
  match r with
  | Some i => exists x, rd a i = Some x /\ cmpk key x = 0
  | None => forall i x, rd a i = Some x -> cmpk key x <> 0
  end.
Proof.
  intros Hs. induction fuel as [|fuel IH]; intros base n Hb Hn Hlen Hf Hin; [lia|]. cbn [bsearch_loop].
  destruct (Z.eqb_spec n 0) as [->|Hn0].
  { eexists. split; [done|]. intros i x Hx E. specialize (Hin i x Hx E). lia. }
  destruct (rd_in a (base + n / 2)) as [x Hx]; [Z.div_mod_to_equations; lia|]. rewrite Hx. cbn [mbind option_bind].
  assert (Hlt : forall i y, rd a i = Some y -> cmpk key y = 0 ->
            (cmpk key x > 0 -> base + n / 2 < i) /\ (cmpk key x < 0 -> i < base + n / 2)).
  { intros i y Hy E. apply rd_Some in Hx as [Hx0 Hx], Hy as [Hy0 Hy]. split; intros Hc.
    - destruct (Z.lt_ge_cases (base + n / 2) i); [done|]. destruct (Z.eq_dec i (base + n / 2)) as [->|]; [assert (y = x) by congruence; subst; lia|].
      destruct (Hs (Z.to_nat i) (Z.to_nat (base + n / 2)) y x ltac:(lia) Hy Hx). lia.
    - destruct (Z.lt_ge_cases i (base + n / 2)); [done|]. destruct (Z.eq_dec i (base + n / 2)) as [->|]; [assert (y = x) by congruence; subst; lia|].
      destruct (Hs (Z.to_nat (base + n / 2)) (Z.to_nat i) x y ltac:(lia) Hx Hy). lia. }
  destruct (Z.gtb_spec (cmpk key x) 0) as [Hgt|Hle]; [|destruct (Z.eqb_spec (cmpk key x) 0) as [E0|Hne]].
  - apply IH; try (Z.div_mod_to_equations; lia). intros i y Hy E.
    specialize (Hin i y Hy E). destruct (Hlt i y Hy E) as [Hl _]. specialize (Hl ltac:(lia)).
    Z.div_mod_to_equations; lia.
  - eexists. split; [done|]. by exists x.
  - apply IH; try (Z.div_mod_to_equations; lia). intros i y Hy E.
    specialize (Hin i y Hy E). destruct (Hlt i y Hy E) as [_ Hl]. specialize (Hl ltac:(lia)). lia.
Qed.

(** C38: [bsearch] on a sorted array never reads outside it, terminates, and
    returns an element that matches the key exactly when there is one. *)
Theorem bsearch_finds (key : K) (a : list A) : sorted_for key a ->
  exists r, bsearch cmpk key a = Some r /\
  match r with
  | Some i => exists x, rd a i = Some x /\ cmpk key x = 0
  | None => forall x, x ∈ a -> cmpk key x <> 0
  end.
Proof.
  intros Hs. destruct (bsearch_loop_spec key a Hs (S (length a)) 0 (Z.of_nat (length a))) as (r & E & Hr); try lia.
  { intros i x [Hi Hx%lookup_lt_Some]%rd_Some. lia. }
  exists r. split; [done|]. destruct r; [done|]. intros x [i Hi]%list_elem_of_lookup.
  apply (Hr (Z.of_nat i)), rd_Some. rewrite Nat2Z.id. auto with lia.
Qed.

End Search.

(** ** Sorting *)

(** What the C standard asks of a comparison function. *)
Class Comparison {A : Type} (compar : A -> A -> Z) : Prop := {
  cmp_sym : forall x y, Z.sgn (compar y x) = - Z.sgn (compar x y);
  cmp_trans : forall x y z, compar x y <= 0 -> compar y z <= 0 -> compar x z <= 0 }.

Section Sorting.
Context {A : Type} (compar : A -> A -> Z) `{!Comparison compar}.

Definition le (x y : A) : Prop := compar x y <= 0.

Lemma le_refl x : le x x.
Proof. pose proof (cmp_sym x x). unfold le. lia. Qed.

Lemma le_trans x y z : le x y -> le y z -> le x z.
Proof. apply cmp_trans. Qed.

Lemma not_lt_le x y : ~ compar x y < 0 <-> le y x.
Proof. pose proof (cmp_sym x y). unfold le. lia. Qed.

Lemma not_gt_le x y : ~ compar x y > 0 <-> le x y.
Proof. unfold le. lia. Qed.

(** *** Rearranging a part of the array *)

Record within (b l : Z) (a a' : list A) : Prop := {
  within_perm : a' ≡ₚ a;
  within_out : forall k, ~ (b <= k < l) -> rd a' k = rd a k;
  within_in : forall k x, b <= k < l -> rd a' k = Some x -> exists k', b <= k' < l /\ rd a k' = Some x }.

Lemma within_refl b l a : within b l a a.
Proof. split; [done|done|eauto]. Qed.

Lemma within_length b l a a' : within b l a a' -> length a' = length a.
Proof. intros [Hp _ _]. by apply Permutation_length. Qed.

Lemma within_trans b l a a1 a2 : within b l a a1 -> within b l a1 a2 -> within b l a a2.
Proof.
  intros [P1 O1 I1] [P2 O2 I2]. split; [by rewrite P2|by intros; rewrite O2, O1|].
  intros k x Hk Hx. destruct (I2 k x Hk Hx) as (k' & Hk' & Hx'). by apply (I1 k').
Qed.

Lemma within_weaken b l b' l' a a' : within b l a a' -> b' <= b -> l <= l' -> within b' l' a a'.
Proof.
  intros [P O I] Hb Hl. split; [done|intros k Hk; apply O; lia|]. intros k x Hk Hx.
  destruct (decide (b <= k < l)) as [Hin|Hout].
  - destruct (I k x Hin Hx) as (k' & ? & ?). exists k'. split; [lia|done].
  - exists k. split; [done|]. by rewrite <- O.
Qed.

Lemma rd_insert (a : list A) i k x : 0 <= i < Z.of_nat (length a) ->
  rd (<[Z.to_nat i := x]> a) k = if decide (k = i) then Some x else rd a k.
Proof.
  intros Hi. unfold rd. destruct (Z.leb_spec 0 k); case_decide; subst; try lia; [|..|done].
  - by rewrite list_lookup_insert_eq by lia.
  - by rewrite list_lookup_insert_ne by lia.
Qed.

Lemma memswp_spec (a : list A) i j x y : rd a i = Some x -> rd a j = Some y ->
  exists a', memswp i j a = Some a' /\ a' ≡ₚ a /\
    forall k, rd a' k = if decide (k = j) then Some x else if decide (k = i) then Some y else rd a k.
Proof.
  intros Hi Hj. unfold memswp. rewrite Hi, Hj. cbn [mbind option_bind]. eexists. split; [done|].
  apply rd_Some in Hi as [Hi0 Hi], Hj as [Hj0 Hj].
  pose proof (lookup_lt_Some _ _ _ Hi). pose proof (lookup_lt_Some _ _ _ Hj).
  split; [by apply Permutation_insert_swap|]. intros k. rewrite !rd_insert by (rewrite ?length_insert; lia). done.
Qed.

Lemma memswp_within (a : list A) i j b l : 0 <= b -> l <= Z.of_nat (length a) -> b <= i < l -> b <= j < l ->
  exists a' x y, memswp i j a = Some a' /\ within b l a a' /\ rd a i = Some x /\ rd a j = Some y /\
    forall k, rd a' k = if decide (k = j) then Some x else if decide (k = i) then Some y else rd a k.
Proof.
  intros Hb Hl Hi Hj. destruct (rd_in a i ltac:(lia)) as [x Hx], (rd_in a j ltac:(lia)) as [y Hy].
  destruct (memswp_spec a i j x y Hx Hy) as (a' & E & Hp & Hr). exists a', x, y. split_and!; try done.
  split; [done| |].
  - intros k Hk. rewrite Hr. repeat case_decide; try lia. done.
  - intros k z Hk. rewrite Hr. repeat case_decide; intros; simplify_eq; eauto.
Qed.

Lemma order2_spec (a : list A) i j b l : 0 <= b -> l <= Z.of_nat (length a) -> b <= i < l -> b <= j < l -> i <> j ->
  exists a' u v, order2 compar i j a = Some a' /\ within b l a a' /\ rd a' i = Some u /\ rd a' j = Some v /\ le u v /\
    (forall k, k <> i -> k <> j -> rd a' k = rd a k) /\
    ((rd a i = Some u /\ rd a j = Some v) \/ (rd a i = Some v /\ rd a j = Some u)).
Proof.
  intros Hb Hl Hi Hj Hne. destruct (memswp_within a i j b l Hb Hl Hi Hj) as (a' & x & y & E & Hw & Hx & Hy & Hr).
  unfold order2. rewrite Hx, Hy. cbn [mbind option_bind]. destruct (Z.gtb_spec (compar x y) 0) as [Hgt|Hle].
  - exists a', y, x. rewrite !Hr. repeat case_decide; try lia. split_and!; try done.
    + apply not_lt_le. lia.
    + intros k ? ?. rewrite Hr. by repeat case_decide.
    + by right.
  - exists a, x, y. split_and!; try done; [apply within_refl|by left].
Qed.

(** *** Partition *)

(** All elements of [lo, hi) are at most, at least [p]. *)
Definition all_le (p : A) (a : list A) (lo hi : Z) : Prop := forall k x, lo <= k < hi -> rd a k = Some x -> le x p.
Definition all_ge (p : A) (a : list A) (lo hi : Z) : Prop := forall k x, lo <= k < hi -> rd a k = Some x -> le p x.

Lemma scan_right_spec fuel : forall i b (a : list A) p m y, rd a b = Some p -> 0 <= i + 1 -> i < m ->
  rd a m = Some y -> le p y -> m < i + Z.of_nat fuel + 1 ->
  exists i' x, scan_right compar fuel i b a = Some i' /\ i < i' <= m /\ rd a i' = Some x /\ le p x /\ all_le p a (i + 1) i'.
Proof.
  induction fuel as [|fuel IH]; intros i b a p m y Hp Hi Him Hm Hy Hf; [lia|]. cbn [scan_right].
  destruct (rd_in a (i + 1)) as [x Hx].
  { apply rd_Some in Hm as [? Hm%lookup_lt_Some]. lia. }
  rewrite Hx, Hp. cbn [mbind option_bind]. destruct (Z.ltb_spec (compar x p) 0) as [Hlt|Hge].
  - destruct (Z.eq_dec (i + 1) m) as [E|Hne].
    { exfalso. assert (x = y) by congruence. subst y. apply not_lt_le in Hy. lia. }
    destruct (IH (i + 1) b a p m y) as (i' & z & E & Hi' & Hz & Hpz & Hall); try done; try lia.
    exists i', z. split_and!; try done; try lia. intros k w Hk Hw. destruct (Z.eq_dec k (i + 1)) as [->|].
    + assert (w = x) by congruence. subst w. unfold le. lia.
    + apply (Hall k); [lia|done].
  - exists (i + 1), x. split_and!; try done; try lia; [apply not_lt_le; lia|]. intros k w Hk. lia.
Qed.

Lemma scan_left_spec fuel : forall j b (a : list A) p m y, rd a b = Some p -> j <= Z.of_nat (length a) -> m < j ->
  rd a m = Some y -> le y p -> j < m + Z.of_nat fuel + 1 ->
  exists j' x, scan_left compar fuel j b a = Some j' /\ m <= j' < j /\ rd a j' = Some x /\ le x p /\ all_ge p a (j' + 1) j.
Proof.
  induction fuel as [|fuel IH]; intros j b a p m y Hp Hj Hmj Hm Hy Hf; [lia|]. cbn [scan_left].
  destruct (rd_in a (j - 1)) as [x Hx].
  { apply rd_Some in Hm as [? Hm%lookup_lt_Some]. lia. }
  rewrite Hx, Hp. cbn [mbind option_bind]. destruct (Z.gtb_spec (compar x p) 0) as [Hgt|Hle].
  - destruct (Z.eq_dec (j - 1) m) as [E|Hne].
    { exfalso. assert (x = y) by congruence. subst y. unfold le in Hy. lia. }
    destruct (IH (j - 1) b a p m y) as (j' & z & E & Hj' & Hz & Hpz & Hall); try done; try lia.
    exists j', z. split_and!; try done; try lia. intros k w Hk Hw. destruct (Z.eq_dec k (j - 1)) as [->|].
    + assert (w = x) by congruence. subst w. apply not_lt_le. lia.
    + apply (Hall k); [lia|done].
  - exists (j - 1), x. split_and!; try done; try lia. intros k w Hk. lia.
Qed.

(** The pointers have crossed: [b+1, i) is at most the pivot, (j, limit) at least. *)
Lemma partition_spec fuel : forall fuel2 i j b limit (a : list A) p, rd a b = Some p -> 0 <= b ->
  limit <= Z.of_nat (length a) -> b + 1 <= i < limit - 1 -> b + 1 < j <= limit - 1 ->
  all_le p a (b + 1) (i + 1) -> all_ge p a j limit -> limit - i < Z.of_nat fuel + 1 -> limit - b < Z.of_nat fuel2 ->
  exists a' i' j' x, partition compar fuel fuel2 i j b a = Some (a', i', j') /\ within (b + 1) limit a a' /\
    b + 1 <= j' < i' /\ i' <= limit - 1 /\ rd a' j' = Some x /\ le x p /\
    all_le p a' (b + 1) i' /\ all_ge p a' (j' + 1) limit.
Proof.
  induction fuel as [|fuel IH]; intros fuel2 i j b limit a p Hp Hb Hl Hi Hj Hle Hge Hf Hf2; [lia|]. cbn [partition].
  destruct (rd_in a (limit - 1) ltac:(lia)) as [y Hy]. destruct (rd_in a (b + 1) ltac:(lia)) as [z Hz].
  destruct (scan_right_spec fuel2 i b a p (limit - 1) y) as (i' & u & -> & Hi' & Hu & Hpu & Hr); try done; try lia.
  { by apply (Hge (limit - 1)); [lia|]. }
  destruct (scan_left_spec fuel2 j b a p (b + 1) z) as (j' & v & Ej & Hj' & Hv & Hpv & Hll); try done; try lia.
  { by apply (Hle (b + 1)); [lia|]. }
  cbn [mbind option_bind]. rewrite Ej. cbn [mbind option_bind].
  assert (Hle' : all_le p a (b + 1) i').
  { intros k w Hk Hw. destruct (Z.lt_ge_cases k (i + 1)); [by apply (Hle k); [lia|]|by apply (Hr k); [lia|]]. }
  assert (Hge' : all_ge p a (j' + 1) limit).
  { intros k w Hk Hw. destruct (Z.lt_ge_cases k j); [by apply (Hll k); [lia|]|by apply (Hge k); [lia|]]. }
  destruct (Z.gtb_spec i' j') as [Hcross|Hno].
  { exists a, i', j', v. split_and!; try done; try lia. apply within_refl. }
  destruct (memswp_within a i' j' (b + 1) limit) as (a1 & u' & v' & -> & Hw & Hu' & Hv' & Hrd); try lia.
  cbn [mbind option_bind]. assert (u' = u) by congruence. assert (v' = v) by congruence. subst u' v'.
  assert (Huv : i' = j' -> v = u) by (intros ->; congruence).
  destruct (IH fuel2 i' j' b limit a1 p) as (a2 & i2 & j2 & x & E & Hw2 & H1 & H2 & H3 & H4 & H5 & H6); try done; try lia.
  - rewrite Hrd. by repeat case_decide; try lia.
  - by rewrite (within_length _ _ _ _ Hw).
  - intros k w Hk. rewrite Hrd. case_decide as E1; [intros [= <-]; rewrite <- (Huv ltac:(lia)); done|].
    case_decide as E2; [by intros [= <-]|]. intros Hw'. by apply (Hle' k); [lia|].
  - intros k w Hk. rewrite Hrd. case_decide as E1; [by intros [= <-]|].
    case_decide as E2; [intros [= <-]; rewrite (Huv ltac:(lia)); done|]. intros Hw'. by apply (Hge' k); [lia|].
  - exists a2, i2, j2, x. split_and!; try done; try lia. by eapply within_trans.
Qed.

(** The part of the loop body of [qsort] for more than [T] elements. *)
Definition round (fuel2 : nat) (b limit : Z) (a : list A) : option (list A * Z * Z) :=
  a ← memswp ((limit - b) / 2 + b) b a;
  a ← order2 compar (b + 1) (limit - 1) a;
  a ← order2 compar b (limit - 1) a;
  a ← order2 compar (b + 1) b a;
  '(a, i, j) ← partition compar fuel2 fuel2 (b + 1) (limit - 1) b a;
  a ← memswp b j a; Some (a, i, j).

(** The median of three: afterwards a[b + 1] <= a[b] <= a[limit - 1]. *)
Lemma median_spec b limit (a : list A) : 0 <= b -> limit <= Z.of_nat (length a) -> limit - b > T ->
  exists a1 a2 a3 a4 u p v, memswp ((limit - b) / 2 + b) b a = Some a1 /\
    order2 compar (b + 1) (limit - 1) a1 = Some a2 /\ order2 compar b (limit - 1) a2 = Some a3 /\
    order2 compar (b + 1) b a3 = Some a4 /\ within b limit a a4 /\
    rd a4 (b + 1) = Some u /\ rd a4 b = Some p /\ rd a4 (limit - 1) = Some v /\ le u p /\ le p v.
Proof.
  unfold T. intros Hb Hl Hsz.
  destruct (memswp_within a ((limit - b) / 2 + b) b b limit) as (a1 & _ & _ & E1 & W1 & _); try lia; [Z.div_mod_to_equations; lia|].
  pose proof (within_length _ _ _ _ W1) as L1.
  destruct (order2_spec a1 (b + 1) (limit - 1) b limit) as (a2 & u2 & v2 & E2 & W2 & Hu2 & Hv2 & H2 & O2 & _); try lia.
  pose proof (within_length _ _ _ _ W2) as L2.
  destruct (order2_spec a2 b (limit - 1) b limit) as (a3 & p3 & v3 & E3 & W3 & Hp3 & Hv3 & H3 & O3 & C3); try lia.
  pose proof (within_length _ _ _ _ W3) as L3.
  assert (Hu3 : rd a3 (b + 1) = Some u2) by (rewrite O3 by lia; done).
  assert (Huv : le u2 v3).
  { destruct C3 as [[_ C]|[_ C]]; [by assert (v3 = v2) as -> by congruence|].
    assert (v2 = p3) by congruence. subst. by eapply le_trans. }
  destruct (order2_spec a3 (b + 1) b b limit) as (a4 & u4 & p4 & E4 & W4 & Hu4 & Hp4 & H4 & O4 & C4); try lia.
  exists a1, a2, a3, a4, u4, p4, v3. split_and!; try done.
  - eauto using within_trans.
  - by rewrite O4 by lia.
  - destruct C4 as [[_ C]|[C _]]; [by assert (p4 = p3) as -> by congruence|by assert (p4 = u2) as -> by congruence].
Qed.

Lemma round_spec fuel2 b limit (a : list A) : 0 <= b -> limit <= Z.of_nat (length a) -> limit - b > T ->
  Z.of_nat (length a) < Z.of_nat fuel2 ->
  exists a' i j p, round fuel2 b limit a = Some (a', i, j) /\ within b limit a a' /\ b < j < i /\ i < limit /\
    all_le p a' b i /\ all_ge p a' j limit.
Proof.
  intros Hb Hl Hsz Hf. destruct (median_spec b limit a Hb Hl Hsz) as
    (a1 & a2 & a3 & a4 & u & p & v & E1 & E2 & E3 & E4 & W & Hu & Hp & Hv & Hup & Hpv).
  unfold round. rewrite E1. cbn [mbind option_bind]. rewrite E2. cbn [mbind option_bind]. rewrite E3.
  cbn [mbind option_bind]. rewrite E4. cbn [mbind option_bind]. unfold T in Hsz.
  pose proof (within_length _ _ _ _ W) as L.
  destruct (partition_spec fuel2 fuel2 (b + 1) (limit - 1) b limit a4 p) as
    (a5 & i & j & x & -> & W5 & Hj & Hi & Hx & Hxp & Hle & Hge); try done; try lia.
  { intros k w Hk Hw. replace k with (b + 1) in Hw by lia. congruence. }
  { intros k w Hk Hw. replace k with (limit - 1) in Hw by lia. congruence. }
  cbn [mbind option_bind]. pose proof (within_length _ _ _ _ W5) as L5.
  destruct (memswp_within a5 b j b limit) as (a6 & p' & x' & -> & W6 & Hp' & Hx' & Hrd); try lia.
  rewrite (within_out _ _ _ _ W5) in Hp' by lia. assert (p' = p) by congruence. assert (x' = x) by congruence. subst.
  cbn [mbind option_bind]. exists a6, i, j, p. split_and!; try done; try lia.
  - eapply within_trans; [exact W|]. eapply within_trans; [|exact W6]. eapply within_weaken; [exact W5|lia|lia].
  - intros k w Hk. rewrite Hrd. case_decide; [intros [= <-]; apply le_refl|].
    case_decide; [by intros [= <-]|]. intros Hw. by apply (Hle k); [lia|].
  - intros k w Hk. rewrite Hrd. case_decide; [intros [= <-]; apply le_refl|].
    case_decide; [lia|]. intros Hw. by apply (Hge k); [lia|].
Qed.

(** *** Insertion sort *)

(** Ordered on [lo, hi), but for pairs whose second member is at [y0]. *)
Definition ordered_but (y0 : Z) (a : list A) (lo hi : Z) : Prop :=
  forall x y u v, lo <= x -> x < y < hi -> y <> y0 -> rd a x = Some u -> rd a y = Some v -> le u v.

Lemma insert_down_spec fuel : forall j b hi (a : list A), 0 <= b <= j -> j + 1 < hi -> hi <= Z.of_nat (length a) ->
  ordered_but (j + 1) a b hi -> j - b < Z.of_nat fuel ->
  exists a', insert_down compar fuel j b a = Some a' /\ within b hi a a' /\ ordered_but b a' b hi.
Proof.
  induction fuel as [|fuel IH]; intros j b hi a Hb Hj Hl Ho Hf; [lia|]. cbn [insert_down].
  destruct (memswp_within a j (j + 1) b hi) as (a1 & x & y & E & W & Hx & Hy & Hrd); try lia.
  rewrite Hx, Hy. cbn [mbind option_bind]. destruct (Z.gtb_spec (compar x y) 0) as [Hgt|Hle].
  - rewrite E. cbn [mbind option_bind].
    assert (Hyx : le y x) by (apply not_lt_le; lia).
    assert (Ho1 : ordered_but j a1 b hi).
    { intros k m u v Hk Hm Hmj. rewrite !Hrd. rewrite (decide_False (P := m = j)) by done.
      destruct (decide (m = j + 1)) as [->|Hm1].
      - rewrite decide_False by lia. intros Hu [= <-]. destruct (decide (k = j)) as [->|]; [by injection Hu as <-|].
        apply (Ho k j); try done; lia.
      - destruct (decide (k = j + 1)) as [->|]; [intros [= <-] Hv; apply (Ho j m); try done; lia|].
        destruct (decide (k = j)) as [->|]; [intros [= <-] Hv; apply (Ho (j + 1) m); try done; lia|].
        intros Hu Hv. apply (Ho k m); try done; lia. }
    destruct (Z.eqb_spec j b) as [->|Hne].
    + exists a1. done.
    + destruct (IH (j - 1) b hi a1) as (a2 & E2 & W2 & Ho2); try lia.
      * by rewrite (within_length _ _ _ _ W).
      * by replace (j - 1 + 1) with j by lia.
      * exists a2. split_and!; try done. by eapply within_trans.
  - exists a. split_and!; [done|apply within_refl|]. intros k m u v Hk Hm _ Hu Hv.
    destruct (Z.eq_dec m (j + 1)) as [->|Hne]; [|by apply (Ho k m)].
    assert (v = y) by congruence. subst v. assert (Hxy : le x y) by (unfold le; lia).
    destruct (Z.eq_dec k j) as [->|]; [congruence|]. eapply le_trans; [|exact Hxy]. apply (Ho k j); try done; lia.
Qed.

Lemma insertion_spec fuel : forall fuel2 j b limit (a : list A), 0 <= b <= j -> limit <= Z.of_nat (length a) ->
  ordered_but b a b (j + 1) -> limit - j < Z.of_nat fuel -> Z.of_nat (length a) < Z.of_nat fuel2 -> j <= limit ->
  exists a', insertion compar fuel fuel2 j (j + 1) b limit a = Some a' /\ within b limit a a' /\ ordered_but b a' b limit.
Proof.
  induction fuel as [|fuel IH]; intros fuel2 j b limit a Hb Hl Ho Hf Hf2 Hjl; [lia|]. cbn [insertion].
  destruct (Z.ltb_spec (j + 1) limit) as [Hlt|Hge].
  - destruct (insert_down_spec fuel2 j b (j + 2) a) as (a1 & -> & W & Ho1); try lia.
    { intros x y u v Hx Hy Hne. apply Ho; lia. }
    cbn [mbind option_bind]. pose proof (within_length _ _ _ _ W) as L.
    destruct (IH fuel2 (j + 1) b limit a1) as (a2 & E & W2 & Ho2); try lia.
    { by replace (j + 1 + 1) with (j + 2) by lia. }
    exists a2. split_and!; try done. eapply within_trans; [|exact W2]. eapply within_weaken; [exact W|lia|lia].
  - exists a. split_and!; [done|apply within_refl|]. intros x y u v Hx Hy. apply Ho; lia.
Qed.

(** *** The loop and its stack *)

Definition disjoint (s1 s2 : Z * Z) : Prop := s1.2 <= s2.1 \/ s2.2 <= s1.1.

(** [segs] are the parts still to be sorted: everything else is in order. *)
Record pending (a : list A) (segs : list (Z * Z)) : Prop := {
  pending_ord : forall x y u v, x < y -> rd a x = Some u -> rd a y = Some v ->
    le u v \/ exists s, s ∈ segs /\ s.1 <= x /\ y < s.2;
  pending_range : Forall (fun s => 0 <= s.1 <= s.2 /\ s.2 <= Z.of_nat (length a)) segs;
  pending_disj : ForallOrdPairs disjoint segs }.

Lemma pending_within a a' s segs : pending a (s :: segs) -> within s.1 s.2 a a' -> pending a' (s :: segs).
Proof.
  intros [Ho Hr Hd] Hw. apply Forall_cons in Hr as [Hs Hr].
  assert (Hds : forall s', s' ∈ segs -> disjoint s s').
  { inversion Hd as [|? ? HF _]; subst. rewrite Forall_forall in HF. auto. }
  split; [|by constructor; rewrite ?(within_length _ _ _ _ Hw)|done].
  intros x y u v Hxy Hx Hy. destruct (decide (s.1 <= x < s.2)) as [Hxi|Hxo], (decide (s.1 <= y < s.2)) as [Hyi|Hyo].
  - right. exists s. split; [left|lia].
  - destruct (within_in _ _ _ _ Hw x u Hxi Hx) as (x' & Hx' & Hux). rewrite (within_out _ _ _ _ Hw y Hyo) in Hy.
    destruct (Ho x' y u v ltac:(lia) Hux Hy) as [?|(s' & [->|Hs']%elem_of_cons & H1 & H2)]; [by left|lia|].
    destruct (Hds s' Hs'); lia.
  - destruct (within_in _ _ _ _ Hw y v Hyi Hy) as (y' & Hy' & Hvy). rewrite (within_out _ _ _ _ Hw x Hxo) in Hx.
    destruct (Ho x y' u v ltac:(lia) Hx Hvy) as [?|(s' & [->|Hs']%elem_of_cons & H1 & H2)]; [by left|lia|].
    destruct (Hds s' Hs'); lia.
  - rewrite (within_out _ _ _ _ Hw) in Hx, Hy by done. by eapply Ho.
Qed.

Lemma pending_done a b l segs : pending a ((b, l) :: segs) -> ordered_but b a b l -> pending a segs.
Proof.
  intros [Ho Hr Hd] Hs. split; [|by apply Forall_cons in Hr as [_ Hr]|by inversion Hd].
  intros x y u v Hxy Hx Hy. destruct (Ho x y u v Hxy Hx Hy) as [?|(s & [->|Hin]%elem_of_cons & H1 & H2)]; [by left| |by right; exists s].
  left. cbn in *. apply (Hs x y); try done; lia.
Qed.

Lemma pending_split a b i j l p segs : pending a ((b, l) :: segs) -> b < j < i -> i < l ->
  all_le p a b i -> all_ge p a j l -> pending a ((b, j) :: (i, l) :: segs) /\ pending a ((i, l) :: (b, j) :: segs).
Proof.
  intros [Ho Hr Hd] Hj Hi Hle Hge. inversion Hd as [|? ? HF Hd']; subst. apply Forall_cons in Hr as [Hs Hr]. cbn in Hs.
  assert (Hdl : Forall (disjoint (b, j)) segs /\ Forall (disjoint (i, l)) segs).
  { split; eapply Forall_impl; try exact HF; intros s; unfold disjoint; cbn; lia. }
  destruct Hdl as [Hd1 Hd2].
  assert (Hord : forall x y u v, x < y -> rd a x = Some u -> rd a y = Some v ->
    le u v \/ (b <= x /\ y < j) \/ (i <= x /\ y < l) \/ exists s, s ∈ segs /\ s.1 <= x /\ y < s.2).
  { intros x y u v Hxy Hx Hy. destruct (Ho x y u v Hxy Hx Hy) as [?|(s & [->|Hin]%elem_of_cons & H1 & H2)]; [by left| |by do 3 right; exists s].
    cbn in *. destruct (Z.lt_ge_cases y j); [tauto|]. destruct (Z.lt_ge_cases x i); [|tauto].
    left. eapply le_trans; [apply (Hle x); [lia|done]|apply (Hge y); [lia|done]]. }
  split; split.
  - intros x y u v Hxy Hx Hy. destruct (Hord x y u v Hxy Hx Hy) as [?|[?|[?|(s & ? & ?)]]]; [by left|right..].
    + exists (b, j). split; [left|done].
    + exists (i, l). split; [right; left|done].
    + exists s. split; [by do 2 right|done].
  - repeat constructor; cbn; try lia. done.
  - constructor; [constructor; [left; cbn; lia|done]|by constructor].
  - intros x y u v Hxy Hx Hy. destruct (Hord x y u v Hxy Hx Hy) as [?|[?|[?|(s & ? & ?)]]]; [by left|right..].
    + exists (b, j). split; [right; left|done].
    + exists (i, l). split; [left|done].
    + exists s. split; [by do 2 right|done].
  - repeat constructor; cbn; try lia. done.
  - constructor; [constructor; [right; cbn; lia|done]|by constructor].
Qed.

(** An entry with [k] entries below it has at most [n / 2^k] elements. *)
Fixpoint shallow (n : Z) (stack : list (Z * Z)) : Prop :=
  match stack with
  | [] => True
  | (b, l) :: rest => (l - b) * 2 ^ Z.of_nat (length rest) <= n /\ shallow n rest
  end.

(** Turns needed for the parts still to be sorted. *)
Fixpoint turns (segs : list (Z * Z)) : Z :=
  match segs with [] => 0 | (b, l) :: rest => 2 * (l - b) + 1 + turns rest end.

Lemma turns_nonneg n segs : Forall (fun s => 0 <= s.1 <= s.2 /\ s.2 <= n) segs -> 0 <= turns segs.
Proof. induction 1 as [|[b l] segs Hs Hr IH]; [done|]. cbn in *. lia. Qed.

Lemma qsort_loop_eq fuel fuel2 b limit stack (a : list A) : qsort_loop compar (S fuel) fuel2 b limit stack a =
  if limit - b >? T then
    '(a, i, j) ← round fuel2 b limit a;
    if 2 * Z.of_nat (length stack) + 2 >? STACKSIZE then None
    else if j - b >? limit - i then qsort_loop compar fuel fuel2 i limit ((b, j) :: stack) a
    else qsort_loop compar fuel fuel2 b j ((i, limit) :: stack) a
  else
    a ← insertion compar fuel2 fuel2 b (b + 1) b limit a;
    match stack with
    | (b, limit) :: stack => qsort_loop compar fuel fuel2 b limit stack a
    | [] => Some a
    end.
Proof.
  cbn [qsort_loop]. destruct (limit - b >? T); [|done]. unfold round.
  destruct (memswp _ b a) as [a1|]; [cbn [mbind option_bind]|done].
  destruct (order2 _ _ _ a1) as [a2|]; [cbn [mbind option_bind]|done].
  destruct (order2 _ _ _ a2) as [a3|]; [cbn [mbind option_bind]|done].
  destruct (order2 _ _ _ a3) as [a4|]; [cbn [mbind option_bind]|done].
  destruct (partition _ _ _ _ _ _ a4) as [[[a5 i] j]|]; [cbn [mbind option_bind]|done].
  by destruct (memswp b j a5).
Qed.

Lemma qsort_loop_spec n fuel : forall fuel2 b limit stack (a : list A), pending a ((b, limit) :: stack) ->
  turns ((b, limit) :: stack) <= Z.of_nat fuel -> Z.of_nat (length a) < Z.of_nat fuel2 ->
  n < 2 ^ 32 -> (limit - b) * 2 ^ Z.of_nat (length stack) <= n -> shallow n stack ->
  exists a', qsort_loop compar fuel fuel2 b limit stack a = Some a' /\ a' ≡ₚ a /\ pending a' [].
Proof.
  induction fuel as [|fuel IH]; intros fuel2 b limit stack a Hp Ht Hf2 Hn Hcur Hsh.
  { destruct Hp as [_ Hr _]. apply Forall_cons in Hr as [Hr Hrs]. apply turns_nonneg in Hrs. cbn in *. lia. }
  rewrite qsort_loop_eq. pose proof (pending_range _ _ Hp) as Hr. apply Forall_cons in Hr as [Hb _]. cbn [fst snd] in Hb.
  cbn [turns] in Ht. set (d := Z.of_nat (length stack)) in *. assert (0 < 2 ^ d) by (apply Z.pow_pos_nonneg; lia).
  destruct (Z.gtb_spec (limit - b) T) as [Hbig|Hsmall].
  - destruct (round_spec fuel2 b limit a) as (a1 & i & j & p & -> & W & Hj & Hi & Hle & Hge); try lia.
    cbn [mbind option_bind]. pose proof (pending_within _ _ (b, limit) _ Hp W) as Hp1.
    destruct (pending_split _ _ _ _ _ _ _ Hp1 Hj Hi Hle Hge) as [Hl Hrr].
    assert (Hd : d < 30).
    { destruct (Z.lt_ge_cases d 30) as [|Hd]; [done|]. exfalso. pose proof (Z.pow_le_mono_r 2 30 d ltac:(lia) Hd). unfold T in *. nia. }
    assert (H2 : 2 ^ (d + 1) = 2 * 2 ^ d) by (rewrite Z.pow_add_r by lia; lia).
    destruct (Z.gtb_spec (2 * d + 2) STACKSIZE) as [Hover|_]; [unfold STACKSIZE in *; lia|].
    pose proof (within_length _ _ _ _ W) as L.
    destruct (Z.gtb_spec (j - b) (limit - i)) as [Hlg|Hlg].
    + destruct (IH fuel2 i limit ((b, j) :: stack) a1) as (a2 & E & P & Q); try done; try (cbn [turns length shallow]; lia).
      * cbn [length]. rewrite Nat2Z.inj_succ, <- Z.add_1_r. fold d. nia.
      * cbn [shallow]. split; [fold d; nia|done].
      * exists a2. split_and!; [done| |done]. rewrite P. apply W.
    + destruct (IH fuel2 b j ((i, limit) :: stack) a1) as (a2 & E & P & Q); try done; try (cbn [turns length shallow]; lia).
      * cbn [length]. rewrite Nat2Z.inj_succ, <- Z.add_1_r. fold d. nia.
      * cbn [shallow]. split; [fold d; nia|done].
      * exists a2. split_and!; [done| |done]. rewrite P. apply W.
  - destruct (insertion_spec fuel2 fuel2 b b limit a) as (a1 & -> & W & Ho); try lia.
    { intros x y u v Hx Hy. lia. }
    cbn [mbind option_bind]. pose proof (pending_done _ _ _ _ (pending_within _ _ (b, limit) _ Hp W) Ho) as Hp1.
    pose proof (within_length _ _ _ _ W) as L.
    destruct stack as [|[b' l'] stack].
    + exists a1. split_and!; [done|apply W|done].
    + destruct Hsh as [Hsh1 Hsh2]. destruct (IH fuel2 b' l' stack a1) as (a2 & E & P & Q); try done; try lia.
      exists a2. split_and!; [done| |done]. rewrite P. apply W.
Qed.

(** C15: [qsort] sorts.  For every comparison function that meets the C
    standard's requirements and every array of less than 2^32 elements it
    terminates, never reads or writes outside the array, never overflows its
    stack of 64 pointers, and leaves an ordered permutation of the elements. *)
Theorem qsort_sorts (a : list A) : Z.of_nat (length a) < 2 ^ 32 ->
  exists a', qsort compar a = Some a' /\ a' ≡ₚ a /\
    forall i j x y, (i < j)%nat -> a' !! i = Some x -> a' !! j = Some y -> le x y.
Proof.
  intros Hn. destruct (qsort_loop_spec (Z.of_nat (length a)) (2 * length a + 2) (length a + 2) 0 (Z.of_nat (length a)) [] a)
    as (a' & E & P & [Q _ _]); try (cbn; lia).
  { split; [|constructor; [cbn; lia|constructor]|repeat constructor].
    intros x y u v Hxy Hx Hy. right. exists (0, Z.of_nat (length a)). split; [left|]. cbn.
    apply rd_Some in Hx as [? _], Hy as [? Hy%lookup_lt_Some]. lia. }
  exists a'. split_and!; [done|done|]. intros i j x y Hij Hi Hj.
  destruct (Q (Z.of_nat i) (Z.of_nat j) x y ltac:(lia)) as [?|(s & Hs%not_elem_of_nil & _)]; try done;
    apply rd_Some; rewrite Nat2Z.id; auto with lia.
Qed.

End Sorting.

(** ** Examples *)

#[export] Instance sub_comparison : Comparison Z.sub.
Proof. split; intros; lia. Qed.

Definition numbers : list Z := [5; 3; 9; 1; 7; 2; 8; 6; 4; 0; 3].

Lemma qsort_sorts_witness : exists a', qsort Z.sub numbers = Some a' /\ a' = [0; 1; 2; 3; 3; 4; 5; 6; 7; 8; 9] /\
  a' ≡ₚ numbers.
Proof.
  destruct (qsort_sorts Z.sub numbers ltac:(cbn; lia)) as (a' & E & P & _). exists a'. split_and!; [exact E| |exact P].
  vm_compute in E. congruence.
Defined.

Lemma bsearch_finds_witness : bsearch Z.sub 7 [1; 4; 7; 9] = Some (Some 2) /\
  exists r, bsearch Z.sub 7 [1; 4; 7; 9] = Some r.
Proof.
  split; [reflexivity|].
  destruct (bsearch_finds Z.sub 7 [1; 4; 7; 9]) as (r & E & _); [|exists r; exact E].
  intros i j x y Hij Hi Hj. do 4 (destruct i as [|i]; [cbn in Hi; injection Hi as <-;
    do 4 (destruct j as [|j]; [cbn in Hj; injection Hj as <-; lia|]); discriminate Hj|]). discriminate Hi.
Defined.

End Search.
