(* ===== verification/Ctype.v ===== *)
(** * Character classes (libc/ctype.c)

    The table of the "C" locale, row by row, and the functions that index it
    with their argument.  Row 0 of the table is the row for EOF, so the row of
    character [c] is row [c + 1]; the functions read row [c].  An index outside
    the table is [None]. *)

From S2P Require Import Prelude.

Module Ctype.

Record _ctype_t := { flags : Z; upper : Z; lower : Z; collation : Z }.

Definition _CTYPE_ALPHA : Z := 1.
Definition _CTYPE_BLANK : Z := 2.
Definition _CTYPE_CNTRL : Z := 4.
Definition _CTYPE_GRAPH : Z := 8.
Definition _CTYPE_PUNCT : Z := 16.
Definition _CTYPE_SPACE : Z := 32.
Definition _CTYPE_LOWER : Z := 64.
Definition _CTYPE_UPPER : Z := 128.
Definition _CTYPE_DIGIT : Z := 256.
Definition _CTYPE_XDIGT : Z := 512.

(** flags, upper, lower, collation *)
Definition global_ctype : list (Z * Z * Z * Z) := [
   (0, 0, 0, 0); (4, 0, 0, 0); (4, 1, 1, 1); (4, 2, 2, 2); (4, 3, 3, 3); (4, 4, 4, 4);
   (4, 5, 5, 5); (4, 6, 6, 6); (4, 7, 7, 7); (4, 8, 8, 8); (38, 9, 9, 9); (36, 10, 10, 10);
   (36, 11, 11, 11); (36, 12, 12, 12); (36, 13, 13, 13); (4, 14, 14, 14); (4, 15, 15, 15); (4, 16, 16, 16);
   (4, 17, 17, 17); (4, 18, 18, 18); (4, 19, 19, 19); (4, 20, 20, 20); (4, 21, 21, 21); (4, 22, 22, 22);
   (4, 23, 23, 23); (4, 24, 24, 24); (4, 25, 25, 25); (4, 26, 26, 26); (4, 27, 27, 27); (4, 28, 28, 28);
   (4, 29, 29, 29); (4, 30, 30, 30); (4, 31, 31, 31); (34, 32, 32, 32); (24, 33, 33, 33); (24, 34, 34, 34);
   (24, 35, 35, 35); (24, 36, 36, 36); (24, 37, 37, 37); (24, 38, 38, 38); (24, 39, 39, 39); (24, 40, 40, 40);
   (24, 41, 41, 41); (24, 42, 42, 42); (24, 43, 43, 43); (24, 44, 44, 44); (24, 45, 45, 45); (24, 46, 46, 46);
   (24, 47, 47, 47); (776, 48, 48, 48); (776, 49, 49, 49); (776, 50, 50, 50); (776, 51, 51, 51); (776, 52, 52, 52);
   (776, 53, 53, 53); (776, 54, 54, 54); (776, 55, 55, 55); (776, 56, 56, 56); (776, 57, 57, 57); (24, 58, 58, 58);
   (24, 59, 59, 59); (24, 60, 60, 60); (24, 61, 61, 61); (24, 62, 62, 62); (24, 63, 63, 63); (24, 64, 64, 64);
   (649, 65, 97, 65); (649, 66, 98, 66); (649, 67, 99, 67); (649, 68, 100, 68); (649, 69, 101, 69); (649, 70, 102, 70);
   (137, 71, 103, 71); (137, 72, 104, 72); (137, 73, 105, 73); (137, 74, 106, 74); (137, 75, 107, 75); (137, 76, 108, 76);
   (137, 77, 109, 77); (137, 78, 110, 78); (137, 79, 111, 79); (137, 80, 112, 80); (137, 81, 113, 81); (137, 82, 114, 82);
   (137, 83, 115, 83); (137, 84, 116, 84); (137, 85, 117, 85); (137, 86, 118, 86); (137, 87, 119, 87); (137, 88, 120, 88);
   (137, 89, 121, 89); (137, 90, 122, 90); (24, 91, 91, 91); (24, 92, 92, 92); (24, 93, 93, 93); (24, 94, 94, 94);
   (24, 95, 95, 95); (24, 96, 96, 96); (585, 65, 97, 97); (585, 66, 98, 98); (585, 67, 99, 99); (585, 68, 100, 100);
   (585, 69, 101, 101); (585, 70, 102, 102); (73, 71, 103, 103); (73, 72, 104, 104); (73, 73, 105, 105); (73, 74, 106, 106);
   (73, 75, 107, 107); (73, 76, 108, 108); (73, 77, 109, 109); (73, 78, 110, 110); (73, 79, 111, 111); (73, 80, 112, 112);
   (73, 81, 113, 113); (73, 82, 114, 114); (73, 83, 115, 115); (73, 84, 116, 116); (73, 85, 117, 117); (73, 86, 118, 118);
   (73, 87, 119, 119); (73, 88, 120, 120); (73, 89, 121, 121); (73, 90, 122, 122); (24, 123, 123, 123); (24, 124, 124, 124);
   (24, 125, 125, 125); (24, 126, 126, 126); (4, 127, 127, 127); (0, 128, 128, 128); (0, 129, 129, 129); (0, 130, 130, 130);
   (0, 131, 131, 131); (0, 132, 132, 132); (0, 133, 133, 133); (0, 134, 134, 134); (0, 135, 135, 135); (0, 136, 136, 136);
   (0, 137, 137, 137); (0, 138, 138, 138); (0, 139, 139, 139); (0, 140, 140, 140); (0, 141, 141, 141); (0, 142, 142, 142);
   (0, 143, 143, 143); (0, 144, 144, 144); (0, 145, 145, 145); (0, 146, 146, 146); (0, 147, 147, 147); (0, 148, 148, 148);
   (0, 149, 149, 149); (0, 150, 150, 150); (0, 151, 151, 151); (0, 152, 152, 152); (0, 153, 153, 153); (0, 154, 154, 154);
   (0, 155, 155, 155); (0, 156, 156, 156); (0, 157, 157, 157); (0, 158, 158, 158); (0, 159, 159, 159); (0, 160, 160, 160);
   (0, 161, 161, 161); (0, 162, 162, 162); (0, 163, 163, 163); (0, 164, 164, 164); (0, 165, 165, 165); (0, 166, 166, 166);
   (0, 167, 167, 167); (0, 168, 168, 168); (0, 169, 169, 169); (0, 170, 170, 170); (0, 171, 171, 171); (0, 172, 172, 172);
   (0, 173, 173, 173); (0, 174, 174, 174); (0, 175, 175, 175); (0, 176, 176, 176); (0, 177, 177, 177); (0, 178, 178, 178);
   (0, 179, 179, 179); (0, 180, 180, 180); (0, 181, 181, 181); (0, 182, 182, 182); (0, 183, 183, 183); (0, 184, 184, 184);
   (0, 185, 185, 185); (0, 186, 186, 186); (0, 187, 187, 187); (0, 188, 188, 188); (0, 189, 189, 189); (0, 190, 190, 190);
   (0, 191, 191, 191); (0, 192, 192, 192); (0, 193, 193, 193); (0, 194, 194, 194); (0, 195, 195, 195); (0, 196, 196, 196);
   (0, 197, 197, 197); (0, 198, 198, 198); (0, 199, 199, 199); (0, 200, 200, 200); (0, 201, 201, 201); (0, 202, 202, 202);
   (0, 203, 203, 203); (0, 204, 204, 204); (0, 205, 205, 205); (0, 206, 206, 206); (0, 207, 207, 207); (0, 208, 208, 208);
   (0, 209, 209, 209); (0, 210, 210, 210); (0, 211, 211, 211); (0, 212, 212, 212); (0, 213, 213, 213); (0, 214, 214, 214);
   (0, 215, 215, 215); (0, 216, 216, 216); (0, 217, 217, 217); (0, 218, 218, 218); (0, 219, 219, 219); (0, 220, 220, 220);
   (0, 221, 221, 221); (0, 222, 222, 222); (0, 223, 223, 223); (0, 224, 224, 224); (0, 225, 225, 225); (0, 226, 226, 226);
   (0, 227, 227, 227); (0, 228, 228, 228); (0, 229, 229, 229); (0, 230, 230, 230); (0, 231, 231, 231); (0, 232, 232, 232);
   (0, 233, 233, 233); (0, 234, 234, 234); (0, 235, 235, 235); (0, 236, 236, 236); (0, 237, 237, 237); (0, 238, 238, 238);
   (0, 239, 239, 239); (0, 240, 240, 240); (0, 241, 241, 241); (0, 242, 242, 242); (0, 243, 243, 243); (0, 244, 244, 244);
   (0, 245, 245, 245); (0, 246, 246, 246); (0, 247, 247, 247); (0, 248, 248, 248); (0, 249, 249, 249); (0, 250, 250, 250);
   (0, 251, 251, 251); (0, 252, 252, 252); (0, 253, 253, 253); (0, 254, 254, 254); (0, 255, 255, 255)].

Definition row (c : Z) : option _ctype_t :=
  '(f, u, l, co) ← (if 0 <=? c then global_ctype !! Z.to_nat c else None);
  Some {| flags := f; upper := u; lower := l; collation := co |}.

Definition test (mask c : Z) : option Z := r ← row c; Some (Z.land (flags r) mask).

Definition isalnum (c : Z) : option Z := test (Z.lor _CTYPE_ALPHA _CTYPE_DIGIT) c.
Definition isalpha (c : Z) : option Z := test _CTYPE_ALPHA c.
Definition isblank (c : Z) : option Z := test _CTYPE_BLANK c.
Definition iscntrl (c : Z) : option Z := test _CTYPE_CNTRL c.
Definition isdigit (c : Z) : option Z := test _CTYPE_DIGIT c.
Definition isgraph (c : Z) : option Z := test _CTYPE_GRAPH c.
Definition islower (c : Z) : option Z := test _CTYPE_LOWER c.
Definition isprint (c : Z) : option Z :=
  r ← row c; Some (if negb (Z.land (flags r) _CTYPE_GRAPH =? 0) || (c =? 32) then 1 else 0).
Definition ispunct (c : Z) : option Z := test _CTYPE_PUNCT c.
Definition isspace (c : Z) : option Z := test _CTYPE_SPACE c.
Definition isupper (c : Z) : option Z := test _CTYPE_UPPER c.
Definition isxdigit (c : Z) : option Z := test _CTYPE_XDIGT c.
Definition tolower (c : Z) : option Z := r ← row c; Some (lower r).
Definition toupper (c : Z) : option Z := r ← row c; Some (upper r).

(** ** What the functions compute *)

Definition within (lo hi c : Z) : bool := (lo <=? c) && (c <=? hi).

(** ASCII, as ctype.h describes the classes. *)
Definition ascii_upper (c : Z) : bool := within 65 90 c.
Definition ascii_lower (c : Z) : bool := within 97 122 c.
Definition ascii_digit (c : Z) : bool := within 48 57 c.
Definition ascii_space (c : Z) : bool := within 9 13 c || (c =? 32).
Definition ascii_graph (c : Z) : bool := within 33 126 c.

Definition truth (o : option Z) : option bool := v ← o; Some (negb (v =? 0)).

(** The agreement of all fourteen functions with ASCII shifted by one, at one
    argument. *)
Definition shifted (c : Z) : bool :=
  let d := c - 1 in
  let alpha := ascii_upper d || ascii_lower d in
  bool_decide (
    truth (isalnum c) = Some (alpha || ascii_digit d) /\
    truth (isalpha c) = Some alpha /\
    truth (isblank c) = Some ((d =? 32) || (d =? 9)) /\
    truth (iscntrl c) = Some (within 0 31 d || (d =? 127)) /\
    truth (isdigit c) = Some (ascii_digit d) /\
    truth (isgraph c) = Some (ascii_graph d) /\
    truth (islower c) = Some (ascii_lower d) /\
    truth (isprint c) = Some (ascii_graph d || (c =? 32)) /\
    truth (ispunct c) = Some (ascii_graph d && negb (alpha || ascii_digit d)) /\
    truth (isspace c) = Some (ascii_space d) /\
    truth (isupper c) = Some (ascii_upper d) /\
    truth (isxdigit c) = Some (ascii_digit d || within 65 70 d || within 97 102 d) /\
    tolower c = Some (if ascii_upper d then d + 32 else d) /\
    toupper c = Some (if ascii_lower d then d - 32 else d)).

Lemma all_shifted : forallb shifted (seqZ 1 256) = true.
Proof. vm_compute. reflexivity. Qed.

Lemma shifted_spec c : 1 <= c <= 256 -> shifted c = true.
Proof.
  intros Hc. pose proof all_shifted as H. rewrite forallb_forall in H. apply H, list_elem_of_In, elem_of_seqZ. lia.
Qed.

(** each of the classification and case functions is exactly right for the
    character before its argument, for every argument from 1 to 256: the
    table has the row for EOF first and the functions do not skip it. *)
Theorem ctype_shifted c : 1 <= c <= 256 -> let d := c - 1 in
  truth (isalpha c) = Some (ascii_upper d || ascii_lower d) /\
  truth (isdigit c) = Some (ascii_digit d) /\
  truth (isspace c) = Some (ascii_space d) /\
  truth (isupper c) = Some (ascii_upper d) /\
  truth (islower c) = Some (ascii_lower d) /\
  truth (isxdigit c) = Some (ascii_digit d || within 65 70 d || within 97 102 d) /\
  tolower c = Some (if ascii_upper d then d + 32 else d) /\
  toupper c = Some (if ascii_lower d then d - 32 else d).
Proof. intros Hc. pose proof (shifted_spec c Hc) as H. unfold shifted in H. cbv zeta in *. apply bool_decide_eq_true in H. tauto. Qed.

Lemma ctype_shifted_witness : tolower 66 = Some 97 /\ truth (isdigit 48) = Some false /\ truth (isdigit 58) = Some true.
Proof.
  split_and!; [apply (ctype_shifted 66); lia|apply (ctype_shifted 48); lia|apply (ctype_shifted 58); lia].
Defined.

End Ctype.
