(* ===== verification/CStdlib.v ===== *)
(** * Numbers of the C library (libc/stdlib.c, libc/rand.c)

    Strings are in the byte memory of KString.v; [char] is signed.  [None] is a
    table index outside ctype's table, or the end of the fuel. *)

From S2P Require Import Prelude KString Ctype.

Module CStdlib.
Import Ctype.

Definition INT_MAX : Z := 2147483647.
Definition INT_MIN : Z := -2147483648.
Definition LONG_MAX : Z := INT_MAX.
Definition LONG_MIN : Z := INT_MIN.
Definition ULONG_MAX : Z := 4294967295.
Definition LLONG_MAX : Z := 9223372036854775807.
Definition LLONG_MIN : Z := -9223372036854775808.
Definition ULLONG_MAX : Z := 18446744073709551615.

Definition abs (j : Z) : Z := if j >=? 0 then j else s32 (- j).
Definition llabs (j : Z) : Z := if j >=? 0 then j else s64 (- j).
Definition div (numer denom : Z) : Z * Z := (Z.quot numer denom, Z.rem numer denom).

(** [_seed] is an [unsigned long], 32 bits wide. *)
Definition rand (seed : Z) : Z * Z :=
  let seed := u32 (seed * 1103515245 + 12345) in (Z.rem (s32 (seed / 65536)) 32768, seed).
Definition srand (seed : Z) : Z := u32 seed.

(** "0123456789abcdefghijklmnopqrstuvwxyz" *)
Definition _digits : list Z := seqZ 48 10 ++ seqZ 97 26.

Fixpoint index_of (c : Z) (l : list Z) (i : Z) : option Z :=
  match l with [] => None | d :: l' => if d =? u8 c then Some i else index_of c l' (i + 1) end.

(** [memchr(_digits, c, base)], as the difference to [_digits]. *)
Definition digit_of (c base : Z) : option Z := index_of c (take (Z.to_nat base) _digits) 0.

(** A [char] as an [int]. *)
Definition chr (m : mem) (p : Z) : Z := s8 (m p).

(** [memchr(_digits, tolower( *p), base)]; the outer [None] is an index outside
    ctype's table. *)
Definition digit_at (m : mem) (p base : Z) : option (option Z) :=
  l ← tolower (chr m p); Some (digit_of l base).

Fixpoint skip_space (fuel : nat) (m : mem) (p : Z) : option Z :=
  match fuel with
  | O => None
  | S fuel' => b ← isspace (chr m p); if b =? 0 then Some p else skip_space fuel' m (p + 1)
  end.

Fixpoint atomax_loop (fuel : nat) (m : mem) (s rc : Z) : option Z :=
  match fuel with
  | O => None
  | S fuel' =>
      d ← digit_at m s 10;
      match d with
      | Some d => atomax_loop fuel' m (s + 1) (s64 (rc * 10 + d))
      | None => Some rc
      end
  end.

Definition _atomax (fuel : nat) (m : mem) (s : Z) : option Z :=
  s ← skip_space fuel m s;
  let '(s, sign) := if chr m s =? 43 then (s + 1, 43) else if chr m s =? 45 then (s + 1, 45) else (s, 43) in
  rc ← atomax_loop fuel m s 0;
  Some (if sign =? 43 then rc else s64 (- rc)).

Definition atoi (fuel : nat) (m : mem) (s : Z) : option Z := r ← _atomax fuel m s; Some (s32 r).
Definition atol (fuel : nat) (m : mem) (s : Z) : option Z := r ← _atomax fuel m s; Some (s32 r).
Definition atoll (fuel : nat) (m : mem) (s : Z) : option Z := _atomax fuel m s.

(** The result of [_strtox_main]: its value, [*p] (NULL is [None]), [*sign] and
    whether it set [errno] to [ERANGE]. *)
Record strtox := { sx_value : Z; sx_ptr : option Z; sx_sign : Z; sx_erange : bool }.

Fixpoint skip_digits (fuel : nat) (m : mem) (p base : Z) : option Z :=
  match fuel with
  | O => None
  | S fuel' =>
      d ← digit_at m p base;
      match d with Some _ => skip_digits fuel' m (p + 1) base | None => Some p end
  end.

Fixpoint strtox_loop (fuel : nat) (m : mem) (p base error limval limdigit sign rc digit : Z) : option strtox :=
  match fuel with
  | O => None
  | S fuel' =>
      d ← digit_at m p base;
      match d with
      | Some d =>
          if (rc <? limval) || ((rc =? limval) && (d <=? limdigit)) then
            strtox_loop fuel' m (p + 1) base error limval limdigit sign (u64 (rc * base + d)) d
          else
            q ← skip_digits fuel' m p base;
            Some {| sx_value := error; sx_ptr := Some q; sx_sign := 43; sx_erange := true |}
      | None =>
          if digit =? -1 then Some {| sx_value := 0; sx_ptr := None; sx_sign := sign; sx_erange := false |}
          else Some {| sx_value := rc; sx_ptr := Some p; sx_sign := sign; sx_erange := false |}
      end
  end.

Definition _strtox_main (fuel : nat) (m : mem) (p base error limval limdigit sign : Z) : option strtox :=
  strtox_loop fuel m p base error limval limdigit sign 0 (-1).

(** Result: the pointer (NULL when the base is no good), sign and base. *)
Definition _strtox_prelim (fuel : nat) (m : mem) (p base : Z) : option (option Z * Z * Z) :=
  p ← skip_space fuel m p;
  let '(p, sign) := if negb (chr m p =? 43) && negb (chr m p =? 45) then (p, 43) else (p + 1, chr m p) in
  '(p, base) ← (
    if chr m p =? 48 then
      let p := p + 1 in
      if ((base =? 0) || (base =? 16)) && ((chr m p =? 120) || (chr m p =? 88)) then
        let p := p + 1 in
        d ← digit_at m p 16;
        Some (match d with None => p - 2 | Some _ => p end, 16)
      else if base =? 0 then Some (p, 8) else Some (p - 1, base)
    else Some (p, if base =? 0 then 10 else base));
  Some (if (base >=? 2) && (base <=? 36) then Some p else None, sign, base).

(** The common shape of the four conversions: [cast] is the cast to the result
    type.  The results are the value, what is stored in [*endptr] (nothing for
    a bad base), and whether [errno] is set to [ERANGE]. *)
Definition strto (cast : Z -> Z) (limits : Z -> Z -> Z * Z * Z) (fuel : nat) (m : mem) (s base : Z)
    : option (Z * option Z * bool) :=
  '(p, sign, base) ← _strtox_prelim fuel m s base;
  match p with
  | None => Some (0, None, false)
  | Some p =>
      let '(error, limval, limdigit) := limits sign base in
      r ← _strtox_main fuel m p base error limval limdigit sign;
      let rc := cast (sx_value r) in
      Some (if sx_sign r =? 43 then rc else cast (- rc),
            Some (match sx_ptr r with Some q => q | None => s end), sx_erange r)
  end.

(** [error], [limval] and [limdigit] as the signed and unsigned versions pass
    them. *)
Definition limits_signed (mx mn sign base : Z) : Z * Z * Z :=
  if sign =? 43 then (u64 mx, Z.quot mx base, Z.rem mx base)
  else (u64 mn, Z.quot mn (- base), - Z.rem mn base).
Definition limits_unsigned (mx sign base : Z) : Z * Z * Z := (mx, mx / base, mx mod base).

Definition strtol := strto s32 (limits_signed LONG_MAX LONG_MIN).
Definition strtoll := strto s64 (limits_signed LLONG_MAX LLONG_MIN).
Definition strtoul := strto u32 (limits_unsigned ULONG_MAX).
Definition strtoull := strto u64 (limits_unsigned ULLONG_MAX).

(** ** Digits and values *)

(** At [p] there are the digits [ds], and then something that is none. *)
Fixpoint digits (m : mem) (p base : Z) (ds : list Z) : Prop :=
  match ds with
  | [] => digit_at m p base = Some None
  | d :: ds' => digit_at m p base = Some (Some d) /\ digits m (p + 1) base ds'
  end.

Definition value_from (base rc : Z) (ds : list Z) : Z := foldl (fun r d => r * base + d) rc ds.
Definition value (base : Z) (ds : list Z) : Z := value_from base 0 ds.

Lemma index_of_range c l i d : index_of c l i = Some d -> i <= d < i + Z.of_nat (length l).
Proof.
  revert i. induction l as [|x l IH]; intros i; cbn; [done|]. destruct (x =? u8 c); [intros [= ->]; lia|].
  intros Hd%IH. lia.
Qed.

Lemma digit_range m p base d : 0 <= base <= 36 -> digit_at m p base = Some (Some d) -> 0 <= d < base.
Proof.
  intros Hb. unfold digit_at. destruct (tolower (chr m p)) as [l|]; [|done]. cbn. intros [= Hd].
  apply index_of_range in Hd. rewrite length_take in Hd. change (length _digits) with 36%nat in Hd. lia.
Qed.

Lemma value_from_ge base rc ds m p : 2 <= base <= 36 -> 0 <= rc -> digits m p base ds -> rc <= value_from base rc ds.
Proof.
  intros Hb. revert rc p. induction ds as [|d ds IH]; intros rc p Hrc; cbn; [done|]. intros [Hd Hds].
  apply digit_range in Hd; [|lia]. specialize (IH (rc * base + d) (p + 1) ltac:(nia) Hds). unfold value_from in IH. nia.
Qed.

Lemma skip_digits_spec fuel m p base ds : digits m p base ds -> (length ds < fuel)%nat ->
  skip_digits fuel m p base = Some (p + Z.of_nat (length ds)).
Proof.
  revert p ds. induction fuel as [|fuel IH]; intros p ds Hd Hf; [lia|]. cbn [skip_digits]. destruct ds as [|d ds]; cbn in Hd.
  - rewrite Hd. cbn. f_equal. lia.
  - destruct Hd as [-> Hd]. cbn [mbind option_bind length] in *. rewrite (IH _ ds Hd) by lia. f_equal. lia.
Qed.

Lemma strtox_loop_spec fuel m base error limval limdigit sign ds : 2 <= base <= 36 -> 0 <= limdigit < base -> 0 <= limval ->
  limval * base + limdigit < 2 ^ 64 -> forall p rc digit, digits m p base ds -> (S (length ds) < fuel)%nat ->
  0 <= rc <= limval * base + limdigit -> (ds <> [] \/ digit <> -1) ->
  strtox_loop fuel m p base error limval limdigit sign rc digit = Some (
    if value_from base rc ds <=? limval * base + limdigit
    then {| sx_value := value_from base rc ds; sx_ptr := Some (p + Z.of_nat (length ds)); sx_sign := sign; sx_erange := false |}
    else {| sx_value := error; sx_ptr := Some (p + Z.of_nat (length ds)); sx_sign := 43; sx_erange := true |}).
Proof.
  intros Hb Hld Hlv H64. revert ds. induction fuel as [|fuel IH]; intros ds p rc digit Hd Hf Hrc Hne; [lia|].
  cbn [strtox_loop]. destruct ds as [|d ds]; cbn [digits] in Hd.
  - rewrite Hd. cbn [mbind option_bind value_from foldl length]. destruct (Z.eqb_spec digit (-1)); [naive_solver|].
    destruct (Z.leb_spec rc (limval * base + limdigit)); [|lia]. by rewrite Z.add_0_r.
  - destruct Hd as [Hd Hds]. rewrite Hd. cbn [mbind option_bind]. apply digit_range in Hd as Hr; [|lia].
    assert (Hcond : (rc <? limval) || ((rc =? limval) && (d <=? limdigit)) = (rc * base + d <=? limval * base + limdigit)).
    { destruct (Z.ltb_spec rc limval), (Z.eqb_spec rc limval), (Z.leb_spec d limdigit),
        (Z.leb_spec (rc * base + d) (limval * base + limdigit)); cbn; try done; nia. }
    rewrite Hcond. cbn [length] in *. change (value_from base rc (d :: ds)) with (value_from base (rc * base + d) ds).
    destruct (Z.leb_spec (rc * base + d) (limval * base + limdigit)) as [Hfit|Hover].
    + rewrite u64_small by nia. rewrite (IH ds (p + 1) (rc * base + d) d Hds); [|lia|nia|right; lia].
      replace (p + 1 + Z.of_nat (length ds)) with (p + Z.of_nat (S (length ds))) by lia. done.
    + pose proof (value_from_ge base (rc * base + d) ds m (p + 1) Hb ltac:(nia) Hds).
      destruct (Z.leb_spec (value_from base (rc * base + d) ds) (limval * base + limdigit)); [lia|].
      rewrite (skip_digits_spec fuel m p base (d :: ds)); [done|by split|cbn [length]; lia].
Qed.

(** Where the prefix scan has found the base and the sign and at least one digit follows,
    the result is the signed value of the digits when the type has it, and otherwise the
    largest or smallest value of the type with [ERANGE]. *)
Lemma strto_digits fuel m s base0 p sign base ds :
  _strtox_prelim fuel m s base0 = Some (Some p, sign, base) -> 2 <= base <= 36 -> sign = 43 \/ sign = 45 ->
  digits m p base ds -> ds <> [] -> (S (length ds) < fuel)%nat ->
  let v := if sign =? 43 then value base ds else - value base ds in
  let clamp mn mx := if v <? mn then mn else if mx <? v then mx else v in
  let e := Some (p + Z.of_nat (length ds)) in
  strtol fuel m s base0 = Some (clamp LONG_MIN LONG_MAX, e, (v <? LONG_MIN) || (LONG_MAX <? v)) /\
  strtoll fuel m s base0 = Some (clamp LLONG_MIN LLONG_MAX, e, (v <? LLONG_MIN) || (LLONG_MAX <? v)).
Proof.
  intros Hp Hb Hsign Hd Hne Hf v clamp e.
  assert (Hv : 0 <= value base ds) by (apply (value_from_ge base 0 ds m p); [lia|lia|done]).
  assert (Hgen : forall (cast : Z -> Z) mx, 0 < mx < 2 ^ 63 -> (forall z, - mx - 1 <= z <= mx -> cast z = z) ->
    cast (u64 mx) = mx -> cast (u64 (- mx - 1)) = - mx - 1 -> cast (mx + 1) = - mx - 1 ->
    strto cast (limits_signed mx (- mx - 1)) fuel m s base0 =
      Some (clamp (- mx - 1) mx, e, (v <? - mx - 1) || (mx <? v))).
  { intros cast mx Hmx Hc Hcm Hcn Hcw. unfold strto. rewrite Hp. cbn [mbind option_bind].
    unfold limits_signed, _strtox_main. subst v clamp e. cbv beta.
    destruct Hsign as [->| ->]; cbn [Z.eqb Pos.eqb].
    - pose proof (Z.quot_rem' mx base). pose proof (Z.rem_bound_pos mx base ltac:(lia) ltac:(lia)).
      pose proof (Z.quot_pos mx base ltac:(lia) ltac:(lia)).
      rewrite (strtox_loop_spec fuel m base (u64 mx) _ _ 43 ds Hb) by (try done; try lia; by left).
      fold (value base ds). replace (Z.quot mx base * base + Z.rem mx base) with mx by lia.
      destruct (Z.leb_spec (value base ds) mx); cbn [mbind option_bind sx_value sx_sign sx_ptr sx_erange Z.eqb Pos.eqb].
      + rewrite Hc by lia. destruct (Z.ltb_spec (value base ds) (- mx - 1)), (Z.ltb_spec mx (value base ds)); try lia. done.
      + rewrite Hcm. destruct (Z.ltb_spec (value base ds) (- mx - 1)), (Z.ltb_spec mx (value base ds)); try lia. done.
    - assert (Hq : Z.quot (- mx - 1) (- base) = Z.quot (mx + 1) base /\ - Z.rem (- mx - 1) base = Z.rem (mx + 1) base).
      { replace (- mx - 1) with (- (mx + 1)) by lia. rewrite Z.quot_opp_opp, Z.rem_opp_l by lia. lia. }
      destruct Hq as [-> ->]. pose proof (Z.quot_rem' (mx + 1) base).
      pose proof (Z.rem_bound_pos (mx + 1) base ltac:(lia) ltac:(lia)).
      pose proof (Z.quot_pos (mx + 1) base ltac:(lia) ltac:(lia)).
      rewrite (strtox_loop_spec fuel m base (u64 (- mx - 1)) _ _ 45 ds Hb) by (try done; try lia; by left).
      fold (value base ds). replace (Z.quot (mx + 1) base * base + Z.rem (mx + 1) base) with (mx + 1) by lia.
      destruct (Z.leb_spec (value base ds) (mx + 1)); cbn [mbind option_bind sx_value sx_sign sx_ptr sx_erange Z.eqb Pos.eqb].
      + destruct (Z.ltb_spec (- value base ds) (- mx - 1)), (Z.ltb_spec mx (- value base ds)); try lia.
        cbn [orb]. do 3 f_equal. destruct (Z.eq_dec (value base ds) (mx + 1)) as [->|].
        * rewrite Hcw. replace (- (- mx - 1)) with (mx + 1) by lia. lia.
        * rewrite (Hc (value base ds)) by lia. rewrite Hc by lia. done.
      + rewrite Hcn. destruct (Z.ltb_spec (- value base ds) (- mx - 1)), (Z.ltb_spec mx (- value base ds)); try lia. done. }
  split.
  - apply (Hgen s32 LONG_MAX); [unfold LONG_MAX, INT_MAX; lia|intros z Hz; apply s32_small; unfold LONG_MAX, INT_MAX in *; lia|reflexivity..].
  - apply (Hgen s64 LLONG_MAX); [unfold LLONG_MAX; lia|intros z Hz; apply s64_small; unfold LLONG_MAX in *; lia|reflexivity..].
Qed.

(** ** Texts *)

(** The value of a character as a digit in a base. *)
Definition digit_val (base c : Z) : option Z :=
  let d := if ascii_digit c then c - 48 else if ascii_lower c then c - 97 + 10 else if ascii_upper c then c - 65 + 10 else base in
  if d <? base then Some d else None.

(** What the library takes a character for: the one before it ([ctype_shifted]). *)
Definition read_digit (base c : Z) : option Z := digit_val base (c - 1).

Lemma digit_at_text m p base : 2 <= base <= 36 -> 0 <= m p <= 127 -> digit_at m p base = Some (read_digit base (m p)).
Proof.
  intros Hb Hm.
  assert (A : forallb (fun base => forallb (fun c => bool_decide ((l ← tolower (s8 c); Some (digit_of l base)) = Some (read_digit base c))) (seqZ 0 128)) (seqZ 2 35) = true)
    by (vm_compute; reflexivity).
  rewrite forallb_forall in A. specialize (A base ltac:(apply list_elem_of_In, elem_of_seqZ; lia)). rewrite forallb_forall in A.
  specialize (A (m p) ltac:(apply list_elem_of_In, elem_of_seqZ; lia)). by apply bool_decide_eq_true in A.
Qed.

(** At [p] there are the characters [cs], and then one that is no digit. *)
Fixpoint text_at (m : mem) (p base : Z) (cs : list Z) : Prop :=
  match cs with
  | [] => 0 <= m p <= 127 /\ read_digit base (m p) = None
  | c :: cs' => m p = c /\ 0 <= c <= 127 /\ text_at m (p + 1) base cs'
  end.

Lemma text_digits m base cs ds : 2 <= base <= 36 -> forall p, text_at m p base cs -> mapM (read_digit base) cs = Some ds ->
  digits m p base ds /\ length ds = length cs.
Proof.
  intros Hb. revert ds. induction cs as [|c cs IH]; intros ds p; cbn [text_at].
  - intros [Hr Hn] [= <-]. cbn [digits]. by rewrite digit_at_text, Hn.
  - intros (Hc & Hr & Ht) E. cbn [mapM] in E. destruct (read_digit base c) as [d|] eqn:Ed; [|done]. cbn in E.
    destruct (mapM (read_digit base) cs) as [ds'|] eqn:Eds; [|done]. injection E as <-. destruct (IH ds' (p + 1) Ht eq_refl) as [Hd Hl].
    cbn [digits length]. rewrite digit_at_text, Hc, Ed by (done || lia). split; [done|lia].
Qed.

(** A character that is read as a digit is no blank, no sign and no zero. *)
Lemma digit_plain base c d : 2 <= base <= 36 -> 0 <= c <= 127 -> read_digit base c = Some d ->
  isspace (s8 c) = Some 0 /\ s8 c = c /\ c <> 43 /\ c <> 45 /\ c <> 48.
Proof.
  intros Hb Hc Hd. assert (Hs : ascii_digit (c - 1) || ascii_lower (c - 1) || ascii_upper (c - 1) = true).
  { unfold read_digit, digit_val in Hd. destruct (ascii_digit _), (ascii_lower _), (ascii_upper _); try done. cbn in Hd. by rewrite Z.ltb_irrefl in Hd. }
  assert (A : forallb (fun c => negb (ascii_digit (c - 1) || ascii_lower (c - 1) || ascii_upper (c - 1)) ||
    bool_decide (isspace (s8 c) = Some 0 /\ s8 c = c /\ c <> 43 /\ c <> 45 /\ c <> 48)) (seqZ 0 128) = true) by (vm_compute; reflexivity).
  rewrite forallb_forall in A. specialize (A c ltac:(apply list_elem_of_In, elem_of_seqZ; lia)). rewrite Hs in A. by apply bool_decide_eq_true in A.
Qed.

Definition base_of (base : Z) : Z := if base =? 0 then 10 else base.

Lemma prelim_text fuel m s base0 sg cs ds : 2 <= base_of base0 <= 36 -> sg ∈ [[]; [43]; [45]] -> cs <> [] -> (0 < fuel)%nat ->
  text_at m s (base_of base0) (sg ++ cs) -> mapM (read_digit (base_of base0)) cs = Some ds ->
  _strtox_prelim fuel m s base0 = Some (Some (s + Z.of_nat (length sg)), default 43 (head sg), base_of base0).
Proof.
  intros Hb Hs Hc Hf Ht Hd. destruct cs as [|c cs]; [done|]. destruct fuel as [|fuel]; [lia|].
  cbn [mapM] in Hd. destruct (read_digit _ c) as [d|] eqn:Ed; [|done].
  assert (Hin : In (base_of base0 >=? 2, base_of base0 <=? 36) [(true, true)]) by (left; f_equal; lia). destruct Hin as [[= E2 E36]|[]].
  assert (Fin : forall q, m q = c -> 0 <= c <= 127 -> chr m q = c /\ isspace (chr m q) = Some 0 /\ c <> 43 /\ c <> 45 /\ c <> 48).
  { intros q Hq Hr. unfold chr. rewrite Hq. destruct (digit_plain _ c d Hb Hr Ed) as (? & E & ?). by rewrite E in *. }
  unfold _strtox_prelim. cbn [skip_space]. rewrite !elem_of_cons in Hs. destruct Hs as [->|[->|[->|[]%not_elem_of_nil]]]; cbn [app text_at] in Ht.
  - destruct Ht as (Hm & Hr & _). destruct (Fin s Hm Hr) as (Ec & Es & N1 & N2 & N3). rewrite Es. cbn [mbind option_bind Z.eqb]. rewrite Ec.
    rewrite (proj2 (Z.eqb_neq c 43) N1), (proj2 (Z.eqb_neq c 45) N2). cbn [negb andb]. rewrite Ec, (proj2 (Z.eqb_neq c 48) N3). cbn [mbind option_bind].
    unfold base_of in *. rewrite <- E2, <- E36. cbn. by rewrite Z.add_0_r.
  - destruct Ht as (H0 & _ & Hm & Hr & _). destruct (Fin (s + 1) Hm Hr) as (Ec & _ & N1 & N2 & N3).
    assert (C0 : chr m s = 43) by (unfold chr; by rewrite H0). rewrite C0. change (isspace 43) with (Some 0). cbn [mbind option_bind Z.eqb]. rewrite !C0.
    cbn [Z.eqb Pos.eqb negb andb]. rewrite Ec, (proj2 (Z.eqb_neq c 48) N3). cbn [mbind option_bind].
    unfold base_of in *. rewrite <- E2, <- E36. done.
  - destruct Ht as (H0 & _ & Hm & Hr & _). destruct (Fin (s + 1) Hm Hr) as (Ec & _ & N1 & N2 & N3).
    assert (C0 : chr m s = 45) by (unfold chr; by rewrite H0). rewrite C0. change (isspace 45) with (Some 0). cbn [mbind option_bind Z.eqb]. rewrite !C0.
    cbn [Z.eqb Pos.eqb negb andb]. rewrite Ec, (proj2 (Z.eqb_neq c 48) N3). cbn [mbind option_bind].
    unfold base_of in *. rewrite <- E2, <- E36. done.
Qed.


(** The strings "-32" and "42", and one of "-", nine, nine, ... *)
Definition minus32 : mem := fun a => match a with 0 => 45 | 1 => 51 | 2 => 50 | _ => 0 end.
Definition fortytwo : mem := fun a => match a with 0 => 52 | 1 => 50 | _ => 0 end.
Definition colons : mem := fun a => if a =? 0 then 45 else if a <? 12 then 58 else 0.


(** [atoi] of "42" is 31. *)
Theorem atoi_fortytwo : atoi 10 fortytwo 0 = Some 31.
Proof. vm_compute. reflexivity. Qed.

End CStdlib.
