(* ===== verification/VmCopy.v ===== *)
(** * The memory of a new process (kernel/vm.c)

    What [setupkvm] and [copyuvm] build: the kernel's part of a page table, and for
    [fork] a copy of every page of the parent, in pages that were free.  A directory that
    is being built is followed by what it was built from ([built]): its pages come off
    the free list and nothing else is written. *)

From stdpp Require Import functions.
From S2P Require Import Prelude KString Kalloc Vm.

Module VmCopy.
Import Kalloc Vm.

Section Copy.
Context `{DataSegment}.

(** ** A directory under construction

    [d] was built from the free pages [l0] of [s0]; [l] is left of them, and [ms] are
    the pages taken for data. *)
Record built (s0 : kmem) (l0 : list Z) (s : kmem) (l : list Z) (d : Z) (ms : list Z) : Prop := {
  b_wf : wf s l d;
  b_used : exists used, l0 = used ++ l /\ forall p, p ∈ used -> p = d \/ is_table s d p \/ p ∈ ms;
  b_dir : d ∈ l0;
  b_tab i t : 0 <= i < 1024 -> table (mm s) d i = Some t -> t ∈ l0;
  b_ms m : m ∈ ms -> m ∈ l0 /\ data_page s l d m;
  b_frame b : (forall p, p ∈ l0 -> ~ in_page p b) -> mm s b = mm s0 b }.

Lemma built_sub s0 l0 s l d ms p : built s0 l0 s l d ms -> p ∈ l -> p ∈ l0.
Proof. intros B Hp. destruct (b_used _ _ _ _ _ _ B) as (u & -> & _). set_solver. Qed.

Lemma built_grows s0 l0 s l d ms s1 l1 : built s0 l0 s l d ms -> wf s1 l1 d -> grows s l s1 l1 d ->
  built s0 l0 s1 l1 d ms /\ forall m b, m ∈ ms -> in_page m b -> mm s1 b = mm s b.
Proof.
  intros B W G. pose proof (grows_used _ _ _ _ _ G) as (u & -> & Hu). split.
  - assert (T : forall i t, 0 <= i < 1024 -> table (mm s1) d i = Some t -> t ∈ l0).
    { intros i t Hi Ht. destruct (grows_new _ _ _ _ _ G i t Hi Ht) as [Ht'|Ht']; [by eapply B|by eapply built_sub]. }
    constructor; [done| |apply B|exact T| |].
    + destruct (b_used _ _ _ _ _ _ B) as (v & -> & Hv). exists (v ++ u). rewrite app_assoc. split; [done|].
      intros p [Hp|Hp]%elem_of_app.
      * destruct (Hv p Hp) as [?|[(i & Hi & Ht)|?]]; [by left| |by right; right]. right. left. exists i. split; [done|]. by apply G.
      * right. left. by apply Hu.
    + intros m Hm. destruct (b_ms _ _ _ _ _ _ B m Hm) as [? Dm]. split; [done|]. by apply (data_grows s (u ++ l1) s1 l1 d m).
    + intros b Hb. rewrite (grows_frame _ _ _ _ _ G).
      * by apply B.
      * apply Hb, B.
      * intros i t Hi Ht. apply Hb. by eapply T.
  - intros m b Hm Hb. destruct (b_ms _ _ _ _ _ _ B m Hm) as [_ Dm]. by apply (data_grows s (u ++ l1) s1 l1 d m).
Qed.

(** A free page becomes a page of data. *)
Lemma built_take s0 l0 s m l d ms : built s0 l0 s (m :: l) d ms -> let s1 := set_freelist (load32 (mm s) m) s in
  kalloc s = Done m s1 /\ (m =? 0) = false /\ built s0 l0 s1 l d (ms ++ [m]) /\ m ∉ ms.
Proof.
  intros B s1. destruct (take_data s m l d (b_wf _ _ _ _ _ _ B)) as (E & Hz & W & Dm & Dq). fold s1 in E, W, Dm, Dq.
  assert (Hm : m ∈ l0) by (eapply built_sub; [exact B|set_solver]).
  split; [done|]. split; [done|]. split.
  - constructor; [done| |apply B|apply B| |apply B].
    + destruct (b_used _ _ _ _ _ _ B) as (u & -> & Hu). exists (u ++ [m]). rewrite <- app_assoc. split; [done|].
      intros p [Hp|Hp]%elem_of_app; [|right; right; set_solver]. destruct (Hu p Hp) as [?|[?|?]]; [by left|by right; left|].
      right. right. set_solver.
    + intros q [Hq|Hq]%elem_of_app.
      * destruct (b_ms _ _ _ _ _ _ B q Hq) as [? D]. split; [done|]. by apply Dq.
      * apply list_elem_of_singleton in Hq as ->. done.
  - intros Hin. destruct (b_ms _ _ _ _ _ _ B m Hin) as [_ D]. by destruct (Dq m D).
Qed.

(** A write into one of the pages of data. *)
Lemma built_write s0 l0 s l d ms m m' : built s0 l0 s l d ms -> m ∈ ms -> (forall b, ~ in_page m b -> m' b = mm s b) ->
  built s0 l0 (set_mm m' s) l d ms /\ forall va, pte m' d va = pte (mm s) d va.
Proof.
  intros B Hm F. destruct (b_ms _ _ _ _ _ _ B m Hm) as [Hl Dm].
  destruct (write_data s l d m m' (b_wf _ _ _ _ _ _ B) Dm F) as (W & T & P & Q). split; [|done]. constructor.
  - done.
  - destruct (b_used _ _ _ _ _ _ B) as (u & E & Hu). exists u. split; [done|]. intros p Hp.
    destruct (Hu p Hp) as [?|[(i & Hi & Ht)|?]]; [by left| |by right; right]. right. left. exists i. split; [done|]. cbn. by rewrite T.
  - apply B.
  - intros i t Hi. cbn. rewrite T by done. by apply B.
  - intros q Hq. destruct (b_ms _ _ _ _ _ _ B q Hq) as [? D]. split; [done|]. by apply Q.
  - intros b Hb. cbn. rewrite F by (by apply Hb). by apply B.
Qed.

Lemma omap_le {A C} (f : A -> option C) l : (length (omap f l) <= length l)%nat.
Proof. induction l as [|x l IH]; cbn; [lia|]. destruct (f x); cbn; lia. Qed.

(** At most 1025 pages are not data: the directory and its tables. *)
Lemma built_room s0 l0 s l d ms : free s0 l0 -> built s0 l0 s l d ms -> (1025 + length ms < length l0)%nat -> l <> [].
Proof.
  intros F B Hl ->. destruct (b_used _ _ _ _ _ _ B) as (u & E & Hu). rewrite app_nil_r in E. subst u.
  set (ts := omap (fun i => table (mm s) d i) (seqZ 0 1024)).
  assert (S : l0 ⊆+ d :: ts ++ ms).
  { apply NoDup_submseteq; [apply F|]. intros p Hp. destruct (Hu p Hp) as [->|[(i & Hi & Ht)|Hm]].
    - left.
    - right. apply elem_of_app. left. apply list_elem_of_omap. exists i. split; [|done]. apply elem_of_seqZ. lia.
    - right. apply elem_of_app. by right. }
  apply submseteq_length in S. cbn in S. rewrite length_app in S.
  assert (L : (length ts <= 1024)%nat).
  { unfold ts. etransitivity; [apply omap_le|]. by rewrite length_seqZ. }
  lia.
Qed.

(** Mapping whole pages, with room for the page tables. *)
Lemma built_map s0 l0 s l d ms va size pa perm : free s0 l0 -> built s0 l0 s l d ms -> (1025 + length ms < length l0)%nat ->
  0 <= va -> va mod PGSIZE = 0 -> 0 < size -> size mod PGSIZE = 0 -> va + size <= 2 ^ 32 ->
  0 <= pa -> pa mod PGSIZE = 0 -> pa + size <= 2 ^ 32 -> 0 <= perm < PGSIZE ->
  (forall v, va <= v < va + size -> pte (mm s) d v = None) ->
  exists s1 l1, mappages d va size pa perm s = Done 0 s1 /\ built s0 l0 s1 l1 d ms /\
    (forall m b, m ∈ ms -> in_page m b -> mm s1 b = mm s b) /\
    forall v, 0 <= v < 2 ^ 32 -> pte (mm s1) d v = mapped va pa (present perm) (Z.to_nat (size / PGSIZE)) (pte (mm s) d) v.
Proof.
  intros F B Hl Hv Hva Hs Hsa H32 Hp Hpa Hp32 Hperm Hnone.
  destruct (aligned_mult _ Hva) as [q Eq], (aligned_mult _ Hsa) as [r Er], (aligned_mult _ Hpa) as [t Et].
  assert (Hr : 0 < r) by (unfold PGSIZE in *; lia). set (n := Z.to_nat (r - 1)).
  assert (El : PGROUNDDOWN (va + size - 1) = va + PGSIZE * Z.of_nat n).
  { rewrite PGROUNDDOWN_eq by lia. rewrite Eq, Er. unfold n, PGSIZE in *. rewrite Z2Nat.id by lia. Z.div_mod_to_equations. lia. }
  assert (Ea : PGROUNDDOWN va = va) by (rewrite PGROUNDDOWN_eq by lia; lia).
  assert (En : Z.to_nat (u32 (va + PGSIZE * Z.of_nat n - va) / PGSIZE + 1) = S n).
  { replace (va + PGSIZE * Z.of_nat n - va) with (Z.of_nat n * PGSIZE) by lia. unfold n, PGSIZE in *.
    rewrite u32_small by lia. rewrite Z.div_mul by lia. lia. }
  unfold mappages. rewrite Ea, El, En. replace (Z.to_nat (size / PGSIZE)) with (S n)
    by (rewrite Er, Z.mul_comm, Z.div_mul by done; unfold n; lia).
  destruct (mappages_loop_spec n s l d va (va + PGSIZE * Z.of_nat n) pa perm) as (rr & s1 & l1 & k & E & W & G & _ & R & P);
    try done; try (apply B); try (unfold n, PGSIZE in *; lia).
  { intros v Hv'. apply Hnone. unfold n, PGSIZE in *. lia. }
  destruct (built_grows _ _ _ _ _ _ _ _ B W G) as [B1 K]. destruct R as [[-> ->]|(_ & _ & ->)].
  - exists s1, l1. done.
  - by destruct (built_room _ _ _ _ _ _ F B1 Hl).
Qed.

(** ** The kernel's part *)

Definition page_of (va : Z) : Z := va - va mod PGSIZE.

(** The four rows of [kmap]. *)
Definition kernel_pte (va : Z) : option Z :=
  if va <? KERNBASE then None
  else if va <? KERNLINK then Some (page_of (va - KERNBASE) + present PTE_W)
  else if va <? kdata then Some (page_of (va - KERNBASE) + present 0)
  else if va <? KERNBASE + PHYSTOP then Some (page_of (va - KERNBASE) + present PTE_W)
  else if va <? DEVSPACE then None
  else Some (page_of va + present PTE_W).

Lemma zero_dir m d i : d mod PGSIZE = 0 -> 0 <= i < 1024 -> table (KString.memset d 0 (Z.to_nat PGSIZE) m) d i = None.
Proof. intros Hd Hi. unfold table. rewrite load_memset by done. by rewrite decide_True. Qed.

(** The new directory, empty. *)
Lemma built_new s d l : free s (d :: l) -> let s1 := set_freelist (load32 (mm s) d) s in
  let s2 := set_mm (KString.memset d 0 (Z.to_nat PGSIZE) (mm s1)) s1 in
  kalloc s = Done d s1 /\ (d =? 0) = false /\ built s (d :: l) s2 l d [] /\ forall va, pte (mm s2) d va = None.
Proof.
  intros F s1 s2. destruct (kalloc_spec _ _ F) as [E F1]. pose proof (free_pages _ _ F) as Hp. apply Forall_cons in Hp as [Hd Hp].
  pose proof (free_nodup _ _ F) as Hn. apply NoDup_cons in Hn as [Hn _]. pose proof (is_page_pos _ Hd) as [Hpos _].
  assert (T : forall i, 0 <= i < 1024 -> table (mm s2) d i = None) by (intros i Hi; apply zero_dir; [apply Hd|done]).
  split; [done|]. split; [lia|]. split.
  - constructor.
    + constructor; [|done|done|intros i t Hi; by rewrite T|intros i j t Hi; by rewrite T].
      apply free_frame; [done|]. intros v b Hv Hb. apply memset_page_other. rewrite Forall_forall in Hp.
      eapply (pages_apart v); [by apply Hp|apply Hd| |done]. by intros ->.
    + exists [d]. split; [done|]. intros p ->%list_elem_of_singleton. by left.
    + left.
    + intros i t Hi. by rewrite T.
    + intros m Hm. by apply not_elem_of_nil in Hm.
    + intros b Hb. apply memset_page_other, Hb. left.
  - intros va. unfold pte. by rewrite T by apply PDX_range.
Qed.

(** A row of [kmap] that fits into the address space, and the mapping with some rows. *)
Definition row_size (k : kmap_entry) : Z := u32 (phys_end k - phys_start k).
Definition row_ok (k : kmap_entry) : Prop :=
  0 <= virt k /\ virt k mod PGSIZE = 0 /\ 0 < row_size k /\ row_size k mod PGSIZE = 0 /\ virt k + row_size k <= 2 ^ 32 /\
  0 <= phys_start k /\ phys_start k mod PGSIZE = 0 /\ phys_start k + row_size k <= 2 ^ 32 /\ 0 <= kperm k < PGSIZE.
Definition with_row (k : kmap_entry) (old : Z -> option Z) : Z -> option Z :=
  mapped (virt k) (phys_start k) (present (kperm k)) (Z.to_nat (row_size k / PGSIZE)) old.

Fixpoint rows_apart (rows : list kmap_entry) (old : Z -> option Z) : Prop :=
  match rows with
  | [] => True
  | k :: rows' => (forall v, virt k <= v < virt k + row_size k -> old v = None) /\ rows_apart rows' (with_row k old)
  end.

Lemma map_all_ok rows s0 l0 s l d ms old : free s0 l0 -> built s0 l0 s l d ms -> (1025 + length ms < length l0)%nat ->
  Forall row_ok rows -> (forall v, 0 <= v < 2 ^ 32 -> pte (mm s) d v = old v) -> rows_apart rows old ->
  exists s1 l1, map_all d rows s = Done true s1 /\ built s0 l0 s1 l1 d ms /\
    forall v, 0 <= v < 2 ^ 32 -> pte (mm s1) d v = foldl (fun o k => with_row k o) old rows v.
Proof.
  intros F B Hl R. revert s l old B. induction R as [|k rows Hk R IH]; intros s l old B P A; cbn [map_all foldl].
  - by exists s, l.
  - destruct A as [A1 A2]. destruct Hk as (K1 & K2 & K3 & K4 & K5 & K6 & K7 & K8 & K9).
    destruct (built_map s0 l0 s l d ms (virt k) (row_size k) (phys_start k) (kperm k)) as (s1 & l1 & E & B1 & _ & P1); try done.
    { intros v Hv. rewrite P by lia. by apply A1. }
    unfold row_size in E. rewrite (bind_Done _ _ _ _ _ E). cbn [Z.ltb Z.compare]. apply (IH s1 l1); [done| |done].
    intros v Hv. rewrite P1 by done. unfold with_row. by apply mapped_ext, P.
Qed.

Lemma mapped_in a pa fl k old va : a <= va < a + PGSIZE * Z.of_nat k -> mapped a pa fl k old va = Some (pa + (va - va mod PGSIZE - a) + fl).
Proof. intros. unfold mapped. by rewrite (proj2 (Z.leb_le _ _)), (proj2 (Z.ltb_lt _ _)) by lia. Qed.

Lemma mapped_out a pa fl k old va : va < a \/ a + PGSIZE * Z.of_nat k <= va -> mapped a pa fl k old va = old va.
Proof. intros. unfold mapped. destruct (Z.leb_spec a va), (Z.ltb_spec va (a + PGSIZE * Z.of_nat k)); cbn [andb]; try done; lia. Qed.

Lemma row_pages k : row_ok k -> PGSIZE * Z.of_nat (Z.to_nat (row_size k / PGSIZE)) = row_size k.
Proof.
  intros (_ & _ & K3 & K4 & _). destruct (aligned_mult _ K4) as [r Er]. rewrite Er in *.
  replace (PGSIZE * r / PGSIZE) with r by (by rewrite (Z.mul_comm PGSIZE), Z.div_mul). unfold PGSIZE in *. lia.
Qed.

Lemma with_row_in k old va : row_ok k -> virt k <= va < virt k + row_size k ->
  with_row k old va = Some (phys_start k + (page_of va - virt k) + present (kperm k)).
Proof. intros R Hv. apply mapped_in. by rewrite row_pages. Qed.

Lemma with_row_out k old va : row_ok k -> va < virt k \/ virt k + row_size k <= va -> with_row k old va = old va.
Proof. intros R Hv. apply mapped_out. by rewrite row_pages. Qed.

(** The rows of [kmap]: where they start and end. *)
Lemma kmap_rows : exists r1 r2 r3 r4, kmap = [r1; r2; r3; r4] /\ Forall row_ok kmap /\
  (virt r1 = 2147483648 /\ row_size r1 = 1048576 /\ phys_start r1 = 0 /\ kperm r1 = PTE_W) /\
  (virt r2 = 2148532224 /\ row_size r2 = kdata - 2148532224 /\ phys_start r2 = 1048576 /\ kperm r2 = 0) /\
  (virt r3 = kdata /\ row_size r3 = 2382364672 - kdata /\ phys_start r3 = kdata - 2147483648 /\ kperm r3 = PTE_W) /\
  (virt r4 = 4261412864 /\ row_size r4 = 33554432 /\ phys_start r4 = 4261412864 /\ kperm r4 = PTE_W).
Proof.
  pose proof kdata_ok as [Ka Kr]. pose proof kend_ok as Ke. do 4 eexists. split; [reflexivity|].
  unfold KERNLINK, EXTMEM, KERNBASE, PHYSTOP in *.
  assert (Ev : v2p kdata = kdata - 2147483648) by (unfold v2p, KERNBASE; apply u32_small; lia).
  assert (E2 : u32 (v2p kdata - 1048576) = kdata - 2148532224) by (rewrite Ev, u32_small by lia; lia).
  assert (E3 : u32 (234881024 - v2p kdata) = 2382364672 - kdata) by (rewrite Ev, u32_small by lia; lia).
  assert (R : Forall row_ok kmap).
  { unfold kmap, row_ok, row_size, KERNLINK, EXTMEM, KERNBASE, PHYSTOP, DEVSPACE, PTE_W, PGSIZE in *.
    repeat constructor; cbn [virt phys_start phys_end kperm]; change (v2p (2147483648 + 1048576)) with 1048576; rewrite ?E2, ?E3, ?Ev; try done; try lia;
      try (Z.div_mod_to_equations; lia). }
  split; [exact R|]. unfold row_size. cbn [virt phys_start phys_end kperm].
  unfold KERNLINK, EXTMEM, KERNBASE, PHYSTOP, DEVSPACE. change (v2p (2147483648 + 1048576)) with 1048576. rewrite E2, E3, Ev. done.
Qed.

Lemma kmap_mapping va : 0 <= va < 2 ^ 32 -> foldl (fun o k => with_row k o) (fun _ => None) kmap va = kernel_pte va.
Proof.
  intros Hv. destruct kmap_rows as (r1 & r2 & r3 & r4 & -> & R & (A1 & A2 & A3 & A4) & (B1 & B2 & B3 & B4) & (C1 & C2 & C3 & C4) & (D1 & D2 & D3 & D4)).
  pose proof kdata_ok as [Ka Kr]. pose proof kend_ok as Ke. repeat (apply Forall_cons in R as [? R]). cbn [foldl].
  unfold kernel_pte, KERNLINK, EXTMEM, KERNBASE, PHYSTOP, DEVSPACE, page_of in *.
  assert (Hm : (va - 2147483648) mod PGSIZE = va mod PGSIZE) by (unfold PGSIZE; Z.div_mod_to_equations; lia). rewrite Hm.
  destruct (Z.ltb_spec va 2147483648); [by rewrite !with_row_out by (done || lia)|].
  destruct (Z.ltb_spec va (2147483648 + 1048576)).
  { rewrite (with_row_out r4), (with_row_out r3), (with_row_out r2), with_row_in by (done || lia). f_equal. unfold page_of. rewrite A4. lia. }
  destruct (Z.ltb_spec va kdata).
  { rewrite (with_row_out r4), (with_row_out r3), with_row_in by (done || lia). f_equal. unfold page_of. rewrite B4. lia. }
  destruct (Z.ltb_spec va (2147483648 + 234881024)).
  { rewrite (with_row_out r4), with_row_in by (done || lia). f_equal. unfold page_of. rewrite C4. lia. }
  destruct (Z.ltb_spec va 4261412864); [by rewrite !with_row_out by (done || lia)|].
  rewrite with_row_in by (done || lia). f_equal. unfold page_of. rewrite D4. lia.
Qed.

Lemma kmap_apart : rows_apart kmap (fun _ => None).
Proof.
  destruct kmap_rows as (r1 & r2 & r3 & r4 & -> & R & (A1 & A2 & _) & (B1 & B2 & _) & (C1 & C2 & _) & (D1 & D2 & _)).
  pose proof kdata_ok as [Ka Kr]. pose proof kend_ok as Ke. unfold KERNLINK, EXTMEM, KERNBASE, PHYSTOP in *.
  repeat (apply Forall_cons in R as [? R]). cbn [rows_apart]. split; [done|]. split; [|split; [|split; [|done]]]; intros v Hv;
    by rewrite !with_row_out by (done || lia).
Qed.

(** [setupkvm]: with 1026 free pages it returns a directory with the kernel's mapping and
    nothing else, made from free pages. *)
Lemma setupkvm_ok s0 l0 : free s0 l0 -> (1025 < length l0)%nat ->
  exists d s l, setupkvm s0 = Done d s /\ (d =? 0) = false /\ built s0 l0 s l d [] /\
    forall va, 0 <= va < 2 ^ 32 -> pte (mm s) d va = kernel_pte va.
Proof.
  intros F Hl. destruct l0 as [|d l]; [cbn in Hl; lia|]. destruct (built_new s0 d l F) as (E & Hz & B & P0).
  set (s1 := set_freelist _ s0) in *. set (s2 := set_mm _ s1) in *.
  destruct kmap_rows as (r1 & r2 & r3 & r4 & _ & R & _).
  destruct (map_all_ok kmap s0 (d :: l) s2 l d [] (fun _ => None)) as (s3 & l3 & E3 & B3 & P3);
    [done|done|exact Hl|done|intros v _; apply P0|apply kmap_apart|].
  exists d, s3, l3. split; [|split; [done|split; [done|]]].
  - unfold setupkvm. rewrite (bind_Done _ _ _ _ _ E), Hz.
    assert (E2 : memset d 0 PGSIZE s1 = Done tt s2) by reflexivity. rewrite (bind_Done _ _ _ _ _ E2). change (p2v PHYSTOP >? DEVSPACE) with false. cbv iota.
    by rewrite (bind_Done _ _ _ _ _ E3).
  - intros va Hv. rewrite P3 by done. by apply kmap_mapping.
Qed.

(** ** The copy *)

(** Another directory, made of pages that are not free, is left alone. *)
Lemma other_kept s0 l0 s l d ms : free s0 l0 -> built s0 l0 s l d ms ->
  forall q b, is_page q -> q ∉ l0 -> in_page q b -> mm s b = mm s0 b.
Proof.
  intros F B q b Hq Hn Hb. apply (b_frame _ _ _ _ _ _ B). intros p Hp. pose proof (free_pages _ _ F) as HF. rewrite Forall_forall in HF.
  eapply (pages_apart q); [apply Hq|by apply HF| |done]. by intros ->.
Qed.

Lemma other_dir s0 l0 s l d ms e : wf s0 l0 e -> built s0 l0 s l d ms ->
  wf s l e /\ (forall i, 0 <= i < 1024 -> table (mm s) e i = table (mm s0) e i) /\ forall va, pte (mm s) e va = pte (mm s0) e va.
Proof.
  intros W B. pose proof (other_kept s0 l0 s l d ms (wf_free _ _ _ W) B) as K.
  assert (L : forall q i, is_page q -> q ∉ l0 -> 0 <= i < 1024 -> load32 (mm s) (q + 4 * i) = load32 (mm s0) (q + 4 * i)).
  { intros q i Hq Hn Hi. apply load32_ext. intros k Hk. apply (K q); [done|done|]. unfold in_page, PGSIZE. lia. }
  assert (T : forall i, 0 <= i < 1024 -> table (mm s) e i = table (mm s0) e i).
  { intros i Hi. apply table_ext, L; [apply W|apply W|done]. }
  split; [|split; [done|]].
  - constructor.
    + apply (b_wf _ _ _ _ _ _ B).
    + apply W.
    + intros He. by apply (wf_dir_used _ _ _ W), (built_sub _ _ _ _ _ _ _ B).
    + intros i t Hi. rewrite T by done. intros Ht. destruct (wf_tab _ _ _ W i t Hi Ht) as (? & ? & Hn). split; [done|]. split; [done|].
      intros He. by apply Hn, (built_sub _ _ _ _ _ _ _ B).
    + intros i j t Hi Hj. rewrite !T by done. by apply W.
  - intros va. unfold pte. rewrite T by apply PDX_range. destruct (table (mm s0) e (PDX va)) as [t|] eqn:Et; [|done]. cbn [mbind option_bind].
    destruct (wf_tab _ _ _ W _ _ (PDX_range va) Et) as (Ht & _ & Hn). by rewrite L by (done || apply PTX_range).
Qed.

Lemma pte_page m d va : 0 <= va < 2 ^ 32 -> pte m d va = pte m d (page_of va).
Proof. intros Hv. destruct (index_down va Hv) as [E1 E2]. unfold pte, page_of. by rewrite E1, E2. Qed.

(** A page of the parent. *)
Definition user_page (s0 : kmem) (l0 : list Z) (e va p fl : Z) : Prop :=
  pte (mm s0) e va = Some (v2p p + fl) /\ 0 <= fl < PGSIZE /\ is_page p /\ p ∉ l0.

Lemma user_page_flags s0 l0 e va p fl : user_page s0 l0 e va p fl -> present fl = fl /\ PTE_FLAGS (v2p p + fl) = fl /\
  p2v (PTE_ADDR (v2p p + fl)) = p.
Proof.
  intros (Hp & Hf & Hq & _). destruct (page_phys p Hq) as (Ha & Hr & Hv). unfold PHYSTOP in Hr.
  destruct (entry_parts (v2p p) fl) as (E1 & E2 & _); [lia|done|done|]. rewrite E1, E2. split; [|done].
  unfold pte in Hp. destruct (table (mm s0) e (PDX va)) as [t|]; [|done]. cbn [mbind option_bind] in Hp.
  destruct (has (load32 (mm s0) (t + 4 * PTX va)) PTE_P) eqn:E; [|done]. injection Hp as Hp. rewrite Hp in E.
  rewrite has_P in E by lia. apply negb_true_iff, Z.eqb_neq in E.
  assert (Ho : fl mod 2 = 1) by (unfold PGSIZE in *; Z.div_mod_to_equations; lia).
  unfold present, PTE_P. apply Z.bits_inj'. intros i Hi. rewrite Z.lor_spec. destruct (Z.eq_dec i 0) as [->|Hne].
  - rewrite Z.bit0_odd, Zodd_mod. rewrite Ho. done.
  - rewrite (Z.bits_above_log2 1 i) by (cbn; lia). apply orb_false_r.
Qed.

Lemma user_page_unique s0 l0 e va va' p fl p' fl' : 0 <= va < 2 ^ 32 -> 0 <= va' < 2 ^ 32 -> page_of va = page_of va' ->
  user_page s0 l0 e va p fl -> user_page s0 l0 e va' p' fl' -> p' = p /\ fl' = fl.
Proof.
  intros Hv Hv' Ep U U'. destruct (user_page_flags _ _ _ _ _ _ U) as (_ & F & A), (user_page_flags _ _ _ _ _ _ U') as (_ & F' & A').
  destruct U as (E & _), U' as (E' & _). rewrite pte_page in E, E' by done. rewrite Ep, E' in E. injection E as E.
  rewrite E in F', A'. split; congruence.
Qed.

(** The first [k] pages of [e] have been copied to the pages [ms] of [d]. *)
Record copied (s0 : kmem) (l0 : list Z) (e : Z) (s : kmem) (l : list Z) (d : Z) (ms : list Z) : Prop := {
  c_built : built s0 l0 s l d ms;
  c_nodup : NoDup ms;
  c_user va p fl : 0 <= va < PGSIZE * Z.of_nat (length ms) -> user_page s0 l0 e va p fl ->
    exists m, ms !! Z.to_nat (va / PGSIZE) = Some m /\ pte (mm s) d va = Some (v2p m + fl) /\
      forall b, 0 <= b < PGSIZE -> mm s (m + b) = mm s0 (p + b);
  c_rest va : PGSIZE * Z.of_nat (length ms) <= va < 2 ^ 32 -> pte (mm s) d va = kernel_pte va }.

(** What the loop finds for a page of the parent. *)
Lemma parent_entry s0 l0 s l d ms e va p fl : wf s0 l0 e -> built s0 l0 s l d ms -> user_page s0 l0 e va p fl ->
  exists q, walkpgdir e va false s = Done q s /\ (q =? 0) = false /\ load32 (mm s) q = v2p p + fl /\ has (v2p p + fl) PTE_P = true.
Proof.
  intros W B U. destruct (other_dir s0 l0 s l d ms e W B) as (W1 & T & P). destruct U as (E & _). rewrite <- P in E.
  rewrite (walk_lookup s l e va W1). unfold pte in E. destruct (table (mm s) e (PDX va)) as [t|] eqn:Et; [|done]. cbn [mbind option_bind] in E.
  destruct (wf_tab _ _ _ W1 _ _ (PDX_range va) Et) as (Ht & _). exists (t + 4 * PTX va). split; [done|].
  split; [apply p2v_nonzero; [done|apply PTX_range]|]. destruct (has _ PTE_P) eqn:Eh; [|done]. injection E as E. rewrite E in *. done.
Qed.

(** The copy of one page into the page [m], taken from the free list. *)
Lemma copy_page s0 l0 e s m l d ms p : free s0 l0 -> copied s0 l0 e s (m :: l) d ms -> is_page p -> p ∉ l0 ->
  let s1 := set_freelist (load32 (mm s) m) s in let s2 := set_mm (KString.memmove m p (Z.to_nat PGSIZE) (mm s1)) s1 in
  kalloc s = Done m s1 /\ (m =? 0) = false /\ built s0 l0 s2 l d (ms ++ [m]) /\ m ∉ ms /\
  (forall va, pte (mm s2) d va = pte (mm s) d va) /\ (forall b, 0 <= b < PGSIZE -> mm s2 (m + b) = mm s0 (p + b)) /\
  forall q b, q ∈ ms -> in_page q b -> mm s2 b = mm s b.
Proof.
  intros F C Hp Hn s1 s2. pose proof (c_built _ _ _ _ _ _ _ C) as B. destruct (built_take s0 l0 s m l d ms B) as (E & Hz & B1 & Hm).
  fold s1 in E, B1. assert (Hin : m ∈ ms ++ [m]) by set_solver.
  assert (St : forall b, mm s2 b = if (m <=? b) && (b <? m + PGSIZE) then mm s1 (p + (b - m)) else mm s1 b).
  { intros b. exact (KString.memmove_spec m p (Z.to_nat PGSIZE) (mm s1) b). }
  assert (Out : forall b, ~ in_page m b -> mm s2 b = mm s b).
  { intros b Hb. rewrite St. unfold in_page in Hb. destruct (Z.leb_spec m b), (Z.ltb_spec b (m + PGSIZE)); cbn [andb]; try done. lia. }
  destruct (built_write s0 l0 s1 l d (ms ++ [m]) m (mm s2) B1 Hin Out) as [B2 P2].
  split; [done|]. split; [done|]. split; [done|]. split; [done|]. split; [done|]. split.
  - intros b Hb. rewrite St. rewrite (proj2 (Z.leb_le _ _)), (proj2 (Z.ltb_lt _ _)) by lia. cbn [andb].
    replace (p + (m + b - m)) with (p + b) by lia. apply (other_kept s0 l0 s (m :: l) d ms F B p); [done|done|]. unfold in_page. lia.
  - intros q b Hq Hb. apply Out. destruct (b_ms _ _ _ _ _ _ B1 q ltac:(set_solver)) as [_ D1].
    destruct (b_ms _ _ _ _ _ _ B1 m Hin) as [_ D2]. eapply (pages_apart q); [apply D1|apply D2| |done]. by intros ->.
Qed.

Lemma copy_step s0 l0 e s l d ms sz n p fl : wf s0 l0 e -> copied s0 l0 e s l d ms -> (1026 + length ms < length l0)%nat ->
  let i := PGSIZE * Z.of_nat (length ms) in i < sz -> sz <= KERNBASE -> user_page s0 l0 e i p fl ->
  exists s' l' m, copy_loop (S n) e d i sz s = copy_loop n e d (i + PGSIZE) sz s' /\ copied s0 l0 e s' l' d (ms ++ [m]).
Proof.
  intros W C Hl i Hi Hk U. pose proof (c_built _ _ _ _ _ _ _ C) as B. pose proof (wf_free _ _ _ W) as F.
  assert (Hne : l <> []) by (eapply built_room; [exact F|exact B|lia]). destruct l as [|m l]; [done|].
  destruct (parent_entry s0 l0 s _ d ms e i p fl W B U) as (q & E1 & Hq & E2 & Hh).
  destruct (user_page_flags _ _ _ _ _ _ U) as (Fp & Ff & Fa). pose proof U as (_ & Hfl & Hp & Hpn).
  destruct (copy_page s0 l0 e s m l d ms p F C Hp Hpn) as (E3 & Hz & B2 & Hm & P2 & Cp & Kp).
  set (s1 := set_freelist _ s) in *. set (s2 := set_mm _ s1) in *. unfold KERNBASE in *.
  assert (Hi4 : 0 <= i /\ i mod PGSIZE = 0 /\ i + PGSIZE <= 2 ^ 32).
  { unfold i. rewrite Z.mul_comm, Z.mod_mul by done. unfold PGSIZE in *. lia. }
  destruct Hi4 as (Hi1 & Hi2 & Hi3).
  assert (Mp : is_page m) by (by destruct (b_ms _ _ _ _ _ _ B2 m ltac:(set_solver)) as [_ [? ? ? ?]]).
  destruct (page_phys m Mp) as (Ma & Mr & _). unfold PHYSTOP in Mr.
  destruct (built_map s0 l0 s2 l d (ms ++ [m]) i PGSIZE (v2p m) fl) as (s3 & l3 & E4 & B3 & K3 & P3); try done; try lia.
  { rewrite length_app. cbn [length]. lia. }
  { unfold PGSIZE. lia. }
  { intros v Hv. rewrite P2. rewrite (c_rest _ _ _ _ _ _ _ C) by (fold i; lia). unfold kernel_pte, KERNBASE.
    rewrite (proj2 (Z.ltb_lt _ _)); [done|]. unfold i, PGSIZE in *. lia. }
  change (Z.to_nat (PGSIZE / PGSIZE)) with 1%nat in P3. rewrite Fp in P3. exists s3, l3, m. split.
  - cbn [copy_loop]. rewrite (proj2 (Z.ltb_lt i sz)) by lia. rewrite (bind_Done _ _ _ _ _ E1), Hq.
    assert (E5 : ld q s = Done (v2p p + fl) s) by (unfold ld, gets; by rewrite E2). rewrite (bind_Done _ _ _ _ _ E5), Hh. cbn [negb].
    rewrite (bind_Done _ _ _ _ _ E3), Hz, Fa, Ff.
    assert (E6 : memmove m p PGSIZE s1 = Done tt s2) by reflexivity. rewrite (bind_Done _ _ _ _ _ E6), (bind_Done _ _ _ _ _ E4).
    cbn [Z.ltb Z.compare]. rewrite u32_small; [done|]. unfold i, PGSIZE in *. lia.
  - assert (Ln : Z.of_nat (length (ms ++ [m])) = Z.of_nat (length ms) + 1) by (rewrite length_app; cbn [length]; lia).
    constructor.
    + done.
    + apply NoDup_app. split; [apply C|]. split; [set_solver|apply NoDup_singleton].
    + intros va p' fl' Hv U'. rewrite Ln in Hv. destruct (decide (va < i)) as [Hlt|Hge].
      * destruct (c_user _ _ _ _ _ _ _ C va p' fl' ltac:(fold i; lia) U') as (m' & L & P & Cb). exists m'.
        pose proof (lookup_lt_Some _ _ _ L). split; [by rewrite lookup_app_l|]. pose proof (list_elem_of_lookup_2 _ _ _ L).
        split; [rewrite P3, mapped_out, P2 by lia; done|]. intros b Hb.
        rewrite (K3 m' (m' + b)); [|apply elem_of_app; by left|unfold in_page; lia].
        rewrite (Kp m' (m' + b)); [by apply Cb|done|unfold in_page; lia].
      * assert (Ep : page_of va = i /\ va / PGSIZE = Z.of_nat (length ms)).
        { unfold page_of, i in *. unfold PGSIZE in *. Z.div_mod_to_equations. lia. }
        destruct Ep as [Ep Ed]. assert (Ei : page_of i = i) by (unfold page_of; lia).
        destruct (user_page_unique s0 l0 e i va p fl p' fl') as [-> ->]; [lia|unfold i, PGSIZE in *; lia|congruence|done|done|].
        exists m. split; [|split].
        -- rewrite Ed, Nat2Z.id. by apply list_lookup_middle.
        -- rewrite P3, mapped_in by (unfold i, PGSIZE in *; lia). fold (page_of va). rewrite Ep. f_equal. lia.
        -- intros b Hb. rewrite (K3 m (m + b)); [by apply Cp|apply elem_of_app; right; apply list_elem_of_singleton; done|unfold in_page; lia].
    + intros va Hv. rewrite Ln in Hv. rewrite P3, mapped_out, P2 by (unfold i, PGSIZE in *; lia). apply (c_rest _ _ _ _ _ _ _ C). unfold PGSIZE in *. lia.
Qed.

Lemma copy_loop_ok n s0 l0 e s l d ms sz : wf s0 l0 e -> copied s0 l0 e s l d ms -> 0 <= sz <= KERNBASE ->
  let k := Z.to_nat ((sz + PGSIZE - 1) / PGSIZE) in (length ms <= k)%nat -> (k - length ms < n)%nat -> (1025 + k < length l0)%nat ->
  (forall va, 0 <= va < sz -> exists p fl, user_page s0 l0 e va p fl) ->
  exists s' l' ms', copy_loop n e d (PGSIZE * Z.of_nat (length ms)) sz s = Done true s' /\ copied s0 l0 e s' l' d ms' /\ length ms' = k.
Proof.
  intros W. revert s l ms. induction n as [|n IH]; intros s l ms C Hsz k Hl Hn Hr Hu; [lia|].
  assert (Hk : PGSIZE * Z.of_nat k < sz + PGSIZE /\ sz <= PGSIZE * Z.of_nat k).
  { unfold k, PGSIZE. rewrite Z2Nat.id by (apply Z.div_pos; lia). Z.div_mod_to_equations. lia. }
  destruct (decide (PGSIZE * Z.of_nat (length ms) < sz)) as [Hi|Hi].
  - destruct (Hu (PGSIZE * Z.of_nat (length ms))) as (p & fl & U); [unfold PGSIZE in *; lia|].
    assert (Hlt : (length ms < k)%nat) by (unfold PGSIZE in *; lia).
    destruct (copy_step s0 l0 e s l d ms sz n p fl W C ltac:(lia) Hi ltac:(lia) U) as (s1 & l1 & m & E & C1). rewrite E.
    replace (PGSIZE * Z.of_nat (length ms) + PGSIZE) with (PGSIZE * Z.of_nat (length (ms ++ [m]))) by (rewrite length_app; cbn [length]; lia).
    apply (IH s1 l1); try done; rewrite length_app; cbn [length]; lia.
  - exists s, l, ms. cbn [copy_loop]. rewrite (proj2 (Z.ltb_ge _ _)) by lia. split; [done|]. split; [done|]. unfold PGSIZE in *. lia.
Qed.

Definition pages_of (sz : Z) : nat := Z.to_nat ((sz + PGSIZE - 1) / PGSIZE).

Lemma copyuvm_ok s0 l0 e sz : wf s0 l0 e -> 0 <= sz <= KERNBASE ->
  (forall va, 0 <= va < sz -> exists p fl, user_page s0 l0 e va p fl) -> (1026 + pages_of sz <= length l0)%nat ->
  exists d s l ms, copyuvm e sz s0 = Done d s /\ (d =? 0) = false /\ copied s0 l0 e s l d ms /\
    PGSIZE * Z.of_nat (length ms) = PGROUNDUP sz /\ sz <= PGROUNDUP sz.
Proof.
  intros W Hsz Hu Hl. pose proof (wf_free _ _ _ W) as F. destruct (setupkvm_ok s0 l0 F ltac:(lia)) as (d & s1 & l1 & E1 & Hz & B1 & P1).
  assert (C1 : copied s0 l0 e s1 l1 d []).
  { constructor; [done|constructor|intros va p fl Hv; cbn in Hv; lia|intros va Hv; apply P1; cbn in Hv; lia]. }
  unfold KERNBASE in Hsz.
  assert (Hk : PGSIZE * Z.of_nat (pages_of sz) = PGROUNDUP sz /\ (pages_of sz < Z.to_nat (sz / PGSIZE + 2))%nat /\ sz <= PGROUNDUP sz).
  { destruct (PGROUNDUP_spec sz) as [Ha Hr]; [unfold PGSIZE; lia|]. destruct (aligned_mult _ Ha) as [x Ex]. rewrite Ex in *.
    unfold pages_of, PGSIZE in *. rewrite !Z2Nat.id by (apply Z.div_pos; lia).
    assert ((sz + 4096 - 1) / 4096 = x) as -> by (Z.div_mod_to_equations; lia).
    assert (x < sz / 4096 + 2) by (Z.div_mod_to_equations; lia). lia. }
  destruct Hk as (Hk & Hfu & Hup).
  destruct (copy_loop_ok (Z.to_nat (sz / PGSIZE + 2)) s0 l0 e s1 l1 d [] sz W C1) as (s & l & ms & E2 & C & Ems);
    [unfold KERNBASE; lia|cbn; lia|fold (pages_of sz); cbn [length]; lia|fold (pages_of sz); lia|done|]. fold (pages_of sz) in Ems.
  exists d, s, l, ms. rewrite Ems. split; [|done]. unfold copyuvm. rewrite (bind_Done _ _ _ _ _ E1), Hz.
  cbn [length Z.of_nat] in E2. rewrite Z.mul_0_r in E2. by rewrite (bind_Done _ _ _ _ _ E2).
Qed.

(** [copyuvm] gives a forked process its own copy of its parent's memory.  The parent
    has a well-formed page table in which every address below [sz] has a page that is in
    use, and there are enough free pages: one for each page of the parent and 1025 for the
    new directory and its tables.  Then the call succeeds.  The new directory has the
    kernel's mapping, one page of its own for each page below [sz], with the parent's
    permissions and the parent's bytes, and nothing else.  The pages it uses were free,
    are not free any more, and are different for different addresses; the parent's
    mapping and every page that was in use are unchanged. *)
Theorem copyuvm_copies s0 l0 e sz : wf s0 l0 e -> 0 <= sz <= KERNBASE ->
  (forall va, 0 <= va < sz -> exists p fl, user_page s0 l0 e va p fl) -> (1026 + pages_of sz <= length l0)%nat ->
  exists d s l ms, copyuvm e sz s0 = Done d s /\ (d =? 0) = false /\ wf s l d /\ wf s l e /\ d ∈ l0 /\ NoDup ms /\
    (forall va p fl, 0 <= va < sz -> user_page s0 l0 e va p fl -> exists m,
       ms !! Z.to_nat (va / PGSIZE) = Some m /\ pte (mm s) d va = Some (v2p m + fl) /\ data_page s l d m /\
       m ∈ l0 /\ mm s (m + va mod PGSIZE) = mm s0 (p + va mod PGSIZE)) /\
    (forall va, PGROUNDUP sz <= va < 2 ^ 32 -> pte (mm s) d va = kernel_pte va) /\
    (forall va, pte (mm s) e va = pte (mm s0) e va) /\
    (forall q b, is_page q -> q ∉ l0 -> in_page q b -> mm s b = mm s0 b).
Proof.
  intros W Hsz Hu Hl. pose proof (wf_free _ _ _ W) as F. destruct (copyuvm_ok s0 l0 e sz W Hsz Hu Hl) as (d & s & l & ms & E & Hz & C & Ems & Hup).
  pose proof (c_built _ _ _ _ _ _ _ C) as B. destruct (other_dir s0 l0 s l d ms e W B) as (We & _ & Pe).
  exists d, s, l, ms. split; [done|split; [done|split; [apply B|split; [done|split; [apply B|split; [apply C|split; [|split; [|split; [done|]]]]]]]]].
  - intros va p fl Hv U. destruct (c_user _ _ _ _ _ _ _ C va p fl ltac:(rewrite Ems; lia) U) as (m & L & P & Cb). exists m.
    destruct (b_ms _ _ _ _ _ _ B m (list_elem_of_lookup_2 _ _ _ L)) as [Hm D]. split; [done|]. split; [done|]. split; [done|]. split; [done|].
    apply Cb, Z.mod_pos_bound. done.
  - intros va Hv. apply (c_rest _ _ _ _ _ _ _ C). rewrite Ems. lia.
  - by apply (other_kept s0 l0 s l d ms).
Qed.

End Copy.

(** ** A small machine *)

Section Demo.

Definition copy_linker : Linker.
Proof. refine {| kend := 2149580800 |}. unfold KERNBASE, PHYSTOP. lia. Defined.
#[local] Existing Instance copy_linker.
Definition copy_data : DataSegment.
Proof. refine {| kdata := 2148536320 |}. unfold KERNLINK, KERNBASE, EXTMEM, PGSIZE. split; [reflexivity|]. cbn. lia. Defined.
#[local] Existing Instance copy_data.

Definition qg (i : Z) : Z := 2149580800 + PGSIZE * i.

(** The parent's page 0 is page 2, through the directory in page 0 and the table in page 1. *)
Definition parent : kmem :=
  {| mm := KString.store32 (qg 1) (v2p (qg 2) + 7) (KString.store32 (qg 0) (v2p (qg 1) + 7) (KString.store32 (qg 2) 42 (fun _ => 0)));
     lock := false; use_lock := true; freelist := 0 |}.

Lemma qg_page i : 0 <= i < 10000 -> is_page (qg i).
Proof. intros Hi. unfold is_page, qg, KERNBASE, PHYSTOP. cbn. unfold PGSIZE. split; [|lia]. Z.div_mod_to_equations. lia. Qed.

Lemma parent_words i j : 0 <= i < 2 -> 0 <= j < 1024 ->
  load32 (mm parent) (qg i + 4 * j) = if decide (j = 0) then v2p (qg (i + 1)) + 7 else 0.
Proof.
  intros Hi Hj. cbn [mm parent]. replace (qg 1) with (qg 1 + 4 * 0) at 1 by lia. replace (qg 0) with (qg 0 + 4 * 0) at 1 by lia.
  replace (qg 2) with (qg 2 + 4 * 0) at 2 by lia.
  assert (A : forall k, qg k mod PGSIZE = 0) by (intros k; unfold qg, PGSIZE; Z.div_mod_to_equations; lia).
  rewrite !load_store_page by (apply A || lia). unfold qg, PGSIZE. assert (i = 0 \/ i = 1) as [-> | ->] by lia; repeat case_decide; try lia; try done.
Qed.

(** With 1100 free pages behind them. *)
Lemma parent_free : exists s l, free s l /\ length l = 1100%nat /\ (forall v, v ∈ l -> qg 10 <= v) /\
  forall a, a < qg 10 -> mm s a = mm parent a.
Proof.
  destruct (freerange_from_spec 1100 1200 parent [] (qg 10) (qg 1110)) as (s & _ & F & _ & K).
  - split; [reflexivity|constructor|constructor|reflexivity].
  - lia.
  - reflexivity.
  - unfold qg, PGSIZE. cbn. lia.
  - unfold qg, PGSIZE. lia.
  - unfold qg, PGSIZE, KERNBASE, PHYSTOP. lia.
  - intros v Hv. by apply not_elem_of_nil in Hv.
  - rewrite app_nil_r in F. exists s, (reverse (pages_from (qg 10) 1100)). split; [done|]. split; [|split].
    + rewrite length_reverse. reflexivity.
    + intros v. rewrite elem_of_reverse, elem_pages_from. intros (i & -> & Hi). unfold PGSIZE. lia.
    + intros a Ha. apply K. intros v. rewrite elem_pages_from. intros (i & -> & Hi). unfold in_page, PGSIZE. lia.
Qed.

Lemma parent_ok : exists s l, wf s l (qg 0) /\ length l = 1100%nat /\ mm s (qg 2) = 42 /\ (forall i, 0 <= i < 10 -> qg i ∉ l) /\
  forall va, 0 <= va < PGSIZE -> user_page s l (qg 0) va (qg 2) 7.
Proof.
  destruct parent_free as (s & l & F & L & Hl & K). exists s, l.
  assert (Wd : forall i j, 0 <= i < 2 -> 0 <= j < 1024 -> load32 (mm s) (qg i + 4 * j) = if decide (j = 0) then v2p (qg (i + 1)) + 7 else 0).
  { intros i j Hi Hj. rewrite <- parent_words by done. apply load32_ext. intros k Hk. apply K. unfold qg, PGSIZE. lia. }
  assert (T : forall i, 0 <= i < 1024 -> table (mm s) (qg 0) i = if decide (i = 0) then Some (qg 1) else None).
  { intros i Hi. unfold table. rewrite Wd by lia. case_decide; reflexivity. }
  assert (Nl : forall i, 0 <= i < 10 -> qg i ∉ l) by (intros i Hi He; specialize (Hl _ He); unfold qg, PGSIZE in Hl; lia).
  split; [|split; [done|split; [rewrite K; [reflexivity|unfold qg, PGSIZE; lia]|split; [done|]]]].
  - constructor; [done|by apply qg_page|by apply Nl| |].
    + intros i t Hi. rewrite T by done. case_decide; [|done]. intros [= <-].
      split_and!; [by apply qg_page|by vm_compute|by apply Nl].
    + intros i j t Hi Hj. rewrite !T by done. repeat case_decide; congruence.
  - intros va Hv. assert (Ei : PDX va = 0 /\ PTX va = 0).
    { rewrite PDX_eq, PTX_eq, u32_small by (unfold PGSIZE in *; lia). unfold PGSIZE in *. Z.div_mod_to_equations. lia. }
    destruct Ei as [E1 E2]. split; [|split; [unfold PGSIZE; lia|split; [by apply qg_page|by apply Nl]]].
    unfold pte. rewrite E1, E2, T by lia. rewrite decide_True by done. cbn [mbind option_bind]. rewrite (Wd 1 0) by lia. reflexivity.
Qed.

Lemma copyuvm_copies_witness : exists s0 d s m, copyuvm (qg 0) PGSIZE s0 = Done d s /\ pte (mm s) d 0 = Some (v2p m + 7) /\
  mm s m = 42 /\ m <> qg 2.
Proof.
  destruct parent_ok as (s0 & l0 & W & L & H42 & _ & U).
  destruct (copyuvm_copies s0 l0 (qg 0) PGSIZE W) as (d & s & l & ms & E & _ & _ & _ & _ & _ & Cu & _).
  - unfold PGSIZE, KERNBASE. lia.
  - intros va Hv. exists (qg 2), 7. by apply U.
  - rewrite L. vm_compute. lia.
  - destruct (Cu 0 (qg 2) 7) as (m & _ & P & _ & Hm & Hb); [unfold PGSIZE; lia|apply U; unfold PGSIZE; lia|].
    exists s0, d, s, m. split; [exact E|]. split; [exact P|]. change (0 mod PGSIZE) with 0 in Hb. rewrite !Z.add_0_r in Hb.
    split; [by rewrite Hb|]. intros ->. destruct (U 0) as (_ & _ & _ & Hn); [unfold PGSIZE; lia|]. done.
Defined.

End Demo.

End VmCopy.
