(* ===== verification/Proc.v ===== *)
(** * Processes (kernel/proc.c)

    The process table, with the parts of its operations that run under
    [ptable.lock] as functions on the table ([alloc_entry], [wakeup1],
    [kill_entry], [reparent]/[exit_entry], [wait_scan]), and the operations
    built from them and from the page allocator and page tables of Kalloc.v and
    Vm.v.  A process is its index in the table.  [System] then runs any number
    of CPUs over the table, one locked section at a time. *)

From stdpp Require Import functions.
From S2P Require Import Prelude Spinlock KString Kalloc Vm.

Module Proc.

Definition NPROC : nat := 64.
Definition NOFILE : nat := 16.
Definition KSTACKSIZE : Z := 4096.

Inductive procstate := UNUSED | EMBRYO | SLEEPING | RUNNABLE | RUNNING | ZOMBIE.

#[export] Instance procstate_eq_dec : EqDecision procstate.
Proof. solve_decision. Defined.

(** [tf] and [context] are addresses in the kernel stack; files and the current
    directory are the indices the file layer gives them; [name] is the string in
    the 16 bytes of the C field, without its NUL. *)
Record proc := {
  sz : Z; pgdir : Z; kstack : Z; state : procstate; pid : Z; parent : option nat;
  tf : Z; context : Z; pchan : option chan; killed : bool; ofile : list (option nat); cwd : option nat;
  name : list Z }.

Definition set_state (x : procstate) (p : proc) : proc :=
  {| sz := sz p; pgdir := pgdir p; kstack := kstack p; state := x; pid := pid p; parent := parent p; tf := tf p;
     context := context p; pchan := pchan p; killed := killed p; ofile := ofile p; cwd := cwd p; name := name p |}.
Definition set_pid (x : Z) (p : proc) : proc :=
  {| sz := sz p; pgdir := pgdir p; kstack := kstack p; state := state p; pid := x; parent := parent p; tf := tf p;
     context := context p; pchan := pchan p; killed := killed p; ofile := ofile p; cwd := cwd p; name := name p |}.
Definition set_parent (x : option nat) (p : proc) : proc :=
  {| sz := sz p; pgdir := pgdir p; kstack := kstack p; state := state p; pid := pid p; parent := x; tf := tf p;
     context := context p; pchan := pchan p; killed := killed p; ofile := ofile p; cwd := cwd p; name := name p |}.
Definition set_pchan (x : option chan) (p : proc) : proc :=
  {| sz := sz p; pgdir := pgdir p; kstack := kstack p; state := state p; pid := pid p; parent := parent p; tf := tf p;
     context := context p; pchan := x; killed := killed p; ofile := ofile p; cwd := cwd p; name := name p |}.
Definition set_killed (x : bool) (p : proc) : proc :=
  {| sz := sz p; pgdir := pgdir p; kstack := kstack p; state := state p; pid := pid p; parent := parent p; tf := tf p;
     context := context p; pchan := pchan p; killed := x; ofile := ofile p; cwd := cwd p; name := name p |}.
Definition set_stack (k t c : Z) (p : proc) : proc :=
  {| sz := sz p; pgdir := pgdir p; kstack := k; state := state p; pid := pid p; parent := parent p; tf := t;
     context := c; pchan := pchan p; killed := killed p; ofile := ofile p; cwd := cwd p; name := name p |}.
Definition set_vm (d n : Z) (p : proc) : proc :=
  {| sz := n; pgdir := d; kstack := kstack p; state := state p; pid := pid p; parent := parent p; tf := tf p;
     context := context p; pchan := pchan p; killed := killed p; ofile := ofile p; cwd := cwd p; name := name p |}.
Definition set_files (f : list (option nat)) (d : option nat) (p : proc) : proc :=
  {| sz := sz p; pgdir := pgdir p; kstack := kstack p; state := state p; pid := pid p; parent := parent p; tf := tf p;
     context := context p; pchan := pchan p; killed := killed p; ofile := f; cwd := d; name := name p |}.
Definition set_name (x : list Z) (p : proc) : proc :=
  {| sz := sz p; pgdir := pgdir p; kstack := kstack p; state := state p; pid := pid p; parent := parent p; tf := tf p;
     context := context p; pchan := pchan p; killed := killed p; ofile := ofile p; cwd := cwd p; name := x |}.

(** ** The locked sections *)

Record table := { procs : list proc; nextpid : Z }.

Definition set_proc (i : nat) (f : proc -> proc) (t : table) : table :=
  {| procs := alter f i (procs t); nextpid := nextpid t |}.

(** The first entry with a property: [for (p = ptable.proc; ...; p++)]. *)
Fixpoint first (f : proc -> bool) (l : list proc) (i : nat) : option nat :=
  match l with
  | [] => None
  | p :: l' => if f p then Some i else first f l' (S i)
  end.

Definition is_state (x : procstate) (p : proc) : bool := bool_decide (state p = x).

(** The part of [allocproc] with the lock. *)
Definition alloc_entry (t : table) : option (nat * table) :=
  i ← first (is_state UNUSED) (procs t) 0;
  Some (i, {| procs := alter (fun p => set_pid (nextpid t) (set_state EMBRYO p)) i (procs t);
              nextpid := s32 (nextpid t + 1) |}).

(** A channel is a pointer, so it can be null. *)
Definition wake_one (ch : option chan) (p : proc) : proc :=
  if is_state SLEEPING p && bool_decide (pchan p = ch) then set_state RUNNABLE p else p.

Definition wakeup1 (ch : option chan) (t : table) : table :=
  {| procs := wake_one ch <$> procs t; nextpid := nextpid t |}.

(** [kill]: [None] when no entry has the pid. *)
Definition kill_entry (n : Z) (t : table) : option table :=
  i ← first (fun p => pid p =? n) (procs t) 0;
  Some (set_proc i (fun p => let p := set_killed true p in
                             if is_state SLEEPING p then set_state RUNNABLE p else p) t).

(** The loop of [exit] that passes the children of [me] to init, at entry [i]. *)
Definition reparent (me init i : nat) (t : table) : table :=
  match procs t !! i with
  | Some p =>
      if bool_decide (parent p = Some me) then
        let t := set_proc i (set_parent (Some init)) t in
        if is_state ZOMBIE p then wakeup1 (Some (CProc init)) t else t
      else t
  | None => t
  end.

Fixpoint reparent_all (me init : nat) (l : list nat) (t : table) : table :=
  match l with [] => t | i :: l' => reparent_all me init l' (reparent me init i t) end.

(** The part of [exit] with the lock, up to [sched]. *)
Definition exit_entry (me init : nat) (t : table) : table :=
  let t := match procs t !! me with
           | Some p => wakeup1 (CProc <$> parent p) t
           | None => t end in
  set_proc me (set_state ZOMBIE) (reparent_all me init (seq 0 NPROC) t).

(** One scan of [wait]: a zombie child, or whether there are children. *)
Definition zombie_child (me : nat) (p : proc) : bool := bool_decide (parent p = Some me) && is_state ZOMBIE p.
Definition child (me : nat) (p : proc) : bool := bool_decide (parent p = Some me).

Definition reap (p : proc) : proc :=
  set_killed false (set_name [] (set_parent None (set_pid 0 (set_state UNUSED (set_stack 0 (tf p) (context p) p))))).

Inductive wait_result := Reaped (i : nat) (t : table) | NoChildren | MustSleep.

Definition wait_scan (me : nat) (t : table) : wait_result :=
  match first (zombie_child me) (procs t) 0 with
  | Some i => Reaped i (set_proc i reap t)
  | None =>
      match first (child me) (procs t) 0, procs t !! me with
      | Some _, Some p =>
          if killed p then NoChildren else MustSleep
      | _, _ => NoChildren
      end
  end.

(** The state changes before and after [sched] in [sleep] and [yield]. *)
Definition sleep_entry (ch : option chan) (me : nat) (t : table) : table :=
  set_proc me (fun p => set_state SLEEPING (set_pchan ch p)) t.
Definition yield_entry (me : nat) (t : table) : table := set_proc me (set_state RUNNABLE) t.

(** One turn of the loop of [scheduler] at entry [k]: the process it switches to,
    if any, and the entry it looks at next; after the last entry it starts over. *)
Definition scheduler_step (k : nat) (t : table) : option nat * nat :=
  match procs t !! k with
  | Some p => if is_state RUNNABLE p then (Some k, S k) else (None, S k)
  | None => (None, O)
  end.

(** ** The operations *)

Section Ops.
Context `{DataSegment} {F : Type}.

(** What a CPU works on in the kernel: memory, the table, its own [struct cpu],
    the locks it holds, the first process, the flag of [forkret], the tick counter,
    and the state [F] of the files, which this code only passes on. *)
Record kst := {
  km : Kalloc.kmem; ptab : table; cpu : Spinlock.cpu; held : lock -> bool; initproc : option nat; first_run : bool;
  ticks : Z; filest : F }.

Definition set_km (m : Kalloc.kmem) (s : kst) : kst :=
  {| km := m; ptab := ptab s; cpu := cpu s; held := held s; initproc := initproc s; first_run := first_run s;
     ticks := ticks s; filest := filest s |}.
Definition set_ptab (t : table) (s : kst) : kst :=
  {| km := km s; ptab := t; cpu := cpu s; held := held s; initproc := initproc s; first_run := first_run s;
     ticks := ticks s; filest := filest s |}.
Definition set_cpu (c : Spinlock.cpu) (s : kst) : kst :=
  {| km := km s; ptab := ptab s; cpu := c; held := held s; initproc := initproc s; first_run := first_run s;
     ticks := ticks s; filest := filest s |}.
Definition set_held (l : lock) (b : bool) (s : kst) : kst :=
  {| km := km s; ptab := ptab s; cpu := cpu s; held := <[l := b]> (held s); initproc := initproc s;
     first_run := first_run s;
     ticks := ticks s; filest := filest s |}.
Definition set_initproc (i : option nat) (s : kst) : kst :=
  {| km := km s; ptab := ptab s; cpu := cpu s; held := held s; initproc := i; first_run := first_run s;
     ticks := ticks s; filest := filest s |}.
Definition set_first_run (b : bool) (s : kst) : kst :=
  {| km := km s; ptab := ptab s; cpu := cpu s; held := held s; initproc := initproc s; first_run := b;
     ticks := ticks s; filest := filest s |}.

Definition set_filest (f : F) (s : kst) : kst :=
  {| km := km s; ptab := ptab s; cpu := cpu s; held := held s; initproc := initproc s; first_run := first_run s;
     ticks := ticks s; filest := f |}.

Definition mem_op {A} (m : M Kalloc.kmem A) : M kst A := zoom km set_km m.

(** [ptable.lock] *)
Definition PTABLE : lock := LPtable.

(** [acquire] and [release] as the processor that calls them sees them. *)
Definition acquire (l : lock) : M kst unit :=
  modify (fun s => set_cpu (Spinlock.pushcli (cpu s)) s) ;!
  let! h := gets (fun s => held s l) in
  if h : bool then panic "acquire" else modify (set_held l true).

Definition release (l : lock) : M kst unit :=
  let! h := gets (fun s => held s l) in
  if h : bool then modify (set_held l false) ;! zoom cpu set_cpu Spinlock.popcli
  else panic "release".

Definition on_proc (i : nat) (f : proc -> proc) : M kst unit := modify (fun s => set_ptab (set_proc i f (ptab s)) s).
Definition get_proc (i : nat) : M kst proc := fun s =>
  match procs (ptab s) !! i with Some p => Done p s | None => Wild "no such process" end.

(** The two structures on a kernel stack, as fields and their sizes. *)
Definition trapframe : list (string * Z) := [
  ("edi", 4); ("esi", 4); ("ebp", 4); ("oesp", 4); ("ebx", 4); ("edx", 4); ("ecx", 4); ("eax", 4);
  ("gs", 2); ("padding1", 2); ("fs", 2); ("padding2", 2); ("es", 2); ("padding3", 2); ("ds", 2); ("padding4", 2);
  ("trapno", 4); ("err", 4); ("eip", 4); ("cs", 2); ("padding5", 2); ("eflags", 4);
  ("esp", 4); ("ss", 2); ("padding6", 2)].
Definition context_regs : list (string * Z) := [("edi", 4); ("esi", 4); ("ebx", 4); ("ebp", 4); ("eip", 4)].

Fixpoint sizeof (l : list (string * Z)) : Z := match l with [] => 0 | (_, n) :: l' => n + sizeof l' end.
Fixpoint offset (f : string) (l : list (string * Z)) : Z :=
  match l with [] => 0 | (g, n) :: l' => if String.eqb f g then 0 else n + offset f l' end.

Definition sizeof_trapframe : Z := sizeof trapframe.
Definition sizeof_context : Z := sizeof context_regs.
Definition context_eip : Z := offset "eip" context_regs.
Definition tf_eax : Z := offset "eax" trapframe.
Definition tf_es : Z := offset "es" trapframe.
Definition tf_ds : Z := offset "ds" trapframe.
Definition tf_eip : Z := offset "eip" trapframe.
Definition tf_cs : Z := offset "cs" trapframe.
Definition tf_eflags : Z := offset "eflags" trapframe.
Definition tf_esp : Z := offset "esp" trapframe.
Definition tf_ss : Z := offset "ss" trapframe.

(** The layout the assembly code of trapasm.S and swtch.S pushes. *)
Lemma layout : sizeof_trapframe = 76 /\ tf_eax = 28 /\ tf_eip = 56 /\ tf_esp = 68 /\ sizeof_context = 20 /\ context_eip = 16.
Proof. repeat split. Qed.

(** A store to a [ushort] field. *)
Definition st16 (a v : Z) : M Kalloc.kmem unit :=
  modify (fun s => Kalloc.set_mm (<[a + 1 := u8 (Z.shiftr v 8)]> (<[a := u8 v]> (Kalloc.mm s))) s).

Definition allocproc (trapret forkret : Z) : M kst (option nat) :=
  acquire PTABLE ;!
  let! t := gets ptab in
  match alloc_entry t with
  | None => release PTABLE ;! ret None
  | Some (i, t') =>
      modify (set_ptab t') ;!
      release PTABLE ;!
      let! k := mem_op Kalloc.kalloc in
      on_proc i (fun p => set_stack k (tf p) (context p) p) ;!
      if k =? 0 then on_proc i (set_state UNUSED) ;! ret None
      else
        let sp := k + KSTACKSIZE in
        let sp := sp - sizeof_trapframe in
        on_proc i (fun p => set_stack k sp (context p) p) ;!
        let sp := sp - 4 in
        mem_op (Vm.st sp trapret) ;!
        let sp := sp - sizeof_context in
        on_proc i (fun p => set_stack k (tf p) sp p) ;!
        mem_op (Vm.memset sp 0 sizeof_context) ;!
        mem_op (Vm.st (sp + context_eip) forkret) ;!
        ret (Some i)
  end.

(** What the process code calls in the file layer. *)
Class FileRefs := {
  filedup : nat -> M kst nat; idup : nat -> M kst nat; fileclose : nat -> M kst unit;
  iput : nat -> M kst unit; namei_root : M kst (option nat); initlog : M kst unit }.

(** The switch to the scheduler and all that runs until it switches back to
    process [me]: other processes, other CPUs, interrupts. *)
Class Switch := { swtch : nat -> M kst unit }.

Definition SEG_UCODE : Z := 4.
Definition SEG_UDATA : Z := 5.
Definition DPL_USER : Z := 3.
Definition FL_IF : Z := 512.

(** [init] and [size] are the symbols of the linked-in initcode. *)
Definition userinit `{FileRefs} (trapret forkret init size : Z) : M kst unit :=
  let! p := allocproc trapret forkret in
  modify (set_initproc p) ;!
  match p with
  | None => wild "userinit: no process"
  | Some i =>
      let! d := mem_op Vm.setupkvm in
      on_proc i (fun p => set_vm d (sz p) p) ;!
      if d =? 0 then panic "userinit: out of memory?"
      else
        mem_op (Vm.inituvm d init size) ;!
        on_proc i (set_vm d PGSIZE) ;!
        let! p := get_proc i in
        let ds := Z.lor (Z.shiftl SEG_UDATA 3) DPL_USER in
        mem_op (Vm.memset (tf p) 0 sizeof_trapframe ;!
                st16 (tf p + tf_cs) (Z.lor (Z.shiftl SEG_UCODE 3) DPL_USER) ;!
                st16 (tf p + tf_ds) ds ;!
                st16 (tf p + tf_es) ds ;!
                st16 (tf p + tf_ss) ds ;!
                Vm.st (tf p + tf_eflags) FL_IF ;!
                Vm.st (tf p + tf_esp) PGSIZE ;!
                Vm.st (tf p + tf_eip) 0) ;!
        on_proc i (set_name [105; 110; 105; 116; 99; 111; 100; 101]) ;!
        let! c := namei_root in
        on_proc i (fun p => set_files (ofile p) c p) ;!
        on_proc i (set_state RUNNABLE)
  end.

(** [growproc] for the process [me]; [switchuvm] only reloads registers. *)
Definition growproc (me : nat) (n : Z) : M kst Z :=
  let! p := get_proc me in
  let commit s := on_proc me (set_vm (pgdir p) s) ;! ret 0 in
  if n >? 0 then
    let! s := mem_op (Vm.allocuvm (pgdir p) (sz p) (u32 (sz p + n))) in
    if s =? 0 then ret (-1) else commit s
  else if n <? 0 then
    let! s := mem_op (Vm.deallocuvm (pgdir p) (sz p) (u32 (sz p + n))) in
    if s =? 0 then ret (-1) else commit s
  else commit (sz p).

(** The loop of [fork] over the files: a null entry of the parent leaves the
    child's entry as it is. *)
Fixpoint dup_files `{FileRefs} (l old : list (option nat)) : M kst (list (option nat)) :=
  match l, old with
  | None :: l', o :: old' => let! r := dup_files l' old' in ret (o :: r)
  | Some f :: l', _ :: old' => let! g := filedup f in let! r := dup_files l' old' in ret (Some g :: r)
  | _, _ => ret []
  end.

Definition fork `{FileRefs} (trapret forkret : Z) (me : nat) : M kst Z :=
  let! np := allocproc trapret forkret in
  match np with
  | None => ret (-1)
  | Some np =>
      let! p := get_proc me in
      let! d := mem_op (Vm.copyuvm (pgdir p) (sz p)) in
      on_proc np (fun q => set_vm d (sz q) q) ;!
      let! q := get_proc np in
      if d =? 0 then
        mem_op (Kalloc.kfree (kstack q)) ;!
        on_proc np (fun q => set_stack 0 (tf q) (context q) q) ;!
        on_proc np (set_state UNUSED) ;!
        ret (-1)
      else
        on_proc np (set_vm d (sz p)) ;!
        on_proc np (set_parent (Some me)) ;!
        mem_op (Vm.memmove (tf q) (tf p) sizeof_trapframe) ;!
        mem_op (Vm.st (tf q + tf_eax) 0) ;!
        let! fs := dup_files (ofile p) (ofile q) in
        on_proc np (fun q => set_files fs (cwd q) q) ;!
        match cwd p with
        | None => wild "fork: no current directory"
        | Some c =>
            let! c' := idup c in
            on_proc np (fun q => set_files (ofile q) (Some c') q) ;!
            on_proc np (set_state RUNNABLE) ;!
            on_proc np (set_name (take 15 (name p))) ;!
            ret (pid q)
        end
  end.

Definition sched `{Switch} (me : nat) : M kst unit :=
  let! h := gets (fun s => held s PTABLE) in
  let! c := gets cpu in
  let! p := get_proc me in
  if negb h then panic "sched ptable.lock"
  else if negb (Spinlock.ncli c =? 1) then panic "sched locks"
  else if is_state RUNNING p then panic "sched running"
  else if Spinlock.ifl c then panic "sched interruptible"
  else
    swtch me ;!
    modify (fun s => set_cpu {| Spinlock.ncli := Spinlock.ncli (cpu s); Spinlock.intena := Spinlock.intena c;
                                Spinlock.ifl := Spinlock.ifl (cpu s) |} s).

Definition yield `{Switch} (me : nat) : M kst unit :=
  acquire PTABLE ;!
  modify (fun s => set_ptab (yield_entry me (ptab s)) s) ;!
  sched me ;!
  release PTABLE.

Definition forkret `{FileRefs} : M kst unit :=
  release PTABLE ;!
  let! f := gets first_run in
  when f (modify (set_first_run false) ;! initlog).

(** [sleep]: [me] is [proc] and [lk] the lock, either of which may be null. *)
Definition sleep `{Switch} (me : option nat) (ch : option chan) (lk : option lock) : M kst unit :=
  match me, lk with
  | None, _ => panic "sleep"
  | Some _, None => panic "sleep without lk"
  | Some me, Some l =>
      when (negb (bool_decide (l = PTABLE))) (acquire PTABLE ;! release l) ;!
      modify (fun s => set_ptab (sleep_entry ch me (ptab s)) s) ;!
      sched me ;!
      on_proc me (set_pchan None) ;!
      when (negb (bool_decide (l = PTABLE))) (release PTABLE ;! acquire l)
  end.

(** The turn of the loop of [exit] for descriptor [fd]. *)
Definition close_fd `{FileRefs} (me fd : nat) : M kst unit :=
  let! p := get_proc me in
  match ofile p !! fd with
  | Some (Some f) => fileclose f ;! on_proc me (fun p => set_files (<[fd := None]> (ofile p)) (cwd p) p)
  | _ => ret tt
  end.

Definition exit `{FileRefs, Switch} (me : nat) : M kst unit :=
  let! i := gets initproc in
  if bool_decide (i = Some me) then panic "init exiting"
  else
    forM (seq 0 NOFILE) (close_fd me) ;!
    let! p := get_proc me in
    match cwd p, i with
    | Some c, Some init =>
        iput c ;!
        on_proc me (fun p => set_files (ofile p) None p) ;!
        acquire PTABLE ;!
        modify (fun s => set_ptab (exit_entry me init (ptab s)) s) ;!
        sched me ;!
        panic "zombie exit"
    | _, _ => wild "exit: no current directory or no init"
    end.

(** The loop of [wait], for at most [n] sleeps. *)
Fixpoint wait_loop `{Switch} (n : nat) (me : nat) : M kst Z :=
  let! t := gets ptab in
  match wait_scan me t with
  | Reaped i t' =>
      let! p := get_proc i in
      mem_op (Kalloc.kfree (kstack p)) ;!
      mem_op (Vm.freevm (pgdir p)) ;!
      modify (set_ptab t') ;!
      release PTABLE ;!
      ret (pid p)
  | NoChildren => release PTABLE ;! ret (-1)
  | MustSleep =>
      match n with
      | O => nofuel
      | S n' => sleep (Some me) (Some (CProc me)) (Some PTABLE) ;! wait_loop n' me
      end
  end.

Definition wait `{Switch} (n me : nat) : M kst Z := acquire PTABLE ;! wait_loop n me.

Definition wakeup (ch : option chan) : M kst unit :=
  acquire PTABLE ;! modify (fun s => set_ptab (wakeup1 ch (ptab s)) s) ;! release PTABLE.

Definition kill (n : Z) : M kst Z :=
  acquire PTABLE ;!
  let! t := gets ptab in
  match kill_entry n t with
  | Some t' => modify (set_ptab t') ;! release PTABLE ;! ret 0
  | None => release PTABLE ;! ret (-1)
  end.

End Ops.

Arguments kst : clear implicits.
Arguments FileRefs : clear implicits.
Arguments Switch : clear implicits.

(** ** The table under any number of CPUs *)

(** [cur c] is [proc] of CPU [c]; [forking i] is the entry process [i] has taken
    in [allocproc] and not yet published or given back in [fork]. *)
Record system := Sys { tab : table; cur : nat -> option nat; forking : nat -> option nat }.

(** The entry [userinit] makes. *)
Definition INIT : nat := 0.

Definition is_wait_chan (ch : option chan) : bool := match ch with Some (CProc _) => true | _ => false end.

(** One locked section, on behalf of the process running on a CPU, of the
    scheduler of an idle CPU, or of an interrupt handler.  Only [wait] sleeps on
    a process. *)
Inductive sys_step : system -> system -> Prop :=
  | sys_dispatch c i k t cur fk :
      cur c = None -> scheduler_step k t = (Some i, S k) ->
      sys_step (Sys t cur fk) (Sys (set_proc i (set_state RUNNING) t) (<[c := Some i]> cur) fk)
  | sys_yield c i t cur fk :
      cur c = Some i -> sys_step (Sys t cur fk) (Sys (yield_entry i t) (<[c := None]> cur) fk)
  | sys_sleep c i ch t cur fk :
      cur c = Some i -> is_wait_chan ch = false ->
      sys_step (Sys t cur fk) (Sys (sleep_entry ch i t) (<[c := None]> cur) fk)
  | sys_resume c i t cur fk :
      cur c = Some i -> sys_step (Sys t cur fk) (Sys (set_proc i (set_pchan None) t) cur fk)
  | sys_wakeup ch t cur fk : sys_step (Sys t cur fk) (Sys (wakeup1 ch t) cur fk)
  | sys_kill n t t' cur fk : kill_entry n t = Some t' -> sys_step (Sys t cur fk) (Sys t' cur fk)
  | sys_alloc c i j t t' cur fk :
      cur c = Some i -> fk i = None -> alloc_entry t = Some (j, t') ->
      sys_step (Sys t cur fk) (Sys t' cur (<[i := Some j]> fk))
  | sys_fork_fail c i j t cur fk :
      cur c = Some i -> fk i = Some j ->
      sys_step (Sys t cur fk) (Sys (set_proc j (set_state UNUSED) t) cur (<[i := None]> fk))
  | sys_fork_ok c i j t cur fk :
      cur c = Some i -> fk i = Some j ->
      sys_step (Sys t cur fk)
        (Sys (set_proc j (fun q => set_state RUNNABLE (set_parent (Some i) q)) t) cur (<[i := None]> fk))
  | sys_exit c i t cur fk :
      cur c = Some i -> fk i = None -> i <> INIT ->
      sys_step (Sys t cur fk) (Sys (exit_entry i INIT t) (<[c := None]> cur) fk)
  | sys_wait_reap c i j t t' cur fk :
      cur c = Some i -> fk i = None -> wait_scan i t = Reaped j t' -> sys_step (Sys t cur fk) (Sys t' cur fk)
  | sys_wait_sleep c i t cur fk :
      cur c = Some i -> fk i = None -> wait_scan i t = MustSleep ->
      sys_step (Sys t cur fk) (Sys (sleep_entry (Some (CProc i)) i t) (<[c := None]> cur) fk).

Definition zero_proc : proc :=
  {| sz := 0; pgdir := 0; kstack := 0; state := UNUSED; pid := 0; parent := None; tf := 0; context := 0;
     pchan := None; killed := false; ofile := replicate NOFILE None; cwd := None; name := [] |}.

(** The table after [userinit]. *)
Definition boot : system :=
  Sys {| procs := set_state RUNNABLE (set_pid 1 zero_proc) :: replicate 63 zero_proc; nextpid := 2 |}
      (fun _ => None) (fun _ => None).

Definition reachable : system -> Prop := rtc sys_step boot.

(** Reached while [nextpid] has not wrapped around: by fewer than 2^31 - 2 calls of
    [allocproc] that found an entry. *)
Definition early : system -> Prop := rtc (fun s s' => sys_step s s' /\ 0 < nextpid (tab s')) boot.

(** ** Invariants of the table *)

Definition live (p : proc) : Prop := state p = SLEEPING \/ state p = RUNNABLE \/ state p = RUNNING.

(** [RUNNING] says that the process is on a CPU, and on one only. *)
Record on_cpu (t : table) (cur : nat -> option nat) : Prop := {
  oc_len : length (procs t) = NPROC;
  oc_run c i : cur c = Some i -> exists p, procs t !! i = Some p /\ state p = RUNNING;
  oc_one c c' i : cur c = Some i -> cur c' = Some i -> c = c';
  oc_cpu i p : procs t !! i = Some p -> state p = RUNNING -> exists c, cur c = Some i }.

Record pids_ok (t : table) : Prop := {
  po_next : 0 < nextpid t <= 2 ^ 31 - 1;
  po_range i p : procs t !! i = Some p -> state p <> UNUSED -> 0 < pid p < nextpid t;
  po_inj i j p q : procs t !! i = Some p -> procs t !! j = Some q -> state p <> UNUSED -> state q <> UNUSED ->
    pid p = pid q -> i = j }.

(** The tree below init: a parent is alive; a process asleep in [wait] has no
    child to collect. *)
Record tree (t : table) (fk : nat -> option nat) : Prop := {
  tr_init : exists p, procs t !! INIT = Some p /\ live p /\ parent p = None;
  tr_root i p : procs t !! i = Some p -> parent p = None -> i = INIT \/ state p = UNUSED \/ state p = EMBRYO;
  tr_par i p q : procs t !! i = Some p -> parent p = Some q ->
    (q <> i /\ (live p \/ state p = ZOMBIE)) /\ exists r, procs t !! q = Some r /\ live r;
  tr_wait i p q : procs t !! i = Some p -> state p = SLEEPING -> pchan p = Some (CProc q) ->
    q = i /\ forall j z, procs t !! j = Some z -> parent z = Some i -> state z <> ZOMBIE;
  tr_fork i j : fk i = Some j ->
    (exists p, procs t !! i = Some p /\ live p) /\ exists e, procs t !! j = Some e /\ state e = EMBRYO;
  tr_fone i i' j : fk i = Some j -> fk i' = Some j -> i = i' }.

(** *** The locked sections, entry by entry *)

Lemma lookup_set_proc i f t j :
  procs (set_proc i f t) !! j = if decide (i = j) then f <$> procs t !! j else procs t !! j.
Proof.
  cbn [set_proc procs]. case_decide as E; [subst; apply list_lookup_alter_eq|by apply list_lookup_alter_ne].
Qed.

Lemma lookup_wakeup1 ch t j : procs (wakeup1 ch t) !! j = wake_one ch <$> procs t !! j.
Proof. apply list_lookup_fmap. Qed.

Lemma first_Some f l k i : first f l k = Some i ->
  exists j p, i = (k + j)%nat /\ l !! j = Some p /\ f p = true.
Proof.
  revert k. induction l as [|p l IH]; intros k; cbn [first]; [done|]. destruct (f p) eqn:F.
  - intros [= <-]. exists 0%nat, p. repeat split; [lia|done].
  - intros (j & q & -> & Hj & Hq)%IH. exists (S j), q. repeat split; [lia|done..].
Qed.

Lemma first_None f l k : first f l k = None -> forall j p, l !! j = Some p -> f p = false.
Proof.
  revert k. induction l as [|p l IH]; intros k; cbn [first]; [done|].
  destruct (f p) eqn:F; [done|]. intros Hn [|j] q; cbn; [by intros [= <-]|eauto].
Qed.

Lemma first_at f l i : first f l 0 = Some i -> exists p, l !! i = Some p /\ f p = true.
Proof. intros (j & p & -> & ? & ?)%first_Some. eauto. Qed.

Lemma is_state_true x p : is_state x p = true <-> state p = x.
Proof. apply bool_decide_eq_true. Qed.

(** A step that only wakes: entries keep pid, parent and channel. *)
Definition woken (p p' : proc) : Prop :=
  pid p' = pid p /\ parent p' = parent p /\ pchan p' = pchan p /\
  (state p' = state p \/ state p = SLEEPING /\ state p' = RUNNABLE).

Definition wakes (t t' : table) : Prop :=
  nextpid t' = nextpid t /\ length (procs t') = length (procs t) /\
  forall i p', procs t' !! i = Some p' -> exists p, procs t !! i = Some p /\ woken p p'.

Lemma wake_one_woken ch p : woken p (wake_one ch p).
Proof.
  unfold wake_one. destruct (is_state SLEEPING p) eqn:E; cbn [andb]; [|by repeat split; left].
  apply is_state_true in E. case_bool_decide; [|by repeat split; left]. repeat split. by right.
Qed.

Lemma wakeup1_wakes ch t : wakes t (wakeup1 ch t).
Proof.
  split; [done|]. split; [apply length_fmap|]. intros i p'. rewrite lookup_wakeup1.
  intros (p & -> & ->)%fmap_Some. exists p. split; [done|]. apply wake_one_woken.
Qed.

Lemma kill_entry_wakes n t t' : kill_entry n t = Some t' -> wakes t t'.
Proof.
  unfold kill_entry. intros (i & Hi & [= <-])%bind_Some. split; [done|].
  split; [apply length_alter|]. intros j p'. rewrite lookup_set_proc.
  case_decide; [|intros; exists p'; split; [done|by repeat split; left]].
  intros (p & -> & ->)%fmap_Some. exists p. split; [done|].
  destruct (is_state SLEEPING (set_killed true p)) eqn:E; [|by repeat split; left].
  apply is_state_true in E. repeat split. by right.
Qed.

(** A woken entry is found from the old side as well. *)
Lemma wakes_lookup t t' i p : wakes t t' -> procs t !! i = Some p -> exists p', procs t' !! i = Some p' /\ woken p p'.
Proof.
  intros (_ & Hl & Hw) Hi. assert (is_Some (procs t' !! i)) as [p' Hp'].
  { apply lookup_lt_is_Some. rewrite Hl. by eapply lookup_lt_Some. }
  exists p'. split; [done|]. destruct (Hw _ _ Hp') as (q & Hq & W). congruence.
Qed.

Lemma woken_live p p' : woken p p' -> live p -> live p'.
Proof. unfold woken, live. intuition congruence. Qed.

(** *** Preservation *)

(** Look up an entry of a table in which one entry was changed. *)
Ltac entry H := rewrite lookup_set_proc in H; case_decide; [apply fmap_Some in H as (? & ? & ->)|]; subst.
Ltac entries := repeat match goal with H : procs (set_proc _ _ _) !! _ = Some _ |- _ => entry H end.

Lemma set_proc_at i f t p : procs t !! i = Some p -> procs (set_proc i f t) !! i = Some (f p).
Proof. intros E. rewrite lookup_set_proc, decide_True by done. by rewrite E. Qed.

Lemma set_proc_other i f t j : i <> j -> procs (set_proc i f t) !! j = procs t !! j.
Proof. intros. by rewrite lookup_set_proc, decide_False by done. Qed.

Lemma length_set_proc i f t : length (procs (set_proc i f t)) = length (procs t).
Proof. apply length_alter. Qed.

Lemma on_cpu_wakes t t' cur : wakes t t' -> on_cpu t cur -> on_cpu t' cur.
Proof.
  intros W [L R O C]. constructor; [|intros c i Hc|done|intros i p' Hi Hs].
  - destruct W as (_ & -> & _). done.
  - destruct (R _ _ Hc) as (p & Hp & Hr). destruct (wakes_lookup _ _ _ _ W Hp) as (p' & Hp' & _ & _ & _ & Hs).
    exists p'. split; [done|]. intuition congruence.
  - destruct W as (_ & _ & W). destruct (W _ _ Hi) as (p & Hp & _ & _ & _ & Hst).
    apply (C i p); [done|]. intuition congruence.
Qed.

Lemma pids_wakes (fresh : Prop) t t' : wakes t t' -> (fresh -> pids_ok t) -> fresh -> pids_ok t'.
Proof.
  intros (Hn & _ & W) P Fr. destruct (P Fr) as [N R I].
  assert (U : forall i p', procs t' !! i = Some p' -> state p' <> UNUSED ->
    exists p, procs t !! i = Some p /\ state p <> UNUSED /\ pid p' = pid p).
  { intros i p' Hi Hs. destruct (W _ _ Hi) as (p & Hp & E & _ & _ & Hst). exists p. intuition congruence. }
  constructor; rewrite ?Hn; [done|..].
  - intros i p' Hi Hs. destruct (U _ _ Hi Hs) as (p & Hp & Hs' & ->). eauto.
  - intros i j p' q' Hi Hj Hs Hs' E. destruct (U _ _ Hi Hs) as (p & ? & ? & ?), (U _ _ Hj Hs') as (q & ? & ? & ?).
    apply (I i j p q); congruence.
Qed.

Lemma tree_wakes t t' fk : wakes t t' -> tree t fk -> tree t' fk.
Proof.
  intros W [N R P Wt F O]. pose proof W as (_ & _ & B).
  assert (Lv : forall i, (exists p, procs t !! i = Some p /\ live p) -> exists p, procs t' !! i = Some p /\ live p).
  { intros i (p & Hp & L). destruct (wakes_lookup _ _ _ _ W Hp) as (p' & ? & K). eauto using woken_live. }
  constructor.
  - destruct N as (p & Hp & L & E). destruct (wakes_lookup _ _ _ _ W Hp) as (p' & ? & K). exists p'.
    split; [done|]. split; [by eapply woken_live|]. destruct K as (_ & -> & _). done.
  - intros i p' Hi E. destruct (B _ _ Hi) as (p & Hp & _ & Ep & _ & S). rewrite Ep in E.
    destruct (R _ _ Hp E); intuition congruence.
  - intros i p' q Hi E. destruct (B _ _ Hi) as (p & Hp & K). pose proof K as (_ & Ep & _ & S). rewrite Ep in E.
    destruct (P _ _ _ Hp E) as [[Ne Z] L]. split; [|auto]. split; [done|].
    destruct Z; [left; by eapply woken_live|right; intuition congruence].
  - intros i p' q Hi S C. destruct (B _ _ Hi) as (p & Hp & _ & _ & Ec & Sp). rewrite Ec in C.
    destruct (Wt i p q Hp) as [-> Z]; [intuition congruence|done|]. split; [done|].
    intros j z' Hj E. destruct (B _ _ Hj) as (z & Hz & _ & Ez & _ & Sz). rewrite Ez in E.
    specialize (Z _ _ Hz E). intuition congruence.
  - intros i j E. destruct (F _ _ E) as [L (e & He & Se)]. split; [auto|].
    destruct (wakes_lookup _ _ _ _ W He) as (e' & ? & _ & _ & _ & S). exists e'. intuition congruence.
  - done.
Qed.

Lemma on_cpu_keep t cur i f p : procs t !! i = Some p -> (state (f p) = RUNNING <-> state p = RUNNING) ->
  on_cpu t cur -> on_cpu (set_proc i f t) cur.
Proof.
  intros Hi Hf [L R O C]. constructor; [by rewrite length_set_proc| |done|].
  - intros c j Hc. destruct (R _ _ Hc) as (q & Hq & Hs). destruct (decide (i = j)) as [<-|].
    + exists (f p). split; [by apply set_proc_at|]. apply Hf. congruence.
    + exists q. by rewrite set_proc_other.
  - intros j q Hj Hs. entries; [|eauto]. apply (C _ p Hi). apply Hf. congruence.
Qed.

Lemma on_cpu_leave t cur c i f p : procs t !! i = Some p -> cur c = Some i -> state (f p) <> RUNNING ->
  on_cpu t cur -> on_cpu (set_proc i f t) (<[c := None]> cur).
Proof.
  intros Hi Hc Hf [L R O C]. constructor.
  - by rewrite length_set_proc.
  - intros c' j Hc'. destruct (decide (c = c')) as [<-|]; [by rewrite fn_lookup_insert in Hc'|].
    rewrite fn_lookup_insert_ne in Hc' by done. destruct (R _ _ Hc') as (q & Hq & Hs). exists q.
    rewrite set_proc_other; [done|]. intros <-. by specialize (O _ _ _ Hc Hc').
  - intros c1 c2 j. destruct (decide (c = c1)) as [<-|]; [by rewrite fn_lookup_insert|].
    destruct (decide (c = c2)) as [<-|]; [by rewrite fn_lookup_insert|].
    rewrite !fn_lookup_insert_ne by done. apply O.
  - intros j q Hj Hs. entries; [congruence|]. destruct (C _ _ Hj Hs) as [c' Hc']. exists c'.
    rewrite fn_lookup_insert_ne; [done|]. intros <-. congruence.
Qed.

Lemma on_cpu_enter t cur c i f p : procs t !! i = Some p -> cur c = None -> state p <> RUNNING ->
  state (f p) = RUNNING -> on_cpu t cur -> on_cpu (set_proc i f t) (<[c := Some i]> cur).
Proof.
  intros Hi Hc Hp Hf [L R O C].
  assert (N : forall c', cur c' <> Some i) by (intros c' (q & ? & ?)%R; congruence). constructor.
  - by rewrite length_set_proc.
  - intros c' j. destruct (decide (c = c')) as [<-|].
    + rewrite fn_lookup_insert. intros [= <-]. exists (f p). split; [by apply set_proc_at|done].
    + rewrite fn_lookup_insert_ne by done. intros E. destruct (R _ _ E) as (q & ? & ?). exists q.
      rewrite set_proc_other; [done|]. intros <-. by apply (N c').
  - intros c1 c2 j. destruct (decide (c = c1)) as [<-|], (decide (c = c2)) as [<-|];
      rewrite ?fn_lookup_insert, ?fn_lookup_insert_ne by done; [done|..|apply O].
    + intros [= <-] E. by apply N in E.
    + intros E [= <-]. by apply N in E.
  - intros j q Hj Hs. entries; [exists c; by rewrite fn_lookup_insert|].
    destruct (C _ _ Hj Hs) as [c' Hc']. exists c'. rewrite fn_lookup_insert_ne; [done|]. intros <-. congruence.
Qed.

Lemma pids_set (fresh : Prop) t i f p : procs t !! i = Some p ->
  state (f p) = UNUSED \/ state p <> UNUSED /\ pid (f p) = pid p -> (fresh -> pids_ok t) -> fresh -> pids_ok (set_proc i f t).
Proof.
  intros Hi Hf P Fr. destruct (P Fr) as [N R I]. constructor; [done|..].
  - intros j q Hj Hs. entries; [|by eapply R]. assert (x = p) as -> by congruence.
    destruct Hf as [|[? E]]; [done|]. cbn [set_proc nextpid]. rewrite E. by eapply R.
  - assert (Old : forall j q, procs (set_proc i f t) !! j = Some q -> state q <> UNUSED ->
      exists q0, procs t !! j = Some q0 /\ state q0 <> UNUSED /\ pid q = pid q0).
    { intros j q Hj Hs. entries; [|by exists q]. assert (x = p) as -> by congruence.
      destruct Hf as [|[? ?]]; [done|]. by exists p. }
    intros j k q r Hj Hk Hs Hr E.
    destruct (Old _ _ Hj Hs) as (? & ? & ? & ?), (Old _ _ Hk Hr) as (? & ? & ? & ?).
    eapply I; [eassumption..|congruence].
Qed.

(** A live entry stays live. *)
Lemma tree_live t fk i f p : procs t !! i = Some p -> live p -> live (f p) -> parent (f p) = parent p ->
  (forall q, state (f p) = SLEEPING -> pchan (f p) = Some (CProc q) ->
    q = i /\ forall j z, procs t !! j = Some z -> parent z = Some i -> state z <> ZOMBIE) ->
  tree t fk -> tree (set_proc i f t) fk.
Proof.
  intros Hi Lp Lf Ep Hw [N R P Wt F O].
  assert (Lv : forall j, (exists q, procs t !! j = Some q /\ live q) ->
    exists q, procs (set_proc i f t) !! j = Some q /\ live q).
  { intros j (q & Hq & L). destruct (decide (i = j)) as [<-|].
    - exists (f p). split; [by apply set_proc_at|done].
    - exists q. by rewrite set_proc_other. }
  assert (Z : forall j, (forall k z, procs t !! k = Some z -> parent z = Some j -> state z <> ZOMBIE) ->
    forall k z, procs (set_proc i f t) !! k = Some z -> parent z = Some j -> state z <> ZOMBIE).
  { intros j Hz k z Hk E. entries; [|by eapply Hz]. assert (x = p) as -> by congruence.
    destruct Lf as [E1 | [E1 | E1]]; by rewrite E1. }
  constructor; [| | | | |done].
  - destruct N as (q & Hq & L & E). destruct (decide (i = INIT)) as [->|].
    + exists (f p). split; [by apply set_proc_at|]. split; [done|]. congruence.
    + exists q. by rewrite set_proc_other.
  - intros j q Hj E. entries; [|by eapply R]. assert (x = p) as -> by congruence.
    destruct (R _ _ Hi) as [|S]; [congruence|by left|]. destruct Lp, S; intuition congruence.
  - intros j q r Hj E. entries.
    + assert (x = p) as -> by congruence. destruct (P _ _ r Hi) as [[? ?] ?]; [congruence|].
      split; [split; [done|by left]|auto].
    + destruct (P _ _ _ Hj E) as [? ?]. auto.
  - intros j q r Hj S C. entries.
    + assert (x = p) as -> by congruence. destruct (Hw _ S C) as [-> ?]. split; [done|]. by apply Z.
    + destruct (Wt _ _ _ Hj S C) as [-> ?]. split; [done|]. by apply Z.
  - intros j k E. destruct (F _ _ E) as [L (e & He & Se)]. split; [auto|]. exists e.
    rewrite set_proc_other; [done|]. intros <-. assert (e = p) as -> by congruence.
    destruct Lp as [|[|]]; congruence.
Qed.

(** An entry that is no process yet, or no longer: it is nobody's parent. *)
Lemma tree_not_parent t fk i p j q : tree t fk -> procs t !! i = Some p -> ~ live p ->
  procs t !! j = Some q -> parent q <> Some i.
Proof. intros T Hi L Hj E. destruct (tr_par _ _ T _ _ _ Hj E) as [_ (r & ? & ?)]. congruence. Qed.

Lemma set_proc_live t i f p j : procs t !! i = Some p -> ~ live p ->
  (exists q, procs t !! j = Some q /\ live q) -> exists q, procs (set_proc i f t) !! j = Some q /\ live q.
Proof. intros Hi L (q & Hq & Lq). exists q. rewrite set_proc_other; [done|]. congruence. Qed.

(** An entry without a process becomes or stays one without a process:
    [allocproc] taking it, [fork] giving it back, [wait] freeing it. *)
Lemma tree_vacant t fk fk' i f p : procs t !! i = Some p -> ~ live p ->
  state (f p) = UNUSED \/ state (f p) = EMBRYO -> parent (f p) = None ->
  (forall a b, fk' a = Some b -> fk a = Some b /\ b <> i \/
     b = i /\ state (f p) = EMBRYO /\ exists q, procs t !! a = Some q /\ live q) ->
  (forall a a' b, fk' a = Some b -> fk' a' = Some b -> a = a') ->
  tree t fk -> tree (set_proc i f t) fk'.
Proof.
  intros Hi L Sf Ef Hfk Hone T. pose proof T as [N R P Wt F O].
  pose proof (fun j => set_proc_live t i f p j Hi L) as Lv. constructor; [| | | | |done].
  - destruct N as (q & Hq & Lq & E). exists q. rewrite set_proc_other; [done|]. congruence.
  - intros j q Hj E. entries; [|by eapply R]. assert (x = p) as -> by congruence. auto.
  - intros j q r Hj E. entries; [assert (x = p) as -> by congruence; congruence|].
    destruct (P _ _ _ Hj E). auto.
  - intros j q r Hj S C. entries; [assert (x = p) as -> by congruence; destruct Sf; congruence|].
    destruct (Wt _ _ _ Hj S C) as [-> Z]. split; [done|]. intros k z Hk E. entries; [|by eapply Z].
    assert (x = p) as -> by congruence. congruence.
  - intros a b E. destruct (Hfk _ _ E) as [[E' Hb]|(-> & Se & La)].
    + destruct (F _ _ E') as [La (e & He & Se)]. split; [auto|]. exists e. by rewrite set_proc_other.
    + split; [auto|]. exists (f p). split; [by apply set_proc_at|done].
Qed.

(** [fork] publishes the entry it has filled in. *)
Lemma tree_publish t fk i j : fk i = Some j -> tree t fk ->
  tree (set_proc j (fun q => set_state RUNNABLE (set_parent (Some i) q)) t) (<[i := None]> fk).
Proof.
  intros Hf T. pose proof T as [N R P Wt F O]. destruct (F _ _ Hf) as [Li (e & He & Se)].
  assert (Ne : ~ live e) by (unfold live; rewrite Se; intuition congruence).
  pose proof (fun k g => set_proc_live t j g e k He Ne) as Lv. constructor.
  - destruct N as (q & Hq & Lq & E). exists q. rewrite set_proc_other; [done|]. congruence.
  - intros k q Hk E. entries; [done|by eapply R].
  - intros k q r Hk E. entries.
    + injection E as <-. split; [|auto]. split; [|left; right; by left]. intros ->. destruct Li as (? & ? & ?). congruence.
    + destruct (P _ _ _ Hk E). auto.
  - intros k q r Hk S C. entries; [done|]. destruct (Wt _ _ _ Hk S C) as [-> Z]. split; [done|].
    intros l z Hl E. entries; [done|by eapply Z].
  - intros a b. destruct (decide (i = a)) as [<-|]; [by rewrite fn_lookup_insert|].
    rewrite fn_lookup_insert_ne by done. intros E. destruct (F _ _ E) as [La (x & Hx & Sx)]. split; [auto|].
    exists x. rewrite set_proc_other; [done|]. intros <-. by pose proof (O _ _ _ Hf E).
  - intros a a' b. destruct (decide (i = a)) as [<-|]; [by rewrite fn_lookup_insert|].
    destruct (decide (i = a')) as [<-|]; [by rewrite fn_lookup_insert|].
    rewrite !fn_lookup_insert_ne by done. apply O.
Qed.

(** No process sleeps in [wait] on [q]. *)
Definition awake (q : nat) (t : table) : Prop :=
  forall i p, procs t !! i = Some p -> state p = SLEEPING -> pchan p <> Some (CProc q).

Lemma awake_wakeup1 q t : awake q (wakeup1 (Some (CProc q)) t).
Proof.
  intros i p'. rewrite lookup_wakeup1. intros (p & _ & ->)%fmap_Some. unfold wake_one.
  destruct (is_state SLEEPING p) eqn:E; cbn [andb].
  - by case_bool_decide.
  - intros S%is_state_true. congruence.
Qed.

Lemma awake_wakes q t t' : wakes t t' -> awake q t -> awake q t'.
Proof.
  intros (_ & _ & W) A i p' Hi S C. destruct (W _ _ Hi) as (p & Hp & _ & _ & Ec & Sp).
  apply (A i p Hp); [intuition congruence|congruence].
Qed.

Lemma awake_set_parent q x i t : awake q t -> awake q (set_proc i (set_parent x) t).
Proof. intros A j p Hj S C. entries; [by eapply (A j)|by eapply A]. Qed.

(** A child is given to init; if it is a zombie, init must not be asleep. *)
Lemma tree_adopt t fk i p me : procs t !! i = Some p -> parent p = Some me ->
  (state p = ZOMBIE -> awake INIT t) -> tree t fk -> tree (set_proc i (set_parent (Some INIT)) t) fk.
Proof.
  intros Hi E Hz [N R P Wt F O]. destruct (P _ _ _ Hi E) as [[_ Sp] _].
  assert (Ni : i <> INIT) by (intros ->; destruct N as (? & ? & _ & ?); congruence).
  assert (Lv : forall j, (exists q, procs t !! j = Some q /\ live q) ->
    exists q, procs (set_proc i (set_parent (Some INIT)) t) !! j = Some q /\ live q).
  { intros j (q & Hq & L). destruct (decide (i = j)) as [<-|].
    - exists (set_parent (Some INIT) q). split; [by apply set_proc_at|done].
    - exists q. by rewrite set_proc_other. }
  constructor; [| | | | |done].
  - destruct N as (q & Hq & L & Eq). exists q. by rewrite set_proc_other.
  - intros j q Hj Eq. entries; [done|by eapply R].
  - intros j q r Hj Eq. entries.
    + injection Eq as <-. assert (x = p) as -> by congruence. split; [done|]. apply Lv.
      destruct N as (q & ? & ? & _). eauto.
    + destruct (P _ _ _ Hj Eq). auto.
  - assert (Old : forall j q r, procs t !! j = Some q -> state q = SLEEPING -> pchan q = Some (CProc r) ->
      r = j /\ forall k z, procs (set_proc i (set_parent (Some INIT)) t) !! k = Some z ->
        parent z = Some j -> state z <> ZOMBIE).
    { intros j q r Hj S C. destruct (Wt _ _ _ Hj S C) as [-> Z]. split; [done|].
      intros k z Hk Eq Sz. entries; [|by eapply Z]. injection Eq as <-.
      assert (x = p) as -> by congruence. by apply (Hz Sz _ _ Hj S). }
    intros j q r Hj S C. entries; by eapply Old.
  - intros a b Ef. destruct (F _ _ Ef) as [L (e & He & Se)]. split; [auto|]. exists e.
    rewrite set_proc_other; [done|]. intros <-. assert (e = p) as -> by congruence.
    unfold live in Sp. intuition congruence.
Qed.

(** The last step of [exit]. *)
Lemma tree_zombie t fk me p : procs t !! me = Some p -> live p -> me <> INIT -> fk me = None ->
  (forall j r, procs t !! j = Some r -> parent r <> Some me) ->
  (forall q, parent p = Some q -> awake q t) ->
  tree t fk -> tree (set_proc me (set_state ZOMBIE) t) fk.
Proof.
  intros Hi L Ni Hfk Hc Ha [N R P Wt F O].
  assert (Lv : forall j, j <> me -> (exists q, procs t !! j = Some q /\ live q) ->
    exists q, procs (set_proc me (set_state ZOMBIE) t) !! j = Some q /\ live q).
  { intros j Hj (q & Hq & Lq). exists q. by rewrite set_proc_other. }
  constructor; [| | | | |done].
  - destruct N as (q & Hq & Lq & Eq). exists q. by rewrite set_proc_other.
  - intros j q Hj Eq. entries; [|by eapply R]. assert (x = p) as -> by congruence.
    destruct (R _ _ Hi Eq); [done|]. unfold live in L. intuition congruence.
  - intros j q r Hj Eq. entries.
    + assert (x = p) as -> by congruence. destruct (P _ _ _ Hi Eq) as [[? _] ?].
      split; [split; [done|by right]|]. by apply Lv.
    + destruct (P _ _ _ Hj Eq) as [? ?]. split; [done|]. apply Lv; [|done]. intros ->. by eapply Hc.
  - intros j q r Hj S C. entries; [done|]. destruct (Wt _ _ _ Hj S C) as [-> Z]. split; [done|].
    intros k z Hk Eq. entries; [|by eapply Z]. assert (x = p) as -> by congruence. by destruct (Ha _ Eq _ _ Hj S).
  - intros a b Ef. destruct (F _ _ Ef) as [La (e & He & Se)]. split; [apply Lv; [congruence|done]|].
    exists e. rewrite set_proc_other; [done|]. intros <-. unfold live in L. intuition congruence.
Qed.

Section Steps.
(** Whether [nextpid] has not wrapped around yet. *)
Context (fresh : Prop).

Record inv (s : system) : Prop := {
  inv_cpu : on_cpu (tab s) (cur s); inv_pids : fresh -> pids_ok (tab s); inv_tree : tree (tab s) (forking s) }.

Lemma inv_wakes t t' cur fk : wakes t t' -> inv (Sys t cur fk) -> inv (Sys t' cur fk).
Proof.
  intros W [A B C]. constructor; cbn in *.
  - by eapply on_cpu_wakes. - by eapply pids_wakes. - by eapply tree_wakes.
Qed.

(** A change of one live entry that keeps it alive. *)
Lemma inv_live t cur cur' fk i f p : procs t !! i = Some p -> live p -> live (f p) -> parent (f p) = parent p ->
  pid (f p) = pid p -> on_cpu (set_proc i f t) cur' ->
  (forall q, state (f p) = SLEEPING -> pchan (f p) = Some (CProc q) ->
    q = i /\ forall j z, procs t !! j = Some z -> parent z = Some i -> state z <> ZOMBIE) ->
  inv (Sys t cur fk) -> inv (Sys (set_proc i f t) cur' fk).
Proof.
  intros Hi L Lf E Ep O Hw [A B C]. constructor; cbn in *; [done| |by eapply tree_live].
  eapply pids_set; [done| |done]. right. split; [|done]. intros U. unfold live in L. intuition congruence.
Qed.

Lemma wakeup1_set_parent ch i x t :
  wakeup1 ch (set_proc i (set_parent x) t) = set_proc i (set_parent x) (wakeup1 ch t).
Proof.
  unfold wakeup1, set_proc. cbn [procs nextpid]. f_equal. apply list_eq. intros j.
  rewrite list_lookup_fmap. destruct (decide (i = j)) as [<-|].
  - rewrite !list_lookup_alter_eq, list_lookup_fmap. destruct (procs t !! i) as [p|]; cbn; [|done].
    f_equal. unfold wake_one. change (is_state SLEEPING (set_parent x p)) with (is_state SLEEPING p).
    cbn [set_parent pchan]. by destruct (_ && _).
  - by rewrite !list_lookup_alter_ne, list_lookup_fmap by done.
Qed.

Lemma inv_adopt t cur fk i p me : procs t !! i = Some p -> parent p = Some me ->
  (state p = ZOMBIE -> awake INIT t) -> inv (Sys t cur fk) ->
  inv (Sys (set_proc i (set_parent (Some INIT)) t) cur fk).
Proof.
  intros Hi E Hz [A B C]. constructor; cbn in *.
  - by eapply on_cpu_keep.
  - destruct (tr_par _ _ C _ _ _ Hi E) as [[_ S] _]. eapply pids_set; [done| |done]. right. split; [|done].
    unfold live in S. intuition congruence.
  - by eapply tree_adopt.
Qed.

(** What the loop of [exit] keeps, up to entry [k]: the entry of the process
    itself, who is awake, and the children it has not come to yet. *)
Record handing (t : table) (cur fk : nat -> option nat) (me : nat) (p : proc) (done : nat -> Prop) : Prop := {
  ha_inv : inv (Sys t cur fk);
  ha_me : procs t !! me = Some p;
  ha_awake q : parent p = Some q -> awake q t;
  ha_left j r : procs t !! j = Some r -> parent r = Some me -> ~ done j }.

Lemma reparent_ok t cur fk me p D i : me <> INIT -> state p = RUNNING -> handing t cur fk me p D ->
  handing (reparent me INIT i t) cur fk me p (fun j => D j \/ j = i).
Proof.
  intros Nme Sp [I Hme A L]. unfold reparent.
  assert (Skip : (forall x, procs t !! i = Some x -> parent x <> Some me) ->
    handing t cur fk me p (fun j => D j \/ j = i)).
  { intros Hn. constructor; [done..|]. intros j r Hj E [Hd | ->]; [by eapply L|by eapply Hn]. }
  destruct (procs t !! i) as [x|] eqn:Hi; [|by apply Skip]. case_bool_decide as E.
  2:{ apply Skip. by intros y [= <-]. }
  destruct (tr_par _ _ (inv_tree _ I) _ _ _ Hi E) as [[Ne _] _].
  assert (H : forall t1, inv (Sys t1 cur fk) -> wakes t t1 -> procs t1 !! me = Some p ->
    (state x = ZOMBIE -> awake INIT t1) ->
    handing (set_proc i (set_parent (Some INIT)) t1) cur fk me p (fun j => D j \/ j = i)).
  { intros t1 I1 W Hme1 Hz. destruct (wakes_lookup _ _ _ _ W Hi) as (x1 & Hx1 & Wx).
    pose proof Wx as (_ & Ep & _ & Sx). constructor.
    - eapply (inv_adopt _ _ _ _ x1 me); [done|congruence| |done]. intros Z. apply Hz. intuition congruence.
    - rewrite set_proc_other; [done|congruence].
    - intros q Hq. apply awake_set_parent. eapply awake_wakes; [done|auto].
    - intros j r Hj Er. entries; [cbn in Er; congruence|]. intros [Hd | ->]; [|done].
      destruct W as (_ & _ & W). destruct (W _ _ Hj) as (r0 & Hr0 & _ & E0 & _).
      apply (L j r0); [done|congruence|done]. }
  destruct (is_state ZOMBIE x) eqn:Z.
  - rewrite wakeup1_set_parent. apply H; [|apply wakeup1_wakes| |intros _; apply awake_wakeup1].
    + eapply inv_wakes; [apply wakeup1_wakes|done].
    + rewrite lookup_wakeup1, Hme. cbn. f_equal. unfold wake_one, is_state. by rewrite bool_decide_false by congruence.
  - apply H; [done| |done|].
    + split; [done|]. split; [done|]. intros j y Hj. exists y. split; [done|]. repeat split. by left.
    + intros S. apply is_state_true in S. congruence.
Qed.

Lemma reparent_all_ok t cur fk me p l D : me <> INIT -> state p = RUNNING -> handing t cur fk me p D ->
  handing (reparent_all me INIT l t) cur fk me p (fun j => D j \/ j ∈ l).
Proof.
  intros Nme Sp. revert t D. induction l as [|i l IH]; intros t D Hh; cbn [reparent_all].
  - destruct Hh as [I M A L]. constructor; [done..|]. intros j r Hj E [Hd|Hd]; [by eapply L|set_solver].
  - apply (reparent_ok _ _ _ _ _ _ i Nme Sp), IH in Hh. destruct Hh as [I M A L].
    constructor; [done..|]. intros j r Hj E Hd. apply (L j r Hj E). set_solver.
Qed.

(** Before [exit] sets the state: every child has been given away. *)
Lemma handed_over_ok c t cur fk me p D : me <> INIT -> cur c = Some me -> fk me = None -> state p = RUNNING ->
  handing t cur fk me p D -> (forall j, (j < NPROC)%nat -> D j) ->
  inv (Sys (set_proc me (set_state ZOMBIE) t) (<[c := None]> cur) fk).
Proof.
  intros Nme Hc Hf Sp [[C P T] M A L] Hd. cbn [tab Proc.cur forking] in C, P, T.
  constructor; cbn [tab Proc.cur forking].
  - by eapply on_cpu_leave.
  - eapply pids_set; [done| |done]. right. split; [congruence|done].
  - eapply tree_zombie; [done|right; by right|done..| |done|done].
    intros j r Hj E. apply (L j r Hj E), Hd. rewrite <- (oc_len _ _ C). by eapply lookup_lt_Some.
Qed.

Lemma seq_all n j : (j < n)%nat -> False \/ j ∈ seq 0 n.
Proof. intros. right. apply elem_of_seq. lia. Qed.

Lemma exit_ok c t cur fk me : me <> INIT -> cur c = Some me -> fk me = None -> inv (Sys t cur fk) ->
  inv (Sys (exit_entry me INIT t) (<[c := None]> cur) fk).
Proof.
  intros Nme Hc Hf I. destruct (oc_run _ _ (inv_cpu _ I) _ _ Hc) as (p & Hp & Sp).
  unfold exit_entry. cbn [tab] in Hp. rewrite Hp.
  assert (Hh : handing (wakeup1 (CProc <$> parent p) t) cur fk me p (fun _ => False)).
  { constructor; [eapply inv_wakes; [apply wakeup1_wakes|done]| | |intros ? ? ? ? []].
    - rewrite lookup_wakeup1, Hp. cbn. f_equal. unfold wake_one, is_state.
      by rewrite bool_decide_false by congruence.
    - intros q Hq. rewrite Hq. apply awake_wakeup1. }
  exact (handed_over_ok c _ _ _ _ _ _ Nme Hc Hf Sp (reparent_all_ok _ _ _ _ _ (seq 0 NPROC) _ Nme Sp Hh) (seq_all NPROC)).
Qed.

(** [allocproc] takes a free entry and the next pid. *)
Lemma alloc_ok c i j t t' cur fk : cur c = Some i -> fk i = None -> (fresh -> 0 < nextpid t') ->
  alloc_entry t = Some (j, t') -> inv (Sys t cur fk) -> inv (Sys t' cur (<[i := Some j]> fk)).
Proof.
  intros Hc Hf Hn (k & Hk & [= -> <-])%bind_Some I.
  apply first_at in Hk as (e & He & Se%is_state_true).
  destruct (oc_run _ _ (inv_cpu _ I) _ _ Hc) as (p & Hp & Sp). destruct I as [C P T]. cbn in C, P, T, Hp.
  set (f := fun p => set_pid (nextpid t) (set_state EMBRYO p)).
  assert (Ne : ~ live e) by (unfold live; rewrite Se; intuition congruence).
  assert (Free : forall a, fk a <> Some j).
  { intros a (_ & x & ? & ?)%(tr_fork _ _ T). congruence. }
  constructor; cbn [tab Proc.cur forking].
  - assert (O : on_cpu (set_proc j f t) cur) by (eapply on_cpu_keep; [done|cbn; split; congruence|done]).
    destruct O. by constructor.
  - intros Fr. specialize (P Fr). specialize (Hn Fr). cbn [nextpid] in Hn. pose proof (po_next _ P) as [N0 N1].
    assert (Lt : nextpid t <> 2 ^ 31 - 1) by (intros E; rewrite E in Hn; done).
    assert (En : s32 (nextpid t + 1) = nextpid t + 1) by (apply s32_small; lia).
    rewrite En. constructor; cbn [nextpid]; [lia|..].
    + intros a q Ha Sq. change (procs (set_proc j f t) !! a = Some q) in Ha. entries; [cbn; lia|].
      pose proof (po_range _ P _ _ Ha Sq). lia.
    + intros a b q r Ha Hb Sq Sr Eq. change (procs (set_proc j f t) !! a = Some q) in Ha.
      change (procs (set_proc j f t) !! b = Some r) in Hb. entry Ha; entry Hb; [done|..|by eapply (po_inj _ P)].
      * pose proof (po_range _ P _ _ Hb Sr). cbn in Eq. lia.
      * pose proof (po_range _ P _ _ Ha Sq). cbn in Eq. lia.
  - assert (Tr : tree (set_proc j f t) (<[i := Some j]> fk)).
    { eapply tree_vacant; [done|done|by right| | | |done].
      - cbn. destruct (parent e) as [q|] eqn:Ee; [|done].
        destruct (tr_par _ _ T _ _ _ He Ee) as [[_ [|]] _]; [done|congruence].
      - intros a b. destruct (decide (i = a)) as [<-|].
        + rewrite fn_lookup_insert. intros [= <-]. right. split; [done|]. split; [done|].
          exists p. split; [done|right; by right].
        + rewrite fn_lookup_insert_ne by done. intros E. left. split; [done|]. intros ->. by apply (Free a).
      - intros a a' b. destruct (decide (i = a)) as [<-|], (decide (i = a')) as [<-|];
          rewrite ?fn_lookup_insert, ?fn_lookup_insert_ne by done; [done|..|apply (tr_fone _ _ T)].
        + intros [= <-] E. by apply Free in E.
        + intros E [= <-]. by apply Free in E. }
    destruct Tr. by constructor.
Qed.

Lemma running_live p : state p = RUNNING -> live p.
Proof. intros. right. by right. Qed.

Lemma wait_scan_reaped me t j t' : wait_scan me t = Reaped j t' ->
  exists z, procs t !! j = Some z /\ parent z = Some me /\ state z = ZOMBIE /\ t' = set_proc j reap t.
Proof.
  unfold wait_scan. destruct (first (zombie_child me) _ _) as [i|] eqn:F.
  - intros [= -> <-]. apply first_at in F as (z & Hz & [E%bool_decide_eq_true S%is_state_true]%andb_prop). eauto.
  - intros E. exfalso. destruct (first (child me) (procs t) 0); [|discriminate]. destruct (procs t !! me) as [p|]; [|discriminate].
    destruct (killed p); discriminate.
Qed.

Lemma wait_scan_sleep me t : wait_scan me t = MustSleep ->
  forall j z, procs t !! j = Some z -> parent z = Some me -> state z <> ZOMBIE.
Proof.
  unfold wait_scan. destruct (first (zombie_child me) _ _) as [i|] eqn:F; [done|]. intros _ j z Hj E S.
  pose proof (first_None _ _ _ F _ _ Hj) as N. unfold zombie_child, is_state in N.
  by rewrite !bool_decide_true in N by done.
Qed.

Lemma fork_done_ok i fk t : tree t fk ->
  (forall a b, (<[i := None]> fk : nat -> option nat) a = Some b -> fk a = Some b /\ forall j, fk i = Some j -> b <> j) /\
  (forall a a' b, (<[i := None]> fk : nat -> option nat) a = Some b ->
     (<[i := None]> fk : nat -> option nat) a' = Some b -> a = a').
Proof.
  intros T. assert (H : forall a b, (<[i := None]> fk : nat -> option nat) a = Some b -> fk a = Some b /\ a <> i).
  { intros a b. destruct (decide (i = a)) as [<-|]; [by rewrite fn_lookup_insert|].
    rewrite fn_lookup_insert_ne by done. intros E. split; [done|congruence]. }
  split.
  - intros a b [E N]%H. split; [done|]. intros j Hj ->. by apply N, (tr_fone _ _ T _ _ _ E).
  - intros a a' b [E _]%H [E' _]%H. by eapply (tr_fone _ _ T).
Qed.

Lemma fork_fail_ok c i j t cur fk : cur c = Some i -> fk i = Some j -> inv (Sys t cur fk) ->
  inv (Sys (set_proc j (set_state UNUSED) t) cur (<[i := None]> fk)).
Proof.
  intros Hc Hf [C P T]. cbn [tab Proc.cur forking] in C, P, T. destruct (tr_fork _ _ T _ _ Hf) as (_ & e & He & Se).
  assert (Ne : ~ live e) by (unfold live; rewrite Se; intuition congruence).
  destruct (fork_done_ok i fk t T) as [F1 F2]. constructor; cbn [tab Proc.cur forking].
  - eapply on_cpu_keep; [done|cbn; split; congruence|done].
  - eapply pids_set; [done|by left|done].
  - eapply tree_vacant; [done|done|by left| | |exact F2|done].
    + cbn. destruct (parent e) as [q|] eqn:Ee; [|done].
      destruct (tr_par _ _ T _ _ _ He Ee) as [[_ [|]] _]; [done|congruence].
    + intros a b [E N]%F1. left. split; [done|]. by apply N.
Qed.

Lemma fork_ok_ok c i j t cur fk : cur c = Some i -> fk i = Some j -> inv (Sys t cur fk) ->
  inv (Sys (set_proc j (fun q => set_state RUNNABLE (set_parent (Some i) q)) t) cur (<[i := None]> fk)).
Proof.
  intros Hc Hf [C P T]. cbn [tab Proc.cur forking] in C, P, T. destruct (tr_fork _ _ T _ _ Hf) as (_ & e & He & Se).
  constructor; cbn [tab Proc.cur forking].
  - eapply on_cpu_keep; [done|cbn; split; congruence|done].
  - eapply pids_set; [done| |done]. right. split; [congruence|done].
  - by apply tree_publish.
Qed.

Lemma wait_reap_ok i j t t' cur fk : wait_scan i t = Reaped j t' -> inv (Sys t cur fk) -> inv (Sys t' cur fk).
Proof.
  intros (z & Hz & E & S & ->)%wait_scan_reaped [C P T]. cbn [tab Proc.cur forking] in C, P, T.
  assert (Nz : ~ live z) by (unfold live; rewrite S; intuition congruence).
  constructor; cbn [tab Proc.cur forking].
  - eapply on_cpu_keep; [done|cbn; split; congruence|done].
  - eapply pids_set; [done|by left|done].
  - eapply tree_vacant; [done|done|by left|done| |apply (tr_fone _ _ T)|done].
    intros a b Hab. left. split; [done|]. intros ->. destruct (tr_fork _ _ T _ _ Hab) as (_ & e & ? & ?). congruence.
Qed.

Lemma scheduler_step_picks k t i k' : scheduler_step k t = (Some i, k') ->
  exists p, procs t !! i = Some p /\ state p = RUNNABLE.
Proof.
  unfold scheduler_step. destruct (procs t !! k) as [p|] eqn:E; [|done].
  destruct (is_state RUNNABLE p) eqn:S; [|done]. intros [= <- _]. apply is_state_true in S. eauto.
Qed.

Lemma sys_step_inv s s' : sys_step s s' -> (fresh -> 0 < nextpid (tab s')) -> inv s -> inv s'.
Proof.
  intros St Fr I.
  assert (Run : forall c i, cur s c = Some i -> exists p, procs (tab s) !! i = Some p /\ state p = RUNNING /\ live p).
  { intros c i (p & Hp & Sp)%(oc_run _ _ (inv_cpu _ I)). exists p. auto using running_live. }
  pose proof (inv_cpu _ I) as O. destruct St; cbn [tab Proc.cur forking] in *.
  - destruct (scheduler_step_picks _ _ _ _ H0) as (p & Hp & Sp).
    eapply inv_live; [done|right; by left|by apply running_live|done..| |done|done].
    eapply on_cpu_enter; [done..|congruence|done|done].
  - destruct (Run _ _ H) as (p & Hp & Sp & L).
    eapply inv_live; [done|done|right; by left|done..| |done|done]. by eapply on_cpu_leave.
  - destruct (Run _ _ H) as (p & Hp & Sp & L).
    eapply inv_live; [done|done|by left|done..| | |done]; [by eapply on_cpu_leave|].
    cbn. intros q _ ->. done.
  - destruct (Run _ _ H) as (p & Hp & Sp & L).
    eapply inv_live; [done|done|done|done..| | |done]; [by eapply on_cpu_keep|]. cbn. congruence.
  - eapply inv_wakes; [apply wakeup1_wakes|done].
  - eapply inv_wakes; [by eapply kill_entry_wakes|done].
  - by eapply alloc_ok.
  - by eapply fork_fail_ok.
  - by eapply fork_ok_ok.
  - by apply exit_ok.
  - by eapply wait_reap_ok.
  - destruct (Run _ _ H) as (p & Hp & Sp & L).
    eapply inv_live; [done|done|by left|done..| | |done]; [by eapply on_cpu_leave|].
    cbn. intros q _ [= <-]. split; [done|]. by apply wait_scan_sleep.
Qed.

Lemma boot_entry i p : procs (tab boot) !! i = Some p ->
  i = INIT /\ p = set_state RUNNABLE (set_pid 1 zero_proc) \/ p = zero_proc.
Proof.
  destruct i as [|i]; cbn [tab boot procs lookup list_lookup].
  - intros [= <-]. by left.
  - intros [-> _]%lookup_replicate. by right.
Qed.

Lemma boot_inv : inv boot.
Proof.
  constructor; constructor; try done.
  - intros i p [[_ ->]| ->]%boot_entry; done.
  - intros i p [[_ ->]| ->]%boot_entry Hs; cbn in *; [lia|done].
  - intros i j p q [[-> ->]| ->]%boot_entry [[-> ->]| ->]%boot_entry; done.
  - eexists. split; [reflexivity|]. split; [right; by left|done].
  - intros i p [[-> ->]| ->]%boot_entry; auto.
  - intros i p q [[-> ->]| ->]%boot_entry; done.
  - intros i p q [[-> ->]| ->]%boot_entry; done.
Qed.

End Steps.

Lemma reachable_inv s : reachable s -> inv False s.
Proof.
  apply (rtc_ind_r (fun s => inv False s) boot); [apply boot_inv|]. intros y z _ St I. by eapply sys_step_inv.
Qed.

Lemma early_inv s : early s -> inv True s.
Proof.
  apply (rtc_ind_r (fun s => inv True s) boot); [apply boot_inv|]. intros y z _ [St N] I. by eapply sys_step_inv.
Qed.

(** ** Properties *)

(** C31: In every state the CPUs can reach, a table entry is [RUNNING] exactly
    when some CPU runs it, and no process runs on two CPUs.  As long as [nextpid] has
    not overflowed ([early]), no two entries in use share a pid; later pids can
    repeat. *)
Theorem runs_on_one_cpu s : reachable s ->
  (forall i p, procs (tab s) !! i = Some p -> state p = RUNNING <-> exists c, cur s c = Some i) /\
  (forall c c' i, cur s c = Some i -> cur s c' = Some i -> c = c') /\
  (early s -> forall i j p q, procs (tab s) !! i = Some p -> procs (tab s) !! j = Some q ->
     state p <> UNUSED -> state q <> UNUSED -> pid p = pid q -> i = j).
Proof.
  intros [C _ _]%reachable_inv. split; [|split; [apply (oc_one _ _ C)|]].
  - intros i p Hp. split; [by apply (oc_cpu _ _ C)|]. intros [c Hc].
    destruct (oc_run _ _ C _ _ Hc) as (q & Hq & Sq). congruence.
  - intros E. apply (po_inj _ (inv_pids _ _ (early_inv s E) I)).
Qed.

(** C7: No exited process is forgotten.  In every reachable state the parent of
    a zombie is alive and is not asleep in [wait], and a scan of [wait] by that
    parent finds a zombie to free. *)
Theorem zombie_collected s i z : reachable s -> procs (tab s) !! i = Some z -> state z = ZOMBIE ->
  exists q r, parent z = Some q /\ procs (tab s) !! q = Some r /\ live r /\
    ~ (state r = SLEEPING /\ pchan r = Some (CProc q)) /\
    exists j t', wait_scan q (tab s) = Reaped j t'.
Proof.
  intros [_ _ T]%reachable_inv Hi Sz. destruct (parent z) as [q|] eqn:E.
  2:{ destruct (tr_root _ _ T _ _ Hi E) as [-> |[|]]; [|congruence..].
      destruct (tr_init _ _ T) as (p & Hp & [|[|]] & _); congruence. }
  destruct (tr_par _ _ T _ _ _ Hi E) as [_ (r & Hr & L)]. exists q, r. repeat (split; [done|]). split.
  - intros [S C]. destruct (tr_wait _ _ T _ _ _ Hr S C) as [_ N]. exact (N _ _ Hi E Sz).
  - unfold wait_scan. destruct (first (zombie_child q) (procs (tab s)) 0) as [j|] eqn:F; [eauto|].
    pose proof (first_None _ _ _ F _ _ Hi) as N. unfold zombie_child, is_state in N.
    by rewrite !bool_decide_true in N by done.
Qed.

(** The decisions of one scheduler over the tables it finds, turn by turn. *)
Fixpoint scan (k : nat) (ts : list table) : list (option nat) :=
  match ts with
  | [] => []
  | t :: ts' => let '(d, k') := scheduler_step k t in d :: scan k' ts'
  end.

(** How many turns from entry [k] to entry [i]. *)
Lemma scan_reaches k i ts n : (i < NPROC)%nat -> (k <= NPROC)%nat ->
  (forall t, t ∈ ts -> length (procs t) = NPROC /\ exists p, procs t !! i = Some p /\ state p = RUNNABLE) ->
  length ts = S n -> (if decide (k <= i) then i - k <= n else NPROC - k + 1 + i <= n)%nat ->
  Some i ∈ scan k ts.
Proof.
  revert k n. induction ts as [|t ts IH]; intros k n Hi Hk Ht Hl Hd; [done|]. cbn [scan].
  destruct (Ht t) as (Lt & p & Hp & Sp); [set_solver|]. injection Hl as Hl. unfold scheduler_step.
  destruct (decide (k = i)) as [->|Ne].
  { rewrite Hp. unfold is_state. rewrite bool_decide_true by done. set_solver. }
  assert (Rest : forall k', (k' <= NPROC)%nat ->
    (if decide (k' <= i) then i - k' < n else NPROC - k' + 1 + i < n)%nat -> Some i ∈ scan k' ts).
  { intros k' Hk' Hd'. destruct n as [|n]; [destruct (decide (k' <= i)%nat); lia|].
    apply (IH k' n); [done..|set_solver|done|]. destruct (decide (k' <= i)%nat); lia. }
  destruct (procs t !! k) as [q|] eqn:Hq.
  - apply lookup_lt_Some in Hq. assert (Some i ∈ scan (S k) ts).
    { apply Rest; [lia|]. destruct (decide (k <= i)%nat), (decide (S k <= i)%nat); lia. }
    destruct (is_state RUNNABLE q); set_solver.
  - apply lookup_ge_None in Hq. apply list_elem_of_further, Rest; [lia|].
    destruct (decide (k <= i)%nat), (decide (0 <= i)%nat); lia.
Qed.

(** C37: The scheduler starves nobody: wherever its loop stands and whatever the
    rest of the system does to the table meanwhile, a process that stays
    [RUNNABLE] is chosen within one turn of the loop per table entry plus one. *)
Theorem scheduler_fair k i ts : (i < NPROC)%nat -> (k <= NPROC)%nat ->
  (forall t, t ∈ ts -> length (procs t) = NPROC /\ exists p, procs t !! i = Some p /\ state p = RUNNABLE) ->
  length ts = S NPROC -> Some i ∈ scan k ts.
Proof.
  intros Hi Hk Ht Hl. apply (scan_reaches k i ts NPROC); [done..|]. destruct (decide (k <= i)%nat); lia.
Qed.

Section Sleeping.
Context `{DataSegment} {F : Type} `{!Switch F}.

(** The state in which [sleep] leaves the CPU. *)
Definition asleep (ch : option chan) (me : nat) (l : lock) (s : kst F) : kst F :=
  set_ptab (sleep_entry ch me (ptab s))
    (set_cpu (Spinlock.Cpu (Spinlock.ncli (cpu s)) (Spinlock.intena (cpu s)) false)
       (set_held l false (set_held PTABLE true s))).

Lemma acquire_free l (s : kst F) : held s l = false ->
  acquire l s = Done tt (set_held l true (set_cpu (Spinlock.pushcli (cpu s)) s)).
Proof. intros E. unfold acquire, bind, modify, gets. cbn. by rewrite E. Qed.

Lemma release_held l (s : kst F) : held s l = true -> Spinlock.ifl (cpu s) = false -> 1 <= Spinlock.ncli (cpu s) ->
  release l s = Done tt (set_cpu (Spinlock.Cpu (Spinlock.ncli (cpu s) - 1) (Spinlock.intena (cpu s))
    ((Spinlock.ncli (cpu s) =? 1) && Spinlock.intena (cpu s))) (set_held l false s)).
Proof.
  intros E Fl N. unfold release, bind, modify, gets, zoom. rewrite E. cbn. unfold Spinlock.popcli. rewrite Fl.
  replace (Spinlock.ncli (cpu s) - 1 <? 0) with false by lia.
  replace (Spinlock.ncli (cpu s) - 1 =? 0) with (Spinlock.ncli (cpu s) =? 1) by lia. by destruct (_ && _).
Qed.

Lemma sleep_to_sched ch me l (s : kst F) : l <> PTABLE -> held s l = true -> held s PTABLE = false ->
  Spinlock.ifl (cpu s) = false -> 1 <= Spinlock.ncli (cpu s) ->
  sleep (Some me) ch (Some l) s =
    (sched me ;! on_proc me (set_pchan None) ;! release PTABLE ;! acquire l) (asleep ch me l s).
Proof.
  intros Nl Hl Hp Hi Hn. unfold sleep. rewrite bool_decide_false by done. cbn [negb when].
  set (s1 := set_held PTABLE true (set_cpu (Spinlock.pushcli (cpu s)) s)).
  assert (E1 : (acquire PTABLE ;! release l) s = release l s1)
    by (exact (bind_Done _ _ _ _ _ (acquire_free _ _ Hp))).
  rewrite release_held in E1; [|by cbn; rewrite fn_lookup_insert_ne by done|done|cbn; lia].
  rewrite (bind_Done _ _ _ _ _ E1). unfold bind at 1, modify. f_equal. unfold asleep, set_ptab, set_cpu, set_held. cbn.
  replace (Spinlock.ncli (cpu s) + 1 =? 1) with false by lia. replace (Spinlock.ncli (cpu s) =? 0) with false by lia.
  cbn. by replace (Spinlock.ncli (cpu s) + 1 - 1) with (Spinlock.ncli (cpu s)) by lia.
Qed.

(** Where [sleep] calls [sched], only the count of locks can be wrong. *)
Lemma sched_asleep ch me l (s : kst F) p : procs (ptab s) !! me = Some p -> l <> PTABLE ->
  sched me (asleep ch me l s) =
    if Spinlock.ncli (cpu s) =? 1 then
      (swtch me ;! modify (fun s' => set_cpu (Spinlock.Cpu (Spinlock.ncli (cpu s'))
        (Spinlock.intena (cpu s)) (Spinlock.ifl (cpu s'))) s')) (asleep ch me l s)
    else Panic "sched locks".
Proof.
  intros Hme Nl.
  assert (Hg : get_proc me (asleep ch me l s) = Done (set_state SLEEPING (set_pchan ch p)) (asleep ch me l s)).
  { unfold get_proc. change (ptab (asleep ch me l s)) with (sleep_entry ch me (ptab s)). unfold sleep_entry.
    by rewrite (set_proc_at _ _ _ _ Hme). }
  unfold sched. unfold bind at 1, gets at 1. unfold bind at 1, gets at 1. rewrite (bind_Done _ _ _ _ _ Hg).
  cbn [asleep held set_ptab set_cpu set_held]. rewrite fn_lookup_insert_ne, fn_lookup_insert by done. cbn.
  by destruct (Spinlock.ncli (cpu s) =? 1).
Qed.

(** C36: [sleep] with a lock other than the table's.  If the CPU holds any other
    lock it panics in [sched].  Otherwise it switches away with the process
    [SLEEPING] on the channel, the table locked and the caller's lock free, and
    when the scheduler comes back it has the caller's lock again and has
    released the table. *)
Theorem sleep_contract ch me l (s : kst F) p : procs (ptab s) !! me = Some p -> l <> PTABLE ->
  held s l = true -> held s PTABLE = false -> Spinlock.ifl (cpu s) = false -> 1 <= Spinlock.ncli (cpu s) ->
  (Spinlock.ncli (cpu s) <> 1 -> sleep (Some me) ch (Some l) s = Panic "sched locks") /\
  (Spinlock.ncli (cpu s) = 1 ->
    held (asleep ch me l s) PTABLE = true /\ held (asleep ch me l s) l = false /\
    forall s', swtch me (asleep ch me l s) = Done tt s' ->
      held s' PTABLE = true -> held s' l = false -> Spinlock.ncli (cpu s') = 1 -> Spinlock.ifl (cpu s') = false ->
      exists s'', sleep (Some me) ch (Some l) s = Done tt s'' /\
        held s'' l = true /\ held s'' PTABLE = false /\ Spinlock.ncli (cpu s'') = 1 /\
        Spinlock.ifl (cpu s'') = false /\ ptab s'' = set_proc me (set_pchan None) (ptab s')).
Proof.
  intros Hme Nl Hl Hp Hi Hn. rewrite sleep_to_sched by done. pose proof (sched_asleep ch me l s p Hme Nl) as E.
  split; intros En.
  - apply bind_Panic. rewrite E. by replace (Spinlock.ncli (cpu s) =? 1) with false by lia.
  - split; [cbn; by rewrite fn_lookup_insert_ne, fn_lookup_insert by done|].
    split; [cbn; by rewrite fn_lookup_insert|]. intros s' Sw K1 K2 K3 K4.
    replace (Spinlock.ncli (cpu s) =? 1) with true in E by lia. rewrite (bind_Done _ _ _ _ _ Sw) in E.
    rewrite (bind_Done _ _ _ _ _ E). unfold bind at 1, on_proc, modify at 1.
    match goal with |- context [bind (release PTABLE) _ ?x] =>
      rewrite (bind_Done _ _ _ _ _ (release_held PTABLE x K1 K4 ltac:(cbn; lia))) end.
    rewrite acquire_free by (cbn; by rewrite fn_lookup_insert_ne by done). eexists. split; [reflexivity|].
    cbn. rewrite K3. rewrite fn_lookup_insert, fn_lookup_insert_ne, fn_lookup_insert by done. done.
Qed.

End Sleeping.

(** ** Where the code falls short *)

(** [kill(0)] finds a free entry, whose pid is 0, and marks it; [allocproc] does
    not clear the mark, so the next process made in that entry starts killed. *)
Theorem kill_zero_hits_free : exists t t' j p,
  kill_entry 0 (tab boot) = Some t /\ alloc_entry t = Some (j, t') /\
  procs t' !! j = Some p /\ state p = EMBRYO /\ pid p = 2 /\ killed p = true.
Proof. do 4 eexists. repeat split; reflexivity. Qed.

(** Giving back all memory is reported as a failure, and the size is left as it
    was although the pages are gone. *)
Theorem growproc_to_zero `{DataSegment} {F} me (s : kst F) p m : procs (ptab s) !! me = Some p -> 0 < sz p < 2 ^ 31 ->
  Vm.deallocuvm (pgdir p) (sz p) 0 (km s) = Done 0 m ->
  growproc me (- sz p) s = Done (-1) (set_km m s).
Proof.
  intros Hp Hz E. unfold growproc, bind at 1, get_proc. rewrite Hp.
  replace (- sz p >? 0) with false by lia. replace (- sz p <? 0) with true by lia.
  replace (u32 (sz p + - sz p)) with 0 by (rewrite Z.add_opp_diag_r; done).
  unfold bind, mem_op, zoom. by rewrite E.
Qed.

(** ** Examples *)

(** init forks and its child exits on the second CPU. *)
Definition forked : table :=
  match alloc_entry (set_proc 0 (set_state RUNNING) (tab boot)) with
  | Some (_, t) => set_proc 1 (fun q => set_state RUNNABLE (set_parent (Some 0%nat) q)) t
  | None => tab boot
  end.
Definition child_exited : system :=
  Sys (exit_entry 1 INIT (set_proc 1 (set_state RUNNING) forked))
      (<[1%nat := None]> (<[1%nat := Some 1%nat]> (<[0%nat := Some 0%nat]> (fun _ => None))))
      (<[0%nat := None]> (<[0%nat := Some 1%nat]> (fun _ => None))).

Lemma child_exited_reachable : reachable child_exited.
Proof.
  eapply rtc_l; [apply (sys_dispatch 0 0 0); reflexivity|].
  eapply rtc_l; [apply (sys_alloc 0 0 1); reflexivity|].
  eapply rtc_l; [apply (sys_fork_ok 0 0 1); reflexivity|].
  eapply rtc_l; [apply (sys_dispatch 1 1 1); reflexivity|].
  eapply rtc_l; [apply (sys_exit 1 1); [reflexivity..|done]|]. apply rtc_refl.
Qed.

Lemma child_exited_zombie : exists z, procs (tab child_exited) !! 1%nat = Some z /\ state z = ZOMBIE.
Proof. vm_compute. eauto. Qed.

Lemma zombie_collected_witness : exists z q r, procs (tab child_exited) !! 1%nat = Some z /\ parent z = Some q /\
  procs (tab child_exited) !! q = Some r /\ live r.
Proof.
  destruct child_exited_zombie as (z & Hz & Sz).
  destruct (zombie_collected child_exited 1 z child_exited_reachable Hz Sz) as (q & r & E & Hr & L & _).
  exists z, q, r. exact (conj Hz (conj E (conj Hr L))).
Defined.

Lemma child_exited_init : exists p, procs (tab child_exited) !! 0%nat = Some p.
Proof. vm_compute. eauto. Qed.

Lemma runs_on_one_cpu_witness : exists p, procs (tab child_exited) !! 0%nat = Some p /\ state p = RUNNING.
Proof.
  destruct child_exited_init as (p & Hp). exists p. split; [exact Hp|].
  apply (proj1 (runs_on_one_cpu child_exited child_exited_reachable) 0%nat p Hp). by exists 0%nat.
Defined.

Lemma scheduler_fair_witness : Some 0%nat ∈ scan 17 (replicate 65 (tab boot)).
Proof.
  apply scheduler_fair; [unfold NPROC; lia..| |reflexivity]. intros t [-> _]%elem_of_replicate.
  split; [reflexivity|]. eexists. split; reflexivity.
Defined.

(** A CPU that runs init, holding one lock, and comes straight back. *)
Definition one_lock : kst unit :=
  {| km := Kalloc.boot; ptab := set_proc 0 (set_state RUNNING) (tab boot); cpu := Spinlock.Cpu 1 true false;
     held := fun l => bool_decide (l = LTicks); initproc := Some INIT; first_run := false; ticks := 0; filest := tt |}.
Definition come_back : Switch unit := {| swtch := fun _ => ret tt |}.

Lemma sleep_contract_witness : exists s'',
  @sleep _ come_back (Some INIT) (Some CTicks) (Some LTicks) one_lock = Done tt s'' /\ held s'' LTicks = true.
Proof.
  destruct (@sleep_contract _ come_back (Some CTicks) INIT LTicks one_lock
    (set_state RUNNING (set_state RUNNABLE (set_pid 1 zero_proc)))) as [_ H];
    [reflexivity|discriminate|reflexivity|reflexivity|reflexivity|reflexivity || (cbn; lia)|].
  destruct (H eq_refl) as (K1 & K2 & K). destruct (K _ eq_refl K1 K2 eq_refl eq_refl) as (s'' & E & E' & _).
  exists s''. exact (conj E E').
Defined.

End Proc.
