(* ===== verification/Fork.v ===== *)
(** * A new process (kernel/proc.c)

    What [allocproc] and [fork] do when there is a free entry and enough memory: the
    entry, the kernel stack, the copy of the parent's memory and registers.  The entry
    under construction is followed from call to call by [child]. *)

From stdpp Require Import functions.
From S2P Require Import Prelude Spinlock KString Kalloc Vm VmCopy Proc.

Module Fork.
Import Kalloc Vm VmCopy Proc.

Section Fork.
Context `{DataSegment} {F : Type}.

(** What a call leaves alone: the locks held, the interrupt state, the rest of the kernel. *)
Record same_env (s s' : kst F) : Prop := {
  se_held l : held s' l = held s l;
  se_ncli : Spinlock.ncli (cpu s') = Spinlock.ncli (cpu s);
  se_ifl : Spinlock.ifl (cpu s') = Spinlock.ifl (cpu s);
  se_init : initproc s' = initproc s;
  se_first : first_run s' = first_run s;
  se_ticks : ticks s' = ticks s }.

#[local] Instance same_env_preorder : PreOrder same_env.
Proof.
  split; [by intros s; split|]. intros s1 s2 s3 [] []. split; [intros l|..]; etrans; eauto.
Qed.

(** Entry [i] of the table of [s0] has become [q], and the kernel's memory is [m]. *)
Record child (s0 : kst F) (i : nat) (q : proc) (m : kmem) (s : kst F) : Prop := {
  ch_procs : procs (ptab s) = <[i := q]> (procs (ptab s0));
  ch_pid : nextpid (ptab s) = s32 (nextpid (ptab s0) + 1);
  ch_mem : km s = m;
  ch_env : same_env s0 s }.

Lemma child_on s0 i q m s f : (i < length (procs (ptab s0)))%nat -> child s0 i q m s ->
  exists s', on_proc i f s = Done tt s' /\ filest s' = filest s /\ child s0 i (f q) m s'.
Proof.
  intros Hi [P N M E]. eexists. split; [reflexivity|]. split; [done|]. constructor; [|exact N|exact M|by destruct E].
  cbn. rewrite P. apply list_eq. intros j. destruct (decide (j = i)) as [->|Hj].
  - by rewrite list_lookup_alter_eq, !list_lookup_insert_eq.
  - rewrite list_lookup_alter_ne, !list_lookup_insert_ne by done. done.
Qed.

Lemma child_mem {A} s0 i q m s (op : M kmem A) a m' : op m = Done a m' -> child s0 i q m s ->
  exists s', mem_op op s = Done a s' /\ filest s' = filest s /\ child s0 i q m' s'.
Proof.
  intros E [P N M En]. exists (set_km m' s). split; [unfold mem_op; apply zoom_Done; by rewrite M|]. split; [done|].
  constructor; [done..|by destruct En].
Qed.

Lemma child_env s0 i q m s s' : child s0 i q m s -> same_env s s' -> km s' = km s -> ptab s' = ptab s -> child s0 i q m s'.
Proof. intros [P N M En] E Ek Ep. constructor; rewrite ?Ek, ?Ep; [done..|by etrans]. Qed.

Lemma child_get s0 i q m s : (i < length (procs (ptab s0)))%nat -> child s0 i q m s -> get_proc i s = Done q s.
Proof. intros Hi C. unfold get_proc. by rewrite (ch_procs _ _ _ _ _ C), list_lookup_insert_eq. Qed.

Lemma child_other s0 i q m s j p : child s0 i q m s -> j <> i -> procs (ptab s0) !! j = Some p -> get_proc j s = Done p s.
Proof. intros C Hj Hp. unfold get_proc. by rewrite (ch_procs _ _ _ _ _ C), list_lookup_insert_ne, Hp. Qed.

(** One call of a sequence on the entry: [Hi] bounds its index, [C] is the state before,
    [Hf] its files. *)
Ltac advance L :=
  let s' := fresh "s" in let E := fresh in let G := fresh in let C' := fresh in
  destruct L as (s' & E & G & C'); rewrite (bind_Done _ _ _ _ _ E); clear E;
  match goal with Hf : filest ?s = _, G : filest s' = filest ?s |- _ => rewrite Hf in G; clear Hf end;
  match goal with C : child _ _ _ _ ?s, C' : child _ _ _ _ s' |- _ => clear C end.
Ltac on_child Hi := match goal with
  | C : child _ ?i _ _ ?s |- context [bind (on_proc ?i ?f) _ ?s] => advance (child_on _ _ _ _ _ f Hi C) end.
Ltac mem_child Em := match goal with
  | C : child _ _ _ _ ?s |- context [bind (mem_op _) _ ?s] => advance (child_mem _ _ _ _ _ _ _ _ Em C) end.
Ltac write_child := match goal with
  | C : child _ _ _ ?m ?s |- context [bind (mem_op ?op) _ ?s] =>
      advance (child_mem _ _ _ _ _ op tt (set_mm _ m) eq_refl C) end.

(** ** The entry and its kernel stack *)

(** The part of [allocproc] with the lock. *)
Lemma alloc_locked s i q0 t : alloc_entry (ptab s) = Some (i, t) -> procs (ptab s) !! i = Some q0 ->
  held s PTABLE = false -> Spinlock.balanced (cpu s) ->
  exists s1 s', acquire PTABLE s = Done tt s1 /\ ptab s1 = ptab s /\ release PTABLE (set_ptab t s1) = Done tt s' /\
    filest s' = filest s /\ child s i (set_pid (nextpid (ptab s)) (set_state EMBRYO q0)) (km s) s'.
Proof.
  intros Ea Hq Hh Hb. destruct (Spinlock.push_pop _ Hb) as (c & Ec & En & Ei).
  set (s1 := set_held PTABLE true (set_cpu (Spinlock.pushcli (cpu s)) s)).
  exists s1, (set_cpu c (set_held PTABLE false (set_ptab t s1))).
  split; [unfold acquire, bind, modify, gets; cbn; by rewrite Hh|]. split; [done|].
  split. { unfold release, bind, gets, modify. cbn. rewrite fn_lookup_insert. apply zoom_Done, Ec. }
  split; [done|]. unfold alloc_entry in Ea. destruct (first _ _ _) as [j|]; [|done]. cbn in Ea. injection Ea as -> <-.
  constructor; [|done..|constructor; [|done..]].
  - cbn. apply list_eq. intros j. destruct (decide (j = i)) as [->|Hj].
    + rewrite list_lookup_alter_eq, Hq, list_lookup_insert_eq by (by eapply lookup_lt_Some). done.
    + by rewrite list_lookup_alter_ne, list_lookup_insert_ne.
  - intros l. cbn. destruct (decide (l = PTABLE)) as [->|Hl]; [by rewrite fn_lookup_insert|by rewrite !fn_lookup_insert_ne].
Qed.

(** The stack of a new process: a return to [forkret], and one from there to [trapret]. *)
Definition stack_ready (trapret forkret : Z) (m : mem) (q : proc) : Prop :=
  load32 m (context q + context_eip) = u32 forkret /\ load32 m (context q + sizeof_context) = u32 trapret.

Definition new_stack (k : Z) (q : proc) : proc :=
  set_stack k (k + KSTACKSIZE - sizeof_trapframe) (k + KSTACKSIZE - sizeof_trapframe - 4 - sizeof_context) q.

Lemma stack_written trapret forkret m k q :
  let sp := k + KSTACKSIZE - sizeof_trapframe - 4 in
  let m' := KString.store32 (sp - sizeof_context + context_eip) forkret
              (KString.memset (sp - sizeof_context) 0 (Z.to_nat sizeof_context) (KString.store32 sp trapret m)) in
  stack_ready trapret forkret m' (new_stack k q) /\ forall b, ~ in_page k b -> m' b = m b.
Proof.
  intros sp m'. assert (Es : sp = k + 4016) by (unfold sp; change sizeof_trapframe with 76; unfold KSTACKSIZE; lia).
  unfold stack_ready. cbn [context new_stack set_stack]. fold sp. change sizeof_context with 20 in *. change context_eip with 16 in *.
  assert (Ms : forall b, b < k + 3996 \/ k + 4016 <= b -> m' b = KString.store32 sp trapret m b).
  { intros b Hb. unfold m'. rewrite store32_other by lia. rewrite (KString.memset_spec _ _ _ _ b). KString.in_range. }
  split; [split|].
  - apply load32_store32.
  - replace (sp - 20 + 20) with sp by lia. rewrite (load32_ext (KString.store32 sp trapret m)); [apply load32_store32|].
    intros j Hj. apply Ms. lia.
  - intros b Hb. unfold in_page, PGSIZE in Hb. rewrite Ms, store32_other by lia. done.
Qed.

Lemma allocproc_ok trapret forkret s i q0 t k l e : alloc_entry (ptab s) = Some (i, t) -> procs (ptab s) !! i = Some q0 ->
  held s PTABLE = false -> Spinlock.balanced (cpu s) -> wf (km s) (k :: l) e ->
  let q := new_stack k (set_pid (nextpid (ptab s)) (set_state EMBRYO q0)) in
  exists m s', allocproc trapret forkret s = Done (Some i) s' /\ filest s' = filest s /\ child s i q m s' /\
    wf m l e /\ data_page m l e k /\ stack_ready trapret forkret (mm m) q /\
    (forall va, pte (mm m) e va = pte (mm (km s)) e va) /\ forall b, ~ in_page k b -> mm m b = mm (km s) b.
Proof.
  intros Ea Hq Hh Hb W q. destruct (alloc_locked s i q0 t Ea Hq Hh Hb) as (s1 & s2 & E1 & Ep & E2 & F2 & C2).
  pose proof (lookup_lt_Some _ _ _ Hq) as Hi.
  destruct (take_data _ _ _ _ W) as (Ek & Hk & W1 & D & _). set (m1 := set_freelist _ _) in *.
  unfold allocproc. rewrite (bind_Done _ _ _ _ _ E1). rewrite (bind_Done (gets ptab) _ s1 (ptab s1) s1) by done. rewrite Ep, Ea.
  rewrite (bind_Done (modify (set_ptab t)) _ s1 tt (set_ptab t s1)) by done. rewrite (bind_Done _ _ _ _ _ E2).
  mem_child Ek. on_child Hi. rewrite Hk. cbv zeta. on_child Hi. write_child. on_child Hi. write_child. write_child.
  eexists _, _. split; [reflexivity|]. split; [done|]. split; [done|].
  destruct (stack_written trapret forkret (mm m1) k (set_pid (nextpid (ptab s)) (set_state EMBRYO q0))) as [R Fr].
  destruct (write_data m1 l e k _ W1 D Fr) as (W2 & _ & P & Q).
  split; [exact W2|]. split; [by apply (Q k)|]. split; [exact R|]. split; [exact P|exact Fr].
Qed.

(** ** The copy *)

(** What [fork] asks of [filedup] and [idup]: they give back the file they are called
    on, and change nothing of the process. *)
Definition keeps_ref (s0 : kst F) (ok : F -> Prop) (op : M (kst F) nat) (f : nat) : Prop :=
  forall s, same_env s0 s -> ok (filest s) ->
    exists s', op s = Done f s' /\ ok (filest s') /\ same_env s s' /\ km s' = km s /\ ptab s' = ptab s.

Lemma keeps_child s0 ok op f i q m s : keeps_ref s0 ok op f -> child s0 i q m s -> ok (filest s) ->
  exists s', op s = Done f s' /\ ok (filest s') /\ child s0 i q m s'.
Proof.
  intros K C Ok. destruct (K s (ch_env _ _ _ _ _ C) Ok) as (s' & E & O & En & Ek & Ep). exists s'. split; [done|]. split; [done|].
  by eapply child_env.
Qed.

Lemma dup_files_ok `{FR : @FileRefs F} s0 ok i q m files old s :
  (forall f, Some f ∈ files -> keeps_ref s0 ok (filedup f) f) -> length old = length files -> Forall (fun o => o = None) old ->
  child s0 i q m s -> ok (filest s) ->
  exists s', dup_files files old s = Done files s' /\ ok (filest s') /\ child s0 i q m s'.
Proof.
  revert old s. induction files as [|o files IH]; intros [|o' old] s Hf Hl Ho C Ok; try done; [by exists s|].
  apply Forall_cons in Ho as [-> Ho]. injection Hl as Hl. destruct o as [f|]; cbn [dup_files].
  - destruct (keeps_child s0 ok _ f i q m s (Hf f ltac:(left)) C Ok) as (s1 & E1 & O1 & C1). rewrite (bind_Done _ _ _ _ _ E1).
    destruct (IH old s1 ltac:(intros g Hg; apply Hf; by right) Hl Ho C1 O1) as (s2 & E2 & O2 & C2).
    rewrite (bind_Done _ _ _ _ _ E2). by exists s2.
  - destruct (IH old s ltac:(intros g Hg; apply Hf; by right) Hl Ho C Ok) as (s2 & E2 & O2 & C2).
    rewrite (bind_Done _ _ _ _ _ E2). by exists s2.
Qed.

(** The registers of the child: those of the parent, and 0 in eax. *)
Lemma frame_copied m k a t : t = k + KSTACKSIZE - sizeof_trapframe ->
  let m' := KString.store32 (t + tf_eax) 0 (KString.memmove t a (Z.to_nat sizeof_trapframe) m) in
  (forall j, 0 <= j < sizeof_trapframe -> ~ (tf_eax <= j < tf_eax + 4) -> m' (t + j) = m (a + j)) /\
  load32 m' (t + tf_eax) = 0 /\ (forall b, b < t \/ t + sizeof_trapframe <= b -> m' b = m b) /\
  forall b, ~ in_page k b -> m' b = m b.
Proof.
  intros Et m'. change sizeof_trapframe with 76 in *. change tf_eax with 28 in *. unfold KSTACKSIZE in Et.
  assert (O : forall b, b < t \/ t + 76 <= b -> m' b = m b).
  { intros b Hb. unfold m'. rewrite store32_other by lia. rewrite (KString.memmove_spec _ _ _ _ b). KString.in_range. }
  split; [|split; [apply load32_store32|split; [done|]]].
  - intros j Hj Hn. unfold m'. rewrite store32_other by lia. rewrite (KString.memmove_spec _ _ _ _ (t + j)). KString.in_range.
    f_equal. lia.
  - intros b Hb. apply O. unfold in_page, PGSIZE in Hb. lia.
Qed.

(** The kernel stack of the child is apart from both address spaces. *)
Lemma stack_apart m1 k l e m2 l2 d ms m' : wf m1 l e -> data_page m1 l e k -> built m1 l m2 l2 d ms -> (forall b, ~ in_page k b -> m' b = mm m2 b) ->
  (wf (set_mm m' m2) l2 d /\ forall va, pte m' d va = pte (mm m2) d va) /\
  (wf (set_mm m' m2) l2 e /\ forall va, pte m' e va = pte (mm m1) e va).
Proof.
  intros W [Hk Hl He Ht] B Hm. destruct (other_dir m1 l m2 l2 d ms e W B) as (We & T & Pe).
  assert (Hl2 : k ∉ l2) by (intros Hin; by apply Hl, (built_sub _ _ _ _ _ _ _ B)).
  destruct (write_data m2 l2 d k m' (b_wf _ _ _ _ _ _ B)) as (Wd & _ & Pd & _); [|done|].
  { split; [done|done| |].
    - intros ->. by apply Hl, (b_dir _ _ _ _ _ _ B).
    - intros i Hi E. by apply Hl, (b_tab _ _ _ _ _ _ B i). }
  destruct (write_data m2 l2 e k m' We) as (We' & _ & Pe' & _); [|done|].
  { split; [done..|]. intros i Hi. rewrite T by done. by apply Ht. }
  split; split; [done..|]. intros va. by rewrite Pe', Pe.
Qed.

(** The child [q] of process [me], [p], made from the free pages [l0] of [m]. *)
Record forked (trapret forkret : Z) (me : nat) (p q : proc) (m : kmem) (l0 : list Z) (m' : kmem) : Prop := {
  fk_entry : state q = RUNNABLE /\ parent q = Some me /\ sz q = sz p /\ ofile q = ofile p /\ cwd q = cwd p /\
    name q = take 15 (name p);
  fk_regs j : 0 <= j < sizeof_trapframe -> ~ (tf_eax <= j < tf_eax + 4) -> mm m' (tf q + j) = mm m (tf p + j);
  fk_eax : load32 (mm m') (tf q + tf_eax) = 0;
  fk_stack : stack_ready trapret forkret (mm m') q;
  fk_memory va x fl : 0 <= va < sz p -> user_page m l0 (pgdir p) va x fl -> exists y, y ∈ l0 /\
    pte (mm m') (pgdir q) va = Some (v2p y + fl) /\ mm m' (y + va mod PGSIZE) = mm m (x + va mod PGSIZE);
  fk_kernel va : PGROUNDUP (sz p) <= va < 2 ^ 32 -> pte (mm m') (pgdir q) va = kernel_pte va;
  fk_spaces : exists l, wf m' l (pgdir q) /\ wf m' l (pgdir p);
  fk_parent va : pte (mm m') (pgdir p) va = pte (mm m) (pgdir p) va;
  fk_frame x b : is_page x -> x ∉ l0 -> in_page x b -> mm m' b = mm m b }.

(** The parent: a process whose memory below [sz] is all there and whose kernel stack
    holds its registers. *)
Record parent_ready (m : kmem) (l0 : list Z) (p : proc) : Prop := {
  pr_wf : wf m l0 (pgdir p);
  pr_sz : 0 <= sz p <= KERNBASE;
  pr_pages va : 0 <= va < sz p -> exists x fl, user_page m l0 (pgdir p) va x fl;
  pr_stack : is_page (kstack p) /\ kstack p ∉ l0;
  pr_tf : kstack p <= tf p /\ tf p + sizeof_trapframe <= kstack p + KSTACKSIZE }.

(** The memory [fork] leaves: the stack in page [k], the copy of the parent's pages, the
    copy of its registers. *)
Lemma forked_memory trapret forkret me p q m k l m1 d m2 l2 ms : parent_ready m (k :: l) p -> wf m1 l (pgdir p) -> data_page m1 l (pgdir p) k ->
  stack_ready trapret forkret (mm m1) q -> tf q = k + KSTACKSIZE - sizeof_trapframe -> context q = tf q - 4 - sizeof_context -> pgdir q = d ->
  state q = RUNNABLE /\ parent q = Some me /\ sz q = sz p /\ ofile q = ofile p /\ cwd q = cwd p /\ name q = take 15 (name p) ->
  (forall va, pte (mm m1) (pgdir p) va = pte (mm m) (pgdir p) va) -> (forall b, ~ in_page k b -> mm m1 b = mm m b) ->
  copied m1 l (pgdir p) m2 l2 d ms -> PGSIZE * Z.of_nat (length ms) = PGROUNDUP (sz p) -> sz p <= PGROUNDUP (sz p) ->
  forked trapret forkret me p q m (k :: l)
    (set_mm (KString.store32 (tf q + tf_eax) 0 (KString.memmove (tf q) (tf p) (Z.to_nat sizeof_trapframe) (mm m2))) m2).
Proof.
  intros R W1 Dk S1 Et Ec <- En P1 F1 C Ems Hup. pose proof (c_built _ _ _ _ _ _ _ C) as B. pose proof (data_page_page _ _ _ _ Dk) as Hk.
  pose proof (data_used _ _ _ _ Dk) as Hl. destruct (pr_stack _ _ _ R) as [Kp Kn]. apply not_elem_of_cons in Kn as [Kk Kn]. pose proof (pr_tf _ _ _ R) as Tp.
  pose proof (other_kept m1 l m2 l2 (pgdir q) ms (wf_free _ _ _ W1) B) as K2.
  destruct (frame_copied (mm m2) k (tf p) (tf q) Et) as (Rg & Ax & Ou & Fr). set (m3 := KString.store32 _ _ _) in *.
  assert (Old : forall x b, is_page x -> x ∉ k :: l -> in_page x b -> m3 b = mm m b).
  { intros x b Hx [Hn1 Hn2]%not_elem_of_cons Hb. pose proof (pages_apart x k b (proj1 Hx) (proj1 Hk) Hn1 Hb) as Hkb.
    by rewrite Fr, (K2 x), F1. }
  destruct (stack_apart m1 k l (pgdir p) m2 l2 (pgdir q) ms m3 W1 Dk B Fr) as ((Wd & Pd) & (We & Pe)).
  constructor; cbn [mm set_mm]; [done| |done| | | | |by intros va; rewrite Pe|exact Old].
  - intros j Hj Hn. rewrite Rg by done. rewrite (K2 (kstack p)), F1; [done| |done|done|].
    + apply (pages_apart (kstack p)); [apply Kp|apply Hk|done|]. unfold in_page, PGSIZE, KSTACKSIZE in *. lia.
    + unfold in_page, PGSIZE, KSTACKSIZE in *. lia.
  - assert (Up : forall a j, tf q - 8 <= a <= tf q - 4 -> 0 <= j < 4 -> m3 (a + j) = mm m1 (a + j)).
    { intros a j Ha Hj. rewrite Ou by lia. apply (K2 k); [done|done|]. change sizeof_trapframe with 76 in Et.
      unfold in_page, PGSIZE, KSTACKSIZE in *. lia. }
    destruct S1 as [Sf St]. change sizeof_context with 20 in *. change context_eip with 16 in *.
    split; [rewrite <- Sf|rewrite <- St]; apply load32_ext; intros j Hj; apply Up; change sizeof_context with 20; change context_eip with 16; lia.
  - intros va x fl Hv (Px & Hfl & Hx & Hn). pose proof Hn as [Hnk Hnl]%not_elem_of_cons.
    destruct (c_user _ _ _ _ _ _ _ C va x fl) as (y & L & P & Cb); [rewrite Ems; lia|split; [by rewrite P1|done]|].
    destruct (b_ms _ _ _ _ _ _ B y (list_elem_of_lookup_2 _ _ _ L)) as [Hy Dy]. exists y. split; [by right|]. split; [by rewrite Pd|].
    pose proof (Z.mod_pos_bound va PGSIZE eq_refl) as Hr. rewrite Fr, (Cb _ Hr), F1; [done| |].
    + apply (pages_apart x); [apply Hx|apply Hk|done|]. unfold in_page. lia.
    + apply (pages_apart y); [apply Dy|apply Hk|by intros ->|]. unfold in_page. lia.
  - intros va Hv. rewrite Pd. apply (c_rest _ _ _ _ _ _ _ C). by rewrite Ems.
  - by exists l2.
Qed.

(** C8: [fork] succeeds when there is a free entry, memory for a copy of the process and
    one more page for a stack.  It returns the pid of the new entry, which is runnable,
    has [me] as its parent, the size, files, directory and name of [p], its own copy of
    every page below [sz], and the registers of [p] except for 0 in eax; its first run
    goes through [forkret] and [trapret].  The parent's entry and memory, the other
    entries, and every page that was in use are unchanged, and no lock stays held. *)
Theorem fork_copies `{FR : @FileRefs F} trapret forkret me s p np q0 t c ok l0 :
  procs (ptab s) !! me = Some p -> state p = RUNNING -> alloc_entry (ptab s) = Some (np, t) -> procs (ptab s) !! np = Some q0 ->
  length (ofile q0) = length (ofile p) -> Forall (fun o => o = None) (ofile q0) -> held s PTABLE = false -> Spinlock.balanced (cpu s) ->
  parent_ready (km s) l0 p -> (1027 + pages_of (sz p) <= length l0)%nat ->
  cwd p = Some c -> ok (filest s) -> keeps_ref s ok (idup c) c -> (forall f, Some f ∈ ofile p -> keeps_ref s ok (filedup f) f) ->
  exists s' q, fork trapret forkret me s = Done (nextpid (ptab s)) s' /\ pid q = nextpid (ptab s) /\
    procs (ptab s') = <[np := q]> (procs (ptab s)) /\ np <> me /\ forked trapret forkret me p q (km s) l0 (km s') /\
    same_env s s' /\ ok (filest s').
Proof.
  intros Hp Rp Ea Hq Lo Fo Hh Hb R Hl Hc Ok Ki Kf. destruct l0 as [|k l]; [cbn in Hl; lia|]. pose proof (lookup_lt_Some _ _ _ Hq) as Hi.
  assert (Hne : me <> np).
  { intros <-. unfold alloc_entry in Ea. destruct (first _ _ _) as [j|] eqn:E; [|done]. cbn in Ea. injection Ea as -> _.
    apply first_at in E as (p' & Hp' & Sp%is_state_true). congruence. }
  destruct (allocproc_ok trapret forkret s np q0 t k l _ Ea Hq Hh Hb (pr_wf _ _ _ R)) as (m1 & s1 & E1 & Fs & C1 & W1 & D1 & S1 & P1 & F1).
  destruct (copyuvm_ok m1 l (pgdir p) (sz p) W1 (pr_sz _ _ _ R)) as (d & m2 & l2 & ms & E2 & Hz & Cp & Ems & Hup); [|cbn in Hl; lia|].
  { intros va Hv. destruct (pr_pages _ _ _ R va Hv) as (x & fl & Px & Hfl & Hx & [_ Hn]%not_elem_of_cons). exists x, fl. by rewrite <- P1 in Px. }
  unfold fork. rewrite (bind_Done _ _ _ _ _ E1). rewrite (bind_Done _ _ _ _ _ (child_other _ _ _ _ _ _ _ C1 Hne Hp)).
  mem_child E2. on_child Hi.
  match goal with C : child _ _ _ m2 _ |- _ => rewrite (bind_Done _ _ _ _ _ (child_get _ _ _ _ _ Hi C)) end. rewrite Hz.
  on_child Hi. on_child Hi. write_child. write_child.
  match goal with C : child _ _ _ _ ?s6, G : filest ?s6 = _ |- _ => rewrite <- G in Ok; clear G;
    destruct (dup_files_ok s ok np _ _ (ofile p) (ofile q0) s6 Kf Lo Fo C Ok) as (s7 & E7 & Ok7 & C7) end.
  rewrite (bind_Done _ _ _ _ _ E7). destruct (child_on _ _ _ _ _ (fun q => set_files (ofile p) (cwd q) q) Hi C7) as (s8 & E8 & G8 & C8).
  rewrite (bind_Done _ _ _ _ _ E8), Hc. rewrite <- G8 in Ok7. destruct (keeps_child s ok _ _ _ _ _ _ Ki C8 Ok7) as (s9 & E9 & Ok9 & C9).
  rewrite (bind_Done _ _ _ _ _ E9). remember (filest s9) as fs eqn:G9. symmetry in G9. clear C7 C8 G8. on_child Hi. on_child Hi. on_child Hi.
  match goal with C : child _ _ _ _ ?s', G : filest ?s' = _ |- _ => destruct C as [Cq _ Cm Ce]; exists s'; rewrite G, Cm end.
  eexists. split; [reflexivity|]. split; [|split; [exact Cq|split; [done|split; [|done]]]]; [done|].
  match goal with |- forked _ _ _ _ ?q _ _ _ =>
    apply (forked_memory trapret forkret me p q (km s) k l m1 d m2 l2 ms R W1 D1 S1 eq_refl eq_refl eq_refl); [by split_and!|done..] end.
Qed.

End Fork.

(** ** A shell forks *)

Section Demo.
#[local] Existing Instance copy_linker.
#[local] Existing Instance copy_data.

(** A file layer that counts references. *)
#[local] Instance demo_refs : @FileRefs Z := {|
  filedup f := modify (fun s => set_filest (filest s + 1) s) ;! ret f;
  idup c := modify (fun s => set_filest (filest s + 1) s) ;! ret c;
  fileclose _ := ret tt; iput _ := ret tt; namei_root := ret (Some 1%nat); initlog := ret tt |}.

Definition shell : proc :=
  {| sz := PGSIZE; pgdir := qg 0; kstack := qg 3; state := RUNNING; pid := 2; parent := Some 0%nat; tf := qg 3 + 4020;
     context := 0; pchan := None; killed := false; ofile := Some 5%nat :: replicate 15 None; cwd := Some 1%nat; name := [115; 104] |}.

Definition demo (m : kmem) : kst Z :=
  {| km := m; ptab := {| procs := [set_state SLEEPING (set_pid 1 zero_proc); shell; zero_proc]; nextpid := 3 |};
     cpu := {| Spinlock.ncli := 0; Spinlock.intena := false; Spinlock.ifl := true |}; held := fun _ => false;
     initproc := Some 0%nat; first_run := false; ticks := 0; filest := 0 |}.

Lemma demo_keeps m (f : nat) : keeps_ref (demo m) (fun n => 0 <= n) (modify (fun s => set_filest (filest s + 1) s) ;! ret f) f.
Proof.
  intros s _ Hs. exists (set_filest (filest s + 1) s). split; [done|]. split; [cbn; lia|]. by split; [split|].
Qed.

Lemma fork_copies_witness : exists m s' q y, fork 1000 2000 1 (demo m) = Done 3 s' /\ procs (ptab s') !! 2%nat = Some q /\
  procs (ptab s') !! 1%nat = Some shell /\ state q = RUNNABLE /\ load32 (mm (km s')) (tf q + tf_eax) = 0 /\
  pte (mm (km s')) (pgdir q) 0 = Some (v2p y + 7) /\ mm (km s') y = 42 /\ ofile q !! 0%nat = Some (Some 5%nat).
Proof.
  destruct parent_ok as (m & l & W & L & H42 & Nl & U).
  destruct (fork_copies 1000 2000 1 (demo m) shell 2 zero_proc
    {| procs := [set_state SLEEPING (set_pid 1 zero_proc); shell; set_pid 3 (set_state EMBRYO zero_proc)]; nextpid := 4 |}
    1 (fun n => 0 <= n) l)
    as (s' & q & E & _ & Pq & _ & [(Sq & _ & _ & Of & _) _ Ax _ Fm _ _ _ _] & _ & _); try reflexivity.
  - by repeat constructor.
  - split; [reflexivity|by left].
  - constructor; [exact W|vm_compute; split; discriminate| | |].
    + intros va Hv. exists (qg 2), 7. by apply U.
    + split; [apply qg_page; lia|apply Nl; lia].
    + vm_compute. split; discriminate.
  - rewrite L. vm_compute. lia.
  - apply demo_keeps.
  - intros f _. apply demo_keeps.
  - destruct (Fm 0 (qg 2) 7) as (y & _ & P & B); [by vm_compute; split; [discriminate|]|apply U; unfold PGSIZE; lia|].
    exists m, s', q, y. rewrite Pq, Of. change (0 mod PGSIZE) with 0 in B. rewrite !Z.add_0_r in B. by rewrite B.
Defined.

End Demo.

End Fork.
