(* ===== verification/Syscall.v ===== *)
(** * System calls (kernel/syscall.c, kernel/sysproc.c)

    Fetching of arguments from the user's stack, the dispatch of a system call
    and the calls of sysproc.c, for the process [me] whose page table is loaded.
    A user address is read through that page table; an address it does not map
    is a page fault in the kernel, [Wild].  The calls of sysfile.c are the
    class argument [FileCalls].  The theorems say that the checks let no call
    see memory outside the process, and where they do not. *)

From stdpp Require Import functions.
From S2P Require Import Prelude Spinlock KString Kalloc Vm Proc.

Module Syscall.
Import Proc.

Section Calls.
Context {F : Type}.
Local Notation kst := (Proc.kst F).

Definition uload8 (me : nat) (va : Z) : M kst Z :=
  let! p := get_proc me in
  let! m := gets (fun s => Kalloc.mm (km s)) in
  match Vm.pte m (pgdir p) va with
  | Some e => ret (m (p2v (PTE_ADDR e) + va mod PGSIZE))
  | None => wild "page fault in the kernel"
  end.

Definition uload32 (me : nat) (va : Z) : M kst Z :=
  let! b0 := uload8 me va in
  let! b1 := uload8 me (va + 1) in
  let! b2 := uload8 me (va + 2) in
  let! b3 := uload8 me (va + 3) in
  ret (le_dec [b0; b1; b2; b3]).

(** [n] bytes from an address on. *)
Fixpoint uload (me : nat) (va : Z) (n : nat) : M kst (list Z) :=
  match n with
  | O => ret []
  | S n' => let! b := uload8 me va in let! l := uload me (va + 1) n' in ret (b :: l)
  end.

(** A store also needs the page to be writable, which CR0_WP makes the rule for
    the kernel too. *)
Definition ustore8 (me : nat) (va b : Z) : M kst unit :=
  let! p := get_proc me in
  let! m := gets (fun s => Kalloc.mm (km s)) in
  match Vm.pte m (pgdir p) va with
  | Some e =>
      if Z.land e Vm.PTE_W =? 0 then wild "page fault in the kernel"
      else mem_op (modify (fun k => Kalloc.set_mm (<[p2v (PTE_ADDR e) + va mod PGSIZE := u8 b]> (Kalloc.mm k)) k))
  | None => wild "page fault in the kernel"
  end.

Fixpoint ustore (me : nat) (va : Z) (l : list Z) : M kst unit :=
  match l with
  | [] => ret tt
  | b :: l' => ustore8 me va b ;! ustore me (va + 1) l'
  end.

(** A result of -1 is [None]; otherwise the value stored through the pointer. *)
Definition fetchint (me : nat) (addr : Z) : M kst (option Z) :=
  let! p := get_proc me in
  if (addr >=? sz p) || (u32 (addr + 4) >? sz p) then ret None
  else let! v := uload32 me addr in ret (Some (s32 v)).

(** [for (s = *pp; s < ep; s++)], for at most [n] turns. *)
Fixpoint fetchstr_loop (n : nat) (me : nat) (s ep : Z) : M kst (option Z) :=
  if s <? ep then
    match n with
    | O => nofuel
    | S n' => let! b := uload8 me s in if b =? 0 then ret (Some s) else fetchstr_loop n' me (s + 1) ep
    end
  else ret None.

(** The string's address and length. *)
Definition fetchstr (me : nat) (addr : Z) : M kst (option (Z * Z)) :=
  let! p := get_proc me in
  if addr >=? sz p then ret None
  else
    let! e := fetchstr_loop (Z.to_nat (sz p - addr)) me addr (sz p) in
    ret (match e with Some s => Some (addr, s - addr) | None => None end).

(** A field of the trap frame, which is in kernel memory. *)
Definition tf_field (me : nat) (off : Z) : M kst Z :=
  let! p := get_proc me in gets (fun s => load32 (Kalloc.mm (km s)) (tf p + off)).

Definition argint (me : nat) (n : Z) : M kst (option Z) :=
  let! esp := tf_field me tf_esp in fetchint me (u32 (esp + 4 + 4 * n)).

Definition argptr (me : nat) (n size : Z) : M kst (option Z) :=
  let! i := argint me n in
  match i with
  | None => ret None
  | Some i =>
      let! p := get_proc me in
      if (u32 i >=? sz p) || (u32 (u32 i + size) >? sz p) then ret None else ret (Some (u32 i))
  end.

Definition argstr (me : nat) (n : Z) : M kst (option (Z * Z)) :=
  let! a := argint me n in
  match a with None => ret None | Some a => fetchstr me (u32 a) end.

(** ** sysproc.c *)

Context `{DataSegment, !FileRefs F, !Switch F}.
Variables trapret_addr forkret_addr : Z.

(** [tickslock] *)
Definition TICKSLOCK : lock := LTicks.

Definition sys_fork (me : nat) : M kst Z := fork trapret_addr forkret_addr me.
Definition sys_exit (me : nat) : M kst Z := exit me ;! ret 0.
Definition sys_wait (n me : nat) : M kst Z := wait n me.

Definition sys_kill (me : nat) : M kst Z :=
  let! a := argint me 0 in
  match a with None => ret (-1) | Some n => kill n end.

Definition sys_getpid (me : nat) : M kst Z := let! p := get_proc me in ret (pid p).

Definition sys_sbrk (me : nat) : M kst Z :=
  let! a := argint me 0 in
  match a with
  | None => ret (-1)
  | Some n =>
      let! p := get_proc me in
      let! r := growproc me n in
      if r <? 0 then ret (-1) else ret (s32 (sz p))
  end.

(** [while (ticks - ticks0 < n)], an unsigned comparison, for at most [fuel] sleeps. *)
Fixpoint sleep_loop (fuel : nat) (me : nat) (ticks0 n : Z) : M kst Z :=
  let! t := gets ticks in
  if u32 (t - ticks0) <? u32 n then
    let! p := get_proc me in
    if killed p then release TICKSLOCK ;! ret (-1)
    else match fuel with
         | O => nofuel
         | S f => sleep (Some me) (Some CTicks) (Some TICKSLOCK) ;! sleep_loop f me ticks0 n
         end
  else release TICKSLOCK ;! ret 0.

Definition sys_sleep (fuel me : nat) : M kst Z :=
  let! a := argint me 0 in
  match a with
  | None => ret (-1)
  | Some n => acquire TICKSLOCK ;! let! t := gets ticks in sleep_loop fuel me t n
  end.

Definition sys_uptime : M kst Z :=
  acquire TICKSLOCK ;! let! t := gets ticks in release TICKSLOCK ;! ret (s32 t).

(** ** Dispatch *)

(** The system calls of sysfile.c and pipe creation. *)
Class FileCalls := {
  sys_pipe : nat -> M kst Z; sys_read : nat -> M kst Z; sys_execve : nat -> M kst Z; sys_fstat : nat -> M kst Z;
  sys_chdir : nat -> M kst Z; sys_dup : nat -> M kst Z; sys_open : nat -> M kst Z; sys_write : nat -> M kst Z;
  sys_mknod : nat -> M kst Z; sys_unlink : nat -> M kst Z; sys_link : nat -> M kst Z; sys_mkdir : nat -> M kst Z;
  sys_close : nat -> M kst Z }.

(** The table [syscalls]; entry 0 is null. *)
Definition syscalls `{!FileCalls} (fuel me : nat) : list (option (M kst Z)) := [
  None;
  Some (sys_fork me); Some (sys_exit me); Some (sys_wait fuel me); Some (sys_pipe me); Some (sys_read me);
  Some (sys_kill me); Some (sys_execve me); Some (sys_fstat me); Some (sys_chdir me); Some (sys_dup me);
  Some (sys_getpid me); Some (sys_sbrk me); Some (sys_sleep fuel me); Some sys_uptime; Some (sys_open me);
  Some (sys_write me); Some (sys_mknod me); Some (sys_unlink me); Some (sys_link me); Some (sys_mkdir me);
  Some (sys_close me)].

(** The trap frame is found again after the call: [proc->tf] is evaluated then. *)
Definition set_eax (me : nat) (v : Z) : M kst unit :=
  let! p := get_proc me in mem_op (Vm.st (tf p + tf_eax) v).

(** The message about an unknown call goes to the console and is left out. *)
Definition syscall `{!FileCalls} (fuel me : nat) : M kst unit :=
  let! eax := tf_field me tf_eax in
  let num := s32 eax in
  match (if (0 <? num) && (num <? 22) then syscalls fuel me !! Z.to_nat num else None) with
  | Some (Some call) => let! r := call in set_eax me r
  | _ => set_eax me (-1)
  end.

(** ** What the calls see *)

(** The byte at a user address of process [p]. *)
Definition ubyte (s : kst) (p : proc) (va : Z) : Z :=
  match Vm.pte (Kalloc.mm (km s)) (pgdir p) va with
  | Some e => Kalloc.mm (km s) (p2v (PTE_ADDR e) + va mod PGSIZE)
  | None => 0
  end.

Definition uword (s : kst) (p : proc) (va : Z) : Z :=
  le_dec [ubyte s p va; ubyte s p (va + 1); ubyte s p (va + 2); ubyte s p (va + 3)].

(** [me] is a process with [sz] bytes of mapped memory below the kernel. *)
Record user (s : kst) (me : nat) (p : proc) : Prop := {
  us_at : procs (ptab s) !! me = Some p;
  us_sz : 0 <= sz p <= KERNBASE;
  us_mapped va : 0 <= va < sz p -> Vm.pte (Kalloc.mm (km s)) (pgdir p) va <> None }.

Lemma get_proc_at (s : kst) me p : procs (ptab s) !! me = Some p -> get_proc me s = Done p s.
Proof. intros E. unfold get_proc. by rewrite E. Qed.

Lemma uload8_ok (s : kst) me p va : user s me p -> 0 <= va < sz p -> uload8 me va s = Done (ubyte s p va) s.
Proof.
  intros U Hv. unfold uload8. rewrite (bind_Done _ _ _ _ _ (get_proc_at _ _ _ (us_at _ _ _ U))).
  unfold bind, gets, ubyte. by destruct (Vm.pte _ _ _) eqn:E; [|destruct (us_mapped _ _ _ U va Hv)].
Qed.

Lemma uload_ok (s : kst) me p va n : user s me p -> 0 <= va -> va + Z.of_nat n <= sz p ->
  uload me va n s = Done (ubyte s p <$> seqZ va (Z.of_nat n)) s.
Proof.
  intros U. revert va. induction n as [|n IH]; intros va Hlo Hhi; [done|]. cbn [uload].
  erewrite bind_Done by (apply uload8_ok; [exact U|lia]). rewrite (bind_Done _ _ _ _ _ (IH (va + 1) ltac:(lia) ltac:(lia))).
  unfold ret. f_equal. rewrite Nat2Z.inj_succ, (seqZ_cons va) by lia.
  rewrite Z.pred_succ. done.
Qed.

Lemma uload32_ok (s : kst) me p va : user s me p -> 0 <= va -> va + 4 <= sz p -> uload32 me va s = Done (uword s p va) s.
Proof.
  intros U Hlo Hhi. unfold uload32. do 4 (erewrite bind_Done by (apply uload8_ok; [exact U|lia])). done.
Qed.

Lemma fetchint_ok (s : kst) me p addr : user s me p -> 0 <= addr < 2 ^ 32 ->
  fetchint me addr s = Done (if addr + 4 <=? sz p then Some (s32 (uword s p addr)) else None) s.
Proof.
  intros U Ha. pose proof (us_sz _ _ _ U) as Hz. unfold KERNBASE in Hz. unfold fetchint.
  rewrite (bind_Done _ _ _ _ _ (get_proc_at _ _ _ (us_at _ _ _ U))).
  destruct (Z.leb_spec (addr + 4) (sz p)).
  - rewrite u32_small by lia. replace (addr >=? sz p) with false by lia.
    replace (addr + 4 >? sz p) with false by lia. cbn [orb].
    by erewrite bind_Done by (apply uload32_ok; [exact U|lia..]).
  - destruct (Z.geb_spec addr (sz p)); [done|]. rewrite u32_small by lia.
    by replace (addr + 4 >? sz p) with true by lia.
Qed.

Lemma argint_ok (s : kst) me p n : user s me p ->
  let at_ := u32 (load32 (Kalloc.mm (km s)) (tf p + tf_esp) + 4 + 4 * n) in
  argint me n s = Done (if at_ + 4 <=? sz p then Some (s32 (uword s p at_)) else None) s.
Proof.
  intros U. cbn zeta. unfold argint, tf_field, bind, gets. rewrite (get_proc_at _ _ _ (us_at _ _ _ U)).
  apply fetchint_ok; auto with width.
Qed.

(** C27: What [argptr] accepts, for every [int] it can be called with as [size], in a
    process whose memory ends below [KERNBASE], as [allocuvm] sees to: a pointer whose
    slot on the user's stack lies in the process's memory, that points into that memory,
    and whose end [a + size], taken as an integer without wrapping around, is in it too.
    For a size that is not negative this says that the whole block lies in the process's
    memory; a negative size is accepted too, when the address that far in front of the
    pointer is not below 0.  No input makes the check fault or change anything. *)
Theorem argptr_exact (s : kst) me p n size : user s me p -> sz p < KERNBASE -> - 2 ^ 31 <= size < 2 ^ 31 ->
  let at_ := u32 (load32 (Kalloc.mm (km s)) (tf p + tf_esp) + 4 + 4 * n) in
  let a := u32 (uword s p at_) in
  argptr me n size s =
    Done (if (at_ + 4 <=? sz p) && (a <? sz p) && (0 <=? a + size) && (a + size <=? sz p) then Some a else None) s.
Proof.
  intros U Hb Hs. cbn zeta. pose proof (us_sz _ _ _ U) as Hz. unfold KERNBASE in Hz, Hb. unfold argptr.
  rewrite (bind_Done _ _ _ _ _ (argint_ok s me p n U)). destruct (_ + 4 <=? sz p); [|done]. cbn [andb].
  rewrite (bind_Done _ _ _ _ _ (get_proc_at _ _ _ (us_at _ _ _ U))). autorewrite with width.
  set (a := u32 (uword s p _)). pose proof (u32_range (uword s p (u32 (load32 (Kalloc.mm (km s)) (tf p + tf_esp) + 4 + 4 * n)))) as Ha.
  fold a in Ha. destruct (Z.ltb_spec a (sz p)); [|by replace (a >=? sz p) with true by lia].
  replace (a >=? sz p) with false by lia. cbn [orb andb]. destruct (Z.leb_spec 0 (a + size)); cbn [andb].
  - rewrite u32_small by lia. replace (a + size >? sz p) with (negb (a + size <=? sz p)) by lia. by destruct (a + size <=? sz p).
  - assert (u32 (a + size) = a + size + 2 ^ 32) as -> by (unfold u32; symmetry; apply (Z.mod_unique _ _ (-1)); lia).
    by replace (a + size + 2 ^ 32 >? sz p) with true by lia.
Qed.

Lemma fetchstr_loop_ok (s : kst) me p a n : user s me p -> 0 <= a -> (Z.to_nat (sz p - a) <= n)%nat ->
  exists r, fetchstr_loop n me a (sz p) s = Done r s /\
    match r with
    | Some e => a <= e < sz p /\ ubyte s p e = 0 /\ forall x, a <= x < e -> ubyte s p x <> 0
    | None => forall x, a <= x < sz p -> ubyte s p x <> 0
    end.
Proof.
  intros U. revert a. induction n as [|n IH]; intros a Ha Hn; cbn [fetchstr_loop];
    (destruct (Z.ltb_spec a (sz p)); [|eexists; split; [reflexivity|]; intros x Hx; lia]); [lia|].
  erewrite bind_Done by (apply uload8_ok; [exact U|lia]).
  destruct (Z.eqb_spec (ubyte s p a) 0) as [E|E].
  - eexists. split; [reflexivity|]. repeat split; [lia..|done|lia].
  - destruct (IH (a + 1)) as (r & Hr & Sp); [lia..|]. exists r. split; [done|].
    assert (Step : forall x e, (a + 1 <= x < e -> ubyte s p x <> 0) -> a <= x < e -> ubyte s p x <> 0).
    { intros x e K Hx. destruct (decide (x = a)) as [->|]; [done|]. apply K. lia. }
    destruct r as [e|]; [destruct Sp as (? & ? & K); repeat split; [lia..|done|]|]; intros x; eapply Step; eauto.
Qed.

(** [fetchstr] finds the first NUL at or after [addr] if there is one inside
    the process's memory, and reports failure exactly when there is none; it
    always returns and reads nothing outside that memory. *)
Theorem fetchstr_exact (s : kst) me p addr : user s me p -> 0 <= addr ->
  exists r, fetchstr me addr s = Done r s /\
    match r with
    | Some (a, len) => a = addr /\ 0 <= len /\ addr + len < sz p /\ ubyte s p (addr + len) = 0 /\
        forall x, addr <= x < addr + len -> ubyte s p x <> 0
    | None => forall x, addr <= x < sz p -> ubyte s p x <> 0
    end.
Proof.
  intros U Ha. unfold fetchstr. rewrite (bind_Done _ _ _ _ _ (get_proc_at _ _ _ (us_at _ _ _ U))).
  destruct (Z.geb_spec addr (sz p)); [eexists; split; [reflexivity|]; intros x Hx; lia|].
  destruct (fetchstr_loop_ok s me p addr (Z.to_nat (sz p - addr)) U Ha) as (r & Hr & Sp); [lia|].
  rewrite (bind_Done _ _ _ _ _ Hr). eexists. split; [reflexivity|]. destruct r as [e|]; [|done].
  destruct Sp as (? & E & K). replace (addr + (e - addr)) with e by lia. repeat split; [lia..|done|done].
Qed.

Lemma set_eax_ok (s : kst) me p v : procs (ptab s) !! me = Some p ->
  exists s', set_eax me v s = Done tt s' /\ ptab s' = ptab s /\
    load32 (Kalloc.mm (km s')) (tf p + tf_eax) = u32 v /\
    forall x, ~ tf p + tf_eax <= x < tf p + tf_eax + 4 -> Kalloc.mm (km s') x = Kalloc.mm (km s) x.
Proof.
  intros E. unfold set_eax. rewrite (bind_Done _ _ _ _ _ (get_proc_at _ _ _ E)). eexists. split; [reflexivity|].
  split; [done|]. cbn. split; [apply load32_store32|]. intros x Hx. unfold KString.store32.
  rewrite !KString.insert_at. by repeat (case_decide; try lia).
Qed.

(** Dispatch.  A call number from 1 to 21 runs the call of that number and
    leaves its result in the caller's saved [eax]; any other number, negative
    ones included, runs no call and leaves -1 there and everything else as it
    was. *)
Theorem syscall_dispatch `{!FileCalls} fuel (s : kst) me p : procs (ptab s) !! me = Some p ->
  let num := s32 (load32 (Kalloc.mm (km s)) (tf p + tf_eax)) in
  (1 <= num <= 21 -> exists call, syscalls fuel me !! Z.to_nat num = Some (Some call) /\
     forall r s1 q, call s = Done r s1 -> procs (ptab s1) !! me = Some q ->
       exists s', syscall fuel me s = Done tt s' /\ ptab s' = ptab s1 /\
         load32 (Kalloc.mm (km s')) (tf q + tf_eax) = u32 r) /\
  (~ 1 <= num <= 21 -> exists s', syscall fuel me s = Done tt s' /\ ptab s' = ptab s /\
     load32 (Kalloc.mm (km s')) (tf p + tf_eax) = 2 ^ 32 - 1 /\
     forall x, ~ tf p + tf_eax <= x < tf p + tf_eax + 4 -> Kalloc.mm (km s') x = Kalloc.mm (km s) x).
Proof.
  intros E. cbn zeta. unfold syscall.
  assert (Ef : tf_field me tf_eax s = Done (load32 (Kalloc.mm (km s)) (tf p + tf_eax)) s).
  { unfold tf_field. by rewrite (bind_Done _ _ _ _ _ (get_proc_at _ _ _ E)). }
  rewrite (bind_Done _ _ _ _ _ Ef). set (num := s32 _). split; intros Hn.
  - replace ((0 <? num) && (num <? 22)) with true by lia.
    assert (exists call, syscalls fuel me !! Z.to_nat num = Some (Some call)) as [call Hc].
    { assert (K : (1 <= Z.to_nat num <= 21)%nat) by lia. revert K. generalize (Z.to_nat num). intros k K.
      do 22 (destruct k as [|k]; [first [lia|eexists; reflexivity]|]). lia. }
    exists call. split; [done|]. intros r s1 q Hr Hq. rewrite Hc, (bind_Done _ _ _ _ _ Hr).
    destruct (set_eax_ok s1 me q r Hq) as (s' & ? & ? & ? & _). eauto.
  - replace ((0 <? num) && (num <? 22)) with false by lia. exact (set_eax_ok s me p (-1) E).
Qed.

End Calls.

Arguments FileCalls : clear implicits.

(** ** A small process *)

(** One mapped page, a trap frame at 200 with a call of [getpid], and pid 7. *)
Definition demo_proc : proc :=
  set_vm (Vm.pg 0) PGSIZE (set_stack 0 200 0 (set_pid 7 (set_state RUNNING zero_proc))).
Definition demo_mem : Kalloc.kmem :=
  Kalloc.set_mm (KString.store32 (200 + tf_eax) 11 (Kalloc.mm Vm.one_page)) Vm.one_page.
Definition demo : kst unit :=
  {| km := demo_mem; ptab := {| procs := [demo_proc]; nextpid := 8 |}; cpu := Spinlock.Cpu 0 true true;
     held := fun _ => false; initproc := None; first_run := false; ticks := 0; filest := tt |}.

Lemma demo_user : user demo 0 demo_proc.
Proof.
  constructor; [reflexivity|vm_compute; split; discriminate|]. intros va Hv. change (sz demo_proc) with 4096 in Hv.
  unfold Vm.pte. rewrite Vm.PDX_eq, Vm.PTX_eq, u32_small by lia.
  replace (va / 4194304) with 0 by (symmetry; apply Z.div_small; lia).
  replace (va / 4096) with 0 by (symmetry; apply Z.div_small; lia). vm_compute. discriminate.
Qed.

Lemma argptr_exact_witness : argptr 0 0 16 demo = Done (Some 0) demo /\ argptr 0 0 (- 1) demo = Done None demo.
Proof. split; (rewrite (argptr_exact demo 0 demo_proc 0 _ demo_user); [vm_compute; reflexivity|vm_compute; reflexivity|lia]). Defined.

Lemma fetchstr_exact_witness : exists r, fetchstr 0 9 demo = Done r demo.
Proof.
  destruct (fetchstr_exact demo 0 demo_proc 9 demo_user) as (r & E & _); [lia|]. exists r. exact E.
Defined.

Definition demo_link : Linker.
Proof. refine {| kend := KERNLINK + 8192 |}. vm_compute. split; reflexivity. Defined.
Definition demo_data : @DataSegment demo_link.
Proof. refine {| kdata := KERNLINK + 4096 |}. split; [reflexivity|]. vm_compute. split; [reflexivity|discriminate]. Defined.
Definition demo_files : FileRefs unit :=
  {| filedup := ret; idup := ret; fileclose := fun _ => ret tt; iput := fun _ => ret tt;
     namei_root := ret (Some 0%nat); initlog := ret tt |}.
Definition demo_calls : FileCalls unit :=
  let no := fun _ => ret (-1) in
  {| sys_pipe := no; sys_read := no; sys_execve := no; sys_fstat := no; sys_chdir := no; sys_dup := no;
     sys_open := no; sys_write := no; sys_mknod := no; sys_unlink := no; sys_link := no; sys_mkdir := no;
     sys_close := no |}.

Lemma demo_eax : s32 (load32 (Kalloc.mm (km demo)) (tf demo_proc + tf_eax)) = 11.
Proof. vm_compute. reflexivity. Qed.

Lemma syscall_dispatch_witness : exists s',
  @syscall _ demo_link demo_data demo_files come_back 0 0 demo_calls 5 0 demo = Done tt s' /\
  load32 (Kalloc.mm (km s')) (200 + tf_eax) = 7.
Proof.
  destruct (@syscall_dispatch _ demo_link demo_data demo_files come_back 0 0 demo_calls 5 demo 0 demo_proc eq_refl)
    as [H _]. rewrite demo_eax in H. destruct H as (call & Hc & H); [lia|].
  injection Hc as Hc. assert (E : call demo = Done 7 demo) by (rewrite <- Hc; reflexivity).
  destruct (H 7 demo demo_proc E eq_refl) as (s' & E' & _ & L). exists s'. split; [exact E'|exact L].
Defined.

End Syscall.
