(* ===== verification/Trap.v ===== *)
(** * Traps and the timer (kernel/trap.c)

    The interrupt descriptor table, and [trap] for a processor and the process it
    runs, if any.  The handlers of the devices are a class argument, whatever they do
    to the kernel's state; messages on the console are left out.  A process that was
    killed never gets back to user mode, a fault in user mode kills the process and a
    fault in the kernel stops it, and the clock advances on one processor only. *)

From stdpp Require Import functions.
From S2P Require Import Prelude Spinlock KString Kalloc Vm Proc Syscall.

Module Trap.
Import Proc Syscall.

Definition T_SYSCALL : Z := 64.
Definition T_IRQ0 : Z := 32.
Definition IRQ_TIMER : Z := 0.
Definition IRQ_KBD : Z := 1.
Definition IRQ_COM1 : Z := 4.
Definition IRQ_IDE : Z := 14.
Definition IRQ_SPURIOUS : Z := 31.
Definition SEG_KCODE : Z := 1.
Definition STS_IG32 : Z := 14.
Definition STS_TG32 : Z := 15.

(** ** The descriptor table *)

Record gatedesc := Gate {
  off_15_0 : Z; g_cs : Z; args : Z; rsv1 : Z; g_type : Z; g_s : Z; dpl : Z; g_p : Z; off_31_16 : Z }.

Definition SETGATE (istrap : bool) (sel off d : Z) : gatedesc :=
  Gate (Z.land (u32 off) 65535) sel 0 0 (if istrap then STS_TG32 else STS_IG32) 0 d 1 (Z.shiftr (u32 off) 16).

(** [idt] after [tvinit]; [vectors] is the table of vectors.S. *)
Definition tvinit (vectors : Z -> Z) : list gatedesc :=
  let idt := map (fun i => SETGATE false (Z.shiftl SEG_KCODE 3) (vectors (Z.of_nat i)) 0) (seq 0 256) in
  <[Z.to_nat T_SYSCALL := SETGATE true (Z.shiftl SEG_KCODE 3) (vectors T_SYSCALL) DPL_USER]> idt.

(** Where a gate leads to. *)
Definition target (g : gatedesc) : Z := off_15_0 g + off_31_16 g * 2 ^ 16.

(** ** The handler *)

(** What [trap] reads of the frame at [f_addr]. *)
Record frame := Frame { f_addr : Z; f_trapno : Z; f_cs : Z }.

Definition user_mode (f : frame) : bool := Z.land (f_cs f) 3 =? DPL_USER.

Section Trap.
Context {F : Type} `{DataSegment, !FileRefs F, !Switch F, !FileCalls F}.
Variables trapret_addr forkret_addr : Z.

(** The devices, and the end-of-interrupt command of the local APIC. *)
Class Handlers := { ideintr : M (kst F) unit; kbdintr : M (kst F) unit; uartintr : M (kst F) unit; lapiceoi : M (kst F) unit }.
Context `{!Handlers}.

Definition set_ticks (x : Z) (s : kst F) : kst F :=
  {| km := km s; ptab := ptab s; cpu := cpu s; held := held s; initproc := initproc s; first_run := first_run s; ticks := x; filest := filest s |}.

Definition set_tf (x : Z) (p : proc) : proc := set_stack (kstack p) x (context p) p.

(** [if (proc && proc->killed && (tf->cs & 3) == DPL_USER) exit();] *)
Definition exit_if_killed (me : option nat) (f : frame) : M (kst F) unit :=
  match me with
  | None => ret tt
  | Some i => let! p := get_proc i in when (killed p && user_mode f) (exit i)
  end.

(** The timer's part of processor [cpuid]. *)
Definition timer (cpuid : Z) : M (kst F) unit :=
  when (cpuid =? 0) (
    acquire TICKSLOCK ;!
    modify (fun s => set_ticks (u32 (ticks s + 1)) s) ;!
    wakeup (Some CTicks) ;!
    release TICKSLOCK) ;!
  lapiceoi.

(** The [switch]. *)
Definition dispatch (cpuid : Z) (me : option nat) (f : frame) : M (kst F) unit :=
  let n := f_trapno f in
  if n =? T_IRQ0 + IRQ_TIMER then timer cpuid
  else if n =? T_IRQ0 + IRQ_IDE then ideintr ;! lapiceoi
  else if n =? T_IRQ0 + IRQ_IDE + 1 then ret tt
  else if n =? T_IRQ0 + IRQ_KBD then kbdintr ;! lapiceoi
  else if n =? T_IRQ0 + IRQ_COM1 then uartintr ;! lapiceoi
  else if (n =? T_IRQ0 + 7) || (n =? T_IRQ0 + IRQ_SPURIOUS) then lapiceoi
  else
    match me with
    | Some i => if Z.land (f_cs f) 3 =? 0 then panic "trap" else on_proc i (set_killed true)
    | None => panic "trap"
    end.

Definition trap (fuel : nat) (cpuid : Z) (me : option nat) (f : frame) : M (kst F) unit :=
  if f_trapno f =? T_SYSCALL then
    match me with
    | None => wild "trap: no process"
    | Some i =>
        let! p := get_proc i in
        when (killed p) (exit i) ;!
        on_proc i (set_tf (f_addr f)) ;!
        syscall trapret_addr forkret_addr fuel i ;!
        let! p := get_proc i in
        when (killed p) (exit i)
    end
  else
    dispatch cpuid me f ;!
    exit_if_killed me f ;!
    match me with
    | None => ret tt
    | Some i => let! p := get_proc i in when (is_state RUNNING p && (f_trapno f =? T_IRQ0 + IRQ_TIMER)) (yield i)
    end ;!
    exit_if_killed me f.

(** ** Properties *)

(** A number that [dispatch] does not know. *)
Definition fault (n : Z) : bool :=
  negb ((n =? T_SYSCALL) || (n =? T_IRQ0 + IRQ_TIMER) || (n =? T_IRQ0 + IRQ_IDE) || (n =? T_IRQ0 + IRQ_IDE + 1) || (n =? T_IRQ0 + IRQ_KBD) ||
        (n =? T_IRQ0 + IRQ_COM1) || (n =? T_IRQ0 + 7) || (n =? T_IRQ0 + IRQ_SPURIOUS)).

(** [exit] does not return. *)
Lemma exit_no_return i s s' : exit i s <> Done tt s'.
Proof.
  unfold exit. intros E. apply bind_inv in E as (o & s1 & _ & E). case_bool_decide; [done|].
  apply bind_inv in E as (? & s2 & _ & E). apply bind_inv in E as (p & s3 & _ & E). destruct (cwd p), o; try done.
  do 5 (apply bind_inv in E as (? & ? & _ & E)). done.
Qed.

Lemma get_proc_inv i s p (s' : kst F) : get_proc i s = Done p s' -> s' = s /\ procs (ptab s) !! i = Some p.
Proof. unfold get_proc. destruct (procs (ptab s) !! i); [|done]. by intros [= -> ->]. Qed.

Lemma killed_or_not i b s s' : (let! p := get_proc i in when (killed p && b) (exit i)) s = Done tt s' ->
  s' = s /\ exists p, procs (ptab s) !! i = Some p /\ killed p && b = false.
Proof.
  intros E. apply bind_inv in E as (p & s1 & [-> Hp]%get_proc_inv & E). destruct (killed p && b) eqn:K; cbn in E; [by apply exit_no_return in E|].
  injection E as <-. split; [done|]. by exists p.
Qed.

(** A process in user mode is not killed when it goes back. *)
Lemma trap_back fuel cpuid i f s s' : user_mode f = true -> trap fuel cpuid (Some i) f s = Done tt s' ->
  exists p, procs (ptab s') !! i = Some p /\ killed p = false.
Proof.
  intros U. unfold trap. destruct (f_trapno f =? T_SYSCALL).
  - intros E. do 4 (apply bind_inv in E as (? & ? & _ & E)).
    apply bind_inv in E as (p & s1 & [-> Hp]%get_proc_inv & E). destruct (killed p) eqn:K; cbn in E; [by apply exit_no_return in E|].
    injection E as <-. by exists p.
  - intros E. do 3 (apply bind_inv in E as (? & ? & _ & E)). apply killed_or_not in E as (-> & p & Hp & K). exists p. by rewrite U, andb_true_r in K.
Qed.

Lemma fault_not_syscall n : fault n = true -> (n =? T_SYSCALL) = false.
Proof. unfold fault. by destruct (n =? T_SYSCALL). Qed.

(** A fault makes [dispatch] kill the process or stop. *)
Lemma dispatch_fault cpuid me f s : fault (f_trapno f) = true ->
  dispatch cpuid me f s = match me with
                          | Some i => if Z.land (f_cs f) 3 =? 0 then Panic "trap" else Done tt (set_ptab (set_proc i (set_killed true) (ptab s)) s)
                          | None => Panic "trap"
                          end.
Proof.
  unfold fault, dispatch. rewrite negb_true_iff, !orb_false_iff. intros (((((((_ & ->) & ->) & ->) & ->) & ->) & ->) & ->). cbn [orb].
  destruct me; [|done]. by destruct (_ =? 0).
Qed.

Lemma timer_ok s : held s TICKSLOCK = false -> held s PTABLE = false -> Spinlock.ifl (cpu s) = false -> 0 <= Spinlock.ncli (cpu s) ->
  (forall s, lapiceoi s = Done tt s) ->
  exists s', timer 0 s = Done tt s' /\ ticks s' = u32 (ticks s + 1) /\ ptab s' = wakeup1 (Some CTicks) (ptab s) /\ held s' TICKSLOCK = false /\ held s' PTABLE = false.
Proof.
  intros Ht Hp Hi Hn Eoi. unfold timer. cbn [Z.eqb when]. set (s1 := set_held TICKSLOCK true (set_cpu (Spinlock.pushcli (cpu s)) s)).
  set (s2 := set_ticks (u32 (ticks s1 + 1)) s1).
  assert (W : exists s3, wakeup (Some CTicks) s2 = Done tt s3 /\ ticks s3 = ticks s2 /\ ptab s3 = wakeup1 (Some CTicks) (ptab s2) /\
    held s3 TICKSLOCK = true /\ held s3 PTABLE = false /\ Spinlock.ifl (cpu s3) = false /\ 1 <= Spinlock.ncli (cpu s3)).
  { unfold wakeup. run (acquire_free PTABLE s2 ltac:(cbn; by rewrite fn_lookup_insert_ne)). unfold bind, modify.
    rewrite release_held; [|cbn; by rewrite fn_lookup_insert|done|cbn; lia]. eexists. split; [reflexivity|]. cbn.
    rewrite fn_lookup_insert_ne, fn_lookup_insert_ne, !fn_lookup_insert by done. split_and!; try done; [|lia].
    replace (Spinlock.ncli (cpu s) + 1 + 1 =? 1) with false by lia. done. }
  destruct W as (s3 & E3 & T3 & P3 & L3 & Q3 & I3 & N3).
  assert (E : (acquire TICKSLOCK ;! modify (fun s => set_ticks (u32 (ticks s + 1)) s) ;! wakeup (Some CTicks) ;! release TICKSLOCK) s = release TICKSLOCK s3).
  { run (acquire_free TICKSLOCK s Ht). fold s1. unfold bind at 1, modify. fold s2. by run E3. }
  rewrite (release_held TICKSLOCK s3 L3 I3 N3) in E. run E. rewrite Eoi. eexists. split; [reflexivity|]. cbn.
  rewrite fn_lookup_insert, fn_lookup_insert_ne by done. rewrite T3, P3, Q3. done.
Qed.

(** C21: What a trap does to processes.  A process that was interrupted in user mode and
    gets back to it has not been killed, whatever the handlers, the system call and
    the processes that ran in between did, and the trap was an interrupt or a system
    call, not a fault: a process that faults does not get back.  A fault in the kernel
    itself, or on a processor that runs no process, stops the machine. *)
Theorem trap_safe fuel cpuid i f s : user_mode f = true ->
  (forall s', trap fuel cpuid (Some i) f s = Done tt s' -> fault (f_trapno f) = false /\ exists p, procs (ptab s') !! i = Some p /\ killed p = false) /\
  (forall me g, fault (f_trapno g) = true -> me = None \/ Z.land (f_cs g) 3 = 0 -> trap fuel cpuid me g s = Panic "trap").
Proof.
  intros U. split.
  - intros s' E. split; [|by eapply trap_back]. destruct (fault (f_trapno f)) eqn:Fa; [exfalso|done]. revert E. unfold trap.
    rewrite (fault_not_syscall _ Fa).
    unfold user_mode in U. pose proof (dispatch_fault cpuid (Some i) f s Fa) as D. cbn in D. apply Z.eqb_eq in U. rewrite U in D. cbn in D. run D.
    intros E. apply bind_inv in E as (? & ? & E & _). cbn in E. apply bind_inv in E as (p & s1 & [-> Hp]%get_proc_inv & E).
    cbn in Hp. unfold set_proc in Hp. cbn in Hp. rewrite list_lookup_alter_eq in Hp. destruct (procs (ptab s) !! i) as [q|]; [|done]. injection Hp as <-.
    change (killed (set_killed true q)) with true in E. unfold user_mode in E. rewrite U in E. change (true && (3 =? DPL_USER)) with true in E. cbn [when] in E.
    destruct x. by apply exit_no_return in E.
  - intros me g Fa C. unfold trap. rewrite (fault_not_syscall _ Fa).
    pose proof (dispatch_fault cpuid me g s Fa) as D. apply bind_Panic. rewrite D. destruct C as [->| C]; [done|]. destruct me; [|done]. by rewrite C.
Qed.

End Trap.

(** Every gate leads to its vector, and user code can only call the one for system
    calls. *)
Lemma tvinit_gates vectors i g : tvinit vectors !! i = Some g -> target g = u32 (vectors (Z.of_nat i)) /\ g_p g = 1 /\ (dpl g = DPL_USER <-> Z.of_nat i = T_SYSCALL).
Proof.
  assert (T : forall b sel off d, target (SETGATE b sel off d) = u32 off).
  { intros b sel off d. unfold target. cbn. change 65535 with (Z.ones 16). rewrite Z.land_ones, Z.shiftr_div_pow2 by lia. pose proof (Z.div_mod (u32 off) (2 ^ 16)). lia. }
  unfold tvinit. destruct (decide (i = Z.to_nat T_SYSCALL)) as [->|N].
  - rewrite list_lookup_insert_eq by (rewrite length_map, length_seq; vm_compute; lia). intros [= <-]. rewrite T. done.
  - rewrite list_lookup_insert_ne by done. rewrite list_lookup_fmap. intros (j & Hj & ->)%fmap_Some. apply lookup_seq in Hj as [-> Hj]. rewrite T.
    split; [done|]. split; [done|]. cbn. split; [done|]. intros E. destruct N. rewrite <- E. lia.
Qed.

Definition no_devices : Handlers (F := unit) := {| ideintr := ret tt; kbdintr := ret tt; uartintr := ret tt; lapiceoi := ret tt |}.

(** A page fault of the process of the demonstration, and its keyboard interrupt. *)
Lemma trap_safe_witness :
  (forall s', @trap unit demo_link demo_data demo_files come_back demo_calls 0 0 no_devices 5 0 (Some 0%nat) (Frame 200 14 35) demo <> Done tt s') /\
  exists p, procs (ptab demo) !! 0%nat = Some p /\ killed p = false.
Proof.
  split.
  - intros s' E. destruct (@trap_safe unit demo_link demo_data demo_files come_back demo_calls 0 0 no_devices 5 0 0 (Frame 200 14 35) demo eq_refl) as [H _].
    destruct (H s' E) as [X _]. discriminate X.
  - destruct (@trap_safe unit demo_link demo_data demo_files come_back demo_calls 0 0 no_devices 5 0 0 (Frame 200 33 35) demo eq_refl) as [H _].
    destruct (H demo eq_refl) as [_ P]. exact P.
Defined.

End Trap.
