(* ===== verification/PipeMem.v ===== *)
(** * Pipes in kernel memory (kernel/pipe.c)

    The code of [pipewrite], [piperead] and [pipeclose] on a [struct pipe] in a
    page of kernel memory, for the process [me] that calls it, with the switch to
    other processes where it sleeps.  Pipe.v has the same code in micro steps and
    shows what any interleaving of its callers does; here the bytes are tied to
    the caller's buffer and to memory: as long as it need not sleep, a call does
    to the queue in memory what Pipe.v's steps do to the queue there. *)

From stdpp Require Import functions.
From S2P Require Import Prelude Spinlock KString Kalloc Vm Proc Syscall Pipe.

Module PipeMem.
Import Proc Syscall.

(** The fields of [struct pipe], whose lock takes the first 52 bytes. *)
Definition P_DATA : Z := 52.
Definition P_NREAD : Z := 564.
Definition P_NWRITE : Z := 568.
Definition P_READOPEN : Z := 572.
Definition P_WRITEOPEN : Z := 576.

Section Code.
Context {F : Type} `{Linker} `{!Switch F}.
Local Notation kst := (Proc.kst F).

Definition pfield (p off : Z) : M kst Z := mem_op (Vm.ld (p + off)).
Definition set_pfield (p off v : Z) : M kst unit := mem_op (Vm.st (p + off) v).

Definition pipeclose (p : Z) (writable : bool) : M kst unit :=
  acquire (LPipe p) ;!
  (if writable then set_pfield p P_WRITEOPEN 0 ;! wakeup (Some (CPipeRead p))
   else set_pfield p P_READOPEN 0 ;! wakeup (Some (CPipeWrite p))) ;!
  let! r := pfield p P_READOPEN in
  let! w := pfield p P_WRITEOPEN in
  if (r =? 0) && (w =? 0) then release (LPipe p) ;! mem_op (Kalloc.kfree p)
  else release (LPipe p).

(** The inner loop of [pipewrite], for at most [fuel] sleeps: whether there is
    room; if there never will be, the lock is released. *)
Fixpoint pipewrite_wait (fuel me : nat) (p : Z) : M kst bool :=
  let! nw := pfield p P_NWRITE in
  let! nr := pfield p P_NREAD in
  if nw =? u32 (nr + Pipe.PIPESIZE) then
    let! ro := pfield p P_READOPEN in
    let! q := get_proc me in
    if (ro =? 0) || killed q then release (LPipe p) ;! ret false
    else match fuel with
         | O => nofuel
         | S f =>
             wakeup (Some (CPipeRead p)) ;!
             sleep (Some me) (Some (CPipeWrite p)) (Some (LPipe p)) ;!
             pipewrite_wait f me p
         end
  else ret true.

Definition put_byte (p b : Z) : M kst unit :=
  let! nw := pfield p P_NWRITE in
  set_pfield p P_NWRITE (nw + 1) ;!
  mem_op (modify (fun k => Kalloc.set_mm (<[p + P_DATA + nw mod Pipe.PIPESIZE := u8 b]> (Kalloc.mm k)) k)).

(** [k] is at least the number of turns left. *)
Fixpoint pipewrite_for (k fuel me : nat) (p addr n i : Z) : M kst Z :=
  if i <? n then
    match k with
    | O => nofuel
    | S k' =>
        let! room := pipewrite_wait fuel me p in
        if room : bool then
          let! b := uload8 me (addr + i) in
          put_byte p b ;!
          pipewrite_for k' fuel me p addr n (i + 1)
        else ret (-1)
    end
  else wakeup (Some (CPipeRead p)) ;! release (LPipe p) ;! ret n.

Definition pipewrite (fuel me : nat) (p addr n : Z) : M kst Z :=
  acquire (LPipe p) ;! pipewrite_for (Z.to_nat n) fuel me p addr n 0.

(** The first loop of [piperead]; [false] after a kill. *)
Fixpoint piperead_wait (fuel me : nat) (p : Z) : M kst bool :=
  let! nr := pfield p P_NREAD in
  let! nw := pfield p P_NWRITE in
  let! wo := pfield p P_WRITEOPEN in
  if (nr =? nw) && negb (wo =? 0) then
    let! q := get_proc me in
    if killed q then release (LPipe p) ;! ret false
    else match fuel with
         | O => nofuel
         | S f => sleep (Some me) (Some (CPipeRead p)) (Some (LPipe p)) ;! piperead_wait f me p
         end
  else ret true.

Definition take_byte (p : Z) : M kst Z :=
  let! nr := pfield p P_NREAD in
  set_pfield p P_NREAD (nr + 1) ;!
  mem_op (gets (fun k => Kalloc.mm k (p + P_DATA + nr mod Pipe.PIPESIZE))).

Fixpoint piperead_for (k me : nat) (p addr n i : Z) : M kst Z :=
  let end_ := wakeup (Some (CPipeWrite p)) ;! release (LPipe p) ;! ret i in
  if i <? n then
    let! nr := pfield p P_NREAD in
    let! nw := pfield p P_NWRITE in
    if nr =? nw then end_
    else match k with
         | O => nofuel
         | S k' => let! c := take_byte p in ustore8 me (addr + i) c ;! piperead_for k' me p addr n (i + 1)
         end
  else end_.

Definition piperead (fuel me : nat) (p addr n : Z) : M kst Z :=
  acquire (LPipe p) ;!
  let! more := piperead_wait fuel me p in
  if more : bool then piperead_for (Z.to_nat n) me p addr n 0 else ret (-1).

End Code.
End PipeMem.
