(* ===== verification/Fs.v ===== *)
(** * The file system (kernel/fs.c)

    Blocks, inodes, directories and path names, over the block layer of a
    transaction.  [Blocks] is what fs.c calls in bio.c and log.c and [BlocksSpec]
    what it relies on; Log.v's operations implement them (FsLog.v).  A pointer to
    a cached inode is its index in the cache, a buffer pointer is the buffer's
    index, and a string is the list of its bytes. *)

From S2P Require Import Prelude Spinlock Bio Log.

Module Fs.
Notation block := Bio.block.

Definition ROOTINO : Z := 1.
Definition BSIZE : Z := 512.
Definition NDIRECT : nat := 12.
Definition NINDIRECT : nat := 128.
Definition MAXFILE : Z := 140.
Definition IPB : Z := 8.
Definition BPB : Z := 4096.
Definition DIRSIZ : nat := 14.
Definition NINODE : nat := 50.
Definition NDEV : Z := 10.
Definition T_DIR : Z := 1.
Definition T_FILE : Z := 2.
Definition T_DEV : Z := 3.
Definition I_BUSY : Z := 1.
Definition I_VALID : Z := 2.

Definition IBLOCK (i : Z) : Z := u32 (i / IPB + 2).
Definition BBLOCK (b ninodes : Z) : Z := u32 (b / BPB + ninodes / IPB + 3).

(** What fs.c calls below it: the cache, the data of a buffer, the log. *)
Class Blocks (B : Type) := {
  bread : Z -> Z -> M B nat;
  bdata : nat -> M B block;
  bstore : nat -> block -> M B unit;
  blog : nat -> M B unit;
  brelse : nat -> M B unit }.

(** The transactions that the callers of fs.c put around its operations. *)
Class Trans (B : Type) := { begin_trans : M B unit; commit_trans : M B unit }.

(** ** Inodes *)

Record inode := Inode {
  i_dev : Z; i_inum : Z; i_ref : Z; i_flags : Z;
  i_type : Z; i_major : Z; i_minor : Z; i_nlink : Z; i_size : Z; i_addrs : list Z }.

Definition set_ids (d n r f : Z) (ip : inode) : inode :=
  Inode d n r f (i_type ip) (i_major ip) (i_minor ip) (i_nlink ip) (i_size ip) (i_addrs ip).
Definition set_ref (r : Z) (ip : inode) : inode :=
  Inode (i_dev ip) (i_inum ip) r (i_flags ip) (i_type ip) (i_major ip) (i_minor ip) (i_nlink ip) (i_size ip) (i_addrs ip).
Definition set_iflags (f : Z) (ip : inode) : inode :=
  Inode (i_dev ip) (i_inum ip) (i_ref ip) f (i_type ip) (i_major ip) (i_minor ip) (i_nlink ip) (i_size ip) (i_addrs ip).
Definition set_type (t : Z) (ip : inode) : inode :=
  Inode (i_dev ip) (i_inum ip) (i_ref ip) (i_flags ip) t (i_major ip) (i_minor ip) (i_nlink ip) (i_size ip) (i_addrs ip).
Definition set_size (n : Z) (ip : inode) : inode :=
  Inode (i_dev ip) (i_inum ip) (i_ref ip) (i_flags ip) (i_type ip) (i_major ip) (i_minor ip) (i_nlink ip) n (i_addrs ip).
Definition set_addrs (a : list Z) (ip : inode) : inode :=
  Inode (i_dev ip) (i_inum ip) (i_ref ip) (i_flags ip) (i_type ip) (i_major ip) (i_minor ip) (i_nlink ip) (i_size ip) a.

(** [struct dinode] number [k] of a block: type, major, minor, nlink, size and
    the addresses. *)
Definition dinode_at (k : nat) : nat := 64 * k.
Definition dinode_type (k : nat) (x : block) : Z := s16 (get16 x (dinode_at k)).
Definition dinode_addrs (k : nat) (x : block) : list Z :=
  (fun i => get32 x (dinode_at k + 12 + 4 * i)) <$> seq 0 (S NDIRECT).

(** The fields copied by [ilock]. *)
Definition dinode_get (k : nat) (x : block) (ip : inode) : inode :=
  Inode (i_dev ip) (i_inum ip) (i_ref ip) (i_flags ip)
    (dinode_type k x) (s16 (get16 x (dinode_at k + 2))) (s16 (get16 x (dinode_at k + 4)))
    (s16 (get16 x (dinode_at k + 6))) (get32 x (dinode_at k + 8)) (dinode_addrs k x).

Fixpoint put_addrs (p : nat) (l : list Z) (x : block) : block :=
  match l with [] => x | a :: l' => put_addrs (p + 4) l' (put32 p a x) end.

(** The fields copied by [iupdate]. *)
Definition dinode_put (k : nat) (ip : inode) (x : block) : block :=
  let x := put16 (dinode_at k) (i_type ip) x in
  let x := put16 (dinode_at k + 2) (i_major ip) x in
  let x := put16 (dinode_at k + 4) (i_minor ip) x in
  let x := put16 (dinode_at k + 6) (i_nlink ip) x in
  let x := put32 (dinode_at k + 8) (i_size ip) x in
  put_addrs (dinode_at k + 12) (i_addrs ip) x.

(** The slot of an inode in its block. *)
Definition islot (inum : Z) : nat := Z.to_nat (inum mod IPB).

(** ** The operations *)

Section Ops.
Context {B : Type} `{Blocks B}.

(** [icache], and the block layer. *)
Record fsys := Fsys { blk : B; ic_lock : bool; icache : list inode }.

Definition set_blk (b : B) (s : fsys) : fsys := Fsys b (ic_lock s) (icache s).
Definition set_ic_lock (l : bool) (s : fsys) : fsys := Fsys (blk s) l (icache s).
Definition set_icache (l : list inode) (s : fsys) : fsys := Fsys (blk s) (ic_lock s) l.

Definition on_blk {A} (m : M B A) : M fsys A := zoom blk set_blk m.
Definition iacquire : M fsys unit := Spinlock.acquire ic_lock set_ic_lock.
Definition irelease : M fsys unit := Spinlock.release ic_lock set_ic_lock.

Definition geti (ip : nat) : M fsys inode := fun s =>
  match icache s !! ip with Some i => Done i s | None => Wild "inode pointer" end.
Definition upd_inode (ip : nat) (f : inode -> inode) : M fsys unit :=
  modify (fun s => set_icache (alter f ip (icache s)) s).

(** *** Blocks *)

Definition readsb (dev : Z) : M B Log.superblock :=
  let! bp := bread dev 1 in
  let! x := bdata bp in
  brelse bp ;!
  ret (Log.sb_dec x).

Definition bzero (dev bno : Z) : M B unit :=
  let! bp := bread dev bno in
  bstore bp (replicate 512 0) ;!
  blog bp ;!
  brelse bp.

(** The bit of block number [bi] of a bitmap block. *)
Definition bit_mask (bi : Z) : Z := Z.shiftl 1 (bi mod 8).
Definition bit_byte (bi : Z) (x : block) : Z := x !!! Z.to_nat (bi / 8).
Definition bit_used (bi : Z) (x : block) : bool := negb (Z.land (bit_byte bi x) (bit_mask bi) =? 0).
Definition bit_set (bi : Z) (x : block) : block :=
  <[Z.to_nat (bi / 8) := u8 (Z.lor (bit_byte bi x) (bit_mask bi))]> x.
Definition bit_clear (bi : Z) (x : block) : block :=
  <[Z.to_nat (bi / 8) := u8 (Z.land (bit_byte bi x) (Z.lnot (bit_mask bi)))]> x.

(** [for (bi = 0; bi < BPB && b + bi < sb.size; bi++)]: the first free bit. *)
Fixpoint free_bit (n : nat) (bi b size : Z) (x : block) : option Z :=
  match n with
  | O => None
  | S n' =>
      if (bi <? BPB) && (b + bi <? size) then
        if bit_used bi x then free_bit n' (bi + 1) b size x else Some bi
      else None
  end.

(** [for (b = 0; b < sb.size; b += BPB)] *)
Fixpoint balloc_loop (n : nat) (dev b : Z) (sb : Log.superblock) : M B Z :=
  match n with
  | O => nofuel
  | S n' =>
      if b <? Log.sb_size sb then
        let! bp := bread dev (BBLOCK b (Log.sb_ninodes sb)) in
        let! x := bdata bp in
        match free_bit (Z.to_nat BPB) 0 b (Log.sb_size sb) x with
        | Some bi =>
            bstore bp (bit_set bi x) ;!
            blog bp ;!
            brelse bp ;!
            bzero dev (b + bi) ;!
            ret (b + bi)
        | None => brelse bp ;! balloc_loop n' dev (b + BPB) sb
        end
      else panic "balloc: out of blocks"
  end.

Definition balloc (dev : Z) : M B Z :=
  let! sb := readsb dev in
  balloc_loop (Z.to_nat (Log.sb_size sb / BPB + 2)) dev 0 sb.

Definition bfree (dev b : Z) : M B unit :=
  let! sb := readsb dev in
  let! bp := bread dev (BBLOCK b (Log.sb_ninodes sb)) in
  let! x := bdata bp in
  let bi := b mod BPB in
  if negb (bit_used bi x) then panic "freeing free block"
  else bstore bp (bit_clear bi x) ;! blog bp ;! brelse bp.

(** *** The inode cache *)

Definition zero_inode : inode := Inode 0 0 0 0 0 0 0 0 0 (replicate (S NDIRECT) 0).
Definition iinit (b : B) : fsys := Fsys b false (replicate NINODE zero_inode).

(** The loop of [iget]: the entry of the inode, and the first empty one before. *)
Fixpoint iget_scan (dev inum : Z) (l : list inode) (i : nat) (empty : option nat) : option nat * option nat :=
  match l with
  | [] => (None, empty)
  | ip :: l' =>
      if (i_ref ip >? 0) && (i_dev ip =? dev) && (i_inum ip =? inum) then (Some i, empty)
      else iget_scan dev inum l' (S i)
             (match empty with None => if i_ref ip =? 0 then Some i else None | Some e => Some e end)
  end.

Definition iget (dev inum : Z) : M fsys nat :=
  iacquire ;!
  let! l := gets icache in
  match iget_scan dev inum l 0 None with
  | (Some i, _) => upd_inode i (fun ip => set_ref (s32 (i_ref ip + 1)) ip) ;! irelease ;! ret i
  | (None, None) => panic "iget: no inodes"
  | (None, Some e) => upd_inode e (set_ids dev inum 1 0) ;! irelease ;! ret e
  end.

Definition idup (ip : nat) : M fsys nat :=
  iacquire ;! upd_inode ip (fun i => set_ref (s32 (i_ref i + 1)) i) ;! irelease ;! ret ip.

(** [for (inum = 1; inum < sb.ninodes; inum++)] of [ialloc]; the slot found is
    cleared but for its type. *)
Fixpoint ialloc_loop (n : nat) (dev type inum ninodes : Z) : M fsys nat :=
  match n with
  | O => nofuel
  | S n' =>
      if inum <? ninodes then
        let! bp := on_blk (bread dev (IBLOCK inum)) in
        let! x := on_blk (bdata bp) in
        if dinode_type (islot inum) x =? 0 then
          on_blk (bstore bp (put16 (dinode_at (islot inum)) type
                               (poke (dinode_at (islot inum)) (replicate 64 0) x))) ;!
          on_blk (blog bp) ;!
          on_blk (brelse bp) ;!
          iget dev inum
        else on_blk (brelse bp) ;! ialloc_loop n' dev type (inum + 1) ninodes
      else panic "ialloc: no inodes"
  end.

Definition ialloc (dev type : Z) : M fsys nat :=
  let! sb := on_blk (readsb dev) in
  ialloc_loop (Z.to_nat (Log.sb_ninodes sb) + 1) dev type 1 (Log.sb_ninodes sb).

Definition iupdate (ip : nat) : M fsys unit :=
  let! i := geti ip in
  let! bp := on_blk (bread (i_dev i) (IBLOCK (i_inum i))) in
  let! x := on_blk (bdata bp) in
  on_blk (bstore bp (dinode_put (islot (i_inum i)) i x)) ;!
  on_blk (blog bp) ;!
  on_blk (brelse bp).

Definition iflag (f : Z) (i : inode) : bool := negb (Z.land (i_flags i) f =? 0).

(** A null pointer is [None]. *)
Definition ilock (ip : option nat) : M fsys unit :=
  match ip with
  | None => panic "ilock"
  | Some ip =>
      let! i := geti ip in
      if i_ref i <? 1 then panic "ilock"
      else
        iacquire ;!
        let! i := geti ip in
        if iflag I_BUSY i then irelease ;! sleepOn (CInode ip)
        else
          upd_inode ip (fun i => set_iflags (Z.lor (i_flags i) I_BUSY) i) ;!
          irelease ;!
          let! i := geti ip in
          if iflag I_VALID i then ret tt
          else
            let! bp := on_blk (bread (i_dev i) (IBLOCK (i_inum i))) in
            let! x := on_blk (bdata bp) in
            upd_inode ip (dinode_get (islot (i_inum i)) x) ;!
            on_blk (brelse bp) ;!
            upd_inode ip (fun i => set_iflags (Z.lor (i_flags i) I_VALID) i) ;!
            let! i := geti ip in
            if i_type i =? 0 then panic "ilock: no type" else ret tt
  end.

Definition iunlock (ip : option nat) : M fsys unit :=
  match ip with
  | None => panic "iunlock"
  | Some ip =>
      let! i := geti ip in
      if negb (iflag I_BUSY i) || (i_ref i <? 1) then panic "iunlock"
      else
        iacquire ;!
        upd_inode ip (fun i => set_iflags (Z.land (i_flags i) (Z.lnot I_BUSY)) i) ;!
        irelease
  end.

(** *** Contents *)

(** An entry of [ip->addrs] and its update. *)
Definition get_addr (ip k : nat) : M fsys Z :=
  let! i := geti ip in
  match i_addrs i !! k with Some a => ret a | None => wild "ip->addrs" end.
Definition set_addr (ip k : nat) (a : Z) : M fsys unit :=
  upd_inode ip (fun i => set_addrs (<[k := a]> (i_addrs i)) i).

(** [if ((addr = ip->addrs[k]) == 0) ip->addrs[k] = addr = balloc(ip->dev);] *)
Definition addr_or_alloc (ip k : nat) : M fsys Z :=
  let! addr := get_addr ip k in
  if addr =? 0 then
    let! i := geti ip in
    let! a := on_blk (balloc (i_dev i)) in
    set_addr ip k a ;!
    ret a
  else ret addr.

Definition bmap (ip : nat) (bn : Z) : M fsys Z :=
  if bn <? Z.of_nat NDIRECT then addr_or_alloc ip (Z.to_nat bn)
  else
    let bn := bn - Z.of_nat NDIRECT in
    if bn <? Z.of_nat NINDIRECT then
      let! addr := addr_or_alloc ip NDIRECT in
      let! i := geti ip in
      let! bp := on_blk (bread (i_dev i) addr) in
      let! x := on_blk (bdata bp) in
      let addr := get32 x (Z.to_nat (4 * bn)) in
      if addr =? 0 then
        let! addr := on_blk (balloc (i_dev i)) in
        let! x := on_blk (bdata bp) in
        on_blk (bstore bp (put32 (Z.to_nat (4 * bn)) addr x)) ;!
        on_blk (blog bp) ;!
        on_blk (brelse bp) ;!
        ret addr
      else on_blk (brelse bp) ;! ret addr
    else panic "bmap: out of range".

Definition itrunc (ip : nat) : M fsys unit :=
  let! i := geti ip in
  forM (seq 0 NDIRECT) (fun k =>
    let! a := get_addr ip k in
    when (negb (a =? 0)) (on_blk (bfree (i_dev i) a) ;! set_addr ip k 0)) ;!
  let! a := get_addr ip NDIRECT in
  when (negb (a =? 0)) (
    let! bp := on_blk (bread (i_dev i) a) in
    let! x := on_blk (bdata bp) in
    forM (seq 0 NINDIRECT) (fun j =>
      let b := get32 x (4 * j) in
      when (negb (b =? 0)) (on_blk (bfree (i_dev i) b))) ;!
    on_blk (brelse bp) ;!
    on_blk (bfree (i_dev i) a) ;!
    set_addr ip NDIRECT 0) ;!
  upd_inode ip (set_size 0) ;!
  iupdate ip.

Definition iput (ip : nat) : M fsys unit :=
  iacquire ;!
  let! i := geti ip in
  (if (i_ref i =? 1) && iflag I_VALID i && (i_nlink i =? 0) then
     if iflag I_BUSY i then panic "iput busy"
     else
       upd_inode ip (fun i => set_iflags (Z.lor (i_flags i) I_BUSY) i) ;!
       irelease ;!
       itrunc ip ;!
       upd_inode ip (set_type 0) ;!
       iupdate ip ;!
       iacquire ;!
       upd_inode ip (set_iflags 0)
   else ret tt) ;!
  upd_inode ip (fun i => set_ref (s32 (i_ref i - 1)) i) ;!
  irelease.

Definition iunlockput (ip : nat) : M fsys unit := iunlock (Some ip) ;! iput ip.

(** [struct stat] *)
Record stat := Stat { st_type : Z; st_dev : Z; st_ino : Z; st_nlink : Z; st_size : Z }.

Definition stati (ip : nat) : M fsys stat :=
  let! i := geti ip in ret (Stat (i_type i) (s32 (i_dev i)) (i_inum i) (i_nlink i) (i_size i)).

(** [devsw]: the functions of a device, where it has any; reading gives the
    result and the bytes stored at [dst]. *)
Class Devices := {
  dev_read : Z -> option (nat -> Z -> M fsys (Z * list Z));
  dev_write : Z -> option (nat -> list Z -> Z -> M fsys Z) }.

(** [for (tot = 0; tot < n; tot += m, off += m, dst += m)]; [acc] is what has
    been stored at [dst]. *)
Fixpoint readi_loop (fuel : nat) (ip : nat) (off n tot : Z) (acc : list Z) : M fsys (list Z) :=
  if tot <? n then
    match fuel with
    | O => nofuel
    | S fuel' =>
        let! b := bmap ip (off / BSIZE) in
        let! i := geti ip in
        let! bp := on_blk (bread (i_dev i) b) in
        let m := Z.min (n - tot) (BSIZE - off mod BSIZE) in
        let! x := on_blk (bdata bp) in
        on_blk (brelse bp) ;!
        readi_loop fuel' ip (off + m) n (tot + m) (acc ++ peek (Z.to_nat (off mod BSIZE)) (Z.to_nat m) x)
    end
  else ret acc.

(** The result, and the bytes stored at [dst]. *)
Definition readi `{!Devices} (ip : nat) (off n : Z) : M fsys (Z * list Z) :=
  let! i := geti ip in
  if i_type i =? T_DEV then
    if (i_major i <? 0) || (i_major i >=? NDEV) then ret (-1, [])
    else match dev_read (i_major i) with
         | None => ret (-1, [])
         | Some f => f ip n
         end
  else if (off >? i_size i) || (u32 (off + n) <? off) then ret (-1, [])
  else
    let n := if u32 (off + n) >? i_size i then i_size i - off else n in
    let! l := readi_loop (Z.to_nat n) ip off n 0 [] in
    ret (s32 n, l).

(** The loop of [writei]; [src] is what is left to write.  The result is the
    final offset. *)
Fixpoint writei_loop (fuel : nat) (ip : nat) (src : list Z) (off n tot : Z) : M fsys Z :=
  if tot <? n then
    match fuel with
    | O => nofuel
    | S fuel' =>
        let! b := bmap ip (off / BSIZE) in
        let! i := geti ip in
        let! bp := on_blk (bread (i_dev i) b) in
        let m := Z.min (n - tot) (BSIZE - off mod BSIZE) in
        let! x := on_blk (bdata bp) in
        on_blk (bstore bp (poke (Z.to_nat (off mod BSIZE)) (take (Z.to_nat m) src) x)) ;!
        on_blk (blog bp) ;!
        on_blk (brelse bp) ;!
        writei_loop fuel' ip (drop (Z.to_nat m) src) (off + m) n (tot + m)
    end
  else ret off.

Definition writei `{!Devices} (ip : nat) (src : list Z) (off n : Z) : M fsys Z :=
  let! i := geti ip in
  if i_type i =? T_DEV then
    if (i_major i <? 0) || (i_major i >=? NDEV) then ret (-1)
    else match dev_write (i_major i) with
         | None => ret (-1)
         | Some f => f ip src n
         end
  else if (off >? i_size i) || (u32 (off + n) <? off) then ret (-1)
  else if u32 (off + n) >? MAXFILE * BSIZE then ret (-1)
  else
    let! off := writei_loop (Z.to_nat n) ip src off n 0 in
    let! i := geti ip in
    when ((n >? 0) && (off >? i_size i)) (upd_inode ip (set_size off) ;! iupdate ip) ;!
    ret (s32 n).

(** *** Directories *)

(** A byte of a string or of the 14 bytes of a name; behind it there is a NUL. *)
Definition ch (l : list Z) (k : nat) : Z := default 0 (l !! k).

(** [strncmp(s, t, n)] from character [k] on. *)
Fixpoint strncmp_from (n k : nat) (s t : list Z) : Z :=
  match n with
  | O => 0
  | S n' => if negb (ch s k =? 0) && (ch s k =? ch t k) then strncmp_from n' (S k) s t else ch s k - ch t k
  end.

Definition namecmp (s t : list Z) : Z := strncmp_from DIRSIZ 0 s t.

(** [strncpy(de.name, name, DIRSIZ)]: up to the NUL, then zeros. *)
Fixpoint strncpy_from (n k : nat) (s : list Z) : list Z :=
  match n with
  | O => []
  | S n' => if ch s k =? 0 then replicate n 0 else ch s k :: strncpy_from n' (S k) s
  end.

Definition sizeof_dirent : Z := 16.

(** [struct dirent] as read by [readi]. *)
Definition de_inum (l : list Z) : Z := get16 l 0.
Definition de_name (l : list Z) : list Z := drop 2 l.

Fixpoint dirlookup_loop `{!Devices} (fuel : nat) (dp : nat) (name : list Z) (off : Z) : M fsys (option (nat * Z)) :=
  let! d := geti dp in
  if off <? i_size d then
    match fuel with
    | O => nofuel
    | S fuel' =>
        let! r := readi dp off sizeof_dirent in
        if negb (r.1 =? sizeof_dirent) then panic "dirlink read"
        else if de_inum r.2 =? 0 then dirlookup_loop fuel' dp name (off + sizeof_dirent)
        else if namecmp name (de_name r.2) =? 0 then
          let! d := geti dp in
          let! ip := iget (i_dev d) (de_inum r.2) in
          ret (Some (ip, off))
        else dirlookup_loop fuel' dp name (off + sizeof_dirent)
    end
  else ret None.

(** The inode and the offset stored through [poff]; 0 is [None]. *)
Definition dirlookup `{!Devices} (dp : nat) (name : list Z) : M fsys (option (nat * Z)) :=
  let! d := geti dp in
  if negb (i_type d =? T_DIR) then panic "dirlookup not DIR"
  else dirlookup_loop (Z.to_nat (i_size d)) dp name 0.

(** The offset of the first empty entry, or that of the end. *)
Fixpoint empty_dirent `{!Devices} (fuel : nat) (dp : nat) (off : Z) : M fsys Z :=
  let! d := geti dp in
  if off <? i_size d then
    match fuel with
    | O => nofuel
    | S fuel' =>
        let! r := readi dp off sizeof_dirent in
        if negb (r.1 =? sizeof_dirent) then panic "dirlink read"
        else if de_inum r.2 =? 0 then ret off
        else empty_dirent fuel' dp (off + sizeof_dirent)
    end
  else ret off.

Definition dirlink `{!Devices} (dp : nat) (name : list Z) (inum : Z) : M fsys Z :=
  let! r := dirlookup dp name in
  match r with
  | Some (ip, _) => iput ip ;! ret (-1)
  | None =>
      let! d := geti dp in
      let! off := empty_dirent (Z.to_nat (i_size d)) dp 0 in
      let! w := writei dp (le_enc 2 inum ++ strncpy_from DIRSIZ 0 name) off sizeof_dirent in
      if negb (w =? sizeof_dirent) then panic "dirlink" else ret 0
  end.

End Ops.
Arguments fsys : clear implicits.

(** *** Paths *)

Definition slash : Z := 47.

(** The loop over leading slashes. *)
Fixpoint skip_slashes (path : list Z) : list Z :=
  match path with c :: p => if c =? slash then skip_slashes p else path | [] => [] end.

(** The loop to the end of an element: what was passed, and the rest. *)
Fixpoint take_elem (path : list Z) : list Z * list Z :=
  match path with
  | c :: p => if c =? slash then ([], path) else let '(e, r) := take_elem p in (c :: e, r)
  | [] => ([], [])
  end.

(** The rest of the path and the 14 bytes at [name] afterwards; 0 is [None]. *)
Definition skipelem (path name : list Z) : option (list Z * list Z) :=
  match skip_slashes path with
  | [] => None
  | p =>
      let '(s, r) := take_elem p in
      let name := if (DIRSIZ <=? length s)%nat then take DIRSIZ s ++ drop DIRSIZ name
                  else s ++ 0 :: drop (S (length s)) name in
      Some (skip_slashes r, name)
  end.

Section Names.
Context {B : Type} `{Blocks B} `{!@Devices B}.

(** The loop of [namex]; the inode and the bytes at [name]. *)
Fixpoint namex_loop (fuel : nat) (parent : bool) (ip : nat) (path name : list Z) : M (fsys B) (option nat * list Z) :=
  match skipelem path name with
  | None => if parent then iput ip ;! ret (None, name) else ret (Some ip, name)
  | Some (path, name) =>
      match fuel with
      | O => nofuel
      | S fuel' =>
          ilock (Some ip) ;!
          let! i := geti ip in
          if negb (i_type i =? T_DIR) then iunlockput ip ;! ret (None, name)
          else if parent && bool_decide (path = []) then iunlock (Some ip) ;! ret (Some ip, name)
          else
            let! next := dirlookup ip name in
            match next with
            | None => iunlockput ip ;! ret (None, name)
            | Some (next, _) => iunlockput ip ;! namex_loop fuel' parent next path name
            end
      end
  end.

(** [cwd] is [proc->cwd]. *)
Definition namex (cwd : nat) (path : list Z) (parent : bool) (name : list Z) : M (fsys B) (option nat * list Z) :=
  let! ip := if ch path 0 =? slash then iget Log.ROOTDEV ROOTINO else idup cwd in
  namex_loop (length path) parent ip path name.

Definition namei (cwd : nat) (path : list Z) : M (fsys B) (option nat) :=
  let! r := namex cwd path false (replicate DIRSIZ 0) in ret r.1.

Definition nameiparent (cwd : nat) (path name : list Z) : M (fsys B) (option nat * list Z) :=
  namex cwd path true name.

End Names.

(** ** Paths against a reference *)

(** The pieces of a path between slashes. *)
Fixpoint split (l : list Z) : list (list Z) :=
  match l with
  | [] => [[]]
  | c :: l' => if c =? slash then [] :: split l'
               else match split l' with e :: es => (c :: e) :: es | [] => [[c]] end
  end.

(** The elements of a path name: the pieces that are not empty. *)
Definition elements (l : list Z) : list (list Z) := filter (fun e => e <> []) (split l).

(** The string in a name buffer. *)
Fixpoint cname (n : nat) (l : list Z) : list Z :=
  match n, l with
  | S n', c :: l' => if c =? 0 then [] else c :: cname n' l'
  | _, _ => []
  end.

Lemma elements_slash l : elements (slash :: l) = elements l.
Proof. unfold elements. cbn [split]. rewrite Z.eqb_refl. by rewrite filter_cons_False by auto. Qed.

Lemma skip_slashes_elements l : elements (skip_slashes l) = elements l.
Proof.
  induction l as [|c l IH]; [done|]. cbn [skip_slashes]. destruct (Z.eqb_spec c slash) as [->|]; [|done].
  by rewrite IH, elements_slash.
Qed.

Lemma skip_slashes_head l c r : skip_slashes l = c :: r -> c <> slash.
Proof.
  induction l as [|d l IH]; [done|]. cbn [skip_slashes]. destruct (Z.eqb_spec d slash); [done|]. by intros [= -> ->].
Qed.

Lemma skip_slashes_le l : (length (skip_slashes l) <= length l)%nat.
Proof. induction l as [|c l IH]; [done|]. cbn. destruct (c =? slash); cbn; lia. Qed.

Lemma skip_slashes_Forall (P : Z -> Prop) l : Forall P l -> Forall P (skip_slashes l).
Proof. induction 1 as [|c l Hc Hl IH]; [by constructor|]. cbn. destruct (c =? slash); [done|by constructor]. Qed.

Lemma take_elem_split l e r : take_elem l = (e, r) ->
  l = e ++ r /\ Forall (fun c => c <> slash) e /\
  (r = [] /\ split l = [e] \/ exists r', r = slash :: r' /\ split l = e :: split r').
Proof.
  revert e r. induction l as [|c l IH]; intros e r; cbn [take_elem split].
  - intros [= <- <-]. split; [done|]. split; [done|by left].
  - destruct (Z.eqb_spec c slash) as [->|Hc].
    + intros [= <- <-]. split; [done|]. split; [done|]. right. eauto.
    + destruct (take_elem l) as [e' r'] eqn:E. intros [= <- <-].
      destruct (IH _ _ eq_refl) as (-> & F & S). split; [done|]. split; [by constructor|].
      destruct S as [[-> ->] | (r0 & -> & ->)]; [by left|right; eauto].
Qed.

Lemma cname_app n e l : Forall (fun c => c <> 0) e -> (length e <= n)%nat ->
  cname n (e ++ l) = e ++ cname (n - length e) l.
Proof.
  revert n. induction e as [|c e IH]; intros n F Hn; cbn [app length]; [by rewrite Nat.sub_0_r|].
  inversion F as [|? ? Hc Fe]; subst. cbn [length] in Hn. destruct n as [|n]; [lia|]. cbn [cname].
  replace (c =? 0) with false by lia. f_equal. apply IH; [done|lia].
Qed.

(** [skipelem] takes the elements of a path name off one by one: it returns 0
    exactly when no element is left; otherwise it stores the first one, cut to
    the 14 bytes of a name, and returns a shorter path that holds exactly the
    elements behind it, has no leading slash, and is empty exactly when the
    element was the last. *)
Lemma skipelem_spec path name : Forall (fun c => c <> 0) path -> length name = DIRSIZ ->
  match skipelem path name with
  | None => elements path = []
  | Some (r, name') => exists e, elements path = e :: elements r /\ cname DIRSIZ name' = take DIRSIZ e /\
      length name' = DIRSIZ /\ (length r < length path)%nat /\ (forall c r', r = c :: r' -> c <> slash) /\
      (r = [] <-> elements r = []) /\ Forall (fun c => c <> 0) r
  end.
Proof.
  intros F Hn. unfold skipelem. rewrite <- (skip_slashes_elements path).
  pose proof (skip_slashes_le path) as Hle. pose proof (skip_slashes_Forall _ _ F) as F'.
  destruct (skip_slashes path) as [|c p] eqn:Ep; [done|]. pose proof (skip_slashes_head _ _ _ Ep) as Hc.
  destruct (take_elem (c :: p)) as [e r] eqn:Et. destruct (take_elem_split _ _ _ Et) as (El & Fe & S).
  assert (He : e <> []).
  { intros ->. cbn [take_elem] in Et. rewrite (proj2 (Z.eqb_neq _ _) Hc) in Et. by destruct (take_elem p). }
  rewrite El in F'. apply Forall_app in F' as [Ne Nr]. exists e.
  assert (Hr : elements (c :: p) = e :: elements (skip_slashes r)).
  { rewrite skip_slashes_elements. unfold elements.
    destruct S as [[-> ->] | (r' & -> & ->)]; rewrite filter_cons_True by done; [done|].
    done. }
  split; [done|]. split; [|split; [|split; [|split; [by apply skip_slashes_head|split; [|by apply skip_slashes_Forall]]]]].
  - destruct (Nat.leb_spec DIRSIZ (length e)).
    + rewrite cname_app by (rewrite ?length_take; try lia; by apply Forall_take).
      rewrite length_take, Nat.min_l, Nat.sub_diag by lia. cbn [cname]. apply app_nil_r.
    + rewrite cname_app by (done || lia). rewrite take_ge by lia.
      destruct (DIRSIZ - length e)%nat; cbn [cname]; apply app_nil_r.
  - destruct (Nat.leb_spec DIRSIZ (length e)).
    + rewrite length_app, length_take, length_drop. lia.
    + rewrite length_app. cbn [length]. rewrite length_drop. lia.
  - pose proof (skip_slashes_le r). apply (f_equal length) in El. rewrite length_app in El.
    destruct e; [done|]. cbn [length] in El, Hle. lia.
  - split; [by intros ->|]. destruct (skip_slashes r) as [|d q] eqn:Eq; [done|].
    pose proof (skip_slashes_head _ _ _ Eq) as Hd. unfold elements. cbn [split].
    rewrite (proj2 (Z.eqb_neq _ _) Hd). by destruct (split q).
Qed.

(** skipelem("///a//bb", name) = "bb", setting name = "a" *)
Example skipelem_example :
  skipelem [47; 47; 47; 97; 47; 47; 98; 98] (replicate DIRSIZ 0) = Some ([98; 98], 97 :: replicate 13 0).
Proof. reflexivity. Qed.

(** ** The inode cache *)

Section Cache.
Context {B : Type} `{Blocks B}.

(** What identifies an entry and keeps it in the cache. *)
Definition ids (i : inode) : Z * Z * Z := (i_dev i, i_inum i, i_ref i).

(** [m] leaves every entry's identity and count alone, and takes the cache's lock
    from [b] to [b']. *)
Definition moves {A} (b b' : bool) (m : M (fsys B) A) : Prop := forall s a s',
  ic_lock s = b -> m s = Done a s' -> ids <$> icache s' = ids <$> icache s /\ ic_lock s' = b'.

Lemma moves_bind {A C} b b1 b' (m : M (fsys B) A) (k : A -> M (fsys B) C) :
  moves b b1 m -> (forall a, moves b1 b' (k a)) -> moves b b' (bind m k).
Proof.
  intros Hm Hk s c s' L (a & s1 & E & E')%bind_inv. destruct (Hm _ _ _ L E) as [<- L1]. by eapply Hk.
Qed.

Lemma moves_ret {A} b (a : A) : moves b b (ret a).
Proof. by intros s a' s' L [= <- <-]. Qed.

Lemma moves_fail {A} b b' (m : M (fsys B) A) : (forall s a s', m s <> Done a s') -> moves b b' m.
Proof. intros N s a s' _ E. by apply N in E. Qed.

Lemma moves_on_blk {A} b (m : M B A) : moves b b (on_blk m).
Proof. intros s a s' L. unfold on_blk, zoom. destruct (m (blk s)); [|done..]. by intros [= <- <-]. Qed.

Lemma moves_geti b ip : moves b b (geti ip).
Proof. intros s a s' L. unfold geti. destruct (_ !! _); [|done]. by intros [= <- <-]. Qed.

Lemma alter_ids f ip (l : list inode) : (forall i, ids (f i) = ids i) -> ids <$> alter f ip l = ids <$> l.
Proof.
  intros Hf. apply list_eq. intros j. rewrite !list_lookup_fmap. destruct (decide (ip = j)) as [<-|].
  - rewrite list_lookup_alter_eq. destruct (l !! ip); cbn; [by rewrite Hf|done].
  - by rewrite list_lookup_alter_ne.
Qed.

Lemma moves_upd b ip f : (forall i, ids (f i) = ids i) -> moves b b (upd_inode ip f).
Proof. intros Hf s a s' L [= _ <-]. cbn. by rewrite alter_ids. Qed.

Lemma moves_acquire : moves false true (iacquire (B := B)).
Proof. intros s a s' L. unfold iacquire, Spinlock.acquire. rewrite L. by intros [= _ <-]. Qed.

Lemma moves_release : moves true false (irelease (B := B)).
Proof. intros s a s' L. unfold irelease, Spinlock.release. rewrite L. by intros [= _ <-]. Qed.

Lemma moves_forM {A} b (l : list A) (f : A -> M (fsys B) unit) : (forall x, moves b b (f x)) -> moves b b (forM l f).
Proof.
  intros Hf. induction l as [|x l IH]; cbn [forM]; [apply moves_ret|]. eapply moves_bind; [apply Hf|done].
Qed.

Lemma moves_when b c (m : M (fsys B) unit) : moves b b m -> moves b b (when c m).
Proof. intros. destruct c; [done|apply moves_ret]. Qed.

Create HintDb moves.
#[local] Hint Resolve moves_ret moves_on_blk moves_geti moves_acquire moves_release moves_forM moves_when : moves.
#[local] Hint Extern 1 (moves _ _ (upd_inode _ _)) => apply moves_upd; reflexivity : moves.
#[local] Hint Extern 1 (moves _ _ (panic _)) => apply moves_fail; discriminate : moves.
#[local] Hint Extern 1 (moves _ _ (wild _)) => apply moves_fail; discriminate : moves.
#[local] Hint Extern 1 (moves _ _ nofuel) => apply moves_fail; discriminate : moves.
#[local] Hint Extern 1 (moves _ _ (sleepOn _)) => apply moves_fail; discriminate : moves.

(** Go through a body call by call. *)
Ltac moves_body :=
  repeat first
    [ solve [auto with moves]
    | match goal with |- moves _ _ (bind _ _) => eapply moves_bind; [solve [auto with moves]|intros] end
    | match goal with |- moves _ _ (if ?c then _ else _) => destruct c end
    | match goal with |- moves _ _ (match ?c with _ => _ end) => destruct c end
    | match goal with |- moves _ _ (forM _ _) => apply moves_forM; intros end
    | match goal with |- moves _ _ (when _ _) => apply moves_when end
    | match goal with |- moves ?b _ (bind _ _) => apply (moves_bind b b); [|intros] end ].

Lemma moves_iupdate b ip : moves b b (iupdate ip).
Proof. unfold iupdate. moves_body. Qed.
Lemma moves_get_addr b ip k : moves b b (get_addr ip k).
Proof. unfold get_addr. moves_body. Qed.
Lemma moves_set_addr b ip k a : moves b b (set_addr ip k a).
Proof. unfold set_addr. moves_body. Qed.
#[local] Hint Resolve moves_iupdate moves_get_addr moves_set_addr : moves.

Lemma moves_addr_or_alloc b ip k : moves b b (addr_or_alloc ip k).
Proof. unfold addr_or_alloc. moves_body. Qed.
#[local] Hint Resolve moves_addr_or_alloc : moves.

Lemma moves_bmap b ip bn : moves b b (bmap ip bn).
Proof. unfold bmap. moves_body. Qed.
Lemma moves_itrunc b ip : moves b b (itrunc ip).
Proof. unfold itrunc. moves_body. Qed.
#[local] Hint Resolve moves_bmap moves_itrunc : moves.

Lemma moves_ilock ip : moves false false (ilock ip).
Proof. unfold ilock. moves_body. Qed.
Lemma moves_iunlock ip : moves false false (iunlock ip).
Proof. unfold iunlock. moves_body. Qed.

Lemma moves_readi_loop b fuel ip : forall off n tot acc, moves b b (readi_loop fuel ip off n tot acc).
Proof. induction fuel as [|f IH]; intros; cbn [readi_loop]; moves_body; apply IH. Qed.
Lemma moves_writei_loop b fuel ip : forall src off n tot, moves b b (writei_loop fuel ip src off n tot).
Proof. induction fuel as [|f IH]; intros; cbn [writei_loop]; moves_body; apply IH. Qed.


(** The kernel's use of the cache: [h] lists the inode pointers it holds, each
    with the device and number it was obtained for.  Any operation that moves no
    reference may come between. *)
Definition refs (j : nat) (h : list (nat * (Z * Z))) : nat := length (filter (fun e => e.1 = j) h).

Inductive iuse : fsys B * list (nat * (Z * Z)) -> fsys B * list (nat * (Z * Z)) -> Prop :=
  | iuse_get d n j s s' h :
      Z.of_nat (length h) < 2 ^ 31 - 1 -> iget d n s = Done j s' -> iuse (s, h) (s', (j, (d, n)) :: h)
  | iuse_dup j j' k s s' h :
      Z.of_nat (length h) < 2 ^ 31 - 1 -> (j, k) ∈ h -> idup j s = Done j' s' -> iuse (s, h) (s', (j', k) :: h)
  | iuse_put j k s s' h1 h2 :
      iput j s = Done tt s' -> iuse (s, h1 ++ (j, k) :: h2) (s', h1 ++ h2)
  | iuse_other {A} (m : M (fsys B) A) a s s' h : moves false false m -> m s = Done a s' -> iuse (s, h) (s', h).

(** Identity and count of entry [j], if there is one. *)
Definition entry (s : fsys B) (j : nat) : option (Z * Z * Z) := (ids <$> icache s) !! j.

Record counted (s : fsys B) (h : list (nat * (Z * Z))) : Prop := {
  co_lock : ic_lock s = false;
  co_size : Z.of_nat (length h) < 2 ^ 31;
  co_ref j d n r : entry s j = Some (d, n, r) -> r = Z.of_nat (refs j h);
  co_held j d n : (j, (d, n)) ∈ h -> exists r, entry s j = Some (d, n, r);
  co_one j j' d n r r' : entry s j = Some (d, n, r) -> entry s j' = Some (d, n, r') -> 0 < r -> 0 < r' -> j = j' }.

Lemma refs_cons j e h : refs j (e :: h) = (if decide (e.1 = j) then S (refs j h) else refs j h).
Proof. unfold refs. rewrite filter_cons. by case_decide. Qed.

Lemma refs_mid j e h1 h2 : refs j (h1 ++ e :: h2) = refs j (e :: h1 ++ h2).
Proof. unfold refs. by rewrite <- Permutation_middle. Qed.

Lemma refs_le j h : (refs j h <= length h)%nat.
Proof. apply length_filter. Qed.

Lemma refs_pos j k h : (j, k) ∈ h -> (0 < refs j h)%nat.
Proof.
  intros E. unfold refs. assert (K : (j, k) ∈ filter (fun e => e.1 = j) h) by (by apply list_elem_of_filter).
  destruct (filter _ h); [by apply not_elem_of_nil in K|cbn; lia].
Qed.

Lemma counted_iinit b : counted (iinit b) [].
Proof.
  assert (Z0 : forall j x, entry (iinit b) j = Some x -> x = (0, 0, 0)).
  { intros j x. unfold entry. rewrite list_lookup_fmap. intros (i & [-> _]%lookup_replicate & ->)%fmap_Some. done. }
  constructor; [done|done|..].
  - by intros j d n r [= _ _ ->]%Z0.
  - by intros j d n ?%not_elem_of_nil.
  - intros j j' d n r r' [= _ _ ->]%Z0. lia.
Qed.

(** One entry changed. *)
Lemma entry_upd ip f (s : fsys B) j : entry (set_icache (alter f ip (icache s)) s) j =
  if decide (ip = j) then ids ∘ f <$> icache s !! j else entry s j.
Proof.
  unfold entry. cbn [icache set_icache]. rewrite !list_lookup_fmap. case_decide as E.
  - subst. rewrite list_lookup_alter_eq. by destruct (_ !! _).
  - by rewrite list_lookup_alter_ne.
Qed.

Lemma entry_at (s : fsys B) j i : icache s !! j = Some i -> entry s j = Some (ids i).
Proof. intros E. unfold entry. by rewrite list_lookup_fmap, E. Qed.

Lemma counted_moves {A} (m : M (fsys B) A) a s s' h : moves false false m -> m s = Done a s' -> counted s h -> counted s' h.
Proof.
  intros Hm E [L Sz R Hd O]. destruct (Hm _ _ _ L E) as [I L'].
  assert (Ee : forall j, entry s' j = entry s j) by (intros j; unfold entry; by rewrite I).
  constructor; [done|done|..]; intros *; rewrite ?Ee; eauto.
Qed.

(** One more reference to entry [j], which has the identity [d], [n] before and
    after. *)
Lemma counted_more s s' h j d n r : entry s j = Some (d, n, r) -> 0 < r ->
  Z.of_nat (length h) < 2 ^ 31 - 1 -> ic_lock s' = false ->
  (forall i, entry s' i = if decide (j = i) then Some (d, n, s32 (r + 1)) else entry s i) ->
  counted s h -> counted s' ((j, (d, n)) :: h).
Proof.
  intros E Hr Hl L' Ee [L Sz R Hd O]. pose proof (R _ _ _ _ E) as Er. pose proof (refs_le j h).
  assert (Ew : s32 (r + 1) = r + 1) by (apply s32_small; lia).
  constructor; [done|cbn [length]; lia|..].
  - intros i d' n' r'. rewrite Ee, refs_cons. cbn [Datatypes.fst].
    case_decide as Ei; [subst i; intros [= <- <- <-]; lia|]. apply R.
  - intros i d' n' [[= -> -> ->]|Hi]%elem_of_cons; rewrite Ee; case_decide; try done; [eauto| |by apply Hd].
    subst. destruct (Hd _ _ _ Hi) as [r' E']. rewrite E in E'. injection E' as -> ->. eauto.
  - intros i i' d' n' r1 r2. rewrite !Ee.
    assert (O' : forall i r1, entry s i = Some (d, n, r1) -> 0 < r1 -> j = i) by (intros; by eapply (O j)).
    repeat case_decide; subst; intros E1 E2 P1 P2; [done|..|by eapply O].
    + injection E1 as <- <- _. by eapply O'.
    + injection E2 as <- <- _. symmetry. by eapply O'.
Qed.

(** An unused entry gets an identity no entry in use has. *)
Lemma counted_new s s' h j d n d0 n0 : entry s j = Some (d0, n0, 0) ->
  (forall i r, entry s i = Some (d, n, r) -> r <= 0) ->
  Z.of_nat (length h) < 2 ^ 31 - 1 -> ic_lock s' = false ->
  (forall i, entry s' i = if decide (j = i) then Some (d, n, 1) else entry s i) ->
  counted s h -> counted s' ((j, (d, n)) :: h).
Proof.
  intros E Hn Hl L' Ee [L Sz R Hd O]. pose proof (R _ _ _ _ E) as Er.
  constructor; [done|cbn [length]; lia|..].
  - intros i d' n' r'. rewrite Ee, refs_cons. cbn [Datatypes.fst].
    case_decide as Ei; [subst i; intros [= <- <- <-]; lia|]. apply R.
  - intros i d' n' [[= -> -> ->]|Hi]%elem_of_cons; rewrite Ee; case_decide; try done; [eauto| |by apply Hd].
    subst. apply refs_pos in Hi. lia.
  - intros i i' d' n' r1 r2. rewrite !Ee. repeat case_decide; subst; intros E1 E2 P1 P2; [done|..|by eapply O].
    + injection E1 as <- <- _. apply Hn in E2. lia.
    + injection E2 as <- <- _. apply Hn in E1. lia.
Qed.

(** One reference less. *)
Lemma counted_less s s' h1 h2 j k d n r : entry s j = Some (d, n, r) -> ic_lock s' = false ->
  (forall i, entry s' i = if decide (j = i) then Some (d, n, s32 (r - 1)) else entry s i) ->
  counted s (h1 ++ (j, k) :: h2) -> counted s' (h1 ++ h2).
Proof.
  intros E L' Ee [L Sz R Hd O]. pose proof (R _ _ _ _ E) as Er. rewrite refs_mid, refs_cons in Er. cbn in Er.
  rewrite decide_True in Er by done. pose proof (refs_le j (h1 ++ h2)).
  rewrite length_app in Sz. cbn [length] in Sz. rewrite length_app in *.
  assert (Ew : s32 (r - 1) = Z.of_nat (refs j (h1 ++ h2))) by (rewrite s32_small; lia).
  constructor; [done|rewrite length_app; lia|..].
  - intros i d' n' r'. rewrite Ee. case_decide as Ei; [subst; intros [= <- <- <-]; done|].
    intros E'. apply R in E'. rewrite refs_mid, refs_cons in E'. cbn in E'. by rewrite decide_False in E'.
  - intros i d' n' Hi. rewrite Ee. destruct (Hd i d' n') as [r' E']; [set_solver|].
    case_decide; [subst; rewrite E in E'; injection E' as -> -> _|]; eauto.
  - intros i i' d' n' r1 r2. rewrite !Ee.
    assert (Up : forall i r1, (if decide (j = i) then Some (d, n, s32 (r - 1)) else entry s i) = Some (d', n', r1) ->
      0 < r1 -> exists r0, entry s i = Some (d', n', r0) /\ 0 < r0).
    { intros x rx. case_decide as Ex; [intros [= <- <- <-] ?; subst x; exists r; split; [exact E|lia]|eauto]. }
    intros E1 E2 P1 P2. destruct (Up _ _ E1 P1) as (? & ? & ?), (Up _ _ E2 P2) as (? & ? & ?). by eapply O.
Qed.


(** What the scan of [iget] returns, from entry [k] on. *)
Lemma iget_scan_spec d n l k e : match iget_scan d n l k e with
  | (Some j, _) => exists i ip, j = (k + i)%nat /\ l !! i = Some ip /\ 0 < i_ref ip /\ i_dev ip = d /\ i_inum ip = n
  | (None, e') => (forall i ip, l !! i = Some ip -> i_dev ip = d -> i_inum ip = n -> i_ref ip <= 0) /\
      match e, e' with
      | Some x, _ => e' = Some x
      | None, Some x => exists i ip, x = (k + i)%nat /\ l !! i = Some ip /\ i_ref ip = 0
      | None, None => forall i ip, l !! i = Some ip -> i_ref ip <> 0
      end
  end.
Proof.
  revert k e. induction l as [|ip l IH]; intros k e; cbn [iget_scan].
  { split; [done|]. by destruct e. }
  destruct ((i_ref ip >? 0) && (i_dev ip =? d) && (i_inum ip =? n)) eqn:T.
  { exists 0%nat, ip. repeat split; [lia|cbn; lia..]. }
  set (e1 := match e with None => if i_ref ip =? 0 then Some k else None | Some x => Some x end).
  specialize (IH (S k) e1). destruct (iget_scan d n l (S k) e1) as [[j|] e'].
  { destruct IH as (i & q & -> & Hi & K). exists (S i), q. split; [lia|done]. }
  destruct IH as [Hn He]. split.
  { intros [|i] q; cbn; [intros [= <-]; lia|apply Hn]. }
  unfold e1 in He. destruct e as [x|]; [done|]. destruct (Z.eqb_spec (i_ref ip) 0) as [Z|Z].
  - rewrite He. exists 0%nat, ip. repeat split; [lia|done].
  - destruct e' as [x|]; [destruct He as (i & q & -> & ? & ?); exists (S i), q; split; [lia|done]|].
    intros [|i] q; cbn; [by intros [= <-]|apply He].
Qed.

Lemma iget_ok d n j s s' h : Z.of_nat (length h) < 2 ^ 31 - 1 -> iget d n s = Done j s' -> counted s h ->
  counted s' ((j, (d, n)) :: h).
Proof.
  intros Hl E C. pose proof (co_lock _ _ C) as L. unfold iget in E.
  unfold bind at 1, iacquire, Spinlock.acquire in E. rewrite L in E. unfold bind at 1, gets in E.
  change (icache (set_ic_lock true s)) with (icache s) in E. pose proof (iget_scan_spec d n (icache s) 0 None) as Sp.
  destruct (iget_scan d n (icache s) 0 None) as [[i|] [e|]]; cbn in E; try discriminate E; injection E as <- <-.
  1,2: destruct Sp as (i0 & ip & -> & Hi & Hr & Ed & En); cbn [Nat.add] in *;
    eapply (counted_more s _ _ _ d n (i_ref ip)); [|done|done|done| |done];
    [rewrite (entry_at _ _ _ Hi); unfold ids; congruence|];
    intros x; transitivity (entry (set_icache (alter (fun ip => set_ref (s32 (i_ref ip + 1)) ip) i0 (icache s)) s) x); [reflexivity|];
    rewrite entry_upd; case_decide; [subst x; rewrite Hi; cbn; unfold ids; cbn; congruence|done].
  destruct Sp as [Hn (i & ip & -> & Hi & Hr)]. cbn [Nat.add] in *.
  eapply (counted_new s _ _ _ d n (i_dev ip) (i_inum ip)); [| |done|done| |done].
  - rewrite (entry_at _ _ _ Hi). unfold ids. congruence.
  - intros x r Ex. unfold entry in Ex. rewrite list_lookup_fmap in Ex.
    apply fmap_Some in Ex as (q & Hq & [= -> -> ->]). by eapply Hn.
  - intros x. transitivity (entry (set_icache (alter (set_ids d n 1 0) i (icache s)) s) x); [reflexivity|].
    rewrite entry_upd. case_decide; [subst x; by rewrite Hi|done].
Qed.

Lemma idup_ok j j' d n s s' h : Z.of_nat (length h) < 2 ^ 31 - 1 -> (j, (d, n)) ∈ h -> idup j s = Done j' s' ->
  counted s h -> counted s' ((j', (d, n)) :: h).
Proof.
  intros Hl Hj E C. pose proof (co_lock _ _ C) as L. unfold idup in E.
  unfold bind at 1, iacquire, Spinlock.acquire in E. rewrite L in E. cbn in E. injection E as <- <-.
  destruct (co_held _ _ C _ _ _ Hj) as [r Er]. pose proof (co_ref _ _ C _ _ _ _ Er) as Rr. apply refs_pos in Hj.
  eapply (counted_more s _ _ _ d n r); [done|lia|done|done| |done]. intros x.
  transitivity (entry (set_icache (alter (fun i => set_ref (s32 (i_ref i + 1)) i) j (icache s)) s) x); [reflexivity|].
  rewrite entry_upd. case_decide; [subst x|done]. unfold entry in Er. rewrite list_lookup_fmap in Er.
  apply fmap_Some in Er as (q & Hq & [= -> -> ->]). by rewrite Hq.
Qed.

(** [iput] up to the decrement moves no reference. *)
Lemma moves_iput_free ip i : moves true true
  (if (i_ref i =? 1) && iflag I_VALID i && (i_nlink i =? 0) then
     if iflag I_BUSY i then panic "iput busy"
     else
       upd_inode ip (fun i => set_iflags (Z.lor (i_flags i) I_BUSY) i) ;!
       irelease ;!
       itrunc ip ;!
       upd_inode ip (set_type 0) ;!
       iupdate ip ;!
       iacquire ;!
       upd_inode ip (set_iflags 0)
   else ret tt).
Proof. moves_body. Qed.

Lemma iput_ok j k s s' h1 h2 : iput j s = Done tt s' -> counted s (h1 ++ (j, k) :: h2) -> counted s' (h1 ++ h2).
Proof.
  intros E C. pose proof (co_lock _ _ C) as L. unfold iput in E.
  apply bind_inv in E as ([] & s1 & E1 & E). destruct (moves_acquire _ _ _ L E1) as [I1 L1].
  apply bind_inv in E as (i & s2 & E2 & E). destruct (moves_geti true j _ _ _ L1 E2) as [I2 L2].
  apply bind_inv in E as ([] & s3 & E3 & E). destruct (moves_iput_free j i _ _ _ L2 E3) as [I3 L3].
  destruct k as [d n]. destruct (co_held _ _ C j d n) as [r Er]; [set_solver|].
  assert (Ee : forall x, entry s3 x = entry s x) by (intros x; unfold entry; by rewrite I3, I2, I1).
  unfold bind, upd_inode, modify, irelease, Spinlock.release in E. cbn in E. rewrite L3 in E. injection E as <-.
  eapply (counted_less s _ _ _ j _ d n r); [done|done| |exact C]. intros x.
  transitivity (entry (set_icache (alter (fun i => set_ref (s32 (i_ref i - 1)) i) j (icache s3)) s3) x); [reflexivity|].
  rewrite entry_upd, Ee. case_decide; [subst x|done]. rewrite <- Ee in Er. unfold entry in Er.
  rewrite list_lookup_fmap in Er. apply fmap_Some in Er as (q & Hq & [= -> -> ->]). by rewrite Hq.
Qed.

Lemma iuse_counted x y : iuse x y -> counted x.1 x.2 -> counted y.1 y.2.
Proof.
  intros U C. destruct U as [d n j s s' h Hl E|j j' [d n] s s' h Hl Hj E|j k s s' h1 h2 E|A m a s s' h Hm E];
    cbn [Datatypes.fst snd] in *.
  - by eapply iget_ok. - by eapply idup_ok. - by eapply iput_ok. - by eapply counted_moves.
Qed.

(** C13: Inode pointers stay good.  However the kernel gets, copies and drops
    inode pointers, with other inode operations in between and with [iput]
    freeing inodes on disk, every pointer it holds leads to the cache entry of
    the device and number it was obtained for, the entry's count is the number
    of pointers held, and pointers to the same inode are equal, so that there is
    one copy and one lock for each inode in use. *)
Theorem inode_pointers b s h : rtc iuse (iinit b, []) (s, h) ->
  (forall j d n, (j, (d, n)) ∈ h -> exists i, icache s !! j = Some i /\ i_dev i = d /\ i_inum i = n /\
     i_ref i = Z.of_nat (refs j h)) /\
  (forall j j' k, (j, k) ∈ h -> (j', k) ∈ h -> j = j').
Proof.
  intros R. assert (C : counted s h).
  { apply (rtc_ind_r (fun x => counted x.1 x.2) (iinit b, [])) with (z := (s, h)) in R; [done|apply counted_iinit|].
    intros y z _ U. by apply iuse_counted. }
  split.
  - intros j d n Hj. destruct (co_held _ _ C _ _ _ Hj) as [r Er]. pose proof (co_ref _ _ C _ _ _ _ Er) as Rr.
    unfold entry in Er. rewrite list_lookup_fmap in Er. apply fmap_Some in Er as (i & Hi & [= -> -> ->]). eauto.
  - intros j j' [d n] Hj Hj'. destruct (co_held _ _ C _ _ _ Hj) as [r Er], (co_held _ _ C _ _ _ Hj') as [r' Er'].
    eapply (co_one _ _ C); [exact Er|exact Er'|..]; [rewrite (co_ref _ _ C _ _ _ _ Er)|rewrite (co_ref _ _ C _ _ _ _ Er')];
      apply refs_pos in Hj, Hj'; lia.
Qed.

End Cache.

(** Blocks in memory, for examples: a buffer is the block's number. *)
Definition ram : Type := nat -> block.
Definition ram_blocks : Blocks ram := {|
  bread := fun _ sec => ret (Z.to_nat sec);
  bdata := fun i => gets (fun m => m i);
  bstore := fun i x => modify (fun m j => if (j =? i)%nat then x else m j);
  blog := fun _ => ret tt;
  brelse := fun _ => ret tt |}.

Definition blank : fsys ram := iinit (fun _ => replicate 512 0).
Definition root_got (s : fsys ram) : fsys ram := match iget Log.ROOTDEV ROOTINO s with Done _ s' => s' | _ => s end.

Lemma root_got_twice : rtc (@iuse ram ram_blocks) (blank, []) (root_got (root_got blank), [(0%nat, (1, 1)); (0%nat, (1, 1))]).
Proof.
  eapply rtc_l; [apply (iuse_get 1 1 0 blank (root_got blank)); reflexivity|].
  eapply rtc_l; [apply (iuse_get 1 1 0 (root_got blank) (root_got (root_got blank))); reflexivity|]. apply rtc_refl.
Qed.

Lemma inode_pointers_witness : exists i, icache (root_got (root_got blank)) !! 0%nat = Some i /\ i_inum i = 1 /\ i_ref i = 2.
Proof.
  destruct (inode_pointers _ _ _ root_got_twice) as [K _].
  destruct (K 0%nat 1 1) as (i & Hi & _ & En & Er); [left|]. exists i. split; [exact Hi|]. split; [exact En|exact Er].
Defined.

End Fs.
