(* ===== verification/FsBlocks.v ===== *)
(** * Disk blocks and inodes on disk (kernel/fs.c)

    [BlocksSpec] is what a transaction's block layer promises to fs.c; against it
    the block allocator is proved to keep the bitmap, and an inode written by
    [iupdate] is the inode [ilock] reads. *)

From S2P Require Import Prelude Spinlock Bio Log Fs.

Module FsBlocks.
Import Fs.

Definition vupd (sec : Z) (x : block) (v : Z -> block) : Z -> block :=
  fun z => if decide (z = sec) then x else v z.

Lemma vupd_eq sec x v : vupd sec x v sec = x.
Proof. unfold vupd. by rewrite decide_True. Qed.
Lemma vupd_ne sec z x v : z <> sec -> vupd sec x v z = v z.
Proof. intros. unfold vupd. by rewrite decide_False. Qed.

(** The block layer inside a transaction, on device [bdev] with blocks 0 to
    [home]: [v] is what the blocks hold for the transaction, [h] the buffers
    held with their data, [w] the blocks logged.  At most [cap] blocks can be
    logged, and [nbufs] buffers hold what is logged or held. *)
Class BlocksSpec (B : Type) `{Blocks B} := {
  bdev : Z; home : Z; cap : nat; nbufs : nat;
  rep : B -> (Z -> block) -> gmap Z (nat * block) -> gset Z -> Prop;
  rep_len s v h w sec : rep s v h w -> 0 <= sec < home -> length (v sec) = 512%nat;
  bread_ok s v h w sec : rep s v h w -> 0 <= sec < home -> h !! sec = None -> (size h + size w < nbufs)%nat ->
    exists i s', bread bdev sec s = Done i s' /\ rep s' v (<[sec := (i, v sec)]> h) w;
  bdata_ok s v h w sec i x : rep s v h w -> h !! sec = Some (i, x) -> bdata i s = Done x s;
  bstore_ok s v h w sec i x y : rep s v h w -> h !! sec = Some (i, x) -> length y = 512%nat ->
    exists s', bstore i y s = Done tt s' /\ rep s' v (<[sec := (i, y)]> h) w;
  blog_ok s v h w sec i x : rep s v h w -> h !! sec = Some (i, x) -> 0 <= sec < home ->
    (size w < cap)%nat -> (size h + size w < nbufs)%nat ->
    exists s', blog i s = Done tt s' /\ rep s' (vupd sec x v) h ({[sec]} ∪ w);
  brelse_ok s v h w sec i : rep s v h w -> h !! sec = Some (i, v sec) -> 0 <= sec < home ->
    exists s', brelse i s = Done tt s' /\ rep s' v (delete sec h) w }.

(** What the log promises about whole transactions.  Between transactions [idle]
    says what the blocks hold and which buffers are held; blocks can be read and
    given back but not logged.  [begin_trans] starts from there with nothing held,
    and [commit_trans] makes what the transaction saw the contents. *)
Class TransSpec (B : Type) `{BlocksSpec B} `{!Trans B} := {
  idle : B -> (Z -> block) -> gmap Z (nat * block) -> Prop;
  idle_len s v h sec : idle s v h -> 0 <= sec < home -> length (v sec) = 512%nat;
  idle_bread s v h sec : idle s v h -> 0 <= sec < home -> h !! sec = None -> (size h < nbufs)%nat ->
    exists i s', bread bdev sec s = Done i s' /\ idle s' v (<[sec := (i, v sec)]> h);
  idle_bdata s v h sec i x : idle s v h -> h !! sec = Some (i, x) -> bdata i s = Done x s;
  idle_bstore s v h sec i x y : idle s v h -> h !! sec = Some (i, x) -> length y = 512%nat ->
    exists s', bstore i y s = Done tt s' /\ idle s' v (<[sec := (i, y)]> h);
  idle_brelse s v h sec i : idle s v h -> h !! sec = Some (i, v sec) -> 0 <= sec < home ->
    exists s', brelse i s = Done tt s' /\ idle s' v (delete sec h);
  begin_ok s v : idle s v ∅ -> exists s', begin_trans s = Done tt s' /\ rep s' v ∅ ∅;
  commit_ok s v w : rep s v ∅ w -> (size w < nbufs)%nat ->
    exists s', commit_trans s = Done tt s' /\ idle s' v ∅ }.

(** The block layer between transactions, in which nothing can be logged. *)
Definition outside {B} `{TransSpec B} : BlocksSpec B.
Proof.
  refine {| bdev := bdev; home := home; cap := 0; nbufs := nbufs;
            rep := fun s v h w => w = ∅ /\ idle s v h |}.
  - intros s v h w sec [_ I]. by eapply idle_len.
  - intros s v h w sec [-> I] Hs Hn Hb. rewrite size_empty in Hb.
    destruct (idle_bread s v h sec I Hs Hn ltac:(lia)) as (i & s' & E & I'). eauto.
  - intros s v h w sec i x [_ I]. by eapply idle_bdata.
  - intros s v h w sec i x y [-> I] Hx Hy. destruct (idle_bstore s v h sec i x y I Hx Hy) as (s' & E & I'). eauto.
  - intros s v h w sec i x _ _ _ Hc. exfalso. lia.
  - intros s v h w sec i [-> I] Hx Hs. destruct (idle_brelse s v h sec i I Hx Hs) as (s' & E & I'). eauto.
Defined.

(** ** Bits of the bitmap *)

Definition bit_in (bi : Z) : Prop := 0 <= bi < BPB.

Lemma bit_used_testbit bi x : bit_used bi x = Z.testbit (bit_byte bi x) (bi mod 8).
Proof.
  unfold bit_used, bit_mask. assert (Hk : 0 <= bi mod 8) by (apply Z.mod_pos_bound; lia).
  rewrite Z.shiftl_1_l. destruct (Z.eqb_spec (Z.land (bit_byte bi x) (2 ^ (bi mod 8))) 0) as [E|E]; cbn [negb].
  - apply (f_equal (fun z => Z.testbit z (bi mod 8))) in E. rewrite Z.land_spec, Z.pow2_bits_true, Z.bits_0 in E by done.
    rewrite andb_true_r in E. congruence.
  - destruct (Z.testbit (bit_byte bi x) (bi mod 8)) eqn:T; [done|]. destruct E. apply Z.bits_inj'. intros j Hj.
    rewrite Z.land_spec, Z.bits_0. destruct (decide (bi mod 8 = j)) as [<-|]; [by rewrite T|].
    rewrite Z.pow2_bits_false by done. apply andb_false_r.
Qed.

Lemma u8_testbit z k : 0 <= k < 8 -> Z.testbit (u8 z) k = Z.testbit z k.
Proof. intros. unfold u8. apply Z.mod_pow2_bits_low. lia. Qed.

(** Bits [bi] and [bj] after byte [bi / 8] was stored. *)
Lemma bit_store bi bj b x : bit_in bi -> bit_in bj -> length x = 512%nat ->
  bit_used bj (<[Z.to_nat (bi / 8) := u8 b]> x) =
    if decide (bj / 8 = bi / 8) then Z.testbit b (bj mod 8) else bit_used bj x.
Proof.
  unfold bit_in, BPB. intros Hi Hj Hx. rewrite !bit_used_testbit. unfold bit_byte.
  assert (Hm : 0 <= bj mod 8 < 8) by (apply Z.mod_pos_bound; lia).
  assert (0 <= bi / 8 < 512) by (split; [apply Z.div_pos|apply Z.div_lt_upper_bound]; lia).
  assert (0 <= bj / 8 < 512) by (split; [apply Z.div_pos|apply Z.div_lt_upper_bound]; lia).
  case_decide as E.
  - rewrite E, list_lookup_total_insert_eq by lia. by apply u8_testbit.
  - rewrite list_lookup_total_insert_ne; [done|]. intros K. apply E. lia.
Qed.

Lemma same_bit bi bj : bi / 8 = bj / 8 -> bi mod 8 = bj mod 8 -> bi = bj.
Proof. intros E F. rewrite (Z.div_mod bi 8), (Z.div_mod bj 8), E, F by lia. done. Qed.

Lemma bit_set_used bi bj x : bit_in bi -> bit_in bj -> length x = 512%nat ->
  bit_used bj (bit_set bi x) = bool_decide (bj = bi) || bit_used bj x.
Proof.
  intros Hi Hj Hx. unfold bit_set. rewrite bit_store by done. unfold bit_mask. rewrite Z.shiftl_1_l.
  assert (Hm : 0 <= bi mod 8) by (apply Z.mod_pos_bound; lia). case_decide as E.
  - rewrite Z.lor_spec, bit_used_testbit. unfold bit_byte. rewrite E. case_bool_decide as F.
    + subst bj. rewrite Z.pow2_bits_true by done. apply orb_true_r.
    + rewrite Z.pow2_bits_false; [apply orb_false_r|]. intros G. by apply F, same_bit.
  - rewrite bool_decide_false; [done|]. by intros ->.
Qed.

Lemma bit_clear_used bi bj x : bit_in bi -> bit_in bj -> length x = 512%nat ->
  bit_used bj (bit_clear bi x) = negb (bool_decide (bj = bi)) && bit_used bj x.
Proof.
  intros Hi Hj Hx. unfold bit_clear. rewrite bit_store by done. unfold bit_mask. rewrite Z.shiftl_1_l.
  assert (Hm : 0 <= bi mod 8) by (apply Z.mod_pos_bound; lia).
  assert (Hm' : 0 <= bj mod 8) by (apply Z.mod_pos_bound; lia). case_decide as E.
  - rewrite Z.land_spec, Z.lnot_spec, bit_used_testbit by done. unfold bit_byte. rewrite E. case_bool_decide as F.
    + subst bj. rewrite Z.pow2_bits_true by done. apply andb_false_r.
    + rewrite Z.pow2_bits_false; [cbn; by rewrite andb_true_r|]. intros G. by apply F, same_bit.
  - rewrite bool_decide_false; [done|]. by intros ->.
Qed.

Lemma length_bit_set bi x : length (bit_set bi x) = length x.
Proof. apply length_insert. Qed.
Lemma length_bit_clear bi x : length (bit_clear bi x) = length x.
Proof. apply length_insert. Qed.

(** The search for a free bit: the first one, below both bounds. *)
Lemma free_bit_spec n bi b size x : 0 <= bi -> (Z.to_nat (BPB - bi) <= n)%nat ->
  match free_bit n bi b size x with
  | Some k => bi <= k < BPB /\ b + k < size /\ bit_used k x = false /\ forall j, bi <= j < k -> bit_used j x = true
  | None => forall j, bi <= j < BPB -> b + j < size -> bit_used j x = true
  end.
Proof.
  unfold BPB. revert bi. induction n as [|n IH]; intros bi H0 Hn; cbn [free_bit]; [intros; lia|]. unfold BPB.
  destruct ((bi <? 4096) && (b + bi <? size)) eqn:T; [|intros j Hj Hs; lia].
  destruct (bit_used bi x) eqn:U; [|repeat split; [lia..|done|lia]].
  specialize (IH (bi + 1) ltac:(lia) ltac:(lia)).
  assert (Step : forall j e, (bi + 1 <= j < e -> bit_used j x = true) -> bi <= j < e -> bit_used j x = true).
  { intros j e K Hj. destruct (decide (j = bi)) as [->|]; [done|]. apply K. lia. }
  destruct (free_bit n (bi + 1) b size x) as [k|].
  - destruct IH as (? & ? & ? & K). repeat split; [lia..|done|]. intros j. apply Step, K.
  - intros j Hj Hs. eapply Step; [|exact Hj]. intros ?. by apply IH.
Qed.

(** ** The allocator *)

Section Alloc.
Context {B : Type} `{BlocksSpec B}.

Lemma hold s v h w sec : rep s v h w -> 0 <= sec < home -> h !! sec = None -> (size h + size w < nbufs)%nat ->
  exists i s', bread bdev sec s = Done i s' /\ bdata i s' = Done (v sec) s' /\ rep s' v (<[sec := (i, v sec)]> h) w.
Proof.
  intros R Hs Hn Hb. destruct (bread_ok _ _ _ _ _ R Hs Hn Hb) as (i & s' & E & R').
  exists i, s'. split; [done|]. split; [|done]. eapply bdata_ok; [exact R'|apply lookup_insert_eq].
Qed.

Lemma let_go s v h w sec i : rep s v (<[sec := (i, v sec)]> h) w -> h !! sec = None -> 0 <= sec < home ->
  exists s', brelse i s = Done tt s' /\ rep s' v h w.
Proof.
  intros R Hn Hs. destruct (brelse_ok _ _ _ _ sec i R) as (s' & E & R'); [apply lookup_insert_eq|done|].
  exists s'. split; [done|]. by rewrite delete_insert_id in R'.
Qed.

Lemma put_back_steps s v h w sec i x y : rep s v (<[sec := (i, x)]> h) w -> h !! sec = None -> 0 <= sec < home ->
  length y = 512%nat -> (size w < cap)%nat -> (size h + size w + 1 < nbufs)%nat ->
  exists s1 s2 s', bstore i y s = Done tt s1 /\ blog i s1 = Done tt s2 /\ brelse i s2 = Done tt s' /\
    rep s' (vupd sec y v) h ({[sec]} ∪ w).
Proof.
  intros R Hn Hs Hy Hw Hb.
  destruct (bstore_ok _ _ _ _ sec i x y R) as (s1 & E1 & R1); [apply lookup_insert_eq|done|].
  rewrite insert_insert_eq in R1.
  destruct (blog_ok _ _ _ _ sec i y R1) as (s2 & E2 & R2);
    [apply lookup_insert_eq|done|done|rewrite map_size_insert_None by done; lia|].
  rewrite <- (vupd_eq sec y v) in R2 at 2. destruct (let_go _ _ _ _ _ _ R2 Hn Hs) as (s3 & E3 & R3). eauto 8.
Qed.

Lemma put_back s v h w sec i x y : rep s v (<[sec := (i, x)]> h) w -> h !! sec = None -> 0 <= sec < home ->
  length y = 512%nat -> (size w < cap)%nat -> (size h + size w + 1 < nbufs)%nat ->
  exists s', (bstore i y ;! blog i ;! brelse i) s = Done tt s' /\
    (forall A (k : M B A), (bstore i y ;! blog i ;! brelse i ;! k) s = k s') /\
    rep s' (vupd sec y v) h ({[sec]} ∪ w).
Proof.
  intros R Hn Hs Hy Hw Hb. destruct (put_back_steps _ _ _ _ _ _ _ y R Hn Hs Hy Hw Hb) as (s1 & s2 & s3 & E1 & E2 & E3 & R3).
  exists s3. split; [by rewrite (bind_Done _ _ _ _ _ E1), (bind_Done _ _ _ _ _ E2)|]. split; [|done]. intros A k.
  by rewrite (bind_Done _ _ _ _ _ E1), (bind_Done _ _ _ _ _ E2), (bind_Done _ _ _ _ _ E3).
Qed.

Definition sb (v : Z -> block) : Log.superblock := Log.sb_dec (v 1).
Definition map_block (v : Z -> block) (b : Z) : Z := BBLOCK b (Log.sb_ninodes (sb v)).

(** Block [b] is marked as in use. *)
Definition used (v : Z -> block) (b : Z) : bool := bit_used (b mod BPB) (v (map_block v b)).

(** The bitmap lies below [home], and it and the super block are themselves in
    use.  The size of the file system counts the log behind [home] as well. *)
Record layout (v : Z -> block) : Prop := {
  ly_home : 1 < home < 2 ^ 31;
  ly_size : 0 <= Log.sb_size (sb v) < 2 ^ 31;
  ly_inodes : 0 <= Log.sb_ninodes (sb v);
  ly_map b : 0 <= b < Log.sb_size (sb v) -> b / BPB + Log.sb_ninodes (sb v) / IPB + 3 < home;
  ly_sb : 1 < Log.sb_size (sb v) -> used v 1 = true;
  ly_used b : 0 <= b < Log.sb_size (sb v) -> map_block v b < Log.sb_size (sb v) -> used v (map_block v b) = true }.

Lemma map_block_range v b : layout v -> 0 <= b < Log.sb_size (sb v) ->
  map_block v b = b / BPB + Log.sb_ninodes (sb v) / IPB + 3 /\ 3 <= map_block v b < home.
Proof.
  intros L Hb. pose proof (ly_home _ L). pose proof (ly_map _ L b Hb). pose proof (ly_inodes _ L).
  assert (0 <= b / BPB) by (apply Z.div_pos; unfold BPB; lia).
  assert (0 <= Log.sb_ninodes (sb v) / IPB) by (apply Z.div_pos; unfold IPB; lia).
  unfold map_block, BBLOCK. rewrite u32_small by lia. split; [done|lia].
Qed.

(** Nobody holds the super block or a bitmap block, and what is held is in use. *)
Record apart (v : Z -> block) (h : gmap Z (nat * block)) : Prop := {
  ap_sb : h !! 1 = None;
  ap_map b : 0 <= b < Log.sb_size (sb v) -> h !! map_block v b = None;
  ap_used b : 0 <= b < Log.sb_size (sb v) -> used v b = false -> h !! b = None }.

Lemma readsb_ok s v h w : rep s v h w -> layout v -> h !! 1 = None -> (size h + size w < nbufs)%nat ->
  exists s', readsb bdev s = Done (sb v) s' /\ rep s' v h w.
Proof.
  intros R L Hn Hb. pose proof (ly_home _ L).
  destruct (hold _ _ _ _ 1 R) as (i & s1 & E1 & E2 & R1); [lia|done|done|].
  destruct (let_go _ _ _ _ _ _ R1 Hn) as (s2 & E3 & R2); [lia|]. exists s2. split; [|done].
  unfold readsb. by rewrite (bind_Done _ _ _ _ _ E1), (bind_Done _ _ _ _ _ E2), (bind_Done _ _ _ _ _ E3).
Qed.

Lemma bzero_ok s v h w b : rep s v h w -> 0 <= b < home -> h !! b = None -> (size w < cap)%nat ->
  (size h + size w + 1 < nbufs)%nat ->
  exists s', bzero bdev b s = Done tt s' /\ rep s' (vupd b (replicate 512 0) v) h ({[b]} ∪ w).
Proof.
  intros R Hb Hn Hw Hs. destruct (hold _ _ _ _ b R Hb Hn) as (i & s1 & E1 & _ & R1); [lia|].
  destruct (put_back _ _ _ _ _ _ _ (replicate 512 0) R1 Hn Hb) as (s2 & E & _ & R2); [done|done|done|].
  exists s2. split; [|done]. unfold bzero. by rewrite (bind_Done _ _ _ _ _ E1).
Qed.

(** The bitmap of [v] with [b]'s bit changed by [f]. *)
Definition remap (f : Z -> block -> block) (b : Z) (v : Z -> block) : Z -> block :=
  vupd (map_block v b) (f (b mod BPB) (v (map_block v b))) v.

Lemma map_block_same v b c : layout v -> 0 <= b < Log.sb_size (sb v) -> 0 <= c < Log.sb_size (sb v) ->
  map_block v b = map_block v c -> b / BPB = c / BPB.
Proof.
  intros L Hb Hc E. destruct (map_block_range v b L Hb) as [Eb _], (map_block_range v c L Hc) as [Ec _]. lia.
Qed.

Lemma sb_vupd z x v : z <> 1 -> sb (vupd z x v) = sb v.
Proof. intros. unfold sb. by rewrite vupd_ne by done. Qed.


(** A change of one bit, seen through [used]. *)
Lemma used_remap f b c v : layout v -> 0 <= b < Log.sb_size (sb v) -> 0 <= c < Log.sb_size (sb v) ->
  used (remap f b v) c =
    if decide (b / BPB = c / BPB) then bit_used (c mod BPB) (f (b mod BPB) (v (map_block v b))) else used v c.
Proof.
  intros L Hb Hc. destruct (map_block_range v b L Hb) as [Eb Rb], (map_block_range v c L Hc) as [Ec _].
  assert (Es : sb (remap f b v) = sb v) by (apply sb_vupd; lia).
  assert (Em : map_block (remap f b v) c = map_block v c) by (unfold map_block; by rewrite Es).
  unfold used. rewrite Em. unfold remap, vupd.
  case_decide as E; case_decide as F; [by rewrite <- E|..|done].
  - destruct F. by eapply map_block_same.
  - destruct E. lia.
Qed.

Lemma mod_BPB b : bit_in (b mod BPB).
Proof. unfold bit_in. apply Z.mod_pos_bound. unfold BPB. lia. Qed.

Lemma same_block b c : b / BPB = c / BPB -> b mod BPB = c mod BPB -> b = c.
Proof. unfold BPB. intros E F. rewrite (Z.div_mod b 4096), (Z.div_mod c 4096), E, F by lia. done. Qed.

Lemma used_set b c v : layout v -> length (v (map_block v b)) = 512%nat ->
  0 <= b < Log.sb_size (sb v) -> 0 <= c < Log.sb_size (sb v) ->
  used (remap bit_set b v) c = bool_decide (c = b) || used v c.
Proof.
  intros L Hx Hb Hc. rewrite used_remap by done. case_decide as E.
  - rewrite bit_set_used by (done || apply mod_BPB). unfold used, map_block, BBLOCK. rewrite E. f_equal.
    apply bool_decide_ext. split; [intros F; by apply same_block|by intros ->].
  - rewrite bool_decide_false; [done|]. by intros ->.
Qed.

Lemma used_clear b c v : layout v -> length (v (map_block v b)) = 512%nat ->
  0 <= b < Log.sb_size (sb v) -> 0 <= c < Log.sb_size (sb v) ->
  used (remap bit_clear b v) c = negb (bool_decide (c = b)) && used v c.
Proof.
  intros L Hx Hb Hc. rewrite used_remap by done. case_decide as E.
  - rewrite bit_clear_used by (done || apply mod_BPB). unfold used, map_block, BBLOCK. rewrite E. do 2 f_equal.
    apply bool_decide_ext. split; [intros F; by apply same_block|by intros ->].
  - rewrite bool_decide_false; [done|]. by intros ->.
Qed.

(** The data of a free block is not part of the bitmap. *)
Lemma used_data b c x v : layout v -> 0 <= b < Log.sb_size (sb v) -> used v b = false ->
  0 <= c < Log.sb_size (sb v) -> sb (vupd b x v) = sb v /\ map_block (vupd b x v) c = map_block v c /\
  vupd b x v (map_block v c) = v (map_block v c).
Proof.
  intros L Hb U Hc. assert (b <> 1) by (intros ->; rewrite (ly_sb _ L) in U; [done|lia]).
  assert (Es : sb (vupd b x v) = sb v) by (by apply sb_vupd).
  split; [done|]. split; [unfold map_block; by rewrite Es|]. apply vupd_ne. intros E.
  rewrite <- E, (ly_used _ L c Hc) in U; [done|]. lia.
Qed.

(** The view after [balloc] returned [b]. *)
Definition balloc_view (b : Z) (v : Z -> block) : Z -> block := vupd b (replicate 512 0) (remap bit_set b v).

(** The blocks of one bitmap block. *)
Lemma block_in_map v b j : 0 <= b -> b mod BPB = 0 -> 0 <= j < BPB ->
  (b + j) / BPB = b / BPB /\ (b + j) mod BPB = j /\ map_block v (b + j) = map_block v b.
Proof.
  unfold BPB. intros Hnn Hm Hj.
  assert (E : (b + j) / 4096 = b / 4096) by (Z.div_mod_to_equations; lia).
  split; [done|]. split; [Z.div_mod_to_equations; lia|]. unfold map_block, BBLOCK, BPB. by rewrite E.
Qed.

Lemma size_add (z : Z) (w : gset Z) : (size ({[z]} ∪ w) <= size w + 1)%nat.
Proof.
  destruct (decide (z ∈ w)).
  - rewrite subseteq_union_1_L by set_solver. lia.
  - rewrite size_union, size_singleton by set_solver. lia.
Qed.

Lemma size_grow (z : Z) (w : gset Z) : (size w <= size ({[z]} ∪ w))%nat.
Proof. apply subseteq_size. set_solver. Qed.

(** The log has room for two more blocks, one of which is a block of the bitmap. *)
Definition room_log (v : Z -> block) (w : gset Z) : Prop :=
  forall b, 0 <= b < Log.sb_size (sb v) -> (size ({[map_block v b]} ∪ w) < cap)%nat.

Lemma room_log_two v w : (size w + 1 < cap)%nat -> room_log v w.
Proof. intros Hw b _. pose proof (size_add (map_block v b) w). lia. Qed.

(** There is a free block below [home], or none at all.  Otherwise only blocks of
    the log are free, and [balloc] takes one of them: see [balloc_takes_log_block]. *)
Definition some_or_none (v : Z -> block) : Prop :=
  (exists c, 0 <= c < Log.sb_size (sb v) /\ c < home /\ used v c = false) \/
  (forall c, 0 <= c < Log.sb_size (sb v) -> used v c = true).

(** The result of the search from block [b] on. *)
Definition balloc_result (v : Z -> block) (h : gmap Z (nat * block)) (w : gset Z) (o : outcome B Z) : Prop :=
  (exists k s', o = Done k s' /\ 0 <= k < Log.sb_size (sb v) /\ k < home /\ used v k = false /\
     (forall c, 0 <= c < k -> used v c = true) /\ rep s' (balloc_view k v) h ({[k]} ∪ ({[map_block v k]} ∪ w))) \/
  (o = Panic "balloc: out of blocks" /\ forall c, 0 <= c < Log.sb_size (sb v) -> used v c = true).

(** The turn of the loop that finds a free bit. *)
Lemma balloc_take s v h w b bi i k : layout v -> apart v h ->
  rep s v (<[map_block v b := (i, v (map_block v b))]> h) w ->
  room_log v w -> (size h + size w + 2 < nbufs)%nat ->
  0 <= b -> b mod BPB = 0 -> 0 <= bi < BPB -> k = b + bi -> k < Log.sb_size (sb v) -> k < home -> used v k = false ->
  exists s', (bstore i (bit_set bi (v (map_block v b))) ;! blog i ;! brelse i ;! bzero bdev k ;! ret k) s = Done k s' /\
    rep s' (balloc_view k v) h ({[k]} ∪ ({[map_block v k]} ∪ w)).
Proof.
  intros L A R Hw Hb Hnn Hm Hbi Ek Hk Hkh U. destruct (block_in_map v b bi Hnn Hm Hbi) as (_ & Em & Eb). rewrite <- Ek in Em, Eb.
  assert (Hbs : 0 <= b < Log.sb_size (sb v)) by lia. destruct (map_block_range v b L Hbs) as [_ Rb].
  pose proof (Hw b Hbs) as Hw1. pose proof (size_grow (map_block v b) w).
  destruct (put_back _ _ _ _ _ _ _ (bit_set bi (v (map_block v b))) R) as (s1 & _ & E & R1);
    [by apply (ap_map _ _ A)|lia| |lia|lia|].
  { rewrite length_bit_set. eapply rep_len; [exact R|lia]. }
  rewrite E. pose proof (size_add (map_block v b) w). pose proof (ly_size _ L).
  destruct (bzero_ok _ _ _ _ k R1) as (s2 & E2 & R2); [lia|apply (ap_used _ _ A); [lia|done]|lia|lia|].
  exists s2. rewrite (bind_Done _ _ _ _ _ E2). split; [done|]. unfold balloc_view, remap. by rewrite Em, Eb.
Qed.

Lemma balloc_loop_ok n b s v h w : layout v -> some_or_none v -> rep s v h w -> apart v h ->
  room_log v w -> (size h + size w + 2 < nbufs)%nat ->
  0 <= b < Log.sb_size (sb v) + BPB -> b mod BPB = 0 -> Log.sb_size (sb v) - b + BPB <= BPB * Z.of_nat n ->
  (forall c, 0 <= c < b -> c < Log.sb_size (sb v) -> used v c = true) ->
  balloc_result v h w (balloc_loop n bdev b (sb v) s).
Proof.
  intros L Sn R A Hw Hb. revert b s R. induction n as [|n IH]; intros b s R Hnn Hm Hn Hall; cbn [balloc_loop]; [lia|].
  destruct (Z.ltb_spec b (Log.sb_size (sb v))) as [Hbs|Hbs]; [|right; split; [done|]; intros c Hc; apply Hall; lia].
  fold (map_block v b). destruct (map_block_range v b L) as [_ Rb]; [lia|].
  assert (Hh : h !! map_block v b = None) by (apply (ap_map _ _ A); lia).
  destruct (hold _ _ _ _ (map_block v b) R) as (i & s1 & E1 & E2 & R1); [lia|done|lia|].
  rewrite (bind_Done _ _ _ _ _ E1), (bind_Done _ _ _ _ _ E2).
  assert (Uj : forall j, 0 <= j < BPB -> used v (b + j) = bit_used j (v (map_block v b))).
  { intros j Hj. destruct (block_in_map v b j) as (_ & Em & Eb); [lia|done|done|]. unfold used. by rewrite Em, Eb. }
  pose proof (free_bit_spec (Z.to_nat BPB) 0 b (Log.sb_size (sb v)) (v (map_block v b))) as F.
  destruct (free_bit _ _ _ _ _) as [bi|].
  - destruct F as (F1 & F2 & F3 & F4); [lia|lia|].
    assert (Hfirst : forall c, 0 <= c < b + bi -> used v c = true).
    { intros c Hc. destruct (decide (c < b)); [apply Hall; lia|]. replace c with (b + (c - b)) by lia.
      rewrite Uj by lia. apply F4. lia. }
    assert (U : used v (b + bi) = false) by (by rewrite Uj).
    assert (Hh' : b + bi < home).
    { destruct Sn as [(c & Hc & Hch & Uc) | All]; [|rewrite All in U; [done|lia]].
      destruct (decide (c < b + bi)); [rewrite Hfirst in Uc; [done|lia]|lia]. }
    destruct (balloc_take s1 v h w b bi i (b + bi) L A R1) as (s2 & E3 & R2); try done; [lia|].
    left. exists (b + bi), s2. repeat (split; [done || lia|]). done.
  - destruct (let_go _ _ _ _ _ _ R1 Hh) as (s2 & E3 & R2); [lia|]. rewrite (bind_Done _ _ _ _ _ E3).
    apply IH; [done|unfold BPB in *; lia| |unfold BPB in *; lia|].
    + rewrite <- Hm. unfold BPB. rewrite <- (Z.mul_1_l 4096) at 1. apply Z.mod_add. lia.
    + intros c Hc Hs. destruct (decide (c < b)); [apply Hall; lia|]. replace c with (b + (c - b)) by lia.
      rewrite Uj by lia. apply F; lia.
Qed.

Lemma length_view v h w s b : layout v -> rep s v h w -> 0 <= b < Log.sb_size (sb v) ->
  length (v (map_block v b)) = 512%nat.
Proof. intros L R Hb. eapply rep_len; [exact R|]. pose proof (map_block_range v b L Hb). lia. Qed.

(** The bitmap after [balloc]: one more block is in use. *)
Lemma used_balloc v h w s k c : layout v -> rep s v h w -> 0 <= k < Log.sb_size (sb v) -> used v k = false ->
  0 <= c < Log.sb_size (sb v) -> used (balloc_view k v) c = bool_decide (c = k) || used v c.
Proof.
  intros L R Hk U Hc. destruct (used_data k c (replicate 512 0) v L Hk U Hc) as (_ & _ & Ed).
  rewrite <- (used_set k c v L (length_view _ _ _ _ _ L R Hk) Hk Hc).
  destruct (map_block_range v k L Hk) as [_ Rk]. assert (Es : sb (remap bit_set k v) = sb v) by (apply sb_vupd; lia).
  assert (Em : map_block (remap bit_set k v) c = map_block v c) by (unfold map_block; by rewrite Es).
  assert (k <> 1) by (intros ->; rewrite (ly_sb _ L) in U; [done|lia]).
  assert (Em' : map_block (balloc_view k v) c = map_block v c).
  { unfold map_block, balloc_view. by rewrite sb_vupd, Es by done. }
  unfold used. rewrite Em, Em'. f_equal. unfold balloc_view. apply vupd_ne. intros E.
  rewrite <- E, (ly_used _ L c Hc) in U; [done|lia].
Qed.

(** The block allocator.  If there is a free block below [home], [balloc] returns
    the first one; the bitmap then has exactly that block more in use, the block
    is all zeros, no other block has changed, and exactly the block and its bitmap
    block have been logged.  If every block is in use it panics. *)
Lemma balloc_spec s v h w : layout v -> some_or_none v -> rep s v h w -> apart v h ->
  room_log v w -> (size h + size w + 2 < nbufs)%nat ->
  (exists b s' v', balloc bdev s = Done b s' /\ 0 <= b < Log.sb_size (sb v) /\ b < home /\ used v b = false /\
     (forall c, 0 <= c < b -> used v c = true) /\
     rep s' v' h ({[b]} ∪ ({[map_block v b]} ∪ w)) /\ v' b = replicate 512 0 /\
     (forall c, 0 <= c < Log.sb_size (sb v) -> used v' c = bool_decide (c = b) || used v c) /\
     (forall z, z <> b -> z <> map_block v b -> v' z = v z)) \/
  (balloc bdev s = Panic "balloc: out of blocks" /\ forall c, 0 <= c < Log.sb_size (sb v) -> used v c = true).
Proof.
  intros L Sn R A Hw Hb. destruct (readsb_ok s v h w R L (ap_sb _ _ A)) as (s1 & E1 & R1); [lia|].
  unfold balloc. rewrite (bind_Done _ _ _ _ _ E1). pose proof (ly_size _ L).
  destruct (balloc_loop_ok (Z.to_nat (Log.sb_size (sb v) / BPB + 2)) 0 s1 v h w L Sn R1 A Hw Hb)
    as [(k & s' & E & Hk & Hkh & U & Fst & R') | [E All]]; try done.
  - unfold BPB. lia.
  - unfold BPB. Z.div_mod_to_equations. lia.
  - lia.
  - left. exists k, s', (balloc_view k v). repeat (split; [done|]).
    split; [apply vupd_eq|]. split; [intros c Hc; by eapply used_balloc|].
    intros z Hz Hz'. unfold balloc_view, remap. by rewrite !vupd_ne.
  - by right.
Qed.

(** Freeing a block.  [bfree] of a block in use takes exactly that block out
    of the bitmap, changes no other block and logs the bitmap block; of a free
    block it panics. *)
Theorem bfree_spec s v h w b : layout v -> rep s v h w -> apart v h -> 0 <= b < Log.sb_size (sb v) ->
  (size w < cap)%nat -> (size h + size w + 1 < nbufs)%nat ->
  (used v b = true -> exists s' v', bfree bdev b s = Done tt s' /\ rep s' v' h ({[map_block v b]} ∪ w) /\
     (forall c, 0 <= c < Log.sb_size (sb v) -> used v' c = negb (bool_decide (c = b)) && used v c) /\
     (forall z, z <> map_block v b -> v' z = v z)) /\
  (used v b = false -> bfree bdev b s = Panic "freeing free block").
Proof.
  intros L R A Hb Hw Hs. destruct (readsb_ok s v h w R L (ap_sb _ _ A)) as (s1 & E1 & R1); [lia|].
  destruct (map_block_range v b L Hb) as [_ Rb]. pose proof (ap_map _ _ A b Hb) as Hh.
  destruct (hold _ _ _ _ (map_block v b) R1) as (i & s2 & E2 & E3 & R2); [lia|done|lia|].
  unfold bfree. rewrite (bind_Done _ _ _ _ _ E1). fold (map_block v b).
  rewrite (bind_Done _ _ _ _ _ E2), (bind_Done _ _ _ _ _ E3). fold (used v b). split; intros U; rewrite U; [|done].
  cbn [negb]. destruct (put_back _ _ _ _ _ _ _ (bit_clear (b mod BPB) (v (map_block v b))) R2 Hh) as (s3 & E & _ & R3);
    [lia|rewrite length_bit_clear; by eapply length_view|done|done|].
  exists s3, (remap bit_clear b v). split; [done|]. split; [done|]. split.
  - intros c Hc. apply used_clear; [done|by eapply length_view|done|done].
  - intros z Hz. by apply vupd_ne.
Qed.

End Alloc.

(** ** Inodes on disk *)

Lemma peek_poke_out p y q n m : (p + length y <= length m)%nat -> (q + n <= p \/ p + length y <= q)%nat ->
  peek q n (poke p y m) = peek q n m.
Proof. apply peek_poke_other. Qed.

Lemma length_put16 p v m : (p + 2 <= length m)%nat -> length (put16 p v m) = length m.
Proof. intros. unfold put16. apply length_poke. by rewrite length_le_enc. Qed.

Lemma peek_put16 p v q n m : (p + 2 <= length m)%nat -> (q + n <= p \/ p + 2 <= q)%nat ->
  peek q n (put16 p v m) = peek q n m.
Proof. intros. unfold put16. apply peek_poke_out; by rewrite length_le_enc. Qed.

Lemma peek_put32 p v q n m : (p + 4 <= length m)%nat -> (q + n <= p \/ p + 4 <= q)%nat ->
  peek q n (put32 p v m) = peek q n m.
Proof. intros. unfold put32. apply peek_poke_out; by rewrite length_le_enc. Qed.

Lemma get_put16 p v m : (p + 2 <= length m)%nat -> get16 (put16 p v m) p = u16 v.
Proof.
  intros. unfold get16, put16. pose proof (peek_poke p (le_enc 2 v) m) as E. rewrite length_le_enc in E.
  rewrite E by lia. by rewrite le_dec_enc.
Qed.

Lemma s16_u16 v : - 2 ^ 15 <= v < 2 ^ 15 -> s16 (u16 v) = v.
Proof. intros. wrap_lia. Qed.

Lemma length_put_addrs l p m : (p + 4 * length l <= length m)%nat -> length (put_addrs p l m) = length m.
Proof.
  revert p m. induction l as [|a l IH]; intros p m Hp; cbn [put_addrs length] in *; [done|].
  rewrite IH; rewrite length_put32; lia.
Qed.

Lemma peek_put_addrs l p q n m : (p + 4 * length l <= length m)%nat -> (q + n <= p \/ p + 4 * length l <= q)%nat ->
  peek q n (put_addrs p l m) = peek q n m.
Proof.
  revert p m. induction l as [|a l IH]; intros p m Hp Hq; cbn [put_addrs length] in *; [done|].
  rewrite IH; [apply peek_put32; lia|rewrite length_put32; lia|lia].
Qed.

Lemma get_put_addrs l p i a m : (p + 4 * length l <= length m)%nat -> l !! i = Some a ->
  get32 (put_addrs p l m) (p + 4 * i) = u32 a.
Proof.
  revert p i m. induction l as [|b l IH]; intros p i m Hp; cbn [put_addrs length] in *; [done|].
  destruct i as [|i]; cbn; [intros [= ->]|intros Hi].
  - rewrite Nat.add_0_r. unfold get32. rewrite peek_put_addrs by (rewrite ?length_put32; lia).
    apply get_put32. lia.
  - replace (p + S (i + S (i + S (i + S (i + 0)))))%nat with (p + 4 + 4 * i)%nat by lia.
    apply IH; [rewrite length_put32; lia|done].
Qed.

(** What fits the fields of [struct dinode]. *)
Record disk_inode (i : inode) : Prop := {
  di_type : - 2 ^ 15 <= i_type i < 2 ^ 15; di_major : - 2 ^ 15 <= i_major i < 2 ^ 15;
  di_minor : - 2 ^ 15 <= i_minor i < 2 ^ 15; di_nlink : - 2 ^ 15 <= i_nlink i < 2 ^ 15;
  di_size : 0 <= i_size i < 2 ^ 32; di_addrs : Forall (fun a => 0 <= a < 2 ^ 32) (i_addrs i);
  di_len : length (i_addrs i) = S NDIRECT }.

(** The contents of [i] in an entry with the identity of [j]. *)
Definition with_contents (i j : inode) : inode :=
  Inode (i_dev j) (i_inum j) (i_ref j) (i_flags j) (i_type i) (i_major i) (i_minor i) (i_nlink i) (i_size i) (i_addrs i).

(** Stores of fields inside a block. *)
Lemma len16 p v x : length x = 512%nat -> (p + 2 <= 512)%nat -> length (put16 p v x) = 512%nat.
Proof. intros. rewrite length_put16; lia. Qed.
Lemma len32 p v x : length x = 512%nat -> (p + 4 <= 512)%nat -> length (put32 p v x) = 512%nat.
Proof. intros. rewrite length_put32; lia. Qed.

Ltac blen := first [assumption | apply len16; [blen|lia] | apply len32; [blen|lia]].
(** A field lies inside a block that was stored to. *)
Ltac inside := match goal with |- (_ <= length ?x)%nat =>
  let E := fresh in assert (E : length x = 512%nat) by blen; rewrite E; lia end.

(** All fields but the addresses, in front of them. *)
Definition dinode_head (k : nat) (i : inode) (x : block) : block :=
  put32 (64 * k + 8) (i_size i) (put16 (64 * k + 6) (i_nlink i) (put16 (64 * k + 4) (i_minor i)
    (put16 (64 * k + 2) (i_major i) (put16 (64 * k) (i_type i) x)))).

Lemma dinode_put_head k i x : dinode_put k i x = put_addrs (64 * k + 12) (i_addrs i) (dinode_head k i x).
Proof. done. Qed.

Lemma length_head k i x : (k < 8)%nat -> length x = 512%nat -> length (dinode_head k i x) = 512%nat.
Proof. intros. unfold dinode_head. apply len32; [|lia]. repeat (apply len16; [|lia]). done. Qed.

(** Outside the 64 bytes of slot [k] nothing changes. *)
Lemma peek_dinode_put k i x q n : (k < 8)%nat -> length x = 512%nat -> disk_inode i ->
  (q + n <= 64 * k \/ 64 * k + 64 <= q)%nat -> peek q n (dinode_put k i x) = peek q n x.
Proof.
  intros Hk Hx Hi Hq. pose proof (di_len _ Hi) as Hl. unfold NDIRECT in Hl. rewrite dinode_put_head.
  rewrite peek_put_addrs; [|rewrite length_head by done; lia|lia]. unfold dinode_head.
  rewrite peek_put32; [|inside|lia]. repeat (rewrite peek_put16; [|inside|lia]). done.
Qed.

(** A field in front of the addresses is not touched by storing them. *)
Lemma dinode_head_field k i x q n : (k < 8)%nat -> length x = 512%nat -> disk_inode i -> (q + n <= 12)%nat ->
  peek (64 * k + q) n (dinode_put k i x) = peek (64 * k + q) n (dinode_head k i x).
Proof.
  intros Hk Hx Hi Hq. pose proof (di_len _ Hi) as Hl. unfold NDIRECT in Hl. rewrite dinode_put_head.
  apply peek_put_addrs; [rewrite length_head by done; lia|lia].
Qed.

Lemma dinode_shorts k i x : (k < 8)%nat -> length x = 512%nat -> disk_inode i ->
  get16 (dinode_put k i x) (64 * k) = u16 (i_type i) /\ get16 (dinode_put k i x) (64 * k + 2) = u16 (i_major i) /\
  get16 (dinode_put k i x) (64 * k + 4) = u16 (i_minor i) /\ get16 (dinode_put k i x) (64 * k + 6) = u16 (i_nlink i) /\
  get32 (dinode_put k i x) (64 * k + 8) = u32 (i_size i).
Proof.
  intros Hk Hx Hi. pose proof (fun q n => dinode_head_field k i x q n Hk Hx Hi) as F.
  pose proof (F 0%nat 2%nat) as F0. rewrite Nat.add_0_r in F0.
  unfold get16, get32. rewrite F0, !F by lia. unfold dinode_head.
  split_and!.
  - rewrite peek_put32; [|inside|lia]. do 3 (rewrite peek_put16; [|inside|lia]). apply get_put16. inside.
  - rewrite peek_put32; [|inside|lia]. do 2 (rewrite peek_put16; [|inside|lia]). apply get_put16. inside.
  - rewrite peek_put32; [|inside|lia]. rewrite peek_put16; [|inside|lia]. apply get_put16. inside.
  - rewrite peek_put32; [|inside|lia]. apply get_put16. inside.
  - apply get_put32. inside.
Qed.

Lemma dinode_addrs_put k i x : (k < 8)%nat -> length x = 512%nat -> disk_inode i ->
  dinode_addrs k (dinode_put k i x) = i_addrs i.
Proof.
  intros Hk Hx Hi. pose proof (di_len _ Hi) as Hl. apply list_eq. intros j. unfold dinode_addrs.
  rewrite list_lookup_fmap. destruct (i_addrs i !! j) as [a|] eqn:Ea.
  - pose proof (lookup_lt_Some _ _ _ Ea) as Hj. rewrite lookup_seq_lt by lia. cbn [fmap option_fmap option_map].
    f_equal. unfold dinode_at. rewrite dinode_put_head. replace (0 + j)%nat with j by lia.
    rewrite (get_put_addrs _ _ j a); [|rewrite length_head by done; unfold NDIRECT in Hl; lia|done].
    apply u32_small. exact (Forall_lookup_1 _ _ _ _ (di_addrs _ Hi) Ea).
  - apply lookup_ge_None in Ea. rewrite lookup_seq_ge by lia. done.
Qed.

(** The contents read back, and the other inodes of the block. *)
Lemma dinode_get_put k i j x : (k < 8)%nat -> length x = 512%nat -> disk_inode i ->
  dinode_get k (dinode_put k i x) j = with_contents i j.
Proof.
  intros Hk Hx Hi. destruct (dinode_shorts k i x Hk Hx Hi) as (E1 & E2 & E3 & E4 & E5).
  unfold dinode_get, dinode_type, dinode_at, with_contents. rewrite E1, E2, E3, E4, E5, dinode_addrs_put by done.
  rewrite !s16_u16 by apply Hi. by rewrite u32_small by apply Hi.
Qed.

Lemma dinode_get_other k k' i j x : (k < 8)%nat -> (k' < 8)%nat -> k <> k' -> length x = 512%nat -> disk_inode i ->
  dinode_get k' (dinode_put k i x) j = dinode_get k' x j.
Proof.
  intros Hk Hk' Ne Hx Hi.
  assert (P : forall q n, (q + n <= 64)%nat -> peek (64 * k' + q) n (dinode_put k i x) = peek (64 * k' + q) n x).
  { intros q n Hq. apply peek_dinode_put; [done..|lia]. }
  pose proof (P 0%nat 2%nat) as P0. rewrite Nat.add_0_r in P0.
  unfold dinode_get, dinode_type, dinode_addrs, dinode_at, get16, get32. rewrite P0, !P by lia. f_equal.
  apply list_fmap_ext. intros n a [-> Ha]%lookup_seq. unfold NDIRECT in Ha. rewrite <- Nat.add_assoc, P by lia. done.
Qed.

Section Inodes.
Context {B : Type} `{BlocksSpec B}.

Lemma on_blk_Done {A} (m : M B A) (s : fsys B) a b : m (blk s) = Done a b -> on_blk m s = Done a (set_blk b s).
Proof. apply zoom_Done. Qed.

(** Inode [n] is in a block below [home]. *)
Definition inum_in (n : Z) : Prop := 0 <= n /\ n / IPB + 2 < home /\ home < 2 ^ 32.

Lemma IBLOCK_range n : inum_in n -> IBLOCK n = n / IPB + 2 /\ 0 <= IBLOCK n < home.
Proof.
  intros (Hn & Hh & H32). assert (0 <= n / IPB) by (apply Z.div_pos; unfold IPB; lia).
  unfold IBLOCK. rewrite u32_small by lia. lia.
Qed.

Lemma islot_lt n : (islot n < 8)%nat.
Proof. unfold islot, IPB. pose proof (Z.mod_pos_bound n 8). lia. Qed.

Lemma same_slot n n' : 0 <= n -> 0 <= n' -> n / IPB = n' / IPB -> islot n = islot n' -> n = n'.
Proof.
  unfold islot, IPB. intros Hn Hn' E F. pose proof (Z.mod_pos_bound n 8). pose proof (Z.mod_pos_bound n' 8).
  rewrite (Z.div_mod n 8), (Z.div_mod n' 8), E by lia. lia.
Qed.

(** The view after [iupdate] of [i]. *)
Definition iupdate_view (i : inode) (v : Z -> block) : Z -> block :=
  vupd (IBLOCK (i_inum i)) (dinode_put (islot (i_inum i)) i (v (IBLOCK (i_inum i)))) v.

Lemma length_dinode_put k i x : (k < 8)%nat -> length x = 512%nat -> disk_inode i -> length (dinode_put k i x) = 512%nat.
Proof.
  intros Hk Hx Hi. pose proof (di_len _ Hi) as Hl. unfold NDIRECT in Hl.
  rewrite dinode_put_head, length_put_addrs; rewrite length_head by done; [done|lia].
Qed.

Lemma iupdate_ok s v h w ip i : rep (blk s) v h w -> icache s !! ip = Some i -> i_dev i = bdev ->
  inum_in (i_inum i) -> disk_inode i -> h !! IBLOCK (i_inum i) = None ->
  (size w < cap)%nat -> (size h + size w + 1 < nbufs)%nat ->
  exists b, iupdate ip s = Done tt (set_blk b s) /\ rep b (iupdate_view i v) h ({[IBLOCK (i_inum i)]} ∪ w).
Proof.
  intros R Hi Hd Hn Di Hh Hw Hs. destruct (IBLOCK_range _ Hn) as [_ Rn].
  destruct (hold _ _ _ _ _ R Rn Hh) as (k & b1 & E1 & E2 & R1); [lia|].
  destruct (put_back_steps _ _ _ _ _ _ _ (dinode_put (islot (i_inum i)) i (v (IBLOCK (i_inum i)))) R1 Hh Rn)
    as (b2 & b3 & b4 & E3 & E4 & E5 & R2); [|done|done|].
  { apply length_dinode_put; [apply islot_lt|by eapply rep_len|done]. }
  exists b4. split; [|done]. unfold iupdate. unfold bind at 1, geti. rewrite Hi, Hd.
  rewrite (bind_Done _ _ _ _ _ (on_blk_Done _ s _ _ E1)), (bind_Done _ _ _ _ _ (on_blk_Done _ (set_blk b1 s) _ _ E2)).
  rewrite (bind_Done _ _ _ _ _ (on_blk_Done _ (set_blk b1 s) _ _ E3)).
  rewrite (bind_Done _ _ _ _ _ (on_blk_Done _ (set_blk b2 s) _ _ E4)).
  exact (on_blk_Done _ (set_blk b3 s) _ _ E5).
Qed.

(** A lock on an entry that has not been read yet. *)
Lemma ilock_ok s v h w j e : rep (blk s) v h w -> icache s !! j = Some e -> ic_lock s = false ->
  i_dev e = bdev -> inum_in (i_inum e) -> h !! IBLOCK (i_inum e) = None -> (size h + size w < nbufs)%nat ->
  1 <= i_ref e -> i_flags e = 0 ->
  let i := dinode_get (islot (i_inum e)) (v (IBLOCK (i_inum e))) e in
  i_type i <> 0 ->
  exists s', ilock (Some j) s = Done tt s' /\ icache s' !! j = Some (set_iflags 3 i) /\ rep (blk s') v h w.
Proof.
  intros R He Hl Hd Hn Hh Hs Hr Hf i Ht. destruct (IBLOCK_range _ Hn) as [_ Rn].
  destruct (hold _ _ _ _ _ R Rn Hh) as (k & b1 & E1 & E2 & R1); [done|].
  destruct (let_go _ _ _ _ _ _ R1 Hh Rn) as (b2 & E3 & R2).
  set (s1 := set_icache (alter (fun i => set_iflags (Z.lor (i_flags i) I_BUSY) i) j (icache s)) s).
  assert (G1 : geti j s1 = Done (set_iflags 1 e) s1).
  { unfold geti. cbn [icache s1 set_icache]. rewrite list_lookup_alter_eq, He. cbn. by rewrite Hf. }
  set (s2 := set_icache (alter (dinode_get (islot (i_inum e)) (v (IBLOCK (i_inum e)))) j (icache s1)) (set_blk b2 s1)).
  set (s3 := set_icache (alter (fun i => set_iflags (Z.lor (i_flags i) I_VALID) i) j (icache s2)) s2).
  assert (I3 : icache s3 !! j = Some (set_iflags 3 i)).
  { cbn [icache s3 s2 s1 set_icache]. rewrite !list_lookup_alter_eq, He. cbn. by rewrite Hf. }
  exists s3. split; [|done]. unfold ilock. unfold bind at 1, geti at 1. rewrite He. replace (i_ref e <? 1) with false by lia.
  unfold bind at 1, iacquire, Spinlock.acquire. rewrite Hl. unfold bind at 1, geti at 1. cbn [icache set_ic_lock].
  rewrite He. unfold iflag at 1. rewrite Hf. change (negb (Z.land 0 I_BUSY =? 0)) with false. cbv iota.
  assert (U1 : (upd_inode j (fun i => set_iflags (Z.lor (i_flags i) I_BUSY) i) ;! irelease) (set_ic_lock true s) = Done tt s1).
  { unfold bind, upd_inode, modify, irelease, Spinlock.release, s1, set_icache, set_ic_lock. cbn. by rewrite Hl. }
  apply bind_inv in U1 as ([] & sx & U1 & U2). rewrite (bind_Done _ _ _ _ _ U1), (bind_Done _ _ _ _ _ U2).
  rewrite (bind_Done _ _ _ _ _ G1). change (iflag I_VALID (set_iflags 1 e)) with false. cbv iota.
  cbn [i_dev i_inum set_iflags]. rewrite Hd.
  rewrite (bind_Done _ _ _ _ _ (on_blk_Done _ s1 _ _ E1)), (bind_Done _ _ _ _ _ (on_blk_Done _ (set_blk b1 s1) _ _ E2)).
  unfold bind at 1, upd_inode at 1, modify at 1.
  match goal with |- bind (on_blk (brelse k)) _ ?x = _ => rewrite (bind_Done _ _ _ _ _ (on_blk_Done _ x _ _ E3)) end.
  unfold bind at 1, upd_inode at 1, modify at 1.
  match goal with |- bind (geti j) _ ?x = _ => change x with s3 end.
  assert (G3 : geti j s3 = Done (set_iflags 3 i) s3) by (unfold geti; by rewrite I3).
  rewrite (bind_Done _ _ _ _ _ G3). change (i_type (set_iflags 3 i)) with (i_type i).
  by rewrite (proj2 (Z.eqb_neq _ _) Ht).
Qed.


(** What [iupdate] writes is what [ilock] reads.  After [iupdate] of an inode,
    whoever locks an entry for that inode which is not in memory yet gets exactly
    the contents written, and every other inode on disk reads as before. *)
Theorem iupdate_ilock s v h w ip i : rep (blk s) v h w -> icache s !! ip = Some i -> i_dev i = bdev ->
  inum_in (i_inum i) -> disk_inode i -> i_type i <> 0 -> h !! IBLOCK (i_inum i) = None ->
  (size w < cap)%nat -> (size h + size w + 1 < nbufs)%nat ->
  exists b v', iupdate ip s = Done tt (set_blk b s) /\ rep b v' h ({[IBLOCK (i_inum i)]} ∪ w) /\
    (forall t h' w' j e, rep (blk t) v' h' w' -> icache t !! j = Some e -> ic_lock t = false ->
       i_dev e = bdev -> i_inum e = i_inum i -> h' !! IBLOCK (i_inum i) = None -> (size h' + size w' < nbufs)%nat ->
       1 <= i_ref e -> i_flags e = 0 ->
       exists t', ilock (Some j) t = Done tt t' /\ icache t' !! j = Some (set_iflags 3 (with_contents i e))) /\
    (forall n e, inum_in n -> n <> i_inum i ->
       dinode_get (islot n) (v' (IBLOCK n)) e = dinode_get (islot n) (v (IBLOCK n)) e).
Proof.
  intros R Hi Hd Hn Di Ht Hh Hw Hs. destruct (iupdate_ok _ _ _ _ _ _ R Hi Hd Hn Di Hh Hw Hs) as (b & E & R').
  destruct (IBLOCK_range _ Hn) as [En Rn]. pose proof (rep_len _ _ _ _ _ R Rn) as Hx.
  exists b, (iupdate_view i v). split; [done|]. split; [done|].
  assert (G : forall e, dinode_get (islot (i_inum i)) (iupdate_view i v (IBLOCK (i_inum i))) e = with_contents i e).
  { intros e. unfold iupdate_view. rewrite vupd_eq. apply dinode_get_put; [apply islot_lt|done|done]. }
  split.
  - intros t h' w' j e Rt He Hl Hde Hne Hh' Hs' Hr Hf. rewrite <- Hne in *.
    destruct (ilock_ok t _ h' w' j e Rt He Hl Hde) as (t' & E' & I' & _); try done.
    + by rewrite G.
    + exists t'. split; [done|]. by rewrite I', G.
  - intros n e Hin Ne. destruct (IBLOCK_range _ Hin) as [En' _]. unfold iupdate_view, vupd. case_decide as Eb; [|done].
    rewrite Eb. apply dinode_get_other; [apply islot_lt|apply islot_lt| |done|done].
    intros F. apply Ne. symmetry. apply same_slot; [apply Hn|apply Hin|lia|done].
Qed.

End Inodes.

(** ** Blocks in memory keep the contract *)

#[local] Existing Instance ram_blocks.

Definition ram_rep (m : ram) (v : Z -> block) (h : gmap Z (nat * block)) (w : gset Z) : Prop :=
  (forall sec, 0 <= sec < 8 -> length (v sec) = 512%nat /\
     m (Z.to_nat sec) = match h !! sec with Some (_, x) => x | None => v sec end) /\
  (forall sec i x, h !! sec = Some (i, x) -> i = Z.to_nat sec /\ 0 <= sec < 8 /\ length x = 512%nat).

#[local] Instance ram_spec : BlocksSpec ram.
Proof.
  refine {| bdev := 1; home := 8; cap := 10%nat; nbufs := 10%nat; rep := ram_rep |}.
  - intros s v h w sec [R _] Hs. by apply R.
  - intros s v h w sec [R K] Hs Hn _. exists (Z.to_nat sec), s. split; [done|]. split.
    + intros z Hz. destruct (R z Hz) as [Hl E]. split; [done|]. rewrite E. destruct (decide (sec = z)) as [<-|].
      * by rewrite Hn, lookup_insert_eq.
      * by rewrite lookup_insert_ne.
    + intros z i x. destruct (decide (sec = z)) as [<-|]; [|rewrite lookup_insert_ne by done; apply K].
      rewrite lookup_insert_eq. intros [= <- <-]. split; [done|]. split; [done|]. by apply R.
  - intros s v h w sec i x [R K] Hx. destruct (K _ _ _ Hx) as (-> & Hs & _). cbn. unfold gets.
    destruct (R sec Hs) as [_ ->]. by rewrite Hx.
  - intros s v h w sec i x y [R K] Hx Hy. destruct (K _ _ _ Hx) as (-> & Hs & _). eexists. split; [reflexivity|]. split.
    + intros z Hz. destruct (R z Hz) as [Hl E]. split; [done|]. destruct (decide (sec = z)) as [<-|Ne].
      * by rewrite Nat.eqb_refl, lookup_insert_eq.
      * rewrite lookup_insert_ne, (proj2 (Nat.eqb_neq _ _)) by (done || lia). done.
    + intros z i' x'. destruct (decide (sec = z)) as [<-|]; [|rewrite lookup_insert_ne by done; apply K].
      rewrite lookup_insert_eq. by intros [= <- <-].
  - intros s v h w sec i x [R K] Hx Hs _ _. exists s. split; [done|]. split; [|done].
    intros z Hz. destruct (R z Hz) as [Hl E]. unfold vupd. case_decide as Ez; [|done]. subst z.
    rewrite Hx in E. rewrite Hx. split; [|done]. by eapply K.
  - intros s v h w sec i [R K] Hx Hs. exists s. split; [done|]. split.
    + intros z Hz. destruct (R z Hz) as [Hl E]. split; [done|]. rewrite E. destruct (decide (sec = z)) as [<-|].
      * by rewrite Hx, lookup_delete_eq.
      * by rewrite lookup_delete_ne.
    + intros z i' x'. rewrite lookup_delete_Some. intros [_ ?]. by apply (K z i').
Defined.

(** A disk of six blocks and eight inodes: block 4 is the bitmap, 5 is free. *)
Definition small (z : Z) : block :=
  if z =? 1 then le_enc 4 6 ++ le_enc 4 1 ++ le_enc 4 8 ++ replicate 500 0
  else if z =? 4 then 31 :: replicate 511 0 else replicate 512 0.
Definition small_ram : ram := fun i => small (Z.of_nat i).

Lemma small_rep : ram_rep small_ram small ∅ ∅.
Proof.
  split; [|done]. intros sec Hs. rewrite lookup_empty. split.
  - unfold small. destruct (sec =? 1); [reflexivity|]. by destruct (sec =? 4).
  - unfold small_ram. by rewrite Z2Nat.id by lia.
Qed.

Lemma small_sizes : Log.sb_size (sb small) = 6 /\ Log.sb_ninodes (sb small) = 8.
Proof. split; vm_compute; reflexivity. Qed.

Lemma small_map b : 0 <= b < 6 -> map_block small b = 4.
Proof.
  intros Hb. unfold map_block. rewrite (proj2 small_sizes). unfold BBLOCK, BPB. by rewrite Z.div_small by lia.
Qed.

Lemma small_used b : 0 <= b < 6 -> used small b = negb (b =? 5).
Proof.
  intros Hb. unfold used. rewrite small_map by done. unfold BPB. rewrite Z.mod_small by lia.
  assert (b = 0 \/ b = 1 \/ b = 2 \/ b = 3 \/ b = 4 \/ b = 5) as K by lia.
  by destruct K as [-> | [-> | [-> | [-> | [-> | ->]]]]].
Qed.

Lemma small_layout : layout small.
Proof.
  destruct small_sizes as [Es En]. constructor; rewrite ?Es, ?En.
  - split; [reflexivity|vm_compute; reflexivity].
  - lia.
  - lia.
  - intros b Hb. unfold BPB. rewrite Z.div_small by lia. reflexivity.
  - intros _. by rewrite small_used.
  - intros b Hb _. by rewrite small_map, small_used.
Qed.

Lemma bfree_spec_witness : bfree 1 5 small_ram = Panic "freeing free block".
Proof.
  destruct (bfree_spec small_ram small ∅ ∅ 5 small_layout small_rep) as [_ F];
    [by constructor|rewrite (proj1 small_sizes); lia|vm_compute; lia|vm_compute; lia|].
  apply F. by rewrite small_used.
Defined.

(** Eight blocks of which the last two are the log, as mkfs.c lays a disk out: the
    bitmap marks the blocks in front of the data only.  When the data blocks are
    used up, [balloc] returns block 6, the header of the log. *)
Definition full_data : ram := fun i =>
  if (i =? 1)%nat then le_enc 4 8 ++ le_enc 4 1 ++ le_enc 4 8 ++ le_enc 4 2 ++ replicate 496 0
  else if (i =? 4)%nat then 63 :: replicate 511 0 else replicate 512 0.

Lemma balloc_takes_log_block : exists s', balloc 1 full_data = Done 6 s' /\
  Log.sb_size (Log.sb_dec (full_data 1%nat)) - Log.sb_nlog (Log.sb_dec (full_data 1%nat)) = 6.
Proof. eexists. split; [vm_compute; reflexivity|vm_compute; reflexivity]. Qed.

(** Inode 1, a file of 10 bytes in block 5. *)
Definition a_file : inode := Inode 1 1 1 3 T_FILE 0 0 1 10 (5 :: replicate 12 0).
Definition with_file : fsys ram := Fsys small_ram false [a_file].

Lemma a_file_fits : disk_inode a_file.
Proof.
  constructor; [cbn; unfold T_FILE; lia..| |reflexivity]. cbn [a_file i_addrs].
  constructor; [lia|]. apply Forall_replicate. lia.
Qed.

Lemma iupdate_ilock_witness : exists b t', iupdate 0 with_file = Done tt (set_blk b with_file) /\
  ilock (Some 0%nat) (Fsys b false [set_ids 1 1 1 0 zero_inode]) = Done tt t' /\
  icache t' !! 0%nat = Some a_file.
Proof.
  assert (R0 : rep (blk with_file) small ∅ ∅) by exact small_rep.
  destruct (iupdate_ilock with_file small ∅ ∅ 0 a_file R0 eq_refl eq_refl) as (b & v' & E & R & K & _);
    [vm_compute; intuition discriminate| |discriminate|reflexivity|vm_compute; lia|vm_compute; lia|].
  { apply a_file_fits. }
  destruct (K (Fsys b false [set_ids 1 1 1 0 zero_inode]) ∅ _ 0%nat _ R eq_refl eq_refl eq_refl eq_refl) as (t' & E' & I');
    [reflexivity|vm_compute; lia|vm_compute; discriminate|reflexivity|].
  exists b, t'. split; [exact E|]. split; [exact E'|exact I'].
Defined.

End FsBlocks.
