(* ===== verification/FsLog.v ===== *)
(** * The log under the file system (kernel/log.c, kernel/bio.c under kernel/fs.c)

    Inside a transaction the operations of Log.v and Bio.v keep the contract
    [BlocksSpec] that the theorems of FsBlocks.v rely on: what fs.c sees is the
    disk with the blocks logged so far on top of it. *)

From S2P Require Import Prelude Spinlock Bio Disk Log Fs FsBlocks.

Module FsLog.
Import Log FsBlocks.

#[export] Instance log_blocks {D} `{Bio.DiskDriver D} : Fs.Blocks (lst D) := {|
  Fs.bread := fun d sec => bio (Bio.bread (u32 d) (u32 sec));
  Fs.bdata := fun i => let! x := bio (Bio.getb i) in ret (Bio.b_data x);
  Fs.bstore := fun i y => bio (Bio.updb i (Bio.set_data y));
  Fs.blog := log_write;
  Fs.brelse := fun i => bio (Bio.brelse i) |}.

#[export] Instance log_trans {D} `{Bio.DiskDriver D} : Fs.Trans (lst D) := {|
  Fs.begin_trans := begin_trans; Fs.commit_trans := commit_trans |}.

Section Contract.
Context {D : Type} `{Bio.DiskSpec D} (I : D -> Prop) (W : Z * Z -> Fs.block -> D -> Prop) `{!Bio.DiskGhost D I W}.
Context (N start nlog : Z) (Hregion : 2 <= start /\ start + nlog = N /\ N < 2 ^ 31 /\ 2 <= nlog).
Context (Phase : (Z -> Fs.block) -> Prop).
Context (HW : forall d m sec x, contents N d m -> 0 <= sec < N -> Phase (mupd sec x m) -> W (dev, sec) x d).
Context (old : Z -> Fs.block) (HPA : forall m, PA start old m -> Phase m).

(** The blocks as the transaction has them, the buffers it holds, and the blocks
    it has logged; on disk the file system is still [old]. *)
Record trans (s : lst D) (v : Z -> Fs.block) (h : gmap Z (nat * Fs.block)) (w : gset Z)
    (P : gmap (Z * Z) Bio.pin) (m : Z -> Fs.block) (T : list (Z * Fs.block)) : Prop := {
  tr_lok : lok I N start nlog s P m;
  tr_tst : tst start nlog s P m T;
  tr_old : PA start old m;
  tr_logged : w = list_to_set T.*1;
  tr_dev k p : P !! k = Some p -> k.1 = dev;
  tr_view sec : 0 <= sec < start -> v sec = final m T sec;
  tr_held sec i x : h !! sec = Some (i, x) <->
    exists p, P !! (dev, sec) = Some p /\ Bio.p_busy p = true /\ Bio.p_idx p = i /\ Bio.p_data p = x }.

Definition log_rep (s : lst D) (v : Z -> Fs.block) (h : gmap Z (nat * Fs.block)) (w : gset Z) : Prop :=
  exists P m T, trans s v h w P m T.

Definition log_cap : nat := Nat.min LOGSIZE (Z.to_nat (nlog - 1)).

Lemma final_in m T i e : NoDup T.*1 -> T !! i = Some e -> final m T e.1 = e.2.
Proof.
  intros Hn Hi. unfold final. destruct (list_find (fun e' => e'.1 = e.1) T) as [[j f]|] eqn:E.
  - apply list_find_Some in E as (Hj & Ef & _). cbn.
    assert (i = j) as <-. { eapply (NoDup_lookup T.*1); [done|..]; rewrite list_lookup_fmap; [by rewrite Hi|by rewrite Hj, <- Ef]. }
    congruence.
  - apply list_find_None in E. eapply Forall_lookup_1 in E; [|exact Hi]. done.
Qed.

Lemma final_out m T sec : (forall i e, T !! i = Some e -> e.1 <> sec) -> final m T sec = m sec.
Proof.
  intros Hn. unfold final. destruct (list_find (fun e => e.1 = sec) T) as [[j f]|] eqn:E; [|done].
  apply list_find_Some in E as (Hj & Ef & _). by apply Hn in Hj.
Qed.

(** No more buffers are pinned than are held or hold logged blocks. *)
Lemma pins_size s v h w P m T : trans s v h w P m T -> (size P <= size h + size w)%nat.
Proof.
  intros Tr. pose proof (tr_tst _ _ _ _ _ _ _ Tr) as Ht. destruct (ts_tok _ _ _ _ _ _ Ht) as (Hnd & _).
  assert (K : (size P <= length ((map_to_list h).*1 ++ T.*1))%nat).
  { apply size_bound. intros [d sec] p Hp. pose proof (tr_dev _ _ _ _ _ _ _ Tr _ _ Hp) as Ed. cbn in Ed. subst d.
    exists sec. split; [|done]. apply elem_of_app. destruct (Bio.p_busy p) eqn:Eb.
    - left. apply list_elem_of_fmap. exists (sec, (Bio.p_idx p, Bio.p_data p)). split; [done|].
      apply elem_of_map_to_list, (tr_held _ _ _ _ _ _ _ Tr). eauto.
    - right. pose proof (Bio.brep_lookup _ _ _ _ (lok_rep _ _ _ _ _ _ _ (tr_lok _ _ _ _ _ _ _ Tr)) Hp)
        as (_ & _ & _ & _ & _ & _ & _ & _ & Hbd). rewrite Eb in Hbd. cbn in Hbd.
      destruct (ts_dirty _ _ _ _ _ _ Ht _ _ Hp Hbd) as (i & e & Hi & [= ->] & _).
      apply list_elem_of_fmap. exists e. split; [done|]. by eapply list_elem_of_lookup_2. }
  rewrite length_app, length_fmap, length_map_to_list in K. rewrite (tr_logged _ _ _ _ _ _ _ Tr).
  by rewrite size_list_to_set.
Qed.


(** What a pinned or unpinned block shows. *)
Lemma trans_view s v h w P m T sec : trans s v h w P m T -> 0 <= sec < start ->
  (forall p, P !! (dev, sec) = Some p -> Bio.p_busy p = false) -> view P m sec = v sec.
Proof.
  intros Tr Hs Hnb. pose proof (tr_tst _ _ _ _ _ _ _ Tr) as Ht. destruct (ts_tok _ _ _ _ _ _ Ht) as (Hnd & _).
  rewrite (tr_view _ _ _ _ _ _ _ Tr _ Hs). unfold view. destruct (P !! (dev, sec)) as [p|] eqn:Ep.
  - pose proof (Hnb _ eq_refl) as Eb.
    pose proof (Bio.brep_lookup _ _ _ _ (lok_rep _ _ _ _ _ _ _ (tr_lok _ _ _ _ _ _ _ Tr)) Ep)
      as (_ & _ & _ & _ & _ & _ & _ & _ & Hbd). rewrite Eb in Hbd. cbn in Hbd.
    destruct (ts_dirty _ _ _ _ _ _ Ht _ _ Ep Hbd) as (i & e & Hi & [= ->] & Ed).
    rewrite (final_in m T i e Hnd Hi). by apply Ed.
  - symmetry. apply final_out. intros i e Hi <-. destruct (ts_pin _ _ _ _ _ _ Ht _ _ Hi) as (p & Hp & _). congruence.
Qed.

Lemma trans_not_busy s v h w P m T sec : trans s v h w P m T -> h !! sec = None ->
  forall p, P !! (dev, sec) = Some p -> Bio.p_busy p = false.
Proof.
  intros Tr Hn p Hp. destruct (Bio.p_busy p) eqn:E; [|done].
  assert (K : h !! sec = Some (Bio.p_idx p, Bio.p_data p)) by (apply (tr_held _ _ _ _ _ _ _ Tr); eauto). congruence.
Qed.

(** The pins when block [sec] is held with data [x]. *)
Lemma held_insert (P : gmap (Z * Z) Bio.pin) (h : gmap Z (nat * Fs.block)) sec i d x :
  (forall z j y, h !! z = Some (j, y) <->
    exists p, P !! (dev, z) = Some p /\ Bio.p_busy p = true /\ Bio.p_idx p = j /\ Bio.p_data p = y) ->
  forall z j y, <[sec := (i, x)]> h !! z = Some (j, y) <->
    exists p, <[(dev, sec) := Bio.Pin i true d x]> P !! (dev, z) = Some p /\ Bio.p_busy p = true /\
      Bio.p_idx p = j /\ Bio.p_data p = y.
Proof.
  intros Hh z j y. destruct (decide (sec = z)) as [<-|Ne].
  - rewrite !lookup_insert_eq. split.
    + intros [= <- <-]. by eexists.
    + by intros (p & [= <-] & _ & <- & <-).
  - rewrite !lookup_insert_ne by congruence. apply Hh.
Qed.

(** The pins when block [sec] is given back. *)
Lemma held_delete (P P' : gmap (Z * Z) Bio.pin) (h : gmap Z (nat * Fs.block)) sec :
  (forall z j y, h !! z = Some (j, y) <->
    exists p, P !! (dev, z) = Some p /\ Bio.p_busy p = true /\ Bio.p_idx p = j /\ Bio.p_data p = y) ->
  (forall z, z <> sec -> P' !! (dev, z) = P !! (dev, z)) ->
  (forall p, P' !! (dev, sec) = Some p -> Bio.p_busy p = false) ->
  forall z j y, delete sec h !! z = Some (j, y) <->
    exists p, P' !! (dev, z) = Some p /\ Bio.p_busy p = true /\ Bio.p_idx p = j /\ Bio.p_data p = y.
Proof.
  intros Hh Ho Hs z j y. destruct (decide (sec = z)) as [<-|Ne].
  - rewrite lookup_delete_eq. split; [done|]. intros (p & Hp & Hb & _). apply Hs in Hp. congruence.
  - rewrite lookup_delete_ne, Ho by congruence. apply Hh.
Qed.

Lemma in_dev (P : gmap (Z * Z) Bio.pin) sec q : (forall k p, P !! k = Some p -> k.1 = dev) ->
  forall k p, <[(dev, sec) := q]> P !! k = Some p -> k.1 = dev.
Proof. intros Hd k p [[<- _]|[_ Hp]]%lookup_insert_Some; [done|eauto]. Qed.

Lemma absorb_keys sec x T : NoDup T.*1 ->
  (list_to_set (absorb sec x T).*1 : gset Z) = {[sec]} ∪ list_to_set T.*1.
Proof.
  intros Hn. destruct (absorb_lookup N start nlog Hregion sec x T Hn) as (L1 & L2 & L3 & _). apply set_eq. intros z.
  rewrite elem_of_union, elem_of_singleton, !elem_of_list_to_set, !list_elem_of_fmap. split.
  - intros (e & -> & [i Hi]%list_elem_of_lookup). destruct (L2 _ _ Hi) as [[_ ->] | (_ & Hi' & _)]; [by left|].
    right. exists e. split; [done|]. by eapply list_elem_of_lookup_2.
  - intros [-> | (e & -> & [i Hi]%list_elem_of_lookup)].
    + exists (sec, x). split; [done|]. by eapply list_elem_of_lookup_2.
    + destruct (decide (i = log_pos sec T)) as [Ei|Ei].
      * exists (sec, x). split; [|by eapply list_elem_of_lookup_2]. unfold log_pos in Ei.
        destruct (list_find _ T) as [[j f]|] eqn:E; [|apply lookup_lt_Some in Hi; lia].
        apply list_find_Some in E as (Hf & <- & _). cbn. congruence.
      * exists e. split; [done|]. eapply list_elem_of_lookup_2. by apply L3.
Qed.

Lemma log_bread s v h w sec : log_rep s v h w -> 0 <= sec < start -> h !! sec = None ->
  (size h + size w < Bio.NBUF)%nat ->
  exists i s', Fs.bread dev sec s = Done i s' /\ log_rep s' v (<[sec := (i, v sec)]> h) w.
Proof.
  intros (P & m & T & Tr) Hs Hn Hb. pose proof (trans_not_busy _ _ _ _ _ _ _ sec Tr Hn) as Hnb.
  pose proof (pins_size _ _ _ _ _ _ _ Tr) as Hsz.
  destruct (lread I W N start nlog s P m sec (tr_lok _ _ _ _ _ _ _ Tr)) as (i & s' & E & Sl & L); [lia|done|lia|].
  rewrite (trans_view _ _ _ _ _ _ _ sec Tr Hs Hnb) in L. exists i, s'.
  split; [cbn; by rewrite !u32_small by (unfold dev, ROOTDEV; lia)|]. eexists _, m, T.
  destruct Tr as [T1 T2 T3 T4 T5 T6 T7]. constructor; [exact L| |done|done| |done|].
  - by eapply (tst_hold start nlog s P m T s'); [|..|lia].
  - by apply in_dev.
  - by apply held_insert.
Qed.

Lemma log_bdata s v h w sec i x : log_rep s v h w -> h !! sec = Some (i, x) -> Fs.bdata i s = Done x s.
Proof.
  intros (P & m & T & Tr) (p & Hp & Hb & <- & <-)%(tr_held _ _ _ _ _ _ _ Tr).
  destruct (lget I N start nlog s P m _ p (tr_lok _ _ _ _ _ _ _ Tr) Hp) as (y & E & _ & Ed).
  change (bind (bio (Bio.getb (Bio.p_idx p))) (fun x => ret (Bio.b_data x)) s = Done (Bio.p_data p) s).
  rewrite (bind_Done _ _ _ _ _ E). unfold ret. by rewrite Ed.
Qed.

Lemma log_bstore s v h w sec i x y : log_rep s v h w -> h !! sec = Some (i, x) -> length y = 512%nat ->
  exists s', Fs.bstore i y s = Done tt s' /\ log_rep s' v (<[sec := (i, y)]> h) w.
Proof.
  intros (P & m & T & Tr) Hx Hy. pose proof Hx as (p & Hp & Hb & <- & <-)%(tr_held _ _ _ _ _ _ _ Tr).
  destruct (lset I N start nlog s P m _ p y (tr_lok _ _ _ _ _ _ _ Tr) Hp Hb Hy) as (s' & E & Sl & L).
  exists s'. split; [done|]. eexists _, m, T. destruct Tr as [T1 T2 T3 T4 T5 T6 T7].
  constructor; [exact L| |done|done| |done|].
  - eapply (tst_set start nlog s P m T s' sec _ (Bio.p_data p)); [|done].
    rewrite insert_id; [done|]. rewrite Hp. by destruct p; cbn in Hb; subst.
  - by apply in_dev.
  - by apply held_insert.
Qed.

Lemma log_blog s v h w sec i x : log_rep s v h w -> h !! sec = Some (i, x) -> 0 <= sec < start ->
  (size w < log_cap)%nat -> (size h + size w < Bio.NBUF)%nat ->
  exists s', Fs.blog i s = Done tt s' /\ log_rep s' (vupd sec x v) h ({[sec]} ∪ w).
Proof.
  intros (P & m & T & Tr) Hx Hs Hc Hb. pose proof Hx as (p & Hp & Hbp & <- & <-)%(tr_held _ _ _ _ _ _ _ Tr).
  pose proof (pins_size _ _ _ _ _ _ _ Tr) as Hsz. destruct Tr as [T1 T2 T3 T4 T5 T6 T7].
  destruct (ts_tok _ _ _ _ _ _ T2) as (Hnd & _). rewrite T4, size_list_to_set, length_fmap in * by done. unfold log_cap in Hc.
  destruct (log_write_spec I W N start nlog Hregion Phase HW s P m T sec p T1 T2 Hp Hbp Hs) as (s' & E & L & Tt); [lia..| |].
  { apply HPA, PA_log; [done|lia]. }
  exists s'. split; [done|]. eexists _, _, _.
  constructor; [exact L|exact Tt|by apply PA_log; [|lia]| | | |].
  - symmetry. apply absorb_keys. exact Hnd.
  - by apply in_dev.
  - intros z Hz. rewrite final_absorb. unfold vupd, mupd at 1. case_decide; [done|]. rewrite (T6 z Hz). unfold final.
    destruct (list_find _ T) as [[]|]; [done|]. symmetry. apply mupd_ne. lia.
  - rewrite <- (insert_id h sec _ Hx). by apply held_insert.
Qed.

Lemma tst_drop (s : lst D) P m T s' sec p : tst start nlog s P m T -> same_log s s' -> P !! (dev, sec) = Some p ->
  Bio.p_dirty p = false -> tst start nlog s' (delete (dev, sec) P) m T.
Proof.
  intros [A1 A2 A3 A4 A5 A6 A7 A8 A9] Hs Hp Hd. destruct (same_fields s s' Hs) as (F1 & F2 & F3).
  constructor; rewrite ?F1, ?F2, ?F3; try done.
  - intros k q [_ Hq]%lookup_delete_Some. by apply A7.
  - intros i e Hi. destruct (A8 _ _ Hi) as (q & Hq & Hdq). exists q. split; [|done].
    rewrite lookup_delete_ne; [done|]. intros [= E]. rewrite E in Hp. congruence.
  - intros z q [_ Hq]%lookup_delete_Some. by eapply A9.
Qed.

Lemma log_brelse s v h w sec i : log_rep s v h w -> h !! sec = Some (i, v sec) -> 0 <= sec < start ->
  exists s', Fs.brelse i s = Done tt s' /\ log_rep s' v (delete sec h) w.
Proof.
  intros (P & m & T & Tr) Hx Hs. pose proof Hx as (p & Hp & Hb & <- & Ed)%(tr_held _ _ _ _ _ _ _ Tr).
  destruct Tr as [T1 T2 T3 T4 T5 T6 T7]. destruct (ts_tok _ _ _ _ _ _ T2) as (Hnd & _).
  assert (Hm : Bio.p_dirty p = false -> Bio.p_data p = m sec).
  { intros Ec. rewrite Ed, (T6 sec Hs). apply final_out. intros j e Hj E.
    destruct (ts_pin _ _ _ _ _ _ T2 _ _ Hj) as (q & Hq & Hdq). rewrite E in Hq. congruence. }
  destruct (lrelse I N start nlog s P m sec p T1 Hp Hb) as (s' & E & Sl & L); [lia|done|].
  exists s'. split; [done|]. eexists _, m, T. constructor; [exact L| |done|done| |done|].
  - destruct (Bio.p_dirty p) eqn:Ec; [|by eapply tst_drop].
    eapply (tst_release start nlog s P m T); [|done|].
    + rewrite insert_id; [done|]. rewrite Hp. destruct p; cbn in *. congruence.
    + intros j e Hj Ee. rewrite Ed, (T6 sec Hs), <- Ee. symmetry. by eapply final_in.
  - destruct (Bio.p_dirty p); [by apply in_dev|]. intros k q [_ Hq]%lookup_delete_Some. by eapply T5.
  - apply (held_delete P); [done|..].
    + intros z Hz. destruct (Bio.p_dirty p); [apply lookup_insert_ne|apply lookup_delete_ne]; congruence.
    + intros q. destruct (Bio.p_dirty p); [rewrite lookup_insert_eq; by intros [= <-]|by rewrite lookup_delete_eq].
Qed.

Lemma log_len s v h w sec : log_rep s v h w -> 0 <= sec < start -> length (v sec) = 512%nat.
Proof.
  intros (P & m & T & [T1 T2 T3 T4 T5 T6 T7]) Hs. rewrite (T6 sec Hs). unfold final.
  destruct (ts_tok _ _ _ _ _ _ T2) as (_ & F & _).
  destruct (list_find _ T) as [[j e]|] eqn:E; [|eapply lok_length; [exact T1|lia]].
  apply list_find_Some in E as (Hj & _). by apply (Forall_lookup_1 _ _ _ _ F Hj).
Qed.

(** Inside a transaction the log and the cache keep the contract of fs.c. *)
Definition log_spec : BlocksSpec (lst D) := {|
  bdev := dev; home := start; cap := log_cap; nbufs := Bio.NBUF; rep := log_rep;
  rep_len := log_len; bread_ok := log_bread; bdata_ok := log_bdata; bstore_ok := log_bstore;
  blog_ok := log_blog; brelse_ok := log_brelse |}.

End Contract.

(** ** Whole transactions *)

Section Transaction.
Context {D : Type} `{Bio.DiskSpec D}.
Context (N start nlog : Z) (Hregion : 2 <= start /\ start + nlog = N /\ N < 2 ^ 31 /\ 2 <= nlog).

(** No property of the disk's history is needed here. *)
#[local] Instance any_ghost : Bio.DiskGhost D (fun _ => True) (fun _ _ _ => True).
Proof. by constructor. Qed.

Definition any_HW (d : D) (m : Z -> Fs.block) (sec : Z) (x : Fs.block) (_ : contents N d m) (_ : 0 <= sec < N)
  (_ : True) : True := Logic.I.

(** The block layer of a transaction that starts from the contents [m]. *)
Definition tspec (m : Z -> Fs.block) : BlocksSpec (lst D) :=
  log_spec (fun _ => True) (fun _ _ _ => True) N start nlog Hregion (fun _ => True) any_HW m (fun _ _ => Logic.I).

(** The log between transactions, over a disk with the contents [m]. *)
Record quiescent (s : lst D) (m : Z -> Fs.block) : Prop := {
  qu_lok : lok (fun _ => True) N start nlog s ∅ m;
  qu_head : hdr_n (m start) = 0;
  qu_n : lh_n s = 0; qu_len : length (lh_sector s) = LOGSIZE; qu_busy : lg_busy s = 0 }.

Lemma begin_rep s m : quiescent s m ->
  exists s1, begin_trans s = Done tt s1 /\ @rep _ _ (tspec m) s1 m ∅ ∅.
Proof.
  intros [L Hh Hn Hl Hb]. exists (set_busy 1 s). split; [by eapply begin_spec|]. exists ∅, m, []. constructor.
  - by apply lok_busy.
  - constructor; try done. split; [constructor|]. split; [done|]. split; [cbn; lia|cbn; lia].
  - done.
  - done.
  - done.
  - done.
  - intros sec i x. rewrite lookup_empty. split; [done|]. by intros (p & Hp & _).
Qed.

(** A transaction with no buffer held commits what it sees. *)
Lemma commit_rep s m v w : @rep _ _ (tspec m) s v ∅ w -> (size w < Bio.NBUF)%nat ->
  exists s' m', commit_trans s = Done tt s' /\ quiescent s' m' /\ forall sec, 0 <= sec < start -> m' sec = v sec.
Proof.
  intros (P & m1 & T & Tr) Hw. pose proof (pins_size _ _ _ _ _ _ _ _ _ _ _ _ Tr) as Hs.
  assert (Hnb : forall k p, P !! k = Some p -> Bio.p_busy p = false).
  { intros [d sec] p Hp. pose proof (tr_dev _ _ _ _ _ _ _ _ _ _ _ _ Tr _ _ Hp) as Ed. cbn in Ed. subst d.
    by eapply trans_not_busy; [exact Tr|apply lookup_empty|]. }
  destruct Tr as [T1 T2 T3 T4 T5 T6 T7]. rewrite map_size_empty in Hs.
  destruct (commit_spec (fun _ => True) (fun _ _ _ => True) N start nlog Hregion (fun _ => True) any_HW s P m1 m T)
    as (s' & m' & E & L & [Hh Hm] & Hn & Hl & Hb); try done; [lia|].
  exists s', m'. split; [done|]. split; [by constructor|]. intros sec Hsec. rewrite Hm, (T6 sec Hsec) by done.
  unfold final. destruct (list_find _ T) as [[]|]; [done|]. symmetry. by apply T3.
Qed.

(** The block layer of any transaction, and the state between two of them: the
    same, but that the log is not in use. *)
Definition lspec : BlocksSpec (lst D).
Proof.
  refine {| bdev := dev; home := start; cap := log_cap nlog; nbufs := Bio.NBUF;
            rep := fun s v h w => exists m, @rep _ _ (tspec m) s v h w |}.
  - intros s v h w sec [m R]. by apply (@rep_len _ _ (tspec m) s v h w).
  - intros s v h w sec [m R] Hs Hn Hb. destruct (@bread_ok _ _ (tspec m) s v h w sec R Hs Hn Hb) as (i & s' & E & R'). eauto.
  - intros s v h w sec i x [m R]. by apply (@bdata_ok _ _ (tspec m) s v h w sec).
  - intros s v h w sec i x y [m R] Hx Hy. destruct (@bstore_ok _ _ (tspec m) s v h w sec i x y R Hx Hy) as (s' & E & R'). eauto.
  - intros s v h w sec i x [m R] Hx Hs Hc Hb.
    destruct (@blog_ok _ _ (tspec m) s v h w sec i x R Hx Hs Hc Hb) as (s' & E & R'). eauto.
  - intros s v h w sec i [m R] Hx Hs. destruct (@brelse_ok _ _ (tspec m) s v h w sec i R Hx Hs) as (s' & E & R'). eauto.
Defined.

Definition log_idle (s : lst D) (v : Z -> Fs.block) (h : gmap Z (nat * Fs.block)) : Prop :=
  lg_busy s = 0 /\ @rep _ _ lspec (set_busy 1 s) v h ∅.

(** A call of the cache neither sees nor changes whether the log is in use. *)
Lemma bio_busy {A} (f : M (Bio.bst D) A) s a s' : lg_busy s = 0 -> bio f (set_busy 1 s) = Done a s' ->
  bio f s = Done a (set_busy 0 s') /\ set_busy 1 (set_busy 0 s') = s'.
Proof.
  intros Hb. unfold bio, zoom. cbn [set_busy lbio]. destruct (f (lbio s)) as [x b| | | |]; try done. intros [= <- <-].
  split; [|done]. destruct s. cbn in *. by subst.
Qed.

Lemma quiescent_idle s m v : quiescent s m -> (forall sec, 0 <= sec < start -> m sec = v sec) -> log_idle s v ∅.
Proof.
  intros Q Hv. destruct (begin_rep s m Q) as (s1 & E1 & (P & m1 & T & [T1 T2 T3 T4 T5 T6 T7])).
  assert (s1 = set_busy 1 s) as ->.
  { destruct Q as [L _ _ _ Hb]. assert (E2 : begin_trans s = Done tt (set_busy 1 s)) by (by eapply begin_spec). congruence. }
  split; [apply Q|]. exists m, P, m1, T. constructor; try done. intros sec Hs. rewrite <- Hv by done. by apply T6.
Qed.

Definition log_trans_spec : @TransSpec (lst D) _ lspec _.
Proof.
  refine {| idle := log_idle |}.
  - intros s v h sec [_ R]. by apply (@rep_len _ _ lspec _ _ _ _ sec R).
  - intros s v h sec [Hb R] Hs Hn Hz.
    destruct (@bread_ok _ _ lspec _ _ _ _ sec R Hs Hn) as (i & s' & E & R'); [rewrite size_empty; lia|].
    destruct (bio_busy _ _ _ _ Hb E) as [E' Es]. exists i, (set_busy 0 s'). split; [exact E'|]. split; [done|by rewrite Es].
  - intros s v h sec i x [Hb R] Hx. pose proof (@bdata_ok _ _ lspec _ _ _ _ sec i x R Hx) as E.
    change (bind (bio (Bio.getb i)) (fun x => ret (Bio.b_data x)) (set_busy 1 s) = Done x (set_busy 1 s)) in E.
    apply bind_inv in E as (y & s1 & E1 & E2). injection E2 as <- ->. destruct (bio_busy _ _ _ _ Hb E1) as [E' _].
    change (bind (bio (Bio.getb i)) (fun x => ret (Bio.b_data x)) s = Done (Bio.b_data y) s).
    rewrite (bind_Done _ _ _ _ _ E'). unfold ret. f_equal. destruct s. cbn in *. by subst.
  - intros s v h sec i x y [Hb R] Hx Hy. destruct (@bstore_ok _ _ lspec _ _ _ _ sec i x y R Hx Hy) as (s' & E & R').
    destruct (bio_busy _ _ _ _ Hb E) as [E' Es]. exists (set_busy 0 s'). split; [exact E'|]. split; [done|by rewrite Es].
  - intros s v h sec i [Hb R] Hx Hs. destruct (@brelse_ok _ _ lspec _ _ _ _ sec i R Hx Hs) as (s' & E & R').
    destruct (bio_busy _ _ _ _ Hb E) as [E' Es]. exists (set_busy 0 s'). split; [exact E'|]. split; [done|by rewrite Es].
  - intros s v [Hb R]. exists (set_busy 1 s). split; [|exact R].
    destruct R as (m & P & m1 & T & Tr). pose proof (lok_lock _ _ _ _ _ _ _ (tr_lok _ _ _ _ _ _ _ _ _ _ _ _ Tr)) as Hk.
    cbn in Hk |- *. unfold begin_trans, bind, Spinlock.acquire, Spinlock.release, gets, modify.
    destruct s. cbn in *. by subst.
  - intros s v w [m R] Hw. destruct (commit_rep s m v w R Hw) as (s' & m' & E & Q & Hm).
    exists s'. split; [exact E|]. by eapply quiescent_idle.
Defined.

(** C11: Allocating a block as a whole transaction, from fs.c down to the disk.
    Between transactions, on any disk with a free block in front of the log,
    [begin_trans], [balloc] and [commit_trans] run to the end; the block returned
    is the first free one, and then, on disk, exactly that block more is in use,
    it is all zeros, and every other block of the file system is as before.  If
    no block at all is free, [balloc] panics. *)
Theorem balloc_transaction s m : quiescent s m -> 4 <= nlog -> @layout _ _ (tspec m) m ->
  ((exists c, 0 <= c < sb_size (sb m) /\ c < start /\ used m c = false) ->
   exists b s' m', (begin_trans ;! let! b := Fs.balloc dev in commit_trans ;! ret b) s = Done b s' /\
     0 <= b < start /\ used m b = false /\ (forall c, 0 <= c < b -> used m c = true) /\
     quiescent s' m' /\ contents N (Bio.dsk (lbio s')) m' /\ m' b = replicate 512 0 /\
     (forall c, 0 <= c < sb_size (sb m) -> used m' c = bool_decide (c = b) || used m c) /\
     (forall z, 0 <= z < start -> z <> b -> z <> map_block m b -> m' z = m z)) /\
  ((forall c, 0 <= c < sb_size (sb m) -> used m c = true) ->
   (begin_trans ;! let! b := Fs.balloc dev in commit_trans ;! ret b) s = Panic "balloc: out of blocks").
Proof.
  intros Q Hn L. destruct (begin_rep s m Q) as (s1 & E1 & R1).
  assert (Caps : (size (∅ : gset Z) + 1 < @cap _ _ (tspec m))%nat /\
    (size (∅ : gmap Z (nat * Fs.block)) + size (∅ : gset Z) + 2 < @nbufs _ _ (tspec m))%nat).
  { rewrite size_empty, map_size_empty. change (0 + 1 < log_cap nlog /\ 0 + 0 + 2 < Bio.NBUF)%nat.
    unfold log_cap, LOGSIZE, Bio.NBUF. lia. }
  pose proof (fun Sn => @balloc_spec _ _ (tspec m) s1 m ∅ ∅ L Sn R1 ltac:(by constructor) (room_log_two _ _ (proj1 Caps)) (proj2 Caps)) as Ba.
  pose proof (fun c Hc => @map_block_range _ _ (tspec m) m c L Hc) as Rm.
  change (@home _ _ (tspec m)) with start in *. split.
  - intros Free. destruct (Ba (or_introl Free)) as [(b & s2 & v & E2 & Hb & Hbs & U & F & R2 & Z & Us & O) | [_ All]].
    2:{ destruct Free as (c & Hc & _ & Uc). rewrite All in Uc by done. done. }
    destruct (commit_rep s2 m v _ R2) as (s3 & m' & E3 & Q' & Hm').
    { pose proof (size_add b ({[map_block m b]} ∪ ∅)). pose proof (size_add (map_block m b) ∅).
      rewrite size_empty in *. unfold Bio.NBUF. lia. }
    assert (Hv1 : m' 1 = v 1) by (apply Hm'; lia).
    exists b, s3, m'. rewrite (bind_Done _ _ _ _ _ E1), (bind_Done _ _ _ _ _ E2), (bind_Done _ _ _ _ _ E3).
    split; [done|]. split; [lia|]. split; [done|]. split; [done|]. split; [done|].
    split; [apply (lok_m _ _ _ _ _ _ _ (qu_lok _ _ Q'))|]. split; [by rewrite Hm' by lia|]. split.
    + intros c Hc. rewrite <- (Us c Hc).
      assert (Em : map_block v c = map_block m c /\ map_block m' c = map_block m c).
      { unfold map_block, sb. rewrite Hv1, (O 1); [done|..].
        - intros <-. rewrite (@ly_sb _ _ (tspec m) m L) in U; [done|lia].
        - destruct (Rm b Hb). lia. }
      unfold used. rewrite (proj1 Em), (proj2 Em), Hm'; [done|]. destruct (Rm c Hc). lia.
    + intros z Hz Hzb Hzm. rewrite Hm' by done. by apply O.
  - intros All. destruct (Ba (or_intror All)) as [(b & s2 & v & _ & Hb & _ & U & _) | [E2 _]].
    { rewrite All in U by done. done. }
    rewrite (bind_Done _ _ _ _ _ E1). by apply bind_Panic.
Qed.

End Transaction.

(** ** A disk as mkfs.c makes it *)

(** Twelve blocks, eight inodes, four log blocks at the end: block 4 is the
    bitmap, which marks blocks 0 to 4. *)
Definition fs_sb : Fs.block := le_enc 4 12 ++ le_enc 4 3 ++ le_enc 4 8 ++ le_enc 4 4 ++ replicate 496 0.
Definition fs_disk : Memide.memdisk :=
  Memide.ideinit (replicate 512 0 ++ fs_sb ++ replicate 1024 0 ++ (31 :: replicate 511 0) ++ replicate (7 * 512) 0).
Definition fs_m (sec : Z) : Fs.block := Bio.dread fs_disk dev sec.
Definition fs_idle : lst Memide.memdisk := set_region 8 4 dev (boot fs_disk).

Lemma fs_region : 2 <= 8 /\ 8 + 4 = 12 /\ 12 < 2 ^ 31 /\ 2 <= 4.
Proof. lia. Qed.

Lemma fs_quiescent : quiescent 12 8 4 fs_idle fs_m.
Proof.
  constructor; [|vm_compute; reflexivity|reflexivity|reflexivity|reflexivity].
  constructor; [apply (Bio.binit_spec fs_disk)|done| |reflexivity..].
  split; [|done]. intros sec Hs. split; [done|]. split; [exact Hs|]. split; vm_compute; discriminate.
Qed.

Lemma fs_sizes : sb_size (sb fs_m) = 12 /\ sb_ninodes (sb fs_m) = 8.
Proof. split; vm_compute; reflexivity. Qed.

Lemma fs_map b : 0 <= b < 12 -> map_block fs_m b = 4.
Proof.
  intros Hb. unfold map_block. rewrite (proj2 fs_sizes). unfold Fs.BBLOCK, Fs.BPB. by rewrite Z.div_small by lia.
Qed.

Lemma fs_used b : 0 <= b < 5 -> used fs_m b = true.
Proof.
  intros Hb. unfold used. rewrite fs_map by lia. unfold Fs.BPB. rewrite Z.mod_small by lia.
  assert (b = 0 \/ b = 1 \/ b = 2 \/ b = 3 \/ b = 4) as K by lia.
  by destruct K as [-> | [-> | [-> | [-> | ->]]]]; vm_compute.
Qed.

Lemma fs_layout : @layout _ _ (tspec 12 8 4 fs_region fs_m) fs_m.
Proof.
  destruct fs_sizes as [Es En]. constructor; change (@home _ _ (tspec 12 8 4 fs_region fs_m)) with 8; rewrite ?Es, ?En.
  - lia.
  - lia.
  - lia.
  - intros b Hb. unfold Fs.BPB. rewrite Z.div_small by lia. reflexivity.
  - intros _. by apply fs_used.
  - intros b Hb _. rewrite fs_map by done. by apply fs_used.
Qed.

Lemma balloc_transaction_witness : exists b s',
  (begin_trans ;! let! b := Fs.balloc dev in commit_trans ;! ret b) fs_idle = Done b s' /\ 5 <= b < 8.
Proof.
  destruct (balloc_transaction 12 8 4 fs_region fs_idle fs_m fs_quiescent ltac:(lia) fs_layout) as [F _].
  destruct F as (b & s' & m' & E & Hb & U & _).
  - exists 5. rewrite (proj1 fs_sizes). split; [lia|]. split; [lia|]. vm_compute. reflexivity.
  - exists b, s'. split; [exact E|]. split; [|lia]. destruct (decide (b < 5)); [|lia].
    rewrite fs_used in U by lia. discriminate U.
Defined.

End FsLog.
