(* ===== verification/FsFile.v ===== *)
(** * The contents of files (kernel/fs.c)

    [bmap], [readi] and [writei] against the bytes of a file.  A file is the
    inode with the blocks it owns; its contents are what those blocks hold, a
    block that has not been allocated counting as zeros.  Reading gives the bytes
    of the contents, writing replaces them, and no block of another file, no
    other inode and no part of the bitmap but the bits of the new blocks changes.
    The transaction fits the log. *)

From S2P Require Import Prelude Spinlock Bio Log Fs FsBlocks.

Module FsFile.
Import Fs FsBlocks.

Section File.
Context {B : Type} `{BlocksSpec B}.

(** ** The disk *)

(** The first block behind the bitmap, and the blocks of the bitmap. *)
Definition map_start (v : Z -> block) : Z := Log.sb_ninodes (sb v) / IPB + 3.
Definition dstart (v : Z -> block) : Z := (Log.sb_size (sb v) - 1) / BPB + map_start v + 1.
Definition maps (v : Z -> block) : gset Z := list_to_set (seqZ (map_start v) (dstart v - map_start v)).

Record fs_ok (v : Z -> block) : Prop := {
  fk_layout : layout v;
  fk_size : dstart v <= Log.sb_size (sb v);
  fk_home : dstart v <= home;
  fk_meta z : 0 <= z < dstart v -> used v z = true }.

(** There are [k] free blocks in front of the log. *)
Definition room (k : nat) (v : Z -> block) : Prop :=
  exists l, NoDup l /\ length l = k /\
    Forall (fun b => 0 <= b < Log.sb_size (sb v) /\ b < home /\ used v b = false) l.

Lemma room_le j k v : (j <= k)%nat -> room k v -> room j v.
Proof.
  intros Hj (l & Hn & <- & Hl). exists (take j l).
  split; [rewrite <- (take_drop j l) in Hn; by apply NoDup_app in Hn as [? _]|].
  split; [rewrite length_take; lia|by apply Forall_take].
Qed.

Lemma room_same v v' k : sb v' = sb v -> (forall c, 0 <= c < Log.sb_size (sb v) -> used v' c = used v c) -> room k v -> room k v'.
Proof.
  intros Es U (l & Nd & Hl & F). exists l. split; [done|]. split; [done|]. rewrite Es. eapply Forall_impl; [exact F|].
  intros b (Hb & Hh & Ub). cbn. by rewrite U.
Qed.

Lemma room_some k v : room (S k) v -> some_or_none v.
Proof.
  intros ([|b l] & _ & Hl & F); [done|]. apply Forall_cons in F as [(Hb & Hh & U) _]. left. by exists b.
Qed.

Lemma fk_facts v : fs_ok v -> 3 <= map_start v < dstart v /\ 1 < home < 2 ^ 31 /\ 0 <= Log.sb_size (sb v) < 2 ^ 31.
Proof.
  intros K. pose proof (ly_home _ (fk_layout _ K)). pose proof (ly_size _ (fk_layout _ K)).
  pose proof (ly_inodes _ (fk_layout _ K)). pose proof (fk_size _ K).
  assert (0 <= Log.sb_ninodes (sb v) / IPB) by (apply Z.div_pos; unfold IPB; lia).
  unfold dstart, map_start, BPB in *.
  assert (0 <= (Log.sb_size (sb v) - 1) / 4096 \/ Log.sb_size (sb v) - 1 < 0) as [?|?]
    by (destruct (decide (Log.sb_size (sb v) - 1 < 0)); [by right|left; apply Z.div_pos; lia]); [lia|].
  exfalso. replace (Log.sb_size (sb v)) with 0 in * by lia. change ((0 - 1) / 4096) with (-1) in *. lia.
Qed.

Lemma elem_of_maps v z : z ∈ maps v <-> map_start v <= z < dstart v.
Proof. unfold maps. rewrite elem_of_list_to_set, elem_of_seqZ. lia. Qed.

Lemma map_block_in v b : fs_ok v -> 0 <= b < Log.sb_size (sb v) -> map_block v b ∈ maps v.
Proof.
  intros K Hb. destruct (map_block_range v b (fk_layout _ K) Hb) as [E _]. apply elem_of_maps. rewrite E.
  assert (0 <= b / BPB) by (apply Z.div_pos; unfold BPB; lia).
  assert (b / BPB <= (Log.sb_size (sb v) - 1) / BPB) by (apply Z.div_le_mono; unfold BPB; lia).
  unfold dstart, map_start. lia.
Qed.

(** Nothing in front of the data changes but the bitmap. *)
Lemma same_front v v' : fs_ok v -> v' 1 = v 1 -> sb v' = sb v /\ map_start v' = map_start v /\
  dstart v' = dstart v /\ maps v' = maps v /\ forall b, map_block v' b = map_block v b.
Proof.
  intros K E. assert (Es : sb v' = sb v) by (unfold sb; by rewrite E).
  unfold maps, dstart, map_start, map_block. by rewrite Es.
Qed.

(** A bitmap that only grows keeps the disk well formed. *)
Lemma fs_ok_grow v v' : fs_ok v -> v' 1 = v 1 ->
  (forall c, 0 <= c < Log.sb_size (sb v) -> used v c = true -> used v' c = true) -> fs_ok v'.
Proof.
  intros K E U. destruct (same_front v v' K E) as (Es & _ & Ed & _ & Em). destruct (fk_facts _ K) as (F1 & F2 & F3).
  destruct K as [[L1 L2 L3 L4 L5 L6] K2 K3 K4]. constructor; [constructor|..]; rewrite ?Es, ?Ed; try done.
  - intros Hs. apply U; [lia|by apply L5].
  - intros b Hb. rewrite Em. intros Hs. destruct (map_block_range v b ltac:(by constructor) Hb) as [_ R].
    apply U; [lia|by apply L6].
  - intros z Hz. apply U; [lia|by apply K4].
Qed.

(** A store behind the bitmap. *)
Lemma used_far v z x c : fs_ok v -> dstart v <= z -> 0 <= c < Log.sb_size (sb v) ->
  used (vupd z x v) c = used v c.
Proof.
  intros K Hz Hc. destruct (fk_facts _ K) as (F1 & F2 & F3).
  destruct (same_front v (vupd z x v) K) as (_ & _ & _ & _ & Em); [apply vupd_ne; lia|].
  unfold used. rewrite Em. f_equal. apply vupd_ne. pose proof (map_block_in v c K Hc) as Hm.
  apply elem_of_maps in Hm. lia.
Qed.

Lemma fs_ok_far v z x : fs_ok v -> dstart v <= z -> fs_ok (vupd z x v).
Proof.
  intros K Hz. destruct (fk_facts _ K) as (F1 & F2 & F3). apply (fs_ok_grow v); [done|apply vupd_ne; lia|].
  intros c Hc Hu. by rewrite used_far.
Qed.

Lemma room_far v z x k : fs_ok v -> dstart v <= z -> room k v -> room k (vupd z x v).
Proof.
  intros K Hz (l & Hn & Hl & F). destruct (fk_facts _ K) as (F1 & F2 & F3).
  destruct (same_front v (vupd z x v) K) as (Es & _); [apply vupd_ne; lia|].
  exists l. split; [done|]. split; [done|]. rewrite Es. eapply Forall_impl; [exact F|].
  intros b (Hb & Hh & U). cbn. by rewrite used_far.
Qed.

(** The bitmap blocks leave room in the log for [k] more blocks. *)
Definition fits (v : Z -> block) (w : gset Z) (k : nat) : Prop := (size (maps v ∪ w) + k <= cap)%nat.

Lemma fits_room_log v w k : fs_ok v -> fits v w (S k) -> room_log v w.
Proof.
  intros K F b Hb. pose proof (map_block_in v b K Hb).
  assert (size ({[map_block v b]} ∪ w) <= size (maps v ∪ w))%nat by (apply subseteq_size; set_solver).
  unfold fits in F. lia.
Qed.

Lemma fits_size v w k : fits v w k -> (size w + k <= cap)%nat.
Proof. unfold fits. assert (size w <= size (maps v ∪ w))%nat by (apply subseteq_size; set_solver). lia. Qed.

(** The free blocks but one. *)
Lemma room_used v v' b k : sb v' = sb v -> room (S k) v ->
  (forall c, 0 <= c < Log.sb_size (sb v) -> used v' c = bool_decide (c = b) || used v c) -> room k v'.
Proof.
  intros Es (l & Hn & Hl & F) U.
  assert (K : exists l', NoDup l' /\ (k <= length l')%nat /\ b ∉ l' /\ l' ⊆ l).
  { destruct (decide (b ∈ l)) as [Hb|Hb].
    - apply list_elem_of_split in Hb as (l1 & l2 & ->). exists (l1 ++ l2).
      apply NoDup_app in Hn as (N1 & D & [N2 N3]%NoDup_cons).
      rewrite length_app in *. cbn in Hl. split; [|split; [lia|split; [|set_solver]]].
      + apply NoDup_app. split; [done|]. split; [set_solver|done].
      + rewrite elem_of_app. intros [Hb|Hb]; [|done]. apply (D b Hb). set_solver.
    - exists l. split; [done|]. split; [lia|]. done. }
  destruct K as (l' & N' & Hk & Hb & Sub). apply (room_le k (length l')); [done|].
  exists l'. split; [done|]. split; [done|]. apply Forall_forall. intros c Hc. rewrite Es.
  rewrite Forall_forall in F. destruct (F c (Sub c Hc)) as (Hc1 & Hc2 & Uc). split; [done|]. split; [done|].
  rewrite U, Uc, bool_decide_false by (done || congruence). done.
Qed.

Lemma balloc_room s v h w k : fs_ok v -> room (S k) v -> rep s v h w -> apart v h ->
  fits v w 1 -> (size h + size w + 2 < nbufs)%nat ->
  exists b s' v', balloc bdev s = Done b s' /\ dstart v <= b < Log.sb_size (sb v) /\ b < home /\
    used v b = false /\ rep s' v' h ({[b]} ∪ ({[map_block v b]} ∪ w)) /\ v' b = replicate 512 0 /\
    (forall c, 0 <= c < Log.sb_size (sb v) -> used v' c = bool_decide (c = b) || used v c) /\
    (forall z, z <> b -> z ∉ maps v -> v' z = v z) /\ fs_ok v' /\ room k v'.
Proof.
  intros K Rm R A Hf Hb.
  destruct (balloc_spec s v h w (fk_layout _ K) (room_some _ _ Rm) R A (fits_room_log _ _ _ K Hf) Hb)
    as [(b & s' & v' & E & Hbs & Hbh & U & _ & R' & Z0 & Us & O) | [_ All]].
  2:{ destruct Rm as ([|c l] & _ & Hl & F); [done|]. apply Forall_cons in F as [(Hc & _ & U) _].
      rewrite All in U by done. done. }
  destruct (fk_facts _ K) as (F1 & F2 & F3).
  assert (Hd : dstart v <= b).
  { destruct (decide (b < dstart v)); [|lia]. rewrite (fk_meta _ K) in U by lia. done. }
  assert (O' : forall z, z <> b -> z ∉ maps v -> v' z = v z).
  { intros z Hz Hm. apply O; [done|]. intros ->. by apply Hm, map_block_in. }
  assert (E1 : v' 1 = v 1) by (apply O'; [lia|rewrite elem_of_maps; lia]).
  exists b, s', v'. repeat (split; [done || lia|]). split.
  - apply (fs_ok_grow v); [done|done|]. intros c Hc Uc. rewrite Us, Uc by done. apply orb_true_r.
  - apply (room_used v v' b k); [unfold sb; by rewrite E1|done|done].
Qed.

(** ** Files *)

(** The number of block [n] of a file, 0 if it has none. *)
Definition ind (i : inode) : Z := i_addrs i !!! NDIRECT.
Definition baddr (v : Z -> block) (i : inode) (n : Z) : Z :=
  if n <? Z.of_nat NDIRECT then i_addrs i !!! Z.to_nat n
  else if ind i =? 0 then 0 else get32 (v (ind i)) (Z.to_nat (4 * (n - Z.of_nat NDIRECT))).

Definition fblock (v : Z -> block) (i : inode) (n : Z) : block :=
  if baddr v i n =? 0 then replicate 512 0 else v (baddr v i n).
Definition fbyte (v : Z -> block) (i : inode) (k : Z) : Z :=
  fblock v i (k / BSIZE) !!! Z.to_nat (k mod BSIZE).

(** The [n] bytes at [off], and all bytes of a file. *)
Definition bytes (v : Z -> block) (i : inode) (off n : Z) : list Z := fbyte v i <$> seqZ off n.
Definition content (v : Z -> block) (i : inode) : list Z := bytes v i 0 (i_size i).

(** The blocks of a file, with the block of addresses. *)
Definition owns (v : Z -> block) (i : inode) (z : Z) : Prop :=
  z <> 0 /\ (z = ind i \/ exists n, 0 <= n < MAXFILE /\ baddr v i n = z).

Record file_ok (v : Z -> block) (i : inode) : Prop := {
  fo_dev : i_dev i = bdev;
  fo_len : length (i_addrs i) = S NDIRECT;
  fo_data z : owns v i z -> dstart v <= z < Log.sb_size (sb v) /\ z < home /\ used v z = true;
  fo_inj n m : 0 <= n < MAXFILE -> 0 <= m < MAXFILE -> baddr v i n = baddr v i m -> baddr v i n <> 0 -> n = m;
  fo_ind n : 0 <= n < MAXFILE -> baddr v i n = ind i -> ind i = 0 }.

(** What an operation on file [i] leaves alone: the front of the disk but the
    bitmap, and the blocks in use that are not the file's.  Blocks it takes were
    free, and belong to the file. *)
Record evolves (v : Z -> block) (i : inode) (v' : Z -> block) (i' : inode) : Prop := {
  ev_front z : 0 <= z < dstart v -> z ∉ maps v -> v' z = v z;
  ev_frame z : dstart v <= z < Log.sb_size (sb v) -> used v z = true -> ~ owns v i z -> v' z = v z;
  ev_used c : 0 <= c < Log.sb_size (sb v) -> used v c = true -> used v' c = true;
  ev_new c : 0 <= c < Log.sb_size (sb v) -> used v' c = true -> used v c = true \/ owns v' i' c;
  ev_own z : owns v i z -> owns v' i' z;
  ev_keep n : 0 <= n < MAXFILE -> baddr v i n <> 0 -> baddr v' i' n = baddr v i n;
  ev_from z : owns v' i' z -> owns v i z \/ (dstart v <= z < Log.sb_size (sb v) /\ used v z = false) }.

Lemma evolves_refl v i : evolves v i v i.
Proof. constructor; auto. Qed.

Lemma evolves_sb v i v' i' : fs_ok v -> evolves v i v' i' -> v' 1 = v 1.
Proof.
  intros K E. destruct (fk_facts _ K) as (F1 & F2 & F3). apply (ev_front _ _ _ _ E); [lia|].
  rewrite elem_of_maps. lia.
Qed.

Lemma evolves_trans v i v' i' v'' i'' : fs_ok v -> evolves v i v' i' -> evolves v' i' v'' i'' -> evolves v i v'' i''.
Proof.
  intros K E E'. destruct (same_front v v' K (evolves_sb _ _ _ _ K E)) as (Es & _ & Ed & Em & _).
  destruct (fk_facts _ K) as (F1 & F2 & F3). pose proof (fk_size _ K).
  destruct E as [A1 A2 A3 A4 A5 A7 A6], E' as [B1 B2 B3 B4 B5 B7 B6]. rewrite Es, Ed, Em in *. constructor.
  - intros z Hz Hm. rewrite B1, A1 by done. done.
  - intros z Hz Hu Ho. rewrite B2; [by apply A2|done|by apply A3; [lia|]|].
    intros [?|[_ Hf]]%A6; [done|congruence].
  - auto.
  - intros c Hc Hu. destruct (B4 c Hc Hu) as [Hu'|?]; [|by right]. destruct (A4 c Hc Hu') as [?|Ho]; [by left|].
    right. by apply B5.
  - auto.
  - intros n Hn Hz. rewrite B7, A7 by (done || rewrite A7; done). done.
  - intros z [Hz|[Hz Hu]]%B6; [by apply A6|]. right. split; [done|]. destruct (used v z) eqn:Eu; [|done].
    rewrite (A3 z) in Hu by (done || lia). done.
Qed.

(** A free block [b] becomes block [p] of the file, or its block of addresses. *)
Record takes (v : Z -> block) (i : inode) (b : Z) (p : option Z) (v' : Z -> block) (i' : inode) : Prop := {
  tk_free : dstart v <= b < Log.sb_size (sb v) /\ b < home /\ used v b = false;
  tk_dev : i_dev i' = i_dev i;
  tk_len : length (i_addrs i') = S NDIRECT;
  tk_pos n : p = Some n -> 0 <= n < MAXFILE /\ baddr v i n = 0;
  tk_addr n : 0 <= n < MAXFILE -> baddr v' i' n = if decide (p = Some n) then b else baddr v i n;
  tk_ind : ind i' = if decide (p = None) then b else ind i;
  tk_none : p = None -> ind i = 0;
  tk_zero : v' b = replicate 512 0;
  tk_used c : 0 <= c < Log.sb_size (sb v) -> used v' c = bool_decide (c = b) || used v c;
  tk_frame z : z <> b -> z ∉ maps v -> (z = ind i -> ind i = 0) -> v' z = v z }.

Lemma takes_owns v i b p v' i' z : fs_ok v -> file_ok v i -> takes v i b p v' i' ->
  (owns v' i' z <-> owns v i z \/ z = b).
Proof.
  intros K F T. destruct T as [(Tb & Th & Tu) _ _ Tp Ta Ti Tn _ _ _]. destruct (fk_facts _ K) as (F1 & _ & _). split.
  - intros [Hz [-> | (n & Hn & <-)]].
    + rewrite Ti in *. destruct (decide (p = None)); [by right|]. left. split; [done|by left].
    + rewrite Ta in * by done. destruct (decide (p = Some n)); [by right|]. left. split; [done|]. right. by exists n.
  - intros [[Hz [-> | (n & Hn & <-)]] | ->].
    + split; [done|]. left. rewrite Ti. destruct (decide (p = None)); [|done]. by destruct Hz, Tn.
    + split; [done|]. right. exists n. split; [done|]. rewrite Ta by done.
      destruct (decide (p = Some n)) as [E|]; [|done]. by destruct Hz, (Tp n E).
    + split; [lia|]. destruct p as [n|].
      * right. destruct (Tp n eq_refl) as [Hn _]. exists n. split; [done|]. rewrite Ta by done. by rewrite decide_True.
      * left. rewrite Ti. by rewrite decide_True.
Qed.

Lemma owned_block v i z : fs_ok v -> file_ok v i -> owns v i z -> z ∉ maps v /\ 0 <= z < Log.sb_size (sb v) /\ used v z = true.
Proof.
  intros K F O. destruct (fo_data _ _ F z O) as (Hz & _ & Hu). destruct (fk_facts _ K) as (F1 & _ & _).
  split; [rewrite elem_of_maps; lia|]. split; [lia|done].
Qed.

Lemma baddr_owned v i n : 0 <= n < MAXFILE -> baddr v i n <> 0 -> owns v i (baddr v i n).
Proof. intros. split; [done|]. right. by exists n. Qed.

Lemma takes_fblock v i b p v' i' n : fs_ok v -> file_ok v i -> takes v i b p v' i' -> 0 <= n < MAXFILE ->
  fblock v' i' n = fblock v i n.
Proof.
  intros K F T Hn. destruct (fk_facts _ K) as (F1 & _ & _). pose proof (tk_free _ _ _ _ _ _ T) as (Tb & _ & Tu).
  unfold fblock. rewrite (tk_addr _ _ _ _ _ _ T n Hn). case_decide as E.
  - destruct (tk_pos _ _ _ _ _ _ T n E) as [_ ->]. rewrite (proj2 (Z.eqb_neq _ _)) by lia.
    cbn [Z.eqb]. apply (tk_zero _ _ _ _ _ _ T).
  - destruct (Z.eqb_spec (baddr v i n) 0) as [|Hz]; [done|].
    destruct (owned_block v i _ K F (baddr_owned v i n Hn Hz)) as (Hm & Hr & Hu).
    apply (tk_frame _ _ _ _ _ _ T); [congruence|done|]. intros Hi. by apply (fo_ind _ _ F n Hn).
Qed.

Lemma takes_file v i b p v' i' : fs_ok v -> file_ok v i -> takes v i b p v' i' -> v' 1 = v 1 -> file_ok v' i'.
Proof.
  intros K F T E1. destruct (same_front v v' K E1) as (Es & _ & Ed & _ & _).
  pose proof (tk_free _ _ _ _ _ _ T) as (Tb & Th & Tu). destruct (fk_facts _ K) as (F1 & _ & _).
  assert (Nb : forall n, 0 <= n < MAXFILE -> baddr v i n <> b).
  { intros n Hn <-. destruct (owned_block v i _ K F (baddr_owned v i n Hn ltac:(lia))) as (_ & _ & Hu). congruence. }
  constructor.
  - rewrite (tk_dev _ _ _ _ _ _ T). apply F.
  - apply T.
  - intros z O. rewrite Es, Ed. apply (takes_owns _ _ _ _ _ _ z K F T) in O as [O| ->].
    + destruct (fo_data _ _ F z O) as (Hz & Hh & Hu). split; [done|]. split; [done|].
      rewrite (tk_used _ _ _ _ _ _ T), Hu by lia. apply orb_true_r.
    + split; [done|]. split; [done|]. rewrite (tk_used _ _ _ _ _ _ T) by lia. by rewrite bool_decide_true.
  - intros n m Hn Hm. rewrite !(tk_addr _ _ _ _ _ _ T) by done. case_decide as D1; case_decide as D2; intros E Hz.
    + congruence.
    + by destruct (Nb m Hm).
    + by destruct (Nb n Hn).
    + by apply (fo_inj _ _ F).
  - intros n Hn. rewrite (tk_addr _ _ _ _ _ _ T), (tk_ind _ _ _ _ _ _ T) by done.
    case_decide as D1; case_decide as D2; intros E.
    + congruence.
    + destruct (decide (b = 0)); [lia|]. assert (O : owns v i b) by (split; [done|left; done]).
      destruct (owned_block v i _ K F O) as (_ & _ & Hu). congruence.
    + by destruct (Nb n Hn).
    + by apply (fo_ind _ _ F n Hn).
Qed.

Lemma takes_evolves v i b p v' i' : fs_ok v -> file_ok v i -> takes v i b p v' i' -> evolves v i v' i'.
Proof.
  intros K F T. pose proof (tk_free _ _ _ _ _ _ T) as (Tb & Th & Tu). destruct (fk_facts _ K) as (F1 & _ & _).
  pose proof (fun z => takes_owns _ _ _ _ _ _ z K F T) as O. constructor.
  - intros z Hz Hm. apply (tk_frame _ _ _ _ _ _ T); [lia|done|]. intros ->.
    destruct (decide (ind i = 0)); [done|]. exfalso.
    assert (Ow : owns v i (ind i)) by (split; [done|by left]). destruct (fo_data _ _ F _ Ow). lia.
  - intros z Hz Hu Ho. apply (tk_frame _ _ _ _ _ _ T); [congruence|rewrite elem_of_maps; lia|].
    intros ->. destruct (decide (ind i = 0)); [done|]. destruct Ho. split; [done|by left].
  - intros c Hc Hu. rewrite (tk_used _ _ _ _ _ _ T), Hu by done. apply orb_true_r.
  - intros c Hc. rewrite (tk_used _ _ _ _ _ _ T) by done. case_bool_decide as E; [|by left].
    intros _. right. apply O. by right.
  - intros z Hz. apply O. by left.
  - intros n Hn Hz. rewrite (tk_addr _ _ _ _ _ _ T) by done. destruct (decide (p = Some n)) as [E|]; [|done].
    by destruct Hz, (tk_pos _ _ _ _ _ _ T n E).
  - intros z [Hz| ->]%O; [by left|]. right. by split.
Qed.

(** ** Block numbers *)

(** The state with inode [i] in entry [ip] and blocks [b]. *)
Definition put (ip : nat) (i : inode) (b : B) (s : fsys B) : fsys B :=
  Fsys b (ic_lock s) (<[ip := i]> (icache s)).

Lemma put_self ip i b s : icache s !! ip = Some i -> put ip i b s = set_blk b s.
Proof. intros Hi. unfold put, set_blk. by rewrite list_insert_id. Qed.
Lemma put_put ip i j a b s : put ip i a (put ip j b s) = put ip i a s.
Proof. unfold put. cbn. by rewrite list_insert_insert_eq. Qed.
Lemma set_blk_put ip i a b s : set_blk a (put ip i b s) = put ip i a s.
Proof. done. Qed.
Lemma geti_put ip i b s : is_Some (icache s !! ip) -> geti ip (put ip i b s) = Done i (put ip i b s).
Proof.
  intros [j Hj]. unfold geti, put. cbn. rewrite list_lookup_insert_eq; [done|]. by eapply lookup_lt_Some.
Qed.
Lemma lookup_put ip i b s : is_Some (icache s !! ip) -> icache (put ip i b s) !! ip = Some i.
Proof. intros [j Hj]. cbn. apply list_lookup_insert_eq. by eapply lookup_lt_Some. Qed.

Lemma upd_inode_put ip i b s f : is_Some (icache s !! ip) ->
  upd_inode ip f (put ip i b s) = Done tt (put ip (f i) b s).
Proof.
  intros Hi. unfold upd_inode, modify, put. cbn. do 2 f_equal. unfold set_icache. cbn. f_equal.
  apply list_eq. intros j. destruct (decide (ip = j)) as [<-|Ne].
  - destruct Hi as [k Hk]. pose proof (lookup_lt_Some _ _ _ Hk). rewrite list_lookup_alter_eq, !list_lookup_insert_eq by done. done.
  - by rewrite list_lookup_alter_ne, !list_lookup_insert_ne by done.
Qed.

Lemma get_addr_ok (s : fsys B) ip i k : icache s !! ip = Some i -> length (i_addrs i) = S NDIRECT -> (k <= NDIRECT)%nat ->
  get_addr ip k s = Done (i_addrs i !!! k) s.
Proof.
  intros Hi Hl Hk. unfold get_addr, bind, geti. rewrite Hi.
  destruct (lookup_lt_is_Some_2 (i_addrs i) k ltac:(lia)) as [a Ha].
  by rewrite Ha, (list_lookup_total_correct _ _ _ Ha).
Qed.

Lemma addr_have (s : fsys B) ip i k : icache s !! ip = Some i -> length (i_addrs i) = S NDIRECT -> (k <= NDIRECT)%nat ->
  i_addrs i !!! k <> 0 -> addr_or_alloc ip k s = Done (i_addrs i !!! k) s.
Proof.
  intros Hi Hl Hk Ha. unfold addr_or_alloc. rewrite (bind_Done _ _ _ _ _ (get_addr_ok s ip i k Hi Hl Hk)).
  by rewrite (proj2 (Z.eqb_neq _ _)).
Qed.

(** Block [b] of a fresh view put into [ip->addrs]. *)
Lemma takes_addr v i k b v' : fs_ok v -> file_ok v i -> (k <= NDIRECT)%nat -> i_addrs i !!! k = 0 ->
  dstart v <= b < Log.sb_size (sb v) -> b < home -> used v b = false -> v' b = replicate 512 0 ->
  (forall c, 0 <= c < Log.sb_size (sb v) -> used v' c = bool_decide (c = b) || used v c) ->
  (forall z, z <> b -> z ∉ maps v -> v' z = v z) ->
  takes v i b (if decide (k = NDIRECT) then None else Some (Z.of_nat k)) v' (set_addrs (<[k := b]> (i_addrs i)) i).
Proof.
  intros K F Hk Ha Hb Hh Hu Hz Us O. pose proof (fo_len _ _ F) as Hl. unfold NDIRECT, MAXFILE in *.
  destruct (fk_facts _ K) as (F1 & _ & _). constructor; try done.
  - cbn. by rewrite length_insert.
  - intros n. case_decide; [done|]. intros [= <-]. unfold MAXFILE. split; [lia|]. unfold baddr, NDIRECT.
    rewrite (proj2 (Z.ltb_lt _ _)) by lia. by rewrite Nat2Z.id.
  - intros n Hn. unfold baddr, ind, NDIRECT. cbn [i_addrs set_addrs].
    destruct (Z.ltb_spec n (Z.of_nat 12)) as [Hn'|Hn'].
    + destruct (decide (k = 12%nat)) as [->|Nk].
      * rewrite list_lookup_total_insert_ne by lia. by rewrite decide_False.
      * destruct (decide (k = Z.to_nat n)) as [->|].
        -- rewrite list_lookup_total_insert_eq by lia. rewrite decide_True; [done|]. f_equal. lia.
        -- rewrite list_lookup_total_insert_ne by done. rewrite decide_False; [done|]. intros [= <-]. lia.
    + destruct (decide (k = 12%nat)) as [->|Nk].
      * rewrite list_lookup_total_insert_eq by lia. rewrite (proj2 (Z.eqb_neq b 0)) by lia. rewrite Ha, Hz. cbn [Z.eqb].
        rewrite decide_False by done. unfold get32, peek. rewrite drop_replicate, take_replicate.
        generalize (Nat.min 4 (512 - Z.to_nat (4 * (n - Z.of_nat 12)))). intros q. induction q; cbn; lia.
      * rewrite list_lookup_total_insert_ne by lia. rewrite decide_False by (intros [= <-]; lia).
        destruct (Z.eqb_spec (i_addrs i !!! 12%nat) 0) as [|Hi]; [done|]. f_equal. apply O.
        -- intros E. assert (Ow : owns v i (i_addrs i !!! 12%nat)) by (split; [done|by left]).
           destruct (owned_block v i _ K F Ow) as (_ & _ & ?). congruence.
        -- apply (owned_block v i _ K F). split; [done|by left].
  - unfold ind, NDIRECT. cbn. destruct (decide (k = 12%nat)) as [->|].
    + by rewrite list_lookup_total_insert_eq by lia.
    + by rewrite list_lookup_total_insert_ne by lia.
  - case_decide; [|done]. intros _. unfold ind, NDIRECT. by subst k.
  - intros z Hz1 Hz2 _. by apply O.
Qed.

Lemma apart_empty v : apart v ∅.
Proof. by constructor. Qed.

Lemma addr_new s v w ip i k r : rep (blk s) v ∅ w -> icache s !! ip = Some i -> fs_ok v -> file_ok v i ->
  (k <= NDIRECT)%nat -> i_addrs i !!! k = 0 -> room (S r) v -> fits v w 1 -> (size w + 2 < nbufs)%nat ->
  exists b bs v', let i' := set_addrs (<[k := b]> (i_addrs i)) i in
    addr_or_alloc ip k s = Done b (put ip i' bs s) /\
    rep bs v' ∅ ({[b]} ∪ ({[map_block v b]} ∪ w)) /\ v' 1 = v 1 /\ fs_ok v' /\ room r v' /\
    takes v i b (if decide (k = NDIRECT) then None else Some (Z.of_nat k)) v' i'.
Proof.
  intros R Hi K F Hk Ha Rm Hf Hw.
  destruct (balloc_room (blk s) v ∅ w r K Rm R (apart_empty v) Hf) as (b & bs & v' & E & Hb & Hh & Hu & R' & Z0 & Us & O & K' & Rm');
    [by rewrite map_size_empty|].
  exists b, bs, v'. destruct (fk_facts _ K) as (F1 & _ & _). split.
  - unfold addr_or_alloc. rewrite (bind_Done _ _ _ _ _ (get_addr_ok s ip i k Hi (fo_len _ _ F) Hk)), Ha. cbn [Z.eqb].
    unfold bind at 1, geti. rewrite Hi, (fo_dev _ _ F).
    rewrite (bind_Done _ _ _ _ _ (on_blk_Done _ s _ _ E)), <- (put_self ip i bs s Hi).
    unfold bind, set_addr. rewrite upd_inode_put by done. done.
  - split; [done|]. split; [apply O; [lia|rewrite elem_of_maps; lia]|]. split; [done|]. split; [done|].
    by apply takes_addr.
Qed.

(** The block of addresses, while it is to be allocated and when it is there. *)
Definition need (i : inode) : nat := if decide (ind i = 0) then 1 else 0.
Definition indset (i : inode) : gset Z := if decide (ind i = 0) then ∅ else {[ind i]}.

(** The blocks logged, when the bitmap and the block of addresses are counted. *)
Definition cost (v : Z -> block) (i : inode) (w : gset Z) : nat := size (maps v ∪ indset i ∪ w) + need i.

Lemma cost_size v i w : (size w + need i <= cost v i w)%nat.
Proof. unfold cost. assert (size w <= size (maps v ∪ indset i ∪ w))%nat by (apply subseteq_size; set_solver). lia. Qed.

Lemma cost_fits v i w k : (cost v i w + k <= cap)%nat -> fits v w k.
Proof.
  unfold cost, fits. assert (size (maps v ∪ w) <= size (maps v ∪ indset i ∪ w))%nat by (apply subseteq_size; set_solver).
  lia.
Qed.

(** Block [n] of file [i] is block [a] now, and nothing has changed in the file. *)
Record mapped (v : Z -> block) (i : inode) (w : gset Z) (n a : Z) (r : nat)
    (v' : Z -> block) (i' : inode) (w' : gset Z) : Prop := {
  mp_ev : evolves v i v' i';
  mp_fs : fs_ok v';
  mp_file : file_ok v' i';
  mp_block m : 0 <= m < MAXFILE -> fblock v' i' m = fblock v i m;
  mp_addr : baddr v' i' n = a;
  mp_nz : a <> 0;
  mp_i : i' = set_addrs (i_addrs i') i;
  mp_ind : ind i <> 0 -> ind i' = ind i;
  mp_same : baddr v i n <> 0 -> i' = i;
  mp_room : room (need i' + r) v';
  mp_w : w' ⊆ {[a]} ∪ (maps v ∪ indset i' ∪ w) }.

Lemma size_le_1 (a : Z) (X Y : gset Z) : X ⊆ {[a]} ∪ Y -> (size X <= size Y + 1)%nat.
Proof. intros Hs. etransitivity; [by apply subseteq_size|]. apply size_add. Qed.

Lemma mapped_cost v i w n a r v' i' w' : fs_ok v -> mapped v i w n a r v' i' w' -> (cost v' i' w' <= cost v i w + 1)%nat.
Proof.
  intros K M. destruct (same_front v v' K (evolves_sb _ _ _ _ K (mp_ev _ _ _ _ _ _ _ _ _ M))) as (_ & _ & _ & Em & _).
  unfold cost. rewrite Em. pose proof (mp_w _ _ _ _ _ _ _ _ _ M) as Hw.
  assert (size (maps v ∪ indset i' ∪ w') <= size (maps v ∪ indset i' ∪ w) + 1)%nat
    by (apply (size_le_1 a); set_solver).
  destruct (decide (ind i = 0)) as [E|E].
  - assert (need i = 1%nat) by (unfold need; by rewrite decide_True).
    assert (size (maps v ∪ indset i' ∪ w) + need i' <= size (maps v ∪ indset i ∪ w) + 1)%nat; [|lia].
    unfold need, indset. rewrite (decide_True _ _ E). case_decide; [lia|].
    assert (size (maps v ∪ {[ind i']} ∪ w) <= size (maps v ∪ ∅ ∪ w) + 1)%nat by (apply (size_le_1 (ind i')); clear; set_solver).
    lia.
  - pose proof (mp_ind _ _ _ _ _ _ _ _ _ M E) as E'. unfold need, indset in *. rewrite E' in *. lia.
Qed.

(** A block that was there already. *)
Lemma mapped_have v i w n a r : fs_ok v -> file_ok v i -> baddr v i n = a -> a <> 0 -> room (1 + need i + r) v ->
  mapped v i w n a r v i w.
Proof.
  intros K F Ha Hz Rm. constructor; try done; [apply evolves_refl|by destruct i|apply (room_le _ (1 + need i + r)); [lia|done]|set_solver].
Qed.

(** A block taken for position [n]. *)
Lemma mapped_takes v i w n a r v' i' w' : fs_ok v -> file_ok v i -> takes v i a (Some n) v' i' -> v' 1 = v 1 ->
  i' = set_addrs (i_addrs i') i -> fs_ok v' -> room (need i + r) v' ->
  w' ⊆ {[a]} ∪ (maps v ∪ indset i' ∪ w) -> mapped v i w n a r v' i' w'.
Proof.
  intros K F T E1 Ei K' Rm Hw. pose proof (tk_pos _ _ _ _ _ _ T n eq_refl) as [Hn _].
  pose proof (tk_ind _ _ _ _ _ _ T) as Ei'. rewrite decide_False in Ei' by done. constructor; try done.
  - exact (takes_evolves _ _ _ _ _ _ K F T).
  - exact (takes_file _ _ _ _ _ _ K F T E1).
  - intros m Hm. exact (takes_fblock _ _ _ _ _ _ m K F T Hm).
  - rewrite (tk_addr _ _ _ _ _ _ T) by done. by rewrite decide_True.
  - pose proof (tk_free _ _ _ _ _ _ T). destruct (fk_facts _ K). lia.
  - intros Hz. by destruct Hz, (tk_pos _ _ _ _ _ _ T n eq_refl).
  - unfold need in *. by rewrite Ei'.
Qed.

Lemma map_block_sub v b : fs_ok v -> 0 <= b < Log.sb_size (sb v) -> {[map_block v b]} ⊆ maps v.
Proof. intros K Hb. apply singleton_subseteq_l. by apply map_block_in. Qed.

Lemma logged_sub (a m : Z) (X I w : gset Z) : {[m]} ⊆ X -> {[a]} ∪ ({[m]} ∪ w) ⊆ {[a]} ∪ (X ∪ I ∪ w).
Proof. set_solver. Qed.

Lemma bmap_direct s v w ip i n r : rep (blk s) v ∅ w -> icache s !! ip = Some i -> fs_ok v -> file_ok v i ->
  0 <= n < Z.of_nat NDIRECT -> room (1 + need i + r) v -> (cost v i w + 1 < cap)%nat -> (cost v i w + 3 < nbufs)%nat ->
  exists a bs v' i' w', bmap ip n s = Done a (put ip i' bs s) /\ rep bs v' ∅ w' /\ mapped v i w n a r v' i' w'.
Proof.
  intros R Hi K F Hn Rm Hc Hb. unfold bmap. rewrite (proj2 (Z.ltb_lt _ _)) by lia.
  assert (Hk : (Z.to_nat n <= NDIRECT)%nat) by lia.
  assert (Ba : baddr v i n = i_addrs i !!! Z.to_nat n) by (unfold baddr; by rewrite (proj2 (Z.ltb_lt _ _)) by lia).
  destruct (decide (i_addrs i !!! Z.to_nat n = 0)) as [Ha|Ha].
  - pose proof (cost_size v i w).
    destruct (addr_new s v w ip i (Z.to_nat n) (need i + r) R Hi K F Hk Ha) as (b & bs & v' & E & R' & E1 & K' & Rm' & T);
      [done|apply (cost_fits v i); lia|lia|].
    rewrite decide_False, Z2Nat.id in T by lia. eexists b, bs, v', _, _. split; [exact E|]. split; [exact R'|].
    apply mapped_takes; try done. pose proof (tk_free _ _ _ _ _ _ T) as (Tb & _). destruct (fk_facts _ K).
    apply logged_sub, map_block_sub; [done|lia].
  - exists (i_addrs i !!! Z.to_nat n), (blk s), v, i, w.
    rewrite put_self, (addr_have s ip i _ Hi (fo_len _ _ F) Hk Ha) by done. split; [by destruct s|]. split; [done|].
    by apply mapped_have.
Qed.

Lemma add_sub (d a : Z) (X Y : gset Z) : X ⊆ {[a]} ∪ Y -> d ∈ Y -> {[d]} ∪ X ⊆ {[a]} ∪ Y.
Proof. intros Hx Hd. apply union_subseteq. split; [|done]. apply singleton_subseteq_l, elem_of_union. by right. Qed.

Lemma in_indset v i w : ind i <> 0 -> ind i ∈ maps v ∪ indset i ∪ w.
Proof. intros. unfold indset. rewrite decide_False by done. rewrite !elem_of_union, elem_of_singleton. by left; right. Qed.

Lemma ind_owned v i : ind i <> 0 -> owns v i (ind i).
Proof. intros. split; [done|by left]. Qed.

(** Block [b] of a fresh view put into the block of addresses. *)
Lemma takes_entry v i n b v' : fs_ok v -> file_ok v i -> ind i <> 0 -> Z.of_nat NDIRECT <= n < MAXFILE ->
  length (v (ind i)) = 512%nat -> baddr v i n = 0 ->
  dstart v <= b < Log.sb_size (sb v) -> b < home -> used v b = false -> v' b = replicate 512 0 ->
  (forall c, 0 <= c < Log.sb_size (sb v) -> used v' c = bool_decide (c = b) || used v c) ->
  (forall z, z <> b -> z ∉ maps v -> v' z = v z) -> fs_ok v' ->
  takes v i b (Some n) (vupd (ind i) (put32 (Z.to_nat (4 * (n - Z.of_nat NDIRECT))) b (v (ind i))) v') i.
Proof.
  intros K F Hi Hn Hl Ha Hb Hh Hu Hz Us O K'. unfold NDIRECT, MAXFILE in *. destruct (fk_facts _ K) as (F1 & F2 & F3).
  destruct (owned_block v i _ K F (ind_owned v i Hi)) as (Dm & Dr & Du). destruct (fo_data _ _ F _ (ind_owned v i Hi)) as (Dd & _).
  assert (Nb : ind i <> b) by congruence.
  destruct (same_front v v' K) as (Es & _ & Ed & _ & _); [apply O; [lia|rewrite elem_of_maps; lia]|].
  constructor; try done.
  - apply F.
  - intros m [= <-]. unfold MAXFILE. split; [lia|done].
  - intros m Hm. unfold baddr. destruct (Z.ltb_spec m (Z.of_nat NDIRECT)) as [Hm'|Hm'].
    + rewrite decide_False; [done|]. intros [= <-]. unfold NDIRECT in Hm'. lia.
    + rewrite (proj2 (Z.eqb_neq _ _) Hi), vupd_eq. unfold NDIRECT in *.
      destruct (decide (Some n = Some m)) as [[= <-]|Ne].
      * rewrite get_put32 by lia. apply u32_small. lia.
      * rewrite get_put32_ne; [done|lia|]. assert (n <> m) by congruence. lia.
  - by rewrite vupd_ne by congruence.
  - intros c Hc. rewrite used_far; [by apply Us|done|rewrite Ed; lia|by rewrite Es].
  - intros z Hz1 Hz2 Hz3. destruct (decide (z = ind i)) as [E|]; [by destruct Hi, Hz3|]. rewrite vupd_ne by done. by apply O.
Qed.

(** The block of addresses held while a block is allocated. *)
Lemma apart_ind v i k : fs_ok v -> file_ok v i -> ind i <> 0 -> apart v {[ind i := (k, v (ind i))]}.
Proof.
  intros K F Hi. destruct (owned_block v i _ K F (ind_owned v i Hi)) as (Dm & Dr & Du).
  destruct (fo_data _ _ F _ (ind_owned v i Hi)) as (Dd & _). destruct (fk_facts _ K) as (F1 & F2 & F3). constructor.
  - apply lookup_singleton_ne. lia.
  - intros b Hb. apply lookup_singleton_ne. intros E. apply Dm. rewrite E. by apply map_block_in.
  - intros b Hb Hu. apply lookup_singleton_ne. congruence.
Qed.

(** The rest of [bmap] once the block of addresses is there. *)
Definition bmap_entry (ip : nat) (bn addr : Z) : M (fsys B) Z :=
  let! i := geti ip in
  let! bp := on_blk (bread (i_dev i) addr) in
  let! x := on_blk (bdata bp) in
  let addr := get32 x (Z.to_nat (4 * bn)) in
  if addr =? 0 then
    let! addr := on_blk (balloc (i_dev i)) in
    let! x := on_blk (bdata bp) in
    on_blk (bstore bp (put32 (Z.to_nat (4 * bn)) addr x)) ;!
    on_blk (blog bp) ;!
    on_blk (brelse bp) ;!
    ret addr
  else on_blk (brelse bp) ;! ret addr.

Lemma bmap_entry_ok s v w ip i n r : rep (blk s) v ∅ w -> icache s !! ip = Some i -> fs_ok v -> file_ok v i ->
  ind i <> 0 -> Z.of_nat NDIRECT <= n < MAXFILE -> room (1 + r) v ->
  (cost v i w + 1 < cap)%nat -> (cost v i w + 3 < nbufs)%nat ->
  exists a bs v' w', bmap_entry ip (n - Z.of_nat NDIRECT) (ind i) s = Done a (put ip i bs s) /\ rep bs v' ∅ w' /\
    mapped v i w n a r v' i w'.
Proof.
  intros R Hi K F Hd Hn Rm Hc Hb. pose proof (cost_size v i w) as Hw.
  assert (Hneed : need i = 0%nat) by (unfold need; by rewrite decide_False).
  destruct (fo_data _ _ F _ (ind_owned v i Hd)) as (Dd & Dh & _). destruct (fk_facts _ K) as (F1 & F2 & F3).
  assert (Dr : 0 <= ind i < home) by lia. pose proof (rep_len _ _ _ _ _ R Dr) as Hl.
  destruct (hold _ _ _ _ (ind i) R Dr) as (k & b1 & E1 & E2 & R1); [done|rewrite map_size_empty; lia|].
  assert (Ba : baddr v i n = get32 (v (ind i)) (Z.to_nat (4 * (n - Z.of_nat NDIRECT)))).
  { unfold baddr. rewrite (proj2 (Z.ltb_ge _ _)) by lia. by rewrite (proj2 (Z.eqb_neq _ _)). }
  assert (Un : bmap_entry ip (n - Z.of_nat NDIRECT) (ind i) s =
    (if baddr v i n =? 0 then
      let! addr := on_blk (balloc bdev) in
      let! x := on_blk (bdata k) in
      on_blk (bstore k (put32 (Z.to_nat (4 * (n - Z.of_nat NDIRECT))) addr x)) ;!
      on_blk (blog k) ;! on_blk (brelse k) ;! ret addr
     else on_blk (brelse k) ;! ret (baddr v i n)) (set_blk b1 s)).
  { unfold bmap_entry. unfold bind at 1, geti. rewrite Hi, (fo_dev _ _ F).
    rewrite (bind_Done _ _ _ _ _ (on_blk_Done _ s _ _ E1)), (bind_Done _ _ _ _ _ (on_blk_Done _ (set_blk b1 s) _ _ E2)).
    by rewrite Ba. }
  rewrite Un. clear Un. destruct (Z.eqb_spec (baddr v i n) 0) as [Ha|Ha].
  - rewrite insert_empty in R1.
    destruct (balloc_room b1 v _ w r K Rm R1 (apart_ind v i k K F Hd)) as (b & b2 & v' & E3 & Hb' & Hh & Hu & R2 & Z0 & Us & O & K' & Rm');
      [apply (cost_fits v i); lia|rewrite map_size_singleton; lia|].
    assert (Hind : v' (ind i) = v (ind i)).
    { destruct (owned_block v i _ K F (ind_owned v i Hd)) as (Dm & _ & Du). apply O; [congruence|done]. }
    rewrite <- insert_empty in R2.
    assert (E4 : bdata k b2 = Done (v (ind i)) b2) by (eapply bdata_ok; [exact R2|apply lookup_insert_eq]).
    assert (Sw : {[b]} ∪ ({[map_block v b]} ∪ w) ⊆ {[b]} ∪ (maps v ∪ indset i ∪ w)).
    { apply logged_sub, map_block_sub; [done|lia]. }
    pose proof (size_le_1 _ _ _ Sw) as Sz. unfold cost in Hc, Hb.
    destruct (put_back_steps _ _ _ _ _ _ _ (put32 (Z.to_nat (4 * (n - Z.of_nat NDIRECT))) b (v (ind i))) R2)
      as (b3 & b4 & b5 & E5 & E6 & E7 & R3); [done|done|rewrite length_put32; unfold NDIRECT, MAXFILE in *; lia|lia|rewrite map_size_empty; lia|].
    exists b, b5, (vupd (ind i) (put32 (Z.to_nat (4 * (n - Z.of_nat NDIRECT))) b (v (ind i))) v'), ({[ind i]} ∪ ({[b]} ∪ ({[map_block v b]} ∪ w))).
    split.
    { rewrite put_self by done.
      rewrite (bind_Done _ _ _ _ _ (on_blk_Done _ (set_blk b1 s) _ _ E3)), (bind_Done _ _ _ _ _ (on_blk_Done _ (set_blk b2 s) _ _ E4)).
      rewrite (bind_Done _ _ _ _ _ (on_blk_Done _ (set_blk b2 s) _ _ E5)), (bind_Done _ _ _ _ _ (on_blk_Done _ (set_blk b3 s) _ _ E6)).
      by rewrite (bind_Done _ _ _ _ _ (on_blk_Done _ (set_blk b4 s) _ _ E7)). }
    split; [exact R3|]. destruct (same_front v v' K) as (_ & _ & Ed & _ & _); [apply O; [lia|rewrite elem_of_maps; lia]|].
    apply mapped_takes; try done.
    + by apply takes_entry.
    + rewrite vupd_ne by lia. apply O; [lia|rewrite elem_of_maps; lia].
    + by destruct i.
    + apply fs_ok_far; [done|lia].
    + rewrite Hneed. apply room_far; [done|lia|done].
    + apply add_sub; [exact Sw|by apply in_indset].
  - destruct (let_go _ _ _ _ _ _ R1 (lookup_empty _) Dr) as (b2 & E3 & R2).
    exists (baddr v i n), b2, v, w. split; [|split; [done|apply mapped_have; try done; by rewrite Hneed]].
    rewrite put_self by done. by rewrite (bind_Done _ _ _ _ _ (on_blk_Done _ (set_blk b1 s) _ _ E3)).
Qed.

(** The first step for a block behind the direct ones. *)
Lemma ind_ready s v w ip i r : rep (blk s) v ∅ w -> icache s !! ip = Some i -> fs_ok v -> file_ok v i ->
  room (need i + r) v -> (cost v i w + 1 < cap)%nat -> (cost v i w + 3 < nbufs)%nat ->
  exists bs v' i' w', addr_or_alloc ip NDIRECT s = Done (ind i') (put ip i' bs s) /\ rep bs v' ∅ w' /\
    evolves v i v' i' /\ fs_ok v' /\ file_ok v' i' /\ (forall m, 0 <= m < MAXFILE -> fblock v' i' m = fblock v i m) /\
    i' = set_addrs (i_addrs i') i /\ ind i' <> 0 /\ (ind i <> 0 -> i' = i) /\ room r v' /\
    w' ⊆ maps v ∪ indset i' ∪ w /\ (cost v' i' w' <= cost v i w)%nat.
Proof.
  intros R Hi K F Rm Hc Hb. destruct (decide (ind i = 0)) as [Ha|Ha].
  - assert (Hneed : need i = 1%nat) by (unfold need; by rewrite decide_True). rewrite Hneed in Rm.
    pose proof (cost_size v i w).
    destruct (addr_new s v w ip i NDIRECT r R Hi K F ltac:(lia) Ha Rm) as (b & bs & v' & E & R' & E1 & K' & Rm' & T);
      [apply (cost_fits v i); lia|lia|]. rewrite decide_True in T by done.
    set (i' := set_addrs (<[NDIRECT := b]> (i_addrs i)) i) in *.
    pose proof (tk_ind _ _ _ _ _ _ T) as Ei. rewrite decide_True in Ei by done.
    pose proof (tk_free _ _ _ _ _ _ T) as (Tb & _ & _). destruct (fk_facts _ K) as (F1 & _).
    assert (Ei0 : ind i' <> 0) by lia.
    assert (Sw : {[b]} ∪ ({[map_block v b]} ∪ w) ⊆ maps v ∪ indset i' ∪ w).
    { apply union_subseteq. split; [apply singleton_subseteq_l; rewrite <- Ei; by apply in_indset|].
      apply union_subseteq. split; [|clear; set_solver]. etransitivity; [apply map_block_sub; [done|lia]|clear; set_solver]. }
    destruct (same_front v v' K E1) as (_ & _ & _ & Em & _).
    eexists bs, v', i', _. rewrite Ei. split; [exact E|]. split; [exact R'|].
    split; [exact (takes_evolves _ _ _ _ _ _ K F T)|]. split; [done|]. split; [exact (takes_file _ _ _ _ _ _ K F T E1)|].
    split; [intros m Hm; exact (takes_fblock _ _ _ _ _ _ m K F T Hm)|]. split; [done|]. split; [by rewrite <- Ei|].
    split; [done|]. split; [done|]. split; [done|]. unfold cost. rewrite Em, Hneed. unfold need. rewrite decide_False by done.
    assert (Is : indset i' = {[b]}) by (unfold indset; rewrite decide_False, Ei by done; done).
    assert (S1 : maps v ∪ indset i' ∪ ({[b]} ∪ ({[map_block v b]} ∪ w)) ⊆ {[b]} ∪ (maps v ∪ indset i ∪ w)).
    { etransitivity; [apply union_least; [apply union_subseteq_l|exact Sw]|]. rewrite Is. clear. set_solver. }
    pose proof (size_le_1 _ _ _ S1). lia.
  - assert (Hneed : need i = 0%nat) by (unfold need; by rewrite decide_False). rewrite Hneed in Rm.
    exists (blk s), v, i, w. unfold ind in *. rewrite put_self, (addr_have s ip i _ Hi (fo_len _ _ F)) by done.
    split; [by destruct s|]. split; [done|]. split; [apply evolves_refl|]. do 2 (split; [done|]). split; [done|].
    split; [by destruct i|]. do 3 (split; [done|]). split; [clear; set_solver|lia].
Qed.

(** [bmap] gives block [n] of the file a number, taking at most two free blocks,
    and changes nothing else. *)
Lemma bmap_ok s v w ip i n r : rep (blk s) v ∅ w -> icache s !! ip = Some i -> fs_ok v -> file_ok v i ->
  0 <= n < MAXFILE -> room (1 + need i + r) v -> (cost v i w + 1 < cap)%nat -> (cost v i w + 3 < nbufs)%nat ->
  exists a bs v' i' w', bmap ip n s = Done a (put ip i' bs s) /\ rep bs v' ∅ w' /\ mapped v i w n a r v' i' w'.
Proof.
  intros R Hi K F Hn Rm Hc Hb. destruct (Z.ltb_spec n (Z.of_nat NDIRECT)) as [Hd|Hd]; [by apply bmap_direct; try lia|].
  destruct (ind_ready s v w ip i (1 + r) R Hi K F) as (b1 & v1 & i1 & w1 & E1 & R1 & Ev & K1 & F1 & Fb & Ei & Nz & Ii & Rm1 & Sw & Cw);
    [apply (room_le _ (1 + need i + r)); [lia|done]|done|done|].
  destruct (bmap_entry_ok (put ip i1 b1 s) v1 w1 ip i1 n r R1 (lookup_put ip i1 b1 s (mk_is_Some _ _ Hi)) K1 F1 Nz)
    as (a & b2 & v2 & w2 & E2 & R2 & M); [lia|done|lia|lia|].
  rewrite put_put in E2. exists a, b2, v2, i1, w2. split.
  - unfold bmap. rewrite (proj2 (Z.ltb_ge _ _)) by done. unfold MAXFILE, NDIRECT, NINDIRECT in *.
    rewrite (proj2 (Z.ltb_lt _ _)) by lia. rewrite (bind_Done _ _ _ _ _ E1). exact E2.
  - split; [done|]. destruct M as [M1 M2 M3 M4 M5 M6 M7 M8 M9' M9 M10]. constructor; try done.
    + exact (evolves_trans _ _ _ _ _ _ K Ev M1).
    + intros m Hm. rewrite M4, Fb by done. done.
    + intros Hz. by rewrite (Ii Hz).
    + intros Hz. apply Ii. intros E0. apply Hz. unfold baddr. rewrite (proj2 (Z.ltb_ge _ _)) by done. by rewrite E0.
    + destruct (same_front v v1 K (evolves_sb _ _ _ _ K Ev)) as (_ & _ & _ & Em & _). rewrite Em in M10.
      etransitivity; [exact M10|]. apply union_mono_l, union_least; [apply union_subseteq_l|exact Sw].
Qed.

(** A block that is there is found without any change. *)
Lemma bmap_read s v w ip i n : rep (blk s) v ∅ w -> icache s !! ip = Some i -> fs_ok v -> file_ok v i ->
  0 <= n < MAXFILE -> baddr v i n <> 0 -> (size w < nbufs)%nat ->
  exists bs, bmap ip n s = Done (baddr v i n) (set_blk bs s) /\ rep bs v ∅ w.
Proof.
  intros R Hi K F Hn Ha Hb. unfold bmap. destruct (Z.ltb_spec n (Z.of_nat NDIRECT)) as [Hd|Hd].
  - assert (Ba : baddr v i n = i_addrs i !!! Z.to_nat n) by (unfold baddr; by rewrite (proj2 (Z.ltb_lt _ _)) by lia).
    rewrite Ba in *. exists (blk s). rewrite (addr_have s ip i _ Hi (fo_len _ _ F)) by (done || lia).
    split; [by destruct s|done].
  - assert (Hi0 : ind i <> 0).
    { intros E. apply Ha. unfold baddr. rewrite (proj2 (Z.ltb_ge _ _)) by done. by rewrite E. }
    assert (Ba : baddr v i n = get32 (v (ind i)) (Z.to_nat (4 * (n - Z.of_nat NDIRECT)))).
    { unfold baddr. rewrite (proj2 (Z.ltb_ge _ _)) by lia. by rewrite (proj2 (Z.eqb_neq _ _)). }
    destruct (fo_data _ _ F _ (ind_owned v i Hi0)) as (Dd & Dh & _). destruct (fk_facts _ K) as (F1 & F2 & F3).
    assert (Dr : 0 <= ind i < home) by lia.
    destruct (hold _ _ _ _ (ind i) R Dr) as (k & b1 & E1 & E2 & R1); [done|rewrite map_size_empty; lia|].
    destruct (let_go _ _ _ _ _ _ R1 (lookup_empty _) Dr) as (b2 & E3 & R2). exists b2. split; [|done].
    unfold MAXFILE, NDIRECT, NINDIRECT in *. rewrite (proj2 (Z.ltb_lt _ _)) by lia.
    rewrite (bind_Done _ _ _ _ _ (addr_have s ip i 12 Hi (fo_len _ _ F) (le_n _) Hi0)).
    unfold bind at 1, geti. rewrite Hi, (fo_dev _ _ F).
    rewrite (bind_Done _ _ _ _ _ (on_blk_Done _ s _ _ E1)), (bind_Done _ _ _ _ _ (on_blk_Done _ (set_blk b1 s) _ _ E2)).
    cbv zeta. unfold NDIRECT. rewrite <- Ba, (proj2 (Z.eqb_neq _ _) Ha).
    by rewrite (bind_Done _ _ _ _ _ (on_blk_Done _ (set_blk b1 s) _ _ E3)).
Qed.

(** ** Reading *)

(** Blocks [off / BSIZE] to [(off + n - 1) / BSIZE] are there. *)
Definition backed (v : Z -> block) (i : inode) (off n : Z) : Prop :=
  forall k, off <= k < off + n -> baddr v i (k / BSIZE) <> 0.

(** The part of a transfer that lies in one block. *)
Definition chunk (off n : Z) : Z := Z.min n (BSIZE - off mod BSIZE).

Lemma chunk_facts off n : 0 <= off -> 0 < n ->
  0 < chunk off n <= n /\ off mod BSIZE + chunk off n <= BSIZE /\ 0 <= off mod BSIZE /\
  forall k, off <= k < off + chunk off n -> k / BSIZE = off / BSIZE /\ k mod BSIZE = off mod BSIZE + (k - off).
Proof.
  unfold chunk, BSIZE. intros Ho Hn. pose proof (Z.mod_pos_bound off 512 ltac:(lia)). split; [lia|]. split; [lia|].
  split; [lia|]. intros k Hk. pose proof (Z.div_mod off 512 ltac:(lia)).
  assert (E : k = 512 * (off / 512) + (off mod 512 + (k - off))) by lia.
  split; symmetry; [refine (Z.div_unique_pos _ _ _ _ _ E)|refine (Z.mod_unique_pos _ _ _ _ _ E)]; lia.
Qed.

Lemma fblock_len s v h w i n : rep s v h w -> fs_ok v -> file_ok v i -> 0 <= n < MAXFILE -> length (fblock v i n) = 512%nat.
Proof.
  intros R K F Hn. unfold fblock. destruct (Z.eqb_spec (baddr v i n) 0) as [|Hz]; [apply length_replicate|].
  destruct (fo_data _ _ F _ (baddr_owned v i n Hn Hz)) as (Hd & Hh & _). destruct (fk_facts _ K).
  eapply rep_len; [exact R|lia].
Qed.

Lemma peek_bytes v i off m : 0 <= off -> 0 < m <= BSIZE - off mod BSIZE -> length (fblock v i (off / BSIZE)) = 512%nat ->
  peek (Z.to_nat (off mod BSIZE)) (Z.to_nat m) (fblock v i (off / BSIZE)) = bytes v i off m.
Proof.
  intros Ho Hm Hl. destruct (chunk_facts off m Ho ltac:(lia)) as (C1 & C2 & C3 & C4). replace (chunk off m) with m in * by (unfold chunk; lia).
  apply list_eq. intros j. unfold bytes, peek. rewrite list_lookup_fmap. destruct (decide (j < Z.to_nat m)%nat) as [Hj|Hj].
  - rewrite lookup_take_lt, lookup_drop by done. rewrite (lookup_seqZ_lt off m j) by lia. cbn.
    destruct (C4 (off + Z.of_nat j) ltac:(lia)) as [E1 E2]. unfold fbyte. rewrite E1, E2.
    destruct (lookup_lt_is_Some_2 (fblock v i (off / BSIZE)) (Z.to_nat (off mod BSIZE) + j)) as [x Hx]; [unfold BSIZE in *; lia|].
    rewrite Hx. f_equal. symmetry. apply list_lookup_total_correct. rewrite <- Hx. f_equal. lia.
  - rewrite lookup_take_ge by lia. rewrite (proj2 (lookup_ge_None _ _)); [done|]. rewrite length_seqZ. lia.
Qed.

Lemma readi_loop_ok fuel s v w ip i off n tot acc : rep (blk s) v ∅ w -> icache s !! ip = Some i -> fs_ok v -> file_ok v i ->
  0 <= off -> off + (n - tot) <= MAXFILE * BSIZE -> 0 <= n - tot <= Z.of_nat fuel -> backed v i off (n - tot) ->
  (size w < nbufs)%nat ->
  exists bs, readi_loop fuel ip off n tot acc s = Done (acc ++ bytes v i off (n - tot)) (set_blk bs s) /\ rep bs v ∅ w.
Proof.
  intros R Hi K F. revert s R Hi off tot acc. induction fuel as [|fuel IH]; intros s R Hi off tot acc Ho Hm Hf Hbk Hb.
  - cbn [readi_loop]. rewrite (proj2 (Z.ltb_ge _ _)) by lia. exists (blk s). split; [|done].
    replace (n - tot) with 0 by lia. unfold bytes. cbn. rewrite app_nil_r. by destruct s.
  - cbn [readi_loop]. destruct (Z.ltb_spec tot n) as [Hlt|Hge].
    2:{ exists (blk s). split; [|done]. replace (n - tot) with 0 by lia. unfold bytes. cbn. rewrite app_nil_r. by destruct s. }
    destruct (chunk_facts off (n - tot) Ho ltac:(lia)) as (C1 & C2 & C3 & C4).
    fold (chunk off (n - tot)). set (m := chunk off (n - tot)) in *.
    assert (Hn : 0 <= off / BSIZE < MAXFILE).
    { unfold MAXFILE, BSIZE in *. split; [apply Z.div_pos; lia|apply Z.div_lt_upper_bound; lia]. }
    assert (Ha : baddr v i (off / BSIZE) <> 0) by (apply Hbk; lia).
    destruct (bmap_read s v w ip i (off / BSIZE) R Hi K F Hn Ha Hb) as (b1 & E1 & R1).
    destruct (fo_data _ _ F _ (baddr_owned v i _ Hn Ha)) as (Dd & Dh & _). destruct (fk_facts _ K) as (F1 & F2 & F3).
    assert (Dr : 0 <= baddr v i (off / BSIZE) < home) by lia.
    destruct (hold _ _ _ _ _ R1 Dr) as (k & b2 & E2 & E3 & R2); [done|rewrite map_size_empty; lia|].
    destruct (let_go _ _ _ _ _ _ R2 (lookup_empty _) Dr) as (b3 & E4 & R3).
    destruct (IH (set_blk b3 s) R3 Hi (off + m) (tot + m) (acc ++ peek (Z.to_nat (off mod BSIZE)) (Z.to_nat m) (v (baddr v i (off / BSIZE)))))
      as (b4 & E5 & R4); [lia|lia|lia|intros j Hj; apply Hbk; lia|done|].
    exists b4. split; [|done]. rewrite (bind_Done _ _ _ _ _ E1). unfold bind at 1, geti. cbn [icache set_blk].
    rewrite Hi, (fo_dev _ _ F). rewrite (bind_Done _ _ _ _ _ (on_blk_Done _ (set_blk b1 s) _ _ E2)).
    fold (chunk off (n - tot)). fold m. rewrite (bind_Done _ _ _ _ _ (on_blk_Done _ (set_blk b2 s) _ _ E3)).
    rewrite (bind_Done _ _ _ _ _ (on_blk_Done _ (set_blk b2 s) _ _ E4)). etransitivity; [exact E5|]. f_equal.
    rewrite <- app_assoc. f_equal. replace (n - tot) with (m + (n - (tot + m))) by lia. unfold bytes at 2.
    rewrite seqZ_app by lia. rewrite fmap_app. f_equal.
    assert (Fb : v (baddr v i (off / BSIZE)) = fblock v i (off / BSIZE)) by (unfold fblock; by rewrite (proj2 (Z.eqb_neq _ _) Ha)).
    rewrite Fb. apply peek_bytes; [done|lia|]. by eapply fblock_len.
Qed.

Lemma readi_ok `{!Devices} s v w ip i off n : rep (blk s) v ∅ w -> icache s !! ip = Some i -> fs_ok v -> file_ok v i ->
  i_type i <> T_DEV -> i_size i <= MAXFILE * BSIZE -> 0 <= off <= i_size i -> 0 <= n -> off + n < 2 ^ 32 ->
  backed v i off (Z.min n (i_size i - off)) -> (size w < nbufs)%nat ->
  exists bs, readi ip off n s =
      Done (Z.min n (i_size i - off), bytes v i off (Z.min n (i_size i - off))) (set_blk bs s) /\ rep bs v ∅ w.
Proof.
  intros R Hi K F Ht Hs Ho Hn H32 Hbk Hb. unfold readi. unfold bind at 1, geti. rewrite Hi, (proj2 (Z.eqb_neq _ _) Ht).
  rewrite u32_small by lia. replace (off >? i_size i) with false by lia. replace (off + n <? off) with false by lia. cbn [orb].
  set (q := if off + n >? i_size i then i_size i - off else n).
  assert (Eq : q = Z.min n (i_size i - off)).
  { unfold q. destruct (Z.gtb_spec (off + n) (i_size i)); lia. }
  clearbody q. rewrite <- Eq in *. unfold MAXFILE, BSIZE in Hs.
  destruct (readi_loop_ok (Z.to_nat q) s v w ip i off q 0 [] R Hi K F) as (bs & E & R');
    [lia|unfold MAXFILE, BSIZE; lia|lia|by rewrite Z.sub_0_r|done|].
  rewrite Z.sub_0_r in E. cbn [app] in E.
  exists bs. split; [|done]. rewrite (bind_Done _ _ _ _ _ E). unfold ret. by rewrite s32_small by lia.
Qed.

(** ** Writing *)

(** A store into block [n] of the file. *)
Lemma store_file v i n x : fs_ok v -> file_ok v i -> 0 <= n < MAXFILE -> baddr v i n <> 0 ->
  let v' := vupd (baddr v i n) x v in
  (forall m, 0 <= m < MAXFILE -> baddr v' i m = baddr v i m) /\ fs_ok v' /\ file_ok v' i /\ evolves v i v' i /\
  (forall m, 0 <= m < MAXFILE -> fblock v' i m = if decide (m = n) then x else fblock v i m).
Proof.
  intros K F Hn Ha v'. destruct (fo_data _ _ F _ (baddr_owned v i n Hn Ha)) as (Hd & Hh & Hu).
  destruct (fk_facts _ K) as (F1 & F2 & F3).
  assert (Ba : forall m, 0 <= m < MAXFILE -> baddr v' i m = baddr v i m).
  { intros m Hm. unfold baddr. destruct (m <? Z.of_nat NDIRECT); [done|]. destruct (Z.eqb_spec (ind i) 0) as [|Hi]; [done|].
    unfold v'. rewrite vupd_ne; [done|]. intros E. by apply Hi, (fo_ind _ _ F n Hn). }
  assert (Ow : forall z, owns v' i z <-> owns v i z).
  { intros z. unfold owns. split; (intros [Hz [Hi | (m & Hm & E)]]; split; [done|by left|done|]); right; exists m;
      rewrite Ba in * by done; done. }
  destruct (same_front v v' K) as (Es & _ & Ed & _ & _); [apply vupd_ne; lia|].
  split; [done|]. split; [apply fs_ok_far; [done|lia]|]. split; [|split].
  - constructor; [apply F|apply F|..].
    + intros z Hz%Ow. rewrite Es, Ed. destruct (fo_data _ _ F z Hz) as (? & ? & ?). split; [done|]. split; [done|].
      unfold v'. rewrite used_far by (done || lia). done.
    + intros m m' Hm Hm'. rewrite !Ba by done. by apply F.
    + intros m Hm. rewrite Ba by done. by apply (fo_ind _ _ F).
  - constructor.
    + intros z Hz Hm. apply vupd_ne. lia.
    + intros z Hz Hzu Hzo. apply vupd_ne. intros ->. by apply Hzo, baddr_owned.
    + intros c Hc Hcu. unfold v'. rewrite used_far by (done || lia). done.
    + intros c Hc. unfold v'. rewrite used_far by (done || lia). by left.
    + intros z Hz. by apply Ow.
    + intros m Hm _. by apply Ba.
    + intros z Hz%Ow. by left.
  - intros m Hm. unfold fblock. rewrite Ba by done. case_decide as E.
    + subst m. rewrite (proj2 (Z.eqb_neq _ _) Ha). apply vupd_eq.
    + destruct (Z.eqb_spec (baddr v i m) 0) as [|Hz]; [done|]. apply vupd_ne. intros E'. by apply E, (fo_inj _ _ F).
Qed.

Lemma lookup_total_poke p x m k : (p + length x <= length m)%nat ->
  poke p x m !!! k = if decide (p <= k < p + length x)%nat then x !!! (k - p)%nat else m !!! k.
Proof.
  intros Hl. rewrite !list_lookup_total_alt. unfold poke. case_decide as E.
  - rewrite lookup_app_r by (rewrite length_take; lia). rewrite length_take, Nat.min_l by lia.
    rewrite lookup_app_l by lia. done.
  - destruct (decide (k < p)%nat).
    + rewrite lookup_app_l by (rewrite length_take; lia). by rewrite lookup_take_lt by lia.
    + rewrite lookup_app_r by (rewrite length_take; lia). rewrite length_take, Nat.min_l by lia.
      rewrite lookup_app_r by lia. rewrite lookup_drop. do 2 f_equal. lia.
Qed.

(** The bytes of the file after a store of a chunk. *)
Lemma store_bytes v i off n src x k : 0 <= off -> 0 < n -> (Z.to_nat (chunk off n) <= length src)%nat ->
  x = fblock v i (off / BSIZE) -> length x = 512%nat ->
  (if decide (k / BSIZE = off / BSIZE) then poke (Z.to_nat (off mod BSIZE)) (take (Z.to_nat (chunk off n)) src) x
   else fblock v i (k / BSIZE)) !!! Z.to_nat (k mod BSIZE) =
  if decide (off <= k < off + chunk off n) then src !!! Z.to_nat (k - off) else fbyte v i k.
Proof.
  intros Ho Hn Hl -> Hx. destruct (chunk_facts off n Ho Hn) as (C1 & C2 & C3 & C4). set (m := chunk off n) in *.
  assert (Hk : 0 <= k mod BSIZE < 512) by (unfold BSIZE; apply Z.mod_pos_bound; lia).
  assert (Lt : length (take (Z.to_nat m) src) = Z.to_nat m) by (rewrite length_take; lia).
  destruct (decide (off <= k < off + m)) as [Hin|Hout].
  - destruct (C4 k Hin) as [E1 E2]. rewrite decide_True by done. unfold BSIZE in *.
    rewrite lookup_total_poke by lia. rewrite decide_True by lia. rewrite !list_lookup_total_alt, lookup_take_lt by lia.
    do 2 f_equal. lia.
  - destruct (decide (k / BSIZE = off / BSIZE)) as [E|E]; [|done]. unfold BSIZE in *.
    rewrite lookup_total_poke by lia. rewrite decide_False; [by unfold fbyte, BSIZE; rewrite E|].
    rewrite Lt. pose proof (Z.div_mod k 512 ltac:(lia)). pose proof (Z.div_mod off 512 ltac:(lia)). lia.
Qed.

(** The number of blocks a transfer touches. *)
Definition nblk (off n : Z) : nat := Z.to_nat (if n <=? 0 then 0 else (off + n - 1) / BSIZE - off / BSIZE + 1).

Lemma nblk_step off n : 0 <= off -> 0 < n -> nblk off n = S (nblk (off + chunk off n) (n - chunk off n)).
Proof.
  intros Ho Hn. destruct (chunk_facts off n Ho Hn) as (C1 & C2 & C3 & C4). unfold nblk.
  rewrite (proj2 (Z.leb_gt n 0)) by lia.
  assert (Hd : 0 <= off / BSIZE) by (apply Z.div_pos; unfold BSIZE; lia).
  destruct (decide (chunk off n = n)) as [E|E].
  - rewrite E. replace (n - n) with 0 by lia. cbn. destruct (C4 (off + n - 1) ltac:(lia)) as [-> _]. lia.
  - rewrite (proj2 (Z.leb_gt (n - chunk off n) 0)) by lia.
    assert (Em : off + chunk off n = BSIZE * (off / BSIZE + 1)).
    { unfold chunk, BSIZE in *. pose proof (Z.div_mod off 512 ltac:(lia)). lia. }
    replace (off + chunk off n + (n - chunk off n) - 1) with (off + n - 1) by lia.
    rewrite Em at 1. rewrite (Z.mul_comm BSIZE), Z.div_mul by (unfold BSIZE; lia).
    assert (off / BSIZE + 1 <= (off + n - 1) / BSIZE) by (apply Z.div_le_lower_bound; unfold BSIZE in *; lia). lia.
Qed.

(** The file after [src] was stored at [off]. *)
Record written (v : Z -> block) (i : inode) (w : gset Z) (off : Z) (src : list Z) (r : nat)
    (v' : Z -> block) (i' : inode) (w' : gset Z) : Prop := {
  wr_ev : evolves v i v' i';
  wr_fs : fs_ok v';
  wr_file : file_ok v' i';
  wr_i : i' = set_addrs (i_addrs i') i;
  wr_same : backed v i off (Z.of_nat (length src)) -> i' = i;
  wr_byte k : 0 <= k < MAXFILE * BSIZE -> fbyte v' i' k =
    if decide (off <= k < off + Z.of_nat (length src)) then src !!! Z.to_nat (k - off) else fbyte v i k;
  wr_backed : backed v' i' off (Z.of_nat (length src));
  wr_room : room (need i' + r) v';
  wr_cost : (cost v' i' w' <= cost v i w + nblk off (Z.of_nat (length src)))%nat }.

Lemma written_nil v i w off r : fs_ok v -> file_ok v i -> room (need i + r) v -> written v i w off [] r v i w.
Proof.
  intros K F Rm. constructor; try done; [apply evolves_refl|by destruct i| |intros k Hk; cbn in Hk; lia|cbn; lia].
  intros k Hk. by rewrite decide_False by (cbn; lia).
Qed.

Lemma div_range k : 0 <= k < MAXFILE * BSIZE -> 0 <= k / BSIZE < MAXFILE.
Proof.
  unfold MAXFILE, BSIZE. intros. split; [apply Z.div_pos; lia|apply Z.div_lt_upper_bound; lia].
Qed.

(** One chunk, then the rest. *)
Lemma written_step v i w off n src r q v1 i1 w1 a v' i' w' : fs_ok v -> 0 <= off -> 0 < n -> n = Z.of_nat (length src) ->
  off + n <= MAXFILE * BSIZE -> mapped v i w (off / BSIZE) a q v1 i1 w1 -> length (v1 a) = 512%nat ->
  written (vupd a (poke (Z.to_nat (off mod BSIZE)) (take (Z.to_nat (chunk off n)) src) (v1 a)) v1) i1 ({[a]} ∪ w1)
    (off + chunk off n) (drop (Z.to_nat (chunk off n)) src) r v' i' w' ->
  (cost v1 i1 ({[a]} ∪ w1) <= cost v i w + 1)%nat ->
  written v i w off src r v' i' w'.
Proof.
  intros K Ho Hn Hl Hm Mp La W Hc. destruct (chunk_facts off n Ho Hn) as (C1 & C2 & C3 & C4). set (m := chunk off n) in *.
  destruct Mp as [M1 M2 M3 M4 M5 M6 M7 M8 M9' M9 M10]. subst a.
  assert (Hb : 0 <= off / BSIZE < MAXFILE) by (apply div_range; lia).
  destruct (store_file v1 i1 (off / BSIZE) (poke (Z.to_nat (off mod BSIZE)) (take (Z.to_nat m) src) (v1 (baddr v1 i1 (off / BSIZE)))) M2 M3 Hb M6)
    as (S1 & S2 & S3 & S4 & S5).
  set (v2 := vupd _ _ v1) in *. destruct W as [W1 W2 W3 W4 W4' W5 W6 W7 W8].
  assert (Ev : evolves v i v2 i1) by exact (evolves_trans _ _ _ _ _ _ K M1 S4).
  rewrite length_drop in W4', W5, W6, W8. replace (Z.of_nat (length src - Z.to_nat m)) with (n - m) in * by lia.
  constructor; try done.
  - exact (evolves_trans _ _ _ _ _ _ K Ev W1).
  - by rewrite W4, M7.
  - intros Hbk. rewrite <- Hl in Hbk. rewrite W4'; [apply M9', Hbk; lia|]. intros k Hk.
    pose proof (div_range k ltac:(lia)) as Hkb. rewrite S1, (ev_keep _ _ _ _ M1) by (done || apply Hbk; lia). apply Hbk. lia.
  - intros k Hk. rewrite W5 by done. pose proof (div_range k Hk) as Hkb.
    assert (Fb : fblock v1 i1 (off / BSIZE) = v1 (baddr v1 i1 (off / BSIZE))).
    { unfold fblock. by rewrite (proj2 (Z.eqb_neq _ _) M6). }
    assert (E2 : fbyte v2 i1 k = if decide (off <= k < off + m) then src !!! Z.to_nat (k - off) else fbyte v i k).
    { unfold fbyte at 1. rewrite S5, <- Fb by done.
      etransitivity; [apply (store_bytes v1 i1 off n src (fblock v1 i1 (off / BSIZE)) k Ho Hn); [lia|done|by rewrite Fb]|].
      unfold fbyte. fold m. by rewrite M4. }
    rewrite E2. destruct (decide (off <= k < off + m)) as [D1|D1].
    + rewrite decide_False, decide_True by lia. done.
    + destruct (decide (off + m <= k < off + m + (n - m))) as [D2|D2].
      * rewrite decide_True by lia. rewrite lookup_total_drop. f_equal. lia.
      * by rewrite decide_False by lia.
  - intros k Hk. destruct (decide (k < off + m)) as [D|D]; [|apply W6; lia].
    destruct (C4 k ltac:(lia)) as [-> _]. rewrite (ev_keep _ _ _ _ W1), S1 by (done || by rewrite S1). done.
  - rewrite <- Hl, (nblk_step off n Ho Hn). fold m.
    assert (Ec : cost v2 i1 ({[baddr v1 i1 (off / BSIZE)]} ∪ w1) = cost v1 i1 ({[baddr v1 i1 (off / BSIZE)]} ∪ w1)).
    { unfold cost. destruct (same_front v1 v2 M2 (evolves_sb _ _ _ _ M2 S4)) as (_ & _ & _ & -> & _). done. }
    rewrite Ec in W8. lia.
Qed.

Lemma mapped_log v i w n a r v' i' w' : mapped v i w n a r v' i' w' -> mapped v i w n a r v' i' ({[a]} ∪ w').
Proof.
  intros [M1 M2 M3 M4 M5 M6 M7 M8 M9 M10 M11]. constructor; try done. apply union_least; [apply union_subseteq_l|done].
Qed.

Lemma mapped_block v i w n a r v' i' w' b h u : rep b v' h u -> fs_ok v -> 0 <= n < MAXFILE -> mapped v i w n a r v' i' w' ->
  0 <= a < home /\ length (v' a) = 512%nat.
Proof.
  intros R K Hn [M1 M2 M3 M4 M5 M6 M7 M8 M9 M10 M11]. subst a.
  destruct (fo_data _ _ M3 _ (baddr_owned v' i' n Hn M6)) as (Hd & Hh & _). destruct (fk_facts _ M2).
  assert (0 <= baddr v' i' n < home) by lia. split; [done|]. by eapply rep_len.
Qed.

Lemma writei_loop_ok fuel s v w ip i off n tot src r : rep (blk s) v ∅ w -> icache s !! ip = Some i -> fs_ok v -> file_ok v i ->
  0 <= off -> n - tot = Z.of_nat (length src) -> off + (n - tot) <= MAXFILE * BSIZE -> n - tot <= Z.of_nat fuel ->
  room (nblk off (n - tot) + need i + r) v ->
  (cost v i w + nblk off (n - tot) < cap)%nat -> (cost v i w + nblk off (n - tot) + 2 < nbufs)%nat ->
  exists bs v' i' w', writei_loop fuel ip src off n tot s = Done (off + (n - tot)) (put ip i' bs s) /\ rep bs v' ∅ w' /\
    written v i w off src r v' i' w'.
Proof.
  revert s v w i off tot src. induction fuel as [|fuel IH]; intros s v w i off tot src R Hi K F Ho Hl Hm Hf Rm Hc Hb.
  - cbn [writei_loop]. rewrite (proj2 (Z.ltb_ge _ _)) by lia. exists (blk s), v, i, w. rewrite put_self by done.
    destruct src as [|]; [|cbn in Hl; lia]. split; [replace (off + (n - tot)) with off by lia; by destruct s|]. split; [done|].
    apply written_nil; [done|done|]. eapply room_le; [|exact Rm]. lia.
  - cbn [writei_loop]. destruct (Z.ltb_spec tot n) as [Hlt|Hge].
    2:{ exists (blk s), v, i, w. rewrite put_self by done. destruct src as [|]; [|cbn in Hl; lia].
        split; [replace (off + (n - tot)) with off by (cbn in Hl; lia); by destruct s|]. split; [done|].
        apply written_nil; [done|done|]. eapply room_le; [|exact Rm]. lia. }
    destruct (chunk_facts off (n - tot) Ho ltac:(lia)) as (C1 & C2 & C3 & C4).
    rewrite (nblk_step off (n - tot)) in Rm, Hc, Hb by lia.
    assert (Hn : 0 <= off / BSIZE < MAXFILE) by (apply div_range; lia).
    destruct (bmap_ok s v w ip i (off / BSIZE) (nblk (off + chunk off (n - tot)) (n - tot - chunk off (n - tot)) + r) R Hi K F Hn)
      as (a & b1 & v1 & i1 & w1 & E1 & R1 & Mp); [eapply room_le; [|exact Rm]; lia|lia|lia|].
    destruct (mapped_block _ _ _ _ _ _ _ _ _ _ _ _ R1 K Hn Mp) as (Dr & La).
    pose proof (mapped_cost _ _ _ _ _ _ _ _ _ K (mapped_log _ _ _ _ _ _ _ _ _ Mp)) as Mc.
    pose proof (mapped_cost _ _ _ _ _ _ _ _ _ K Mp) as Mc1. pose proof (cost_size v1 i1 w1) as Cs.
    destruct (hold _ _ _ _ a R1 Dr) as (k & b2 & E2 & E3 & R2); [done|rewrite map_size_empty; lia|].
    set (m := chunk off (n - tot)) in *.
    set (y := poke (Z.to_nat (off mod BSIZE)) (take (Z.to_nat m) src) (v1 a)).
    destruct (put_back_steps _ _ _ _ _ _ _ y R2 (lookup_empty _) Dr) as (b3 & b4 & b5 & E4 & E5 & E6 & R3);
      [unfold y; rewrite length_poke; rewrite ?length_take; unfold BSIZE in *; lia|lia|rewrite map_size_empty; lia|].
    pose proof (mp_addr _ _ _ _ _ _ _ _ _ Mp) as Ea. pose proof (mp_nz _ _ _ _ _ _ _ _ _ Mp) as Na.
    pose proof (mp_fs _ _ _ _ _ _ _ _ _ Mp) as K1.
    destruct (store_file v1 i1 (off / BSIZE) y K1 (mp_file _ _ _ _ _ _ _ _ _ Mp) Hn ltac:(by rewrite Ea)) as (S1 & S2 & S3 & S4 & S5).
    rewrite Ea in S1, S2, S3, S4, S5.
    assert (Hfar : dstart v1 <= a).
    { rewrite <- Ea. apply (fo_data _ _ (mp_file _ _ _ _ _ _ _ _ _ Mp)), baddr_owned; [done|by rewrite Ea]. }
    assert (Ec : cost (vupd a y v1) i1 ({[a]} ∪ w1) = cost v1 i1 ({[a]} ∪ w1)).
    { unfold cost. by destruct (same_front v1 _ K1 (evolves_sb _ _ _ _ K1 S4)) as (_ & _ & _ & -> & _). }
    destruct (IH (put ip i1 b5 s) (vupd a y v1) ({[a]} ∪ w1) i1 (off + m) (tot + m) (drop (Z.to_nat m) src))
      as (b6 & v2 & i2 & w2 & E7 & R4 & W); try done.
    + by apply lookup_put.
    + lia.
    + rewrite length_drop. lia.
    + lia.
    + lia.
    + replace (n - (tot + m)) with (n - tot - m) by lia. apply room_far; [done|done|].
      eapply room_le; [|exact (mp_room _ _ _ _ _ _ _ _ _ Mp)]. lia.
    + rewrite Ec. replace (n - (tot + m)) with (n - tot - m) by lia. lia.
    + rewrite Ec. replace (n - (tot + m)) with (n - tot - m) by lia. lia.
    + exists b6, v2, i2, w2. rewrite put_put in E7. split; [|split; [done|]].
      * rewrite (bind_Done _ _ _ _ _ E1).
        rewrite (bind_Done _ _ _ _ _ (geti_put ip i1 b1 s (mk_is_Some _ _ Hi))). rewrite (fo_dev _ _ (mp_file _ _ _ _ _ _ _ _ _ Mp)).
        rewrite (bind_Done _ _ _ _ _ (on_blk_Done _ (put ip i1 b1 s) _ _ E2)). fold (chunk off (n - tot)). fold m.
        rewrite (bind_Done _ _ _ _ _ (on_blk_Done _ (put ip i1 b2 s) _ _ E3)). fold y.
        rewrite (bind_Done _ _ _ _ _ (on_blk_Done _ (put ip i1 b2 s) _ _ E4)), (bind_Done _ _ _ _ _ (on_blk_Done _ (put ip i1 b3 s) _ _ E5)).
        rewrite (bind_Done _ _ _ _ _ (on_blk_Done _ (put ip i1 b4 s) _ _ E6)). etransitivity; [exact E7|]. f_equal. lia.
      * exact (written_step v i w off (n - tot) src r _ v1 i1 w1 a v2 i2 w2 K Ho ltac:(lia) Hl ltac:(lia) Mp La W Mc).
Qed.

(** ** Files beside the one written *)

Lemma owns_same v v' i : (forall m, 0 <= m < MAXFILE -> baddr v' i m = baddr v i m) -> forall z, owns v' i z <-> owns v i z.
Proof.
  intros Ba z. unfold owns. split; (intros [Hz [Hi | (m & Hm & E)]]; split; [done|by left|done|]); right; exists m;
    rewrite Ba in * by done; done.
Qed.

(** A file whose blocks, and whose bits in the bitmap, have not changed. *)
Lemma same_file v v' i : fs_ok v -> file_ok v i -> v' 1 = v 1 ->
  (forall z, owns v i z -> v' z = v z /\ used v' z = true) ->
  file_ok v' i /\ (forall m, 0 <= m < MAXFILE -> baddr v' i m = baddr v i m) /\
  (forall m, 0 <= m < MAXFILE -> fblock v' i m = fblock v i m).
Proof.
  intros K F E1 O. destruct (same_front v v' K E1) as (Es & _ & Ed & _ & _).
  assert (Ba : forall m, 0 <= m < MAXFILE -> baddr v' i m = baddr v i m).
  { intros m Hm. unfold baddr. destruct (m <? Z.of_nat NDIRECT); [done|]. destruct (Z.eqb_spec (ind i) 0) as [|Hi]; [done|].
    by rewrite (proj1 (O _ (ind_owned v i Hi))). }
  pose proof (owns_same v v' i Ba) as Ow. split; [|split; [done|]].
  - constructor; [apply F|apply F|..].
    + intros z Hz%Ow. rewrite Es, Ed. destruct (fo_data _ _ F z Hz) as (? & ? & ?). split; [done|]. split; [done|]. by apply O.
    + intros m m' Hm Hm'. rewrite !Ba by done. by apply F.
    + intros m Hm. rewrite Ba by done. by apply (fo_ind _ _ F).
  - intros m Hm. unfold fblock. rewrite Ba by done. destruct (Z.eqb_spec (baddr v i m) 0) as [|Hz]; [done|].
    by apply O, baddr_owned.
Qed.

(** A store into the front of the disk, not into the bitmap. *)
Lemma front_store v z x : fs_ok v -> 1 < z < map_start v -> let v' := vupd z x v in
  v' 1 = v 1 /\ fs_ok v' /\ (forall c, 0 <= c < Log.sb_size (sb v) -> used v' c = used v c) /\
  (forall i, file_ok v i -> file_ok v' i /\ (forall m, 0 <= m < MAXFILE -> baddr v' i m = baddr v i m) /\
    (forall m, 0 <= m < MAXFILE -> fblock v' i m = fblock v i m)).
Proof.
  intros K Hz v'. destruct (fk_facts _ K) as (F1 & F2 & F3). assert (E1 : v' 1 = v 1) by (apply vupd_ne; lia).
  destruct (same_front v v' K E1) as (_ & _ & _ & _ & Em).
  assert (U : forall c, 0 <= c < Log.sb_size (sb v) -> used v' c = used v c).
  { intros c Hc. unfold used. rewrite Em. f_equal. apply vupd_ne. pose proof (map_block_in v c K Hc) as Hm.
    apply elem_of_maps in Hm. lia. }
  split; [done|]. split; [apply (fs_ok_grow v); try done; intros c Hc ?; by rewrite U|]. split; [done|].
  intros i F. apply same_file; try done. intros y Hy. destruct (fo_data _ _ F y Hy) as (Hd & _ & Hu).
  split; [apply vupd_ne; lia|]. rewrite U by lia. done.
Qed.

Definition apart_files (v : Z -> block) (i j : inode) : Prop := forall z, owns v j z -> ~ owns v i z.

Lemma evolves_other v i v' i' j : fs_ok v -> evolves v i v' i' -> file_ok v j -> apart_files v i j ->
  file_ok v' j /\ (forall m, 0 <= m < MAXFILE -> baddr v' j m = baddr v j m) /\
  (forall m, 0 <= m < MAXFILE -> fblock v' j m = fblock v j m) /\ apart_files v' i' j.
Proof.
  intros K E F A. destruct (fk_facts _ K) as (F1 & F2 & F3).
  destruct (same_file v v' j K F (evolves_sb _ _ _ _ K E)) as (S1 & S2 & S3).
  - intros z Hz. destruct (fo_data _ _ F z Hz) as (Hd & _ & Hu). split; [|apply E; [lia|done]].
    apply (ev_frame _ _ _ _ E); [lia|done|by apply A].
  - do 3 (split; [done|]). intros z Hz Hz'. apply (owns_same v v' j S2) in Hz.
    destruct (ev_from _ _ _ _ E z Hz') as [Ho|[_ Hu]]; [by apply (A z)|].
    destruct (fo_data _ _ F z Hz) as (_ & _ & Hu'). congruence.
Qed.

(** ** Inodes and their files *)

(** An inode in memory that says what is on disk, of a file without holes. *)
Record inode_ok (v : Z -> block) (i : inode) : Prop := {
  io_file : file_ok v i;
  io_disk : disk_inode i;
  io_inum : 0 <= i_inum i < Log.sb_ninodes (sb v);
  io_size : i_size i <= MAXFILE * BSIZE;
  io_whole : backed v i 0 (i_size i);
  io_sync e : dinode_get (islot (i_inum i)) (v (IBLOCK (i_inum i))) e = with_contents i e }.

Lemma iblock_front v n : fs_ok v -> 0 <= n < Log.sb_ninodes (sb v) ->
  inum_in n /\ IBLOCK n = n / IPB + 2 /\ 1 < IBLOCK n < map_start v.
Proof.
  intros K Hn. destruct (fk_facts _ K) as (F1 & F2 & F3). pose proof (fk_home _ K).
  assert (0 <= n / IPB) by (apply Z.div_pos; unfold IPB; lia).
  assert (n / IPB <= Log.sb_ninodes (sb v) / IPB) by (apply Z.div_le_mono; unfold IPB; lia).
  assert (I : inum_in n) by (split; [lia|]; unfold map_start in F1; lia).
  destruct (IBLOCK_range n I) as [E _]. split; [done|]. split; [done|]. rewrite E. unfold map_start. lia.
Qed.

Lemma lookup_bytes v i off n (k : nat) : Z.of_nat k < n -> bytes v i off n !! k = Some (fbyte v i (off + Z.of_nat k)).
Proof. intros Hk. unfold bytes. rewrite list_lookup_fmap, lookup_seqZ_lt by done. done. Qed.

Lemma length_bytes v i off n : length (bytes v i off n) = Z.to_nat n.
Proof. unfold bytes. by rewrite length_fmap, length_seqZ. Qed.

Lemma bytes_ext v i v' i' off n : (forall k, off <= k < off + n -> fbyte v' i' k = fbyte v i k) ->
  bytes v' i' off n = bytes v i off n.
Proof. intros E. unfold bytes. apply list_fmap_ext. intros j k [-> Hj]%lookup_seqZ. apply E. lia. Qed.

Lemma fblock_fbyte v i v' i' k : (forall m, 0 <= m < MAXFILE -> fblock v' i' m = fblock v i m) -> 0 <= k < MAXFILE * BSIZE ->
  fbyte v' i' k = fbyte v i k.
Proof. intros E Hk. unfold fbyte. rewrite E; [done|]. by apply div_range. Qed.

Lemma content_same v i v' i' : (forall m, 0 <= m < MAXFILE -> fblock v' i' m = fblock v i m) -> i_size i' = i_size i ->
  i_size i <= MAXFILE * BSIZE -> content v' i' = content v i.
Proof. intros E Es Hs. unfold content. rewrite Es. apply bytes_ext. intros k Hk. apply fblock_fbyte; [done|lia]. Qed.

Lemma bytes_content v i off n : 0 <= off -> 0 <= n -> off + n <= i_size i ->
  bytes v i off n = take (Z.to_nat n) (drop (Z.to_nat off) (content v i)).
Proof.
  intros Ho Hn Hs. apply list_eq. intros k. destruct (decide (Z.of_nat k < n)) as [Hk|Hk].
  - rewrite lookup_bytes, lookup_take_lt, lookup_drop by lia. unfold content. rewrite lookup_bytes by lia. do 2 f_equal. lia.
  - rewrite lookup_take_ge by lia. apply lookup_ge_None_2. rewrite length_bytes. lia.
Qed.

(** [src] stored at [off] in the bytes [c], which may grow. *)
Definition splice (off : nat) (src c : list Z) : list Z := take off c ++ src ++ drop (off + length src) c.

Lemma content_splice v i v' i' off src : 0 <= off <= i_size i -> i_size i' = Z.max (i_size i) (off + Z.of_nat (length src)) ->
  i_size i' <= MAXFILE * BSIZE ->
  (forall k, 0 <= k < MAXFILE * BSIZE -> fbyte v' i' k =
    if decide (off <= k < off + Z.of_nat (length src)) then src !!! Z.to_nat (k - off) else fbyte v i k) ->
  content v' i' = splice (Z.to_nat off) src (content v i).
Proof.
  intros Ho Es Hs Hb. assert (Lc : length (content v i) = Z.to_nat (i_size i)) by apply length_bytes.
  unfold content at 1. apply list_eq. intros k. destruct (decide (Z.of_nat k < i_size i')) as [Hk|Hk].
  - rewrite lookup_bytes, Z.add_0_l, Hb by lia. unfold splice. case_decide as D.
    + rewrite lookup_app_r by (rewrite length_take; lia). rewrite length_take, Lc, Nat.min_l by lia.
      rewrite lookup_app_l by lia. replace (Z.to_nat (Z.of_nat k - off)) with (k - Z.to_nat off)%nat by lia.
      symmetry. apply list_lookup_lookup_total_lt. lia.
    + destruct (decide (Z.of_nat k < off)).
      * rewrite lookup_app_l by (rewrite length_take; lia). rewrite lookup_take_lt by lia.
        unfold content. by rewrite lookup_bytes by lia.
      * rewrite lookup_app_r by (rewrite length_take; lia). rewrite length_take, Lc, Nat.min_l by lia.
        rewrite lookup_app_r by lia. rewrite lookup_drop. unfold content. rewrite lookup_bytes by lia. do 2 f_equal. lia.
  - rewrite (lookup_ge_None_2 (bytes _ _ _ _)) by (rewrite length_bytes; lia). symmetry. apply lookup_ge_None_2.
    unfold splice. rewrite !length_app, length_take, length_drop, Lc. lia.
Qed.

(** The addresses of a good file fit the inode on disk. *)
Lemma disk_inode_addrs v i i' : fs_ok v -> file_ok v i' -> disk_inode i -> i' = set_addrs (i_addrs i') i -> disk_inode i'.
Proof.
  intros K F D E. rewrite E. destruct D. constructor; cbn; try done; [|apply F].
  apply Forall_lookup_2. intros k a Hk. destruct (decide (a = 0)) as [->|Ha]; [lia|].
  pose proof (lookup_lt_Some _ _ _ Hk) as Hl. rewrite (fo_len _ _ F) in Hl.
  assert (Hk' : i_addrs i' !!! k = a) by (by apply list_lookup_total_correct).
  assert (O : owns v i' a).
  { split; [done|]. destruct (decide (k = NDIRECT)) as [->|]; [left; by rewrite <- Hk'|]. right. exists (Z.of_nat k).
    unfold NDIRECT, MAXFILE in *. split; [lia|]. unfold baddr, NDIRECT. rewrite (proj2 (Z.ltb_lt _ _)) by lia. by rewrite Nat2Z.id. }
  destruct (fo_data _ _ F a O). destruct (fk_facts _ K). lia.
Qed.

(** Everything but file [i]: its inode and contents. *)
Definition others_kept (v : Z -> block) (i : inode) (v' : Z -> block) (i' : inode) : Prop :=
  forall j, inode_ok v j -> i_inum j <> i_inum i -> apart_files v i j ->
    inode_ok v' j /\ content v' j = content v j /\ apart_files v' i' j.

Lemma inode_ok_same v v' j : inode_ok v j -> v' 1 = v 1 -> fs_ok v -> file_ok v' j ->
  (forall m, 0 <= m < MAXFILE -> baddr v' j m = baddr v j m) -> (forall m, 0 <= m < MAXFILE -> fblock v' j m = fblock v j m) ->
  (forall e, dinode_get (islot (i_inum j)) (v' (IBLOCK (i_inum j))) e = dinode_get (islot (i_inum j)) (v (IBLOCK (i_inum j))) e) ->
  inode_ok v' j /\ content v' j = content v j.
Proof.
  intros [J1 J2 J3 J4 J5 J6] E1 K F Ba Fb Sy. destruct (same_front v v' K E1) as (Es & _). split.
  - constructor; try done; [by rewrite Es| |intros e; by rewrite Sy].
    intros k Hk. rewrite Ba; [by apply J5|apply div_range; lia].
  - by apply content_same.
Qed.

Lemma evolves_others v i v' i' : fs_ok v -> evolves v i v' i' -> others_kept v i v' i'.
Proof.
  intros K E j J Nj A. destruct (evolves_other _ _ _ _ j K E (io_file _ _ J) A) as (S1 & S2 & S3 & S4).
  destruct (iblock_front v _ K (io_inum _ _ J)) as (_ & _ & Hf). destruct (fk_facts _ K) as (F1 & _).
  destruct (inode_ok_same v v' j J (evolves_sb _ _ _ _ K E) K S1 S2 S3) as [S5 S6]; [|done].
  intros e. rewrite (ev_front _ _ _ _ E); [done|lia|rewrite elem_of_maps; lia].
Qed.

(** [iupdate] seen by the files: the inode is on disk, the others are as before. *)
Lemma iupdate_fs s h w v i : rep s v h w -> fs_ok v -> disk_inode i -> 0 <= i_inum i < Log.sb_ninodes (sb v) ->
  let v' := iupdate_view i v in
  v' 1 = v 1 /\ fs_ok v' /\ (forall c, 0 <= c < Log.sb_size (sb v) -> used v' c = used v c) /\
  (forall e, dinode_get (islot (i_inum i)) (v' (IBLOCK (i_inum i))) e = with_contents i e) /\
  (forall n e, 0 <= n < Log.sb_ninodes (sb v) -> n <> i_inum i ->
     dinode_get (islot n) (v' (IBLOCK n)) e = dinode_get (islot n) (v (IBLOCK n)) e) /\
  (forall j, file_ok v j -> file_ok v' j /\ (forall m, 0 <= m < MAXFILE -> baddr v' j m = baddr v j m) /\
     (forall m, 0 <= m < MAXFILE -> fblock v' j m = fblock v j m)).
Proof.
  intros R K D Hn v'. destruct (iblock_front v _ K Hn) as (I & E & Hf). destruct (IBLOCK_range _ I) as [_ Rn].
  pose proof (rep_len _ _ _ _ _ R Rn) as Hl.
  destruct (front_store v (IBLOCK (i_inum i)) (dinode_put (islot (i_inum i)) i (v (IBLOCK (i_inum i)))) K Hf) as (S1 & S2 & S3 & S4).
  split; [done|]. split; [done|]. split; [done|]. split; [|split; [|exact S4]].
  - intros e. unfold v', iupdate_view. rewrite vupd_eq. apply dinode_get_put; [apply islot_lt|done|done].
  - intros n e Hn' Ne. destruct (iblock_front v _ K Hn') as (_ & E' & _). unfold v', iupdate_view, vupd. case_decide as Eb; [|done].
    rewrite Eb. apply dinode_get_other; [apply islot_lt|apply islot_lt| |done|done].
    intros Fs. apply Ne. symmetry. apply same_slot; [lia|lia|lia|done].
Qed.

Lemma set_size_file v i n : file_ok v i -> file_ok v (set_size n i).
Proof. intros [F1 F2 F3 F4 F5]. by constructor. Qed.

(** What [writei] leaves behind: the file with [src] at [off], all else unchanged. *)
Record wrote (v : Z -> block) (i : inode) (off : Z) (src : list Z) (v' : Z -> block) (i' : inode) : Prop := {
  wt_fs : fs_ok v';
  wt_inode : inode_ok v' i';
  wt_content : content v' i' = splice (Z.to_nat off) src (content v i);
  wt_id : i' = set_size (i_size i') (set_addrs (i_addrs i') i);
  wt_others : others_kept v i v' i';
  wt_sb : v' 1 = v 1 }.

Lemma wrote_size v i off src v' i' : wrote v i off src v' i' -> 0 <= off <= i_size i ->
  i_size i' = Z.max (i_size i) (off + Z.of_nat (length src)).
Proof.
  intros [W1 W2 W3 W4 W5] Ho. assert (L : length (content v' i') = Z.to_nat (i_size i')) by apply length_bytes.
  assert (L0 : length (content v i) = Z.to_nat (i_size i)) by apply length_bytes.
  pose proof (di_size _ (io_disk _ _ W2)). rewrite W3 in L. unfold splice in L. rewrite !length_app, length_take, length_drop, L0 in L. lia.
Qed.

(** No growth: the inode has not changed. *)
Lemma wrote_inside v i off src w r v' w' : fs_ok v -> inode_ok v i -> 0 <= off -> off + Z.of_nat (length src) <= i_size i ->
  written v i w off src r v' i w' -> wrote v i off src v' i.
Proof.
  intros K Io Ho Hs [W1 W2 W3 W4 W4' W5 W6 W7 W8]. destruct Io as [J1 J2 J3 J4 J5 J6].
  pose proof (evolves_sb _ _ _ _ K W1) as E1. destruct (same_front v v' K E1) as (Es & _).
  destruct (iblock_front v _ K J3) as (_ & _ & Hf). destruct (fk_facts _ K) as (F1 & _). constructor; try done.
  - constructor; try done; [by rewrite Es| |].
    + intros k Hk. rewrite (ev_keep _ _ _ _ W1); [by apply J5|apply div_range; lia|by apply J5].
    + intros e. rewrite (ev_front _ _ _ _ W1); [done|lia|rewrite elem_of_maps; lia].
  - apply content_splice; [lia|lia|done|done].
  - exact (evolves_others _ _ _ _ K W1).
Qed.

(** Growth: the inode is written back. *)
Lemma wrote_grown s v i off src w r v1 i1 w1 : fs_ok v -> inode_ok v i -> 0 <= off <= i_size i -> i_size i < off + Z.of_nat (length src) ->
  off + Z.of_nat (length src) <= MAXFILE * BSIZE -> rep s v1 ∅ w1 -> written v i w off src r v1 i1 w1 ->
  let i2 := set_size (off + Z.of_nat (length src)) i1 in
  disk_inode i2 /\ wrote v i off src (iupdate_view i2 v1) i2 /\ room (need i2 + r) (iupdate_view i2 v1).
Proof.
  intros K Io Ho Hs Hm R [W1 W2 W3 W4 W4' W5 W6 W7 W8] i2. destruct Io as [J1 J2 J3 J4 J5 J6].
  pose proof (evolves_sb _ _ _ _ K W1) as E1. destruct (same_front v v1 K E1) as (Es & _).
  assert (D1 : disk_inode i1) by exact (disk_inode_addrs v1 i i1 W2 W3 J2 W4).
  assert (D2 : disk_inode i2).
  { destruct D1. constructor; try done. cbn. unfold MAXFILE, BSIZE in Hm. lia. }
  assert (Ni : i_inum i2 = i_inum i) by (unfold i2; by rewrite W4). split; [done|].
  destruct (iupdate_fs s ∅ w1 v1 i2 R W2 D2) as (U1 & U2 & U3 & U4 & U5 & U6); [by rewrite Ni, Es|].
  set (v2 := iupdate_view i2 v1) in *. destruct (U6 i2 (set_size_file _ _ _ W3)) as (G1 & G2 & G3).
  destruct (same_front v1 v2 W2 U1) as (Es2 & _). split; [|by apply (room_same v1)]. constructor; try done; [..|congruence].
  - constructor; try done; [by rewrite Ni, Es2, Es|].
    intros k Hk. cbn in Hk. assert (Kb : 0 <= k / BSIZE < MAXFILE) by (apply div_range; lia). rewrite G2 by done.
    destruct (decide (off <= k)); [apply W6; lia|]. change (baddr v1 i1 (k / BSIZE) <> 0).
    rewrite (ev_keep _ _ _ _ W1); [apply J5; lia|done|apply J5; lia].
  - apply content_splice; [done|cbn; lia|done|]. intros k Hk. rewrite (fblock_fbyte v1 i2 v2 i2 k G3 Hk).
    change (fbyte v1 i2 k) with (fbyte v1 i1 k). by apply W5.
  - unfold i2. by rewrite W4.
  - intros j J Nj A. destruct (evolves_others _ _ _ _ K W1 j J Nj A) as (X1 & X2 & X3).
    destruct (U6 j (io_file _ _ X1)) as (Y1 & Y2 & Y3).
    destruct (inode_ok_same v1 v2 j X1 U1 W2 Y1 Y2 Y3) as [Y4 Y5].
    { intros e. apply U5; [apply X1|by rewrite Ni]. }
    split; [done|]. split; [by rewrite Y5|]. intros z Hz Hz'. apply (owns_same v1 v2 j Y2) in Hz.
    apply (owns_same v1 v2 i2 G2) in Hz'. by apply (X3 z).
Qed.

(** The log and the cache have room for a write of [n] bytes at [off]. *)
Definition write_fits (v : Z -> block) (i : inode) (w : gset Z) (off n : Z) : Prop :=
  room (nblk off n + need i) v /\ (cost v i w + nblk off n < cap)%nat /\ (cost v i w + nblk off n + 2 < nbufs)%nat.

Lemma writei_room `{!Devices} s v w ip i off src r : rep (blk s) v ∅ w -> icache s !! ip = Some i -> fs_ok v -> inode_ok v i ->
  i_type i <> T_DEV -> 0 <= off <= i_size i -> off + Z.of_nat (length src) <= MAXFILE * BSIZE ->
  room (nblk off (Z.of_nat (length src)) + need i + r) v ->
  (cost v i w + nblk off (Z.of_nat (length src)) < cap)%nat -> (cost v i w + nblk off (Z.of_nat (length src)) + 2 < nbufs)%nat ->
  exists bs v' i' w', writei ip src off (Z.of_nat (length src)) s = Done (Z.of_nat (length src)) (put ip i' bs s) /\
    rep bs v' ∅ w' /\ wrote v i off src v' i' /\ (size w' <= cost v i w + nblk off (Z.of_nat (length src)) + 1)%nat /\
    room (need i' + r) v'.
Proof.
  intros R Hi K Io Ht Ho Hm Rm Hc Hb. set (n := Z.of_nat (length src)) in *.
  assert (H32 : off + n < 2 ^ 31) by (unfold MAXFILE, BSIZE in Hm; lia).
  destruct (writei_loop_ok (Z.to_nat n) s v w ip i off n 0 src r R Hi K (io_file _ _ Io))
    as (b1 & v1 & i1 & w1 & E1 & R1 & W); rewrite ?Z.sub_0_r; try lia; [done|].
  rewrite Z.sub_0_r in E1.
  assert (Un : writei ip src off n s =
    (let! i := geti ip in
     when ((n >? 0) && (off + n >? i_size i)) (upd_inode ip (set_size (off + n)) ;! iupdate ip) ;! ret (s32 n)) (put ip i1 b1 s)).
  { unfold writei. unfold bind at 1, geti. rewrite Hi, (proj2 (Z.eqb_neq _ _) Ht). rewrite u32_small by lia.
    replace (off >? i_size i) with false by lia. replace (off + n <? off) with false by lia. cbn [orb].
    replace (off + n >? MAXFILE * BSIZE) with false by lia. by rewrite (bind_Done _ _ _ _ _ E1). }
  rewrite Un. clear Un. rewrite (bind_Done _ _ _ _ _ (geti_put ip i1 b1 s (mk_is_Some _ _ Hi))).
  assert (Es : i_size i1 = i_size i) by (rewrite (wr_i _ _ _ _ _ _ _ _ _ W); done).
  assert (En : s32 n = n) by (apply s32_small; lia). pose proof (wr_cost _ _ _ _ _ _ _ _ _ W) as Wc.
  pose proof (cost_size v1 i1 w1). fold n in Wc.
  destruct ((n >? 0) && (off + n >? i_size i1)) eqn:G.
  - destruct (wrote_grown b1 v i off src w r v1 i1 w1 K Io Ho) as (D2 & Wt & Rm'); try done; [lia|]. fold n in D2, Wt, Rm'.
    assert (Ni : i_inum i1 = i_inum i /\ i_dev i1 = i_dev i) by (rewrite (wr_i _ _ _ _ _ _ _ _ _ W); done).
    pose proof (evolves_sb _ _ _ _ K (wr_ev _ _ _ _ _ _ _ _ _ W)) as Eb.
    destruct (same_front v v1 K Eb) as (Es1 & _).
    destruct (iblock_front v1 (i_inum i1) (wr_fs _ _ _ _ _ _ _ _ _ W)) as (I & _ & _); [rewrite Es1, (proj1 Ni); apply Io|].
    destruct (iupdate_ok (put ip (set_size (off + n) i1) b1 s) v1 ∅ w1 ip (set_size (off + n) i1)) as (b2 & E2 & R2); try done.
    + by apply lookup_put.
    + cbn. rewrite (proj2 Ni). apply (io_file _ _ Io).
    + lia.
    + rewrite map_size_empty. lia.
    + exists b2, (iupdate_view (set_size (off + n) i1) v1), (set_size (off + n) i1), ({[IBLOCK (i_inum i1)]} ∪ w1).
      split; [|split; [done|split; [done|]]].
      * unfold when. unfold bind at 1 2. rewrite (upd_inode_put ip i1 b1 s _ (mk_is_Some _ _ Hi)), E2.
        unfold ret. by rewrite En.
      * pose proof (size_add (IBLOCK (i_inum i1)) w1). split; [lia|exact Rm'].
  - assert (Hn : n = 0 \/ off + n <= i_size i) by lia.
    assert (i1 = i) as ->.
    { apply (wr_same _ _ _ _ _ _ _ _ _ W). intros k Hk. apply (io_whole _ _ Io). lia. }
    exists b1, v1, i, w1. split; [unfold when, bind, ret; by rewrite En|]. split; [done|]. split; [|split; [lia|apply W]].
    apply (wrote_inside v i off src w r v1 w1); try done; lia.
Qed.

Lemma writei_ok `{!Devices} s v w ip i off src : rep (blk s) v ∅ w -> icache s !! ip = Some i -> fs_ok v -> inode_ok v i ->
  i_type i <> T_DEV -> 0 <= off <= i_size i -> off + Z.of_nat (length src) <= MAXFILE * BSIZE ->
  write_fits v i w off (Z.of_nat (length src)) ->
  exists bs v' i' w', writei ip src off (Z.of_nat (length src)) s = Done (Z.of_nat (length src)) (put ip i' bs s) /\
    rep bs v' ∅ w' /\ wrote v i off src v' i' /\ (size w' <= cost v i w + nblk off (Z.of_nat (length src)) + 1)%nat.
Proof.
  intros R Hi K Io Ht Ho Hm (Rm & Hc & Hb). rewrite <- (Nat.add_0_r (_ + _)) in Rm.
  destruct (writei_room s v w ip i off src 0 R Hi K Io Ht Ho Hm Rm Hc Hb) as (bs & v' & i' & w' & E & R' & W & Hw & _).
  by exists bs, v', i', w'.
Qed.

(** [readi] gives the bytes of the contents. *)
Lemma readi_content `{!Devices} s v w ip i o m : rep (blk s) v ∅ w -> icache s !! ip = Some i -> fs_ok v -> inode_ok v i ->
  i_type i <> T_DEV -> (size w < nbufs)%nat -> 0 <= o <= i_size i -> 0 <= m -> o + m < 2 ^ 32 ->
  let l := take (Z.to_nat m) (drop (Z.to_nat o) (content v i)) in
  exists bs, readi ip o m s = Done (Z.of_nat (length l), l) (set_blk bs s) /\ rep bs v ∅ w.
Proof.
  intros R Hi K Io Ht Hw Ho Hm H32 l.
  destruct (readi_ok s v w ip i o m R Hi K (io_file _ _ Io) Ht (io_size _ _ Io) Ho Hm H32) as (bs & E & R'); [|done|].
  { intros k Hk. apply (io_whole _ _ Io). lia. }
  exists bs. split; [|done]. rewrite E. rewrite bytes_content by lia.
  assert (L : length (content v i) = Z.to_nat (i_size i)) by apply length_bytes.
  assert (El : take (Z.to_nat (Z.min m (i_size i - o))) (drop (Z.to_nat o) (content v i)) = l).
  { unfold l. destruct (decide (m <= i_size i - o)); [by rewrite Z.min_l by lia|]. rewrite Z.min_r by lia.
    rewrite !take_ge by (rewrite length_drop; lia). done. }
  rewrite El. do 2 f_equal. unfold l. rewrite length_take, length_drop, L. lia.
Qed.

(** C6: Files hold what was written to them.  Inside a transaction with room for
    it, [writei] stores all of [src] at [off], at most at the end of the file: the
    file afterwards is the old contents with [src] spliced in, and every [readi]
    returns the bytes of that; the inode in memory is the inode on disk again; and
    every [readi] of any other file returns what it returned before. *)
Theorem writei_readi `{!Devices} s v w ip i off src : rep (blk s) v ∅ w -> icache s !! ip = Some i -> fs_ok v -> inode_ok v i ->
  i_type i <> T_DEV -> 0 <= off <= i_size i -> off + Z.of_nat (length src) <= MAXFILE * BSIZE ->
  write_fits v i w off (Z.of_nat (length src)) ->
  exists s' v' i' w', writei ip src off (Z.of_nat (length src)) s = Done (Z.of_nat (length src)) s' /\
    rep (blk s') v' ∅ w' /\ fs_ok v' /\ icache s' !! ip = Some i' /\ inode_ok v' i' /\
    (forall o m, 0 <= o <= i_size i' -> 0 <= m -> o + m < 2 ^ 32 -> exists s'',
       let l := take (Z.to_nat m) (drop (Z.to_nat o) (splice (Z.to_nat off) src (content v i))) in
       readi ip o m s' = Done (Z.of_nat (length l), l) s'') /\
    (forall jp j, jp <> ip -> icache s !! jp = Some j -> inode_ok v j -> i_inum j <> i_inum i -> apart_files v i j ->
       i_type j <> T_DEV -> forall o m, 0 <= o <= i_size j -> 0 <= m -> o + m < 2 ^ 32 -> exists s'',
       let l := take (Z.to_nat m) (drop (Z.to_nat o) (content v j)) in
       readi jp o m s' = Done (Z.of_nat (length l), l) s'').
Proof.
  intros R Hi K Io Ht Ho Hm Hf. destruct (writei_ok s v w ip i off src R Hi K Io Ht Ho Hm Hf) as (bs & v' & i' & w' & E & R' & W & Hw).
  destruct Hf as (_ & _ & Hb). pose proof (lookup_put ip i' bs s (mk_is_Some _ _ Hi)) as Hi'.
  exists (put ip i' bs s), v', i', w'. split; [done|]. split; [done|]. split; [apply W|]. split; [done|]. split; [apply W|]. split.
  - intros o m Ho' Hm' H32. rewrite <- (wt_content _ _ _ _ _ _ W).
    destruct (readi_content (put ip i' bs s) v' w' ip i' o m R' Hi' (wt_fs _ _ _ _ _ _ W) (wt_inode _ _ _ _ _ _ W)) as (b2 & E2 & _);
      try done; [rewrite (wt_id _ _ _ _ _ _ W); done|lia|]. eexists. exact E2.
  - intros jp j Nj Hj Jo Ni A Htj o m Ho' Hm' H32. destruct (wt_others _ _ _ _ _ _ W j Jo Ni A) as (Jo' & Ec & _).
    rewrite <- Ec. destruct (readi_content (put ip i' bs s) v' w' jp j o m R') as (b2 & E2 & _); try done.
    + cbn. by rewrite list_lookup_insert_ne by done.
    + apply W.
    + lia.
    + eexists. exact E2.
Qed.

End File.
End FsFile.
