(* ===== verification/FsDir.v ===== *)
(** * Directories and path names (kernel/fs.c)

    A directory is a file of 16-byte entries.  [dirlookup] finds the first entry
    with the name, [dirlink] makes the directory the same map with one name more,
    and [namei] walks these maps from the root or the working directory. *)

From S2P Require Import Prelude Spinlock Bio Log Fs FsBlocks FsFile.
From Stdlib Require Import List.

Module FsDir.
Import Fs FsBlocks FsFile.

(** ** Names *)

Lemma cname_drop n l k : cname (S n) (drop k l) = if ch l k =? 0 then [] else ch l k :: cname n (drop (S k) l).
Proof.
  unfold ch. destruct (l !! k) as [c|] eqn:E.
  - by rewrite (drop_S _ _ _ E).
  - rewrite drop_ge; [done|]. by apply lookup_ge_None.
Qed.

Lemma strncmp_from_spec n k s t : strncmp_from n k s t = 0 <-> cname n (drop k s) = cname n (drop k t).
Proof.
  revert k. induction n as [|n IH]; intros k; cbn [strncmp_from]; [done|]. rewrite !cname_drop.
  destruct (Z.eqb_spec (ch s k) 0) as [Es|Es]; cbn [negb andb].
  - rewrite Es. destruct (Z.eqb_spec (ch t k) 0) as [Et|Et]; [rewrite Et; done|]. split; [lia|done].
  - destruct (Z.eqb_spec (ch s k) (ch t k)) as [E|E].
    + rewrite IH, <- E, (proj2 (Z.eqb_neq _ _) Es). split; [by intros ->|by intros [= ->]].
    + split; [lia|]. destruct (Z.eqb_spec (ch t k) 0); [done|]. by intros [=].
Qed.

(** Two names are the same if their strings, cut to 14 bytes, are. *)
Lemma namecmp_spec s t : namecmp s t = 0 <-> cname DIRSIZ s = cname DIRSIZ t.
Proof. apply (strncmp_from_spec DIRSIZ 0). Qed.

Lemma length_strncpy n k s : length (strncpy_from n k s) = n.
Proof.
  revert k. induction n as [|n IH]; intros k; cbn [strncpy_from]; [done|].
  destruct (ch s k =? 0); [apply length_replicate|]. cbn. by rewrite IH.
Qed.

(** [strncpy] into a name keeps the string. *)
Lemma cname_strncpy n k s : cname n (strncpy_from n k s) = cname n (drop k s).
Proof.
  revert k. induction n as [|n IH]; intros k; [done|]. rewrite cname_drop. cbn [strncpy_from].
  destruct (ch s k =? 0) eqn:E; [done|]. cbn [cname]. by rewrite E, IH.
Qed.

(** ** Entries *)

Fixpoint dirents (n : nat) (c : list Z) : list (list Z) :=
  match n with O => [] | S n' => take 16 c :: dirents n' (drop 16 c) end.

(** The first entry in use with the name: its index and inode number. *)
Fixpoint dfind (name : list Z) (es : list (list Z)) : option (nat * Z) :=
  match es with
  | [] => None
  | e :: es' =>
      if negb (de_inum e =? 0) && bool_decide (cname DIRSIZ name = cname DIRSIZ (de_name e)) then Some (0%nat, de_inum e)
      else match dfind name es' with Some (k, n) => Some (S k, n) | None => None end
  end.

(** The first free entry, or the end. *)
Fixpoint dslot (es : list (list Z)) : nat :=
  match es with [] => 0 | e :: es' => if de_inum e =? 0 then 0 else S (dslot es') end.

(** What a directory says of a name. *)
Definition dget (es : list (list Z)) (name : list Z) : option Z := snd <$> dfind name es.

Lemma length_dirents n c : length (dirents n c) = n.
Proof. revert c. induction n; intros c; cbn; auto. Qed.

Lemma lookup_dirents n c k : (k < n)%nat -> dirents n c !! k = Some (take 16 (drop (16 * k) c)).
Proof.
  revert c k. induction n as [|n IH]; intros c k Hk; [lia|]. cbn [dirents]. destruct k as [|k]; [done|].
  cbn [lookup list_lookup]. rewrite IH by lia. rewrite drop_drop. do 3 f_equal. lia.
Qed.

Lemma dslot_le es : (dslot es <= length es)%nat.
Proof. induction es as [|e es IH]; cbn; [lia|]. destruct (_ =? _); lia. Qed.

Lemma dget_cons e es name : dget (e :: es) name =
  if negb (de_inum e =? 0) && bool_decide (cname DIRSIZ name = cname DIRSIZ (de_name e)) then Some (de_inum e) else dget es name.
Proof. unfold dget. cbn [dfind]. destruct (negb _ && _); [done|]. by destruct (dfind name es) as [[]|]. Qed.

(** An entry put into the free slot adds its name to a directory without it. *)
Lemma dget_put es e name nm : dget es name = None -> de_inum e <> 0 -> cname DIRSIZ (de_name e) = cname DIRSIZ name ->
  dget (take (dslot es) es ++ e :: drop (S (dslot es)) es) nm =
    if bool_decide (cname DIRSIZ nm = cname DIRSIZ name) then Some (de_inum e) else dget es nm.
Proof.
  intros Hn He Hc. induction es as [|a es IH]; cbn [dslot].
  - cbn [take drop app]. rewrite dget_cons, (proj2 (Z.eqb_neq _ _) He), Hc. cbn [negb andb]. done.
  - rewrite dget_cons in Hn. destruct (Z.eqb_spec (de_inum a) 0) as [Ea|Ea].
    + cbn [take drop app]. rewrite !dget_cons, (proj2 (Z.eqb_neq _ _) He), Hc, Ea. cbn [negb andb Z.eqb]. done.
    + cbn [negb andb] in Hn. destruct (decide (cname DIRSIZ name = cname DIRSIZ (de_name a))) as [D|D]; [by rewrite bool_decide_true in Hn|].
      rewrite bool_decide_false in Hn by done. cbn [take drop app]. rewrite dget_cons, IH by done.
      rewrite dget_cons, (proj2 (Z.eqb_neq _ _) Ea). cbn [negb andb].
      case_bool_decide as D1; case_bool_decide as D2; try done. congruence.
Qed.

(** An entry stored in the file is the entry of the list. *)
Lemma dirents_splice n c k e : length c = (16 * n)%nat -> (k <= n)%nat -> length e = 16%nat ->
  dirents (Nat.max n (S k)) (splice (16 * k) e c) = take k (dirents n c) ++ e :: drop (S k) (dirents n c).
Proof.
  intros Hc Hk He. apply list_eq. intros j. pose proof (length_dirents n c) as Ld.
  assert (Lt : length (take k (dirents n c)) = k) by (rewrite length_take; lia).
  assert (Lt' : length (take (16 * k) c) = (16 * k)%nat) by (rewrite length_take; lia).
  destruct (decide (j < Nat.max n (S k))%nat) as [Hj|Hj].
  - rewrite lookup_dirents by done. unfold splice. destruct (decide (j < k)%nat) as [Jk|Jk]; [|destruct (decide (j = k)) as [->|Jn]].
    + rewrite lookup_app_l by lia. rewrite lookup_take_lt, lookup_dirents by lia. f_equal.
      rewrite drop_app_le by lia. rewrite take_app_le by (rewrite length_drop; lia).
      rewrite skipn_firstn_comm, take_take. f_equal. lia.
    + rewrite lookup_app_r by lia. rewrite Lt, Nat.sub_diag. cbn [lookup list_lookup]. f_equal.
      rewrite drop_app_ge by lia. rewrite Lt', Nat.sub_diag, drop_0. rewrite take_app_le by lia. by rewrite take_ge by lia.
    + rewrite lookup_app_r by lia. rewrite Lt. destruct (j - k)%nat as [|q] eqn:Eq; [lia|]. rewrite lookup_cons.
      rewrite lookup_drop, lookup_dirents by lia. f_equal. rewrite drop_app_ge by lia. rewrite Lt', drop_app_ge by lia.
      rewrite drop_drop. do 2 f_equal. lia.
  - rewrite lookup_ge_None_2 by (rewrite length_dirents; lia). symmetry. apply lookup_ge_None_2.
    rewrite length_app, Lt. cbn. rewrite length_drop. lia.
Qed.

(** The entry [dirlink] writes. *)
Definition new_entry (name : list Z) (inum : Z) : list Z := le_enc 2 inum ++ strncpy_from DIRSIZ 0 name.

Lemma new_entry_spec name inum : 0 < inum < 2 ^ 16 -> length (new_entry name inum) = 16%nat /\
  de_inum (new_entry name inum) = inum /\ cname DIRSIZ (de_name (new_entry name inum)) = cname DIRSIZ name.
Proof.
  intros Hi. unfold new_entry. split; [rewrite length_app, length_le_enc, length_strncpy; done|]. split.
  - unfold de_inum, get16, peek. rewrite drop_0, take_app_length' by (by rewrite length_le_enc).
    rewrite le_dec_enc. apply Z.mod_small. exact (conj (Z.lt_le_incl _ _ (proj1 Hi)) (proj2 Hi)).
  - unfold de_name. rewrite drop_app_length' by (by rewrite length_le_enc). apply (cname_strncpy DIRSIZ 0).
Qed.

(** ** Looking up and adding names *)

Section Dirs.
Context {B : Type} `{BlocksSpec B} `{!@Devices B}.

Record dir_ok (v : Z -> block) (d : inode) : Prop := {
  dk_inode : inode_ok v d;
  dk_type : i_type d = T_DIR;
  dk_size : exists n : nat, i_size d = sizeof_dirent * Z.of_nat n }.

Definition nents (d : inode) : nat := Z.to_nat (i_size d / sizeof_dirent).
Definition entries (v : Z -> block) (d : inode) : list (list Z) := dirents (nents d) (content v d).

Lemma dk_nents v d : dir_ok v d -> i_size d = 16 * Z.of_nat (nents d).
Proof.
  intros [_ _ [n E]]. unfold nents. rewrite E. unfold sizeof_dirent. rewrite (Z.mul_comm 16), Z.div_mul by lia.
  by rewrite Nat2Z.id, Z.mul_comm.
Qed.

Lemma length_entries v d : length (entries v d) = nents d.
Proof. apply length_dirents. Qed.

(** One entry read. *)
Lemma read_entry s v w dp d k e : rep (blk s) v ∅ w -> icache s !! dp = Some d -> fs_ok v -> dir_ok v d ->
  (size w < nbufs)%nat -> entries v d !! k = Some e ->
  exists bs, readi dp (16 * Z.of_nat k) 16 s = Done (16, e) (set_blk bs s) /\ rep bs v ∅ w /\ length e = 16%nat.
Proof.
  intros R Hd K D Hw He. pose proof (dk_nents v d D) as Es. pose proof (lookup_lt_Some _ _ _ He) as Hk.
  rewrite length_entries in Hk. pose proof (io_size _ _ (dk_inode _ _ D)) as Hs. unfold MAXFILE, BSIZE in Hs.
  assert (Ht : i_type d <> T_DEV) by (rewrite (dk_type _ _ D); done).
  destruct (readi_content s v w dp d (16 * Z.of_nat k) 16 R Hd K (dk_inode _ _ D) Ht Hw) as (bs & E & R'); [lia..|].
  unfold entries in He. rewrite lookup_dirents in He by done. injection He as <-.
  assert (L : length (content v d) = Z.to_nat (i_size d)) by apply length_bytes.
  replace (Z.to_nat (16 * Z.of_nat k)) with (16 * k)%nat in E by lia. change (Z.to_nat 16) with 16%nat in E.
  assert (L16 : length (take 16 (drop (16 * k) (content v d))) = 16%nat) by (rewrite length_take, length_drop; lia).
  exists bs. split; [|done]. rewrite E, L16. done.
Qed.

Lemma geti_ok (s : fsys B) ip i : icache s !! ip = Some i -> geti ip s = Done i s.
Proof. intros Hi. unfold geti. by rewrite Hi. Qed.

(** The loop of [dirlookup] over the entries from [k] on. *)
Lemma dirlookup_loop_ok fuel s v w dp d name k es : rep (blk s) v ∅ w -> icache s !! dp = Some d -> fs_ok v -> dir_ok v d ->
  (size w < nbufs)%nat -> es = drop k (entries v d) -> (k <= nents d)%nat -> (length es <= fuel)%nat ->
  exists bs, rep bs v ∅ w /\ dirlookup_loop fuel dp name (16 * Z.of_nat k) s =
    match dfind name es with
    | None => Done None (set_blk bs s)
    | Some (j, n) => (let! ip := iget bdev n in ret (Some (ip, 16 * Z.of_nat (k + j)))) (set_blk bs s)
    end.
Proof.
  intros R Hd K D Hw. revert fuel s R Hd k. induction es as [|e es IH]; intros fuel s R Hd k Ees Hk Hf.
  - pose proof (f_equal length Ees) as L. rewrite length_drop, length_entries in L. cbn in L.
    exists (blk s). split; [done|]. pose proof (dk_nents v d D). cbn [dfind].
    destruct fuel; cbn [dirlookup_loop]; rewrite (bind_Done _ _ _ _ _ (geti_ok s dp d Hd)), (proj2 (Z.ltb_ge _ _)) by lia;
      by destruct s.
  - pose proof (f_equal length Ees) as L. rewrite length_drop, length_entries in L. cbn [length] in L, Hf.
    destruct fuel as [|fuel]; [lia|]. pose proof (dk_nents v d D).
    assert (He : entries v d !! k = Some e) by (rewrite <- (Nat.add_0_r k), <- lookup_drop, <- Ees; done).
    destruct (read_entry s v w dp d k e R Hd K D Hw He) as (b1 & E1 & R1 & L16).
    destruct (IH fuel (set_blk b1 s) R1 Hd (S k)) as (b2 & R2 & E2).
    { rewrite <- Nat.add_1_r, <- drop_drop, <- Ees. done. }
    { lia. }
    { lia. }
    cbn [dirlookup_loop dfind]. rewrite (bind_Done _ _ _ _ _ (geti_ok s dp d Hd)), (proj2 (Z.ltb_lt _ _)) by lia.
    rewrite (bind_Done _ _ _ _ _ E1). cbn [fst snd]. change (negb (16 =? sizeof_dirent)) with false. cbv iota.
    unfold sizeof_dirent. replace (16 * Z.of_nat k + 16) with (16 * Z.of_nat (S k)) by lia.
    assert (Next : exists bs, rep bs v ∅ w /\ dirlookup_loop fuel dp name (16 * Z.of_nat (S k)) (set_blk b1 s) =
      match match dfind name es with Some (j, n) => Some (S j, n) | None => None end with
      | None => Done None (set_blk bs s)
      | Some (j, n) => (let! ip := iget bdev n in ret (Some (ip, 16 * Z.of_nat (k + j)))) (set_blk bs s)
      end).
    { exists b2. split; [done|]. rewrite E2. destruct (dfind name es) as [[j n]|]; [|done].
      by replace (S k + j)%nat with (k + S j)%nat by lia. }
    destruct (Z.eqb_spec (de_inum e) 0) as [E0|E0]; cbn [negb andb]; [exact Next|].
    destruct (Z.eqb_spec (namecmp name (de_name e)) 0) as [Ec|Ec].
    + rewrite bool_decide_true by (by apply namecmp_spec). exists b1. split; [done|].
      rewrite (bind_Done _ _ _ _ _ (geti_ok (set_blk b1 s) dp d Hd)), (fo_dev _ _ (io_file _ _ (dk_inode _ _ D))).
      by replace (k + 0)%nat with k by lia.
    + rewrite bool_decide_false by (by rewrite <- namecmp_spec). exact Next.
Qed.

Lemma dirlookup_ok s v w dp d name : rep (blk s) v ∅ w -> icache s !! dp = Some d -> fs_ok v -> dir_ok v d ->
  (size w < nbufs)%nat ->
  exists bs, rep bs v ∅ w /\ dirlookup dp name s =
    match dfind name (entries v d) with
    | None => Done None (set_blk bs s)
    | Some (j, n) => (let! ip := iget bdev n in ret (Some (ip, 16 * Z.of_nat j))) (set_blk bs s)
    end.
Proof.
  intros R Hd K D Hw. unfold dirlookup. pose proof (dk_nents v d D).
  destruct (dirlookup_loop_ok (Z.to_nat (i_size d)) s v w dp d name 0 (entries v d) R Hd K D Hw) as (bs & R' & E);
    [done|lia|rewrite length_entries; lia|].
  exists bs. split; [done|]. rewrite (bind_Done _ _ _ _ _ (geti_ok s dp d Hd)), (dk_type _ _ D).
  change (negb (T_DIR =? T_DIR)) with false. cbv iota. exact E.
Qed.

Lemma empty_dirent_ok fuel s v w dp d k es : rep (blk s) v ∅ w -> icache s !! dp = Some d -> fs_ok v -> dir_ok v d ->
  (size w < nbufs)%nat -> es = drop k (entries v d) -> (k <= nents d)%nat -> (length es <= fuel)%nat ->
  exists bs, rep bs v ∅ w /\ empty_dirent fuel dp (16 * Z.of_nat k) s = Done (16 * Z.of_nat (k + dslot es)) (set_blk bs s).
Proof.
  intros R Hd K D Hw. revert fuel s R Hd k. induction es as [|e es IH]; intros fuel s R Hd k Ees Hk Hf.
  - pose proof (f_equal length Ees) as L. rewrite length_drop, length_entries in L. cbn in L.
    exists (blk s). split; [done|]. pose proof (dk_nents v d D). cbn [dslot]. rewrite Nat.add_0_r.
    destruct fuel; cbn [empty_dirent]; rewrite (bind_Done _ _ _ _ _ (geti_ok s dp d Hd)), (proj2 (Z.ltb_ge _ _)) by lia;
      by destruct s.
  - pose proof (f_equal length Ees) as L. rewrite length_drop, length_entries in L. cbn [length] in L, Hf.
    destruct fuel as [|fuel]; [lia|]. pose proof (dk_nents v d D).
    assert (He : entries v d !! k = Some e) by (rewrite <- (Nat.add_0_r k), <- lookup_drop, <- Ees; done).
    destruct (read_entry s v w dp d k e R Hd K D Hw He) as (b1 & E1 & R1 & L16).
    cbn [empty_dirent dslot]. rewrite (bind_Done _ _ _ _ _ (geti_ok s dp d Hd)), (proj2 (Z.ltb_lt _ _)) by lia.
    rewrite (bind_Done _ _ _ _ _ E1). cbn [fst snd]. change (negb (16 =? sizeof_dirent)) with false. cbv iota.
    destruct (de_inum e =? 0); [exists b1; split; [done|]; by replace (k + 0)%nat with k by lia|].
    unfold sizeof_dirent. replace (16 * Z.of_nat k + 16) with (16 * Z.of_nat (S k)) by lia.
    destruct (IH fuel (set_blk b1 s) R1 Hd (S k)) as (b2 & R2 & E2).
    { rewrite <- Nat.add_1_r, <- drop_drop, <- Ees. done. }
    { lia. }
    { lia. }
    exists b2. split; [done|]. rewrite E2. by replace (S k + dslot es)%nat with (k + S (dslot es))%nat by lia.
Qed.

(** [dirlink] of a name the directory does not have. *)
Lemma dirlink_ok s v w dp d name inum : rep (blk s) v ∅ w -> icache s !! dp = Some d -> fs_ok v -> dir_ok v d ->
  dget (entries v d) name = None -> 0 < inum < 2 ^ 16 -> i_size d + 16 <= MAXFILE * BSIZE ->
  write_fits v d w (16 * Z.of_nat (dslot (entries v d))) 16 ->
  exists bs v' d' w', dirlink dp name inum s = Done 0 (put dp d' bs s) /\ rep bs v' ∅ w' /\ fs_ok v' /\ dir_ok v' d' /\
    (forall nm, dget (entries v' d') nm =
       if bool_decide (cname DIRSIZ nm = cname DIRSIZ name) then Some inum else dget (entries v d) nm) /\
    wrote v d (16 * Z.of_nat (dslot (entries v d))) (new_entry name inum) v' d' /\ (size w' < nbufs)%nat.
Proof.
  intros R Hd K D Hn Hi Hs Hf. pose proof (dk_nents v d D) as Es. destruct (new_entry_spec name inum Hi) as (Le & Ei & En).
  pose proof (dslot_le (entries v d)) as Hsl. rewrite length_entries in Hsl. set (k := dslot (entries v d)) in *.
  assert (Hw : (size w < nbufs)%nat) by (destruct Hf as (_ & _ & Hb); pose proof (cost_size v d w); lia).
  destruct (dirlookup_ok s v w dp d name R Hd K D Hw) as (b1 & R1 & E1).
  assert (Nf : dfind name (entries v d) = None) by (unfold dget in Hn; by destruct (dfind name (entries v d))).
  rewrite Nf in E1.
  destruct (empty_dirent_ok (Z.to_nat (i_size d)) (set_blk b1 s) v w dp d 0 (entries v d) R1 Hd K D Hw) as (b2 & R2 & E2);
    [done|lia|rewrite length_entries; lia|]. rewrite Nat.add_0_l in E2. change (dslot (entries v d)) with k in E2.
  assert (Ht : i_type d <> T_DEV) by (rewrite (dk_type _ _ D); done).
  destruct (writei_ok (set_blk b2 s) v w dp d (16 * Z.of_nat k) (new_entry name inum) R2 Hd K (dk_inode _ _ D) Ht)
    as (b3 & v' & d' & w' & E3 & R3 & Wt & Sw); [lia|rewrite Le; lia|by rewrite Le|].
  rewrite Le in E3, Sw. change (Z.of_nat 16) with 16 in *.
  assert (Ed : i_size d' = Z.max (i_size d) (16 * Z.of_nat k + 16)).
  { rewrite (wrote_size _ _ _ _ _ _ Wt) by lia. by rewrite Le. }
  assert (Nd : nents d' = Nat.max (nents d) (S k)).
  { unfold nents at 1, sizeof_dirent. rewrite Ed. replace (Z.max _ _) with (Z.of_nat (Nat.max (nents d) (S k)) * 16) by lia.
    rewrite Z.div_mul by lia. apply Nat2Z.id. }
  assert (D' : dir_ok v' d').
  { constructor.
    - apply Wt.
    - rewrite (wt_id _ _ _ _ _ _ Wt). exact (dk_type _ _ D).
    - exists (Nat.max (nents d) (S k)). unfold sizeof_dirent. lia. }
  exists b3, v', d', w'. split; [|split; [done|split; [apply Wt|split; [done|split; [|split; [done|]]]]]].
  - unfold dirlink. rewrite (bind_Done _ _ _ _ _ E1), (bind_Done _ _ _ _ _ (geti_ok (set_blk b1 s) dp d Hd)).
    rewrite (bind_Done _ _ _ _ _ E2). etransitivity; [apply bind_Done; exact E3|done].
  - intros nm. assert (Ee : entries v' d' = take k (entries v d) ++ new_entry name inum :: drop (S k) (entries v d)).
    { unfold entries. rewrite Nd, (wt_content _ _ _ _ _ _ Wt). replace (Z.to_nat (16 * Z.of_nat k)) with (16 * k)%nat by lia.
      apply dirents_splice; [|done|done]. unfold content. rewrite length_bytes. lia. }
    rewrite Ee. unfold k. rewrite (dget_put _ _ name) by (done || congruence || lia). by rewrite Ei.
  - destruct Hf as (_ & _ & Hb). lia.
Qed.


End Dirs.

End FsDir.
