(* ===== verification/FsPath.v ===== *)
(** * Walking path names (kernel/fs.c)

    [namei] and [nameiparent] against the tree of directories on disk, through
    the inode cache: they find the inode the elements of the path lead to, or
    fail when an element is missing or not in a directory, and in both cases give
    back every reference they took on the way. *)

From S2P Require Import Prelude Spinlock Bio Log Fs FsBlocks FsFile FsDir.

Module FsPath.
Import Fs FsBlocks FsFile FsDir.

Section Paths.
Context {B : Type} `{BlocksSpec B} `{!@Devices B}.

(** ** The tree on disk *)

(** Inode [n] as it is on disk. *)
Definition node (v : Z -> block) (n : Z) : inode :=
  dinode_get (islot n) (v (IBLOCK n)) (Inode bdev n 1 0 0 0 0 0 0 []).

(** [T] is a set of inodes closed under the entries of its directories. *)
Record tree (v : Z -> block) (T : Z -> Prop) : Prop := {
  tr_inode n : T n -> inode_ok v (node v n) /\ i_type (node v n) <> 0 /\ 1 <= i_nlink (node v n);
  tr_dir n : T n -> i_type (node v n) = T_DIR -> exists k : nat, i_size (node v n) = sizeof_dirent * Z.of_nat k;
  tr_entry n nm m : T n -> i_type (node v n) = T_DIR -> dget (entries v (node v n)) nm = Some m -> T m }.

(** Where the elements of a path lead; with [parent], the directory of the last one. *)
Fixpoint walk (v : Z -> block) (parent : bool) (n : Z) (es : list (list Z)) : option Z :=
  match es with
  | [] => if parent then None else Some n
  | e :: es' =>
      if negb (i_type (node v n) =? T_DIR) then None
      else if parent && bool_decide (es' = []) then Some n
      else match dget (entries v (node v n)) e with None => None | Some m => walk v parent m es' end
  end.

(** ** The cache *)

(** A cached inode: not read yet, or as on disk; and one nobody has locked. *)
Definition cached (v : Z -> block) (i : inode) : Prop :=
  i_flags i = 0 \/ (i_flags i = I_VALID \/ i_flags i = 3) /\ i = with_contents (node v (i_inum i)) i.
Definition free (i : inode) : Prop := i_flags i <> 3.
Definition unlocked (l : list inode) : Prop := forall k i, l !! k = Some i -> 0 < i_ref i -> free i.

Definition count (n : Z) (cur : list Z) : Z := Z.of_nat (length (filter (fun m => m = n) cur)).

(** The cache [l] holds [base n] references to inode [n] for others and one for
    each occurrence of [n] in [cur]; there is room for [spare] inodes. *)
Record cinv (v : Z -> block) (T : Z -> Prop) (base : Z -> Z) (S : gset Z) (spare : nat) (cur : list Z) (l : list inode) : Prop := {
  ci_nonneg k i : l !! k = Some i -> 0 <= i_ref i;
  ci_entry k i : l !! k = Some i -> 0 < i_ref i -> i_dev i = bdev /\ T (i_inum i) /\ cached v i;
  ci_uniq k k' i i' : l !! k = Some i -> l !! k' = Some i' -> 0 < i_ref i -> 0 < i_ref i' -> i_inum i = i_inum i' -> k = k';
  ci_ref k i : l !! k = Some i -> 0 < i_ref i -> i_ref i = base (i_inum i) + count (i_inum i) cur;
  ci_live n : 0 < base n + count n cur -> exists k i, l !! k = Some i /\ 0 < i_ref i /\ i_inum i = n;
  ci_base n : 0 <= base n < 2 ^ 30 /\ (0 < base n -> n ∈ S);
  ci_cur : (length cur <= spare)%nat;
  ci_room : (size S + spare <= length l)%nat /\ Z.of_nat spare < 2 ^ 30 }.

Lemma count_cons n m cur : count n (m :: cur) = count n cur + b2z (bool_decide (m = n)).
Proof.
  unfold count. destruct (decide (m = n)) as [E|E].
  - rewrite filter_cons_True, bool_decide_true by done. cbn. lia.
  - rewrite filter_cons_False, bool_decide_false by done. cbn. lia.
Qed.

Lemma count_bound n cur : 0 <= count n cur <= Z.of_nat (length cur).
Proof. unfold count. pose proof (length_filter (fun m => m = n) cur). lia. Qed.

Lemma count_in n cur : 0 < count n cur -> n ∈ cur.
Proof.
  unfold count. destruct (filter (fun m => m = n) cur) as [|m q] eqn:E; cbn; [lia|]. intros _.
  assert (Hm : m ∈ filter (fun m => m = n) cur) by (rewrite E; left). apply list_elem_of_filter in Hm as [-> ?]. done.
Qed.

(** A full cache holds more inodes than there are references to. *)
Lemma free_entry v T base S spare cur l : cinv v T base S spare cur l -> (length cur < spare)%nat ->
  exists k i, l !! k = Some i /\ i_ref i = 0.
Proof.
  intros C Hl. destruct (decide (Exists (fun i => i_ref i = 0) l)) as [He|He].
  { apply Exists_exists in He as (i & Hi & E). apply list_elem_of_lookup in Hi as [k Hk]. eauto. }
  exfalso. assert (P : forall k i, l !! k = Some i -> 0 < i_ref i).
  { intros k i Hk. pose proof (ci_nonneg _ _ _ _ _ _ _ C k i Hk). destruct (decide (i_ref i = 0)); [|lia].
    destruct He. apply Exists_exists. exists i. split; [by eapply list_elem_of_lookup_2|done]. }
  assert (Nd : NoDup (i_inum <$> l)).
  { apply NoDup_alt. intros k k' n Hk Hk'. rewrite list_lookup_fmap in Hk, Hk'.
    destruct (l !! k) as [i|] eqn:Ei; [|done]. destruct (l !! k') as [i'|] eqn:Ei'; [|done]. cbn in Hk, Hk'.
    apply (ci_uniq _ _ _ _ _ _ _ C k k' i i'); try done; [by eapply P|by eapply P|congruence]. }
  assert (Sub : (list_to_set (i_inum <$> l) : gset Z) ⊆ S ∪ list_to_set cur).
  { intros n Hn. apply elem_of_list_to_set, list_elem_of_fmap in Hn as (i & -> & Hi).
    apply list_elem_of_lookup in Hi as [k Hk]. pose proof (ci_ref _ _ _ _ _ _ _ C k i Hk (P k i Hk)) as Er. pose proof (P k i Hk).
    destruct (ci_base _ _ _ _ _ _ _ C (i_inum i)) as [Hb Hs]. apply elem_of_union.
    destruct (decide (0 < base (i_inum i))); [left; by apply Hs|]. right. apply elem_of_list_to_set, count_in. lia. }
  apply subseteq_size in Sub. rewrite size_list_to_set, length_fmap in Sub by done.
  assert (size (S ∪ list_to_set cur) <= size S + length cur)%nat.
  { rewrite size_union_alt. pose proof (size_list_to_set_le cur).
    assert (size (list_to_set cur ∖ S) <= size (list_to_set cur : gset Z))%nat by (apply subseteq_size; clear; set_solver). lia. }
  destruct (ci_room _ _ _ _ _ _ _ C). lia.
Qed.

(** An entry's contents changed, or read; its identity and count stay. *)
Lemma cinv_cached v T base S spare cur l k i i' : cinv v T base S spare cur l -> l !! k = Some i -> ids i' = ids i -> cached v i' ->
  cinv v T base S spare cur (<[k := i']> l).
Proof.
  intros [C1 C2 C3 C4 C5 C6 C7 C8] Hk [= Ed En Er] Hi. pose proof (lookup_lt_Some _ _ _ Hk) as Hl.
  assert (L : forall j x, <[k := i']> l !! j = Some x -> exists y, l !! j = Some y /\ ids x = ids y /\ (x = y \/ cached v x)).
  { intros j x Hx. destruct (decide (k = j)) as [<-|Ne].
    - rewrite list_lookup_insert_eq in Hx by done. injection Hx as <-. exists i. split; [done|]. split; [|by right].
      unfold ids. congruence.
    - rewrite list_lookup_insert_ne in Hx by done. exists x. split; [done|]. split; [done|by left]. }
  constructor; try done.
  - intros j x (y & Hy & [= _ _ E] & _)%L. rewrite E. by eapply C1.
  - intros j x (y & Hy & [= E1 E2 E3] & Hor)%L Hr. rewrite E3 in Hr. destruct (C2 j y Hy Hr) as (D1 & D2 & D3).
    rewrite E1, E2. split; [done|]. split; [done|]. by destruct Hor as [->|].
  - intros j j' x x' (y & Hy & [= _ E2 E3] & _)%L (y' & Hy' & [= _ E2' E3'] & _)%L. rewrite E2, E3, E2', E3'. by apply C3.
  - intros j x (y & Hy & [= _ E2 E3] & _)%L. rewrite E2, E3. by eapply C4.
  - intros n Hn. destruct (C5 n Hn) as (j & x & Hj & Hr & En'). destruct (decide (k = j)) as [<-|Ne].
    + exists k, i'. rewrite list_lookup_insert_eq by done. split; [done|]. rewrite Hk in Hj. injection Hj as <-.
      split; [congruence|congruence].
    + exists j, x. by rewrite list_lookup_insert_ne.
  - by rewrite length_insert.
Qed.

(** A reference to inode [n] more, held for us; [i'] is the entry with it. *)
Lemma cinv_more v T base S spare cur l k i i' n : cinv v T base S spare cur l -> (length cur < spare)%nat -> T n ->
  l !! k = Some i -> i_dev i' = bdev -> i_inum i' = n -> cached v i' -> i_ref i' = i_ref i + 1 ->
  (0 < i_ref i -> i_inum i = n) -> (i_ref i = 0 -> forall j x, l !! j = Some x -> 0 < i_ref x -> i_inum x <> n) ->
  cinv v T base S spare (n :: cur) (<[k := i']> l).
Proof.
  intros [C1 C2 C3 C4 C5 C6 C7 C8] Hc HT Hk Ed En Hi Er Hsame Hnew. pose proof (lookup_lt_Some _ _ _ Hk) as Hl.
  pose proof (C1 _ _ Hk) as Hr0.
  assert (Cases : forall j x, <[k := i']> l !! j = Some x -> (j = k /\ x = i') \/ (j <> k /\ l !! j = Some x)).
  { intros j x Hx. destruct (decide (k = j)) as [<-|Ne].
    - rewrite list_lookup_insert_eq in Hx by done. injection Hx as <-. by left.
    - rewrite list_lookup_insert_ne in Hx by done. by right. }
  assert (Other : forall j x, j <> k -> l !! j = Some x -> 0 < i_ref x -> i_inum x <> n).
  { intros j x Hj Hx Hr E. destruct (decide (i_ref i = 0)) as [E0|E0]; [by apply (Hnew E0 j x)|].
    apply Hj. apply (C3 j k x i); try done; [lia|]. rewrite Hsame; [done|lia]. }
  assert (Count : forall x, i_inum x <> n -> count (i_inum x) (n :: cur) = count (i_inum x) cur).
  { intros x Hx. rewrite count_cons, bool_decide_false by congruence. cbn. lia. }
  constructor; try done.
  - intros j x [[-> ->] | [Hj Hx]]%Cases; [lia|by eapply C1].
  - intros j x [[-> ->] | [Hj Hx]]%Cases Hr; [by rewrite En|by apply (C2 j)].
  - intros j j' x x' [[-> ->] | [Hj Hx]]%Cases [[-> ->] | [Hj' Hx']]%Cases Hr Hr' E; [done|..|by eapply C3].
    + by destruct (Other j' x'); try done; congruence.
    + by destruct (Other j x); try done; congruence.
  - intros j x [[-> ->] | [Hj Hx]]%Cases Hr.
    + rewrite Er, En, count_cons, bool_decide_true by done. cbn. destruct (decide (i_ref i = 0)) as [E0|E0].
      * destruct (decide (0 < base n + count n cur)) as [Hp|Hp].
        { destruct (C5 n Hp) as (j & x & Hj & Hx & Ex). by destruct (Hnew E0 j x). }
        pose proof (count_bound n cur). destruct (C6 n). lia.
      * rewrite (C4 k i Hk), Hsame by lia. lia.
    + rewrite Count by (by eapply Other). by eapply C4.
  - intros m Hm. destruct (decide (m = n)) as [->|Nm].
    + exists k, i'. rewrite list_lookup_insert_eq by done. split; [done|]. split; [lia|done].
    + rewrite count_cons, bool_decide_false in Hm by congruence. cbn in Hm.
      destruct (C5 m ltac:(lia)) as (j & x & Hj & Hr & Ex). exists j, x. split; [|done].
      rewrite list_lookup_insert_ne; [done|]. intros <-. rewrite Hk in Hj. injection Hj as <-. rewrite Hsame in Ex; [done|lia].
  - by rewrite length_insert.
Qed.

(** One of our references dropped. *)
Lemma cinv_less v T base S spare cur l k i n : cinv v T base S spare (n :: cur) l ->
  l !! k = Some i -> 0 < i_ref i -> i_inum i = n -> forall i', ids i' = (i_dev i, n, i_ref i - 1) -> cached v i' ->
  cinv v T base S spare cur (<[k := i']> l).
Proof.
  intros [C1 C2 C3 C4 C5 C6 C7 C8] Hk Hr En i' [= Ed' En' Er'] Hi. pose proof (lookup_lt_Some _ _ _ Hk) as Hl.
  assert (Cases : forall j x, <[k := i']> l !! j = Some x -> (j = k /\ x = i') \/ (j <> k /\ l !! j = Some x)).
  { intros j x Hx. destruct (decide (k = j)) as [<-|Ne].
    - rewrite list_lookup_insert_eq in Hx by done. injection Hx as <-. by left.
    - rewrite list_lookup_insert_ne in Hx by done. by right. }
  assert (Count : forall m, m <> n -> count m (n :: cur) = count m cur).
  { intros m Hm. rewrite count_cons, bool_decide_false by congruence. cbn. lia. }
  assert (CountN : count n (n :: cur) = count n cur + 1) by (rewrite count_cons, bool_decide_true by done; done).
  assert (Other : forall j x, j <> k -> l !! j = Some x -> 0 < i_ref x -> i_inum x <> n).
  { intros j x Hj Hx Hrx E. apply Hj. apply (C3 j k x i); try done. congruence. }
  constructor; try done.
  - intros j x [[-> ->] | [Hj Hx]]%Cases; [lia|by eapply C1].
  - intros j x [[-> ->] | [Hj Hx]]%Cases Hrx; [|by apply (C2 j)]. destruct (C2 k i Hk Hr) as (? & ? & _).
    rewrite Ed', En', <- En. done.
  - intros j j' x x' [[-> ->] | [Hj Hx]]%Cases [[-> ->] | [Hj' Hx']]%Cases Hrx Hrx' E; [done|..|by eapply C3].
    + by destruct (Other j' x'); try done; congruence.
    + by destruct (Other j x); try done; congruence.
  - intros j x [[-> ->] | [Hj Hx]]%Cases Hrx.
    + rewrite Er', En', (C4 k i Hk Hr), En, CountN. lia.
    + rewrite (C4 j x Hx Hrx), Count by (by eapply Other). done.
  - intros m Hm. destruct (decide (m = n)) as [->|Nm].
    + exists k, i'. rewrite list_lookup_insert_eq by done. split; [done|]. split; [|done].
      rewrite Er', (C4 k i Hk Hr), En, CountN. lia.
    + destruct (C5 m) as (j & x & Hj & Hrx & Ex); [by rewrite Count|]. exists j, x. split; [|done].
      rewrite list_lookup_insert_ne; [done|]. intros <-. congruence.
  - cbn in C7. lia.
  - by rewrite length_insert.
Qed.

(** ** The operations on the cache *)

Lemma alter_at {A} (f : A -> A) k (l : list A) i : l !! k = Some i -> alter f k l = <[k := f i]> l.
Proof.
  intros Hk. apply list_eq. intros j. pose proof (lookup_lt_Some _ _ _ Hk). destruct (decide (k = j)) as [<-|].
  - by rewrite list_lookup_alter_eq, list_lookup_insert_eq, Hk.
  - by rewrite list_lookup_alter_ne, list_lookup_insert_ne.
Qed.

(** The state with entry [k] set to [i]. *)
Definition with_i (k : nat) (i : inode) (s : fsys B) : fsys B := set_icache (<[k := i]> (icache s)) s.

Lemma upd_at (s : fsys B) k i f : icache s !! k = Some i -> upd_inode k f s = Done tt (with_i k (f i) s).
Proof. intros Hk. unfold upd_inode, modify, with_i. by rewrite (alter_at _ _ _ _ Hk). Qed.

(** A section under the cache's lock that changes one entry. *)
Lemma locked_upd {A} (s : fsys B) k i f (a : A) : ic_lock s = false -> icache s !! k = Some i ->
  (iacquire ;! upd_inode k f ;! irelease ;! ret a) s = Done a (with_i k (f i) s).
Proof.
  intros L Hk. unfold bind at 1, iacquire, Spinlock.acquire. rewrite L.
  assert (Hk' : icache (set_ic_lock true s) !! k = Some i) by done.
  rewrite (bind_Done _ _ _ _ _ (upd_at _ k i f Hk')). unfold with_i, set_icache, set_ic_lock. destruct s; cbn in *. by subst.
Qed.

Section Cached.
Context (v : Z -> block) (T : Z -> Prop) (base : Z -> Z) (S : gset Z) (spare : nat).
Notation inv := (cinv v T base S spare).

Lemma ref_small cur l k i : inv cur l -> l !! k = Some i -> 0 <= i_ref i < 2 ^ 31 - 1.
Proof.
  intros C Hk. pose proof (ci_nonneg _ _ _ _ _ _ _ C k i Hk). destruct (decide (i_ref i = 0)); [lia|].
  rewrite (ci_ref _ _ _ _ _ _ _ C k i Hk) by lia. pose proof (count_bound (i_inum i) cur).
  destruct (ci_base _ _ _ _ _ _ _ C (i_inum i)) as [? _]. pose proof (ci_cur _ _ _ _ _ _ _ C).
  destruct (ci_room _ _ _ _ _ _ _ C). lia.
Qed.

Lemma cached_ref r i : cached v i -> cached v (set_ref r i).
Proof.
  intros [Hf|[Hf Hc]]; [by left|right]. split; [done|]. change (i_inum (set_ref r i)) with (i_inum i).
  revert Hc. generalize (node v (i_inum i)). intros x Hc. exact (f_equal (set_ref r) Hc).
Qed.

Lemma iget_path s cur n : inv cur (icache s) -> (length cur < spare)%nat -> T n -> ic_lock s = false ->
  exists k i0 i, iget bdev n s = Done k (with_i k i s) /\ icache s !! k = Some i0 /\ i_inum i = n /\ 0 < i_ref i /\
    (0 < i_ref i0 -> i = set_ref (i_ref i0 + 1) i0) /\ (i_ref i0 = 0 -> i_flags i = 0) /\ inv (n :: cur) (<[k := i]> (icache s)).
Proof.
  intros C Hc HT L. pose proof (iget_scan_spec bdev n (icache s) 0 None) as Sp.
  assert (Un : iget bdev n s = match iget_scan bdev n (icache s) 0 None with
    | (Some i, _) => upd_inode i (fun ip => set_ref (s32 (i_ref ip + 1)) ip) ;! irelease ;! ret i
    | (None, None) => panic "iget: no inodes"
    | (None, Some e) => upd_inode e (set_ids bdev n 1 0) ;! irelease ;! ret e
    end (set_ic_lock true s)).
  { unfold iget. unfold bind at 1, iacquire, Spinlock.acquire. rewrite L. reflexivity. }
  assert (Fin : forall k i f, icache s !! k = Some i ->
    (upd_inode k f ;! irelease ;! ret k) (set_ic_lock true s) = Done k (with_i k (f i) s)).
  { intros k i f Hk. pose proof (locked_upd s k i f k L Hk) as E. unfold bind at 1, iacquire, Spinlock.acquire in E.
    by rewrite L in E. }
  rewrite Un. clear Un. destruct (iget_scan bdev n (icache s) 0 None) as [[k|] [e|]].
  1,2: destruct Sp as (k0 & i & -> & Hk & Hr & Ed & En); cbn [Nat.add] in *; pose proof (ref_small cur _ _ _ C Hk);
    exists k0, i, (set_ref (s32 (i_ref i + 1)) i); rewrite (Fin k0 i _ Hk), (s32_small (i_ref i + 1)) by lia;
    split; [done|]; split; [done|]; split; [done|]; split; [cbn; lia|]; split; [done|]; split; [lia|];
    destruct (ci_entry _ _ _ _ _ _ _ C k0 i Hk Hr) as (_ & _ & Hid); eapply (cinv_more _ _ _ _ _ _ _ k0 i); try done; [by apply cached_ref|intros; lia].
  - destruct Sp as [Hn (k & i & -> & Hk & Hr)]. cbn [Nat.add] in *. exists k, i, (set_ids bdev n 1 0 i). rewrite (Fin k i _ Hk).
    split; [done|]. split; [done|]. split; [done|]. split; [cbn; lia|]. split; [lia|]. split; [done|].
    eapply (cinv_more _ _ _ _ _ _ _ k i); try done; [by left|cbn; lia|intros; lia|].
    intros _ j x Hx Hrx Ex. destruct (ci_entry _ _ _ _ _ _ _ C j x Hx Hrx) as (Dx & _). pose proof (Hn j x Hx Dx Ex). lia.
  - destruct Sp as [_ Hf]. destruct (free_entry _ _ _ _ _ _ _ C Hc) as (k & i & Hk & Hr). by destruct (Hf k i Hk).
Qed.

(** Looking at an inode and letting it go again: what [ilock] reads is the disk. *)
Lemma ilock_cached s w k i : fs_ok v -> inode_ok v (node v (i_inum i)) -> i_type (node v (i_inum i)) <> 0 ->
  i_dev i = bdev -> cached v i -> rep (blk s) v ∅ w -> (size w < nbufs)%nat -> ic_lock s = false ->
  icache s !! k = Some i -> 0 < i_ref i -> free i ->
  exists bs, ilock (Some k) s = Done tt (with_i k (set_iflags 3 (with_contents (node v (i_inum i)) i)) (set_blk bs s)) /\ rep bs v ∅ w.
Proof.
  intros K Io Ht Ed Hid R Hw L Hk Hr Hfree. destruct (iblock_front v _ K (io_inum _ _ Io)) as (In & _ & _).
  change (i_inum (node v (i_inum i))) with (i_inum i) in In.
  assert (Eg : dinode_get (islot (i_inum i)) (v (IBLOCK (i_inum i))) i = with_contents (node v (i_inum i)) i) by done.
  destruct (IBLOCK_range _ In) as [_ Rn].
  destruct (hold _ _ _ _ _ R Rn) as (b & b1 & E1 & E2 & R1); [done|rewrite map_size_empty; lia|].
  destruct (let_go _ _ _ _ _ _ R1 (lookup_empty _) Rn) as (b2 & E3 & R2).
  unfold ilock. rewrite (bind_Done _ _ _ _ _ (geti_ok s k i Hk)). replace (i_ref i <? 1) with false by lia.
  set (s1 := set_ic_lock true s). assert (Ea : iacquire s = Done tt s1) by (unfold iacquire, Spinlock.acquire; by rewrite L).
  rewrite (bind_Done _ _ _ _ _ Ea), (bind_Done _ _ _ _ _ (geti_ok s1 k i Hk)).
  assert (Nb : iflag I_BUSY i = false) by (unfold iflag; destruct Hid as [-> | [[-> | E] _]]; done). rewrite Nb.
  rewrite (bind_Done _ _ _ _ _ (upd_at s1 k i _ Hk)).
  set (i1 := set_iflags (Z.lor (i_flags i) I_BUSY) i).
  assert (Er : irelease (with_i k i1 s1) = Done tt (with_i k i1 s)).
  { unfold irelease, Spinlock.release. cbn. unfold with_i, set_icache, set_ic_lock. cbn. by rewrite L. }
  rewrite (bind_Done _ _ _ _ _ Er). pose proof (lookup_lt_Some _ _ _ Hk) as Hl.
  assert (G1 : icache (with_i k i1 s) !! k = Some i1) by (by apply list_lookup_insert_eq).
  rewrite (bind_Done _ _ _ _ _ (geti_ok (with_i k i1 s) k i1 G1)). destruct Hid as [Ef|[[Ef|Ef] Ei]]; [..|done].
  - exists b2. split; [|done]. assert (Nv : iflag I_VALID i1 = false) by (unfold iflag, i1; cbn; by rewrite Ef). rewrite Nv.
    cbn [i_dev i_inum i1 set_iflags]. rewrite Ed.
    rewrite (bind_Done _ _ _ _ _ (on_blk_Done _ (with_i k i1 s) _ _ E1)), (bind_Done _ _ _ _ _ (on_blk_Done _ (set_blk b1 (with_i k i1 s)) _ _ E2)).
    rewrite (bind_Done _ _ _ _ _ (upd_at (set_blk b1 (with_i k i1 s)) k i1 _ G1)).
    set (i2 := dinode_get (islot (i_inum i)) (v (IBLOCK (i_inum i))) i1).
    rewrite (bind_Done _ _ _ _ _ (on_blk_Done _ (with_i k i2 (set_blk b1 (with_i k i1 s))) _ _ E3)).
    assert (G2 : icache (set_blk b2 (with_i k i2 (set_blk b1 (with_i k i1 s)))) !! k = Some i2).
    { cbn. rewrite list_insert_insert_eq. by apply list_lookup_insert_eq. }
    rewrite (bind_Done _ _ _ _ _ (upd_at _ k i2 _ G2)).
    assert (E4 : with_i k (set_iflags (Z.lor (i_flags i2) I_VALID) i2) (set_blk b2 (with_i k i2 (set_blk b1 (with_i k i1 s)))) =
      with_i k (set_iflags 3 (with_contents (node v (i_inum i)) i)) (set_blk b2 s)).
    { unfold with_i, set_blk, set_icache. cbn. rewrite !list_insert_insert_eq, Ef. done. }
    rewrite E4. assert (G3 : icache (with_i k (set_iflags 3 (with_contents (node v (i_inum i)) i)) (set_blk b2 s)) !! k =
      Some (set_iflags 3 (with_contents (node v (i_inum i)) i))) by (by apply list_lookup_insert_eq).
    rewrite (bind_Done _ _ _ _ _ (geti_ok _ k _ G3)). cbn [i_type set_iflags with_contents].
    by rewrite (proj2 (Z.eqb_neq _ _) Ht).
  - exists (blk s). split; [|done]. assert (Vv : iflag I_VALID i1 = true) by (unfold iflag, i1; cbn; by rewrite Ef). rewrite Vv.
    assert (Ec : set_iflags 3 (with_contents (node v (i_inum i)) i) = i1) by (unfold i1; rewrite Ef, <- Ei; done).
    rewrite Ec. by destruct s.
Qed.

Lemma ilock_path s cur w k i : tree v T -> fs_ok v -> rep (blk s) v ∅ w -> (size w < nbufs)%nat -> inv cur (icache s) -> ic_lock s = false ->
  icache s !! k = Some i -> 0 < i_ref i -> free i ->
  exists bs, ilock (Some k) s = Done tt (with_i k (set_iflags 3 (with_contents (node v (i_inum i)) i)) (set_blk bs s)) /\ rep bs v ∅ w.
Proof.
  intros Tr K R Hw C L Hk Hr Hfree. destruct (ci_entry _ _ _ _ _ _ _ C k i Hk Hr) as (Ed & HT & Hid).
  destruct (tr_inode _ _ Tr _ HT) as (Io & Ht & _). by apply ilock_cached.
Qed.

Lemma iunlock_ok (s : fsys B) k i : icache s !! k = Some i -> ic_lock s = false -> i_flags i = 3 -> 0 < i_ref i ->
  iunlock (Some k) s = Done tt (with_i k (set_iflags I_VALID i) s).
Proof.
  intros Hk L Hf Hr. unfold iunlock. rewrite (bind_Done _ _ _ _ _ (geti_ok s k i Hk)).
  assert (Fb : iflag I_BUSY i = true) by (unfold iflag; by rewrite Hf). rewrite Fb. replace (i_ref i <? 1) with false by lia.
  cbn [negb orb].
  pose proof (locked_upd s k i (fun i => set_iflags (Z.land (i_flags i) (Z.lnot I_BUSY)) i) tt L Hk) as E.
  cbv beta in E. rewrite Hf in E. change (Z.land 3 (Z.lnot I_BUSY)) with I_VALID in E. rewrite <- E.
  unfold bind. destruct (iacquire s) as [? s1| | | |]; try done. destruct (upd_inode k _ s1) as [? s2| | | |]; try done.
  by destruct (irelease s2) as [[] ?| | | |].
Qed.

(** [iput] of a file that still has a name. *)
Lemma iput_path (s : fsys B) k i : icache s !! k = Some i -> ic_lock s = false -> 0 < i_ref i < 2 ^ 31 ->
  i_flags i = 0 \/ 1 <= i_nlink i -> iput k s = Done tt (with_i k (set_ref (i_ref i - 1) i) s).
Proof.
  intros Hk L Hr Hn. set (s1 := set_ic_lock true s).
  assert (Ea : iacquire s = Done tt s1) by (unfold iacquire, Spinlock.acquire; by rewrite L).
  pose proof (locked_upd s k i (fun i => set_ref (s32 (i_ref i - 1)) i) tt L Hk) as E.
  rewrite (bind_Done _ _ _ _ _ Ea) in E. unfold iput. rewrite (bind_Done _ _ _ _ _ Ea), (bind_Done _ _ _ _ _ (geti_ok s1 k i Hk)).
  assert (G : (i_ref i =? 1) && iflag I_VALID i && (i_nlink i =? 0) = false).
  { destruct Hn as [Hf|Hn]; [unfold iflag; rewrite Hf|]; [by rewrite andb_false_r|].
    rewrite (proj2 (Z.eqb_neq (i_nlink i) 0)) by lia. apply andb_false_r. }
  rewrite G. unfold bind at 1, ret at 1. cbv beta in E. rewrite s32_small in E by lia. rewrite <- E.
  unfold bind. destruct (upd_inode k _ s1) as [? s2| | | |]; try done. by destruct (irelease s2) as [[] ?| | | |].
Qed.

Lemma iunlockput_ok (s : fsys B) k i : icache s !! k = Some i -> ic_lock s = false -> i_flags i = 3 -> 0 < i_ref i < 2 ^ 31 ->
  1 <= i_nlink i -> iunlockput k s = Done tt (with_i k (set_ref (i_ref i - 1) (set_iflags I_VALID i)) s).
Proof.
  intros Hk L Hf Hr Hn. unfold iunlockput. rewrite (bind_Done _ _ _ _ _ (iunlock_ok s k i Hk L Hf (proj1 Hr))).
  pose proof (lookup_lt_Some _ _ _ Hk) as Hl.
  rewrite (iput_path _ k (set_iflags I_VALID i)); [|by apply list_lookup_insert_eq|done|done|by right].
  unfold with_i, set_icache. cbn. by rewrite list_insert_insert_eq.
Qed.

Lemma cinv_swap a b cur l : inv (a :: b :: cur) l -> inv (b :: a :: cur) l.
Proof.
  intros [C1 C2 C3 C4 C5 C6 C7 C8].
  assert (E : forall n, count n (b :: a :: cur) = count n (a :: b :: cur)) by (intros n; rewrite !count_cons; lia).
  constructor; try done; intros *; rewrite E; [apply C4|apply C5].
Qed.

(** A locked inode has the contents of its disk inode. *)
Definition locked (n : Z) (i : inode) : Prop :=
  i_inum i = n /\ i_flags i = 3 /\ 0 < i_ref i /\ i_dev i = bdev /\ i = with_contents (node v n) i.

Lemma inode_ok_contents x i : inode_ok v x -> i_dev i = bdev -> i_inum i = i_inum x -> i = with_contents x i -> inode_ok v i.
Proof.
  intros [[F1 F2 F3 F4 F5] [D1 D2 D3 D4 D5 D6 D7] I3 I4 I5 I6] Ed En Ec. destruct i as [a b c d e f g h j k].
  injection Ec as E1 E2 E3 E4 E5 E6. cbn in *. subst. constructor; [constructor|constructor|..]; cbn; try done.
Qed.

Lemma locked_dir n i : tree v T -> T n -> locked n i -> i_type (node v n) = T_DIR ->
  dir_ok v i /\ entries v i = entries v (node v n).
Proof.
  intros Tr HT (En & Hf & Hr & Ed & Ec) Ht. destruct (tr_inode _ _ Tr n HT) as (Io & _ & _).
  assert (Es : i_size i = i_size (node v n) /\ i_addrs i = i_addrs (node v n) /\ i_type i = i_type (node v n)).
  { rewrite Ec. done. }
  destruct Es as (Es & Ea & Et). split.
  - constructor; [by eapply inode_ok_contents|congruence|]. rewrite Es. by apply (tr_dir _ _ Tr).
  - unfold entries, nents, content, bytes. rewrite Es. f_equal. apply list_fmap_ext. intros j z _.
    unfold fbyte, fblock, baddr, ind. by rewrite Ea.
Qed.

Lemma dget_cname es a b : cname DIRSIZ a = cname DIRSIZ b -> dget es a = dget es b.
Proof. intros E. induction es as [|e es IH]; [done|]. rewrite !dget_cons, IH. by rewrite E. Qed.

Lemma cname_prefix n l e : cname n l = take n e -> cname n e = take n e.
Proof.
  revert l e. induction n as [|n IH]; intros l e; [by destruct e|]. destruct e as [|c e]; [done|]. cbn.
  destruct l as [|d l]; [done|]. destruct (Z.eqb_spec d 0) as [|Hd]; [done|]. intros [= -> E].
  rewrite (proj2 (Z.eqb_neq _ _) Hd). f_equal. by eapply IH.
Qed.

Definition unlocked_but (k : nat) (l : list inode) : Prop :=
  forall j i, j <> k -> l !! j = Some i -> 0 < i_ref i -> free i.

(** Lock an inode we hold, and give it back. *)
Lemma enter_ok s cur w k i : tree v T -> fs_ok v -> rep (blk s) v ∅ w -> (size w < nbufs)%nat -> inv cur (icache s) ->
  unlocked (icache s) -> ic_lock s = false -> icache s !! k = Some i -> 0 < i_ref i ->
  exists bs i', ilock (Some k) s = Done tt (with_i k i' (set_blk bs s)) /\ rep bs v ∅ w /\ locked (i_inum i) i' /\
    i_ref i' = i_ref i /\ inv cur (<[k := i']> (icache s)) /\ unlocked_but k (<[k := i']> (icache s)).
Proof.
  intros Tr K R Hw C U L Hk Hr. destruct (ilock_path s cur w k i Tr K R Hw C L Hk Hr (U k i Hk Hr)) as (bs & E & R').
  destruct (ci_entry _ _ _ _ _ _ _ C k i Hk Hr) as (Ed & _ & _).
  set (i' := set_iflags 3 (with_contents (node v (i_inum i)) i)) in *.
  assert (Lk : locked (i_inum i) i') by (unfold i', locked; generalize (node v (i_inum i)); done).
  exists bs, i'. split; [done|]. split; [done|]. split; [done|]. split; [done|]. split.
  - apply (cinv_cached _ _ _ _ _ _ _ k i); [done|done|by unfold i', ids; generalize (node v (i_inum i))|].
    right. split; [by right|]. destruct Lk as (En & _ & _ & _ & Ec). by rewrite En.
  - intros j x Hj. rewrite list_lookup_insert_ne by done. apply U.
Qed.

Lemma leave_ok s cur k i n : tree v T -> T n -> inv (n :: cur) (icache s) -> unlocked_but k (icache s) -> ic_lock s = false ->
  icache s !! k = Some i -> locked n i ->
  let i' := set_ref (i_ref i - 1) (set_iflags I_VALID i) in
  iunlockput k s = Done tt (with_i k i' s) /\ inv cur (<[k := i']> (icache s)) /\ unlocked (<[k := i']> (icache s)).
Proof.
  intros Tr HT C U L Hk (En & Hf & Hr & Ed & Ec) i'. destruct (tr_inode _ _ Tr n HT) as (_ & _ & Hn).
  pose proof (ref_small _ _ _ _ C Hk). pose proof (lookup_lt_Some _ _ _ Hk) as Hl. split; [|split].
  - apply iunlockput_ok; try done; [lia|]. rewrite Ec. exact Hn.
  - apply (cinv_less _ _ _ _ _ _ _ k i n C Hk Hr En); [unfold i', ids; cbn; congruence|]. apply cached_ref.
    right. split; [by left|]. change (i_inum (set_iflags I_VALID i)) with (i_inum i). rewrite En.
    revert Ec. generalize (node v n). intros x Ec. exact (f_equal (set_iflags I_VALID) Ec).
  - intros j x. destruct (decide (k = j)) as [<-|Ne].
    + rewrite list_lookup_insert_eq by done. by intros [= <-] _.
    + rewrite list_lookup_insert_ne by done. by apply U.
Qed.

(** The rest of the walk from inode [m], as the loop leaves it. *)
Definition walked (w : gset Z) (cur : list Z) (parent : bool) (es : list (list Z)) (r : option Z)
    (o : outcome (fsys B) (option nat * list Z)) : Prop :=
  exists s' k' name', o = Done (k', name') s' /\ rep (blk s') v ∅ w /\ ic_lock s' = false /\ unlocked (icache s') /\
    match r with
    | None => k' = None /\ inv cur (icache s')
    | Some m => exists k i, k' = Some k /\ icache s' !! k = Some i /\ 0 < i_ref i /\ i_inum i = m /\ inv (m :: cur) (icache s') /\
        (parent = true -> exists e, last es = Some e /\ cname DIRSIZ name' = take DIRSIZ e)
    end.

(** Drop a reference to an inode nobody has locked. *)
Lemma drop_ok s cur k i : tree v T -> inv (i_inum i :: cur) (icache s) -> unlocked (icache s) -> ic_lock s = false ->
  icache s !! k = Some i -> 0 < i_ref i ->
  exists s', iput k s = Done tt s' /\ blk s' = blk s /\ ic_lock s' = false /\ unlocked (icache s') /\ inv cur (icache s').
Proof.
  intros Tr C U L Hk Hr. destruct (ci_entry _ _ _ _ _ _ _ C k i Hk Hr) as (Ed & HT & Hc). pose proof (ref_small _ _ _ _ C Hk).
  destruct (tr_inode _ _ Tr _ HT) as (_ & _ & Hn). pose proof (lookup_lt_Some _ _ _ Hk) as Hl. eexists.
  split; [apply (iput_path s k i); try done; [lia|]; destruct Hc as [?|[_ ->]]; [by left|by right]|].
  split; [done|]. split; [done|]. split.
  - intros j x Hj. cbn in Hj. apply list_lookup_insert_Some in Hj as [(<- & <- & _)|[_ Hj]]; [|by apply U with j].
    intros _. exact (U k i Hk Hr).
  - apply (cinv_less _ _ _ _ _ _ _ k i _ C Hk Hr eq_refl); [done|by apply cached_ref].
Qed.

(** One element: lock the directory, look the name up, let the directory go. *)
Lemma lookup_step s cur w k i name e : tree v T -> fs_ok v -> rep (blk s) v ∅ w -> (size w < nbufs)%nat ->
  inv (i_inum i :: cur) (icache s) -> unlocked_but k (icache s) -> ic_lock s = false -> icache s !! k = Some i -> locked (i_inum i) i ->
  T (i_inum i) -> i_type (node v (i_inum i)) = T_DIR -> (length cur + 2 <= spare)%nat -> cname DIRSIZ name = take DIRSIZ e ->
  match dget (entries v (node v (i_inum i))) e with
  | None => exists s1 s2, dirlookup k name s = Done None s1 /\ iunlockput k s1 = Done tt s2 /\
      rep (blk s2) v ∅ w /\ ic_lock s2 = false /\ unlocked (icache s2) /\ inv cur (icache s2)
  | Some m => exists s1 s2 off k2 i2, dirlookup k name s = Done (Some (k2, off)) s1 /\ iunlockput k s1 = Done tt s2 /\
      rep (blk s2) v ∅ w /\ ic_lock s2 = false /\ unlocked (icache s2) /\ inv (m :: cur) (icache s2) /\
      icache s2 !! k2 = Some i2 /\ 0 < i_ref i2 /\ i_inum i2 = m
  end.
Proof.
  intros Tr K R Hw C U L Hk Lk HT Ht Hsp Cn. set (n := i_inum i) in *. destruct (locked_dir n i Tr HT Lk Ht) as [D Ee].
  assert (En : dget (entries v (node v n)) e = dget (entries v i) name).
  { rewrite Ee. apply dget_cname. by rewrite Cn, (cname_prefix DIRSIZ name e Cn). }
  rewrite En. destruct (dirlookup_ok s v w k i name R Hk K D Hw) as (b1 & R1 & E1). unfold dget.
  destruct (dfind name (entries v i)) as [[j m]|] eqn:Ef; cbn [fmap option_fmap option_map snd].
  - assert (HTm : T m).
    { apply (tr_entry _ _ Tr n name m HT Ht). rewrite <- Ee. unfold dget. by rewrite Ef. }
    destruct (iget_path (set_blk b1 s) (n :: cur) m C) as (k2 & i0 & i2 & E2 & Hk2 & Em & Hr2 & Live & Dead & C2);
      [cbn; lia|done|done|]. cbn in Hk2. rewrite (bind_Done _ _ _ _ _ E2) in E1.
    set (s1 := with_i k2 i2 (set_blk b1 s)) in *. pose proof (lookup_lt_Some _ _ _ Hk2) as Hl2.
    assert (Lk' := Lk). destruct Lk' as (_ & Hf & Hr & Ed & Ec).
    assert (Hx : exists x, icache s1 !! k = Some x /\ locked n x /\ (k2 = k -> i_ref x = i_ref i + 1)).
    { cbn. destruct (decide (k2 = k)) as [->|Ne].
      - rewrite Hk in Hk2. injection Hk2 as <-. rewrite list_lookup_insert_eq by done. eexists. split; [done|].
        rewrite (Live Hr). split; [|done]. split; [done|]. split; [done|]. split; [cbn; lia|]. split; [done|].
        revert Ec. generalize (node v n). intros y Ec. exact (f_equal (set_ref _) Ec).
      - rewrite list_lookup_insert_ne by done. exists i. split; [done|]. split; [done|]. intros ->. done. }
    destruct Hx as (x & Hx & Lx & Hrx). pose proof (cinv_swap _ _ _ _ C2) as C2'.
    assert (U1 : unlocked_but k (icache s1)).
    { intros q y Hq Hy. cbn in Hy. apply list_lookup_insert_Some in Hy as [(<- & <- & _)|[_ Hy]]; [|by apply U with q].
      intros _. unfold free. destruct (decide (i_ref i0 = 0)) as [E0|E0]; [by rewrite Dead|].
      assert (0 < i_ref i0) by (pose proof (ci_nonneg _ _ _ _ _ _ _ C k2 i0 Hk2); lia). rewrite Live by done. by apply (U k2 i0). }
    destruct (leave_ok s1 (m :: cur) k x n Tr HT C2' U1 L Hx Lx) as (E3 & C3 & U3).
    set (x' := set_ref (i_ref x - 1) (set_iflags I_VALID x)) in *.
    assert (Hk2' : exists i2', <[k := x']> (icache s1) !! k2 = Some i2' /\ 0 < i_ref i2' /\ i_inum i2' = m).
    { destruct (decide (k2 = k)) as [->|Ne].
      - exists x'. rewrite list_lookup_insert_eq by (by eapply lookup_lt_Some). split; [done|].
        assert (x = i2) as -> by (cbn in Hx; rewrite list_lookup_insert_eq in Hx by done; congruence).
        split; [cbn; rewrite Hrx by done; lia|done].
      - exists i2. rewrite list_lookup_insert_ne by done. cbn. by rewrite list_lookup_insert_eq. }
    destruct Hk2' as (i2' & ? & ? & ?). exists s1, (with_i k x' s1), (16 * Z.of_nat j), k2, i2'.
    split; [exact E1|]. split; [exact E3|]. done.
  - destruct (leave_ok (set_blk b1 s) cur k i n Tr HT C U L Hk Lk) as (E3 & C3 & U3).
    eexists (set_blk b1 s), _. split; [exact E1|]. split; [exact E3|]. done.
Qed.

Lemma namex_loop_ok fuel parent s cur w k i path name : tree v T -> fs_ok v -> rep (blk s) v ∅ w -> (size w < nbufs)%nat ->
  inv (i_inum i :: cur) (icache s) -> unlocked (icache s) -> ic_lock s = false -> icache s !! k = Some i -> 0 < i_ref i ->
  (length cur + 2 <= spare)%nat -> Forall (fun c => c <> 0) path -> length name = DIRSIZ -> (length path <= fuel)%nat ->
  walked w cur parent (elements path) (walk v parent (i_inum i) (elements path)) (namex_loop fuel parent k path name s).
Proof.
  intros Tr K. revert s k i path name. induction fuel as [|fuel IH];
    intros s k i path name R Hw C U L Hk Hr Hsp Fp Ln Hf.
  all: pose proof (skipelem_spec path name Fp Ln) as Sk; cbn [namex_loop].
  all: destruct (skipelem path name) as [[path' name']|].
  1:{ destruct Sk as (e & _ & _ & _ & Hlt & _). lia. }
  1,3: rewrite Sk; cbn [walk]; destruct parent.
  1,3: destruct (drop_ok s cur k i Tr C U L Hk Hr) as (s' & E & Eb & L' & U' & C'); rewrite (bind_Done _ _ _ _ _ E);
    exists s', None, name; rewrite Eb; done.
  1,2: eexists s, (Some k), _; split; [done|]; split; [done|]; split; [done|]; split; [done|]; exists k, i; done.
  destruct Sk as (e & Ee & Cn & Ln' & Hlt & Hns & Hnil & Fp'). rewrite Ee. cbn [walk].
  destruct (ci_entry _ _ _ _ _ _ _ C k i Hk Hr) as (_ & HT & _). remember (i_inum i) as n eqn:En0.
  destruct (enter_ok s (n :: cur) w k i Tr K R Hw C U L Hk Hr) as (b1 & i1 & E1 & R1 & Lk & Er & C1 & U1). rewrite <- En0 in Lk.
  rewrite (bind_Done _ _ _ _ _ E1). set (s1 := with_i k i1 (set_blk b1 s)).
  assert (Hk1 : icache s1 !! k = Some i1) by (apply list_lookup_insert_eq; by eapply lookup_lt_Some).
  rewrite (bind_Done _ _ _ _ _ (geti_ok s1 k i1 Hk1)). assert (Lk' := Lk). destruct Lk' as (En & Hfl & Hr1 & Ed & Ec).
  assert (Et : i_type i1 = i_type (node v n)) by (rewrite Ec; done). rewrite Et.
  destruct (leave_ok s1 cur k i1 n Tr HT C1 U1 L Hk1 Lk) as (E2 & C2 & U2).
  destruct (negb (i_type (node v n) =? T_DIR)) eqn:Dt.
  { rewrite (bind_Done _ _ _ _ _ E2). eexists _, None, name'. done. }
  apply negb_false_iff, Z.eqb_eq in Dt.
  assert (Eq : bool_decide (path' = []) = bool_decide (elements path' = [])) by (by apply bool_decide_ext). rewrite <- Eq.
  destruct (parent && bool_decide (path' = [])) eqn:Dp.
  - apply andb_true_iff in Dp as [-> Dp]. apply bool_decide_eq_true in Dp.
    rewrite (bind_Done _ _ _ _ _ (iunlock_ok s1 k i1 Hk1 L Hfl Hr1)).
    eexists _, (Some k), name'. split; [done|]. split; [done|]. split; [done|].
    assert (Cc : cached v (set_iflags I_VALID i1)).
    { right. split; [by left|]. change (i_inum (set_iflags I_VALID i1)) with (i_inum i1). rewrite En.
      revert Ec. generalize (node v n). intros y Ec. exact (f_equal (set_iflags I_VALID) Ec). }
    split; [|exists k, (set_iflags I_VALID i1); split; [done|]; split; [|split; [done|split; [done|split]]]].
    + intros j x Hj. cbn in Hj. apply list_lookup_insert_Some in Hj as [(<- & <- & _)|[Nj Hj]]; [done|by apply U1 with j].
    + apply list_lookup_insert_eq. by eapply lookup_lt_Some.
    + apply (cinv_cached _ _ _ _ _ _ _ k i1); done.
    + intros _. exists e. split; [|done]. by rewrite (proj1 Hnil Dp).
  - rewrite <- En in HT, Dt, C1, Lk |- *. pose proof (lookup_step s1 cur w k i1 name' e Tr K R1 Hw C1 U1 L Hk1 Lk HT Dt Hsp Cn) as St.
    destruct (dget (entries v (node v (i_inum i1))) e) as [m|].
    + destruct St as (s2 & s3 & off & k2 & i2 & X1 & X2 & X3 & X4 & X5 & X6 & X7 & X8 & X9).
      rewrite (bind_Done _ _ _ _ _ X1), (bind_Done _ _ _ _ _ X2). rewrite <- X9 in X6.
      pose proof (IH s3 k2 i2 path' name' X3 Hw X6 X5 X4 X7 X8 Hsp Fp' Ln' ltac:(lia)) as W. rewrite X9 in W.
      destruct W as (s' & k' & nm & Y1 & Y2 & Y3 & Y4 & Y5). exists s', k', nm. do 4 (split; [done|]).
      destruct (walk v parent m (elements path')) as [q|]; [|done]. destruct Y5 as (k3 & i3 & ? & ? & ? & ? & ? & Y6).
      exists k3, i3. do 5 (split; [done|]). intros Hp. destruct (Y6 Hp) as (e' & El & ?). exists e'. split; [|done].
      by rewrite last_cons, El.
    + destruct St as (s2 & s3 & X1 & X2 & X3 & X4 & X5 & X6). rewrite (bind_Done _ _ _ _ _ X1), (bind_Done _ _ _ _ _ X2).
      eexists s3, None, name'. done.
Qed.

Lemma idup_path s cur k i : inv cur (icache s) -> (length cur < spare)%nat -> unlocked (icache s) -> ic_lock s = false ->
  icache s !! k = Some i -> 0 < i_ref i ->
  exists i', idup k s = Done k (with_i k i' s) /\ i_inum i' = i_inum i /\ 0 < i_ref i' /\
    inv (i_inum i :: cur) (<[k := i']> (icache s)) /\ unlocked (<[k := i']> (icache s)).
Proof.
  intros C Hc U L Hk Hr. pose proof (ref_small _ _ _ _ C Hk). destruct (ci_entry _ _ _ _ _ _ _ C k i Hk Hr) as (Ed & HT & Hi).
  pose proof (lookup_lt_Some _ _ _ Hk) as Hl.
  exists (set_ref (i_ref i + 1) i). split; [|split; [done|split; [cbn; lia|split]]].
  - unfold idup. rewrite (locked_upd s k i _ k L Hk). by rewrite s32_small by lia.
  - apply (cinv_more _ _ _ _ _ _ _ k i); try done; [by apply cached_ref|intros; lia].
  - intros j x Hj. apply list_lookup_insert_Some in Hj as [(<- & <- & _)|[_ Hj]]; [|by apply U with j].
    intros _. exact (U k i Hk Hr).
Qed.

Lemma unlocked_iget k i0 i (l : list inode) : unlocked l -> l !! k = Some i0 -> 0 <= i_ref i0 ->
  (0 < i_ref i0 -> i = set_ref (i_ref i0 + 1) i0) -> (i_ref i0 = 0 -> i_flags i = 0) -> unlocked (<[k := i]> l).
Proof.
  intros U Hk Hr Live Dead j x Hj. apply list_lookup_insert_Some in Hj as [(<- & <- & _)|[_ Hj]]; [|by apply U with j].
  intros _. unfold free. destruct (decide (i_ref i0 = 0)) as [E|E]; [by rewrite Dead|].
  rewrite Live by lia. apply (U k i0 Hk). lia.
Qed.

(** Where a walk starts: the root, or the working directory. *)
Definition start (path : list Z) (c : inode) : Z := if ch path 0 =? slash then ROOTINO else i_inum c.

(** C9: Path names are resolved along the directories on disk.  With the inode
    cache consistent, no inode locked and room for two more, [namex] of any path
    ends: it returns the inode that the elements of the path lead to, with one
    reference more (for [nameiparent], the directory of the last element, and the
    element in [name]), or 0 exactly when there is none; in both cases every other
    reference it took has been given back, nothing stays locked, and the disk is
    as before. *)
Theorem namex_walks s w cwd c path parent name : tree v T -> fs_ok v -> bdev = Log.ROOTDEV -> T ROOTINO ->
  rep (blk s) v ∅ w -> (size w < nbufs)%nat -> inv [] (icache s) -> (2 <= spare)%nat -> unlocked (icache s) -> ic_lock s = false ->
  (ch path 0 <> slash -> icache s !! cwd = Some c /\ 0 < i_ref c) ->
  Forall (fun b => b <> 0) path -> length name = DIRSIZ ->
  walked w [] parent (elements path) (walk v parent (start path c) (elements path)) (namex cwd path parent name s).
Proof.
  intros Tr K Hdev HR R Hw C Hsp U L Hc Fp Ln. unfold namex, start. destruct (Z.eqb_spec (ch path 0) slash) as [E|E].
  - rewrite <- Hdev. destruct (iget_path s [] ROOTINO C) as (k & i0 & i & E1 & Hk & En & Hr & Live & Dead & C1); [cbn; lia|done|done|].
    rewrite (bind_Done _ _ _ _ _ E1). rewrite <- En in C1 |- *.
    apply (namex_loop_ok (length path) parent (with_i k i s) [] w k i path name); try done.
    + apply (unlocked_iget k i0); try done. exact (ci_nonneg _ _ _ _ _ _ _ C k i0 Hk).
    + apply list_lookup_insert_eq. by eapply lookup_lt_Some.
  - destruct (Hc E) as [Hk Hr]. destruct (idup_path s [] cwd c C ltac:(cbn; lia) U L Hk Hr) as (i & E1 & En & Hr' & C1 & U1).
    rewrite (bind_Done _ _ _ _ _ E1). rewrite <- En in C1 |- *.
    apply (namex_loop_ok (length path) parent (with_i cwd i s) [] w cwd i path name); try done.
    apply list_lookup_insert_eq. by eapply lookup_lt_Some.
Qed.

End Cached.
End Paths.
End FsPath.
