(* ===== verification/FsDemo.v ===== *)
(** * A file system of eight blocks

    A disk with a root directory and a file, kept in memory, on which the theorems
    of FsFile.v, FsDir.v and FsPath.v apply. *)

From S2P Require Import Prelude Spinlock Bio Log Fs FsBlocks FsFile FsDir FsPath.

Module FsDemo.
Import Fs FsBlocks FsFile FsDir FsPath.

#[local] Existing Instances ram_blocks ram_spec.

(** Inode 1, the root: entries for itself and for [a], in block 5.  Inode 2, the
    file [a], is empty. *)
Definition root_i : inode := Inode 1 1 1 3 T_DIR 0 0 1 32 (5 :: replicate 12 0).
Definition file_i : inode := Inode 1 2 1 3 T_FILE 0 0 1 0 (replicate 13 0).
Definition name_a : list Z := [97].

Definition zeros : block := replicate 512 0.
Definition demo (z : Z) : block :=
  if z =? 1 then le_enc 4 8 ++ le_enc 4 2 ++ le_enc 4 8 ++ replicate 500 0
  else if z =? 2 then dinode_put 2 file_i (dinode_put 1 root_i zeros)
  else if z =? 4 then 63 :: replicate 511 0
  else if z =? 5 then new_entry [46] 1 ++ new_entry name_a 2 ++ replicate 480 0
  else zeros.
Definition demo_ram : ram := fun i => demo (Z.of_nat i).

Lemma demo_len z : length (demo z) = 512%nat.
Proof.
  unfold demo. destruct (z =? 1); [done|]. destruct (z =? 2); [vm_compute; done|]. destruct (z =? 4); [done|].
  destruct (z =? 5); [vm_compute; done|done].
Qed.

Lemma demo_rep : rep demo_ram demo ∅ ∅.
Proof.
  split; [|done]. intros sec Hs. rewrite lookup_empty. split; [apply demo_len|]. unfold demo_ram. by rewrite Z2Nat.id by lia.
Qed.

Lemma demo_sizes : Log.sb_size (sb demo) = 8 /\ Log.sb_ninodes (sb demo) = 8 /\ dstart demo = 5 /\ maps demo = {[4]}.
Proof. split_and!; vm_compute; reflexivity. Qed.

Lemma demo_map b : 0 <= b < 8 -> map_block demo b = 4.
Proof.
  intros Hb. unfold map_block. rewrite (proj1 (proj2 demo_sizes)). unfold BBLOCK, BPB. by rewrite Z.div_small by lia.
Qed.

Lemma demo_used b : 0 <= b < 8 -> used demo b = (b <? 6).
Proof.
  intros Hb. unfold used. rewrite demo_map by done. unfold BPB. rewrite Z.mod_small by lia.
  assert (b = 0 \/ b = 1 \/ b = 2 \/ b = 3 \/ b = 4 \/ b = 5 \/ b = 6 \/ b = 7) as K by lia.
  by destruct K as [-> | [-> | [-> | [-> | [-> | [-> | [-> | ->]]]]]]].
Qed.

Lemma demo_fs : fs_ok demo.
Proof.
  destruct demo_sizes as (Es & En & Ed & _). change home with 8.
  constructor; [constructor|..]; rewrite ?Es, ?En, ?Ed; change home with 8; try lia.
  - intros b Hb. unfold BPB. rewrite Z.div_small by lia. reflexivity.
  - intros _. by rewrite demo_used.
  - intros b Hb _. by rewrite demo_map, demo_used.
  - intros z Hz. rewrite demo_used by lia. lia.
Qed.

(** A file with at most one block. *)
Lemma one_block i a : i_addrs i = a :: replicate 12 0 -> i_dev i = 1 -> a = 0 \/ a = 5 -> file_ok demo i.
Proof.
  intros Ea Ed Ha. destruct demo_sizes as (Es & _ & Ed5 & _).
  assert (Ei : ind i = 0) by (unfold ind; by rewrite Ea).
  assert (Ba : forall n, 0 <= n < MAXFILE -> baddr demo i n = if n =? 0 then a else 0).
  { intros n Hn. unfold baddr, NDIRECT. rewrite Ei, Ea. destruct (Z.ltb_spec n (Z.of_nat 12)) as [Hl|Hl].
    - destruct (Z.eqb_spec n 0) as [->|]; [done|]. destruct (Z.to_nat n) as [|k] eqn:Ek; [lia|].
      change ((a :: replicate 12 0) !!! S k) with (replicate 12 0 !!! k). rewrite list_lookup_total_alt, lookup_replicate_2 by lia. done.
    - by rewrite (proj2 (Z.eqb_neq n 0)) by lia. }
  assert (Ow : forall z, owns demo i z -> z = 5).
  { intros z [Hz [E | (n & Hn & E)]]; [congruence|]. rewrite Ba in E by done. destruct (n =? 0); lia. }
  constructor; [done|by rewrite Ea|..].
  - intros z ->%Ow. rewrite Es, Ed5. split; [lia|]. split; [done|]. by rewrite demo_used.
  - intros n m Hn Hm. rewrite !Ba by done. destruct (Z.eqb_spec n 0), (Z.eqb_spec m 0); lia.
  - done.
Qed.

Lemma disk_fits i : - 2 ^ 15 <= i_type i < 2 ^ 15 -> i_major i = 0 -> i_minor i = 0 -> i_nlink i = 1 -> 0 <= i_size i < 2 ^ 32 ->
  (exists a, i_addrs i = a :: replicate 12 0 /\ (a = 0 \/ a = 5)) -> disk_inode i.
Proof.
  intros Ht H1 H2 H3 Hs (a & Ea & Ha). constructor; rewrite ?H1, ?H2, ?H3, ?Ea; try lia; [|done].
  constructor; [lia|]. apply Forall_replicate. lia.
Qed.

Lemma root_disk : disk_inode root_i.
Proof. apply disk_fits; try done. exists 5. split; [done|by right]. Qed.
Lemma file_disk : disk_inode file_i.
Proof. apply disk_fits; try done. exists 0. split; [done|by left]. Qed.

Lemma zeros_len : length zeros = 512%nat.
Proof. apply length_replicate. Qed.

Lemma root_len : length (dinode_put 1 root_i zeros) = 512%nat.
Proof. apply length_dinode_put; [lia|apply zeros_len|apply root_disk]. Qed.

Lemma demo_nodes e : dinode_get 1 (demo 2) e = with_contents root_i e /\ dinode_get 2 (demo 2) e = with_contents file_i e.
Proof.
  change (demo 2) with (dinode_put 2 file_i (dinode_put 1 root_i zeros)). split.
  - rewrite dinode_get_other by (lia || apply root_len || apply file_disk).
    apply dinode_get_put; [lia|apply zeros_len|apply root_disk].
  - apply dinode_get_put; [lia|apply root_len|apply file_disk].
Qed.

Lemma root_ok : inode_ok demo root_i.
Proof.
  constructor.
  - apply (one_block _ 5); [done|done|by right].
  - apply root_disk.
  - by rewrite (proj1 (proj2 demo_sizes)).
  - done.
  - intros k Hk. cbn in Hk. assert (E : k / BSIZE = 0) by (apply Z.div_small; unfold BSIZE; lia). by rewrite E.
  - intros e. apply demo_nodes.
Qed.

Lemma file_ok_demo : inode_ok demo file_i.
Proof.
  constructor.
  - apply (one_block _ 0); [done|done|by left].
  - apply file_disk.
  - by rewrite (proj1 (proj2 demo_sizes)).
  - done.
  - intros k Hk. cbn in Hk. lia.
  - intros e. apply demo_nodes.
Qed.

Lemma demo_room : room 2 demo.
Proof.
  exists [6; 7]. split; [repeat constructor; set_solver|]. split; [done|]. rewrite (proj1 demo_sizes).
  repeat constructor; try lia; by rewrite demo_used.
Qed.

#[local] Instance no_devices : @Devices ram := {| dev_read := fun _ => None; dev_write := fun _ => None |}.

(** Both inodes in the cache, locked. *)
Definition held : fsys ram := Fsys demo_ram false [root_i; file_i].

Lemma demo_cost i : ind i = 0 -> cost demo i ∅ = 2%nat.
Proof. intros E. unfold cost, indset, need. rewrite E, !decide_True, (proj2 (proj2 (proj2 demo_sizes))) by done. vm_compute. reflexivity. Qed.

Lemma demo_fits i off n : ind i = 0 -> nblk off n = 1%nat -> write_fits demo i ∅ off n.
Proof.
  intros E N. unfold write_fits. rewrite demo_cost, N by done. split; [|change cap with 10%nat; change nbufs with 10%nat; lia].
  unfold need. rewrite decide_True by done. apply demo_room.
Qed.

Lemma writei_readi_witness : exists s' s'', writei 1 [104; 105; 10] 0 3 held = Done 3 s' /\
  readi 1 0 10 s' = Done (3, [104; 105; 10]) s''.
Proof.
  assert (T : i_type file_i <> T_DEV) by discriminate. assert (N : nblk 0 3 = 1%nat) by (vm_compute; reflexivity).
  destruct (writei_readi held demo ∅ 1 file_i 0 [104; 105; 10] demo_rep eq_refl demo_fs file_ok_demo T ltac:(cbn; lia)
    ltac:(vm_compute; discriminate) (demo_fits file_i 0 3 eq_refl N)) as (s' & v' & i' & w' & E & _ & _ & Hi & Io & Rd & _).
  assert (Hs : 0 <= 0 <= i_size i') by (split; [lia|apply (di_size _ (io_disk _ _ Io))]).
  destruct (Rd 0 10 Hs ltac:(lia) ltac:(lia)) as (s'' & E'). exists s', s''. split; [exact E|exact E'].
Defined.

Lemma root_dir : dir_ok demo root_i.
Proof. constructor; [apply root_ok|done|]. exists 2%nat. done. Qed.

Lemma root_entries : entries demo root_i = [new_entry [46] 1; new_entry name_a 2].
Proof. vm_compute. reflexivity. Qed.


(** *** The tree *)

Definition in_tree (n : Z) : Prop := n = 1 \/ n = 2.

Lemma node_root : node demo 1 = with_contents root_i (Inode 1 1 1 0 0 0 0 0 0 []).
Proof. apply demo_nodes. Qed.
Lemma node_file : node demo 2 = with_contents file_i (Inode 1 2 1 0 0 0 0 0 0 []).
Proof. apply demo_nodes. Qed.

Lemma node_entries : entries demo (node demo 1) = [new_entry [46] 1; new_entry name_a 2].
Proof. rewrite node_root. vm_compute. reflexivity. Qed.

Lemma demo_tree : tree demo in_tree.
Proof.
  constructor.
  - intros n [-> | ->]; [rewrite node_root|rewrite node_file]; (split; [|split; [done|done]]).
    + by apply (inode_ok_contents demo root_i _ root_ok).
    + by apply (inode_ok_contents demo file_i _ file_ok_demo).
  - intros n [-> | ->]; [intros _; exists 2%nat; by rewrite node_root|rewrite node_file; done].
  - intros n nm m [-> | ->]; [intros _|rewrite node_file; done]. rewrite node_entries, !dget_cons.
    destruct (_ && _); [intros [= <-]; left; reflexivity|]. destruct (_ && _); [intros [= <-]; right; reflexivity|done].
Qed.

Lemma fresh_cinv : cinv demo in_tree (fun _ => 0) ∅ 2 [] (replicate NINODE zero_inode).
Proof.
  assert (Z0 : forall k i, replicate NINODE zero_inode !! k = Some i -> i_ref i = 0) by (by intros k i [-> _]%lookup_replicate).
  constructor.
  - intros k i ->%Z0. done.
  - intros k i ->%Z0. lia.
  - intros k k' i i' ->%Z0. lia.
  - intros k i ->%Z0. lia.
  - intros n Hn. pose proof (count_bound n []) as Hb. cbn [length] in Hb. lia.
  - intros n. split; [lia|intros ?; lia].
  - cbn. lia.
  - rewrite size_empty. vm_compute. split; [lia|done].
Qed.

(** The path [/a]. *)
Lemma namex_walks_witness : exists s' k i name', namex 0 [47; 97] false (replicate DIRSIZ 0) (iinit demo_ram) = Done (Some k, name') s' /\
  icache s' !! k = Some i /\ i_inum i = 2.
Proof.
  assert (W : walk demo false (start [47; 97] zero_inode) (elements [47; 97]) = Some 2) by (vm_compute; reflexivity).
  assert (U : unlocked (icache (iinit demo_ram))) by (intros k i [-> _]%lookup_replicate; discriminate).
  pose proof (namex_walks demo in_tree (fun _ => 0) ∅ 2 (iinit demo_ram) ∅ 0 zero_inode [47; 97] false (replicate DIRSIZ 0)
    demo_tree demo_fs eq_refl (or_introl eq_refl) demo_rep ltac:(vm_compute; lia) fresh_cinv ltac:(lia) U eq_refl
    ltac:(intros K; by destruct K) ltac:(repeat constructor; discriminate) eq_refl) as P.
  rewrite W in P. destruct P as (s' & k' & name' & E & _ & _ & _ & k & i & -> & Hk & _ & En & _).
  exists s', k, i, name'. split; [exact E|]. split; [exact Hk|exact En].
Defined.

End FsDemo.
