(* ===== verification/File.v ===== *)
(** * Open files (kernel/file.c, [pipealloc] of kernel/pipe.c)

    The table of open files and its operations, over the processes and the memory
    of Proc.v, the pipes of PipeMem.v and the file system of Fs.v with the
    transactions of a log below it.  The state of the files is the component
    [filest] of the kernel's state. *)

From stdpp Require Import functions.
From S2P Require Import Prelude Spinlock KString Kalloc Vm Proc Syscall PipeMem Fs.

Module File.
Import Proc Syscall.

Definition NFILE : nat := 100.
Definition LOGSIZE : Z := 10.

Inductive fdtype := FD_NONE | FD_PIPE | FD_INODE.

#[export] Instance fdtype_eq_dec : EqDecision fdtype.
Proof. solve_decision. Defined.

(** [pipe] is an address, [ip] the index of an inode of the cache. *)
Record file := MkFile {
  f_type : fdtype; f_ref : Z; f_readable : bool; f_writable : bool; f_pipe : Z; f_ip : nat; f_off : Z }.

Definition set_ref (r : Z) (f : file) : file :=
  MkFile (f_type f) r (f_readable f) (f_writable f) (f_pipe f) (f_ip f) (f_off f).
Definition set_type (t : fdtype) (f : file) : file :=
  MkFile t (f_ref f) (f_readable f) (f_writable f) (f_pipe f) (f_ip f) (f_off f).
Definition set_off (o : Z) (f : file) : file :=
  MkFile (f_type f) (f_ref f) (f_readable f) (f_writable f) (f_pipe f) (f_ip f) o.
Definition set_pipe (p : Z) (w : bool) (f : file) : file :=
  MkFile FD_PIPE (f_ref f) (negb w) w p (f_ip f) (f_off f).
Definition set_inode (ip : nat) (r w : bool) (f : file) : file :=
  MkFile FD_INODE (f_ref f) r w (f_pipe f) ip 0.

Definition no_file : file := MkFile FD_NONE 0 false false 0 0 0.

Record files (B : Type) := Files { fsy : Fs.fsys B; ftab : list file }.
Arguments Files {B} _ _.
Arguments fsy {B} _.
Arguments ftab {B} _.

Section Code.
Context {B : Type} `{Fs.Blocks B} `{!Fs.Trans B} `{!Fs.Devices (B:=B)} `{Linker} `{!Switch (files B)}.
Local Notation kst := (Proc.kst (files B)).

Definition set_fsy (x : Fs.fsys B) (s : kst) : kst := set_filest (Files x (ftab (filest s))) s.
Definition set_ftab (t : list file) (s : kst) : kst := set_filest (Files (fsy (filest s)) t) s.

(** An operation of the file system, and one of the log. *)
Definition fs_op {A} (m : M (Fs.fsys B) A) : M kst A := zoom (fun s => fsy (filest s)) set_fsy m.
Definition log_op {A} (m : M B A) : M kst A := fs_op (Fs.on_blk m).

Definition getf (f : nat) : M kst file := fun s =>
  match ftab (filest s) !! f with Some x => Done x s | None => Wild "file pointer" end.
Definition updf (f : nat) (g : file -> file) : M kst unit :=
  modify (fun s => set_ftab (alter g f (ftab (filest s))) s).

(** [ftable.lock] *)
Definition FTABLE : lock := LFtable.

(** [for (f = ftable.file; f < ftable.file + NFILE; f++)] *)
Fixpoint first_free (l : list file) (i : nat) : option nat :=
  match l with
  | [] => None
  | f :: l' => if f_ref f =? 0 then Some i else first_free l' (S i)
  end.

Definition filealloc : M kst (option nat) :=
  acquire FTABLE ;!
  let! t := gets (fun s => ftab (filest s)) in
  match first_free t 0 with
  | Some f => updf f (set_ref 1) ;! release FTABLE ;! ret (Some f)
  | None => release FTABLE ;! ret None
  end.

Definition filedup (f : nat) : M kst nat :=
  acquire FTABLE ;!
  let! x := getf f in
  if f_ref x <? 1 then panic "filedup"
  else updf f (set_ref (s32 (f_ref x + 1))) ;! release FTABLE ;! ret f.

Definition fileclose (f : nat) : M kst unit :=
  acquire FTABLE ;!
  let! x := getf f in
  if f_ref x <? 1 then panic "fileclose"
  else
    let ff := set_ref (f_ref x - 1) x in
    updf f (set_ref (f_ref ff)) ;!
    if f_ref ff >? 0 then release FTABLE
    else
      updf f (fun y => set_type FD_NONE (set_ref 0 y)) ;!
      release FTABLE ;!
      match f_type ff with
      | FD_PIPE => PipeMem.pipeclose (f_pipe ff) (f_writable ff)
      | FD_INODE => log_op Fs.begin_trans ;! fs_op (Fs.iput (f_ip ff)) ;! log_op Fs.commit_trans
      | FD_NONE => ret tt
      end.

(** The bytes of a [struct stat] that [stati] stores, with their offsets; the
    gaps behind the two shorts are left alone. *)
Definition stat_bytes (st : Fs.stat) : list (Z * list Z) := [
  (0, le_enc 2 (u16 (Fs.st_type st))); (4, le_enc 4 (u32 (Fs.st_dev st))); (8, le_enc 4 (Fs.st_ino st));
  (12, le_enc 2 (u16 (Fs.st_nlink st))); (16, le_enc 4 (Fs.st_size st))].

Definition filestat (me f : nat) (st : Z) : M kst Z :=
  let! x := getf f in
  match f_type x with
  | FD_INODE =>
      fs_op (Fs.ilock (Some (f_ip x))) ;!
      let! y := fs_op (Fs.stati (f_ip x)) in
      forM (stat_bytes y) (fun e => ustore me (st + e.1) e.2) ;!
      fs_op (Fs.iunlock (Some (f_ip x))) ;!
      ret 0
  | _ => ret (-1)
  end.

(** [fuel] bounds the sleeps of a pipe's reader or writer. *)
Definition fileread (fuel me f : nat) (addr n : Z) : M kst Z :=
  let! x := getf f in
  if negb (f_readable x) then ret (-1)
  else
    match f_type x with
    | FD_PIPE => PipeMem.piperead fuel me (f_pipe x) addr n
    | FD_INODE =>
        fs_op (Fs.ilock (Some (f_ip x))) ;!
        let! r := fs_op (Fs.readi (f_ip x) (f_off x) (u32 n)) in
        ustore me addr r.2 ;!
        when (r.1 >? 0) (updf f (fun y => set_off (u32 (f_off y + r.1)) y)) ;!
        fs_op (Fs.iunlock (Some (f_ip x))) ;!
        ret r.1
    | FD_NONE => panic "fileread"
    end.

Definition MAXWRITE : Z := ((LOGSIZE - 1 - 1 - 2) / 2) * 512.

(** [while (i < n)]; every turn but the last writes [MAXWRITE] bytes, so [n] turns
    are more than enough. *)
Fixpoint filewrite_loop (k me f : nat) (addr n i : Z) : M kst Z :=
  let end_ := ret (if i =? n then n else -1) in
  if i <? n then
    match k with
    | O => nofuel
    | S k' =>
        let n1 := Z.min (n - i) MAXWRITE in
        log_op Fs.begin_trans ;!
        let! x := getf f in
        fs_op (Fs.ilock (Some (f_ip x))) ;!
        let! src := uload me (addr + i) (Z.to_nat n1) in
        let! r := fs_op (Fs.writei (f_ip x) src (f_off x) n1) in
        when (r >? 0) (updf f (fun y => set_off (u32 (f_off y + r)) y)) ;!
        fs_op (Fs.iunlock (Some (f_ip x))) ;!
        log_op Fs.commit_trans ;!
        if r <? 0 then end_
        else if negb (r =? n1) then panic "short filewrite"
        else filewrite_loop k' me f addr n (i + r)
    end
  else end_.

Definition filewrite (fuel me f : nat) (addr n : Z) : M kst Z :=
  let! x := getf f in
  if negb (f_writable x) then ret (-1)
  else
    match f_type x with
    | FD_PIPE => PipeMem.pipewrite fuel me (f_pipe x) addr n
    | FD_INODE => filewrite_loop (Z.to_nat n) me f addr n 0
    | FD_NONE => panic "filewrite"
    end.

(** [pipealloc] with its two results; the page's old contents stay in [data]. *)
Definition pipealloc : M kst (option (nat * nat)) :=
  let! f0 := filealloc in
  match f0 with
  | None => ret None
  | Some f0 =>
      let! f1 := filealloc in
      match f1 with
      | None => fileclose f0 ;! ret None
      | Some f1 =>
          let! p := mem_op Kalloc.kalloc in
          if p =? 0 then fileclose f0 ;! fileclose f1 ;! ret None
          else
            PipeMem.set_pfield p PipeMem.P_READOPEN 1 ;!
            PipeMem.set_pfield p PipeMem.P_WRITEOPEN 1 ;!
            PipeMem.set_pfield p PipeMem.P_NWRITE 0 ;!
            PipeMem.set_pfield p PipeMem.P_NREAD 0 ;!
            modify (set_held (LPipe p) false) ;!
            updf f0 (set_pipe p false) ;!
            updf f1 (set_pipe p true) ;!
            ret (Some (f0, f1))
      end
  end.

End Code.
End File.
