(* ===== verification/FileOk.v ===== *)
(** * Reading and writing open files (kernel/file.c)

    [filewrite] cuts a write into transactions that fit into the log; [fileread]
    reads outside of any transaction.  Against the contracts of the log and of the
    block layer they are shown to do to the contents of a file what one write and
    one read would do. *)

From stdpp Require Import functions.
From S2P Require Import Prelude Spinlock KString Kalloc Vm Proc Syscall PipeMem Bio Log Fs FsBlocks FsFile FsDir FsPath File.

Module FileOk.
Import Proc Syscall File FsBlocks FsFile FsPath.

(** Two splices in a row. *)
Lemma splice_splice off a b c : (off <= length c)%nat -> splice (off + length a) b (splice off a c) = splice off (a ++ b) c.
Proof.
  intros Hl. unfold splice. rewrite length_app, <- !app_assoc.
  assert (L : length (take off c) = off) by (rewrite length_take; lia).
  rewrite take_app_ge by lia. rewrite L. replace (off + length a - off)%nat with (length a) by lia.
  rewrite take_app_length', <- app_assoc by done. f_equal. f_equal. f_equal.
  rewrite drop_app_ge by lia. rewrite L. rewrite drop_app_ge by lia. rewrite drop_drop. f_equal. lia.
Qed.

Lemma splice_nil off c : splice off [] c = c.
Proof. unfold splice. cbn. by rewrite Nat.add_0_r, take_drop. Qed.

Section Io.
Context {B : Type} `{TransSpec B} `{!Fs.Devices (B:=B)} `{Linker} `{!Switch (files B)}.
Local Notation kst := (Proc.kst (files B)).

(** Entry [ip] of the inode cache stands for inode [n] of the disk: it is in use,
    nobody has locked it, and it is not a device. *)
Record opened (v : Z -> Fs.block) (y : Fs.fsys B) (ip : nat) (n : Z) : Prop := {
  op_entry : exists i, Fs.icache y !! ip = Some i /\ Fs.i_inum i = n /\ 0 < Fs.i_ref i /\ Fs.i_dev i = bdev /\ cached v i /\ free i;
  op_lock : Fs.ic_lock y = false;
  op_inode : inode_ok v (node v n);
  op_type : Fs.i_type (node v n) <> 0 /\ Fs.i_type (node v n) <> Fs.T_DEV }.

(** The log holds a write of [MAXWRITE] bytes: four data blocks, the indirect
    block, the inode and all blocks of the bitmap. *)
Definition log_fits (v : Z -> Fs.block) : Prop := (size (maps v) + 5 < cap)%nat /\ (size (maps v) + 7 < nbufs)%nat.

Lemma cost_empty v i : (cost v i ∅ <= size (maps v) + 1)%nat.
Proof.
  unfold cost, indset, need. case_decide.
  - assert (E : maps v ∪ ∅ ∪ ∅ = maps v) by (clear; set_solver). rewrite E. lia.
  - pose proof (size_add (ind i) (maps v)). assert (E : maps v ∪ {[ind i]} ∪ ∅ = {[ind i]} ∪ maps v) by (clear; set_solver).
    rewrite E. lia.
Qed.

Lemma nblk_chunk off n : 0 <= off -> n <= MAXWRITE -> (nblk off n <= 4)%nat.
Proof.
  unfold nblk, MAXWRITE, LOGSIZE, Fs.BSIZE. intros Ho Hn. change ((10 - 1 - 1 - 2) / 2 * 512) with 1536 in Hn.
  destruct (Z.leb_spec n 0); [lia|]. Z.div_mod_to_equations. lia.
Qed.

(** What depends on the contents of an inode only. *)
Lemma owns_addrs v i j z : Fs.i_addrs i = Fs.i_addrs j -> owns v i z -> owns v j z.
Proof. intros E. unfold owns, baddr, ind. rewrite E. auto. Qed.

Lemma others_addrs v i j v' i' j' : Fs.i_addrs i = Fs.i_addrs j -> Fs.i_inum i = Fs.i_inum j -> Fs.i_addrs i' = Fs.i_addrs j' ->
  others_kept v i v' i' -> others_kept v j v' j'.
Proof.
  intros E En E' K x Hx Nx A. destruct (K x Hx) as (X1 & X2 & X3); [congruence| |].
  - intros z Hz Hz'. apply (A z Hz). by eapply owns_addrs.
  - split; [done|]. split; [done|]. intros z Hz Hz'. apply (X3 z Hz). by eapply owns_addrs; [symmetry|].
Qed.

Lemma others_trans v i v1 i1 v2 i2 : Fs.i_inum i1 = Fs.i_inum i ->
  others_kept v i v1 i1 -> others_kept v1 i1 v2 i2 -> others_kept v i v2 i2.
Proof.
  intros En K1 K2 x Hx Nx A. destruct (K1 x Hx Nx A) as (X1 & X2 & X3). destruct (K2 x X1) as (Y1 & Y2 & Y3); [congruence|done|].
  split; [done|]. split; [congruence|done].
Qed.

Lemma content_addrs v i j : Fs.i_addrs i = Fs.i_addrs j -> Fs.i_size i = Fs.i_size j -> content v i = content v j.
Proof.
  intros E Es. unfold content, bytes. rewrite Es. apply list_fmap_ext. intros k z _. unfold fbyte, fblock, baddr, ind. by rewrite E.
Qed.

(** An inode in step with the disk is the node there. *)
Lemma synced v i : inode_ok v i -> let x := node v (Fs.i_inum i) in
  Fs.i_addrs x = Fs.i_addrs i /\ Fs.i_size x = Fs.i_size i /\ Fs.i_type x = Fs.i_type i /\ Fs.i_nlink x = Fs.i_nlink i /\
  i = with_contents x i /\ inode_ok v x.
Proof.
  intros Io x. pose proof (io_sync _ _ Io (Fs.Inode bdev (Fs.i_inum i) 1 0 0 0 0 0 0 [])) as E. fold (node v (Fs.i_inum i)) in E.
  fold x in E. assert (Ex : x = with_contents i x) by (rewrite E; by destruct i). rewrite E. do 4 (split; [done|]).
  split; [by destruct i|]. rewrite <- E. by apply (inode_ok_contents v i).
Qed.

(** One turn of the loop of [filewrite], at the file system. *)
Lemma turn_ok (y : Fs.fsys B) v ip n off src r : idle (Fs.blk y) v ∅ -> fs_ok v -> opened v y ip n ->
  0 <= off <= Fs.i_size (node v n) -> off + Z.of_nat (length src) <= Fs.MAXFILE * Fs.BSIZE -> Z.of_nat (length src) <= MAXWRITE ->
  log_fits v -> room (nblk off (Z.of_nat (length src)) + need (node v n) + r) v ->
  exists b1 b2 b3 b4 v' i i', let y' := put ip (Fs.set_iflags Fs.I_VALID i') b4 y in
    Fs.on_blk Fs.begin_trans y = Done tt (Fs.set_blk b1 y) /\
    Fs.ilock (Some ip) (Fs.set_blk b1 y) = Done tt (put ip i b2 y) /\
    Fs.writei ip src off (Z.of_nat (length src)) (put ip i b2 y) = Done (Z.of_nat (length src)) (put ip i' b3 y) /\
    Fs.iunlock (Some ip) (put ip i' b3 y) = Done tt (put ip (Fs.set_iflags Fs.I_VALID i') b3 y) /\
    Fs.on_blk Fs.commit_trans (put ip (Fs.set_iflags Fs.I_VALID i') b3 y) = Done tt y' /\
    idle b4 v' ∅ /\ fs_ok v' /\ v' 1 = v 1 /\ opened v' y' ip n /\ room (need (node v' n) + r) v' /\
    content v' (node v' n) = splice (Z.to_nat off) src (content v (node v n)) /\
    Fs.i_size (node v' n) = Z.max (Fs.i_size (node v n)) (off + Z.of_nat (length src)) /\
    others_kept v (node v n) v' (node v' n).
Proof.
  intros I K [(i0 & Hi & En & Hr & Ed & Hc & Hf) L Io [Ht0 Htd]] Ho Hm Hn [Fl Fb] Rm. set (m := Z.of_nat (length src)) in *.
  destruct (begin_ok _ _ I) as (b1 & E1 & R1). pose proof (lookup_lt_Some _ _ _ Hi) as Hlt. rewrite <- En in *.
  destruct (ilock_cached v (Fs.set_blk b1 y) ∅ ip i0) as (b2 & E2 & R2); try done; [rewrite size_empty; lia|].
  set (i := Fs.set_iflags 3 (with_contents (node v (Fs.i_inum i0)) i0)) in *.
  assert (Ioi : inode_ok v i) by (by apply (inode_ok_contents v (node v (Fs.i_inum i0)))).
  assert (Hi2 : Fs.icache (put ip i b2 y) !! ip = Some i) by (by apply list_lookup_insert_eq).
  pose proof (cost_empty v i) as Hce. pose proof (nblk_chunk off m ltac:(lia) Hn) as Hnb.
  destruct (writei_room (put ip i b2 y) v ∅ ip i off src r R2 Hi2 K Ioi) as (b3 & v' & i' & w' & E3 & R3 & W & Hw & Rm'); try done.
  - fold m. lia.
  - fold m. lia.
  - fold m in E3, Hw. destruct (commit_ok b3 v' w' R3) as (b4 & E4 & I4); [lia|]. destruct W as [W1 W2 W3 W4 W5 W6].
    assert (Ids : Fs.i_inum i' = Fs.i_inum i0 /\ Fs.i_ref i' = Fs.i_ref i0 /\ Fs.i_flags i' = 3 /\ Fs.i_dev i' = bdev /\ Fs.i_type i' = Fs.i_type i).
    { rewrite W4. cbn. by rewrite Ed. }
    destruct Ids as (J1 & J2 & J3 & J4 & J5). destruct (synced v' i' W2) as (S1 & S2 & S3 & _ & S5 & S6). rewrite J1 in *.
    assert (Hi3 : Fs.icache (put ip i' b3 y) !! ip = Some i') by (by apply list_lookup_insert_eq).
    exists b1, b2, b3, b4, v', i, i'.
    split; [by apply on_blk_Done|]. split; [exact E2|].
    split; [rewrite E3; f_equal; apply put_put|].
    split; [rewrite (iunlock_ok (put ip i' b3 y) ip i') by (done || lia); f_equal; apply put_put|].
    split; [erewrite on_blk_Done by exact E4; f_equal|].
    do 3 (split; [done|]). split; [|split].
    + constructor; try done; [|by rewrite S3, J5]. exists (Fs.set_iflags Fs.I_VALID i').
      split; [by apply list_lookup_insert_eq|]. split; [done|]. split; [cbn; lia|]. split; [done|]. split; [|done].
      right. split; [by left|]. cbn [Fs.i_inum Fs.set_iflags]. rewrite J1. destruct i'; cbn in *. injection S5 as -> -> -> -> -> ->. done.
    + unfold need, ind in *. by rewrite S1.
    + split; [|split].
      * rewrite (content_addrs v' _ i') by done. rewrite W3. f_equal.
      * rewrite S2. pose proof (wrote_size v i off src v' i' ltac:(by constructor) Ho) as Ws. exact Ws.
      * by apply (others_addrs v i _ v' i').
Qed.

(** ** The loop of [filewrite] *)

(** The state with other files, and the same processes and memory. *)
Definition with_files (y : Fs.fsys B) (t : list file) (s : kst) : kst := set_filest (Files y t) s.

Lemma with_files_self (s : kst) : with_files (fsy (filest s)) (ftab (filest s)) s = s.
Proof. by destruct s as [? ? ? ? ? ? ? []]. Qed.

Lemma fs_op_Done {A} (m : M (Fs.fsys B) A) y t s a y' : m y = Done a y' ->
  fs_op m (with_files y t s) = Done a (with_files y' t s).
Proof. intros E. unfold fs_op, zoom. cbn. by rewrite E. Qed.

Lemma getf_ok y t s f x : t !! f = Some x -> getf f (with_files y t s) = Done x (with_files y t s).
Proof. intros E. unfold getf. cbn. by rewrite E. Qed.

Lemma updf_ok y t s f g x : t !! f = Some x -> updf f g (with_files y t s) = Done tt (with_files y (<[f := g x]> t) s).
Proof. intros E. unfold updf, modify. cbn. by rewrite (alter_at _ _ _ _ E). Qed.

Lemma user_files y t (s : kst) me p : user s me p -> user (with_files y t s) me p.
Proof. by intros [? ? ?]. Qed.

Lemma uload_files y t (s : kst) me p va n : user s me p -> 0 <= va -> va + Z.of_nat n <= sz p ->
  uload me va n (with_files y t s) = Done (ubyte s p <$> seqZ va (Z.of_nat n)) (with_files y t s).
Proof. intros U. apply (uload_ok (with_files y t s)). by apply user_files. Qed.

Definition turns (n : Z) : nat := Z.to_nat ((n + MAXWRITE - 1) / MAXWRITE).

(** The blocks that the transactions of a write touch, one transaction after the
    other. *)
Fixpoint wblocks (k : nat) (off n : Z) : nat :=
  match k with
  | O => 0
  | S k' => let n1 := Z.min n MAXWRITE in nblk off n1 + wblocks k' (off + n1) (n - n1)
  end.

Lemma turns_step n : 0 < n -> turns n = S (turns (n - Z.min n MAXWRITE)).
Proof.
  unfold turns, MAXWRITE, LOGSIZE. change ((10 - 1 - 1 - 2) / 2 * 512) with 1536. intros Hn.
  Z.div_mod_to_equations. lia.
Qed.

(** The caller's bytes [from, to) of its buffer. *)
Definition ubytes (s : kst) (p : proc) (addr from to : Z) : list Z := ubyte s p <$> seqZ (addr + from) (to - from).

Lemma ubytes_split s p addr a b c : a <= b <= c -> ubytes s p addr a c = ubytes s p addr a b ++ ubytes s p addr b c.
Proof.
  intros Hb. unfold ubytes. rewrite <- fmap_app. f_equal. replace (c - a) with ((b - a) + (c - b)) by lia.
  rewrite seqZ_app by lia. by replace (addr + a + (b - a)) with (addr + b) by lia.
Qed.

Lemma length_ubytes s p addr a b : Z.of_nat (length (ubytes s p addr a b)) = Z.max 0 (b - a).
Proof. unfold ubytes. rewrite length_fmap, length_seqZ. lia. Qed.

(** What [filewrite] has done to the file system [y], where the contents were [v]. *)
Record filewritten (v : Z -> Fs.block) (y : Fs.fsys B) (ip : nat) (num off : Z) (src : list Z)
    (v' : Z -> Fs.block) (y' : Fs.fsys B) : Prop := {
  fw_idle : idle (Fs.blk y') v' ∅;
  fw_fs : fs_ok v';
  fw_opened : opened v' y' ip num;
  fw_content : content v' (node v' num) = splice (Z.to_nat off) src (content v (node v num));
  fw_others : others_kept v (node v num) v' (node v' num);
  fw_cache jp : jp <> ip -> Fs.icache y' !! jp = Fs.icache y !! jp }.

Lemma filewritten_nil v y ip num off : idle (Fs.blk y) v ∅ -> fs_ok v -> opened v y ip num -> filewritten v y ip num off [] v y.
Proof. intros I K O. constructor; try done. by rewrite splice_nil. Qed.

Lemma filewritten_step v y ip num off a v1 y1 b v2 y2 : opened v y ip num -> 0 <= off <= Fs.i_size (node v num) ->
  filewritten v y ip num off a v1 y1 -> filewritten v1 y1 ip num (off + Z.of_nat (length a)) b v2 y2 ->
  filewritten v y ip num off (a ++ b) v2 y2.
Proof.
  intros O Ho [A1 A2 A3 A4 A5 A6] [B1 B2 B3 B4 B5 B6]. constructor; try done.
  - rewrite B4, A4. replace (Z.to_nat (off + Z.of_nat (length a))) with (Z.to_nat off + length a)%nat by lia.
    apply splice_splice. unfold content. rewrite length_bytes. lia.
  - by apply (others_trans v _ v1 (node v1 num)).
  - intros jp Nj. by rewrite B6, A6.
Qed.

Lemma filewrite_loop_ok k : forall (s : kst) p v me f x num addr n i, user s me p -> 0 <= addr -> addr + n <= sz p -> n < 2 ^ 31 ->
  ftab (filest s) !! f = Some x -> idle (Fs.blk (fsy (filest s))) v ∅ -> fs_ok v -> opened v (fsy (filest s)) (f_ip x) num ->
  0 <= f_off x <= Fs.i_size (node v num) -> f_off x + (n - i) <= Fs.MAXFILE * Fs.BSIZE -> log_fits v ->
  room (need (node v num) + wblocks (turns (n - i)) (f_off x) (n - i)) v -> 0 <= i <= n -> n - i <= Z.of_nat k ->
  exists v' y', filewrite_loop k me f addr n i s =
      Done n (with_files y' (<[f := set_off (f_off x + (n - i)) x]> (ftab (filest s))) s) /\
    filewritten v (fsy (filest s)) (f_ip x) num (f_off x) (ubytes s p addr i n) v' y'.
Proof.
  induction k as [|k IH]; intros s p v me f x num addr n i U Ha Hs Hn Hf I K O Ho Hm Fl Rm Hi Hk;
    (assert (Base : i = n -> exists v' y', ret (if i =? n then n else -1) s =
        Done n (with_files y' (<[f := set_off (f_off x + (n - i)) x]> (ftab (filest s))) s) /\
      filewritten v (fsy (filest s)) (f_ip x) num (f_off x) (ubytes s p addr i n) v' y');
     [intros ->; exists v, (fsy (filest s)); rewrite Z.eqb_refl, Z.sub_diag, Z.add_0_r; split;
       [unfold ret, with_files; rewrite list_insert_id by (rewrite Hf; by destruct x); by destruct s as [? ? ? ? ? ? ? []]
       |unfold ubytes; rewrite Z.sub_diag; by apply filewritten_nil]|]);
    cbn [filewrite_loop]; destruct (Z.ltb_spec i n) as [Hlt|Hge]; [lia|apply Base; lia| |apply Base; lia].
  clear Base. set (n1 := Z.min (n - i) MAXWRITE). assert (Hn1 : 0 < n1 <= n - i /\ n1 <= MAXWRITE).
  { unfold n1, MAXWRITE, LOGSIZE. change ((10 - 1 - 1 - 2) / 2 * 512) with 1536. lia. }
  set (src := ubytes s p addr i (i + n1)). assert (Ls : Z.of_nat (length src) = n1) by (unfold src; rewrite length_ubytes; lia).
  rewrite turns_step in Rm by lia. cbn [wblocks] in Rm. fold n1 in Rm.
  destruct (turn_ok (fsy (filest s)) v (f_ip x) num (f_off x) src (wblocks (turns (n - i - n1)) (f_off x + n1) (n - i - n1)) I K O)
    as (b1 & b2 & b3 & b4 & v1 & c & c' & E1 & E2 & E3 & E4 & E5 & I' & K' & S1 & O' & Rm' & Ct & Sz & Ot); try (done || lia).
  { rewrite Ls. eapply room_le; [|exact Rm]. lia. }
  rewrite Ls in E3, Sz. set (y := fsy (filest s)) in *. set (t := ftab (filest s)) in *.
  set (y1 := put (f_ip x) (Fs.set_iflags Fs.I_VALID c') b4 y) in *.
  set (x1 := set_off (f_off x + n1) x). assert (Lt : (f < length t)%nat) by (by eapply lookup_lt_Some).
  destruct (IH (with_files y1 (<[f := x1]> t) s) p v1 me f x1 num addr n (i + n1)) as (v' & y' & E & W).
  1: by apply user_files. 1-3: lia. 1: by apply list_lookup_insert_eq. 1-3: done. 1: rewrite Sz; cbn; lia. 1: cbn; lia.
  1: { unfold log_fits, maps. destruct (same_front v v1 K S1) as (_ & -> & -> & _). exact Fl. }
  1: by replace (n - (i + n1)) with (n - i - n1) by lia. 1,2: lia.
  exists v', y'. split.
  - rewrite <- (with_files_self s) at 1. fold y t.
    rewrite (bind_Done _ _ _ _ _ (fs_op_Done _ _ t s _ _ E1)), (bind_Done _ _ _ _ _ (getf_ok _ _ s _ _ Hf)).
    rewrite (bind_Done _ _ _ _ _ (fs_op_Done _ _ t s _ _ E2)).
    rewrite (bind_Done _ _ _ _ _ (uload_files (put (f_ip x) c b2 y) t s me p (addr + i) (Z.to_nat n1) U ltac:(lia) ltac:(lia))).
    assert (Es : ubyte s p <$> seqZ (addr + i) (Z.of_nat (Z.to_nat n1)) = src).
    { unfold src, ubytes. rewrite Z2Nat.id by lia. by replace (i + n1 - i) with n1 by lia. }
    rewrite Es. rewrite (bind_Done _ _ _ _ _ (fs_op_Done _ _ t s _ _ E3)). replace (n1 >? 0) with true by lia. cbn [when].
    rewrite (bind_Done _ _ _ _ _ (updf_ok _ t s _ _ _ Hf)). cbn [f_off].
    unfold Fs.MAXFILE, Fs.BSIZE in Hm. rewrite (u32_small (f_off x + n1)) by lia. fold x1.
    rewrite (bind_Done _ _ _ _ _ (fs_op_Done _ _ _ s _ _ E4)), (bind_Done _ _ _ _ _ (fs_op_Done _ _ _ s _ _ E5)).
    fold y1. replace (n1 <? 0) with false by lia. rewrite Z.eqb_refl. cbn [negb]. rewrite E. f_equal. unfold with_files. cbn.
    rewrite list_insert_insert_eq. unfold set_off, x1. cbn. by replace (f_off x + n1 + (n - (i + n1))) with (f_off x + (n - i)) by lia.
  - rewrite (ubytes_split s p addr i (i + n1) n) by lia. fold src.
    apply (filewritten_step v y _ _ _ src v1 y1); try done; [|by rewrite Ls].
    constructor; try done. intros jp Nj. cbn. by rewrite list_lookup_insert_ne.
Qed.


(** ** Stores to the caller's buffer *)

(** The [n] bytes at [va] are the process's own: writable, in pages of their own,
    which are neither free nor page tables; [l] lists the free pages. *)
Record buffer (s : kst) (p : proc) (l : list Z) (va n : Z) : Prop := {
  bf_wf : Vm.wf (km s) l (pgdir p);
  bf_target : Vm.target (km s) l (pgdir p) va n;
  bf_write v : va <= v < va + n -> exists e, Vm.pte (Kalloc.mm (km s)) (pgdir p) v = Some e /\ Vm.has e Vm.PTE_W = true }.

Lemma ka_pte m d va e x : Vm.pte m d va = Some e -> Vm.ka m d va = Some x -> x = p2v (PTE_ADDR e) + va mod PGSIZE.
Proof. unfold Vm.ka. intros ->. cbn. destruct (Vm.has e Vm.PTE_U); congruence. Qed.

(** A store of one byte. *)
Lemma ustore8_ok (s : kst) me p l va n b : procs (ptab s) !! me = Some p -> buffer s p l va n -> 0 < n ->
  exists x, let k := Kalloc.set_mm (<[x := u8 b]> (Kalloc.mm (km s))) (km s) in
    Vm.ka (Kalloc.mm (km s)) (pgdir p) va = Some x /\ ustore8 me va b s = Done tt (set_km k s) /\
    (forall v, Vm.pte (Kalloc.mm k) (pgdir p) v = Vm.pte (Kalloc.mm (km s)) (pgdir p) v) /\
    buffer (set_km k s) p l (va + 1) (n - 1).
Proof.
  intros Hp [Hwf [Ht Hinj] Hw] Hn. destruct (Ht va ltac:(lia)) as (q & Hq & Hka). destruct (Hw va ltac:(lia)) as (e & He & Wr).
  exists (q + va mod PGSIZE). intros k. pose proof (ka_pte _ _ _ _ _ He Hka) as Ex.
  destruct (Vm.write_data (km s) l (pgdir p) q (Kalloc.mm k) Hwf Hq) as (Hwf' & _ & Hpte & Hd).
  { intros c Hc. unfold k. cbn [Kalloc.mm Kalloc.set_mm]. rewrite KString.insert_at, decide_False; [done|]. intros <-. apply Hc. unfold Kalloc.in_page.
    pose proof (Z.mod_pos_bound va PGSIZE ltac:(done)). lia. }
  assert (Hk : forall v, Vm.ka (Kalloc.mm k) (pgdir p) v = Vm.ka (Kalloc.mm (km s)) (pgdir p) v)
    by (intros v; unfold Vm.ka; by rewrite Hpte).
  split; [done|]. split; [|split; [done|]].
  - unfold ustore8. rewrite (bind_Done _ _ _ _ _ (get_proc_at _ _ _ Hp)). unfold bind, gets. rewrite He.
    unfold Vm.has in Wr. destruct (Z.land e Vm.PTE_W =? 0); [done|]. unfold mem_op, zoom, modify. by rewrite <- Ex.
  - constructor; [exact Hwf'| |].
    + split.
      * intros v Hv. destruct (Ht v ltac:(lia)) as (r & Hr & Hkr). exists r. split; [by apply Hd|by rewrite <- Hkr].
      * intros v w x Hv Hw' E1 E2. rewrite Hk in E1, E2. apply (Hinj v w x); (done || lia).
    + intros v Hv. destruct (Hw v ltac:(lia)) as (e' & He' & Wr'). exists e'. split; [by rewrite <- He'|done].
Qed.

Lemma ustore_ok bs : forall (s : kst) me p l va, procs (ptab s) !! me = Some p -> buffer s p l va (Z.of_nat (length bs)) ->
  exists k, ustore me va bs s = Done tt (set_km k s) /\ Vm.wf k l (pgdir p) /\
    (forall v, Vm.pte (Kalloc.mm k) (pgdir p) v = Vm.pte (Kalloc.mm (km s)) (pgdir p) v) /\
    (forall i x, 0 <= i < Z.of_nat (length bs) -> Vm.ka (Kalloc.mm (km s)) (pgdir p) (va + i) = Some x ->
       Kalloc.mm k x = u8 (bs !!! Z.to_nat i)) /\
    (forall c, (forall i, 0 <= i < Z.of_nat (length bs) -> Vm.ka (Kalloc.mm (km s)) (pgdir p) (va + i) <> Some c) ->
       Kalloc.mm k c = Kalloc.mm (km s) c).
Proof.
  induction bs as [|b bs IH]; intros s me p l va Hp Bf; cbn [ustore length].
  { exists (km s). split; [by destruct s|]. split; [apply Bf|]. split_and!; try done. intros; lia. }
  destruct (ustore8_ok s me p l va _ b Hp Bf ltac:(cbn; lia)) as (x & Hx & E & Hpte & Bf'). cbn [length] in Bf'.
  replace (Z.of_nat (S (length bs)) - 1) with (Z.of_nat (length bs)) in Bf' by lia.
  set (k1 := Kalloc.set_mm _ (km s)) in *. destruct (IH (set_km k1 s) me p l (va + 1) Hp Bf') as (k & E' & Hwf & Hpte' & Hin & Hout).
  cbn [km set_km] in *. assert (Hk : forall v, Vm.ka (Kalloc.mm k1) (pgdir p) v = Vm.ka (Kalloc.mm (km s)) (pgdir p) v)
    by (intros v; unfold Vm.ka; by rewrite Hpte).
  assert (Hne : forall i, 0 <= i < Z.of_nat (length bs) -> Vm.ka (Kalloc.mm k1) (pgdir p) (va + 1 + i) <> Some x).
  { intros i Hi Ei. rewrite Hk in Ei. pose proof (Vm.target_inj _ _ _ _ _ (bf_target _ _ _ _ _ Bf) va (va + 1 + i) x) as J.
    cbn [length] in J. specialize (J ltac:(lia) ltac:(lia) Hx Ei). lia. }
  exists k. split; [by rewrite (bind_Done _ _ _ _ _ E), E'|]. split; [done|]. split; [intros v; by rewrite Hpte', Hpte|]. split.
  - intros i z Hi Hz. destruct (decide (i = 0)) as [->|Ni].
    + rewrite Z.add_0_r in Hz. assert (z = x) as -> by congruence. rewrite Hout by done. unfold k1. cbn [Kalloc.mm Kalloc.set_mm].
      by rewrite KString.insert_at, decide_True.
    + rewrite (Hin (i - 1) z); [|lia|rewrite Hk; by replace (va + 1 + (i - 1)) with (va + i) by lia].
      replace (Z.to_nat i) with (S (Z.to_nat (i - 1))) by lia. done.
  - intros c Hc. rewrite Hout.
    + unfold k1. cbn [Kalloc.mm Kalloc.set_mm]. rewrite KString.insert_at, decide_False; [done|]. intros <-. apply (Hc 0); [lia|]. by rewrite Z.add_0_r.
    + intros i Hi. rewrite Hk. replace (va + 1 + i) with (va + (1 + i)) by lia. apply Hc. lia.
Qed.

(** ** Reading between transactions *)

Lemma out_fs v : fs_ok v -> @fs_ok B _ outside v.
Proof. intros [[L1 L2 L3 L4 L5 L6] F2 F3 F4]. constructor; [by constructor|done..]. Qed.

Lemma out_inode v i : inode_ok v i -> @inode_ok B _ outside v i.
Proof. intros [[F1 F2 F3 F4 F5] I2 I3 I4 I5 I6]. constructor; [by constructor|done..]. Qed.

(** [ilock], [readi] and [iunlock] in a row, as in [fileread]. *)
Lemma read_turn (y : Fs.fsys B) v ip n off m : idle (Fs.blk y) v ∅ -> fs_ok v -> opened v y ip n -> (0 < nbufs)%nat ->
  0 <= off <= Fs.i_size (node v n) -> 0 <= m -> off + m < 2 ^ 32 ->
  let l := take (Z.to_nat m) (drop (Z.to_nat off) (content v (node v n))) in
  exists b1 b2 i, let y' := put ip (Fs.set_iflags Fs.I_VALID i) b2 y in
    Fs.ilock (Some ip) y = Done tt (put ip i b1 y) /\
    Fs.readi ip off m (put ip i b1 y) = Done (Z.of_nat (length l), l) (put ip i b2 y) /\
    Fs.iunlock (Some ip) (put ip i b2 y) = Done tt y' /\
    idle b2 v ∅ /\ opened v y' ip n.
Proof.
  intros I K [(i0 & Hi & En & Hr & Ed & Hc & Hf) L Io [Ht0 Htd]] Hb Ho Hm H32 l. pose proof (lookup_lt_Some _ _ _ Hi) as Hlt. subst n.
  destruct (@ilock_cached B _ outside v y ∅ ip i0 (out_fs _ K) (out_inode _ _ Io)) as (b1 & E1 & R1); try done.
  set (i := Fs.set_iflags 3 (with_contents (node v (Fs.i_inum i0)) i0)).
  assert (Hi1 : Fs.icache (put ip i b1 y) !! ip = Some i) by (by apply list_lookup_insert_eq).
  assert (Ioi : inode_ok v i) by (by apply (inode_ok_contents v (node v (Fs.i_inum i0)))).
  destruct (@readi_content B _ outside _ (put ip i b1 y) v ∅ ip i off m R1 Hi1 (out_fs _ K) (out_inode _ _ Ioi)) as (b2 & E2 & [_ R2]); try done.
  exists b1, b2, i. split; [exact E1|]. split; [exact E2|].
  assert (Hi2 : Fs.icache (put ip i b2 y) !! ip = Some i) by (by apply list_lookup_insert_eq).
  split; [rewrite (iunlock_ok (put ip i b2 y) ip i) by done; f_equal; apply put_put|]. split; [done|].
  constructor; try done. exists (Fs.set_iflags Fs.I_VALID i). split; [by apply list_lookup_insert_eq|].
  do 3 (split; [done|]). split; [|done]. right. split; [by left|done].
Qed.

Lemma fileread_ok (s : kst) p l v fuel me f x num addr n : procs (ptab s) !! me = Some p ->
  ftab (filest s) !! f = Some x -> f_readable x = true -> f_type x = FD_INODE ->
  idle (Fs.blk (fsy (filest s))) v ∅ -> fs_ok v -> opened v (fsy (filest s)) (f_ip x) num -> (0 < nbufs)%nat ->
  0 <= f_off x <= Fs.i_size (node v num) -> Fs.i_size (node v num) < 2 ^ 31 -> 0 <= n < 2 ^ 31 -> buffer s p l addr n ->
  let c := take (Z.to_nat n) (drop (Z.to_nat (f_off x)) (content v (node v num))) in
  exists y' k, fileread fuel me f addr n s = Done (Z.of_nat (length c))
      (set_km k (with_files y' (<[f := set_off (f_off x + Z.of_nat (length c)) x]> (ftab (filest s))) s)) /\
    idle (Fs.blk y') v ∅ /\ opened v y' (f_ip x) num /\
    (forall i z, 0 <= i < Z.of_nat (length c) -> Vm.ka (Kalloc.mm (km s)) (pgdir p) (addr + i) = Some z ->
       Kalloc.mm k z = u8 (c !!! Z.to_nat i)) /\
    (forall z, (forall i, 0 <= i < Z.of_nat (length c) -> Vm.ka (Kalloc.mm (km s)) (pgdir p) (addr + i) <> Some z) ->
       Kalloc.mm k z = Kalloc.mm (km s) z).
Proof.
  intros Hp Hf Hr Ht I K O Hb Ho H31 Hn Bf c. set (y := fsy (filest s)) in *. set (t := ftab (filest s)) in *.
  destruct (read_turn y v (f_ip x) num (f_off x) n I K O Hb Ho) as (b1 & b2 & i & E1 & E2 & E3 & I' & O'); [lia..|]. fold c in E2.
  set (y' := put (f_ip x) (Fs.set_iflags Fs.I_VALID i) b2 y) in *. set (lc := Z.of_nat (length c)) in *.
  assert (Lc : lc <= n /\ lc <= Fs.i_size (node v num) - f_off x).
  { unfold lc, c. rewrite length_take, length_drop. unfold content. rewrite length_bytes. lia. }
  assert (Bf' : buffer (with_files (put (f_ip x) i b2 y) t s) p l addr lc).
  { destruct Bf as [B1 [B2 B3] B4]. constructor; [done|split|]; intros; [apply B2|eapply B3|apply B4]; (eassumption || lia). }
  destruct (ustore_ok c (with_files (put (f_ip x) i b2 y) t s) me p l addr Hp Bf') as (k & E & _ & _ & Hin & Hout).
  exists y', k. split; [|split; [done|split; [done|split; [exact Hin|exact Hout]]]].
  rewrite <- (with_files_self s) at 1. fold y t. unfold fileread. rewrite (bind_Done _ _ _ _ _ (getf_ok y t s f x Hf)), Hr, Ht. cbn [negb].
  rewrite u32_small by lia.
  rewrite (bind_Done _ _ _ _ _ (fs_op_Done _ _ t s _ _ E1)), (bind_Done _ _ _ _ _ (fs_op_Done _ _ t s _ _ E2)). cbn [fst snd].
  rewrite (bind_Done _ _ _ _ _ E). fold lc. set (s1 := set_km k (with_files (put (f_ip x) i b2 y) t s)).
  assert (Eu : when (lc >? 0) (updf f (fun w => set_off (u32 (f_off w + lc)) w)) s1 =
    Done tt (with_files (put (f_ip x) i b2 y) (<[f := set_off (f_off x + lc) x]> t) (set_km k s))).
  { destruct (Z.gtb_spec lc 0) as [|Hz]; cbn [when].
    - change s1 with (with_files (put (f_ip x) i b2 y) t (set_km k s)). rewrite (updf_ok _ t _ f _ x Hf), u32_small by lia. done.
    - replace lc with 0 by lia. unfold ret. rewrite Z.add_0_r, list_insert_id by (rewrite Hf; by destruct x). done. }
  rewrite (bind_Done _ _ _ _ _ Eu), (bind_Done _ _ _ _ _ (fs_op_Done _ _ _ (set_km k s) _ _ E3)). done.
Qed.


End Io.
End FileOk.
