(* ===== verification/FileDemo.v ===== *)
(** * Files, processes and a disk in memory

    A machine with one process, whose memory is one page, and the eight-block disk
    of FsDemo.v below it; on it the theorems about open files apply. *)

From stdpp Require Import functions.
From S2P Require Import Prelude Spinlock KString Kalloc Vm Proc Syscall PipeMem Bio Log Fs FsBlocks FsFile FsDir FsPath FsDemo File FileOk.

Module FileDemo.
Import Proc Syscall File FsBlocks FsFile FsPath FsDemo FileOk.

#[local] Existing Instances Fs.ram_blocks ram_spec no_devices Kalloc.demo_linker.

(** A disk in memory needs no log. *)
#[local] Instance ram_trans : Fs.Trans Fs.ram := {| Fs.begin_trans := ret tt; Fs.commit_trans := ret tt |}.

#[local] Instance ram_trans_spec : TransSpec Fs.ram.
Proof.
  refine {| idle := fun s v h => rep s v h ∅ |}.
  - intros s v h sec R. by apply (rep_len s v h ∅).
  - intros s v h sec R Hs Hn Hb. apply bread_ok; try done. rewrite size_empty. lia.
  - intros s v h sec i x R. by apply (bdata_ok s v h ∅ sec).
  - intros s v h sec i x y R. by apply bstore_ok.
  - intros s v h sec i R. by apply brelse_ok.
  - intros s v R. by exists s.
  - intros s v w R _. by exists s.
Defined.

#[local] Instance alone : Switch (files Fs.ram) := {| swtch := fun _ => ret tt |}.

(** The bytes of [hi] and a newline at 100 in the process's page. *)
Definition page_mem : Kalloc.kmem :=
  Kalloc.set_mm (Vm.store_bytes (Vm.pg 2 + 100) [104; 105; 10] (Kalloc.mm Vm.one_page)) Vm.one_page.

Definition page_proc : proc := set_vm (Vm.pg 0) PGSIZE (set_pid 1 (set_state RUNNING zero_proc)).

(** Two open files of the empty file [a], one for writing and one for reading. *)
Definition wfile : file := MkFile FD_INODE 1 false true 0 1 0.
Definition rfile : file := MkFile FD_INODE 1 true false 0 1 0.

(** Both inodes are in the cache and not locked. *)
Definition cache : list Fs.inode := [Fs.set_iflags Fs.I_VALID root_i; Fs.set_iflags Fs.I_VALID file_i].

Definition machine : kst (files Fs.ram) :=
  {| km := page_mem; ptab := {| procs := [page_proc]; nextpid := 2 |}; cpu := Spinlock.Cpu 0 true true;
     Proc.held := fun _ => false; initproc := None; first_run := false; ticks := 0;
     filest := Files (Fs.Fsys demo_ram false cache) [wfile; rfile] |}.

Lemma page_ka v : 0 <= v < PGSIZE -> Vm.ka (Kalloc.mm Vm.one_page) (Vm.pg 0) v = Some (Vm.pg 2 + v) /\
  exists e, Vm.pte (Kalloc.mm Vm.one_page) (Vm.pg 0) v = Some e /\ Vm.has e Vm.PTE_W = true /\
    p2v (PTE_ADDR e) + v mod PGSIZE = Vm.pg 2 + v.
Proof.
  intros Hv. unfold Vm.ka, Vm.pte. rewrite Vm.PDX_eq, Vm.PTX_eq, u32_small by (unfold PGSIZE in Hv; lia).
  assert (E1 : v / 4194304 = 0) by (apply Z.div_small; unfold PGSIZE in Hv; lia).
  assert (E2 : v / 4096 = 0) by (apply Z.div_small; unfold PGSIZE in Hv; lia). rewrite E1, E2, (Z.mod_small v PGSIZE) by done.
  assert (T : Vm.table (Kalloc.mm Vm.one_page) (Vm.pg 0) 0 = Some (Vm.pg 1)) by (vm_compute; reflexivity).
  assert (L : load32 (Kalloc.mm Vm.one_page) (Vm.pg 1 + 4 * (0 mod 1024)) = v2p (Vm.pg 2) + 7) by (vm_compute; reflexivity).
  assert (F : PTE_ADDR (v2p (Vm.pg 2) + 7) = v2p (Vm.pg 2) /\ p2v (v2p (Vm.pg 2)) = Vm.pg 2) by (split; vm_compute; reflexivity).
  rewrite T. cbn [mbind option_bind]. rewrite L. change (Vm.has (v2p (Vm.pg 2) + 7) Vm.PTE_P) with true. cbn [mbind option_bind].
  change (Vm.has (v2p (Vm.pg 2) + 7) Vm.PTE_U) with true. rewrite (proj1 F), (proj2 F). split; [done|].
  eexists. split; [reflexivity|]. rewrite (proj1 F), (proj2 F). done.
Qed.

Lemma page_data : Vm.data_page Vm.one_page [] (Vm.pg 0) (Vm.pg 2).
Proof.
  split; [by apply Vm.pg_page|apply not_elem_of_nil|by vm_compute|]. intros i Hi. rewrite Vm.one_page_tables by done.
  case_decide; [|done]. intros [= E].
Qed.

Lemma page_mem_facts : Vm.wf page_mem [] (Vm.pg 0) /\
  (forall va, Vm.pte (Kalloc.mm page_mem) (Vm.pg 0) va = Vm.pte (Kalloc.mm Vm.one_page) (Vm.pg 0) va) /\
  Vm.data_page page_mem [] (Vm.pg 0) (Vm.pg 2).
Proof.
  destruct (Vm.write_data Vm.one_page [] (Vm.pg 0) (Vm.pg 2) (Kalloc.mm page_mem) Vm.one_page_wf page_data) as (W & _ & P & D).
  - intros b Hb. unfold page_mem. cbn [Kalloc.mm Kalloc.set_mm]. rewrite (Vm.store_bytes_stored _ _ _ b). unfold Kalloc.in_page, PGSIZE in Hb.
    cbn [length]. destruct (Z.leb_spec (Vm.pg 2 + 100) b), (Z.ltb_spec b (Vm.pg 2 + 100 + Z.of_nat 3)); cbn [andb]; try done. lia.
  - split; [exact W|]. split; [exact P|]. apply D, page_data.
Qed.

Lemma machine_user : user machine 0 page_proc.
Proof.
  constructor; [reflexivity|vm_compute; split; discriminate|]. intros va Hv. change (pgdir page_proc) with (Vm.pg 0).
  change (km machine) with page_mem. rewrite (proj1 (proj2 page_mem_facts)). destruct (page_ka va Hv) as [_ (e & -> & _)]. done.
Qed.

Lemma machine_buffer va n : 0 <= va -> 0 <= n -> va + n <= PGSIZE -> buffer machine page_proc [] va n.
Proof.
  intros Hv Hn Hp. change PGSIZE with 4096 in Hp. destruct page_mem_facts as (W & P & D).
  assert (K : forall v, 0 <= v < 4096 -> Vm.ka (Kalloc.mm page_mem) (Vm.pg 0) v = Some (Vm.pg 2 + v)).
  { intros v Hv'. unfold Vm.ka. rewrite P. apply (page_ka v Hv'). }
  constructor; [exact W|split|].
  - intros v Hv'. exists (Vm.pg 2). split; [exact D|]. rewrite (Z.mod_small v PGSIZE) by (unfold PGSIZE; lia). apply K. lia.
  - intros v w x Hv' Hw' E1 E2. change (Vm.ka (Kalloc.mm page_mem) (Vm.pg 0) v = Some x) in E1.
    change (Vm.ka (Kalloc.mm page_mem) (Vm.pg 0) w = Some x) in E2. rewrite K in E1, E2 by lia. injection E1. injection E2. lia.
  - intros v Hv'. destruct (page_ka v) as [_ (e & E & Hw & _)]; [unfold PGSIZE; lia|]. exists e. split; [|exact Hw].
    change (Vm.pte (Kalloc.mm page_mem) (Vm.pg 0) v = Some e). by rewrite P.
Qed.

Lemma machine_opened : opened demo (fsy (filest machine)) 1 2.
Proof.
  assert (E : with_contents file_i (Fs.Inode 1 2 1 0 0 0 0 0 0 []) = node demo 2) by (symmetry; apply demo_nodes).
  constructor; rewrite <- ?E.
  - exists (Fs.set_iflags Fs.I_VALID file_i). do 4 (split; [reflexivity|]). split; [|discriminate]. right. split; [by left|].
    change (Fs.i_inum (Fs.set_iflags Fs.I_VALID file_i)) with 2. rewrite <- E. reflexivity.
  - reflexivity.
  - apply (inode_ok_contents demo file_i); [apply file_ok_demo|reflexivity..].
  - split; discriminate.
Qed.


End FileDemo.
