(* ===== verification/Exec.v ===== *)
(** * Running a program (kernel/exec.c)

    [execve]: the program file is found and read through the file system, loaded
    into a new page directory, and the stack of the new image is built from the
    strings of the old one, given here by their bytes. *)

From stdpp Require Import functions.
From S2P Require Import Prelude Spinlock KString Kalloc Vm Proc Syscall PipeMem Fs File.

Module Exec.
Import Proc Syscall File.

Definition MAXARG : Z := 32.
Definition ELF_MAGIC : Z := 1179403647.
Definition ELF_PROG_LOAD : Z := 1.
Definition sizeof_elfhdr : Z := 52.
Definition sizeof_proghdr : Z := 32.

(** The fields of [struct elfhdr] and [struct proghdr] that are used. *)
Record elfhdr := Elf { elf_magic : Z; elf_entry : Z; elf_phoff : Z; elf_phnum : Z }.
Definition get_elfhdr (x : list Z) : elfhdr := Elf (get32 x 0) (get32 x 24) (get32 x 28) (get16 x 44).

Record proghdr := Ph { ph_type : Z; ph_off : Z; ph_vaddr : Z; ph_filesz : Z; ph_memsz : Z }.
Definition get_proghdr (x : list Z) : proghdr := Ph (get32 x 0) (get32 x 4) (get32 x 8) (get32 x 16) (get32 x 20).

(** ** The stack of the new image *)

(** [ustack[4 + MAXARG * 2 + 2]] *)
Definition USTACK : nat := 70.

Section Stack.
Context `{Linker}.

Definition set_ustack {S} (k : nat) (v : Z) (u : list Z) : M S (list Z) :=
  if (k <? length u)%nat then ret (<[k := u32 v]> u) else wild "exec: write behind ustack".

Definition ustack_bytes (n : nat) (u : list Z) : list Z := concat (le_enc 4 <$> take n u).

(** One of the two loops that push strings: [base] is 5 for the environment and 4
    for the arguments, [stop] the test at the head of the body.  The result is
    [sp], the number of strings, and [ustack]; [None] is a jump to [bad]. *)
Fixpoint push_strings (stop : Z -> bool) (base : nat) (pgdir : Z) (l : list (list Z)) (n : nat) (sp : Z) (u : list Z) :
    M Kalloc.kmem (option (Z * nat * list Z)) :=
  match l with
  | [] => ret (Some (sp, n, u))
  | str :: l' =>
      if stop (Z.of_nat n) then ret None
      else
        let sp := Z.land (u32 (sp - (Z.of_nat (length str) + 1))) (u32 (Z.lnot 3)) in
        let! r := Vm.copyout pgdir sp (str ++ [0]) in
        if r <? 0 then ret None
        else let! u := set_ustack (base + n) sp u in push_strings stop base pgdir l' (S n) sp u
  end.

(** [i] is the loop variable of the loop over the program headers. *)
Definition push_stack (pgdir i sz : Z) (argv env : list (list Z)) (u : list Z) : M Kalloc.kmem (option Z) :=
  let! u := set_ustack 0 4294967295 u in
  let! r := push_strings (fun _ => i >=? MAXARG) 5 pgdir env 0 sz u in
  match r with
  | None => ret None
  | Some (sp, envc, u) =>
      let! u := set_ustack 3 (sp - (Z.of_nat envc + 1) * 4) u in
      let! u := set_ustack (5 + envc) 0 u in
      let sp := u32 (sp - (5 + Z.of_nat envc + 1) * 4) in
      let! r := Vm.copyout pgdir sp (ustack_bytes (4 + envc + 1) u) in
      if r <? 0 then ret None
      else
        let! r := push_strings (fun argc => argc >=? MAXARG) 4 pgdir argv 0 sp u in
        match r with
        | None => ret None
        | Some (sp, argc, u) =>
            let! u := set_ustack 1 (Z.of_nat argc) u in
            let! u := set_ustack 2 (sp - (Z.of_nat argc + 1) * 4) u in
            let! u := set_ustack (4 + argc) 0 u in
            let sp := u32 (sp - (4 + Z.of_nat argc + 1) * 4) in
            let! r := Vm.copyout pgdir sp (ustack_bytes (4 + argc + 1) u) in
            if r <? 0 then ret None else ret (Some sp)
        end
  end.

End Stack.

(** The bytes behind the last slash of a path. *)
Fixpoint last_name (last s : list Z) : list Z :=
  match s with
  | [] => last
  | c :: s' => last_name (if c =? Fs.slash then s' else last) s'
  end.

Section Code.
Context {B : Type} `{Fs.Blocks B} `{!Fs.Trans B} `{!Fs.Devices (B:=B)} `{DataSegment} `{!Switch (files B)}.
Local Notation kst := (Proc.kst (files B)).

(** What the kernel's stack holds where [elf] and [ustack] are placed. *)
Variables elf0 ustack0 : list Z.

(** [proc->cwd], which a path that starts at the root does not need. *)
Definition from_cwd {A} (me : nat) (path : list Z) (k : nat -> M kst A) : M kst A :=
  let! p := get_proc me in
  match cwd p with
  | Some c => k c
  | None => if Fs.ch path 0 =? Fs.slash then k O else wild "no current directory"
  end.

(** [readi] with the bytes stored at a kernel address. *)
Definition readi_to (ip : nat) (dst off n : Z) : M kst Z :=
  let! r := fs_op (Fs.readi ip off n) in
  mem_op (Vm.copy_in dst r.2) ;!
  ret r.1.

(** The loop over the program headers, of which [k] are left. *)
Fixpoint load_segments (k : nat) (ip : nat) (pgdir sz off : Z) : M kst (option Z) :=
  match k with
  | O => ret (Some sz)
  | S k' =>
      let! r := fs_op (Fs.readi ip off sizeof_proghdr) in
      if negb (r.1 =? sizeof_proghdr) then ret None
      else
        let ph := get_proghdr r.2 in
        let next sz := load_segments k' ip pgdir sz (u32 (off + sizeof_proghdr)) in
        if negb (ph_type ph =? ELF_PROG_LOAD) then next sz
        else if ph_memsz ph <? ph_filesz ph then ret None
        else
          let! sz := mem_op (Vm.allocuvm pgdir sz (u32 (ph_vaddr ph + ph_memsz ph))) in
          if sz =? 0 then ret None
          else
            let! r := Vm.loaduvm (fun A => mem_op) (readi_to ip) pgdir (ph_vaddr ph) (ph_off ph) (ph_filesz ph) in
            if r <? 0 then ret None else next sz
  end.

(** The part from the reading of the header to [iunlockput]: the page directory,
    and the header with the size if nothing went wrong. *)
Definition load_program (ip : nat) : M kst (Z * option (elfhdr * Z)) :=
  let! r := fs_op (Fs.readi ip 0 sizeof_elfhdr) in
  let elf := get_elfhdr (poke 0 r.2 elf0) in
  if u32 r.1 <? sizeof_elfhdr then ret (0, None)
  else if negb (elf_magic elf =? ELF_MAGIC) then ret (0, None)
  else
    let! pgdir := mem_op Vm.setupkvm in
    if pgdir =? 0 then ret (0, None)
    else
      let! r := load_segments (Z.to_nat (elf_phnum elf)) ip pgdir 0 (elf_phoff elf) in
      ret (pgdir, match r with Some sz => Some (elf, sz) | None => None end).

Definition execve (me : nat) (path : list Z) (argv env : list (list Z)) : M kst Z :=
  let! ip := from_cwd me path (fun c => fs_op (Fs.namei c path)) in
  match ip with
  | None => ret (-1)
  | Some ip =>
      fs_op (Fs.ilock (Some ip)) ;!
      let! r := load_program ip in
      let pgdir := r.1 in
      let bad := when (negb (pgdir =? 0)) (mem_op (Vm.freevm pgdir)) in
      match r.2 with
      | None => bad ;! fs_op (Fs.iunlockput ip) ;! ret (-1)
      | Some (elf, sz) =>
          fs_op (Fs.iunlockput ip) ;!
          let sz := PGROUNDUP sz in
          let! sz := mem_op (Vm.allocuvm pgdir sz (u32 (sz + 2 * PGSIZE))) in
          if sz =? 0 then bad ;! ret (-1)
          else
            mem_op (Vm.clearpteu pgdir (sz - 2 * PGSIZE)) ;!
            let! sp := mem_op (push_stack pgdir (elf_phnum elf) sz argv env ustack0) in
            match sp with
            | None => bad ;! ret (-1)
            | Some sp =>
                on_proc me (set_name (take 15 (last_name path path))) ;!
                let! p := get_proc me in
                on_proc me (set_vm pgdir sz) ;!
                mem_op (Vm.st (tf p + tf_eip) (elf_entry elf)) ;!
                mem_op (Vm.st (tf p + tf_esp) sp) ;!
                mem_op (Vm.freevm (Proc.pgdir p)) ;!
                ret 0
            end
      end
  end.

End Code.
End Exec.
