(* ===== verification/Sysfile.v ===== *)
(** * File system calls (kernel/sysfile.c)

    The system calls on files, for the process [me]: arguments are fetched and
    checked as in Syscall.v, paths are the bytes of the user's strings, and the
    rest is calls of File.v, Fs.v and Exec.v with the transactions around them.
    [refs] and [calls] are what proc.c and syscall.c use of all this: with them the
    code of Proc.v and Syscall.v is closed. *)

From stdpp Require Import functions.
From S2P Require Import Prelude Spinlock KString Kalloc Vm Proc Syscall PipeMem Fs File Exec.

Module Sysfile.
Import Proc Syscall File.

Definition O_RDONLY : Z := 0.
Definition O_WRONLY : Z := 1.
Definition O_RDWR : Z := 2.
Definition O_CREATE : Z := 512.

Definition set_nlink (n : Z) (i : Fs.inode) : Fs.inode :=
  Fs.Inode (Fs.i_dev i) (Fs.i_inum i) (Fs.i_ref i) (Fs.i_flags i) (Fs.i_type i) (Fs.i_major i) (Fs.i_minor i) n
    (Fs.i_size i) (Fs.i_addrs i).
Definition set_device (ma mi : Z) (i : Fs.inode) : Fs.inode :=
  Fs.Inode (Fs.i_dev i) (Fs.i_inum i) (Fs.i_ref i) (Fs.i_flags i) (Fs.i_type i) ma mi (Fs.i_nlink i)
    (Fs.i_size i) (Fs.i_addrs i).

(** The names dot and dot dot. *)
Definition dot : list Z := [46].
Definition dotdot : list Z := [46; 46].

(** [char name[DIRSIZ]]: what is behind the NUL of a name is never looked at. *)
Definition name_buf : list Z := replicate Fs.DIRSIZ 0.

(** ** The parts inside a transaction *)

Section Inodes.
Context {B : Type} `{Fs.Blocks B} `{!Fs.Devices (B:=B)}.
Local Notation MF := (M (Fs.fsys B)).

Definition add_nlink (ip : nat) (d : Z) : MF unit :=
  Fs.upd_inode ip (fun i => set_nlink (s16 (Fs.i_nlink i + d)) i) ;! Fs.iupdate ip.

(** The part of [sys_link] behind [begin_trans], for the inode [ip] of [old]. *)
Definition link (cwd ip : nat) (new : list Z) : MF Z :=
  Fs.ilock (Some ip) ;!
  let! i := Fs.geti ip in
  if Fs.i_type i =? Fs.T_DIR then Fs.iunlockput ip ;! ret (-1)
  else
    add_nlink ip 1 ;!
    Fs.iunlock (Some ip) ;!
    let bad := Fs.ilock (Some ip) ;! add_nlink ip (-1) ;! Fs.iunlockput ip ;! ret (-1) in
    let! r := Fs.nameiparent cwd new name_buf in
    match r.1 with
    | None => bad
    | Some dp =>
        Fs.ilock (Some dp) ;!
        let! d := Fs.geti dp in
        let! i := Fs.geti ip in
        let! l := if negb (Fs.i_dev d =? Fs.i_dev i) then ret (-1) else Fs.dirlink dp r.2 (Fs.i_inum i) in
        if l <? 0 then Fs.iunlockput dp ;! bad
        else Fs.iunlockput dp ;! Fs.iput ip ;! ret 0
    end.

(** [for (off = 2 * sizeof(de); off < dp->size; off += sizeof(de))] *)
Fixpoint isdirempty_loop (fuel : nat) (dp : nat) (off : Z) : MF bool :=
  let! d := Fs.geti dp in
  if off <? Fs.i_size d then
    match fuel with
    | O => nofuel
    | S f =>
        let! r := Fs.readi dp off Fs.sizeof_dirent in
        if negb (r.1 =? Fs.sizeof_dirent) then panic "isdirempty: readi"
        else if negb (Fs.de_inum r.2 =? 0) then ret false
        else isdirempty_loop f dp (off + Fs.sizeof_dirent)
    end
  else ret true.

Definition isdirempty (dp : nat) : MF bool :=
  let! d := Fs.geti dp in isdirempty_loop (Z.to_nat (Fs.i_size d)) dp (2 * Fs.sizeof_dirent).

(** The part of [sys_unlink] behind [begin_trans]. *)
Definition unlink (dp : nat) (name : list Z) : MF Z :=
  Fs.ilock (Some dp) ;!
  let bad := Fs.iunlockput dp ;! ret (-1) in
  if (Fs.namecmp name dot =? 0) || (Fs.namecmp name dotdot =? 0) then bad
  else
    let! r := Fs.dirlookup dp name in
    match r with
    | None => bad
    | Some (ip, off) =>
        Fs.ilock (Some ip) ;!
        let! i := Fs.geti ip in
        if Fs.i_nlink i <? 1 then panic "unlink: nlink < 1"
        else
          let! e := if Fs.i_type i =? Fs.T_DIR then isdirempty ip else ret true in
          if negb e then Fs.iunlockput ip ;! bad
          else
            let! w := Fs.writei dp (replicate 16 0) off Fs.sizeof_dirent in
            if negb (w =? Fs.sizeof_dirent) then panic "unlink: writei"
            else
              when (Fs.i_type i =? Fs.T_DIR) (add_nlink dp (-1)) ;!
              Fs.iunlockput dp ;!
              add_nlink ip (-1) ;!
              Fs.iunlockput ip ;!
              ret 0
    end.

(** The inode is returned locked. *)
Definition create (cwd : nat) (path : list Z) (type major minor : Z) : MF (option nat) :=
  let! r := Fs.nameiparent cwd path name_buf in
  match r.1 with
  | None => ret None
  | Some dp =>
      Fs.ilock (Some dp) ;!
      let! e := Fs.dirlookup dp r.2 in
      match e with
      | Some (ip, _) =>
          Fs.iunlockput dp ;!
          Fs.ilock (Some ip) ;!
          let! i := Fs.geti ip in
          if (type =? Fs.T_FILE) && (Fs.i_type i =? Fs.T_FILE) then ret (Some ip)
          else Fs.iunlockput ip ;! ret None
      | None =>
          let! d := Fs.geti dp in
          let! ip := Fs.ialloc (Fs.i_dev d) type in
          Fs.ilock (Some ip) ;!
          Fs.upd_inode ip (fun i => set_nlink 1 (set_device (s16 major) (s16 minor) i)) ;!
          Fs.iupdate ip ;!
          let! i := Fs.geti ip in
          when (type =? Fs.T_DIR) (
            add_nlink dp 1 ;!
            let! a := Fs.dirlink ip dot (Fs.i_inum i) in
            let! b := if a <? 0 then ret (-1) else Fs.dirlink ip dotdot (Fs.i_inum d) in
            when (b <? 0) (panic "create dots")) ;!
          let! l := Fs.dirlink dp r.2 (Fs.i_inum i) in
          if l <? 0 then panic "create: dirlink"
          else Fs.iunlockput dp ;! ret (Some ip)
      end
  end.

End Inodes.

(** ** The calls *)

Section Calls.
Context {B : Type} `{Fs.Blocks B} `{!Fs.Trans B} `{!Fs.Devices (B:=B)} `{DataSegment} `{!Switch (files B)}.
Local Notation kst := (Proc.kst (files B)).

(** What the kernel's stack holds where exec.c places its variables. *)
Variables elf0 ustack0 : list Z.

(** The descriptor and the file; -1 is [None]. *)
Definition argfd (me : nat) (n : Z) : M kst (option (nat * nat)) :=
  let! fd := argint me n in
  match fd with
  | None => ret None
  | Some fd =>
      let! p := get_proc me in
      if (fd <? 0) || (fd >=? Z.of_nat NOFILE) then ret None
      else match ofile p !! Z.to_nat fd with
           | Some (Some f) => ret (Some (Z.to_nat fd, f))
           | _ => ret None
           end
  end.

(** [for (fd = 0; fd < NOFILE; fd++)] over the entries from [i] on. *)
Fixpoint first_fd (l : list (option nat)) (i : nat) : option nat :=
  match l with
  | [] => None
  | None :: _ => Some i
  | Some _ :: l' => first_fd l' (S i)
  end.

Definition set_ofile (fd : nat) (f : option nat) (p : proc) : proc := set_files (<[fd := f]> (ofile p)) (cwd p) p.

Definition fdalloc (me f : nat) : M kst Z :=
  let! p := get_proc me in
  match first_fd (ofile p) 0 with
  | Some fd => on_proc me (set_ofile fd (Some f)) ;! ret (Z.of_nat fd)
  | None => ret (-1)
  end.

Definition sys_dup (me : nat) : M kst Z :=
  let! a := argfd me 0 in
  match a with
  | None => ret (-1)
  | Some (_, f) =>
      let! fd := fdalloc me f in
      if fd <? 0 then ret (-1) else File.filedup f ;! ret fd
  end.

(** The arguments of [sys_read] and [sys_write]: file, address and count. *)
Definition rw_args (me : nat) : M kst (option (nat * Z * Z)) :=
  let! a := argfd me 0 in
  match a with
  | None => ret None
  | Some (_, f) =>
      let! n := argint me 2 in
      match n with
      | None => ret None
      | Some n =>
          let! p := argptr me 1 n in
          ret (match p with None => None | Some p => Some (f, p, n) end)
      end
  end.

Definition sys_read (fuel me : nat) : M kst Z :=
  let! a := rw_args me in
  match a with None => ret (-1) | Some (f, p, n) => fileread fuel me f p n end.

Definition sys_write (fuel me : nat) : M kst Z :=
  let! a := rw_args me in
  match a with None => ret (-1) | Some (f, p, n) => filewrite fuel me f p n end.

Definition sys_close (me : nat) : M kst Z :=
  let! a := argfd me 0 in
  match a with
  | None => ret (-1)
  | Some (fd, f) => on_proc me (set_ofile fd None) ;! File.fileclose f ;! ret 0
  end.

Definition sizeof_stat : Z := 20.

Definition sys_fstat (me : nat) : M kst Z :=
  let! a := argfd me 0 in
  match a with
  | None => ret (-1)
  | Some (_, f) =>
      let! st := argptr me 1 sizeof_stat in
      match st with None => ret (-1) | Some st => filestat me f st end
  end.

(** [argstr], with the bytes of the string. *)
Definition argpath (me : nat) (n : Z) : M kst (option (list Z)) :=
  let! a := argstr me n in
  match a with
  | None => ret None
  | Some (addr, len) => let! l := uload me addr (Z.to_nat len) in ret (Some l)
  end.

Definition from_cwd {A} (me : nat) (path : list Z) (k : nat -> M (Fs.fsys B) A) : M kst A :=
  Exec.from_cwd me path (fun c => fs_op (k c)).

Definition sys_link (me : nat) : M kst Z :=
  let! old := argpath me 0 in
  match old with
  | None => ret (-1)
  | Some old =>
      let! new := argpath me 1 in
      match new with
      | None => ret (-1)
      | Some new =>
          let! ip := from_cwd me old (fun c => Fs.namei c old) in
          match ip with
          | None => ret (-1)
          | Some ip =>
              log_op Fs.begin_trans ;!
              let! r := from_cwd me new (fun c => link c ip new) in
              log_op Fs.commit_trans ;!
              ret r
          end
      end
  end.

Definition sys_unlink (me : nat) : M kst Z :=
  let! path := argpath me 0 in
  match path with
  | None => ret (-1)
  | Some path =>
      let! d := from_cwd me path (fun c => Fs.nameiparent c path name_buf) in
      match d.1 with
      | None => ret (-1)
      | Some dp =>
          log_op Fs.begin_trans ;!
          let! r := fs_op (unlink dp d.2) in
          log_op Fs.commit_trans ;!
          ret r
      end
  end.

(** The inode of [sys_open], locked. *)
Definition open_inode (me : nat) (path : list Z) (omode : Z) : M kst (option nat) :=
  if negb (Z.land omode O_CREATE =? 0) then
    log_op Fs.begin_trans ;!
    let! ip := from_cwd me path (fun c => create c path Fs.T_FILE 0 0) in
    log_op Fs.commit_trans ;!
    ret ip
  else
    let! ip := from_cwd me path (fun c => Fs.namei c path) in
    match ip with
    | None => ret None
    | Some ip =>
        fs_op (Fs.ilock (Some ip)) ;!
        let! i := fs_op (Fs.geti ip) in
        if (Fs.i_type i =? Fs.T_DIR) && negb (omode =? O_RDONLY) then fs_op (Fs.iunlockput ip) ;! ret None
        else ret (Some ip)
    end.

Definition sys_open (me : nat) : M kst Z :=
  let! path := argpath me 0 in
  match path with
  | None => ret (-1)
  | Some path =>
      let! omode := argint me 1 in
      match omode with
      | None => ret (-1)
      | Some omode =>
          let! ip := open_inode me path omode in
          match ip with
          | None => ret (-1)
          | Some ip =>
              let! f := filealloc in
              match f with
              | None => fs_op (Fs.iunlockput ip) ;! ret (-1)
              | Some f =>
                  let! fd := fdalloc me f in
                  if fd <? 0 then File.fileclose f ;! fs_op (Fs.iunlockput ip) ;! ret (-1)
                  else
                    fs_op (Fs.iunlock (Some ip)) ;!
                    let wr := negb (Z.land omode O_WRONLY =? 0) in
                    updf f (set_inode ip (negb wr) (wr || negb (Z.land omode O_RDWR =? 0))) ;!
                    ret fd
              end
          end
      end
  end.

(** The tail of [sys_mkdir] and [sys_mknod]. *)
Definition made (ip : option nat) : M kst Z :=
  match ip with
  | None => log_op Fs.commit_trans ;! ret (-1)
  | Some ip => fs_op (Fs.iunlockput ip) ;! log_op Fs.commit_trans ;! ret 0
  end.

Definition sys_mkdir (me : nat) : M kst Z :=
  log_op Fs.begin_trans ;!
  let! path := argpath me 0 in
  match path with
  | None => made None
  | Some path => let! ip := from_cwd me path (fun c => create c path Fs.T_DIR 0 0) in made ip
  end.

Definition sys_mknod (me : nat) : M kst Z :=
  log_op Fs.begin_trans ;!
  let! path := argpath me 0 in
  match path with
  | None => made None
  | Some path =>
      let! major := argint me 1 in
      match major with
      | None => made None
      | Some major =>
          let! minor := argint me 2 in
          match minor with
          | None => made None
          | Some minor => let! ip := from_cwd me path (fun c => create c path Fs.T_DEV major minor) in made ip
          end
      end
  end.

Definition sys_chdir (me : nat) : M kst Z :=
  let! path := argpath me 0 in
  match path with
  | None => ret (-1)
  | Some path =>
      let! ip := from_cwd me path (fun c => Fs.namei c path) in
      match ip with
      | None => ret (-1)
      | Some ip =>
          fs_op (Fs.ilock (Some ip)) ;!
          let! i := fs_op (Fs.geti ip) in
          if negb (Fs.i_type i =? Fs.T_DIR) then fs_op (Fs.iunlockput ip) ;! ret (-1)
          else
            fs_op (Fs.iunlock (Some ip)) ;!
            let! p := get_proc me in
            match cwd p with
            | None => wild "no current directory"
            | Some c =>
                fs_op (Fs.iput c) ;!
                on_proc me (fun p => set_files (ofile p) (Some ip) p) ;!
                ret 0
            end
      end
  end.

(** The loops of [sys_execve]: the strings of a vector of [k] more entries at
    most, from entry [i] on. *)
Fixpoint fetch_vector (k : nat) (me : nat) (uv i : Z) : M kst (option (list (list Z))) :=
  match k with
  | O => ret None
  | S k' =>
      let! a := fetchint me (u32 (uv + 4 * i)) in
      match a with
      | None => ret None
      | Some a =>
          if a =? 0 then ret (Some [])
          else
            let! str := fetchstr me (u32 a) in
            match str with
            | None => ret None
            | Some (addr, len) =>
                let! l := uload me addr (Z.to_nat len) in
                let! r := fetch_vector k' me uv (i + 1) in
                ret (match r with Some r => Some (l :: r) | None => None end)
            end
      end
  end.

Definition sys_execve (me : nat) : M kst Z :=
  let! path := argpath me 0 in
  match path with
  | None => ret (-1)
  | Some path =>
      let! uargv := argint me 1 in
      match uargv with
      | None => ret (-1)
      | Some uargv =>
          let! uenvp := argint me 2 in
          match uenvp with
          | None => ret (-1)
          | Some uenvp =>
              let! argv := fetch_vector (Z.to_nat Exec.MAXARG) me (u32 uargv) 0 in
              match argv with
              | None => ret (-1)
              | Some argv =>
                  let! envp := fetch_vector (Z.to_nat Exec.MAXARG) me (u32 uenvp) 0 in
                  match envp with
                  | None => ret (-1)
                  | Some envp => Exec.execve elf0 ustack0 me path argv envp
                  end
              end
          end
      end
  end.

Definition sys_pipe (me : nat) : M kst Z :=
  let! fd := argptr me 0 8 in
  match fd with
  | None => ret (-1)
  | Some fd =>
      let! r := pipealloc in
      match r with
      | None => ret (-1)
      | Some (rf, wf) =>
          let! fd0 := fdalloc me rf in
          let! fd1 := if fd0 <? 0 then ret (-1) else fdalloc me wf in
          if (fd0 <? 0) || (fd1 <? 0) then
            when (fd0 >=? 0) (on_proc me (set_ofile (Z.to_nat fd0) None)) ;!
            File.fileclose rf ;!
            File.fileclose wf ;!
            ret (-1)
          else
            ustore me fd (le_enc 4 fd0) ;!
            ustore me (fd + 4) (le_enc 4 fd1) ;!
            ret 0
      end
  end.

(** ** What proc.c and syscall.c use *)

(** [initlog] for [forkret], which only touches the layer below the file system. *)
Variable initlog_ : M B unit.

#[global] Instance refs : FileRefs (files B) := {|
  Proc.filedup := File.filedup;
  Proc.idup := fun ip => fs_op (Fs.idup ip);
  Proc.fileclose := File.fileclose;
  Proc.iput := fun ip => fs_op (Fs.iput ip);
  Proc.namei_root := fs_op (Fs.namei 0 [Fs.slash]);
  Proc.initlog := log_op initlog_ |}.

Definition calls (fuel : nat) : FileCalls (files B) := {|
  Syscall.sys_pipe := sys_pipe; Syscall.sys_read := sys_read fuel; Syscall.sys_execve := sys_execve;
  Syscall.sys_fstat := sys_fstat; Syscall.sys_chdir := sys_chdir; Syscall.sys_dup := sys_dup;
  Syscall.sys_open := sys_open; Syscall.sys_write := sys_write fuel; Syscall.sys_mknod := sys_mknod;
  Syscall.sys_unlink := sys_unlink; Syscall.sys_link := sys_link; Syscall.sys_mkdir := sys_mkdir;
  Syscall.sys_close := sys_close |}.

End Calls.
End Sysfile.
