(* ===== verification/Digits.v ===== *)
(** * Numbers and formats as text

    The loop that [printint] of kernel/console.c and of apps/lib/printf.c share: the
    digits of a number, the last one first, into a buffer of 16 bytes.  The two differ
    in the case of their letters.  The numeral they make has the value of the number
    and no zeros in front. *)

From Stdlib Require Import List.
From stdpp Require Import strings.
From S2P Require Import Prelude.

Module Digits.

Definition digits_upper : list Z := [48; 49; 50; 51; 52; 53; 54; 55; 56; 57; 65; 66; 67; 68; 69; 70].
Definition digits_lower : list Z := [48; 49; 50; 51; 52; 53; 54; 55; 56; 57; 97; 98; 99; 100; 101; 102].

(** [do buf[i++] = digits[x % base]; while ((x /= base) != 0)], with [n] bytes of
    [buf] left: the bytes stored. *)
Fixpoint conv (digits : list Z) (n : nat) (x base : Z) : option (list Z) :=
  match n with
  | O => None
  | S n' =>
      let d := digits !!! Z.to_nat (x mod base) in
      if x / base =? 0 then Some [d] else l ← conv digits n' (x / base) base; Some (d :: l)
  end.

(** ** The text of numbers *)

(** What a digit stands for, and a numeral, most significant digit first. *)
Definition digit_value (c : Z) : Z := if c <? 65 then c - 48 else if c <? 97 then c - 55 else c - 87.
Definition numeral (base : Z) (l : list Z) : Z := foldl (fun v c => v * base + digit_value c) 0 l.

(** A text that starts with a minus sign is negative. *)
Definition int_value (base : Z) (l : list Z) : Z :=
  match l with c :: l' => if c =? 45 then - numeral base l' else numeral base l | [] => 0 end.

(** No zero in front, other than that of zero itself. *)
Definition canonical (l : list Z) : Prop := l = [48] \/ exists c l', l = c :: l' /\ c <> 48.

(** The tables of digits there are. *)
Definition table (digits : list Z) : Prop := digits = digits_upper \/ digits = digits_lower.

Lemma digit_ok digits d : table digits -> 0 <= d < 16 -> let c := digits !!! Z.to_nat d in digit_value c = d /\ 48 <= c < 103 /\ (c = 48 <-> d = 0).
Proof.
  intros Ht Hd. assert (H : Forall (fun d => let c := digits !!! Z.to_nat d in digit_value c = d /\ 48 <= c < 103 /\ (c = 48 <-> d = 0)) (seqZ 0 16)).
  { destruct Ht as [->| ->]; repeat constructor; vm_compute; done || (intros; done). }
  rewrite Forall_forall in H. apply H. apply elem_of_seqZ. lia.
Qed.

Lemma numeral_snoc base l c : numeral base (l ++ [c]) = numeral base l * base + digit_value c.
Proof. unfold numeral. by rewrite foldl_app. Qed.

Section Numbers.
Context (digits : list Z) (Ht : table digits).

Lemma conv_ok n : forall x base, 2 <= base <= 16 -> 0 <= x < base ^ Z.of_nat n -> (0 < n)%nat ->
  exists l, conv digits n x base = Some l /\ numeral base (rev l) = x /\ (0 < length l <= n)%nat /\
    Forall (fun c => 48 <= c < 103) l /\ canonical (rev l) /\ (rev l = [48] -> x = 0).
Proof.
  induction n as [|n IH]; intros x base Hb Hx Hn; [lia|]. cbn [conv].
  destruct (digit_ok digits (x mod base) Ht) as (Hv & Hc & Hz); [pose proof (Z.mod_pos_bound x base); lia|].
  set (c := digits !!! _) in *. pose proof (Z.div_mod x base ltac:(lia)) as Ed. destruct (Z.eqb_spec (x / base) 0) as [E|N].
  - exists [c]. split; [done|]. unfold numeral. cbn. split; [rewrite Hv; lia|]. split; [lia|]. split; [by constructor|]. split.
    + destruct (decide (c = 48)) as [->|]; [by left|right; by exists c, []].
    + intros [= Hc48]. apply Hz in Hc48. lia.
  - pose proof (Z.div_pos x base). assert (x / base < base ^ Z.of_nat n).
    { apply Z.div_lt_upper_bound; [lia|]. rewrite <- Z.pow_succ_r by lia. replace (Z.succ (Z.of_nat n)) with (Z.of_nat (S n)) by lia. lia. }
    assert (0 < n)%nat. { destruct n; [|lia]. change (base ^ Z.of_nat 0) with 1 in *. lia. }
    destruct (IH (x / base) base Hb ltac:(lia) ltac:(lia)) as (l & -> & Hl & Ll & Fl & Cl & Zl). exists (c :: l). split; [done|].
    cbn [rev]. rewrite numeral_snoc, Hl, Hv. split; [lia|]. split; [cbn; lia|]. split; [by constructor|].
    destruct Cl as [E1|(d & l' & E1 & Nd)]; [by rewrite (Zl E1) in N|]. rewrite E1. split; [right; exists d, (l' ++ [c]); done|].
    intros X. injection X as -> _. done.
Qed.

(** The text of an integer. *)
Definition int_text (xx base : Z) (sgn : bool) : list Z :=
  let neg := sgn && (xx <? 0) in
  (if neg then [45] else []) ++ rev (default [] (conv digits 16 (if neg then u32 (- xx) else u32 xx) base)).

(** The numeral of a magnitude. *)
Definition magnitude (base x : Z) : list Z := rev (default [] (conv digits 16 x base)).

Lemma magnitude_ok base x : 10 <= base <= 16 -> 0 <= x < 2 ^ 32 ->
  exists l, conv digits 16 x base = Some l /\ magnitude base x = rev l /\ numeral base (rev l) = x /\ (0 < length l < 16)%nat /\
    Forall (fun c => 48 <= c < 103) l /\ canonical (rev l).
Proof.
  intros Hb Hx. assert (10 ^ 15 <= base ^ 15) by (apply Z.pow_le_mono_l; lia).
  assert (2 ^ 32 < 10 ^ 15) by (vm_compute; done).
  destruct (conv_ok 15 x base) as (l15 & E15 & _ & L15 & _); [lia|change (Z.of_nat 15) with 15; lia|lia|].
  assert (Mono : forall n x l, conv digits n x base = Some l -> conv digits (S n) x base = Some l).
  { induction n as [|n IHn]; intros y l; [done|]. intros E. cbn [conv] in E |- *. destruct (y / base =? 0); [done|].
    destruct (conv digits n (y / base) base) as [l'|] eqn:E'; [|done]. cbn [conv] in IHn. specialize (IHn _ _ E'). cbn in IHn |- *.
    rewrite IHn. done. }
  assert (base ^ 16 = base * base ^ 15) as P16 by (rewrite <- Z.pow_succ_r by lia; done).
  destruct (conv_ok 16 x base) as (l & E & V & L & F & C & _); [lia| |lia|].
  { split; [lia|]. change (Z.of_nat 16) with 16. nia. }
  pose proof (Mono _ _ _ E15) as E'. assert (l = l15) as -> by congruence. exists l15. split; [done|]. split; [unfold magnitude; by rewrite E|].
  split; [done|]. split; [lia|exact (conj F C)].
Qed.

(** The text of an [int] in decimal is its value. *)
Lemma int_text_decimal x : - 2 ^ 31 <= x < 2 ^ 31 -> int_value 10 (int_text x 10 true) = x /\
  (x <? 0 = false -> canonical (int_text x 10 true)).
Proof.
  intros Hx. unfold int_text. cbn [andb]. destruct (Z.ltb_spec x 0).
  - assert (E : u32 (- x) = - x) by (apply u32_small; lia). rewrite E.
    destruct (magnitude_ok 10 (- x)) as (l & E1 & E2 & V & _); [lia..|]. rewrite E1. cbn [default app int_value Z.eqb Pos.eqb].
    unfold id. split; [lia|done].
  - assert (E : u32 x = x) by (apply u32_small; lia). rewrite E.
    destruct (magnitude_ok 10 x) as (l & E1 & E2 & V & L & F & C); [lia..|]. rewrite E1. cbn [default app]. unfold id. split; [|done].
    destruct (rev l) as [|c r] eqn:Er; [cbn in V; done|]. cbn [int_value].
    assert (48 <= c < 103). { rewrite Forall_forall in F. apply F. rewrite list_elem_of_In. apply in_rev. rewrite Er. by left. }
    rewrite (proj2 (Z.eqb_neq c 45)) by lia. done.
Qed.

End Numbers.

(** ** Numerals

    The numeral of a number by itself: the characters of its digits, from the most
    significant on.  32 digits are enough for a word in any base. *)

Definition digit_char (d : Z) : Z := if d <? 10 then 48 + d else 65 + (d - 10).

Fixpoint numeral_text (n : nat) (base x : Z) : list Z :=
  match n with
  | O => []
  | S n' => if x <? base then [digit_char x] else numeral_text n' base (x / base) ++ [digit_char (x mod base)]
  end.

Definition decimal (x : Z) : list Z := if x <? 0 then 45 :: numeral_text 32 10 (- x) else numeral_text 32 10 x.
Definition hexadecimal (x : Z) : list Z := numeral_text 32 16 x.

Lemma digit_char_upper d : 0 <= d < 16 -> digits_upper !!! Z.to_nat d = digit_char d.
Proof.
  intros Hd. assert (H : Forall (fun d => digits_upper !!! Z.to_nat d = digit_char d) (seqZ 0 16)) by (repeat constructor).
  rewrite Forall_forall in H. apply H, elem_of_seqZ. lia.
Qed.

Lemma conv_numeral base n : 2 <= base <= 16 -> forall m x l, 0 <= x -> conv digits_upper n x base = Some l -> (n <= m)%nat -> rev l = numeral_text m base x.
Proof.
  intros Hb. induction n as [|n IH]; intros [|m] x l Hx; cbn [conv numeral_text]; try (done || lia). intros E Hm.
  pose proof (Z.div_mod x base ltac:(lia)) as Ed. pose proof (Z.mod_pos_bound x base ltac:(lia)) as Hr. rewrite digit_char_upper in E by lia.
  destruct (Z.eqb_spec (x / base) 0) as [Z0|N0].
  - injection E as <-. rewrite (proj2 (Z.ltb_lt x base)) by lia. cbn. by rewrite Z.mod_small by lia.
  - pose proof (Z.div_pos x base). rewrite (proj2 (Z.ltb_ge x base)) by nia. destruct (conv digits_upper n (x / base) base) as [l'|] eqn:E'; [|done].
    injection E as <-. cbn [rev]. by rewrite (IH m (x / base) l' ltac:(lia) E' ltac:(lia)).
Qed.

(** The numeral has the value of the number, and no zero in front. *)
Lemma numeral_ok base x : 10 <= base <= 16 -> 0 <= x < 2 ^ 32 ->
  numeral base (numeral_text 32 base x) = x /\ canonical (numeral_text 32 base x) /\ numeral_text 32 base x = rev (default [] (conv digits_upper 16 x base)).
Proof.
  intros Hb Hx. destruct (magnitude_ok digits_upper (or_introl eq_refl) base x Hb Hx) as (l & E & _ & V & _ & _ & C).
  rewrite <- (conv_numeral base 16 ltac:(lia) 32 x l ltac:(lia) E ltac:(lia)), E. done.
Qed.

Lemma int_text_numeral x : - 2 ^ 31 <= x < 2 ^ 31 -> int_text digits_upper x 10 true = decimal x /\ int_text digits_upper x 16 false = hexadecimal (u32 x).
Proof.
  intros Hx. unfold int_text, decimal, hexadecimal. cbn [andb]. pose proof (u32_range x).
  destruct (numeral_ok 16 (u32 x)) as (_ & _ & E); [lia..|]. split; [|by rewrite E].
  destruct (Z.ltb_spec x 0); rewrite u32_small by lia; [destruct (numeral_ok 10 (- x)) as (_ & _ & ->)|destruct (numeral_ok 10 x) as (_ & _ & ->)]; done || lia.
Qed.

(** The bytes of a string literal. *)
Fixpoint text (s : string) : list Z :=
  match s with
  | EmptyString => []
  | String a s' => Z.of_N (Ascii.N_of_ascii a) :: text s'
  end.

(** A literal that ends with a newline. *)
Definition line (s : string) : list Z := text s ++ [10].

(** A word of the arguments: an integer, or a pointer to a string. *)
Inductive arg := AInt (x : Z) | AStr (s : option (list Z)).

Definition null_text : list Z := [40; 110; 117; 108; 108; 41].

End Digits.
