(* ===== verification/Malloc.v ===== *)
(** * The heap of the C library (libc/malloc.c)

    The allocator of Kernighan and Ritchie over the bytes of the process: headers of
    two words, the free blocks in a ring ordered by address, from the static header
    [base].  What [sbrk] grants is a parameter.

    No operation goes wrong, whatever a client does with blocks it owns: blocks in
    use never overlap each other, the free blocks or the headers, and they keep their
    contents. *)

From Stdlib Require Import List Sorted Permutation.
From S2P Require Import Prelude KString LString.

Import KString.

Module Malloc.

(** A word of memory. *)
Definition wget (m : mem) (a : Z) : Z := le_dec [m a; m (a + 1); m (a + 2); m (a + 3)].
Definition wput (a v : Z) (m : mem) : mem := fun b => if (a <=? b) && (b <? a + 4) then le_enc 4 v !!! Z.to_nat (b - a) else m b.

Arguments wget : simpl never.
Arguments wput : simpl never.

(** Memory, [freep] (0 for the null pointer) and the break. *)
Record hst := Hst { mm : mem; freep : Z; brk : Z }.

Definition SIZEOF_HEADER : Z := 8.

(** [p->s.ptr] and [p->s.size] *)
Definition s_ptr (p : Z) : M hst Z := gets (fun s => wget (mm s) p).
Definition s_size (p : Z) : M hst Z := gets (fun s => wget (mm s) (p + 4)).
Definition set_ptr (p v : Z) : M hst unit := modify (fun s => Hst (wput p v (mm s)) (freep s) (brk s)).
Definition set_size (p v : Z) : M hst unit := modify (fun s => Hst (wput (p + 4) v (mm s)) (freep s) (brk s)).
Definition set_freep (p : Z) : M hst unit := modify (fun s => Hst (mm s) p (brk s)).

Section Heap.
(** The static header, and the requests the kernel grants. *)
Context (base : Z) (grants : Z -> Z -> bool).

Definition sbrk (n : Z) : M hst Z := fun s =>
  if grants (brk s) n then Done (brk s) (Hst (mm s) (freep s) (brk s + n)) else Done (-1) s.

(** [for (p = freep; !(bp > p && bp < p->s.ptr); p = p->s.ptr)] *)
Fixpoint free_place (fuel : nat) (bp p : Z) : M hst Z :=
  match fuel with
  | O => nofuel
  | S f =>
      let! q := s_ptr p in
      if (p <? bp) && (bp <? q) then ret p
      else if (q <=? p) && ((p <? bp) || (bp <? q)) then ret p
      else free_place f bp q
  end.

Definition free (fuel : nat) (ap : Z) : M hst unit :=
  let bp := ap - SIZEOF_HEADER in
  let! f := gets freep in
  let! p := free_place fuel bp f in
  let! n := s_size bp in
  let! q := s_ptr p in
  (if bp + SIZEOF_HEADER * n =? q then
     let! k := s_size q in
     set_size bp (u32 (n + k)) ;!
     let! r := s_ptr q in
     set_ptr bp r
   else set_ptr bp q) ;!
  let! k := s_size p in
  (if p + SIZEOF_HEADER * k =? bp then
     let! n := s_size bp in
     set_size p (u32 (k + n)) ;!
     let! r := s_ptr bp in
     set_ptr p r
   else set_ptr p bp) ;!
  set_freep p.

(** [None] for the null pointer. *)
Definition morecore (fuel : nat) (nu : Z) : M hst (option Z) :=
  let nu := if nu <? 4096 then 4096 else nu in
  let! p := sbrk (s32 (u32 (nu * SIZEOF_HEADER))) in
  if p =? -1 then ret None
  else
    set_size p nu ;!
    free fuel (p + SIZEOF_HEADER) ;!
    let! f := gets freep in
    ret (Some f).

(** [for (p = prevp->s.ptr; ; prevp = p, p = p->s.ptr)] *)
Fixpoint malloc_loop (fuel : nat) (prevp p nunits : Z) : M hst (option Z) :=
  match fuel with
  | O => nofuel
  | S f =>
      let! n := s_size p in
      if nunits <=? n then
        let! p :=
          if n =? nunits then
            let! q := s_ptr p in
            set_ptr prevp q ;!
            ret p
          else
            set_size p (n - nunits) ;!
            let p := p + SIZEOF_HEADER * (n - nunits) in
            set_size p nunits ;!
            ret p in
        set_freep prevp ;!
        ret (Some (p + SIZEOF_HEADER))
      else
        let! fp := gets freep in
        if p =? fp then
          let! r := morecore f nunits in
          match r with
          | None => ret None
          | Some p => let! q := s_ptr p in malloc_loop f p q nunits
          end
        else
          let! q := s_ptr p in
          malloc_loop f p q nunits
  end.

Definition units (nbytes : Z) : Z := u32 (nbytes + SIZEOF_HEADER - 1) / SIZEOF_HEADER + 1.

Definition malloc (fuel : nat) (nbytes : Z) : M hst (option Z) :=
  let nunits := units nbytes in
  let! f := gets freep in
  let! prevp :=
    if f =? 0 then
      set_freep base ;!
      set_ptr base base ;!
      set_size base 0 ;!
      ret base
    else ret f in
  let! p := s_ptr prevp in
  malloc_loop fuel prevp p nunits.

Definition calloc (fuel : nat) (nmemb size : Z) : M hst (option Z) :=
  let n := u32 (nmemb * size) in
  let! rc := malloc fuel n in
  match rc with
  | None => ret None
  | Some p => modify (fun s => Hst (LString.memset p 0 (Z.to_nat n) (mm s)) (freep s) (brk s)) ;! ret (Some p)
  end.

Definition realloc (fuel : nat) (ptr size : Z) : M hst (option Z) :=
  let bp := ptr - SIZEOF_HEADER in
  let! r := malloc fuel size in
  let! n := s_size bp in
  match r with
  | None => wild "memmove to the null pointer"
  | Some q =>
      modify (fun s => Hst (LString.memmove q ptr (Z.to_nat (if size <? n then size else n)) (mm s)) (freep s) (brk s)) ;!
      free fuel ptr ;!
      ret (Some q)
  end.

End Heap.

(** ** Words *)

Lemma wget_wput a v m : 0 <= v < 2 ^ 32 -> wget (wput a v m) a = v.
Proof.
  intros Hv. unfold wget, wput. rewrite !(proj2 (Z.leb_le _ _)), !(proj2 (Z.ltb_lt _ _)) by lia. cbn [andb].
  replace (a - a) with 0 by lia. replace (a + 1 - a) with 1 by lia. replace (a + 2 - a) with 2 by lia. replace (a + 3 - a) with 3 by lia.
  change (le_dec (le_enc 4 v) = v). rewrite le_dec_enc. by apply Z.mod_small.
Qed.

Lemma wput_other a v m b : b < a \/ a + 4 <= b -> wput a v m b = m b.
Proof. intros H. unfold wput. destruct (Z.leb_spec a b), (Z.ltb_spec b (a + 4)); done || lia. Qed.

Lemma wget_other a v m b : b + 4 <= a \/ a + 4 <= b -> wget (wput a v m) b = wget m b.
Proof. intros H. unfold wget. by rewrite !wput_other by lia. Qed.

(** ** Blocks *)

(** Address and size in headers; the header of [base] has no block behind it. *)
Notation blk := (Z * Z)%type.
Definition ext (x : blk) : Z := x.1 + 8 * Z.max 1 x.2.
Definition dis (x y : blk) : Prop := ext x <= y.1 \/ ext y <= x.1.
Definition below (x y : blk) : Prop := x.1 < y.1.

(** A relation between every element and those behind it. *)
Fixpoint pairs (R : blk -> blk -> Prop) (l : list blk) : Prop :=
  match l with [] => True | x :: l' => Forall (R x) l' /\ pairs R l' end.

Lemma pairs_app R a b : pairs R (a ++ b) <-> pairs R a /\ pairs R b /\ Forall (fun x => Forall (R x) b) a.
Proof.
  induction a as [|x a IH]; cbn; [split; [by repeat split|tauto]|]. rewrite Forall_app, Forall_cons, IH. tauto.
Qed.

Lemma dis_sym x y : dis x y -> dis y x.
Proof. unfold dis. tauto. Qed.

Lemma pairs_perm R l l' : (forall x y, R x y -> R y x) -> Permutation l l' -> pairs R l -> pairs R l'.
Proof.
  intros Sy. induction 1 as [|x l l' P IH|x y l|l l1 l2 P1 IH1 P2 IH2]; cbn; [done| |..|auto].
  - intros [F H]. split; [by rewrite <- P|auto].
  - rewrite !Forall_cons. intros ([Hy Fx] & Fy & H). auto.
Qed.

(** Two blocks side by side make one. *)
Lemma pairs_join x y l : x.1 + 8 * x.2 = y.1 -> 1 <= x.2 -> 1 <= y.2 -> pairs dis (x :: y :: l) -> pairs dis ((x.1, x.2 + y.2) :: l).
Proof.
  intros E Hx Hy. cbn. rewrite Forall_cons. intros ([_ Fx] & Fy & H). split; [|done]. rewrite Forall_forall in *.
  intros z Hz. specialize (Fx z Hz). specialize (Fy z Hz). unfold dis, ext in *. cbn in *. lia.
Qed.

(** ** The ring of free blocks *)

Definition next (l : list blk) (z : Z) : Z := match l with x :: _ => x.1 | [] => z end.

(** The headers of [l] are linked in their order, the last one to [z]. *)
Fixpoint links (m : mem) (l : list blk) (z : Z) : Prop :=
  match l with [] => True | x :: l' => wget m x.1 = next l' z /\ wget m (x.1 + 4) = x.2 /\ links m l' z end.

Lemma next_app a x b z : next (a ++ x :: b) z = next (a ++ [x]) z.
Proof. by destruct a. Qed.

Lemma links_app m a b z : links m (a ++ b) z <-> links m a (next b z) /\ links m b z.
Proof.
  induction a as [|x a IH]; cbn; [tauto|]. rewrite IH. destruct a as [|y a]; cbn; tauto.
Qed.

(** Memory that agrees on the header of a block. *)
Definition agree (m m' : mem) (x : blk) : Prop := forall a, x.1 <= a < x.1 + 8 -> m' a = m a.

Lemma agree_words m m' x : agree m m' x -> wget m' x.1 = wget m x.1 /\ wget m' (x.1 + 4) = wget m (x.1 + 4).
Proof.
  intros H. unfold wget.
  by rewrite (H x.1), (H (x.1 + 1)), (H (x.1 + 2)), (H (x.1 + 3)), (H (x.1 + 4)), (H (x.1 + 4 + 1)), (H (x.1 + 4 + 2)), (H (x.1 + 4 + 3)) by lia.
Qed.

Lemma links_agree m m' l z : Forall (agree m m') l -> links m l z -> links m' l z.
Proof.
  induction 1 as [|x l Hx F IH]; cbn; [done|]. destruct (agree_words _ _ _ Hx) as [-> ->]. tauto.
Qed.

(** Memory that agrees outside two headers. *)
Lemma agree_out m m' x y z : dis x z -> dis y z -> (forall a, ~ (x.1 <= a < x.1 + 8) -> ~ (y.1 <= a < y.1 + 8) -> m' a = m a) -> agree m m' z.
Proof. intros Hx Hy H a Ha. unfold dis, ext in *. apply H; lia. Qed.

Section Ring.
Context (base : Z).

(** The element behind number [i]. *)
Lemma ptr_at m l z i x : links m l z -> l !! i = Some x -> wget m x.1 = match l !! S i with Some y => y.1 | None => z end /\ wget m (x.1 + 4) = x.2.
Proof.
  intros H Hi. apply list_elem_of_split_length in Hi as (a & b & -> & ->). apply links_app in H as [_ (E & Es & _)]. split; [|done]. rewrite E.
  rewrite lookup_app_r by lia. replace (S (length a) - length a)%nat with 1%nat by lia. by destruct b.
Qed.

Lemma pairs_lookup R l i j x y : pairs R l -> (i < j)%nat -> l !! i = Some x -> l !! j = Some y -> R x y.
Proof.
  intros H Hij Hx Hy. apply list_elem_of_split_length in Hx as (a & b & -> & ->). apply pairs_app in H as (_ & [F _] & _).
  rewrite lookup_app_r in Hy by lia. rewrite Forall_forall in F. apply F. destruct (j - length a)%nat as [|k] eqn:E; [lia|]. cbn in Hy.
  by eapply list_elem_of_lookup_2.
Qed.

(** The place of a new block in the ring. *)
Lemma place l bp : (base < bp) -> pairs below ((base, 0) :: l) -> Forall (fun x => x.1 <> bp) l ->
  exists X p Y, (base, 0) :: l = X ++ p :: Y /\ Forall (fun x => x.1 < bp) (X ++ [p]) /\ Forall (fun x => bp < x.1) Y.
Proof.
  intros Hb Hs Hn. assert (H : forall k, pairs below k -> Forall (fun x => x.1 <> bp) k -> forall x0, x0.1 < bp -> Forall (below x0) k ->
    exists X p Y, x0 :: k = X ++ p :: Y /\ Forall (fun x => x.1 < bp) (X ++ [p]) /\ Forall (fun x => bp < x.1) Y).
  { clear. induction k as [|y k IH]; intros Hs Hn x0 Hx Hf.
    - exists [], x0, []. split; [done|]. split; [by constructor|done].
    - destruct Hs as [Fy Hs]. inversion Hn as [|? ? Ny Hn']; subst. destruct (decide (y.1 < bp)) as [Hy|Hy].
      + destruct (IH Hs Hn' y Hy Fy) as (X & p & Y & E & F1 & F2). exists (x0 :: X), p, Y. split; [exact (f_equal (cons x0) E)|]. split; [by constructor|done].
      + exists [], x0, (y :: k). split; [done|]. split; [by constructor|]. constructor; [lia|]. eapply Forall_impl; [exact Fy|]. unfold below. intros; lia. }
  destruct Hs as [F Hs]. by apply H.
Qed.

Lemma free_place_ok s X p Y bp : links (mm s) (X ++ p :: Y) base -> pairs below (X ++ p :: Y) -> next (X ++ p :: Y) base = base ->
  Forall (fun x => x.1 < bp) (X ++ [p]) -> Forall (fun x => bp < x.1) Y -> base < bp ->
  forall fuel i x, (X ++ p :: Y) !! i = Some x ->
    ((if (i <=? length X)%nat then length X - i else length (X ++ p :: Y) - i + length X) < fuel)%nat ->
    free_place fuel bp x.1 s = Done p.1 s.
Proof.
  intros Hl Hs Hh HX HY Hb. set (L := X ++ p :: Y) in *. assert (Hp : L !! length X = Some p) by (unfold L; by rewrite lookup_app_r, Nat.sub_diag by lia).
  assert (Low : forall i x, (i <= length X)%nat -> L !! i = Some x -> x.1 < bp).
  { intros i x Hi Hx. rewrite Forall_forall in HX. apply HX. apply list_elem_of_lookup. exists i. unfold L in Hx.
    destruct (decide (i = length X)) as [->|Ni]; [|rewrite lookup_app_l in Hx by (clear -Hi Ni; lia); rewrite lookup_app_l by (clear -Hi Ni; lia); done].
    rewrite lookup_app_r, Nat.sub_diag in Hx |- * by lia. exact Hx. }
  assert (High : forall i x, (length X < i)%nat -> L !! i = Some x -> bp < x.1).
  { intros i x Hi Hx. rewrite Forall_forall in HY. apply HY. apply list_elem_of_lookup. exists (i - length X - 1)%nat. unfold L in Hx.
    rewrite lookup_app_r in Hx by lia. destruct (i - length X)%nat as [|k] eqn:E; [lia|]. cbn in Hx. by replace (S k - 1)%nat with k by lia. }
  assert (Base : exists x0, L !! 0%nat = Some x0 /\ x0.1 = base).
  { unfold L in *. destruct X as [|x0 X]; cbn in Hh; [by exists p|by exists x0]. }
  induction fuel as [|fuel IH]; intros i x Hi Hd; [lia|]. cbn [free_place]. destruct (ptr_at _ _ _ _ _ Hl Hi) as [Ep _].
  assert (Eg : s_ptr x.1 s = Done (match L !! S i with Some y => y.1 | None => base end) s) by (unfold s_ptr, gets; by rewrite Ep).
  rewrite (bind_Done _ _ _ _ _ Eg). destruct (Nat.leb_spec i (length X)) as [Hle|Hgt]; destruct (L !! S i) as [y|] eqn:Ey.
  - pose proof (Low i x Hle Hi). pose proof (pairs_lookup _ _ _ _ _ _ Hs (Nat.lt_succ_diag_r i) Hi Ey) as Hxy. unfold below in Hxy.
    destruct (decide (i = length X)) as [->|].
    + pose proof (High _ _ (Nat.lt_succ_diag_r _) Ey). rewrite (proj2 (Z.ltb_lt _ _)), (proj2 (Z.ltb_lt _ _)) by lia. cbn [andb orb]. rewrite Hp in Hi. by injection Hi as ->.
    + pose proof (Low (S i) y ltac:(lia) Ey). rewrite (proj2 (Z.ltb_ge bp y.1)), (proj2 (Z.leb_gt y.1 x.1)) by lia. rewrite andb_false_r. cbn [andb].
      apply (IH (S i)); [done|]. rewrite (proj2 (Nat.leb_le _ _)) by lia. lia.
  - pose proof (Low i x Hle Hi). apply lookup_ge_None in Ey. apply lookup_lt_Some in Hp as Hl'. apply lookup_lt_Some in Hi as Hi'.
    assert (i = length X) as -> by lia. destruct Base as (x0 & H0 & Eb).
    assert (base <= x.1). { destruct (decide (length X = 0)%nat) as [E|]; [rewrite E in Hi; assert (x = x0) as -> by congruence; lia|].
      pose proof (pairs_lookup _ _ 0 (length X) _ _ Hs ltac:(lia) H0 Hi) as B. unfold below in B. lia. }
    rewrite (proj2 (Z.ltb_ge bp base)), (proj2 (Z.leb_le base x.1)), (proj2 (Z.ltb_lt x.1 bp)) by lia. cbn [andb orb]. rewrite Hp in Hi. by injection Hi as ->.
  - pose proof (High i x Hgt Hi). pose proof (High (S i) y ltac:(lia) Ey). pose proof (pairs_lookup _ _ _ _ _ _ Hs (Nat.lt_succ_diag_r i) Hi Ey) as Hxy.
    unfold below in Hxy. rewrite (proj2 (Z.ltb_ge x.1 bp)), (proj2 (Z.leb_gt y.1 x.1)) by lia. cbn [andb]. apply (IH (S i)); [done|].
    apply lookup_lt_Some in Ey. rewrite (proj2 (Nat.leb_gt _ _)) by lia. lia.
  - pose proof (High i x Hgt Hi). apply lookup_ge_None in Ey. apply lookup_lt_Some in Hi as Hi'. destruct Base as (x0 & H0 & Eb).
    rewrite (proj2 (Z.ltb_ge x.1 bp)), (proj2 (Z.ltb_ge bp base)) by lia. cbn [andb orb]. rewrite andb_false_r. rewrite <- Eb.
    apply (IH 0%nat); [done|]. cbn. lia.
Qed.

End Ring.

(** ** The invariant *)

(** The ring [base :: F] of free blocks and the blocks [A] in use. *)
Record inv (base : Z) (s : hst) (F A : list blk) : Prop := {
  v_base : 0 < base;
  v_links : links (mm s) ((base, 0) :: F) base;
  v_sorted : pairs below ((base, 0) :: F);
  v_dis : pairs dis (((base, 0) :: F) ++ A);
  v_sizes : Forall (fun x => 1 <= x.2) (F ++ A);
  v_low : Forall (fun x => base < x.1) A;
  v_hdr : Forall (fun x => wget (mm s) (x.1 + 4) = x.2) A;
  v_brk : Forall (fun x => ext x <= brk s) (((base, 0) :: F) ++ A);
  v_top : brk s <= 2 ^ 31;
  v_freep : exists n, (freep s, n) ∈ (base, 0) :: F }.

(** The blocks in use keep every byte. *)
Definition kept (A : list blk) (m m' : mem) : Prop := forall x a, x ∈ A -> x.1 <= a < ext x -> m' a = m a.

(** *** Giving a block back *)

Section Free.
Context (base : Z) (b : blk) (p : blk) (X Y A : list blk) (top : Z).
Context (Hbase : 0 < base) (Hb : base < b.1) (Hn : 1 <= b.2) (Hp0 : 0 < p.1) (Hpb : p.1 < b.1) (HY : Forall (fun y => 1 <= y.2 /\ b.1 < y.1) Y).
Context (D : pairs dis (b :: p :: X ++ Y ++ A)) (T : Forall (fun x => ext x <= top) (b :: p :: X ++ Y ++ A)) (Htop : top <= 2 ^ 31).

Lemma word_range m a v : 0 <= v < 2 ^ 31 -> wget (wput a v m) a = v.
Proof. intros. apply wget_wput. assert (2 ^ 31 < 2 ^ 32) by done. lia. Qed.

(** Blocks other than [b] and [p], from both. *)
Lemma apart x : x ∈ X ++ Y ++ A -> dis b x /\ dis p x.
Proof.
  intros Hx. destruct D as (Fb & Fp & _). rewrite Forall_cons in Fb. destruct Fb as [_ Fb]. rewrite Forall_forall in Fb, Fp. auto.
Qed.

Lemma p_apart : dis b p.
Proof. destruct D as (Fb & _). by inversion Fb. Qed.

(** Joining with the block above. *)
Lemma join_up m f : links m (p :: Y) base -> wget m (b.1 + 4) = b.2 -> exists m1 nb Y2,
  (let! n := s_size b.1 in
   let! q := s_ptr p.1 in
   if b.1 + SIZEOF_HEADER * n =? q then
     let! k := s_size q in
     set_size b.1 (u32 (n + k)) ;!
     let! r := s_ptr q in
     set_ptr b.1 r
   else set_ptr b.1 q) (Hst m f top) = Done tt (Hst m1 f top) /\
  (forall a, ~ (b.1 <= a < b.1 + 8) -> m1 a = m a) /\ wget m1 b.1 = next Y2 base /\ wget m1 (b.1 + 4) = nb /\ links m1 Y2 base /\
  (nb = b.2 /\ Y2 = Y \/ exists y, Y = y :: Y2 /\ b.1 + 8 * b.2 = y.1 /\ nb = b.2 + y.2).
Proof.
  intros (Ep & _ & LY) Eb. unfold bind at 1 2, s_size, s_ptr, gets. cbn [mm]. rewrite Eb, Ep. unfold SIZEOF_HEADER.
  assert (Ty : forall y, y ∈ Y -> dis b y /\ ext y <= top /\ 1 <= y.2 /\ b.1 < y.1).
  { intros y Hy. rewrite Forall_forall in HY, T. destruct (HY y Hy). split; [|split; [|done]].
    - apply apart. set_solver.
    - apply T. set_solver. }
  assert (Tb : ext b <= top) by (rewrite Forall_forall in T; apply T; set_solver).
  assert (Out : forall v w a, ~ (b.1 <= a < b.1 + 8) -> wput b.1 v (wput (b.1 + 4) w m) a = m a) by (intros; rewrite !wput_other by lia; done).
  assert (Out1 : forall v a, ~ (b.1 <= a < b.1 + 8) -> wput b.1 v m a = m a) by (intros; rewrite !wput_other by lia; done).
  assert (Frame : forall m1 Y2, (forall a, ~ (b.1 <= a < b.1 + 8) -> m1 a = m a) -> Y2 ⊆ Y -> links m Y2 base -> links m1 Y2 base).
  { intros m1 Y2 H Sub. apply links_agree. apply Forall_forall. intros y Hy. apply (agree_out m m1 b b y); [apply Ty; set_solver..|auto]. }
  destruct (Z.eqb_spec (b.1 + 8 * b.2) (next Y base)) as [E|N].
  - destruct Y as [|y Y2]; cbn [next] in *; [lia|]. destruct (Ty y) as (Dy & Ey & Sy & By); [set_solver|]. destruct LY as (Ly1 & Ly2 & LY).
    cbn in LY. unfold bind, set_size, set_ptr, modify. cbn [mm freep brk]. rewrite Ly2.
    assert (Hr : wget (wput (b.1 + 4) (u32 (b.2 + y.2)) m) y.1 = next Y2 base) by (rewrite wget_other; [done|unfold dis, ext in Dy; lia]).
    rewrite Hr. unfold ext in Ey, Tb. assert (Hs : u32 (b.2 + y.2) = b.2 + y.2) by (apply u32_small; lia). rewrite Hs.
    exists (wput b.1 (next Y2 base) (wput (b.1 + 4) (b.2 + y.2) m)), (b.2 + y.2), Y2. split; [done|]. split; [apply Out|].
    assert (0 <= next Y2 base < 2 ^ 31).
    { destruct Y2 as [|z Y2]; cbn [next]; [lia|]. destruct (Ty z) as (_ & Ez & Sz & Bz); [set_solver|]. unfold ext in Ez. lia. }
    split; [by apply word_range|]. split; [rewrite wget_other by lia; apply word_range; lia|]. split; [apply Frame; [apply Out|set_solver|done]|].
    right. by exists y.
  - unfold set_ptr, modify. cbn [mm freep brk]. exists (wput b.1 (next Y base) m), b.2, Y. split; [done|]. split; [apply Out1|].
    assert (0 <= next Y base < 2 ^ 31).
    { destruct Y as [|z Y2]; cbn [next]; [unfold ext in Tb; lia|]. destruct (Ty z) as (_ & Ez & Sz & Bz); [set_solver|]. unfold ext in Ez. lia. }
    split; [by apply word_range|]. split; [by rewrite wget_other by lia|]. split; [by apply Frame; [apply Out1|..]|]. by left.
Qed.

(** Joining with the block below. *)
Lemma join_low m1 f nb Y2 : wget m1 b.1 = next Y2 base -> wget m1 (b.1 + 4) = nb -> links m1 Y2 base -> wget m1 (p.1 + 4) = p.2 -> Y2 ⊆ Y ->
  1 <= nb -> b.1 + 8 * nb <= top -> 0 <= p.2 -> exists m2 Z2,
  (let! k := s_size p.1 in
   if p.1 + SIZEOF_HEADER * k =? b.1 then
     let! n := s_size b.1 in
     set_size p.1 (u32 (k + n)) ;!
     let! r := s_ptr b.1 in
     set_ptr p.1 r
   else set_ptr p.1 b.1) (Hst m1 f top) = Done tt (Hst m2 f top) /\
  (forall a, ~ (p.1 <= a < p.1 + 8) -> m2 a = m1 a) /\ links m2 Z2 base /\
  (p.1 + 8 * p.2 = b.1 /\ Z2 = (p.1, p.2 + nb) :: Y2 \/ Z2 = p :: (b.1, nb) :: Y2).
Proof.
  intros Eb1 Eb2 LY Ep Sub Hnb Hend Hp2. unfold bind at 1, s_size at 1, gets. cbn [mm]. rewrite Ep. unfold SIZEOF_HEADER.
  pose proof p_apart as Dbp. assert (Ty : forall y, y ∈ Y2 -> dis p y /\ ext y <= top /\ b.1 < y.1).
  { intros y Hy. rewrite Forall_forall in HY, T. destruct (HY y); [by apply Sub|]. split; [|split; [|done]].
    - apply apart. set_solver.
    - apply T. set_solver. }
  assert (Frame : forall m2, (forall a, ~ (p.1 <= a < p.1 + 8) -> m2 a = m1 a) -> links m2 Y2 base).
  { intros m2 H. eapply links_agree; [|done]. apply Forall_forall. intros y Hy. apply (agree_out m1 m2 p p y); [by apply Ty..|auto]. }
  assert (Rn : 0 <= next Y2 base < 2 ^ 31).
  { destruct Y2 as [|z Y3]; cbn [next]; [lia|]. destruct (Ty z) as (_ & Ez & Bz); [set_solver|]. unfold ext in Ez. lia. }
  destruct (Z.eqb_spec (p.1 + 8 * p.2) b.1) as [E|N].
  - unfold bind, set_size, s_ptr, s_size, set_ptr, modify, gets. cbn [mm freep brk]. rewrite Eb2.
    assert (Hs : u32 (p.2 + nb) = p.2 + nb) by (apply u32_small; lia). rewrite Hs.
    assert (Hr : wget (wput (p.1 + 4) (p.2 + nb) m1) b.1 = next Y2 base) by (rewrite wget_other; [done|unfold dis, ext in Dbp; lia]). rewrite Hr.
    exists (wput p.1 (next Y2 base) (wput (p.1 + 4) (p.2 + nb) m1)), ((p.1, p.2 + nb) :: Y2). split; [done|].
    assert (Out : forall a, ~ (p.1 <= a < p.1 + 8) -> wput p.1 (next Y2 base) (wput (p.1 + 4) (p.2 + nb) m1) a = m1 a) by (intros; rewrite !wput_other by lia; done).
    split; [exact Out|]. split; [|by left]. cbn [links next fst snd]. split; [by apply word_range|]. split; [rewrite wget_other by lia; apply word_range; lia|].
    by apply Frame.
  - unfold set_ptr, modify. cbn [mm freep brk]. exists (wput p.1 b.1 m1), (p :: (b.1, nb) :: Y2). split; [done|].
    assert (Out : forall a, ~ (p.1 <= a < p.1 + 8) -> wput p.1 b.1 m1 a = m1 a) by (intros; rewrite !wput_other by lia; done).
    split; [exact Out|]. split; [|by right]. cbn [links next fst snd]. split; [apply word_range; lia|]. split; [by rewrite wget_other by lia|].
    unfold dis, ext in Dbp. split; [rewrite wget_other by lia; done|]. split; [rewrite wget_other by lia; done|]. by apply Frame.
Qed.

End Free.

Lemma inv_dis_free base s F A x y : inv base s F A -> x ∈ (base, 0) :: F -> y ∈ A -> dis x y.
Proof.
  intros V Hx Hy. pose proof (v_dis _ _ _ _ V) as D. apply pairs_app in D as (_ & _ & C). rewrite Forall_forall in C.
  specialize (C x Hx). rewrite Forall_forall in C. auto.
Qed.

(** The ring with the new block in it, and what holds of the result. *)
Lemma free_ring base (b p : blk) X Y A nb Y2 Z2 top : 0 < base -> 1 <= b.2 -> 0 <= p.2 -> (p.2 = 0 -> p = (base, 0)) ->
  pairs dis (b :: p :: X ++ Y ++ A) -> Forall (fun x => ext x <= top) (b :: p :: X ++ Y ++ A) ->
  pairs below (X ++ p :: Y) -> Forall (fun x => x.1 < b.1) (X ++ [p]) -> Forall (fun y => 1 <= y.2 /\ b.1 < y.1) Y ->
  (nb = b.2 /\ Y2 = Y \/ exists y, Y = y :: Y2 /\ b.1 + 8 * b.2 = y.1 /\ nb = b.2 + y.2) ->
  (p.1 + 8 * p.2 = b.1 /\ Z2 = (p.1, p.2 + nb) :: Y2 \/ Z2 = p :: (b.1, nb) :: Y2) ->
  pairs below (X ++ Z2) /\ pairs dis ((X ++ Z2) ++ A) /\ Forall (fun x => ext x <= top) ((X ++ Z2) ++ A) /\
  (exists n', Z2 = (p.1, n') :: tail Z2 /\ p.2 <= n') /\ Forall (fun x => 1 <= x.2) (tail Z2) /\ (p.2 <> 0 -> Forall (fun x => 1 <= x.2) Z2) /\
  (p.2 = 0 -> exists W, Z2 = p :: W) /\ (exists y, y ∈ Z2 /\ b.2 <= y.2) /\ Y2 ⊆ Y /\ 1 <= nb /\ b.1 + 8 * nb <= top /\ (length Z2 <= length Y + 2)%nat.
Proof.
  intros Hbase Hb Hp Hp0 D T S Lo Hi H1 H2.
  (* the block above *)
  assert (J1 : pairs dis ((b.1, nb) :: p :: X ++ Y2 ++ A) /\ Forall (fun x => ext x <= top) ((b.1, nb) :: p :: X ++ Y2 ++ A) /\
    pairs below (X ++ p :: Y2) /\ Forall (fun y => 1 <= y.2 /\ b.1 < y.1) Y2 /\ b.2 <= nb /\ Y2 ⊆ Y /\ (length Y2 <= length Y)%nat).
  { destruct H1 as [[-> ->]|(y & -> & E & ->)]; [by destruct b|]. inversion Hi as [|? ? [Sy By] Hi']; subst.
    assert (P : Permutation (b :: p :: X ++ (y :: Y2) ++ A) (b :: y :: p :: X ++ Y2 ++ A)).
    { constructor. cbn [app]. rewrite <- Permutation_middle. apply perm_swap. }
    split; [apply pairs_join; [done..|]; eapply pairs_perm; [apply dis_sym|exact P|done]|].
    rewrite P in T. rewrite !Forall_cons in T. destruct T as (Tb & Ty & Tp & T).
    split; [rewrite !Forall_cons; split; [unfold ext in *; cbn; lia|done]|]. split.
    - apply pairs_app in S as (S1 & S2 & S3). cbn in S2. apply pairs_app. split; [done|]. destruct S2 as (S4 & S5 & S6). rewrite Forall_cons in S4. split; [exact (conj (proj2 S4) S6)|].
      eapply Forall_impl; [exact S3|]. cbn. intros z. rewrite !Forall_cons. tauto.
    - split; [done|]. split; [lia|]. split; [set_solver|cbn; lia]. }
  destruct J1 as (D1 & T1 & S1 & Hi1 & Hnb & Sub & Len). apply pairs_app in S1 as (SX & [Sp SY] & SC).
  assert (T1b : b.1 + 8 * nb <= top) by (inversion T1 as [|? ? Tb _]; unfold ext in Tb; cbn in Tb; lia).
  destruct H2 as [[E ->]| ->].
  - assert (Np : p.2 <> 0). { intros E0. rewrite E0 in E. apply Forall_app in Lo as [_ Lo]. inversion Lo. lia. }
    assert (J : pairs dis ((p.1, p.2 + nb) :: X ++ Y2 ++ A)).
    { apply (pairs_join p (b.1, nb)); cbn [fst snd]; [done|lia|lia|]. eapply pairs_perm; [apply dis_sym|apply perm_swap|done]. }
    split_and!.
    + apply pairs_app. split; [done|]. split; [split; [done|done]|]. eapply Forall_impl; [exact SC|]. cbn. intros z. rewrite !Forall_cons. done.
    + eapply pairs_perm; [apply dis_sym| |exact J]. rewrite <- app_assoc. cbn [app]. apply Permutation_middle.
    + rewrite <- app_assoc. cbn [app]. rewrite <- Permutation_middle. inversion T1 as [|? ? Tb T1']; subst. inversion T1' as [|? ? Tp T1'']; subst.
      constructor; [|done]. unfold ext in *. cbn in *. lia.
    + exists (p.2 + nb). split; [done|lia].
    + cbn. eapply Forall_impl; [exact Hi1|]. by intros ? [? _].
    + intros _. constructor; [cbn; lia|]. eapply Forall_impl; [exact Hi1|]. by intros ? [? _].
    + done.
    + exists (p.1, p.2 + nb). split; [set_solver|cbn; lia].
    + done.
    + lia.
    + done.
    + cbn. lia.
  - assert (Bp : p.1 < b.1) by (apply Forall_app in Lo as [_ Lo]; by inversion Lo).
    split_and!.
    + apply pairs_app. split; [done|]. split.
      * split; [constructor; [exact Bp|done]|]. split; [|done]. eapply Forall_impl; [exact Hi1|]. unfold below. by intros ? [_ ?].
      * apply Forall_app in Lo as [Lo _]. rewrite Forall_forall in *. intros z Hz. specialize (SC z Hz). rewrite Forall_cons in SC. destruct SC as [SC1 SC2].
        constructor; [done|]. constructor; [by apply Lo|done].
    + eapply pairs_perm; [apply dis_sym| |exact D1]. rewrite <- app_assoc. cbn [app]. rewrite <- !Permutation_middle. apply perm_swap.
    + rewrite <- app_assoc. cbn [app]. rewrite <- !Permutation_middle. inversion T1 as [|? ? Tb T1']; subst. inversion T1' as [|? ? Tp T1'']; subst.
      by repeat constructor.
    + exists p.2. split; [by destruct p|lia].
    + cbn. constructor; [cbn; lia|]. eapply Forall_impl; [exact Hi1|]. by intros ? [? _].
    + intros Np. constructor; [lia|]. constructor; [cbn; lia|]. eapply Forall_impl; [exact Hi1|]. by intros ? [? _].
    + intros _. eexists. reflexivity.
    + exists (b.1, nb). split; [set_solver|cbn; lia].
    + done.
    + lia.
    + done.
    + cbn. lia.
Qed.

Lemma free_ok base s F A A' b fuel : inv base s F A -> Permutation A (b :: A') -> (2 * length F + 2 < fuel)%nat ->
  exists s' F', free fuel (b.1 + 8) s = Done tt s' /\ inv base s' F' A' /\ brk s' = brk s /\ kept A' (mm s) (mm s') /\
    (exists y, y ∈ F' /\ b.2 <= y.2) /\ (length F' <= length F + 1)%nat.
Proof.
  intros V PA Hf. destruct V as [Vb Vl Vs Vd Vz Vlow Vh Vk Vt [nf Vf]]. rewrite PA in Vlow, Vh, Vz, Vk.
  assert (Vd' : pairs dis (((base, 0) :: F) ++ b :: A')) by (eapply pairs_perm; [apply dis_sym|by rewrite <- PA|done]). clear Vd PA.
  inversion Vlow as [|? ? Lb Vlow']; subst. inversion Vh as [|? ? Hb Vh']; subst. apply Forall_app in Vz as [VzF VzA]. inversion VzA as [|? ? Sb VzA']; subst.
  destruct (place base F b.1 Lb Vs) as (X & p & Y & EL & Lo & Hi).
  { apply pairs_app in Vd' as (_ & _ & C). inversion C as [|? ? _ C']; subst. eapply Forall_impl; [exact C'|]. cbn. intros x Hx.
    inversion Hx as [|? ? D _]; subst. unfold dis, ext in D. intros E. lia. }
  rewrite EL in Vl, Vs, Vd', Vk, Vf. assert (Hlen : length (X ++ p :: Y) = S (length F)) by (rewrite <- EL; done).
  assert (Pm : Permutation ((X ++ p :: Y) ++ b :: A') (b :: p :: X ++ Y ++ A')).
  { rewrite <- app_assoc. cbn [app]. rewrite <- Permutation_middle, app_assoc, <- Permutation_middle, <- app_assoc. apply perm_swap. }
  assert (D : pairs dis (b :: p :: X ++ Y ++ A')) by (eapply pairs_perm; [apply dis_sym|exact Pm|done]).
  rewrite Pm in Vk. assert (HX : X = [] /\ p = (base, 0) /\ Y = F \/ exists X', X = (base, 0) :: X' /\ F = X' ++ p :: Y).
  { destruct X as [|x X]; injection EL as <- ->; [by left|right; by exists X]. }
  assert (Hp2 : 0 <= p.2 /\ (p.2 = 0 -> p = (base, 0)) /\ 0 < p.1 /\ Forall (fun y => 1 <= y.2) Y /\ Forall (fun y => 1 <= y.2) (tail X)).
  { destruct HX as [(-> & -> & ->)|(X' & -> & ->)]; [cbn; done|]. apply Forall_app in VzF as [VX VpY]. inversion VpY as [|? ? Vp VY]; subst.
    apply pairs_app in Vs as (_ & _ & C). inversion C as [|? ? Cb _]; subst. inversion Cb as [|? ? Bp _]; subst. unfold below in Bp. cbn in *. split_and!; try done; lia. }
  destruct Hp2 as (Hp2 & Hp0 & Hp1 & VY & VX). assert (HiY : Forall (fun y => 1 <= y.2 /\ b.1 < y.1) Y).
  { rewrite Forall_forall in *. auto. }
  assert (Hpb : p.1 < b.1) by (apply Forall_app in Lo as [_ Lo']; by inversion Lo').
  assert (Hnx : next (X ++ p :: Y) base = base) by (destruct HX as [(-> & -> & ->)|(X' & -> & ->)]; done).
  apply list_elem_of_lookup in Vf as [i Hi0].
  assert (Ep : free_place fuel b.1 (freep s) s = Done p.1 s).
  { apply (free_place_ok base s X p Y b.1 Vl Vs Hnx Lo Hi Lb fuel i (freep s, nf) Hi0). pose proof (lookup_lt_Some _ _ _ Hi0).
    rewrite Hlen in *. destruct (i <=? length X)%nat; rewrite length_app in Hlen; cbn in Hlen; lia. }
  pose proof Vl as Vl0. apply links_app in Vl as [LX LpY]. destruct s as [m f top]. cbn [mm freep brk] in *.
  destruct (join_up base b p X Y A' top Vb Lb Sb Hp1 Hpb HiY D Vk Vt m f LpY Hb) as (m1 & nb & Y2 & E1 & O1 & W1 & W2 & LY2 & C1).
  set (Z2 := if decide (p.1 + 8 * p.2 = b.1) then (p.1, p.2 + nb) :: Y2 else p :: (b.1, nb) :: Y2).
  assert (C2 : p.1 + 8 * p.2 = b.1 /\ Z2 = (p.1, p.2 + nb) :: Y2 \/ Z2 = p :: (b.1, nb) :: Y2) by (unfold Z2; destruct (decide _); auto).
  destruct (free_ring base b p X Y A' nb Y2 Z2 top Vb Sb Hp2 Hp0 D Vk Vs Lo HiY C1 C2) as (_ & _ & _ & _ & _ & _ & _ & _ & Sub & Hnb & Hend & _).
  pose proof (p_apart b p X Y A' D) as Dbp. clear C2 Z2.
  assert (Wp : wget m1 (p.1 + 4) = p.2).
  { destruct LpY as (_ & <- & _). assert (Ag : agree m m1 p) by (apply (agree_out m m1 b b p); auto). apply (agree_words _ _ _ Ag). }
  destruct (join_low base b p X Y A' top Vb Lb Sb Hp1 Hpb HiY D Vk Vt m1 f nb Y2 W1 W2 LY2 Wp Sub Hnb Hend Hp2) as (m2 & Z2 & E2 & O2 & LZ & C2).
  destruct (free_ring base b p X Y A' nb Y2 Z2 top Vb Sb Hp2 Hp0 D Vk Vs Lo HiY C1 C2) as (Sr & Dr & Tr & (n' & EZ & Hn') & Ztl & Zall & Z0 & (y & Hy & Hby) & _ & _ & _ & Lz).
  assert (Ap : forall x, x ∈ X ++ Y ++ A' -> agree m m2 x /\ (forall a, x.1 <= a < ext x -> m2 a = m a)).
  { intros x Hx. destruct (apart b p X Y A' D x Hx) as [Db Dp]. assert (forall a, x.1 <= a < ext x -> m2 a = m a).
    { intros a Ha. unfold dis, ext in *. rewrite O2, O1 by lia. done. }
    split; [|done]. intros a Ha. unfold ext in *. auto with lia. }
  exists (Hst m2 p.1 top). exists (tail (X ++ Z2)). cbn [mm freep brk].
  assert (EL2 : X ++ Z2 = (base, 0) :: tail (X ++ Z2)).
  { destruct HX as [(-> & -> & ->)|(X' & -> & ->)]; [|done]. destruct (Z0 eq_refl) as [W ->]. done. }
  split; [|split; [|split; [done|split; [|split]]]].
  - unfold free, SIZEOF_HEADER in *. replace (b.1 + 8 - 8) with b.1 by lia.
    rewrite (bind_Done (gets freep) _ (Hst m f top) f (Hst m f top) eq_refl), (bind_Done _ _ _ _ _ Ep).
    rewrite (bind_Done (s_size b.1) _ (Hst m f top) (wget m (b.1 + 4)) (Hst m f top) eq_refl), (bind_Done (s_ptr p.1) _ (Hst m f top) (wget m p.1) (Hst m f top) eq_refl).
    rewrite (bind_Done (s_size b.1) _ (Hst m f top) (wget m (b.1 + 4)) (Hst m f top) eq_refl), (bind_Done (s_ptr p.1) _ (Hst m f top) (wget m p.1) (Hst m f top) eq_refl) in E1.
    rewrite (bind_Done _ _ _ _ _ E1). 
    rewrite (bind_Done (s_size p.1) _ (Hst m1 f top) (wget m1 (p.1 + 4)) (Hst m1 f top) eq_refl).
    rewrite (bind_Done (s_size p.1) _ (Hst m1 f top) (wget m1 (p.1 + 4)) (Hst m1 f top) eq_refl) in E2. rewrite (bind_Done _ _ _ _ _ E2). done.
  - constructor; cbn [mm freep brk]; rewrite <- ?EL2; try done.
    + apply links_app. split; [|done]. assert (Enx : next Z2 base = next (p :: Y) base) by (by rewrite EZ). rewrite Enx.
      eapply links_agree; [|exact LX]. apply Forall_forall. intros x Hx. apply Ap. rewrite elem_of_app. by left.
    + apply Forall_app. split; [|done]. destruct HX as [(-> & -> & ->)|(X' & -> & ->)]; cbn [app tail]; [done|].
      apply Forall_app. split; [done|]. apply Zall. intros E0. apply Hp0 in E0.
      apply Forall_app in VzF as [_ VpY]. inversion VpY as [|? ? Vp _]; subst. cbn in Vp. lia.
    + rewrite Forall_forall in *. intros x Hx. specialize (Vh' x Hx). destruct (Ap x ltac:(rewrite !elem_of_app; auto)) as [Ag _]. destruct (agree_words _ _ _ Ag) as [_ ->]. done.
    + exists n'. rewrite EZ, elem_of_app, elem_of_cons. auto.
  - intros x a Hx. apply Ap. rewrite !elem_of_app. auto.
  - exists y. split; [|done]. assert (y ∈ X ++ Z2) as Hy2 by (rewrite elem_of_app; auto). rewrite EL2 in Hy2. apply elem_of_cons in Hy2 as [->|]; [cbn in Hby; lia|done].
  - rewrite length_app in Hlen. cbn in Hlen. assert (length (X ++ Z2) = S (length (tail (X ++ Z2)))) as E3 by (by rewrite EL2).
    rewrite length_app in E3. lia.
Qed.

(** *** Taking a block *)

Lemma pairs_sub R a x b : pairs R (a ++ x :: b) -> pairs R (a ++ b).
Proof.
  rewrite !pairs_app. intros (Ha & [_ Hb] & C). split; [done|]. split; [done|]. eapply Forall_impl; [exact C|]. cbn. intros y. rewrite Forall_cons. tauto.
Qed.

Lemma perm_two (B G A : list blk) u v : Permutation ((B ++ u :: G) ++ v :: A) (u :: v :: B ++ G ++ A).
Proof.
  transitivity (v :: u :: B ++ G ++ A); [|apply perm_swap]. rewrite <- Permutation_middle. constructor. rewrite <- app_assoc. symmetry.
  apply Permutation_middle.
Qed.

(** A block cut in two. *)
Lemma pairs_cut a n k l : 1 <= k < n -> pairs dis ((a, n) :: l) -> pairs dis ((a, n - k) :: (a + 8 * (n - k), k) :: l).
Proof.
  intros Hk [F H]. cbn. rewrite Forall_cons. split; [split; [left; unfold ext; cbn; lia|]|split; [|done]];
    (eapply Forall_impl; [exact F|]; unfold dis, ext; cbn; intros; lia).
Qed.

(** The code that takes [nu] units from the block [x], with [pv] in front of it. *)
Section Malloc.
Context (base : Z) (grants : Z -> Z -> bool).

Lemma ring_apart s F1 F2 A x : inv base s (F1 ++ x :: F2) A ->
  (forall y, y ∈ ((base, 0) :: F1) ++ F2 ++ A -> dis x y) /\ base < x.1 /\ 1 <= x.2 /\ ext x <= brk s.
Proof.
  intros V. split; [|split; [|split]].
  - pose proof (v_dis _ _ _ _ V) as D. change ((base, 0) :: F1 ++ x :: F2) with (((base, 0) :: F1) ++ x :: F2) in D. rewrite <- app_assoc in D.
    assert (P : Permutation (((base, 0) :: F1) ++ (x :: F2) ++ A) (x :: ((base, 0) :: F1) ++ F2 ++ A)) by (symmetry; apply Permutation_middle).
    apply (pairs_perm _ _ _ dis_sym P) in D as [D _]. by rewrite Forall_forall in D.
  - pose proof (v_sorted _ _ _ _ V) as [S _]. rewrite Forall_app, Forall_cons in S. apply S.
  - pose proof (v_sizes _ _ _ _ V) as S. rewrite !Forall_app, Forall_cons in S. apply S.
  - pose proof (v_brk _ _ _ _ V) as S. change ((base, 0) :: F1 ++ x :: F2) with (((base, 0) :: F1) ++ x :: F2) in S.
    rewrite !Forall_app, !Forall_cons in S. apply S.
Qed.

(** The whole block. *)
Lemma take_all s F1 F2 A x X pv : inv base s (F1 ++ x :: F2) A -> (base, 0) :: F1 = X ++ [pv] ->
  let s' := Hst (wput pv.1 (wget (mm s) x.1) (mm s)) pv.1 (brk s) in inv base s' (F1 ++ F2) (x :: A) /\ kept A (mm s) (mm s').
Proof.
  intros V EX. destruct (ring_apart _ _ _ _ _ V) as (Dx & Bx & Sx & Tx). cbn zeta. pose proof V as [Vb Vl Vs Vd Vz Vlow Vh Vk Vt _].
  assert (Hpv : pv ∈ (base, 0) :: F1) by (rewrite EX, elem_of_app; right; by left).
  pose proof Vd as D. change ((base, 0) :: F1 ++ x :: F2) with (((base, 0) :: F1) ++ x :: F2) in D. rewrite <- app_assoc in D.
  assert (Dp : forall y, y ∈ F2 ++ A -> dis pv y).
  { intros y Hy. apply pairs_app in D as (_ & _ & C). rewrite Forall_forall in C. specialize (C pv Hpv). cbn [app] in C. rewrite Forall_cons in C. destruct C as [_ C].
    rewrite Forall_forall in C. by apply C. }
  assert (DX : forall y, y ∈ X -> dis pv y).
  { intros y Hy. rewrite EX, <- app_assoc in D. apply pairs_app in D as (_ & _ & C). rewrite Forall_forall in C. specialize (C y Hy). apply dis_sym. by inversion C. }
  assert (Dpx : dis pv x) by (apply dis_sym, Dx; rewrite elem_of_app; by left).
  change ((base, 0) :: F1 ++ x :: F2) with (((base, 0) :: F1) ++ x :: F2) in Vl. rewrite EX, <- app_assoc in Vl. apply links_app in Vl as [LX (Lp1 & Lp2 & Lx1 & Lx2 & L2)].
  set (m' := wput pv.1 (wget (mm s) x.1) (mm s)).
  assert (O : forall a, ~ (pv.1 <= a < pv.1 + 8) -> m' a = mm s a) by (intros; unfold m'; apply wput_other; lia).
  assert (Ag : forall y, dis pv y -> agree (mm s) m' y /\ forall a, y.1 <= a < ext y -> m' a = mm s a).
  { intros y Dy. split; [apply (agree_out _ _ pv pv); auto|]. intros a Ha. apply O. unfold dis, ext in *. lia. }
  assert (R2 : 0 <= next F2 base < 2 ^ 31).
  { destruct F2 as [|y F3]; cbn [next]; [|assert (Hy : y ∈ ((base, 0) :: F1 ++ x :: y :: F3) ++ A) by (rewrite elem_of_app, elem_of_cons, elem_of_app; left; right; right; rewrite !elem_of_cons; auto);
      rewrite Forall_forall in Vk; specialize (Vk y Hy); unfold ext in Vk; destruct Vs as [Vs _]; rewrite Forall_app, !Forall_cons in Vs; unfold below in Vs; cbn in Vs; lia].
    unfold ext in Tx. lia. }
  split; [|intros y a Hy; apply Ag, Dp; rewrite elem_of_app; auto].
  assert (P : Permutation (((base, 0) :: F1 ++ x :: F2) ++ A) (((base, 0) :: F1 ++ F2) ++ x :: A)).
  { cbn [app]. constructor. transitivity (x :: (F1 ++ F2) ++ A); [|apply Permutation_middle]. rewrite <- !app_assoc. symmetry. apply Permutation_middle. }
  constructor; cbn [mm freep brk]; fold m'.
  - done.
  - change ((base, 0) :: F1 ++ F2) with (((base, 0) :: F1) ++ F2). rewrite EX, <- app_assoc. apply links_app. split.
    + eapply links_agree; [|exact LX]. apply Forall_forall. intros y Hy. by apply Ag, DX.
    + cbn [app links]. split; [unfold m'; rewrite Lx1; by apply word_range|]. split; [unfold m'; rewrite wget_other by lia; done|].
      eapply links_agree; [|exact L2]. apply Forall_forall. intros y Hy. apply Ag, Dp. rewrite elem_of_app. auto.
  - change ((base, 0) :: F1 ++ F2) with (((base, 0) :: F1) ++ F2). by apply (pairs_sub _ _ x).
  - eapply pairs_perm; [apply dis_sym|exact P|done].
  - rewrite <- app_assoc in Vz. cbn [app] in Vz. rewrite <- Permutation_middle in Vz. rewrite <- app_assoc, <- !Permutation_middle. done.
  - by constructor.
  - constructor; [destruct (agree_words _ _ _ (proj1 (Ag x Dpx))) as [_ ->]; done|]. rewrite Forall_forall in *. intros y Hy.
    destruct (agree_words _ _ _ (proj1 (Ag y (Dp y ltac:(rewrite elem_of_app; auto))))) as [_ ->]. auto.
  - by rewrite <- P.
  - done.
  - exists pv.2. change ((base, 0) :: F1 ++ F2) with (((base, 0) :: F1) ++ F2). rewrite elem_of_app. left. by destruct pv.
Qed.

(** The end of a larger block. *)
Lemma take_part s F1 F2 A x pv nu : inv base s (F1 ++ x :: F2) A -> pv ∈ (base, 0) :: F1 -> 1 <= nu < x.2 ->
  let a := x.1 + 8 * (x.2 - nu) in
  let s' := Hst (wput (a + 4) nu (wput (x.1 + 4) (x.2 - nu) (mm s))) pv.1 (brk s) in
  inv base s' (F1 ++ (x.1, x.2 - nu) :: F2) ((a, nu) :: A) /\ kept A (mm s) (mm s').
Proof.
  intros V Hpv Hnu. destruct (ring_apart _ _ _ _ _ V) as (Dx & Bx & Sx & Tx). cbn zeta. pose proof V as [Vb Vl Vs Vd Vz Vlow Vh Vk Vt _].
  set (a := x.1 + 8 * (x.2 - nu)). set (m' := wput (a + 4) nu _). unfold ext in Tx.
  assert (O : forall c, ~ (x.1 <= c < ext x) -> m' c = mm s c) by (intros c Hc; unfold m', a, ext in *; rewrite !wput_other by lia; done).
  assert (Ag : forall y, y ∈ ((base, 0) :: F1) ++ F2 ++ A -> agree (mm s) m' y /\ forall c, y.1 <= c < ext y -> m' c = mm s c).
  { intros y Hy. specialize (Dx y Hy). split; intros c Hc; apply O; unfold dis, ext in *; lia. }
  assert (Wx : wget m' x.1 = wget (mm s) x.1) by (unfold m', a; rewrite !wget_other by lia; done).
  assert (Ws : wget m' (x.1 + 4) = x.2 - nu) by (unfold m', a; rewrite wget_other by lia; apply word_range; lia).
  assert (Wa : wget m' (a + 4) = nu) by (unfold m'; apply word_range; lia).
  change ((base, 0) :: F1 ++ x :: F2) with (((base, 0) :: F1) ++ x :: F2) in Vl, Vs, Vd, Vk. apply links_app in Vl as [L1 (Lx & _ & L2)].
  split; [|intros y c Hy; apply Ag; rewrite !elem_of_app; auto].
  assert (P : Permutation ((((base, 0) :: F1) ++ (x.1, x.2 - nu) :: F2) ++ (a, nu) :: A) ((x.1, x.2 - nu) :: (a, nu) :: ((base, 0) :: F1) ++ F2 ++ A)).
  { apply perm_two. }
  assert (Px : Permutation ((((base, 0) :: F1) ++ x :: F2) ++ A) ((x.1, x.2) :: ((base, 0) :: F1) ++ F2 ++ A)).
  { rewrite <- app_assoc. destruct x. symmetry. apply Permutation_middle. }
  constructor; cbn [mm freep brk]; fold m'; change ((base, 0) :: F1 ++ (x.1, x.2 - nu) :: F2) with (((base, 0) :: F1) ++ (x.1, x.2 - nu) :: F2).
  - done.
  - apply links_app. split; [eapply links_agree; [|exact L1]|].
    + apply Forall_forall. intros y Hy. apply Ag. rewrite elem_of_app. auto.
    + cbn [links fst snd]. split; [by rewrite Wx|]. split; [done|]. eapply links_agree; [|exact L2]. apply Forall_forall. intros y Hy. apply Ag. rewrite !elem_of_app. auto.
  - apply pairs_app in Vs as (S1 & [S2 S3] & S4). apply pairs_app. split; [done|]. split; [by split|]. eapply Forall_impl; [exact S4|]. cbn. intros y. rewrite !Forall_cons. done.
  - eapply pairs_perm; [apply dis_sym|symmetry; exact P|]. apply pairs_cut; [lia|]. eapply pairs_perm; [apply dis_sym|exact Px|done].
  - apply Forall_app in Vz as [Vz VA]. apply Forall_app in Vz as [V1 V2]. apply Forall_app. split; [apply Forall_app; split; [done|]|];
      (constructor; [cbn; lia|]); [by inversion V2|done].
  - constructor; [cbn; unfold a; lia|done].
  - constructor; [done|]. rewrite Forall_forall in *. intros y Hy. destruct (agree_words _ _ _ (proj1 (Ag y ltac:(rewrite !elem_of_app; auto)))) as [_ ->]. auto.
  - rewrite Px in Vk. rewrite P. rewrite !Forall_cons in *. destruct Vk as [T1 T2]. unfold ext in *. cbn [fst snd] in *. split; [lia|]. split; [unfold a; lia|done].
  - done.
  - exists pv.2. rewrite elem_of_app. left. by destruct pv.
Qed.

(** [y] is in front of [x] in the ring. *)
Definition before (L : list blk) (i : nat) (y : blk) : Prop := exists j, L !! j = Some y /\ (i = S j \/ i = O /\ S j = length L).

Lemma loop_takes s F A L i x pv nu fuel : L = (base, 0) :: F -> inv base s F A -> L !! i = Some x -> before L i pv -> 1 <= nu <= x.2 ->
  exists a s' F', malloc_loop grants (S fuel) pv.1 x.1 nu s = Done (Some (a + 8)) s' /\ inv base s' F' ((a, nu) :: A) /\ kept A (mm s) (mm s') /\ brk s' = brk s.
Proof.
  intros -> V Hi (j & Hj & B) Hnu. destruct i as [|i]; [cbn in Hi; injection Hi as <-; cbn in Hnu; lia|]. destruct B as [[= ->]|[]]; [|done].
  cbn in Hi. apply list_elem_of_split_length in Hi as (F1 & F2 & -> & ->).
  assert (EX : (base, 0) :: F1 = take (length F1) ((base, 0) :: F1) ++ [pv]).
  { change ((base, 0) :: F1 ++ x :: F2) with (((base, 0) :: F1) ++ x :: F2) in Hj. rewrite lookup_app_l in Hj by (cbn; lia).
    rewrite <- (take_drop (length F1) ((base, 0) :: F1)) at 1. f_equal. rewrite (drop_S _ _ _ Hj). by rewrite drop_ge by (cbn; lia). }
  pose proof (v_links _ _ _ _ V) as Vl. change ((base, 0) :: F1 ++ x :: F2) with (((base, 0) :: F1) ++ x :: F2) in Vl. apply links_app in Vl as [_ (_ & Lx & _)].
  cbn [malloc_loop]. rewrite (bind_Done (s_size x.1) _ s x.2 s) by (unfold s_size, gets; by rewrite Lx).
  rewrite (proj2 (Z.leb_le nu x.2)) by lia. destruct (Z.eqb_spec x.2 nu) as [En|Nn].
  - destruct (take_all s F1 F2 A x _ pv V EX) as [V' K]. exists x.1. eexists _, (F1 ++ F2).
    split; [reflexivity|]. cbn [mm freep brk]. destruct x as [x n]. cbn in En. subst n. split; [exact V'|]. split; [exact K|done].
  - destruct (take_part s F1 F2 A x pv nu V) as [V' K]; [rewrite EX, elem_of_app; right; by left|lia|].
    exists (x.1 + 8 * (x.2 - nu)). eexists _, (F1 ++ (x.1, x.2 - nu) :: F2). split; [reflexivity|]. split; [exact V'|]. split; [exact K|done].
Qed.

(** The places that a walk of [d] steps from place [i] comes to, in a ring of [n]. *)
Definition visited (n i d j : nat) : Prop := (i <= j <= i + d)%nat \/ (i <= j + n <= i + d)%nat.

(** The walk round the ring, up to [freep] at place [k]: it comes to a block that is
    large enough, or there is none on its way. *)
Lemma walk_ok s F A L k nu f0 nk : L = (base, 0) :: F -> inv base s F A -> L !! k = Some (freep s, nk) ->
  forall d i x pv fuel, (d < fuel)%nat -> (d < length L)%nat -> (i + d = k \/ i + d = k + length L)%nat -> L !! i = Some x -> before L i pv -> f0 = fuel ->
  (exists j y pvy fuel', L !! j = Some y /\ before L j pvy /\ nu <= y.2 /\ (fuel <= S fuel' + d)%nat /\
     malloc_loop grants fuel pv.1 x.1 nu s = malloc_loop grants (S fuel') pvy.1 y.1 nu s) \/
  ((forall j y, visited (length L) i d j -> L !! j = Some y -> y.2 < nu) /\
   exists pk fuel', (fuel <= S fuel' + d)%nat /\ malloc_loop grants fuel pv.1 x.1 nu s = malloc_loop grants (S fuel') pk (freep s) nu s).
Proof.
  intros -> V Hk d. set (L := (base, 0) :: F) in *. revert f0. induction d as [|d IH]; intros f0 i x pv fuel Hf Hdl Hd Hi Hb _.
  all: pose proof (lookup_lt_Some _ _ _ Hi) as Li; pose proof (lookup_lt_Some _ _ _ Hk) as Lk.
  - assert (i = k) as -> by lia. assert (x = (freep s, nk)) as -> by congruence. destruct fuel as [|fuel]; [lia|]. cbn [fst]. destruct (decide (nu <= nk)).
    + left. exists k, (freep s, nk), pv, fuel. split_and!; done || lia.
    + right. split; [|exists pv.1, fuel; split; [lia|done]]. intros j y [Hj|Hj] Hy; [assert (j = k) as -> by lia|pose proof (lookup_lt_Some _ _ _ Hy); lia].
      assert (y = (freep s, nk)) as -> by congruence. cbn. lia.
  - destruct fuel as [|fuel]; [lia|]. destruct (decide (nu <= x.2)); [left; exists i, x, pv, fuel; split_and!; done || lia|].
    destruct (ptr_at _ _ _ _ _ (v_links _ _ _ _ V) Hi) as [Ep Es].
    assert (Nf : x.1 <> freep s).
    { intros E. assert (i <> k) by lia. pose proof (v_sorted _ _ _ _ V) as S. fold L in S.
      assert (C : (i < k \/ k < i)%nat) by lia. destruct C as [C|C]; [pose proof (pairs_lookup _ _ _ _ _ _ S C Hi Hk) as B|pose proof (pairs_lookup _ _ _ _ _ _ S C Hk Hi) as B];
        unfold below in B; cbn in B; lia. }
    assert (Hn : exists i' y, L !! i' = Some y /\ before L i' x /\ wget (mm s) x.1 = y.1 /\ (i' = S i \/ i' = O /\ S i = length L)).
    { fold L in Ep. destruct (L !! S i) as [y|] eqn:Ey.
      - exists (S i), y. split; [done|]. split; [exists i; auto|]. auto.
      - apply lookup_ge_None in Ey. exists O, (base, 0). split; [done|]. split; [exists i; split; [done|right; lia]|]. split; [done|]. right. lia. }
    destruct Hn as (i' & y & Hy & By & Ey & Hi').
    assert (E : malloc_loop grants (S fuel) pv.1 x.1 nu s = malloc_loop grants fuel x.1 y.1 nu s).
    { cbn [malloc_loop]. rewrite (bind_Done (s_size x.1) _ s x.2 s) by (unfold s_size, gets; by rewrite Es). rewrite (proj2 (Z.leb_gt nu x.2)) by lia.
      rewrite (bind_Done (gets freep) _ s (freep s) s eq_refl). rewrite (proj2 (Z.eqb_neq _ _) Nf).
      by rewrite (bind_Done (s_ptr x.1) _ s y.1 s) by (unfold s_ptr, gets; by rewrite Ey). }
    rewrite E. destruct (IH fuel i' y x fuel ltac:(lia) ltac:(lia) ltac:(lia) Hy By eq_refl) as [(j & z & pz & f' & H1 & H2 & H3 & H4 & H5)|[H1 (pk & f' & H2 & H3)]].
    + left. exists j, z, pz, f'. split_and!; done || lia.
    + right. split; [|exists pk, f'; split; [lia|done]]. intros j z Hj Hz. destruct (decide (j = i)) as [->|Nj]; [assert (z = x) as -> by congruence; lia|].
      apply (H1 j z); [|done]. pose proof (lookup_lt_Some _ _ _ Hz). unfold visited in *. lia.
Qed.

(** Once round the ring from the place behind [freep]. *)
Lemma round_ok s F A nu fuel : inv base s F A -> (length F < fuel)%nat -> 1 <= nu ->
  (exists a s' F', malloc_loop grants fuel (freep s) (wget (mm s) (freep s)) nu s = Done (Some (a + 8)) s' /\
     inv base s' F' ((a, nu) :: A) /\ kept A (mm s) (mm s')) \/
  (Forall (fun x => x.2 < nu) F /\ exists pk fuel', (fuel <= S fuel' + length F)%nat /\
     malloc_loop grants fuel (freep s) (wget (mm s) (freep s)) nu s = malloc_loop grants (S fuel') pk (freep s) nu s).
Proof.
  intros V Hf Hnu. destruct (v_freep _ _ _ _ V) as [nk Hk]. apply list_elem_of_lookup in Hk as [k Hk]. set (L := (base, 0) :: F) in *.
  pose proof (lookup_lt_Some _ _ _ Hk) as Lk. destruct (ptr_at _ _ _ _ _ (v_links _ _ _ _ V) Hk) as [Ep _]. cbn [fst] in Ep. fold L in Ep.
  assert (Hs : exists i x, L !! i = Some x /\ before L i (freep s, nk) /\ wget (mm s) (freep s) = x.1 /\ (i + length F = k \/ i + length F = k + length L)%nat).
  { destruct (L !! S k) as [y|] eqn:Ey.
    - exists (S k), y. split; [done|]. split; [exists k; auto|]. split; [done|]. right. cbn. lia.
    - apply lookup_ge_None in Ey. exists O, (base, 0). split; [done|]. split; [exists k; split; [done|right; lia]|]. split; [done|]. left. cbn in *. lia. }
  destruct Hs as (i & x & Hi & Bi & Ex & Hd). rewrite Ex.
  destruct (walk_ok s F A L k nu fuel nk eq_refl V Hk (length F) i x (freep s, nk) fuel Hf ltac:(cbn; lia) Hd Hi Bi eq_refl) as [(j & y & py & f' & H1 & H2 & H3 & _ & H4)|[H1 H2]].
  - left. cbn [fst] in H4. rewrite H4. destruct (loop_takes s F A L j y py nu f' eq_refl V H1 H2 ltac:(lia)) as (a & s' & F' & E & V' & K & _). by exists a, s', F'.
  - right. split; [|exact H2]. apply Forall_forall. intros y Hy. apply list_elem_of_lookup in Hy as [j Hj]. apply (H1 (S j) y); [|done].
    pose proof (lookup_lt_Some _ _ _ Hj). unfold visited. cbn in *. lia.
Qed.

(** What the kernel grants is below its own addresses. *)
Context (Hgrants : forall b n, grants b n = true -> b + n <= 2 ^ 31).

Lemma morecore_ok s F A nu fuel : inv base s F A -> 1 <= nu -> nu * 8 < 2 ^ 31 -> (2 * length F + 2 < fuel)%nat ->
  (grants (brk s) (8 * Z.max 4096 nu) = false /\ morecore grants fuel nu s = Done None s) \/
  exists s' F', morecore grants fuel nu s = Done (Some (freep s')) s' /\ inv base s' F' A /\ kept A (mm s) (mm s') /\
    (exists y, y ∈ F' /\ nu <= y.2) /\ (length F' <= length F + 1)%nat.
Proof.
  intros V Hnu Hnu8 Hf. unfold morecore, SIZEOF_HEADER. set (n := if nu <? 4096 then 4096 else nu).
  assert (En : n = Z.max 4096 nu) by (unfold n; destruct (Z.ltb_spec nu 4096); lia).
  assert (E8 : s32 (u32 (n * 8)) = 8 * n) by (rewrite u32_small, s32_small by lia; lia). rewrite E8, <- En. clearbody n. unfold sbrk.
  destruct (grants (brk s) (8 * n)) eqn:Eg; [right|left; split; [done|]].
  2:{ rewrite (bind_Done _ _ s (-1) s) by (by rewrite Eg). done. }
  pose proof (Hgrants _ _ Eg) as Ht. destruct V as [Vb Vl Vs Vd Vz Vlow Vh Vk Vt Vf]. set (b := (brk s, n) : blk).
  assert (Bb : ext (base, 0) <= brk s) by (by inversion Vk). unfold ext in Bb. cbn in Bb.
  rewrite (bind_Done _ _ s (brk s) (Hst (mm s) (freep s) (brk s + 8 * n))) by (by rewrite Eg). rewrite (proj2 (Z.eqb_neq (brk s) (-1))) by lia.
  set (s1 := Hst (wput (brk s + 4) n (mm s)) (freep s) (brk s + 8 * n)).
  rewrite (bind_Done (set_size (brk s) n) _ (Hst (mm s) (freep s) (brk s + 8 * n)) tt s1 eq_refl).
  assert (O : forall x a, x ∈ ((base, 0) :: F) ++ A -> x.1 <= a < ext x -> mm s1 a = mm s a).
  { intros x a Hx Ha. rewrite Forall_forall in Vk. specialize (Vk x Hx). cbn. apply wput_other. lia. }
  assert (Ag : forall x, x ∈ ((base, 0) :: F) ++ A -> agree (mm s) (mm s1) x) by (intros x Hx a Ha; apply (O x); [done|unfold ext; lia]).
  assert (V1 : inv base s1 F (b :: A)).
  { constructor; try done.
    - eapply links_agree; [|exact Vl]. apply Forall_forall. intros x Hx. apply Ag. rewrite elem_of_app. auto.
    - eapply pairs_perm; [apply dis_sym|apply Permutation_middle|]. split; [|done]. eapply Forall_impl; [exact Vk|]. intros x Hx. right. exact Hx.
    - rewrite <- Permutation_middle. constructor; [cbn; lia|done].
    - constructor; [cbn; lia|done].
    - constructor; [cbn; apply word_range; lia|]. rewrite Forall_forall in *. intros x Hx.
      destruct (agree_words _ _ _ (Ag x ltac:(rewrite elem_of_app; auto))) as [_ ->]. auto.
    - rewrite <- Permutation_middle. constructor; [unfold ext; cbn; lia|]. eapply Forall_impl; [exact Vk|]. cbn. intros; lia. }
  destruct (free_ok base s1 F (b :: A) A b fuel V1 (Permutation_refl _) Hf) as (s2 & F2 & E2 & V2 & B2 & K2 & (y & Hy & Hny) & L2).
  cbn [fst b] in E2. rewrite (bind_Done _ _ _ _ _ E2), (bind_Done (gets freep) _ s2 (freep s2) s2 eq_refl).
  exists s2, F2. split; [done|]. split; [done|]. split.
  - intros x a Hx Ha. rewrite (K2 x a Hx Ha). apply (O x); [rewrite elem_of_app; auto|done].
  - split; [|done]. exists y. split; [done|]. cbn in Hny. lia.
Qed.

Lemma malloc_loop_ok s F A nu fuel : inv base s F A -> 1 <= nu -> nu * 8 < 2 ^ 31 -> (4 * length F + 8 < fuel)%nat ->
  exists r s', malloc_loop grants fuel (freep s) (wget (mm s) (freep s)) nu s = Done r s' /\ kept A (mm s) (mm s') /\
    match r with
    | Some p => exists F', inv base s' F' ((p - 8, nu) :: A)
    | None => s' = s /\ grants (brk s) (8 * Z.max 4096 nu) = false
    end.
Proof.
  intros V Hnu Hnu8 Hf. destruct (round_ok s F A nu fuel V ltac:(lia) Hnu) as [(a & s' & F' & E & V' & K)|[Small (pk & f' & Hf' & E)]].
  { exists (Some (a + 8)), s'. split; [done|]. split; [done|]. exists F'. by replace (a + 8 - 8) with a by lia. }
  rewrite E. destruct (v_freep _ _ _ _ V) as [nk Hk].
  assert (nk < nu). { apply elem_of_cons in Hk as [[= _ ->]|Hk]; [lia|]. rewrite Forall_forall in Small. by apply (Small _ Hk). }
  apply list_elem_of_lookup in Hk as [k Hk]. destruct (ptr_at _ _ _ _ _ (v_links _ _ _ _ V) Hk) as [_ Es]. cbn [fst snd] in Es. cbn [malloc_loop].
  rewrite (bind_Done (s_size (freep s)) _ s nk s) by (unfold s_size, gets; by rewrite Es). rewrite (proj2 (Z.leb_gt nu nk)) by lia.
  rewrite (bind_Done (gets freep) _ s (freep s) s eq_refl), Z.eqb_refl.
  destruct (morecore_ok s F A nu f' V Hnu Hnu8 ltac:(lia)) as [[Eg Em]|(s1 & F1 & Em & V1 & K1 & (y & Hy & Hny) & L1)]; rewrite (bind_Done _ _ _ _ _ Em).
  - exists None, s. split; [done|]. split; [by intros ? ? ?|done].
  - rewrite (bind_Done (s_ptr (freep s1)) _ s1 (wget (mm s1) (freep s1)) s1 eq_refl).
    destruct (round_ok s1 F1 A nu f' V1 ltac:(lia) Hnu) as [(a & s' & F' & E' & V' & K)|[Small' _]].
    + exists (Some (a + 8)), s'. split; [done|]. split; [|exists F'; by replace (a + 8 - 8) with a by lia].
      intros x c Hx Hc. rewrite (K x c Hx Hc). by apply (K1 x).
    + rewrite Forall_forall in Small'. specialize (Small' y Hy). cbn in Small'. lia.
Qed.

(** Before the first call of [malloc]. *)
Definition unused (s : hst) (F A : list blk) : Prop := freep s = 0 /\ F = [] /\ A = [] /\ 0 < base /\ base + 8 <= brk s <= 2 ^ 31.
Definition heap (s : hst) (F A : list blk) : Prop := inv base s F A \/ unused s F A.

Lemma units_ok nbytes : 0 <= nbytes < 2 ^ 31 - 16 -> 1 <= units nbytes /\ units nbytes * 8 < 2 ^ 31 /\ nbytes <= 8 * (units nbytes - 1).
Proof.
  intros H. unfold units, SIZEOF_HEADER. rewrite u32_small by lia. pose proof (Z.div_mod (nbytes + 8 - 1) 8 ltac:(lia)).
  pose proof (Z.mod_pos_bound (nbytes + 8 - 1) 8 ltac:(lia)). lia.
Qed.

Lemma malloc_ok s F A nbytes fuel : heap s F A -> 0 <= nbytes < 2 ^ 31 - 16 -> (4 * length F + 8 < fuel)%nat ->
  exists r s', malloc base grants fuel nbytes s = Done r s' /\ kept A (mm s) (mm s') /\
    match r with
    | Some p => exists F', inv base s' F' ((p - 8, units nbytes) :: A)
    | None => (exists F', inv base s' F' A) /\ grants (brk s) (8 * Z.max 4096 (units nbytes)) = false
    end.
Proof.
  intros H Hn Hf. destruct (units_ok nbytes Hn) as (U1 & U2 & _). unfold malloc. rewrite (bind_Done (gets freep) _ s (freep s) s eq_refl).
  assert (G : forall s1 F, inv base s1 F A -> (4 * length F + 8 < fuel)%nat -> kept A (mm s) (mm s1) -> brk s1 = brk s -> exists r s',
    (let! p := s_ptr (freep s1) in malloc_loop grants fuel (freep s1) p (units nbytes)) s1 = Done r s' /\ kept A (mm s) (mm s') /\
    match r with
    | Some p => exists F', inv base s' F' ((p - 8, units nbytes) :: A)
    | None => (exists F', inv base s' F' A) /\ grants (brk s) (8 * Z.max 4096 (units nbytes)) = false
    end).
  { intros s1 F1 V Hf1 K1 B1. rewrite (bind_Done (s_ptr (freep s1)) _ s1 (wget (mm s1) (freep s1)) s1 eq_refl).
    destruct (malloc_loop_ok s1 F1 A (units nbytes) fuel V U1 U2 Hf1) as (r & s' & E & K & R). exists r, s'. split; [done|].
    split; [intros x c Hx Hc; rewrite (K x c Hx Hc); by apply (K1 x)|]. destruct r; [done|]. destruct R as [-> R]. rewrite B1 in R. eauto. }
  destruct H as [V|(E0 & -> & -> & Hb & Hk)].
  - assert (freep s <> 0). { destruct (v_freep _ _ _ _ V) as [nk Hk]. destruct (v_sorted _ _ _ _ V) as [S _]. pose proof (v_base _ _ _ _ V).
      apply elem_of_cons in Hk as [[= -> _]|Hk]; [lia|]. rewrite Forall_forall in S. specialize (S _ Hk). unfold below in S. cbn in S. lia. }
    rewrite (proj2 (Z.eqb_neq _ _)) by done. rewrite (bind_Done (ret (freep s)) _ s (freep s) s eq_refl). apply (G s F); [done|done|by intros ? ? ?|done].
  - rewrite E0. cbn [Z.eqb]. set (s1 := Hst (wput (base + 4) 0 (wput base base (mm s))) base (brk s)).
    rewrite (bind_Done _ _ s base s1) by reflexivity. apply (G s1 []); [|cbn; lia|intros ? ? []%not_elem_of_nil|done].
    assert (W : links (mm s1) [(base, 0)] base).
    { cbn [links next fst snd mm s1]. split; [rewrite wget_other by lia; apply word_range; lia|]. split; [by apply word_range|done]. }
    constructor; cbn [mm freep brk s1 app]; try done; try lia; try (by constructor).
    + constructor; [unfold ext; cbn; lia|done].
    + exists 0. by left.
Qed.

(** ** Clients *)

Context (s0 : hst).

(** What a client may do: ask for blocks of less than 2^31 - 16 bytes, give back blocks it
    has, and write into the blocks it has, behind their headers.  For larger requests the
    sizes wrap around: the argument of [sbrk] would be negative, and see [malloc_wraps]. *)
Inductive reach : hst -> list blk -> Prop :=
  | reach_init : unused s0 [] [] -> reach s0 []
  | reach_malloc s A nbytes fuel p s' : reach s A -> 0 <= nbytes < 2 ^ 31 - 16 -> malloc base grants fuel nbytes s = Done (Some p) s' ->
      reach s' ((p - 8, units nbytes) :: A)
  | reach_refused s A nbytes fuel s' : reach s A -> 0 <= nbytes < 2 ^ 31 - 16 -> malloc base grants fuel nbytes s = Done None s' -> reach s' A
  | reach_free s A A' b fuel s' : reach s A -> Permutation A (b :: A') -> free fuel (b.1 + 8) s = Done tt s' -> reach s' A'
  | reach_write s A b a v : reach s A -> b ∈ A -> b.1 + 8 <= a < ext b -> reach (Hst (<[a := v]> (mm s)) (freep s) (brk s)) A.

(** More fuel does not change a result. *)
Lemma free_place_mono f : forall g bp p s a s', (f <= g)%nat -> free_place f bp p s = Done a s' -> free_place g bp p s = Done a s'.
Proof.
  induction f as [|f IH]; intros g bp p s a s' Hg; [done|]. destruct g as [|g]; [lia|]. cbn [free_place]. intros E.
  apply bind_inv in E as (q & s1 & Eq & E). rewrite (bind_Done _ _ _ _ _ Eq). destruct (_ && _); [done|]. destruct (_ && _); [done|]. apply IH; [lia|done].
Qed.

Lemma free_mono f g ap s s' : (f <= g)%nat -> free f ap s = Done tt s' -> free g ap s = Done tt s'.
Proof.
  intros Hg E. unfold free in *. apply bind_inv in E as (q & s1 & Eq & E). rewrite (bind_Done _ _ _ _ _ Eq).
  apply bind_inv in E as (p & s2 & Ep & E). by rewrite (bind_Done _ _ _ _ _ (free_place_mono _ _ _ _ _ _ _ Hg Ep)).
Qed.

Lemma morecore_mono f g nu s r s' : (f <= g)%nat -> morecore grants f nu s = Done r s' -> morecore grants g nu s = Done r s'.
Proof.
  intros Hg E. unfold morecore in *. apply bind_inv in E as (q & s1 & Eq & E). rewrite (bind_Done _ _ _ _ _ Eq). destruct (q =? -1); [done|].
  apply bind_inv in E as (u & s2 & E2 & E). rewrite (bind_Done _ _ _ _ _ E2). apply bind_inv in E as ([] & s3 & E3 & E).
  by rewrite (bind_Done _ _ _ _ _ (free_mono _ _ _ _ _ Hg E3)).
Qed.

Lemma malloc_loop_mono f : forall g pv p nu s r s', (f <= g)%nat -> malloc_loop grants f pv p nu s = Done r s' -> malloc_loop grants g pv p nu s = Done r s'.
Proof.
  induction f as [|f IH]; intros g pv p nu s r s' Hg; [done|]. destruct g as [|g]; [lia|]. cbn [malloc_loop]. intros E.
  apply bind_inv in E as (n & s1 & En & E). rewrite (bind_Done _ _ _ _ _ En). destruct (nu <=? n); [done|].
  apply bind_inv in E as (fp & s2 & Ef & E). rewrite (bind_Done _ _ _ _ _ Ef). destruct (p =? fp).
  - apply bind_inv in E as (x & s3 & Em & E). rewrite (bind_Done _ _ _ _ _ (morecore_mono f g _ _ _ _ ltac:(lia) Em)). destruct x as [x|]; [|done].
    apply bind_inv in E as (q & s4 & Eq & E). rewrite (bind_Done _ _ _ _ _ Eq). apply IH; [lia|done].
  - apply bind_inv in E as (q & s4 & Eq & E). rewrite (bind_Done _ _ _ _ _ Eq). apply IH; [lia|done].
Qed.

Lemma malloc_mono f g nbytes s r s' : (f <= g)%nat -> malloc base grants f nbytes s = Done r s' -> malloc base grants g nbytes s = Done r s'.
Proof.
  intros Hg E. unfold malloc in *. apply bind_inv in E as (q & s1 & Eq & E). rewrite (bind_Done _ _ _ _ _ Eq).
  apply bind_inv in E as (pv & s2 & E2 & E). rewrite (bind_Done _ _ _ _ _ E2). apply bind_inv in E as (p & s3 & E3 & E).
  rewrite (bind_Done _ _ _ _ _ E3). by apply (malloc_loop_mono f).
Qed.

(** Writing into a block in use. *)
Lemma store_ok s F A b m' : inv base s F A -> b ∈ A -> (forall a, ~ (b.1 + 8 <= a < ext b) -> m' a = mm s a) -> inv base (Hst m' (freep s) (brk s)) F A.
Proof.
  intros V Hb O. pose proof V as [Vb Vl Vs Vd Vz Vlow Vh Vk Vt Vf].
  assert (Ag : forall x, dis x b \/ x = b -> agree (mm s) m' x).
  { intros x Hx c Hc. apply O. unfold dis, ext in *. destruct Hx as [Hx| ->]; lia. }
  assert (AA : forall x, x ∈ A -> dis x b \/ x = b).
  { intros x Hx. apply pairs_app in Vd as (_ & DA & _). apply list_elem_of_lookup in Hx as [i Hi]. apply list_elem_of_lookup in Hb as [j Hj].
    destruct (Nat.lt_trichotomy i j) as [C|[->|C]]; [left; by eapply pairs_lookup|right; congruence|left; apply dis_sym; by eapply pairs_lookup]. }
  constructor; cbn [mm freep brk]; try done.
  - eapply links_agree; [|exact Vl]. apply Forall_forall. intros x Hx. apply Ag. left. by eapply inv_dis_free.
  - rewrite Forall_forall in *. intros x Hx. destruct (agree_words _ _ _ (Ag x (AA x Hx))) as [_ ->]. auto.
Qed.

Lemma write_ok s F A b a v : inv base s F A -> b ∈ A -> b.1 + 8 <= a < ext b -> inv base (Hst (<[a := v]> (mm s)) (freep s) (brk s)) F A.
Proof.
  intros V Hb Ha. apply (store_ok s F A b); [done..|]. intros c Hc. rewrite KString.insert_at, decide_False; [done|]. by intros <-.
Qed.

(** [calloc] gives a block of zeros. *)
Lemma calloc_ok s F A nmemb size fuel : heap s F A -> 0 <= nmemb * size < 2 ^ 31 - 16 -> (4 * length F + 8 < fuel)%nat ->
  exists r s', calloc base grants fuel nmemb size s = Done r s' /\ kept A (mm s) (mm s') /\
    match r with
    | Some p => (exists F', inv base s' F' ((p - 8, units (nmemb * size)) :: A)) /\ forall i, 0 <= i < nmemb * size -> mm s' (p + i) = 0
    | None => exists F', inv base s' F' A
    end.
Proof.
  intros H Hn Hf. unfold calloc. rewrite u32_small by lia. destruct (malloc_ok s F A (nmemb * size) fuel H Hn Hf) as (r & s1 & E & K & R).
  rewrite (bind_Done _ _ _ _ _ E). destruct r as [p|]; [|exists None, s1; split; [done|split; [done|apply R]]]. destruct R as [F' V].
  destruct (units_ok _ Hn) as (U1 & _ & U3). set (n := nmemb * size) in *. set (b := (p - 8, units n) : blk).
  pose proof (LString.memset_stored p 0 (Z.to_nat n) (mm s1)) as St. set (m' := LString.memset _ _ _ _) in *. 
  exists (Some p), (Hst m' (freep s1) (brk s1)). split; [done|]. cbn [mm freep brk].
  assert (O : forall a, ~ (b.1 + 8 <= a < ext b) -> m' a = mm s1 a).
  { intros a Ha. rewrite (St a). unfold b, ext in Ha. cbn in Ha. destruct (Z.leb_spec p a), (Z.ltb_spec a (p + Z.of_nat (Z.to_nat n))); done || lia. }
  split; [|split; [exists F'; apply (store_ok s1 F' (b :: A) b); [done|by left|done]|]].
  - intros x a Hx Ha. rewrite O; [by apply (K x)|]. pose proof (v_dis _ _ _ _ V) as D. apply pairs_app in D as (_ & [D _] & _). rewrite Forall_forall in D.
    specialize (D x Hx). unfold dis, ext in *. cbn in *. lia.
  - intros i Hi. rewrite (St (p + i)). rewrite (proj2 (Z.leb_le _ _)), (proj2 (Z.ltb_lt _ _)) by lia. done.
Qed.

Lemma reach_heap s A : reach s A -> exists F, heap s F A.
Proof.
  induction 1 as [U|s A nbytes fuel p s' R [F H] Hn E|s A nbytes fuel s' R [F H] Hn E|s A A' b fuel s' R [F H] P E|s A b a v R [F H] Hb Ha].
  - exists []. by right.
  - destruct (malloc_ok s F A nbytes (fuel + (4 * length F + 9)) H Hn ltac:(lia)) as (r & s1 & E1 & _ & V).
    rewrite (malloc_mono fuel (fuel + (4 * length F + 9)) _ _ _ _ ltac:(lia) E) in E1. injection E1 as <- <-. destruct V as [F' V]. exists F'. by left.
  - destruct (malloc_ok s F A nbytes (fuel + (4 * length F + 9)) H Hn ltac:(lia)) as (r & s1 & E1 & _ & V).
    rewrite (malloc_mono fuel (fuel + (4 * length F + 9)) _ _ _ _ ltac:(lia) E) in E1. injection E1 as <- <-. destruct V as [[F' V] _]. exists F'. by left.
  - destruct H as [V|(_ & _ & -> & _)]; [|by apply Permutation_nil_cons in P].
    destruct (free_ok base s F A A' b (fuel + (2 * length F + 3)) V P ltac:(lia)) as (s1 & F' & E1 & V' & _).
    rewrite (free_mono fuel (fuel + (2 * length F + 3)) _ _ _ ltac:(lia) E) in E1. injection E1 as <-. exists F'. by left.
  - destruct H as [V|(_ & _ & -> & _)]; [|by apply not_elem_of_nil in Hb]. exists F. left. by eapply write_ok.
Qed.

End Malloc.

(** C18: The heap is safe for a client whose requests are for less than 2^31 - 16 bytes
    each, in a process whose break the kernel keeps at or below 2^31 ([grants]).  For
    larger requests the sizes in [malloc] and [morecore] wrap around and nothing is
    claimed.  Whatever such a client does that asks for blocks, gives back blocks it has
    and writes into the blocks it has: the blocks it has never overlap, lie between the
    program's data and the break, and are as long as was asked for; every further request
    ends, with a new block apart from all others or with a null pointer if the kernel
    refuses more memory; every block can be given back; and neither changes a byte of the
    other blocks. *)
Theorem heap_safe base grants s0 s A : (forall b n, grants b n = true -> b + n <= 2 ^ 31) -> reach base grants s0 s A ->
  pairs dis A /\ Forall (fun b => base + 8 <= b.1 /\ 1 <= b.2 /\ ext b <= brk s) A /\
  (forall nbytes, 0 <= nbytes < 2 ^ 31 - 16 -> exists n r s', (forall fuel, (n <= fuel)%nat -> malloc base grants fuel nbytes s = Done r s') /\
     kept A (mm s) (mm s') /\
     match r with
     | Some p => reach base grants s0 s' ((p - 8, units nbytes) :: A) /\ nbytes <= 8 * (units nbytes - 1)
     | None => reach base grants s0 s' A /\ grants (brk s) (8 * Z.max 4096 (units nbytes)) = false
     end) /\
  (forall b A', Permutation A (b :: A') -> exists n s', (forall fuel, (n <= fuel)%nat -> free fuel (b.1 + 8) s = Done tt s') /\
     kept A' (mm s) (mm s') /\ reach base grants s0 s' A').
Proof.
  intros Hg R. destruct (reach_heap base grants Hg s0 s A R) as [F H].
  assert (D : pairs dis A /\ Forall (fun b => base + 8 <= b.1 /\ 1 <= b.2 /\ ext b <= brk s) A).
  { destruct H as [V|(_ & _ & -> & _)]; [|done]. pose proof (v_dis _ _ _ _ V) as Vd. apply pairs_app in Vd as (_ & DA & _). split; [done|].
    apply Forall_forall. intros b Hb. pose proof (inv_dis_free _ _ _ _ (base, 0) b V ltac:(by left) Hb) as Db. destruct V as [Vb Vl Vs Vd Vz Vlow Vh Vk Vt Vf].
    rewrite Forall_forall in Vlow, Vz, Vk. specialize (Vlow b Hb). specialize (Vz b ltac:(rewrite elem_of_app; auto)). specialize (Vk b ltac:(rewrite elem_of_app; auto)).
    unfold dis, ext in *. cbn in *. lia. }
  split; [apply D|]. split; [apply D|]. split.
  - intros nbytes Hn. set (n := (4 * length F + 9)%nat). destruct (malloc_ok base grants Hg s F A nbytes n H Hn ltac:(lia)) as (r & s' & E & K & Hr).
    exists n, r, s'. split; [intros fuel Hf; by apply (malloc_mono base grants n)|]. split; [done|]. destruct r as [p|].
    + split; [by apply (reach_malloc base grants s0 s A nbytes n)|apply units_ok; lia].
    + split; [by apply (reach_refused base grants s0 s A nbytes n)|apply Hr].
  - intros b A' P. destruct H as [V|(_ & _ & -> & _)]; [|by apply Permutation_nil_cons in P]. set (n := (2 * length F + 3)%nat).
    destruct (free_ok base s F A A' b n V P ltac:(lia)) as (s' & F' & E & V' & _ & K & _).
    exists n, s'. split; [intros fuel Hf; by apply (free_mono n)|]. split; [done|]. by apply (reach_free base grants s0 s A A' b n).
Qed.

(** A process with its break at 4096, and two blocks. *)
Definition low (b n : Z) : bool := b + n <=? 2 ^ 31.
Definition fresh : hst := Hst (fun _ => 0) 0 4096.
Definition after {A} (o : outcome hst A) : hst := match o with Done _ s => s | _ => fresh end.
Definition one : hst := after (malloc 1000 low 20 10 fresh).
Definition two : hst := after (malloc 1000 low 20 20 one).

Lemma after_done (o : outcome hst (option Z)) p : match o with Done (Some q) _ => q =? p | _ => false end = true -> o = Done (Some p) (after o).
Proof. destruct o as [[q|] s| | | |]; try done. by intros ->%Z.eqb_eq. Qed.

Lemma heap_safe_witness : reach 1000 low fresh two [(36808, 4); (36840, 3)] /\ pairs dis [(36808, 4); (36840, 3)] /\
  exists n s', (forall fuel, (n <= fuel)%nat -> free fuel 36848 two = Done tt s') /\ kept [(36808, 4)] (mm two) (mm s').
Proof.
  assert (R : reach 1000 low fresh two [(36808, 4); (36840, 3)]).
  { apply (reach_malloc 1000 low fresh one [(36840, 3)] 20 20 36816 two); [|done|apply after_done; vm_compute; reflexivity].
    apply (reach_malloc 1000 low fresh fresh [] 10 20 36848 one); [|done|apply after_done; vm_compute; reflexivity].
    apply reach_init. split; [done|]. split; [done|]. split; [done|]. cbn. lia. }
  destruct (heap_safe 1000 low fresh two [(36808, 4); (36840, 3)]) as (D & _ & _ & Fr); [intros b n H; by apply Z.leb_le|exact R|].
  split; [exact R|]. split; [exact D|]. destruct (Fr (36840, 3) [(36808, 4)]) as (n & s' & E & K & _); [apply perm_swap|].
  exists n, s'. split; [exact E|exact K].
Defined.

(** [realloc] takes the size of the old block, in headers, for a number of bytes: of a
    string of 16 bytes it keeps three. *)
Definition filled : hst := Hst (fun a => if (36848 <=? a) && (a <? 36864) then 65 else mm one a) (freep one) (brk one).

Lemma realloc_keeps_three : match realloc 1000 low 20 36848 32 filled with
  | Done (Some q) s => mm s <$> [q; q + 1; q + 2; q + 3; q + 4] | _ => [] end = [65; 65; 65; 0; 0].
Proof. vm_compute. reflexivity. Qed.

(** The size of a request near the end of the range wraps around: a block of one header
    for more bytes than there are addresses left. *)
Lemma malloc_wraps : units (2 ^ 32 - 1) = 1.
Proof. reflexivity. Qed.

End Malloc.
