(* ===== verification/Env.v ===== *)
(** * The environment of a process (apps/lib/ulib.c)

    [environ] is an array of pointers to strings [NAME=value] in the memory of the
    process, ended by a null pointer; [setenv] takes its memory from the heap of
    Malloc.v.  [getenv] and [unsetenv] are proved against the list of the strings;
    [setenv] on a name that is there and fits is proved to change its value and
    nothing else.  [unsetenv] leaves the second of two neighbouring entries of a name,
    and [setenv] loses entries when it extends an array of its own. *)

From stdpp Require Import functions.
From S2P Require Import Prelude KString LString Malloc.

Module Env.
Import Malloc.

(** The heap, [environ] and [last_environ]; 0 is the null pointer. *)
Record evst := Ev { hp : hst; environ : Z; last_environ : Z }.

Definition on_heap {A} (m : M hst A) : M evst A := zoom hp (fun h s => Ev h (environ s) (last_environ s)) m.
Definition memory : M evst mem := gets (fun s => mm (hp s)).
Definition change (f : mem -> mem) : M evst unit := modify (fun s => Ev (Hst (f (mm (hp s))) (freep (hp s)) (brk (hp s))) (environ s) (last_environ s)).
Definition some_fuel {A} (o : option A) : M evst A := match o with Some a => ret a | None => nofuel end.

(** [!strncmp( *ep, name, len) && ( *ep)[len] == '='] *)
Definition matches (m : mem) (e name : Z) (len : nat) : bool := (LString.strncmp e name len m =? 0) && (m (e + Z.of_nat len) =? 61).

(** [for (; *ep; ep++) if (matches) break;]: where the loop ends, and how many entries
    it has passed. *)
Fixpoint env_find (fuel : nat) (m : mem) (ep name : Z) (len : nat) (size : Z) : option (Z * Z) :=
  match fuel with
  | O => None
  | S f =>
      if wget m ep =? 0 then Some (ep, size)
      else if matches m (wget m ep) name len then Some (ep, size)
      else env_find f m (ep + 4) name len (size + 1)
  end.

Section Env.
Context (base : Z) (grants : Z -> Z -> bool) (fuel : nat).

Definition getenv (name : Z) : M evst Z :=
  let! m := memory in
  let! len := some_fuel (LString.strlen fuel name m) in
  let! env := gets environ in
  if env =? 0 then ret 0
  else
    let! r := some_fuel (env_find fuel m env name (Z.to_nat len) 0) in
    let e := wget m r.1 in
    ret (if e =? 0 then 0 else e + len + 1).

(** [memcpy(s, name, namelen); s[namelen] = '='; memcpy(&s[namelen + 1], value, vallen);] *)
Definition write_entry (s name namelen value vallen : Z) : M evst unit :=
  change (LString.memcpy s name (Z.to_nat namelen)) ;!
  change (<[s + namelen := 61]>) ;!
  change (LString.memcpy (s + namelen + 1) value (Z.to_nat vallen)).

(** The branch for a name that is not there; [size] entries are. *)
Definition setenv_new (name namelen value vallen size : Z) : M evst Z :=
  let! env := gets environ in
  let! last := gets last_environ in
  let! new_environ :=
    if (env =? last) && negb (env =? 0) then on_heap (realloc base grants fuel last ((size + 2) * 4))
    else on_heap (malloc base grants fuel ((size + 2) * 4)) in
  match new_environ with
  | None => ret (-1)
  | Some ne =>
      let! str := on_heap (malloc base grants fuel (namelen + 1 + vallen)) in
      change (wput (ne + 4 * size) (default 0 str)) ;!
      match str with
      | None => on_heap (free fuel ne) ;! ret (-1)
      | Some str =>
          when (negb (env =? last)) (change (LString.memcpy ne env (Z.to_nat (size * 4)))) ;!
          write_entry str name namelen value vallen ;!
          change (wput (ne + 4 * (size + 1)) 0) ;!
          modify (fun s => Ev (hp s) ne ne) ;!
          ret 0
      end
  end.

(** The branch for a name that is there, with its pointer at [ep]. *)
Definition setenv_over (ep name namelen value vallen : Z) : M evst Z :=
  let! m := memory in
  let! len := some_fuel (LString.strlen fuel (wget m ep) m) in
  let! ok :=
    if len + 1 <? namelen + 1 + vallen then
      let! s := on_heap (malloc base grants fuel (namelen + 1 + vallen)) in
      match s with
      | None => ret false
      | Some s => change (wput ep s) ;! ret true
      end
    else ret true in
  if negb ok then ret (-1)
  else
    let! m := memory in
    write_entry (wget m ep) name namelen value vallen ;!
    ret 0.

Definition setenv (name value : Z) (overwrite : bool) : M evst Z :=
  let! m := memory in
  let! namelen := some_fuel (LString.strlen fuel name m) in
  let! v := some_fuel (LString.strlen fuel value m) in
  let vallen := v + 1 in
  let! env := gets environ in
  if env =? 0 then setenv_new name namelen value vallen 0
  else
    let! r := some_fuel (env_find fuel m env name (Z.to_nat namelen) 0) in
    if wget m r.1 =? 0 then setenv_new name namelen value vallen r.2
    else if overwrite then setenv_over r.1 name namelen value vallen
    else ret 0.

(** [do { dp[0] = dp[1]; } while ( *dp++);] *)
Fixpoint shift_down (n : nat) (dp : Z) (m : mem) : option mem :=
  match n with
  | O => None
  | S n' => let m := wput dp (wget m (dp + 4)) m in if wget m dp =? 0 then Some m else shift_down n' (dp + 4) m
  end.

Fixpoint unset_loop (n : nat) (ep name : Z) (len : nat) (m : mem) : option mem :=
  match n with
  | O => None
  | S n' =>
      if wget m ep =? 0 then Some m
      else if matches m (wget m ep) name len then m' ← shift_down fuel ep m; unset_loop n' (ep + 4) name len m'
      else unset_loop n' (ep + 4) name len m
  end.

(** A null [environ] is dereferenced. *)
Definition unsetenv (name : Z) : M evst unit :=
  let! m := memory in
  let! len := some_fuel (LString.strlen fuel name m) in
  let! env := gets environ in
  if env =? 0 then wild "unsetenv: null environ"
  else
    let! m' := some_fuel (unset_loop fuel env name (Z.to_nat len) m) in
    change (fun _ => m').

(** Its first statement returns. *)
Definition putenv (string : Z) : M evst Z := ret (-1).

End Env.

(** ** The environment as a list *)

(** The array at [a]: pointers and the strings they point to. *)
Fixpoint env_is (m : mem) (a : Z) (l : list (Z * list Z)) : Prop :=
  match l with
  | [] => wget m a = 0
  | (p, s) :: l' => wget m a = p /\ 0 < p < 2 ^ 32 /\ cstr m p s /\ env_is m (a + 4) l'
  end.

(** A string that defines [nm]. *)
Definition defines (nm s : list Z) : bool := bool_decide (take (S (length nm)) s = nm ++ [61]).

Lemma strlen_ok fuel m p l : cstr m p l -> (length l < fuel)%nat -> LString.strlen fuel p m = Some (Z.of_nat (length l)).
Proof.
  intros H Hf. unfold LString.strlen. assert (G : forall k f, (k <= length l)%nat -> (length l - k < f)%nat -> LString.strlen_loop f p (Z.of_nat k) m = Some (Z.of_nat (length l))).
  { destruct H as (Hb & Hr & Hz). intros k f. revert k. induction f as [|f IH]; intros k Hk Hlt; [lia|]. cbn. destruct (decide (k = length l)) as [->|].
    - by rewrite Hz.
    - destruct (lookup_lt_is_Some_2 l k) as [c Hc]; [lia|]. rewrite (Hb _ _ Hc). rewrite Forall_forall in Hr. specialize (Hr c (list_elem_of_lookup_2 _ _ _ Hc)).
      rewrite (proj2 (Z.eqb_neq c 0)) by lia. replace (Z.of_nat k + 1) with (Z.of_nat (S k)) by lia. apply IH; lia. }
  apply (G 0%nat); lia.
Qed.

Lemma cstr_tail m p c l : cstr m p (c :: l) -> m p = c /\ 0 < c < 256 /\ cstr m (p + 1) l.
Proof.
  intros H. pose proof (LString.cstr_app m p [c] l H) as T. destruct H as (Hb & Hr & _). inversion Hr; subst. split; [|done].
  rewrite <- (Hb 0%nat c eq_refl). f_equal. lia.
Qed.

Lemma matches_ok nm : forall m e name s, cstr m e s -> cstr m name nm -> matches m e name (length nm) = defines nm s.
Proof.
  unfold matches, defines. induction nm as [|c nm IH]; intros m e name s Hs Hn.
  - cbn [length LString.strncmp Z.of_nat]. rewrite Z.add_0_r. cbn [Z.eqb andb]. destruct s as [|d s].
    + destruct Hs as (_ & _ & Hz). cbn in Hz. rewrite Z.add_0_r in Hz. by rewrite Hz.
    + apply cstr_tail in Hs as (-> & _ & _). cbn [take app]. destruct (Z.eqb_spec d 61) as [->|]; [by rewrite bool_decide_true|by rewrite bool_decide_false by congruence].
  - apply cstr_tail in Hn as (Ec & Rc & Hn). cbn [length LString.strncmp]. destruct s as [|d s].
    + destruct Hs as (_ & _ & Hz). cbn in Hz. rewrite Z.add_0_r in Hz. rewrite Hz. cbn [Z.eqb negb andb]. rewrite Ec. rewrite (proj2 (Z.eqb_neq (0 - c) 0)) by lia. done.
    + apply cstr_tail in Hs as (Ed & Rd & Hs). rewrite Ed, Ec. rewrite (proj2 (Z.eqb_neq d 0)) by lia. cbn [negb andb]. destruct (Z.eqb_spec d c) as [->|N].
      * replace (e + Z.of_nat (S (length nm))) with (e + 1 + Z.of_nat (length nm)) by lia. rewrite (IH m (e + 1) (name + 1) s Hs Hn).
        apply bool_decide_ext. cbn. split; [by intros ->|by intros [= ->]].
      * rewrite (proj2 (Z.eqb_neq (d - c) 0)) by lia. cbn. by rewrite bool_decide_false by congruence.
Qed.

(** The value: what is behind the equals sign. *)
Lemma defines_value m p nm s : cstr m p s -> defines nm s = true -> exists v, s = nm ++ 61 :: v /\ cstr m (p + Z.of_nat (length nm) + 1) v.
Proof.
  intros H D. apply bool_decide_eq_true in D. exists (drop (S (length nm)) s). assert (E : s = nm ++ 61 :: drop (S (length nm)) s).
  { rewrite <- (take_drop (S (length nm)) s) at 1. rewrite D. by rewrite <- app_assoc. }
  split; [done|]. rewrite E in H. replace (p + Z.of_nat (length nm) + 1) with (p + Z.of_nat (length (nm ++ [61]))) by (rewrite length_app; cbn; lia).
  apply LString.cstr_app. by rewrite <- app_assoc.
Qed.

(** The first entry that defines the name. *)
Fixpoint env_get (nm : list Z) (l : list (Z * list Z)) : option (Z * list Z) :=
  match l with [] => None | (p, s) :: l' => if defines nm s then Some (p, s) else env_get nm l' end.

Lemma env_find_ok l : forall fuel m a name nm k, env_is m a l -> cstr m name nm -> (length l < fuel)%nat ->
  exists ep n, env_find fuel m a name (length nm) k = Some (ep, n) /\ wget m ep = default 0 (fst <$> env_get nm l).
Proof.
  induction l as [|[p s] l IH]; intros fuel m a name nm k He Hn Hf; (destruct fuel as [|fuel]; [cbn in Hf; lia|]); cbn [env_find env_is env_get] in *.
  - rewrite He. cbn. by exists a, k.
  - destruct He as (Ep & Np & Hs & He). rewrite Ep, (proj2 (Z.eqb_neq p 0)) by lia. rewrite (matches_ok nm m p name s Hs Hn). destruct (defines nm s); [by exists a, k|].
    apply IH; [done|done|cbn in Hf; lia].
Qed.

Lemma env_get_in nm l p s : env_get nm l = Some (p, s) -> (p, s) ∈ l /\ defines nm s = true.
Proof.
  induction l as [|[q t] l IH]; [done|]. cbn. destruct (defines nm t) eqn:E; [intros [= -> ->]; split; [by left|done]|]. intros H. apply IH in H as [H D]. split; [by right|done].
Qed.

Lemma env_is_in m a l p s : env_is m a l -> (p, s) ∈ l -> 0 < p < 2 ^ 32 /\ cstr m p s.
Proof.
  revert a. induction l as [|[q t] l IH]; intros a; [by intros _ ?%not_elem_of_nil|]. cbn. intros (_ & Nq & Hq & He) [[= -> ->]|Hin]%elem_of_cons; [done|]. by apply (IH _ He).
Qed.

(** [getenv] gives the value of the first entry of the name. *)
Lemma getenv_ok fuel name nm l s : environ s <> 0 -> env_is (mm (hp s)) (environ s) l -> cstr (mm (hp s)) name nm -> (length nm < fuel)%nat -> (length l < fuel)%nat ->
  exists r, getenv fuel name s = Done r s /\
    match env_get nm l with
    | Some (p, e) => exists v, e = nm ++ 61 :: v /\ r = p + Z.of_nat (length nm) + 1 /\ cstr (mm (hp s)) r v
    | None => r = 0
    end.
Proof.
  intros Ne He Hn Hf Hl. unfold getenv. rewrite (bind_Done memory _ s (mm (hp s)) s eq_refl). rewrite (strlen_ok _ _ _ _ Hn Hf). cbn [some_fuel].
  rewrite (bind_Done (ret _) _ s (Z.of_nat (length nm)) s eq_refl), (bind_Done (gets environ) _ s (environ s) s eq_refl). rewrite (proj2 (Z.eqb_neq _ 0) Ne), Nat2Z.id.
  destruct (env_find_ok l fuel _ _ name nm 0 He Hn Hl) as (ep & n & E & W). rewrite E. cbn [some_fuel]. rewrite (bind_Done (ret _) _ s (ep, n) s eq_refl). cbn [fst]. rewrite W.
  eexists. split; [reflexivity|]. destruct (env_get nm l) as [[p e]|] eqn:Eg; cbn; [|done]. apply env_get_in in Eg as [Hin D]. destruct (env_is_in _ _ _ _ _ He Hin) as [Np Hc].
  rewrite (proj2 (Z.eqb_neq p 0)) by lia. destruct (defines_value _ _ _ _ Hc D) as (v & Ev & Hv). by exists v.
Qed.

(** ** Removing entries *)

(** Memory outside an area is as before, and a string outside it. *)
Definition agree_out (lo hi : Z) (m m' : mem) : Prop := forall b, b < lo \/ hi <= b -> m' b = m b.
Definition clear_of (lo hi : Z) (e : Z * list Z) : Prop := e.1 + Z.of_nat (length e.2) < lo \/ hi <= e.1.

Lemma cstr_frame lo hi m m' p l : agree_out lo hi m m' -> clear_of lo hi (p, l) -> cstr m p l -> cstr m' p l.
Proof.
  intros Ag Cl (Hb & Hr & Hz). unfold clear_of in Cl. cbn in Cl. split_and!; [|done|rewrite Ag; [done|lia]].
  intros i z Hi. pose proof (lookup_lt_Some _ _ _ Hi). rewrite Ag; [by apply Hb|lia].
Qed.

Lemma wget_frame lo hi m m' a : agree_out lo hi m m' -> a + 4 <= lo \/ hi <= a -> wget m' a = wget m a.
Proof. intros Ag H. unfold wget. by rewrite !Ag by lia. Qed.

Lemma env_is_frame lo hi m m' l : agree_out lo hi m m' -> Forall (clear_of lo hi) l -> forall a,
  a + 4 * Z.of_nat (S (length l)) <= lo \/ hi <= a -> env_is m a l -> env_is m' a l.
Proof.
  intros Ag. induction 1 as [|[p s] l Hc Hl IH]; intros a Ha; cbn [env_is length] in *; [rewrite (wget_frame _ _ _ _ _ Ag) by lia; done|].
  intros (E & Hp & Hs & He). rewrite (wget_frame _ _ _ _ _ Ag) by lia. split_and!; [done|lia|lia|by eapply cstr_frame|]. apply IH; [lia|done].
Qed.

Lemma clear_sub lo hi lo' hi' e : lo <= lo' -> hi' <= hi -> lo' <= hi' -> clear_of lo hi e -> clear_of lo' hi' e.
Proof. unfold clear_of. lia. Qed.

Lemma agree_trans lo hi lo' hi' m m1 m2 : lo <= lo' -> hi' <= hi -> agree_out lo hi m m1 -> agree_out lo' hi' m1 m2 -> agree_out lo hi m m2.
Proof. intros Hl Hh A1 A2 b Hb. rewrite A2 by lia. by apply A1. Qed.

Lemma wput_out a v m : agree_out a (a + 4) m (wput a v m).
Proof. intros b Hb. apply wput_other. lia. Qed.

Lemma shift_down_ok l : forall n dp m, env_is m (dp + 4) l -> Forall (clear_of dp (dp + 4 * Z.of_nat (S (length l)))) l -> (length l < n)%nat ->
  exists m', shift_down n dp m = Some m' /\ agree_out dp (dp + 4 * Z.of_nat (S (length l))) m m' /\ env_is m' dp l.
Proof.
  induction l as [|[p s] l IH]; intros n dp m He Hc Hn; (destruct n as [|n]; [cbn in Hn; lia|]); cbn [shift_down env_is length] in *.
  - rewrite He. rewrite wget_wput by lia. cbn. eexists. split; [reflexivity|]. split; [|by rewrite wget_wput]. intros b Hb. apply wput_other. lia.
  - destruct He as (Ep & Hp & Hs & He). apply Forall_cons in Hc as [Hc Hcs]. rewrite Ep, wget_wput by lia. rewrite (proj2 (Z.eqb_neq p 0)) by lia. set (m1 := wput dp p m).
    assert (A1 : agree_out dp (dp + 4) m m1) by apply wput_out.
    destruct (IH n (dp + 4) m1) as (m' & E & A' & He').
    + eapply env_is_frame; [exact A1| |lia|exact He]. eapply Forall_impl; [exact Hcs|]. intros e. apply clear_sub; lia.
    + eapply Forall_impl; [exact Hcs|]. intros e. apply clear_sub; lia.
    + lia.
    + exists m'. split; [done|]. split; [intros b Hb; rewrite A' by lia; apply A1; lia|]. split_and!; [|lia|lia| |done].
      * rewrite (wget_frame _ _ _ _ _ A') by lia. unfold m1. apply wget_wput. lia.
      * eapply cstr_frame; [exact A'|apply (clear_sub dp (dp + 4 * Z.of_nat (S (S (length l))))); [lia|lia|lia|done]|].
        eapply cstr_frame; [exact A1|apply (clear_sub dp (dp + 4 * Z.of_nat (S (S (length l))))); [lia|lia|lia|done]|done].
Qed.

(** What the loop of [unsetenv] leaves: behind an entry it removes, one is passed over. *)
Fixpoint unset (nm : list Z) (l : list (Z * list Z)) : list (Z * list Z) :=
  match l with
  | [] => []
  | (p, s) :: l' => if defines nm s then match l' with [] => [] | e :: l'' => e :: unset nm l'' end else (p, s) :: unset nm l'
  end.

Lemma unset_loop_ok k : forall l fuel n a name nm m, (length l <= k)%nat -> env_is m a l -> cstr m name nm ->
  Forall (clear_of a (a + 4 * Z.of_nat (S (length l)))) ((name, nm) :: l) -> (length l < n)%nat -> (length l < fuel)%nat ->
  exists m', unset_loop fuel n a name (length nm) m = Some m' /\ agree_out a (a + 4 * Z.of_nat (S (length l))) m m' /\ env_is m' a (unset nm l).
Proof.
  induction k as [|k IH]; intros l fuel n a name nm m Hk He Hn Hc Hf Hf2.
  - destruct l as [|]; [|cbn in Hk; lia]. destruct n as [|n]; [lia|]. cbn in *. rewrite He. by exists m.
  - destruct l as [|[p s] l]; [destruct n as [|n]; [lia|]; cbn in *; rewrite He; by exists m|]. destruct n as [|n]; [lia|]. cbn [unset_loop env_is unset length] in *.
    destruct He as (Ep & Hp & Hs & He). apply Forall_cons in Hc as [Hcn Hc]. apply Forall_cons in Hc as [Hcp Hc]. rewrite Ep, (proj2 (Z.eqb_neq p 0)) by lia. rewrite (matches_ok nm m p name s Hs Hn).
    assert (Sub : forall lo hi, a <= lo -> hi <= a + 4 * Z.of_nat (S (S (length l))) -> lo <= hi -> Forall (clear_of lo hi) ((name, nm) :: l)).
    { intros lo hi H1 H2 H3. constructor; [by eapply clear_sub|]. eapply Forall_impl; [exact Hc|]. intros e. by apply clear_sub. }
    destruct (defines nm s).
    + destruct (shift_down_ok l fuel a m He) as (m1 & E1 & A1 & He1); [apply (Forall_inv_tail (Sub a (a + 4 * Z.of_nat (S (length l))) ltac:(lia) ltac:(lia) ltac:(lia)))|lia|].
      rewrite E1. cbn [mbind option_bind]. pose proof (Sub a (a + 4 * Z.of_nat (S (length l))) ltac:(lia) ltac:(lia) ltac:(lia)) as Hn1. apply Forall_cons in Hn1 as [Hn1 _].
      pose proof (cstr_frame _ _ _ _ _ _ A1 Hn1 Hn) as Hname. destruct l as [|[q t] l]; cbn [length env_is] in *.
      * destruct n as [|n]; [lia|]. cbn [unset_loop]. rewrite (wget_frame _ _ _ _ _ A1) by lia. rewrite He. cbn. exists m1. split; [done|]. split; [|done].
        intros b Hb. apply A1. lia.
      * destruct He1 as (Eq & Hq & Ht & He1). pose proof (Sub (a + 4) (a + 4 + 4 * Z.of_nat (S (length l))) ltac:(lia) ltac:(lia) ltac:(lia)) as Sb.
        apply Forall_cons in Sb as [Sn Sb]. apply Forall_cons in Sb as [Sq Sb].
        destruct (IH l fuel n (a + 4) name nm m1 ltac:(lia) He1 Hname) as (m2 & E2 & A2 & He2); [by constructor|lia|lia|].
        exists m2. split; [done|]. split; [intros b Hb; rewrite A2 by lia; apply A1; lia|]. rewrite (wget_frame _ _ _ _ _ A2) by lia. split_and!; [done|lia|lia| |done].
        by eapply cstr_frame.
    + destruct (IH l fuel n (a + 4) name nm m ltac:(lia) He Hn) as (m1 & E1 & A1 & He1); [apply Sub; lia|lia|lia|]. exists m1. split; [done|].
      split; [intros b Hb; apply A1; lia|]. cbn [env_is]. rewrite (wget_frame _ _ _ _ _ A1) by lia. split_and!; [done|lia|lia| |done].
      eapply cstr_frame; [exact A1| |done]. eapply clear_sub; [..|exact Hcp]; lia.
Qed.

(** ** Writing an entry *)

Definition entry_mem (str name value : Z) (nm v : list Z) (m : mem) : mem :=
  LString.memcpy (str + Z.of_nat (length nm) + 1) value (S (length v)) (<[str + Z.of_nat (length nm) := 61]> (LString.memcpy str name (length nm) m)).

Lemma entry_mem_ok str name value nm v m : let hi := str + Z.of_nat (length nm) + 2 + Z.of_nat (length v) in
  cstr m name nm -> cstr m value v -> clear_of str hi (name, nm) -> clear_of str hi (value, v) ->
  agree_out str hi m (entry_mem str name value nm v m) /\ cstr (entry_mem str name value nm v m) str (nm ++ 61 :: v).
Proof.
  intros hi (Nb & Nr & Nz) (Vb & Vr & Vz) Cn Cv. unfold clear_of in Cn, Cv. cbn [fst snd] in Cn, Cv. unfold entry_mem. assert (Hn0 : 0 <= Z.of_nat (length nm)) by lia. set (n := Z.of_nat (length nm)) in *.
  assert (Eh : hi = str + n + 2 + Z.of_nat (length v)) by done. clearbody hi. assert (En : n = Z.of_nat (length nm)) by done. clearbody n.
  pose proof (KString.copy_up_stored str name (length nm) m ltac:(lia)) as S1. set (m1 := LString.memcpy str name (length nm) m). fold m1 in S1.
  set (m2 := <[str + n := 61]> m1). pose proof (KString.copy_up_stored (str + n + 1) value (S (length v)) m2 ltac:(lia)) as S2.
  set (m3 := LString.memcpy (str + n + 1) value (S (length v)) m2). fold m3 in S2. unfold stored in S1, S2.
  assert (Ov : forall i, 0 <= i <= Z.of_nat (length v) -> value + i < str \/ hi <= value + i) by lia. clear Cn Cv.
  assert (A1 : agree_out str hi m m1). { intros b Hb. change (m1 b) with (LString.memcpy str name (length nm) m b). unfold LString.memcpy. rewrite S1. destruct (_ && _) eqn:E; [lia|done]. }
  assert (A2 : agree_out str hi m m2). { intros b Hb. unfold m2. rewrite KString.insert_at, decide_False by lia. by apply A1. }
  assert (E3 : forall b, m3 b = if (str + n + 1 <=? b) && (b <? str + n + 1 + Z.of_nat (S (length v))) then m2 (value + (b - (str + n + 1))) else m2 b) by exact S2.
  split.
  { intros b Hb. rewrite E3. KString.in_range; by apply A2. }
  change (nm ++ 61 :: v) with (nm ++ [61] ++ v). rewrite app_assoc. apply LString.cstr_concat.
  - intros i z Hi. rewrite E3. pose proof (lookup_lt_Some _ _ _ Hi) as Hl. rewrite length_app in Hl. cbn in Hl. destruct (_ && _) eqn:E; [lia|]. clear E. unfold m2.
    destruct (decide (i = length nm)) as [->|Ne].
    + rewrite KString.insert_at, decide_True by lia. rewrite lookup_app_r in Hi by lia. rewrite Nat.sub_diag in Hi. by injection Hi.
    + rewrite KString.insert_at, decide_False by lia. rewrite lookup_app_l in Hi by lia. change (m1 ?x) with (LString.memcpy str name (length nm) m x). unfold LString.memcpy. rewrite S1.
      destruct (_ && _) eqn:E; [|lia]. rewrite <- (Nb i z Hi). f_equal. lia.
  - apply Forall_app. split; [done|]. constructor; [lia|constructor].
  - rewrite length_app. cbn [length]. replace (str + Z.of_nat (length nm + 1)) with (str + n + 1) by lia.
    assert (Hv : forall i, 0 <= i <= Z.of_nat (length v) -> m3 (str + n + 1 + i) = m (value + i)).
    { intros i Hi. rewrite E3. KString.in_range. replace (value + (str + n + 1 + i - (str + n + 1))) with (value + i) by lia. apply A2. by apply Ov. }
    split_and!; [|done|rewrite Hv by lia; done]. intros i z Hi. pose proof (lookup_lt_Some _ _ _ Hi). rewrite Hv by lia. by apply Vb.
Qed.

Lemma env_find_at l1 : forall fuel m a name nm k p e l2, env_is m a (l1 ++ (p, e) :: l2) -> cstr m name nm -> (length l1 < fuel)%nat ->
  Forall (fun x => defines nm x.2 = false) l1 -> defines nm e = true ->
  env_find fuel m a name (length nm) k = Some (a + 4 * Z.of_nat (length l1), k + Z.of_nat (length l1)) /\ wget m (a + 4 * Z.of_nat (length l1)) = p.
Proof.
  induction l1 as [|[q t] l1 IH]; intros fuel m a name nm k p e l2 He Hn Hf Hd De; (destruct fuel as [|fuel]; [cbn in Hf; lia|]); cbn [app env_is env_find length] in *.
  - destruct He as (Ep & Hp & Hs & _). rewrite Z.mul_0_r, !Z.add_0_r. rewrite Ep, (proj2 (Z.eqb_neq p 0)) by lia. by rewrite (matches_ok nm m p name e Hs Hn), De.
  - destruct He as (Eq & Hq & Ht & He). apply Forall_cons in Hd as [D Hd]. cbn in D. rewrite Eq, (proj2 (Z.eqb_neq q 0)) by lia. rewrite (matches_ok nm m q name t Ht Hn), D.
    replace (a + 4 * Z.of_nat (S (length l1))) with (a + 4 + 4 * Z.of_nat (length l1)) by lia. replace (k + Z.of_nat (S (length l1))) with (k + 1 + Z.of_nat (length l1)) by lia.
    by apply (IH fuel m (a + 4) name nm (k + 1) p e l2); [done|done|lia|..].
Qed.

(** Replacing the string of one entry. *)
Lemma env_is_replace l1 : forall lo hi m m' a p e e' l2, env_is m a (l1 ++ (p, e) :: l2) -> agree_out lo hi m m' -> Forall (clear_of lo hi) (l1 ++ l2) ->
  a + 4 * Z.of_nat (S (length (l1 ++ (p, e) :: l2))) <= lo \/ hi <= a -> cstr m' p e' -> env_is m' a (l1 ++ (p, e') :: l2).
Proof.
  induction l1 as [|[q t] l1 IH]; intros lo hi m m' a p e e' l2 He Ag Hc Ha Hp; cbn [app env_is length] in *.
  - destruct He as (Ep & Rp & _ & He). rewrite (wget_frame _ _ _ _ _ Ag) by lia. split_and!; [done|lia|lia|done|]. eapply env_is_frame; [exact Ag|exact Hc|lia|exact He].
  - destruct He as (Eq & Rq & Ht & He). apply Forall_cons in Hc as [Hq Hc]. rewrite (wget_frame _ _ _ _ _ Ag) by lia. split_and!; [done|lia|lia|by eapply cstr_frame|].
    by apply (IH lo hi m m' (a + 4) p e e' l2); [..|lia|].
Qed.

(** C22: Changing a variable and reading it back.  For a process whose environment holds
    the variable in an entry with room for the new value, [setenv] with [overwrite]
    returns 0, changes the string of the first such entry to the new value and no
    other entry, and [getenv] then gives the new value.  The strings do not overlap
    each other or the array. *)
Theorem setenv_getenv base grants fuel name nm value v p e l1 l2 s : let m := mm (hp s) in let env := environ s in let l := l1 ++ (p, e) :: l2 in
  env <> 0 -> env_is m env l -> cstr m name nm -> cstr m value v -> Forall (fun x => defines nm x.2 = false) l1 -> defines nm e = true ->
  (length nm + 1 + length v <= length e)%nat -> (length e < fuel)%nat -> (length l < fuel)%nat ->
  let hi := p + Z.of_nat (length e) + 1 in
  Forall (clear_of p hi) ((name, nm) :: (value, v) :: l1 ++ l2) -> env + 4 * Z.of_nat (S (length l)) <= p \/ hi <= env ->
  exists s', setenv base grants fuel name value true s = Done 0 s' /\ env_is (mm (hp s')) (environ s') (l1 ++ (p, nm ++ 61 :: v) :: l2) /\
    exists r, getenv fuel name s' = Done r s' /\ cstr (mm (hp s')) r v.
Proof.
  intros m env l Ne He Hn Hv Hd De Hlen Hf Hl hi Hc Ha. apply Forall_cons in Hc as [Cn Hc]. apply Forall_cons in Hc as [Cv Hc].
  assert (Le : (length l1 < length l)%nat) by (unfold l; rewrite length_app; cbn; lia).
  destruct (env_find_at l1 fuel m env name nm 0 p e l2 He Hn ltac:(lia) Hd De) as [Ef Wp]. set (ep := env + 4 * Z.of_nat (length l1)) in *.
  assert (Hin : (p, e) ∈ l) by (apply elem_of_app; right; by left). destruct (env_is_in m env l p e He Hin) as [Rp Hs].
  set (hi' := p + Z.of_nat (length nm) + 2 + Z.of_nat (length v)). assert (Hh : p <= hi' <= hi) by (unfold hi, hi'; lia).
  destruct (entry_mem_ok p name value nm v m Hn Hv) as [Ag Cs]; [apply (clear_sub p hi); [lia|fold hi'; lia|fold hi'; lia|exact Cn]|apply (clear_sub p hi); [lia|fold hi'; lia|fold hi'; lia|exact Cv]|]. fold hi' in Ag.
  set (m' := entry_mem p name value nm v m) in *. set (s' := Ev (Hst m' (freep (hp s)) (brk (hp s))) env (last_environ s)).
  assert (Run : setenv base grants fuel name value true s = Done 0 s').
  { unfold setenv. rewrite (bind_Done memory _ s m s eq_refl). rewrite (strlen_ok _ _ _ _ Hn) by lia. rewrite (strlen_ok _ _ _ _ Hv) by lia. cbn [some_fuel].
    rewrite (bind_Done (ret _) _ s (Z.of_nat (length nm)) s eq_refl), (bind_Done (ret _) _ s (Z.of_nat (length v)) s eq_refl), (bind_Done (gets environ) _ s env s eq_refl).
    rewrite (proj2 (Z.eqb_neq env 0) Ne), Nat2Z.id, Ef. cbn [some_fuel]. rewrite (bind_Done (ret _) _ s (ep, 0 + Z.of_nat (length l1)) s eq_refl). cbn [fst snd]. rewrite Wp.
    rewrite (proj2 (Z.eqb_neq p 0)) by lia. unfold setenv_over. rewrite (bind_Done memory _ s m s eq_refl). rewrite Wp, (strlen_ok _ _ _ _ Hs Hf). cbn [some_fuel].
    rewrite (bind_Done (ret _) _ s (Z.of_nat (length e)) s eq_refl). rewrite (proj2 (Z.ltb_ge (Z.of_nat (length e) + 1) _)) by lia.
    rewrite (bind_Done (ret true) _ s true s eq_refl). cbn [negb]. rewrite (bind_Done memory _ s m s eq_refl). rewrite Wp.
    unfold write_entry, change, bind, modify, ret. cbn. rewrite Nat2Z.id. replace (Z.to_nat (Z.of_nat (length v) + 1)) with (S (length v)) by lia. done. }
  assert (He' : env_is m' env (l1 ++ (p, nm ++ 61 :: v) :: l2)).
  { apply (env_is_replace l1 p hi' m m' env p e _ l2); [exact He|exact Ag| |unfold l in Ha; lia|exact Cs].
    eapply Forall_impl; [exact Hc|]. intros x. apply clear_sub; lia. }
  exists s'. split; [done|]. split; [done|].
  assert (Hn' : cstr m' name nm) by (eapply cstr_frame; [exact Ag|apply (clear_sub p hi); [lia|lia|lia|exact Cn]|done]).
  destruct (getenv_ok fuel name nm (l1 ++ (p, nm ++ 61 :: v) :: l2) s' Ne He' Hn') as (r & Er & Hr); [lia|unfold l in Hl; rewrite length_app in *; cbn in *; lia|]. exists r. split; [done|].
  assert (Eg : env_get nm (l1 ++ (p, nm ++ 61 :: v) :: l2) = Some (p, nm ++ 61 :: v)).
  { clear - Hd. induction l1 as [|[q t] l1 IH]; cbn.
    - unfold defines. rewrite bool_decide_true; [done|]. change (nm ++ 61 :: v) with (nm ++ [61] ++ v). rewrite app_assoc.
      replace (S (length nm)) with (length (nm ++ [61])) by (rewrite length_app; cbn; lia). apply take_app_length.
    - apply Forall_cons in Hd as [D Hd]. cbn in D. rewrite D. by apply IH. }
  rewrite Eg in Hr. destruct Hr as (v' & Ev & -> & Hv'). apply app_inv_head in Ev. by injection Ev as <-.
Qed.

(** [unsetenv] of a name that no two entries in a row define removes its entries. *)
Fixpoint apart (nm : list Z) (l : list (Z * list Z)) : bool :=
  match l with
  | (_, s) :: (((_, t) :: _) as l') => negb (defines nm s && defines nm t) && apart nm l'
  | _ => true
  end.

Lemma unset_apart nm l : apart nm l = true -> unset nm l = filter (fun x => defines nm x.2 = false) l.
Proof.
  assert (G : forall n l, (length l <= n)%nat -> apart nm l = true -> unset nm l = filter (fun x => defines nm x.2 = false) l); [|by apply (G (length l))].
  clear. induction n as [|n IH]; intros l Hn Ha; (destruct l as [|[p s] l]; [done|]); cbn in Hn; [lia|]. cbn [unset]. destruct (defines nm s) eqn:D.
  - rewrite filter_cons_False by (cbn; congruence). destruct l as [|[q t] l]; [done|]. cbn in Ha. rewrite D in Ha. cbn in Ha. apply andb_true_iff in Ha as [Dt Ha].
    apply negb_true_iff in Dt. rewrite filter_cons_True by done. f_equal. apply IH; [cbn in Hn; lia|]. destruct l as [|[r u] l]; [done|]. by apply andb_true_iff in Ha as [_ Ha].
  - rewrite filter_cons_True by done. f_equal. apply IH; [lia|]. destruct l as [|[q t] l]; [done|]. cbn in Ha. by apply andb_true_iff in Ha as [_ Ha].
Qed.

Lemma unsetenv_ok fuel name nm l s : environ s <> 0 -> env_is (mm (hp s)) (environ s) l -> cstr (mm (hp s)) name nm ->
  Forall (clear_of (environ s) (environ s + 4 * Z.of_nat (S (length l)))) ((name, nm) :: l) -> (length nm < fuel)%nat -> (length l < fuel)%nat -> apart nm l = true ->
  exists s', unsetenv fuel name s = Done tt s' /\ environ s' = environ s /\ env_is (mm (hp s')) (environ s') (filter (fun x => defines nm x.2 = false) l).
Proof.
  intros Ne He Hn Hc Hf Hl Ha. destruct (unset_loop_ok _ l fuel fuel (environ s) name nm _ (le_n _) He Hn Hc Hl Hl) as (m' & E & _ & He').
  unfold unsetenv. rewrite (bind_Done memory _ s (mm (hp s)) s eq_refl). rewrite (strlen_ok _ _ _ _ Hn Hf). cbn [some_fuel].
  rewrite (bind_Done (ret _) _ s (Z.of_nat (length nm)) s eq_refl), (bind_Done (gets environ) _ s (environ s) s eq_refl). rewrite (proj2 (Z.eqb_neq _ 0) Ne), Nat2Z.id, E.
  cbn [some_fuel]. rewrite (bind_Done (ret _) _ s m' s eq_refl). eexists. split; [reflexivity|]. split; [done|]. cbn. by rewrite <- unset_apart.
Qed.

(** The second of two entries of the name in a row stays. *)
Lemma unset_keeps_neighbour nm p s q t l : defines nm s = true -> defines nm t = true -> (q, t) ∈ unset nm ((p, s) :: (q, t) :: l).
Proof. intros D _. cbn. rewrite D. by left. Qed.

(** ** Examples *)

(** Strings at 100, 200, ...: [A=old], [B=2] and the names and values used below; the
    array at 500. *)
Definition texts : list (Z * list Z) :=
  [(100, [65; 61; 111; 108; 100]); (200, [66; 61; 50]); (300, [65]); (400, [49]); (600, [66]); (700, [67])].
Definition demo_mem : mem := fun a =>
  if (500 <=? a) && (a <? 512) then (le_enc 4 100 ++ le_enc 4 200 ++ le_enc 4 0) !!! Z.to_nat (a - 500)
  else foldr (fun x r => if (x.1 <=? a) && (a <? x.1 + Z.of_nat (length x.2)) then x.2 !!! Z.to_nat (a - x.1) else r) 0 texts.
Definition demo : evst := Ev (Hst demo_mem 0 4096) 500 0.

Lemma demo_cstr p l : Forall (fun z => 0 < z < 256) l -> map (fun i => demo_mem (p + Z.of_nat i)) (seq 0 (length l)) = l -> demo_mem (p + Z.of_nat (length l)) = 0 -> cstr demo_mem p l.
Proof.
  intros Hr Hb Hz. split_and!; [|done|done]. intros i z Hi. rewrite <- Hb in Hi. rewrite list_lookup_fmap in Hi. apply fmap_Some in Hi as (j & Hj & ->).
  by apply lookup_seq in Hj as [-> _].
Qed.

Lemma setenv_getenv_witness : exists s' r, setenv 1000 low 20 300 400 true demo = Done 0 s' /\ getenv 20 300 s' = Done r s' /\ cstr (mm (hp s')) r [49].
Proof.
  destruct (setenv_getenv 1000 low 20 300 [65] 400 [49] 100 [65; 61; 111; 108; 100] [] [(200, [66; 61; 50])] demo) as (s' & E & _ & r & Er & Hr).
  - discriminate.
  - cbn. split; [reflexivity|]. split; [lia|]. split; [apply demo_cstr; [repeat constructor; lia|reflexivity|reflexivity]|].
    split; [reflexivity|]. split; [lia|]. split; [apply demo_cstr; [repeat constructor; lia|reflexivity|reflexivity]|reflexivity].
  - apply demo_cstr; [repeat constructor; lia|reflexivity|reflexivity].
  - apply demo_cstr; [repeat constructor; lia|reflexivity|reflexivity].
  - constructor.
  - reflexivity.
  - cbn. lia.
  - cbn. lia.
  - cbn. lia.
  - repeat constructor; unfold clear_of; cbn; lia.
  - cbn. lia.
  - exists s', r. exact (conj E (conj Er Hr)).
Defined.

(** Three new variables, one after the other, starting without an environment: the
    second is lost, since [realloc] moves only a part of the array. *)
Definition three : M evst Z :=
  setenv 1000 low 20 300 400 true ;!
  setenv 1000 low 20 600 400 true ;!
  setenv 1000 low 20 700 400 true ;!
  getenv 20 600.

Lemma setenv_loses : match three (Ev (Hst demo_mem 0 4096) 0 0) with Done r _ => r =? 0 | _ => false end = true.
Proof. vm_compute. reflexivity. Qed.

End Env.
