(* ===== verification/Console.v ===== *)
(** * The console (kernel/console.c, kbd.c, uart.c)

    The screen and the serial line as the devices show them, formatted output, the
    keyboard's scan codes, and the line discipline: a ring of 128 bytes with a read,
    a write and an edit index of type [uint].  The index registers of the screen and
    the status register of the serial line are folded into their devices: the cursor
    is one number, and a byte is sent once the line is ready or was polled 128 times.

    The ring implements a line editor: bytes become readable when their line is
    complete, erasing stops at the line's start, and a reader gets a line at a time,
    also when the indices wrap around. *)

From Stdlib Require Import List.
From S2P Require Import Prelude Digits Spinlock Proc Fs.

Import Digits.

Module Console.

(** ** Devices *)

(** 80 columns and 25 rows of screen, the cursor, what was sent over the serial line,
    whether there is one, and the state of the output functions. *)
Record dev := Dev { crt : list Z; cursor : Z; serial : list Z; uart : bool; panicked : bool; locking : bool; cons_lock : bool }.

Definition set_serial (x : list Z) (d : dev) : dev := Dev (crt d) (cursor d) x (uart d) (panicked d) (locking d) (cons_lock d).
Definition set_screen (x : list Z) (p : Z) (d : dev) : dev := Dev x p (serial d) (uart d) (panicked d) (locking d) (cons_lock d).
Definition set_flags (p l : bool) (d : dev) : dev := Dev (crt d) (cursor d) (serial d) (uart d) p l (cons_lock d).
Definition set_lock (l : bool) (d : dev) : dev := Dev (crt d) (cursor d) (serial d) (uart d) (panicked d) (locking d) l.

Definition CELLS : nat := 2000.
Definition BACKSPACE : Z := 256.

Definition uartputc (c : Z) : M dev unit := fun d =>
  if negb (uart d) then Done tt d else Done tt (set_serial (serial d ++ [u8 c]) d).

(** [status] is what the line's status port reads; 0xFF means that there is no line. *)
Definition uartinit (status : Z) : M dev unit := fun d =>
  if status =? 255 then Done tt d else forM (text "xv6..." ++ [10]) uartputc (Dev (crt d) (cursor d) (serial d) true (panicked d) (locking d) (cons_lock d)).

(** The byte the line has received, if there is one. *)
Definition uartgetc (present : bool) (data : option Z) : Z :=
  if negb present then -1 else match data with Some x => x | None => -1 end.

(** [crt[pos] = v] *)
Definition put_cell (pos v : Z) (l : list Z) : option (list Z) :=
  if (0 <=? pos) && (pos <? Z.of_nat CELLS) then Some (<[Z.to_nat pos := v]> l) else None.

(** [memmove(crt, crt + 80, ...)] and [memset(crt + pos, 0, ...)] *)
Definition scroll (l : list Z) (pos : Z) : list Z :=
  let l := poke 0 (peek 80 (23 * 80) l) l in
  poke (Z.to_nat pos) (replicate (24 * 80 - Z.to_nat pos) 0) l.

Definition cgaputc (c : Z) : M dev unit := fun d =>
  let pos := cursor d in
  let moved :=
    if c =? 10 then Some (pos + (80 - Z.rem pos 80), crt d)
    else if c =? BACKSPACE then Some (if 0 <? pos then pos - 1 else pos, crt d)
    else l ← put_cell pos (Z.lor (Z.land c 255) 1792) (crt d); Some (pos + 1, l) in
  match moved with
  | None => Wild "screen"
  | Some (pos, l) =>
      let '(pos, l) := if 24 <=? Z.quot pos 80 then (pos - 80, scroll l (pos - 80)) else (pos, l) in
      match put_cell pos (Z.lor 32 1792) l with
      | None => Wild "screen"
      | Some l => Done tt (set_screen l (u16 pos) d)
      end
  end.

(** A processor that finds [panicked] set stays in its loop. *)
Definition consputc (c : Z) : M dev unit := fun d =>
  if panicked d then NoFuel
  else
    ((if c =? BACKSPACE then uartputc 8 ;! uartputc 32 ;! uartputc 8 else uartputc c) ;!
     cgaputc c) d.

(** ** Formatted output *)

Definition digits : list Z := digits_lower.

Definition printint (xx base : Z) (sign : bool) : M dev unit :=
  let neg := sign && (xx <? 0) in
  let x := if neg then u32 (- xx) else u32 xx in
  match conv digits 16 x base with
  | None => wild "printint: buf"
  | Some l =>
      if neg then if (length l <? 16)%nat then forM (rev (l ++ [45])) consputc else wild "printint: buf"
      else forM (rev l) consputc
  end.

Fixpoint cprintf_loop (fmt : list Z) (argp : list arg) : M dev unit :=
  match fmt with
  | [] => ret tt
  | c :: fmt' =>
      if negb (c =? 37) then consputc c ;! cprintf_loop fmt' argp
      else
        match fmt' with
        | [] => ret tt
        | c :: fmt' =>
            if c =? 100 then
              match argp with AInt x :: argp' => printint (s32 x) 10 true ;! cprintf_loop fmt' argp' | _ => wild "cprintf: argument" end
            else if (c =? 120) || (c =? 112) then
              match argp with AInt x :: argp' => printint (s32 x) 16 false ;! cprintf_loop fmt' argp' | _ => wild "cprintf: argument" end
            else if c =? 115 then
              match argp with AStr s :: argp' => forM (default null_text s) consputc ;! cprintf_loop fmt' argp' | _ => wild "cprintf: argument" end
            else if c =? 37 then consputc 37 ;! cprintf_loop fmt' argp
            else consputc 37 ;! consputc c ;! cprintf_loop fmt' argp
        end
  end.

Definition acquire_cons : M dev unit := fun d => if cons_lock d then Panic "acquire" else Done tt (set_lock true d).
Definition release_cons : M dev unit := fun d => if cons_lock d then Done tt (set_lock false d) else Panic "release".

Definition cprintf (fmt : list Z) (argp : list arg) : M dev unit :=
  let! l := gets locking in
  when l acquire_cons ;!
  cprintf_loop fmt argp ;!
  when l release_cons.

(** What [panic] shows before its loop: [pcs] are the ten return addresses. *)
Definition kpanic (cpu : Z) (s : list Z) (pcs : list Z) : M dev unit :=
  modify (fun d => set_flags (panicked d) false d) ;!
  cprintf (text "cpu%d: panic: ") [AInt cpu] ;!
  cprintf s [] ;!
  cprintf [10] [] ;!
  forM pcs (fun pc => cprintf (text " %p") [AInt pc]) ;!
  modify (fun d => set_flags true (locking d) d).

(** ** Process listing (proc.c) *)

#[local] Existing Instance Proc.procstate_eq_dec.

Definition state_name (s : Proc.procstate) : list Z :=
  match s with
  | Proc.UNUSED => text "unused"
  | Proc.EMBRYO => text "embryo"
  | Proc.SLEEPING => text "sleep "
  | Proc.RUNNABLE => text "runble"
  | Proc.RUNNING => text "run   "
  | Proc.ZOMBIE => text "zombie"
  end.

(** The addresses in front of the first null one. *)
Fixpoint upto_null (l : list Z) : list Z := match l with x :: l' => if x =? 0 then [] else x :: upto_null l' | [] => [] end.

(** [pcs p] are the return addresses on the stack of a sleeping process. *)
Definition procdump (pcs : Proc.proc -> list Z) (ptable : list Proc.proc) : M dev unit :=
  forM ptable (fun p =>
    if bool_decide (Proc.state p = Proc.UNUSED) then ret tt
    else
      cprintf (text "%d %s %s") [AInt (Proc.pid p); AStr (Some (state_name (Proc.state p))); AStr (Some (upto_null (Proc.name p)))] ;!
      when (bool_decide (Proc.state p = Proc.SLEEPING)) (forM (upto_null (pcs p)) (fun pc => cprintf (text " %p") [AInt pc])) ;!
      cprintf [10] []).

(** ** The line discipline *)

Definition INPUT_BUF : Z := 128.

(** The device, [input] with its lock, and the channels that were woken up. *)
Record cst := Cst { dv : dev; ibuf : list Z; ir : Z; iw : Z; ie : Z; input_lock : bool; woken : list chan }.

Definition set_dv (d : dev) (s : cst) : cst := Cst d (ibuf s) (ir s) (iw s) (ie s) (input_lock s) (woken s).
Definition set_r (x : Z) (s : cst) : cst := Cst (dv s) (ibuf s) x (iw s) (ie s) (input_lock s) (woken s).
Definition set_w (x : Z) (s : cst) : cst := Cst (dv s) (ibuf s) (ir s) x (ie s) (input_lock s) (woken s).
Definition set_e (x : Z) (s : cst) : cst := Cst (dv s) (ibuf s) (ir s) (iw s) x (input_lock s) (woken s).
Definition set_ibuf (l : list Z) (s : cst) : cst := Cst (dv s) l (ir s) (iw s) (ie s) (input_lock s) (woken s).
Definition set_input_lock (l : bool) (s : cst) : cst := Cst (dv s) (ibuf s) (ir s) (iw s) (ie s) l (woken s).
Definition wake (c : chan) (s : cst) : cst := Cst (dv s) (ibuf s) (ir s) (iw s) (ie s) (input_lock s) (woken s ++ [c]).

Definition on_dev {A} (m : M dev A) : M cst A := zoom dv set_dv m.
Definition acquire_input : M cst unit := fun s => if input_lock s then Panic "acquire" else Done tt (set_input_lock true s).
Definition release_input : M cst unit := fun s => if input_lock s then Done tt (set_input_lock false s) else Panic "release".

(** [input.buf[i % INPUT_BUF]] *)
Definition ring (i : Z) (s : cst) : Z := ibuf s !!! Z.to_nat (i mod INPUT_BUF).
Definition ring_put (i v : Z) (s : cst) : cst := set_ibuf (<[Z.to_nat (i mod INPUT_BUF) := v]> (ibuf s)) s.

(** [while (input.e != input.w && input.buf[(input.e-1) % INPUT_BUF] != '\n')] *)
Fixpoint kill_line (fuel : nat) : M cst unit := fun s =>
  if negb (ie s =? iw s) && negb (ring (u32 (ie s - 1)) s =? 10) then
    match fuel with
    | O => NoFuel
    | S f => (modify (set_e (u32 (ie s - 1))) ;! on_dev (consputc BACKSPACE) ;! kill_line f) s
    end
  else Done tt s.

Section Input.
(** The process listing. *)
Context (dump : M dev unit).

(** The [switch] for one character. *)
Definition input_char (c : Z) : M cst unit := fun s =>
  if c =? 16 then on_dev dump s
  else if c =? 21 then kill_line 128 s
  else if (c =? 8) || (c =? 127) then
    if negb (ie s =? iw s) then (modify (set_e (u32 (ie s - 1))) ;! on_dev (consputc BACKSPACE)) s else Done tt s
  else if negb (c =? 0) && (u32 (ie s - ir s) <? INPUT_BUF) then
    let c := if c =? 13 then 10 else c in
    (modify (ring_put (ie s) (u8 c)) ;!
     modify (set_e (u32 (ie s + 1))) ;!
     on_dev (consputc c) ;!
     (fun s =>
        if (c =? 10) || (c =? 4) || (ie s =? u32 (ir s + INPUT_BUF)) then (modify (fun s => set_w (ie s) s) ;! modify (wake CInput)) s
        else Done tt s)) s
  else Done tt s.

(** [getc] gives the characters [keys] and then a negative number. *)
Definition consoleintr (keys : list Z) : M cst unit :=
  acquire_input ;! forM keys input_char ;! release_input.

(** The calls of [uartgetc] until it returns a negative number. *)
Definition uartintr (received : list Z) : M cst unit := fun s =>
  consoleintr (filter (fun c => 0 <= c) (map (fun x => uartgetc (uart (dv s)) (Some x)) received)) s.

End Input.

(** [while (n > 0)]: the bytes stored and what is left of [n]; [None] if the process is
    killed while it waits.  A process that waits sleeps on [&input.r]. *)
Fixpoint read_loop (killed : bool) (target n : nat) (acc : list Z) : M cst (option (list Z * nat)) :=
  match n with
  | O => ret (Some (acc, O))
  | S n' => fun s =>
      if ir s =? iw s then if killed then Done None s else Sleep CInput (set_input_lock false s)
      else
        let c := ring (ir s) s in
        let s := set_r (u32 (ir s + 1)) s in
        if c =? 4 then
          if (n <? target)%nat then Done (Some (acc, n)) (set_r (u32 (ir s - 1)) s) else Done (Some (acc, n)) s
        else if c =? 10 then Done (Some (acc ++ [c], n')) s
        else read_loop killed target n' (acc ++ [c]) s
  end.

(** The part of [consoleread] between the calls for the inode. *)
Definition read_input (killed : bool) (n : nat) : M cst (Z * list Z) :=
  acquire_input ;!
  let! r := read_loop killed n n [] in
  release_input ;!
  match r with
  | None => ret (-1, [])
  | Some (l, m) => ret (Z.of_nat n - Z.of_nat m, l)
  end.

Definition write_output (buf : list Z) : M cst unit :=
  on_dev acquire_cons ;!
  forM buf (fun c => on_dev (consputc (Z.land c 255))) ;!
  on_dev release_cons.

Definition consoleinit (s : cst) : cst :=
  let d := set_lock false (set_flags (panicked (dv s)) true (dv s)) in set_input_lock false (set_dv d s).

(** ** The device functions *)

(** The console as a part of the machine below the file system; [dead] is
    [proc->killed] of the running process. *)
Section Devsw.
Context {B : Type} `{Fs.Blocks B} (get : B -> cst) (set : cst -> B -> B) (dead : B -> bool).

Definition on_console {A} (m : M cst A) : M (Fs.fsys B) A := zoom (fun s => get (Fs.blk s)) (fun c s => Fs.set_blk (set c (Fs.blk s)) s) m.

Definition consoleread (ip : nat) (n : Z) : M (Fs.fsys B) (Z * list Z) :=
  Fs.iunlock (Some ip) ;!
  let! k := gets (fun s => dead (Fs.blk s)) in
  let! r := on_console (read_input k (Z.to_nat n)) in
  Fs.ilock (Some ip) ;!
  ret r.

Definition consolewrite (ip : nat) (buf : list Z) (n : Z) : M (Fs.fsys B) Z :=
  Fs.iunlock (Some ip) ;!
  on_console (write_output (take (Z.to_nat n) buf)) ;!
  Fs.ilock (Some ip) ;!
  ret n.

(** [devsw] after [consoleinit]: CONSOLE is number 1. *)
Definition devsw : Fs.Devices :=
  {| Fs.dev_read := fun major => if major =? 1 then Some consoleread else None;
     Fs.dev_write := fun major => if major =? 1 then Some consolewrite else None |}.
End Devsw.

(** ** The screen *)

Definition dev_ok (d : dev) : Prop := length (crt d) = CELLS /\ 0 <= cursor d < 1920 /\ panicked d = false.

(** All but the screen is the same. *)
Definition same_rest (d d' : dev) : Prop := uart d' = uart d /\ panicked d' = panicked d /\ locking d' = locking d /\ cons_lock d' = cons_lock d.

Lemma put_cell_ok pos v l : 0 <= pos < 2000 -> put_cell pos v l = Some (<[Z.to_nat pos := v]> l).
Proof. intros H. unfold put_cell, CELLS. rewrite (proj2 (Z.leb_le _ _)), (proj2 (Z.ltb_lt _ _)) by lia. done. Qed.

Lemma length_scroll l pos : length l = CELLS -> 0 <= pos < 1920 -> length (scroll l pos) = CELLS.
Proof.
  intros L H. unfold scroll, CELLS in *. set (a := peek 80 (23 * 80) l). assert (La : length a = (23 * 80)%nat) by (unfold a; apply length_peek; lia).
  assert (L1 : length (poke 0 a l) = 2000%nat) by (rewrite length_poke by lia; done). rewrite length_poke; [done|]. rewrite length_replicate. lia.
Qed.

(** The cursor stays on the screen, and nothing is written beside it. *)
Lemma cgaputc_ok c d : dev_ok d -> exists d', cgaputc c d = Done tt d' /\ dev_ok d' /\ same_rest d d' /\ serial d' = serial d.
Proof.
  intros (L & Hc & Hp). unfold cgaputc. set (pos := cursor d) in *.
  assert (Move : exists p l, (if c =? 10 then Some (pos + (80 - Z.rem pos 80), crt d)
    else if c =? BACKSPACE then Some (if 0 <? pos then pos - 1 else pos, crt d)
    else l ← put_cell pos (Z.lor (Z.land c 255) 1792) (crt d); Some (pos + 1, l)) = Some (p, l) /\ 0 <= p <= 1920 /\ length l = CELLS).
  { pose proof (Z.rem_bound_pos pos 80 ltac:(lia) ltac:(lia)). pose proof (Z.quot_rem' pos 80). destruct (c =? 10).
    - eexists _, _. split; [done|]. split; [|done]. assert (Z.quot pos 80 < 24) by (apply Z.quot_lt_upper_bound; lia). lia.
    - destruct (c =? BACKSPACE); [eexists _, _; split; [done|]; split; [destruct (Z.ltb_spec 0 pos); lia|done]|].
      rewrite put_cell_ok by lia. eexists _, _. split; [done|]. split; [lia|by rewrite length_insert]. }
  destruct Move as (p & l & -> & Hp' & Ll).
  assert (Sc : exists p' l', (if 24 <=? Z.quot p 80 then (p - 80, scroll l (p - 80)) else (p, l)) = (p', l') /\ 0 <= p' < 1920 /\ length l' = CELLS).
  { destruct (Z.leb_spec 24 (Z.quot p 80)) as [Hq|Hq].
    - assert (p = 1920) as ->. { pose proof (Z.quot_rem' p 80). pose proof (Z.rem_bound_pos p 80 ltac:(lia) ltac:(lia)). lia. }
      eexists _, _. split; [done|]. split; [lia|]. apply length_scroll; [done|lia].
    - eexists _, _. split; [done|]. split; [|done]. pose proof (Z.quot_rem' p 80). pose proof (Z.rem_bound_pos p 80 ltac:(lia) ltac:(lia)). lia. }
  destruct Sc as (p' & l' & -> & Hp'' & Ll'). rewrite put_cell_ok by lia. eexists. split; [done|]. split; [|done].
  split; [cbn; by rewrite length_insert|]. split; [cbn|done]. unfold u16. rewrite Z.mod_small by lia. lia.
Qed.

(** What goes over the serial line for a character. *)
Definition sent (c : Z) : list Z := if c =? BACKSPACE then [8; 32; 8] else [u8 c].

Lemma consputc_ok c d : dev_ok d -> exists d', consputc c d = Done tt d' /\ dev_ok d' /\ same_rest d d' /\
  serial d' = serial d ++ (if uart d then sent c else []).
Proof.
  intros Ok. unfold consputc. rewrite (proj2 (proj2 Ok)).
  assert (U : exists d1, (if c =? BACKSPACE then uartputc 8 ;! uartputc 32 ;! uartputc 8 else uartputc c) d = Done tt d1 /\ dev_ok d1 /\ same_rest d d1 /\
    serial d1 = serial d ++ (if uart d then sent c else [])).
  { unfold uartputc, sent, bind. destruct (c =? BACKSPACE); destruct (uart d) eqn:Eu; cbn; rewrite ?Eu; cbn; rewrite ?Eu; cbn; eexists; (split; [done|]);
      rewrite ?app_nil_r, <- ?app_assoc; done. }
  destruct U as (d1 & E1 & Ok1 & (S1 & S2 & S3 & S4) & Se). rewrite (bind_Done _ _ _ _ _ E1). destruct (cgaputc_ok c d1 Ok1) as (d2 & E2 & Ok2 & (T1 & T2 & T3 & T4) & Te).
  exists d2. split; [done|]. split; [done|]. split; [|congruence]. repeat split; congruence.
Qed.

(** ** What cprintf writes *)

(** The text of a format, and what is sent of it. *)
Fixpoint kformat (fmt : list Z) (argp : list arg) : option (list Z) :=
  match fmt with
  | [] => Some []
  | c :: fmt' =>
      if negb (c =? 37) then cons c <$> kformat fmt' argp
      else
        match fmt' with
        | [] => Some []
        | c :: fmt' =>
            if c =? 100 then match argp with AInt x :: argp' => app (int_text digits (s32 x) 10 true) <$> kformat fmt' argp' | _ => None end
            else if (c =? 120) || (c =? 112) then
              match argp with AInt x :: argp' => app (int_text digits (s32 x) 16 false) <$> kformat fmt' argp' | _ => None end
            else if c =? 115 then match argp with AStr s :: argp' => app (default null_text s) <$> kformat fmt' argp' | _ => None end
            else if c =? 37 then cons 37 <$> kformat fmt' argp
            else (fun l => 37 :: c :: l) <$> kformat fmt' argp
        end
  end.

Definition sent_all (l : list Z) : list Z := l ≫= sent.

(** [m] writes the text [t]. *)
Definition shows (m : M dev unit) (t : list Z) : Prop := forall d, dev_ok d ->
  exists d', m d = Done tt d' /\ dev_ok d' /\ same_rest d d' /\ serial d' = serial d ++ (if uart d then sent_all t else []).

Lemma shows_nil : shows (ret tt) [].
Proof. intros d Ok. exists d. split; [done|]. split; [done|]. split; [done|]. cbn. destruct (uart d); by rewrite app_nil_r. Qed.

Lemma shows_putc c : shows (consputc c) [c].
Proof. intros d Ok. destruct (consputc_ok c d Ok) as (d' & E & Ok' & S & Se). exists d'. unfold sent_all. cbn. rewrite app_nil_r. done. Qed.

Lemma shows_app m k a b : shows m a -> shows k b -> shows (m ;! k) (a ++ b).
Proof.
  intros Hm Hk d Ok. destruct (Hm d Ok) as (d1 & E1 & Ok1 & (S1 & S2 & S3 & S4) & Se1). destruct (Hk d1 Ok1) as (d2 & E2 & Ok2 & (T1 & T2 & T3 & T4) & Se2).
  exists d2. rewrite (bind_Done _ _ _ _ _ E1). split; [done|]. split; [done|]. split; [repeat split; congruence|]. rewrite Se2, Se1, S1.
  unfold sent_all. rewrite bind_app. destruct (uart d); by rewrite <- ?app_assoc, ?app_nil_r.
Qed.

Lemma shows_all l : shows (forM l consputc) l.
Proof. induction l as [|c l IH]; cbn [forM]; [apply shows_nil|]. apply (shows_app _ _ [c] l); [apply shows_putc|done]. Qed.

Lemma shows_int x base sgn : 10 <= base <= 16 -> shows (printint (s32 x) base sgn) (int_text digits (s32 x) base sgn).
Proof.
  intros Hb. unfold printint, int_text. set (neg := sgn && _). set (y := if neg then _ else _).
  destruct (magnitude_ok digits (or_intror eq_refl) base y Hb) as (l & -> & _ & _ & L & _ & _); [unfold y; destruct neg; apply u32_range|]. cbn [default]. unfold id.
  destruct neg; [|apply shows_all]. rewrite (proj2 (Nat.ltb_lt _ _)) by lia. rewrite rev_unit. apply shows_all.
Qed.

Lemma shows_cprintf_loop n : forall fmt argp t, (length fmt <= n)%nat -> kformat fmt argp = Some t -> shows (cprintf_loop fmt argp) t.
Proof.
  induction n as [|n IH]; intros fmt argp t Hn; (destruct fmt as [|c fmt]; [intros [= <-]; apply shows_nil|]); cbn in Hn; [lia|]. cbn [kformat cprintf_loop].
  assert (One : forall m a fmt argp t, shows m a -> (length fmt <= n)%nat -> (app a) <$> kformat fmt argp = Some t -> shows (m ;! cprintf_loop fmt argp) t).
  { intros m a fmt' argp' t' Hm Hl. destruct (kformat fmt' argp') as [t''|] eqn:E; [|done]. intros [= <-]. apply shows_app; [done|]. by apply IH. }
  destruct (c =? 37); cbn [negb]; [|intros E; apply (One _ [c]); [apply shows_putc|lia|done]].
  destruct fmt as [|d fmt]; [intros [= <-]; apply shows_nil|]. cbn in Hn.
  destruct (d =? 100); [destruct argp as [|[x|] argp]; [done| |done]; intros E; eapply One; [by apply shows_int|lia|exact E]|].
  destruct ((d =? 120) || (d =? 112)); [destruct argp as [|[x|] argp]; [done| |done]; intros E; eapply One; [by apply shows_int|lia|exact E]|].
  destruct (d =? 115); [destruct argp as [|[|s] argp]; [done|done|]; intros E; eapply One; [apply shows_all|lia|exact E]|].
  destruct (Z.eqb_spec d 37) as [->|]; [intros E; apply (One _ [37]); [apply shows_putc|lia|done]|].
  intros E. destruct (kformat fmt argp) as [t'|] eqn:Ef; [|done]. injection E as <-. apply (shows_app _ _ [37]); [apply shows_putc|].
  apply (shows_app _ _ [d]); [apply shows_putc|]. apply IH; [lia|done].
Qed.

(** The lock is free. *)
Definition dev_free (d : dev) : Prop := dev_ok d /\ cons_lock d = false.

Lemma cprintf_ok fmt argp t d : kformat fmt argp = Some t -> dev_free d ->
  exists d', cprintf fmt argp d = Done tt d' /\ dev_free d' /\ serial d' = serial d ++ (if uart d then sent_all t else []).
Proof.
  intros F [Ok L]. unfold cprintf. rewrite (bind_Done (gets locking) _ d (locking d) d eq_refl). pose proof (shows_cprintf_loop _ _ _ _ (le_n _) F) as Sh.
  destruct (locking d) eqn:El; cbn [when].
  - rewrite (bind_Done acquire_cons _ d tt (set_lock true d)) by (unfold acquire_cons; by rewrite L).
    destruct (Sh (set_lock true d) Ok) as (d1 & E1 & Ok1 & (_ & _ & _ & S4) & Se). rewrite (bind_Done _ _ _ _ _ E1). cbn in S4.
    exists (set_lock false d1). unfold release_cons. rewrite S4. split; [done|]. split; [done|exact Se].
  - rewrite (bind_Done (ret tt) _ d tt d eq_refl). destruct (Sh d Ok) as (d1 & E1 & Ok1 & (_ & _ & _ & S4) & Se). rewrite (bind_Done _ _ _ _ _ E1).
    exists d1. split; [done|]. split; [split; [done|congruence]|done].
Qed.

(** The process listing ends with the console as it was but for what it shows. *)
Lemma procdump_ok pcs t d : dev_free d -> exists d', procdump pcs t d = Done tt d' /\ dev_free d'.
Proof.
  unfold procdump. revert d. induction t as [|p t IH]; intros d Fr; cbn [forM]; [by exists d|].
  assert (One : forall d, dev_free d -> exists d', (if bool_decide (Proc.state p = Proc.UNUSED) then ret tt else
      cprintf (text "%d %s %s") [AInt (Proc.pid p); AStr (Some (state_name (Proc.state p))); AStr (Some (upto_null (Proc.name p)))] ;!
      when (bool_decide (Proc.state p = Proc.SLEEPING)) (forM (upto_null (pcs p)) (fun pc => cprintf (text " %p") [AInt pc])) ;!
      cprintf [10] []) d = Done tt d' /\ dev_free d').
  { clear. intros d Fr. case_bool_decide; [by exists d|].
    destruct (cprintf_ok (text "%d %s %s") [AInt (Proc.pid p); AStr (Some (state_name (Proc.state p))); AStr (Some (upto_null (Proc.name p)))] _ d eq_refl Fr) as (d1 & E1 & F1 & _).
    rewrite (bind_Done _ _ _ _ _ E1). assert (W : exists d2, when (bool_decide (Proc.state p = Proc.SLEEPING)) (forM (upto_null (pcs p)) (fun pc => cprintf (text " %p") [AInt pc])) d1 = Done tt d2 /\ dev_free d2).
    { case_bool_decide; cbn [when]; [|by exists d1]. clear E1. revert d1 F1. generalize (upto_null (pcs p)). induction l as [|pc l IHl]; intros d1 F1; cbn [forM]; [by exists d1|].
      destruct (cprintf_ok (text " %p") [AInt pc] _ d1 eq_refl F1) as (d2 & E2 & F2 & _). rewrite (bind_Done _ _ _ _ _ E2). by apply IHl. }
    destruct W as (d2 & E2 & F2). rewrite (bind_Done _ _ _ _ _ E2). destruct (cprintf_ok [10] [] _ d2 eq_refl F2) as (d3 & E3 & F3 & _). by exists d3. }
  destruct (One d Fr) as (d1 & E1 & F1). rewrite (bind_Done _ _ _ _ _ E1). by apply IH.
Qed.

(** ** The editor *)

(** Lines that can be read, and the line that is being typed. *)
Record ed := Ed { ready : list Z; pending : list Z }.

Definition room (a : ed) : bool := (length (ready a) + length (pending a) <? 128)%nat.

Definition type_key (a : ed) (c : Z) : ed :=
  if c =? 16 then a
  else if c =? 21 then Ed (ready a) []
  else if (c =? 8) || (c =? 127) then Ed (ready a) (removelast (pending a))
  else if negb (c =? 0) && room a then
    let c := if c =? 13 then 10 else c in
    let l := pending a ++ [c] in
    if (c =? 10) || (c =? 4) || (length (ready a) + length l =? 128)%nat then Ed (ready a ++ l) [] else Ed (ready a) l
  else a.

(** Reading up to [n] bytes: what is read and what stays; [None] if the reader has to
    wait.  A line ends the read, and so does an end of file, which is kept for the next
    read if bytes come before it. *)
Fixpoint read_ready (target n : nat) (l acc : list Z) : option (list Z * list Z) :=
  match n with
  | O => Some (acc, l)
  | S n' =>
      match l with
      | [] => None
      | c :: l' =>
          if c =? 4 then if (n <? target)%nat then Some (acc, l) else Some (acc, l')
          else if c =? 10 then Some (acc ++ [c], l') else read_ready target n' l' (acc ++ [c])
      end
  end.

(** The ring holds the editor's bytes. *)
Record holds (s : cst) (a : ed) : Prop := {
  h_len : length (ibuf s) = 128%nat;
  h_r : 0 <= ir s < 2 ^ 32;
  h_w : iw s = u32 (ir s + Z.of_nat (length (ready a)));
  h_e : ie s = u32 (ir s + Z.of_nat (length (ready a) + length (pending a)));
  h_fit : (length (ready a) + length (pending a) <= 128)%nat;
  h_bytes : forall i x, (ready a ++ pending a) !! i = Some x -> ring (ir s + Z.of_nat i) s = x;
  h_line : Forall (fun c => c <> 10) (pending a) }.

Lemma u32_ring k s : ring (u32 k) s = ring k s.
Proof.
  unfold ring, INPUT_BUF, u32. do 2 f_equal. rewrite <- Znumtheory.Zmod_div_mod; [done|lia|lia|]. by exists (2 ^ 25).
Qed.

Lemma u32_inj a b r : 0 <= a < 2 ^ 32 -> 0 <= b < 2 ^ 32 -> u32 (r + a) = u32 (r + b) -> a = b.
Proof.
  intros Ha Hb E. unfold u32 in E. assert ((r + a) mod 2 ^ 32 - (r + b) mod 2 ^ 32 = 0) by lia.
  pose proof (Z.div_mod (r + a) (2 ^ 32) ltac:(lia)). pose proof (Z.div_mod (r + b) (2 ^ 32) ltac:(lia)). nia.
Qed.

Lemma u32_step r k : u32 (u32 (r + k) + 1) = u32 (r + (k + 1)).
Proof. unfold u32. rewrite Zplus_mod_idemp_l. f_equal. lia. Qed.
Lemma u32_back r k : u32 (u32 (r + k) - 1) = u32 (r + (k - 1)).
Proof. unfold u32. rewrite Zminus_mod_idemp_l. f_equal. lia. Qed.

(** Bytes of the ring at different places. *)
Lemma ring_put_same i v s : length (ibuf s) = 128%nat -> ring i (ring_put i v s) = v.
Proof.
  intros L. unfold ring, ring_put, INPUT_BUF. cbn. pose proof (Z.mod_pos_bound i 128 ltac:(lia)). apply list_lookup_total_insert_eq. lia.
Qed.
Lemma ring_put_other i j v s : 0 < Z.abs (i - j) < 128 -> ring j (ring_put i v s) = ring j s.
Proof.
  intros H. unfold ring, ring_put, INPUT_BUF. cbn. apply list_lookup_total_insert_ne.
  pose proof (Z.mod_pos_bound i 128 ltac:(lia)). pose proof (Z.mod_pos_bound j 128 ltac:(lia)).
  pose proof (Z.div_mod i 128 ltac:(lia)). pose proof (Z.div_mod j 128 ltac:(lia)). intros E.
  assert (i mod 128 = j mod 128) by lia. nia.
Qed.

(** ** Steps of the ring are steps of the editor *)

Lemma holds_dv s a d : holds s a -> holds (set_dv d s) a.
Proof. by intros []. Qed.
Lemma holds_lock s a l : holds s a -> holds (set_input_lock l s) a.
Proof. by intros []. Qed.
Lemma holds_wake s a c : holds s a -> holds (wake c s) a.
Proof. by intros []. Qed.

Lemma on_dev_putc c s : dev_free (dv s) -> exists d', on_dev (consputc c) s = Done tt (set_dv d' s) /\ dev_free d'.
Proof.
  intros [Ok L]. destruct (consputc_ok c (dv s) Ok) as (d' & E & Ok' & (_ & _ & _ & S) & _). exists d'. split; [by apply zoom_Done|]. split; [done|congruence].
Qed.

(** The line is empty iff the indices are the same. *)
Lemma empty_line s a : holds s a -> (ie s =? iw s) = bool_decide (pending a = []).
Proof.
  intros H. rewrite (h_w _ _ H), (h_e _ _ H). case_bool_decide as E.
  - rewrite E. cbn. rewrite Nat.add_0_r. apply Z.eqb_refl.
  - apply Z.eqb_neq. intros X. pose proof (h_fit _ _ H). apply u32_inj in X; [|lia..]. destruct (pending a); [done|cbn in X; lia].
Qed.

Lemma no_input s a : holds s a -> (ir s =? iw s) = bool_decide (ready a = []).
Proof.
  intros H. rewrite (h_w _ _ H). pose proof (h_r _ _ H). pose proof (h_fit _ _ H). replace (ir s) with (u32 (ir s + 0)) at 1 by (rewrite Z.add_0_r; apply u32_small; lia).
  case_bool_decide as E; [rewrite E; apply Z.eqb_refl|]. apply Z.eqb_neq. intros X. apply u32_inj in X; [|lia..]. destruct (ready a); [done|cbn in X; lia].
Qed.

(** Erasing the last byte of the line. *)
Lemma erase_ok s q l x : holds s (Ed q (l ++ [x])) -> holds (set_e (u32 (ie s - 1)) s) (Ed q l) /\ ring (u32 (ie s - 1)) s = x /\ x <> 10.
Proof.
  intros H. pose proof (h_e _ _ H) as He. cbn [ready pending] in He. rewrite length_app in He. cbn [length] in He.
  pose proof (h_fit _ _ H) as Hf. cbn [ready pending] in Hf. rewrite length_app in Hf. cbn [length] in Hf.
  pose proof (h_line _ _ H) as Hl. cbn [pending] in Hl. apply Forall_app in Hl as [Hl Hx].
  assert (E : u32 (ie s - 1) = u32 (ir s + Z.of_nat (length q + length l))) by (rewrite He, u32_back; f_equal; lia). split; [|split; [|by inversion Hx]].
  - constructor; cbn [ready pending]; try apply H; [done|lia| |done]. intros i y Hi. apply (h_bytes _ _ H). cbn [ready pending]. rewrite app_assoc. by apply lookup_app_l_Some.
  - rewrite E, u32_ring. apply (h_bytes _ _ H). cbn [ready pending]. rewrite app_assoc, lookup_app_r by (rewrite length_app; lia).
    by rewrite length_app, Nat.sub_diag.
Qed.

Lemma kill_line_ok l : forall s q fuel, holds s (Ed q l) -> dev_free (dv s) -> (length l <= fuel)%nat ->
  exists s', kill_line fuel s = Done tt s' /\ holds s' (Ed q []) /\ dev_free (dv s') /\ input_lock s' = input_lock s /\ woken s' = woken s.
Proof.
  induction l as [|x l IH] using rev_ind; intros s q fuel H Ok Hf.
  - exists s. assert (E : kill_line fuel s = Done tt s). { destruct fuel; cbn [kill_line]; by rewrite (empty_line _ _ H). } by rewrite E.
  - rewrite length_app in Hf. cbn in Hf. destruct fuel as [|fuel]; [lia|]. cbn [kill_line]. destruct (erase_ok s q l x H) as (H1 & E1 & N).
    rewrite (empty_line _ _ H), E1. rewrite bool_decide_false by (by destruct l). rewrite (proj2 (Z.eqb_neq _ _) N). cbn [pending negb andb].
    set (s1 := set_e _ s) in *. rewrite (bind_Done (modify (set_e (u32 (ie s - 1)))) _ s tt s1 eq_refl).
    destruct (on_dev_putc BACKSPACE s1 Ok) as (d & E2 & Ok2). rewrite (bind_Done _ _ _ _ _ E2).
    destruct (IH (set_dv d s1) q fuel (holds_dv _ _ d H1) Ok2 ltac:(lia)) as (s' & E & H' & Ok' & L' & W'). by exists s'.
Qed.

(** Adding a byte to the line. *)
Lemma add_ok s q l c : holds s (Ed q l) -> (length q + length l < 128)%nat -> c <> 10 \/ c = 10 ->
  let s1 := set_e (u32 (ie s + 1)) (ring_put (ie s) c s) in
  ie s1 = u32 (ir s + Z.of_nat (length q + length (l ++ [c]))) /\ length (ibuf s1) = 128%nat /\
  forall i x, (q ++ l ++ [c]) !! i = Some x -> ring (ir s1 + Z.of_nat i) s1 = x.
Proof.
  intros H Hr _. cbn zeta. pose proof (h_e _ _ H) as He. cbn [ready pending] in He. split_and!.
  - cbn [ie set_e]. rewrite He, u32_step, length_app. cbn. f_equal. lia.
  - cbn. rewrite length_insert. apply (h_len _ _ H).
  - intros i x Hi. cbn [ir set_e ring_put set_ibuf]. change (ring (ir s + Z.of_nat i) (set_e (u32 (ie s + 1)) (ring_put (ie s) c s))) with (ring (ir s + Z.of_nat i) (ring_put (ie s) c s)).
    assert (Er : ring_put (ie s) c s = ring_put (ir s + Z.of_nat (length q + length l)) c s).
    { unfold ring_put. do 2 f_equal. rewrite He. unfold INPUT_BUF, u32. rewrite <- Znumtheory.Zmod_div_mod; [done|lia|lia|]. by exists (2 ^ 25). }
    rewrite Er. rewrite app_assoc in Hi. destruct (decide (i = length q + length l)%nat) as [->|N].
    + rewrite ring_put_same by apply (h_len _ _ H). rewrite lookup_app_r in Hi by (rewrite length_app; lia). rewrite length_app, Nat.sub_diag in Hi. by injection Hi.
    + assert (Hlt : (i < length q + length l)%nat). { pose proof (lookup_lt_Some _ _ _ Hi) as X. rewrite !length_app in X. cbn in X. lia. }
      rewrite ring_put_other by lia. rewrite lookup_app_l in Hi by (rewrite length_app; lia). by apply (h_bytes _ _ H).
Qed.

Section Sim.
Context (dump : M dev unit) (Hdump : forall d, dev_free d -> exists d', dump d = Done tt d' /\ dev_free d').

Lemma input_char_ok c s a : holds s a -> dev_free (dv s) -> 0 <= c < 256 ->
  exists s', input_char dump c s = Done tt s' /\ holds s' (type_key a c) /\ dev_free (dv s') /\ input_lock s' = input_lock s /\
    woken s `prefix_of` woken s' /\ (ready (type_key a c) <> ready a -> CInput ∈ woken s').
Proof.
  intros H Ok Hc. destruct a as [q l]. unfold input_char, type_key. cbn [ready pending].
  destruct (c =? 16); [destruct (Hdump _ Ok) as (d & E & Ok'); exists (set_dv d s); split; [by apply zoom_Done|]; split; [by apply holds_dv|split_and!; done]|].
  destruct (c =? 21).
  { destruct (kill_line_ok l s q 128 H Ok) as (s' & E & H' & Ok' & L' & W'); [pose proof (h_fit _ _ H); cbn in *; lia|]. exists s'. rewrite W'. split_and!; done. }
  destruct ((c =? 8) || (c =? 127)).
  { rewrite (empty_line _ _ H). cbn [pending]. destruct l as [|y l _] using rev_ind; [exists s; split_and!; done|]. rewrite bool_decide_false by (by destruct l). cbn [negb].
    destruct (erase_ok s q l y H) as (H1 & _ & _). rewrite removelast_last. set (s1 := set_e _ s) in *.
    rewrite (bind_Done (modify (set_e (u32 (ie s - 1)))) _ s tt s1 eq_refl). destruct (on_dev_putc BACKSPACE s1 Ok) as (d & -> & Ok').
    exists (set_dv d s1). split; [done|]. split; [by apply holds_dv|split_and!; done]. }
  assert (Er : u32 (ie s - ir s) = Z.of_nat (length q + length l)).
  { pose proof (h_fit _ _ H). cbn in *. rewrite (h_e _ _ H). cbn [ready pending]. unfold u32. rewrite Zminus_mod_idemp_l. rewrite <- (u32_small (Z.of_nat (length q + length l))) at 2 by lia.
    unfold u32. f_equal. lia. }
  rewrite Er. unfold room, INPUT_BUF. cbn [ready pending]. replace (Z.of_nat (length q + length l) <? 128) with (length q + length l <? 128)%nat
    by (destruct (Nat.ltb_spec (length q + length l) 128), (Z.ltb_spec (Z.of_nat (length q + length l)) 128); lia || done).
  destruct (Z.eqb_spec c 0) as [->|N0]; [cbn; exists s; split_and!; done|]. cbn [negb andb].
  destruct (Nat.ltb_spec (length q + length l) 128) as [Hr|]; [|exists s; split_and!; done].
  cbn [andb]. set (x := if c =? 13 then 10 else c). assert (Hx : u8 x = x) by (unfold u8, x; apply Z.mod_small; change (2 ^ 8) with 256; destruct (c =? 13); lia).
  rewrite Hx. destruct (add_ok s q l x H Hr ltac:(lia)) as (Ee & Lb & Hb). set (s1 := set_e _ (ring_put (ie s) x s)) in *.
  rewrite (bind_Done (modify (ring_put (ie s) x)) _ s tt (ring_put (ie s) x s) eq_refl), (bind_Done (modify (set_e (u32 (ie s + 1)))) _ _ tt s1 eq_refl).
  destruct (on_dev_putc x s1 Ok) as (d & E & Ok'). rewrite (bind_Done _ _ _ _ _ E).
  assert (Ef : (ie (set_dv d s1) =? u32 (ir (set_dv d s1) + 128)) = (length q + length (l ++ [x]) =? 128)%nat).
  { change (ie (set_dv d s1)) with (ie s1). change (ir (set_dv d s1)) with (ir s). rewrite Ee. rewrite length_app in *. cbn [length] in *.
    destruct (Nat.eqb_spec (length q + (length l + 1)) 128) as [X|X]; [rewrite X; apply Z.eqb_refl|]. apply Z.eqb_neq. intros Y. apply u32_inj in Y; lia. }
  rewrite Ef. destruct ((x =? 10) || (x =? 4) || (length q + length (l ++ [x]) =? 128)%nat) eqn:Ec; cbn [ready pending].
  - eexists. split; [reflexivity|]. split; [|split_and!; [done|done|cbn; by apply prefix_app_r|intros _; cbn; rewrite elem_of_app; right; by left]].
    apply holds_wake. constructor; cbn [ready pending]; try done.
    + apply (h_r _ _ H).
    + change (iw (set_w (ie (set_dv d s1)) (set_dv d s1))) with (ie s1). rewrite Ee. cbn [ir set_w set_dv]. rewrite (length_app q). done.
    + change (ie (set_w (ie (set_dv d s1)) (set_dv d s1))) with (ie s1). rewrite Ee. cbn [ir set_w set_dv length]. rewrite (length_app q), Nat.add_0_r. done.
    + rewrite !length_app. cbn. lia.
    + intros i y. rewrite app_nil_r. apply Hb.
  - exists (set_dv d s1). split; [done|]. split; [|split_and!; done]. apply holds_dv. constructor; cbn [ready pending]; try done.
    + apply (h_r _ _ H).
    + apply (h_w _ _ H).
    + rewrite length_app. cbn. lia.
    + apply Forall_app. split; [apply (h_line _ _ H)|]. constructor; [|done]. apply orb_false_elim in Ec as [Ec _]. apply orb_false_elim in Ec as [Ec _]. by apply Z.eqb_neq.
Qed.

Lemma input_chars_ok keys : Forall (fun c => 0 <= c < 256) keys -> forall s a, holds s a -> dev_free (dv s) ->
  exists s', forM keys (input_char dump) s = Done tt s' /\ holds s' (foldl type_key a keys) /\ dev_free (dv s') /\ input_lock s' = input_lock s /\
    woken s `prefix_of` woken s' /\ (ready (foldl type_key a keys) <> ready a -> CInput ∈ woken s').
Proof.
  induction 1 as [|c keys Hc Hk IH]; intros s a H Ok; cbn [forM foldl]; [exists s; split_and!; done|].
  destruct (input_char_ok c s a H Ok Hc) as (s1 & E1 & H1 & Ok1 & L1 & P1 & W1). rewrite (bind_Done _ _ _ _ _ E1).
  destruct (IH s1 _ H1 Ok1) as (s' & E & H' & Ok' & L' & P' & W'). exists s'. split_and!; try done; [congruence|by etrans|]. intros N.
  destruct (decide (ready (type_key a c) = ready a)) as [Eq|Ne]; [apply W'; congruence|]. destruct P' as [x ->]. rewrite elem_of_app. left. by apply W1.
Qed.

Lemma consoleintr_ok keys s a : holds s a -> dev_free (dv s) -> input_lock s = false -> Forall (fun c => 0 <= c < 256) keys ->
  exists s', consoleintr dump keys s = Done tt s' /\ holds s' (foldl type_key a keys) /\ dev_free (dv s') /\ input_lock s' = false /\
    (ready (foldl type_key a keys) <> ready a -> CInput ∈ woken s').
Proof.
  intros H Ok Hl Hk. unfold consoleintr. rewrite (bind_Done acquire_input _ s tt (set_input_lock true s)) by (unfold acquire_input; by rewrite Hl).
  destruct (input_chars_ok keys Hk _ _ (holds_lock s a true H) Ok) as (s1 & E1 & H1 & Ok1 & L1 & _ & W1). rewrite (bind_Done _ _ _ _ _ E1). cbn in L1.
  exists (set_input_lock false s1). unfold release_input. rewrite L1. split_and!; try done. by apply holds_lock.
Qed.

End Sim.

Lemma read_loop_ok n : forall k target s q l acc bytes q', holds s (Ed q l) -> read_ready target n q acc = Some (bytes, q') ->
  exists s' m, read_loop k target n acc s = Done (Some (bytes, m)) s' /\ holds s' (Ed q' l) /\ dv s' = dv s /\ input_lock s' = input_lock s /\
    (length acc + n = length bytes + m)%nat.
Proof.
  induction n as [|n IH]; intros k target s q l acc bytes q' H; cbn [read_ready read_loop]; [intros [= <- <-]; exists s, O; done|].
  rewrite (no_input _ _ H). cbn [ready]. destruct q as [|c q]; [done|]. rewrite bool_decide_false by done.
  assert (E : ring (ir s) s = c). { rewrite <- (Z.add_0_r (ir s)). apply (h_bytes _ _ H 0%nat). done. }
  rewrite E. set (s1 := set_r (u32 (ir s + 1)) s). assert (H1 : holds s1 (Ed q l)).
  { pose proof (h_r _ _ H) as R. assert (Eu : forall k, u32 (u32 (ir s + 1) + k) = u32 (ir s + (k + 1))) by (intros; unfold u32; rewrite Zplus_mod_idemp_l; f_equal; lia).
    constructor; cbn [ready pending ir set_r s1]; try apply H.
    - apply u32_range.
    - change (iw s1) with (iw s). rewrite Eu, (h_w _ _ H). cbn [ready length]. f_equal. lia.
    - change (ie s1) with (ie s). rewrite Eu, (h_e _ _ H). cbn [ready pending length]. f_equal. lia.
    - pose proof (h_fit _ _ H) as F. cbn in F. lia.
    - intros i x Hi. change (ring (u32 (ir s + 1) + Z.of_nat i) s1) with (ring (u32 (ir s + 1) + Z.of_nat i) s). rewrite <- u32_ring, Eu, u32_ring.
      replace (Z.of_nat i + 1) with (Z.of_nat (S i)) by lia. by apply (h_bytes _ _ H). }
  destruct (c =? 4).
  - destruct (S n <? target)%nat; intros [= <- <-]; eexists _, (S n); (split; [reflexivity|]); (split; [|split; [done|split; [done|lia]]]); [|done].
    assert (Es : set_r (u32 (ir s1 - 1)) s1 = s). { unfold s1. cbn. rewrite u32_back, Z.sub_diag, Z.add_0_r, u32_small by apply (h_r _ _ H). by destruct s. }
    by rewrite Es.
  - destruct (c =? 10); [intros [= <- <-]; exists s1, n; split; [done|split; [done|split; [done|split; [done|rewrite length_app; cbn; lia]]]]|].
    intros Hr. destruct (IH k target s1 q l (acc ++ [c]) bytes q' H1 Hr) as (s' & m & R & H' & D & L & Hm). exists s', m. rewrite length_app in Hm. cbn in Hm.
    split; [done|]. split; [done|]. split; [done|]. split; [done|lia].
Qed.

(** A reader that has to wait has taken what there was, and sleeps without the lock. *)
Lemma read_loop_sleeps n : forall target s q l acc, holds s (Ed q l) -> read_ready target n q acc = None ->
  exists s', read_loop false target n acc s = Sleep CInput s' /\ holds s' (Ed [] l) /\ input_lock s' = false.
Proof.
  induction n as [|n IH]; intros target s q l acc H; cbn [read_ready read_loop]; [done|].
  rewrite (no_input _ _ H). cbn [ready]. destruct q as [|c q]; [intros _; eexists; split; [reflexivity|]; split; [by apply holds_lock|done]|].
  rewrite bool_decide_false by done. assert (E : ring (ir s) s = c). { rewrite <- (Z.add_0_r (ir s)). apply (h_bytes _ _ H 0%nat). done. }
  rewrite E. destruct (Z.eqb_spec c 4) as [|N4]; [by destruct (_ <? _)%nat|]. destruct (Z.eqb_spec c 10); [done|]. intros Hr.
  destruct (read_loop_ok 1 false target s (c :: q) l [] [c] q H) as (s' & m & R & H' & _).
  { cbn. rewrite (proj2 (Z.eqb_neq c 4) N4). rewrite (proj2 (Z.eqb_neq c 10)) by done. done. }
  cbn [read_loop] in R. rewrite (no_input _ _ H) in R. cbn [ready] in R. rewrite bool_decide_false in R by done. rewrite E in R.
  rewrite (proj2 (Z.eqb_neq c 4) N4), (proj2 (Z.eqb_neq c 10)) in R by done. injection R as _ <-. by apply (IH _ _ q).
Qed.

(** C19: The console's line discipline.  Whatever is typed, the ring of 128 bytes behaves
    as the line editor does: an erase takes back the last byte of the line that is being
    typed, a kill the whole line, neither goes beyond the line's start, and a line can
    be read once it is complete or the ring is full.  A read then gives the bytes of the
    first line that is ready, at most as many as asked for, with an end of file as the
    editor has it; or the reader sleeps, and is woken when a line becomes ready.  This holds for every
    value of the indices, also when they wrap around, and the cursor never leaves the
    screen. *)
Theorem console_lines pcs t keys n s a : holds s a -> dev_free (dv s) -> input_lock s = false -> Forall (fun c => 0 <= c < 256) keys ->
  exists s1, consoleintr (procdump pcs t) keys s = Done tt s1 /\ dev_free (dv s1) /\ holds s1 (foldl type_key a keys) /\
    (ready (foldl type_key a keys) <> ready a -> CInput ∈ woken s1) /\
    match read_ready n n (ready (foldl type_key a keys)) [] with
    | Some (bytes, q) => forall k, exists s2, read_input k n s1 = Done (Z.of_nat (length bytes), bytes) s2 /\ holds s2 (Ed q (pending (foldl type_key a keys)))
    | None => exists s2, read_input false n s1 = Sleep CInput s2 /\ holds s2 (Ed [] (pending (foldl type_key a keys))) /\ input_lock s2 = false
    end.
Proof.
  intros H Fr Hl Hk. destruct (consoleintr_ok (procdump pcs t) (procdump_ok pcs t) keys s a H Fr Hl Hk) as (s1 & E1 & H1 & F1 & L1 & W1).
  exists s1. split; [done|]. split; [done|]. split; [done|]. split; [done|]. destruct (foldl type_key a keys) as [q l]. cbn [ready pending].
  assert (Ea : acquire_input s1 = Done tt (set_input_lock true s1)) by (unfold acquire_input; by rewrite L1).
  pose proof (holds_lock s1 (Ed q l) true H1) as H2. destruct (read_ready n n q []) as [[bytes q']|] eqn:Er.
  - intros k. destruct (read_loop_ok n k n _ q l [] bytes q' H2 Er) as (s2 & m & R & H3 & _ & L3 & Hm). unfold read_input.
    rewrite (bind_Done _ _ _ _ _ Ea), (bind_Done _ _ _ _ _ R). rewrite (bind_Done release_input _ s2 tt (set_input_lock false s2)) by (unfold release_input; by rewrite L3).
    exists (set_input_lock false s2). split; [|by apply holds_lock]. unfold ret. cbn in Hm. do 2 f_equal. lia.
  - destruct (read_loop_sleeps n n _ q l [] H2 Er) as (s2 & R & H3 & L3). exists s2. unfold read_input. rewrite (bind_Done _ _ _ _ _ Ea), (bind_Sleep _ _ _ _ _ R). done.
Qed.

(** [lt], an erase, [s] and a newline, with indices about to wrap around. *)
Definition start : cst := Cst (Dev (replicate CELLS 0) 0 [] true false true false) (replicate 128 0) (2 ^ 32 - 2) (2 ^ 32 - 2) (2 ^ 32 - 2) false [].

Lemma console_lines_witness : exists s1 s2, consoleintr (procdump (fun _ => []) []) [108; 116; 8; 115; 13] start = Done tt s1 /\
  read_input false 10 s1 = Done (3, [108; 115; 10]) s2.
Proof.
  destruct (console_lines (fun _ => []) [] [108; 116; 8; 115; 13] 10 start (Ed [] [])) as (s1 & E1 & _ & _ & _ & R).
  - constructor; try done; cbn; lia.
  - split; [split; [reflexivity|split; [cbn; lia|done]]|done].
  - done.
  - repeat constructor; done.
  - destruct (R false) as (s2 & E2 & _). exists s1, s2. split; [exact E1|exact E2].
Defined.

End Console.
