(* ===== verification/Kbd.v ===== *)
(** * The keyboard (kernel/kbd.c, include/sys/kbd.h)

    The scan codes of the controller, the tables of characters, and the state of the
    modifier keys between two codes.  Pressing and releasing the keys of a text, with
    the shift key held where a character needs it, types the text: the console's line
    editor sees its characters and nothing else. *)

From S2P Require Import Prelude Spinlock Proc Fs Digits Console.

Module Kbd.
Import Digits.

Definition SHIFT : Z := 1.
Definition CTL : Z := 2.
Definition ALT : Z := 4.
Definition CAPSLOCK : Z := 8.
Definition NUMLOCK : Z := 16.
Definition SCROLLLOCK : Z := 32.
Definition E0ESC : Z := 64.
Definition KEY_HOME : Z := 224.
Definition KEY_END : Z := 225.
Definition KEY_UP : Z := 226.
Definition KEY_DN : Z := 227.
Definition KEY_LF : Z := 228.
Definition KEY_RT : Z := 229.
Definition KEY_PGUP : Z := 230.
Definition KEY_PGDN : Z := 231.
Definition KEY_INS : Z := 232.
Definition KEY_DEL : Z := 233.

(** An array of 256 bytes from its first elements and the designated ones. *)
Definition table (first : list Z) (designated : list (Z * Z)) : list Z :=
  foldl (fun l '(i, x) => <[Z.to_nat i := x]> l) (first ++ replicate (256 - length first) 0) designated.

Definition normalmap : list Z := table [
  0; 27; 49; 50; 51; 52; 53; 54; 55; 56; 57; 48; 45; 61; 8; 9;
  113; 119; 101; 114; 116; 121; 117; 105; 111; 112; 91; 93; 10; 0; 97; 115;
  100; 102; 103; 104; 106; 107; 108; 59; 39; 96; 0; 92; 122; 120; 99; 118;
  98; 110; 109; 44; 46; 47; 0; 42; 0; 32; 0; 0; 0; 0; 0; 0;
  0; 0; 0; 0; 0; 0; 0; 55; 56; 57; 45; 52; 53; 54; 43; 49;
  50; 51; 48; 46; 0; 0; 0; 0]
  [(156, 10); (181, 47); (200, KEY_UP); (208, KEY_DN); (201, KEY_PGUP); (209, KEY_PGDN); (203, KEY_LF); (205, KEY_RT); (151, KEY_HOME); (207, KEY_END); (210, KEY_INS); (211, KEY_DEL)].

Definition shiftmap : list Z := table [
  0; 27; 33; 64; 35; 36; 37; 94; 38; 42; 40; 41; 95; 43; 8; 9;
  81; 87; 69; 82; 84; 89; 85; 73; 79; 80; 123; 125; 10; 0; 65; 83;
  68; 70; 71; 72; 74; 75; 76; 58; 34; 126; 0; 124; 90; 88; 67; 86;
  66; 78; 77; 60; 62; 63; 0; 42; 0; 32; 0; 0; 0; 0; 0; 0;
  0; 0; 0; 0; 0; 0; 0; 55; 56; 57; 45; 52; 53; 54; 43; 49;
  50; 51; 48; 46; 0; 0; 0; 0]
  [(156, 10); (181, 47); (200, KEY_UP); (208, KEY_DN); (201, KEY_PGUP); (209, KEY_PGDN); (203, KEY_LF); (205, KEY_RT); (151, KEY_HOME); (207, KEY_END); (210, KEY_INS); (211, KEY_DEL)].

Definition ctlmap : list Z := table [
  0; 0; 0; 0; 0; 0; 0; 0; 0; 0; 0; 0; 0; 0; 0; 0;
  17; 23; 5; 18; 20; 25; 21; 9; 15; 16; 0; 0; 13; 0; 1; 19;
  4; 6; 7; 8; 10; 11; 12; 0; 0; 0; 0; 28; 26; 24; 3; 22;
  2; 14; 13; 0; 0; 239; 0; 0]
  [(156, 13); (181, 239); (200, KEY_UP); (208, KEY_DN); (201, KEY_PGUP); (209, KEY_PGDN); (203, KEY_LF); (205, KEY_RT); (151, KEY_HOME); (207, KEY_END); (210, KEY_INS); (211, KEY_DEL)].

Definition shiftcode : list Z := table [] [(29, CTL); (42, SHIFT); (54, SHIFT); (56, ALT); (157, CTL); (184, ALT)].

Definition togglecode : list Z := table [] [(58, CAPSLOCK); (69, NUMLOCK); (70, SCROLLLOCK)].

Definition charcode (i : Z) : list Z :=
  if i =? 0 then normalmap else if i =? 1 then shiftmap else ctlmap.

Definition at_ (l : list Z) (i : Z) : Z := l !!! Z.to_nat i.

(** One call of [kbdgetc] when the controller holds the scan code [data]; [shift] is
    the static variable.  Without a code it returns -1. *)
Definition kbdgetc (data : option Z) (shift : Z) : Z * Z :=
  match data with
  | None => (-1, shift)
  | Some data =>
      if data =? 224 then (0, Z.lor shift E0ESC)
      else if negb (Z.land data 128 =? 0) then
        let data := if negb (Z.land shift E0ESC =? 0) then data else Z.land data 127 in
        (0, Z.ldiff shift (Z.lor (at_ shiftcode data) E0ESC))
      else
        let '(data, shift) := if negb (Z.land shift E0ESC =? 0) then (Z.lor data 128, Z.ldiff shift E0ESC) else (data, shift) in
        let shift := Z.lor shift (at_ shiftcode data) in
        let shift := Z.lxor shift (at_ togglecode data) in
        let c := at_ (charcode (Z.land shift (Z.lor CTL SHIFT))) data in
        let c :=
          if negb (Z.land shift CAPSLOCK =? 0) then
            if (97 <=? c) && (c <=? 122) then c + (65 - 97)
            else if (65 <=? c) && (c <=? 90) then c + (97 - 65)
            else c
          else c in
        (c, shift)
  end.

Arguments kbdgetc : simpl never.

(** The characters [kbdgetc] gives while the controller holds the codes [l]. *)
Fixpoint decode (l : list Z) (shift : Z) : list Z * Z :=
  match l with
  | [] => ([], shift)
  | x :: l' => let '(c, shift) := kbdgetc (Some x) shift in let '(cs, shift) := decode l' shift in (c :: cs, shift)
  end.

Definition kbdintr (dump : M Console.dev unit) (codes : list Z) : M (Console.cst * Z) unit := fun '(s, shift) =>
  let '(cs, shift) := decode codes shift in
  match Console.consoleintr dump cs s with
  | Done u s => Done u (s, shift)
  | Panic m => Panic m
  | Sleep c s => Sleep c (s, shift)
  | Wild w => Wild w
  | NoFuel => NoFuel
  end.

(** ** All codes *)

Definition bytes : list Z := map Z.of_nat (seq 0 256).
Definition shifts : list Z := map Z.of_nat (seq 0 128).

Lemma in_seq n x : 0 <= x < Z.of_nat n -> x ∈ map Z.of_nat (seq 0 n).
Proof. intros H. apply list_elem_of_In, in_map_iff. exists (Z.to_nat x). split; [lia|]. apply in_seq. lia. Qed.

(** The modifiers stay in their seven bits and every character is a byte. *)
Lemma kbdgetc_ok shift x : 0 <= shift < 128 -> 0 <= x < 256 -> 0 <= (kbdgetc (Some x) shift).1 < 256 /\ 0 <= (kbdgetc (Some x) shift).2 < 128.
Proof.
  intros Hs Hx.
  assert (A : forallb (fun s => forallb (fun x => let r := kbdgetc (Some x) s in (0 <=? r.1) && (r.1 <? 256) && (0 <=? r.2) && (r.2 <? 128)) bytes) shifts = true) by (vm_compute; reflexivity).
  rewrite forallb_forall in A. specialize (A shift (proj1 (list_elem_of_In _ _) (in_seq 128 shift Hs))). rewrite forallb_forall in A.
  specialize (A x (proj1 (list_elem_of_In _ _) (in_seq 256 x Hx))). cbv zeta in A. lia.
Qed.

Lemma decode_ok l : Forall (fun x => 0 <= x < 256) l -> forall shift, 0 <= shift < 128 ->
  Forall (fun c => 0 <= c < 256) (decode l shift).1 /\ 0 <= (decode l shift).2 < 128.
Proof.
  induction 1 as [|x l Hx Hl IH]; intros s Hs; cbn; [done|]. destruct (kbdgetc_ok s x Hs Hx) as [Hc Hs']. destruct (kbdgetc (Some x) s) as [c s1]. cbn in *.
  destruct (IH s1 Hs') as [F Hs2]. destruct (decode l s1) as [cs s2]. cbn in *. split; [by constructor|done].
Qed.

Lemma decode_app l1 l2 s : decode (l1 ++ l2) s = ((decode l1 s).1 ++ (decode l2 (decode l1 s).2).1, (decode l2 (decode l1 s).2).2).
Proof.
  revert s. induction l1 as [|x l IH]; intros s; cbn; [by destruct (decode l2 s)|]. destruct (kbdgetc (Some x) s) as [c s1]. rewrite IH.
  destruct (decode l s1) as [cs s2]. done.
Qed.

(** ** Typing a text *)

(** The keys of a US keyboard by the scan codes the controller sends for them: rows of
    adjacent keys from their first code on, with what they type alone and with a shift
    key. *)
Definition us_rows : list (Z * list Z * list Z) := [
  (1, [27], [27]);
  (2, text "1234567890-=", text "!@#$%^&*()_+");
  (14, [8], [8]);
  (15, [9], [9]);
  (16, text "qwertyuiop[]", text "QWERTYUIOP{}");
  (28, [10], [10]);
  (30, text "asdfghjkl;", text "ASDFGHJKL:");
  (40, [39; 96], [34; 126]);
  (43, text "\zxcvbnm,./", text "|ZXCVBNM<>?");
  (57, [32], [32])].

(** The key of a character in one of the columns. *)
Fixpoint key_in (col : Z * list Z * list Z -> list Z) (c : Z) (rows : list (Z * list Z * list Z)) : option Z :=
  match rows with
  | [] => None
  | r :: rows' => match list_find (fun x => x = c) (col r) with Some (i, _) => Some (r.1.1 + Z.of_nat i) | None => key_in col c rows' end
  end.

Definition alone (c : Z) : option Z := key_in (fun r => r.1.2) c us_rows.
Definition shifted (c : Z) : option Z := key_in (fun r => r.2) c us_rows.

(** Pressing and releasing the key of a character: alone, with the left shift key (code
    42), or, for a control character, with the left control key (code 29) and a letter.
    A key that is released sends its code plus 128. *)
Definition chord (modifier k : Z) : list Z := [modifier; k; k + 128; modifier + 128].
Definition stroke (c : Z) : option (list Z) :=
  match alone c with
  | Some k => Some [k; k + 128]
  | None => match shifted c with Some k => Some (chord 42 k) | None => k ← alone (c + 96); Some (chord 29 k) end
  end.

Definition strokes (t : list Z) : list Z := concat (omap stroke t).

(** The characters of the keyboard: the printable ones and the control characters up to
    escape. *)
Definition on_keyboard (c : Z) : bool := (32 <=? c) && (c <=? 126) || (1 <=? c) && (c <=? 27).

(** No shift or control key is held and no prefix was sent; alt and the locks can be
    as they like. *)
Definition at_rest (shift : Z) : bool := (0 <=? shift) && (shift <? 128) && (Z.land shift (Z.lor SHIFT (Z.lor CTL E0ESC)) =? 0).

(** What a key types: the caps lock exchanges small and capital letters. *)
Definition typed (shift c : Z) : Z :=
  if Z.testbit shift 3 then if (97 <=? c) && (c <=? 122) then c - 32 else if (65 <=? c) && (c <=? 90) then c + 32 else c else c.

Lemma stroke_ok c shift : on_keyboard c = true -> at_rest shift = true ->
  exists l, stroke c = Some l /\ Forall (fun x => 0 <= x < 256) l /\ filter (fun x => x <> 0) (decode l shift).1 = [typed shift c] /\ (decode l shift).2 = shift.
Proof.
  intros Hc Hs.
  assert (A : forallb (fun s => forallb (fun c => negb (on_keyboard c && at_rest s) ||
    match stroke c with
    | Some l => forallb (fun x => (0 <=? x) && (x <? 256)) l && bool_decide (filter (fun x => x <> 0) (decode l s).1 = [typed s c]) && ((decode l s).2 =? s)
    | None => false
    end) bytes) shifts = true) by (vm_compute; reflexivity).
  assert (Ic : 0 <= c < 256) by (unfold on_keyboard in Hc; lia).
  assert (Is : 0 <= shift < 128) by (unfold at_rest in Hs; lia).
  rewrite forallb_forall in A. specialize (A shift (proj1 (list_elem_of_In _ _) (in_seq 128 shift Is))). rewrite forallb_forall in A.
  specialize (A c (proj1 (list_elem_of_In _ _) (in_seq 256 c Ic))). cbv beta in A. rewrite Hc, Hs in A. cbn [andb negb orb] in A.
  destruct (stroke c) as [l|]; [|done]. apply andb_true_iff in A as [A Es]. apply andb_true_iff in A as [F E]. exists l. split; [done|]. split_and!.
  - apply Forall_forall. intros x Hx. rewrite forallb_forall in F. specialize (F x (proj1 (list_elem_of_In _ _) Hx)). lia.
  - by apply bool_decide_eq_true in E.
  - by apply Z.eqb_eq in Es.
Qed.

Lemma strokes_ok t shift : forallb on_keyboard t = true -> at_rest shift = true ->
  Forall (fun x => 0 <= x < 256) (strokes t) /\ filter (fun x => x <> 0) (decode (strokes t) shift).1 = map (typed shift) t /\ (decode (strokes t) shift).2 = shift.
Proof.
  intros Ht Hs. induction t as [|c t IH]; [done|]. cbn in Ht. apply andb_true_iff in Ht as [Hc Ht]. destruct (IH Ht) as (F & E & R).
  destruct (stroke_ok c shift Hc Hs) as (l & El & Fl & Ec & Rl). unfold strokes. cbn [omap list_omap map]. rewrite El. cbn [concat]. fold (strokes t).
  rewrite decode_app, Rl. cbn [fst snd]. split_and!; [by apply Forall_app|by rewrite filter_app, Ec, E|done].
Qed.

(** A null character is not seen. *)
Lemma type_keys_filter l : forall a, foldl Console.type_key a (filter (fun x => x <> 0) l) = foldl Console.type_key a l.
Proof.
  induction l as [|c l IH]; intros a; [done|]. destruct (decide (c = 0)) as [->|N]; [rewrite filter_cons_False by auto|rewrite filter_cons_True by done; apply IH].
  cbn [foldl]. rewrite IH. by destruct a.
Qed.

(** C20: Typing on the keyboard.  For every text of printable and control characters, the
    codes the controller sends when the keys that have the characters on a US keyboard
    ([us_rows]) are pressed and released one after the other, with a shift key held for
    capitals and the upper signs and the control key for control characters, make the
    console edit its line as the text says.  Before, no shift or control key is held and
    no prefix code was sent ([at_rest]); alt and the locks can be on, and the caps lock
    exchanges small and capital letters ([typed]).  The modifiers are as before, and the
    reader is woken if a line was completed. *)
Theorem kbd_types pcs ptable t shift s a : Console.holds s a -> Console.dev_free (Console.dv s) -> Console.input_lock s = false ->
  forallb on_keyboard t = true -> at_rest shift = true ->
  let t' := map (typed shift) t in
  exists s', kbdintr (Console.procdump pcs ptable) (strokes t) (s, shift) = Done tt (s', shift) /\
    Console.holds s' (foldl Console.type_key a t') /\
    (Console.ready (foldl Console.type_key a t') <> Console.ready a -> CInput ∈ Console.woken s').
Proof.
  intros H Fr L Ht Hs t'. destruct (strokes_ok t shift Ht Hs) as (F & E & R). assert (B : 0 <= shift < 128) by (unfold at_rest in Hs; lia).
  destruct (decode_ok _ F shift B) as [Fc _]. unfold kbdintr. destruct (decode (strokes t) shift) as [cs s2]. cbn [fst snd] in *. subst s2.
  destruct (Console.consoleintr_ok (Console.procdump pcs ptable) (Console.procdump_ok pcs ptable) cs s a H Fr L Fc) as (s' & -> & H' & _ & _ & W).
  exists s'. split; [done|]. unfold t'. rewrite <- E, type_keys_filter. done.
Qed.

(** [Ls | wc], a newline. *)
Lemma kbd_types_witness : exists s', kbdintr (Console.procdump (fun _ => []) []) (strokes [76; 115; 32; 124; 32; 119; 99; 10]) (Console.start, 0) = Done tt (s', 0) /\
  Console.holds s' (Console.Ed [76; 115; 32; 124; 32; 119; 99; 10] []).
Proof.
  destruct (kbd_types (fun _ => []) [] [76; 115; 32; 124; 32; 119; 99; 10] 0 Console.start (Console.Ed [] [])) as (s' & E & H & _); [|done..|].
  - constructor; try done; cbn; lia.
  - exists s'. exact (conj E H).
Defined.

End Kbd.
