(* ===== verification/User.v ===== *)
(** * User programs and their library (apps/lib)

    A user program is a tree of system calls: what it asks of the kernel and how it
    goes on with the answer.  [printf.c], the input functions of [ulib.c] and
    [_start.c] are such trees; [run] runs one against a kernel, which is any function
    that answers calls.

    [printf] writes the text of its format, and the digits [printint] writes denote
    its argument. *)

From Stdlib Require Import List.
From S2P Require Import Prelude Digits.

Import Digits.

Module User.

(** The calls of usys.S that the programs make, with the bytes they pass. *)
Inductive call :=
  | SysFork | SysWait | SysPipe | SysGetpid | SysUptime
  | SysRead (fd n : Z)
  | SysWrite (fd : Z) (d : list Z)
  | SysOpen (path : list Z) (mode : Z)
  | SysClose (fd : Z)
  | SysDup (fd : Z)
  | SysFstat (fd : Z)
  | SysExec (path : list Z) (argv : list (list Z))
  | SysExecve (path : list Z) (argv envp : list (list Z))
  | SysMknod (path : list Z) (major minor : Z)
  | SysUnlink (path : list Z)
  | SysLink (old new : list Z)
  | SysMkdir (path : list Z)
  | SysChdir (path : list Z)
  | SysKill (pid : Z)
  | SysSleep (n : Z).

(** A program goes on with the value in eax and the bytes the kernel has stored.
    [Spin] is a loop cut off by the fuel of its definition. *)
Inductive prog (A : Type) :=
  | Ret (a : A)
  | Call (c : call) (k : Z -> list Z -> prog A)
  | Exit
  | Crash (why : string)
  | Spin.
Arguments Ret {A}.
Arguments Call {A}.
Arguments Exit {A}.
Arguments Crash {A}.
Arguments Spin {A}.

Fixpoint pbind {A B} (p : prog A) (f : A -> prog B) : prog B :=
  match p with
  | Ret a => f a
  | Call c k => Call c (fun r d => pbind (k r d) f)
  | Exit => Exit
  | Crash why => Crash why
  | Spin => Spin
  end.

Declare Scope prog_scope.
Delimit Scope prog_scope with prog.
Notation "'let*' x := m 'in' k" := (pbind m (fun x => k)) (at level 200, x name, m at level 100, k at level 200, right associativity) : prog_scope.
Notation "m ;* k" := (pbind m (fun _ => k)) (at level 199, right associativity) : prog_scope.
Open Scope prog_scope.

(** The value a call returns. *)
Definition ask (c : call) : prog Z := Call c (fun r _ => Ret r).

(** ** printf.c *)

Definition putc (fd c : Z) : prog unit := Call (SysWrite fd [u8 c]) (fun _ _ => Ret tt).

Definition digits : list Z := digits_upper.

(** [while (--i >= 0) putc(fd, buf[i])] *)
Fixpoint put_all (fd : Z) (l : list Z) : prog unit :=
  match l with [] => Ret tt | c :: l' => putc fd c ;* put_all fd l' end.

Definition printint (fd xx base : Z) (sgn : bool) : prog unit :=
  let neg := sgn && (xx <? 0) in
  let x := if neg then u32 (- xx) else u32 xx in
  match conv digits 16 x base with
  | None => Crash "printint: buf"
  | Some l =>
      if neg then if (length l <? 16)%nat then put_all fd (rev (l ++ [45])) else Crash "printint: buf"
      else put_all fd (rev l)
  end.

(** [pct]: [state == '%']. *)
Fixpoint printf_loop (fd : Z) (fmt : list Z) (pct : bool) (ap : list arg) : prog unit :=
  match fmt with
  | [] => Ret tt
  | c :: fmt' =>
      if negb pct then
        if c =? 37 then printf_loop fd fmt' true ap else putc fd c ;* printf_loop fd fmt' false ap
      else if c =? 100 then
        match ap with AInt x :: ap' => printint fd (s32 x) 10 true ;* printf_loop fd fmt' false ap' | _ => Crash "printf: argument" end
      else if (c =? 120) || (c =? 112) then
        match ap with AInt x :: ap' => printint fd (s32 x) 16 false ;* printf_loop fd fmt' false ap' | _ => Crash "printf: argument" end
      else if c =? 115 then
        match ap with
        | AStr s :: ap' => put_all fd (default null_text s) ;* printf_loop fd fmt' false ap'
        | _ => Crash "printf: argument"
        end
      else if c =? 99 then
        match ap with AInt x :: ap' => putc fd x ;* printf_loop fd fmt' false ap' | _ => Crash "printf: argument" end
      else if c =? 37 then putc fd c ;* printf_loop fd fmt' false ap
      else putc fd 37 ;* putc fd c ;* printf_loop fd fmt' false ap
  end.

Definition printf (fd : Z) (fmt : list Z) (ap : list arg) : prog unit := printf_loop fd fmt false ap.

(** ** ulib.c: input *)

(** [for (i = 0; i + 1 < max;)], with [n = max - 1 - i]: the bytes read. *)
Fixpoint gets_loop (n : nat) : prog (list Z) :=
  match n with
  | O => Ret []
  | S n' =>
      Call (SysRead 0 1) (fun cc d =>
        if cc <? 1 then Ret []
        else
          let c := d !!! 0%nat in
          if (c =? 10) || (c =? 13) then Ret [c] else let* l := gets_loop n' in Ret (c :: l))
  end.

(** The string in [buf]; the bytes behind its NUL are as they were. *)
Definition gets (buf : list Z) (max : nat) : prog (list Z) :=
  let* l := gets_loop (max - 1) in Ret (l ++ 0 :: drop (S (length l)) buf).

(** [None] for -1, or the result of [fstat] with the bytes it stores. *)
Definition stat (n : list Z) : prog (Z * list Z) :=
  let* fd := ask (SysOpen n 0) in
  if fd <? 0 then Ret (-1, [])
  else Call (SysFstat fd) (fun r st => ask (SysClose fd) ;* Ret (r, st)).

(** ** _start.c *)

Definition _start (main : list (list Z) -> list (list Z) -> prog Z) (argv envp : list (list Z)) : prog unit :=
  let* r := main argv envp in Exit.

(** ** Running a program *)

Inductive result (W A : Type) := Value (a : A) (w : W) | Exited (w : W) | Crashed (why : string) | Spun.
Arguments Value {W A}.
Arguments Exited {W A}.
Arguments Crashed {W A}.
Arguments Spun {W A}.

Section Run.
Context {W : Type} (kernel : W -> call -> Z * list Z * W).

Fixpoint run {A} (p : prog A) (w : W) : result W A :=
  match p with
  | Ret a => Value a w
  | Call c k => let '(r, d, w') := kernel w c in run (k r d) w'
  | Exit => Exited w
  | Crash why => Crashed why
  | Spin => Spun
  end.

Lemma run_bind {A B} (p : prog A) (f : A -> prog B) w :
  run (pbind p f) w = match run p w with Value a w' => run (f a) w' | Exited w' => Exited w' | Crashed y => Crashed y | Spun => Spun end.
Proof.
  revert w. induction p as [a|c k IH| | |]; intros w; cbn; [done| |done..]. destruct (kernel w c) as [[r d] w']. apply IH.
Qed.

Lemma run_value {A B} (p : prog A) (f : A -> prog B) w a w' : run p w = Value a w' -> run (pbind p f) w = run (f a) w'.
Proof. intros E. by rewrite run_bind, E. Qed.

(** What a program may rely on when it writes: the kernel takes the bytes written to
    [fd], in their order, as [emit] does. *)
Class Writes (fd : Z) (emit : list Z -> W -> W) : Prop := {
  writes_call w d : exists r, kernel w (SysWrite fd d) = (r, [], emit d w);
  writes_app a b w : emit b (emit a w) = emit (a ++ b) w;
  writes_nil w : emit [] w = w }.

Context (fd : Z) (emit : list Z -> W -> W) `{!Writes fd emit}.

Lemma run_putc c w : run (putc fd c) w = Value tt (emit [u8 c] w).
Proof. cbn. by destruct (writes_call w [u8 c]) as [r ->]. Qed.

Lemma run_put_all l w : run (put_all fd l) w = Value tt (emit (u8 <$> l) w).
Proof.
  revert w. induction l as [|c l IH]; intros w; cbn [put_all fmap list_fmap]; [by rewrite writes_nil|].
  rewrite (run_value _ _ _ _ _ (run_putc c w)), IH, writes_app. done.
Qed.

End Run.

(** The text of a format. *)
Fixpoint format (fmt : list Z) (pct : bool) (ap : list arg) : option (list Z) :=
  match fmt with
  | [] => Some []
  | c :: fmt' =>
      if negb pct then if c =? 37 then format fmt' true ap else cons (u8 c) <$> format fmt' false ap
      else if c =? 100 then match ap with AInt x :: ap' => app (decimal (s32 x)) <$> format fmt' false ap' | _ => None end
      else if (c =? 120) || (c =? 112) then
        match ap with AInt x :: ap' => app (hexadecimal (u32 x)) <$> format fmt' false ap' | _ => None end
      else if c =? 115 then match ap with AStr s :: ap' => app (u8 <$> default null_text s) <$> format fmt' false ap' | _ => None end
      else if c =? 99 then match ap with AInt x :: ap' => cons (u8 x) <$> format fmt' false ap' | _ => None end
      else if c =? 37 then cons 37 <$> format fmt' false ap
      else (fun l => 37 :: u8 c :: l) <$> format fmt' false ap
  end.

(** ** What printf writes *)

Section Printf.
Context {W : Type} (kernel : W -> call -> Z * list Z * W) (fd : Z) (emit : list Z -> W -> W) `{!Writes kernel fd emit}.

Lemma run_printint x base sgn w : 10 <= base <= 16 -> run kernel (printint fd (s32 x) base sgn) w = Value tt (emit (int_text digits (s32 x) base sgn) w).
Proof.
  intros Hb. unfold printint, int_text. set (neg := sgn && _). set (y := if neg then _ else _).
  destruct (magnitude_ok digits (or_introl eq_refl) base y Hb) as (l & -> & _ & _ & L & F & _); [unfold y; destruct neg; apply u32_range|]. cbn [default]. unfold id.
  assert (U : forall l, Forall (fun c => 48 <= c < 103) l -> u8 <$> rev l = rev l).
  { intros l' F'. rewrite <- (list_fmap_id (rev l')) at 2. apply list_fmap_ext. intros i c Hc. unfold u8. apply Z.mod_small.
    assert (c ∈ l') by (rewrite list_elem_of_In; apply in_rev; rewrite <- list_elem_of_In; by eapply list_elem_of_lookup_2).
    rewrite Forall_forall in F'. specialize (F' c ltac:(done)). cbn in F'. change (2 ^ 8) with 256. unfold id. lia. }
  destruct neg.
  - rewrite (proj2 (Nat.ltb_lt _ _)) by lia. rewrite (run_put_all kernel fd emit). rewrite rev_unit. cbn [fmap list_fmap app].
    by rewrite U.
  - rewrite (run_put_all kernel fd emit). by rewrite U.
Qed.

Lemma run_printf_loop fmt : forall pct ap t w, format fmt pct ap = Some t -> run kernel (printf_loop fd fmt pct ap) w = Value tt (emit t w).
Proof.
  induction fmt as [|c fmt IH]; intros pct ap t w; cbn [format printf_loop]; [intros [= <-]; by rewrite (writes_nil kernel (fd:=fd))|].
  assert (One : forall c ap t, format fmt false ap = Some t ->
    run kernel (putc fd c ;* printf_loop fd fmt false ap) w = Value tt (emit (u8 c :: t) w)).
  { intros c' ap' t' E. rewrite (run_value _ _ _ _ _ _ (run_putc kernel fd emit c' w)), (IH _ _ _ _ E), (writes_app kernel (fd:=fd)). done. }
  assert (Int : forall x base sgn ap l t, 10 <= base <= 16 -> int_text digits (s32 x) base sgn = l -> format fmt false ap = Some t ->
    run kernel (printint fd (s32 x) base sgn ;* printf_loop fd fmt false ap) w = Value tt (emit (l ++ t) w)).
  { intros x base sgn ap' l t' Hb <- E. rewrite (run_value _ _ _ _ _ _ (run_printint x base sgn w Hb)), (IH _ _ _ _ E), (writes_app kernel (fd:=fd)). done. }
  assert (Num : forall x, int_text digits (s32 x) 10 true = decimal (s32 x) /\ int_text digits (s32 x) 16 false = hexadecimal (u32 x)).
  { intros x. destruct (int_text_numeral (s32 x) (s32_range x)) as [E1 E2]. autorewrite with width in E2. done. }
  destruct pct; cbn [negb].
  2:{ destruct (c =? 37); [apply IH|]. destruct (format fmt false ap) as [t'|] eqn:E; [|done]. intros [= <-]. by apply One. }
  destruct (c =? 100); [destruct ap as [|[x|] ap]; [done| |done]; destruct (format fmt false ap) as [t'|] eqn:E; [|done]; intros [= <-]; apply Int; [lia|apply Num|done]|].
  destruct ((c =? 120) || (c =? 112)); [destruct ap as [|[x|] ap]; [done| |done]; destruct (format fmt false ap) as [t'|] eqn:E; [|done]; intros [= <-]; apply Int; [lia|apply Num|done]|].
  destruct (c =? 115).
  { destruct ap as [|[|s] ap]; [done..|]. destruct (format fmt false ap) as [t'|] eqn:E; [|done]. intros [= <-].
    rewrite (run_value _ _ _ _ _ _ (run_put_all kernel fd emit _ w)), (IH _ _ _ _ E), (writes_app kernel (fd:=fd)). done. }
  destruct (c =? 99); [destruct ap as [|[x|] ap]; [done| |done]; destruct (format fmt false ap) as [t'|] eqn:E; [|done]; intros [= <-]; by apply One|].
  destruct (Z.eqb_spec c 37) as [->|]; destruct (format fmt false ap) as [t'|] eqn:E; try done; intros [= <-]; [by apply One|].
  rewrite (run_value _ _ _ _ _ _ (run_putc kernel fd emit 37 w)). rewrite (run_value _ _ _ _ _ _ (run_putc kernel fd emit c _)).
  rewrite (IH _ _ _ _ E), !(writes_app kernel (fd:=fd)). done.
Qed.

Lemma run_printf fmt ap t w : format fmt false ap = Some t -> run kernel (printf fd fmt ap) w = Value tt (emit t w).
Proof. apply run_printf_loop. Qed.

End Printf.

(** C35: [printf] writes its format's text.  On every kernel that takes what is written
    to a descriptor in order, [printf] with arguments that fit the format ends and has
    written the format's bytes with each conversion replaced in turn by its argument,
    and nothing else: [%d] by the decimal numeral of the argument as an [int], with a
    minus sign in front if it is negative, [%x] and [%p] by the hexadecimal numeral, with
    capital letters, of the argument as an [unsigned].  The numerals have the value of
    the argument and no zeros in front, for every word. *)
Theorem printf_text {W} (kernel : W -> call -> Z * list Z * W) fd emit fmt ap t w : Writes kernel fd emit -> format fmt false ap = Some t ->
  run kernel (printf fd fmt ap) w = Value tt (emit t w) /\
  forall x, format [37; 100] false [AInt x] = Some (decimal (s32 x)) /\ format [37; 120] false [AInt x] = Some (hexadecimal (u32 x)) /\
    int_value 10 (decimal (s32 x)) = s32 x /\ canonical (if s32 x <? 0 then tail (decimal (s32 x)) else decimal (s32 x)) /\
    numeral 16 (hexadecimal (u32 x)) = u32 x /\ canonical (hexadecimal (u32 x)).
Proof.
  intros Hw Hf. split; [by apply run_printf|]. intros x. split; [|split; [|]].
  { change (Some (decimal (s32 x) ++ []) = Some (decimal (s32 x))). by rewrite app_nil_r. }
  { change (Some (hexadecimal (u32 x) ++ []) = Some (hexadecimal (u32 x))). by rewrite app_nil_r. }
  pose proof (s32_range x) as Hs. destruct (int_text_decimal digits_upper (or_introl eq_refl) (s32 x) Hs) as [V _].
  rewrite (proj1 (int_text_numeral _ Hs)) in V. split; [done|]. split.
  2:{ destruct (numeral_ok 16 (u32 x) ltac:(lia) (u32_range x)) as (N & C & _). exact (conj N C). }
  unfold decimal. destruct (Z.ltb_spec (s32 x) 0); apply (numeral_ok 10); lia.
Qed.

(** A kernel that only keeps what is written. *)
Definition keeper (w : list (Z * list Z)) (c : call) : Z * list Z * list (Z * list Z) :=
  match c with SysWrite fd d => (Z.of_nat (length d), [], w ++ ((fun x => (fd, [x])) <$> d)) | _ => (-1, [], w) end.

#[export] Instance keeper_writes fd : Writes keeper fd (fun d w => w ++ ((fun x => (fd, [x])) <$> d)).
Proof.
  split; intros.
  - by eexists.
  - by rewrite fmap_app, app_assoc.
  - by rewrite app_nil_r.
Qed.

Lemma printf_text_witness : exists w, run keeper (printf 1 (line "%d %x") [AInt (-120); AInt 255]) [] = Value tt w /\
  (concat (snd <$> w) = text "-120 FF" ++ [10]).
Proof.
  eexists. split; [apply (proj1 (printf_text keeper 1 _ (line "%d %x") [AInt (-120); AInt 255] _ [] (keeper_writes 1) eq_refl))|].
  vm_compute. reflexivity.
Defined.

End User.
