(* ===== verification/Sh.v ===== *)
(** * The shell (apps/sh.c)

    The parser, on the bytes of the command line: commands are nodes of a heap, as
    the code allocates them, since [parseexec] keeps filling in a node that
    [parseredirs] has already put below others.  Pointers into the line are
    positions in it.  [runcmd] is the tree of the system calls it makes.

    Memory allocation is taken to succeed, as the code takes it. *)

From Stdlib Require Import List.
From S2P Require Import Prelude Digits User.

Import Digits User.

Module Sh.

Definition MAXARGS : nat := 10.
Definition O_RDONLY : Z := 0.
Definition O_WRONLY : Z := 1.
Definition O_CREATE : Z := 512.

(** [struct execcmd], [redircmd], [pipecmd], [listcmd] and [backcmd]. *)
Inductive node :=
  | EXEC (argv eargv : list (option nat))
  | REDIR (cmd : nat) (file efile : nat) (mode fd : Z)
  | PIPE (left right : nat)
  | LIST (left right : nat)
  | BACK (cmd : nat).

Record sst := Sst { buf : list Z; heap : list node }.

(** [*s] *)
Definition rd (k : nat) : M sst Z := fun s =>
  match buf s !! k with Some c => Done c s | None => Wild "read outside the line" end.

Definition alloc (n : node) : M sst nat := fun s => Done (length (heap s)) (Sst (buf s) (heap s ++ [n])).

(** The constructors. *)
Definition execcmd : M sst nat := alloc (EXEC (replicate MAXARGS None) (replicate MAXARGS None)).
Definition redircmd (cmd file efile : nat) (mode fd : Z) : M sst nat := alloc (REDIR cmd file efile mode fd).
Definition pipecmd (l r : nat) : M sst nat := alloc (PIPE l r).
Definition listcmd (l r : nat) : M sst nat := alloc (LIST l r).
Definition backcmd (c : nat) : M sst nat := alloc (BACK c).

(** [strchr(set, c)] as a condition: the NUL of the set is found too. *)
Definition strchr (set : list Z) (c : Z) : bool := existsb (Z.eqb c) (set ++ [0]).
Definition whitespace : list Z := [32; 9; 13; 10; 11].
Definition symbols : list Z := [60; 124; 62; 38; 59; 40; 41].

(** [while (s < es && strchr(whitespace, *s)) s++], with [n = es - s]. *)
Fixpoint skip_space (n s : nat) : M sst nat :=
  match n with
  | O => ret s
  | S n' => let! c := rd s in if strchr whitespace c then skip_space n' (S s) else ret s
  end.

(** [while (s < es && !strchr(whitespace, *s) && !strchr(symbols, *s)) s++] *)
Fixpoint skip_word (n s : nat) : M sst nat :=
  match n with
  | O => ret s
  | S n' =>
      let! c := rd s in
      if negb (strchr whitespace c) && negb (strchr symbols c) then skip_word n' (S s) else ret s
  end.

(** The token, [*q], [*eq] and [*ps]. *)
Record token := Token { tok : Z; tok_q : nat; tok_eq : nat; tok_ps : nat }.

(** The [switch] of [gettoken]: the token and where it ends. *)
Definition token_end (c : Z) (s es : nat) : M sst (Z * nat) :=
  if c =? 0 then ret (c, s)
  else if existsb (Z.eqb c) [124; 40; 41; 59; 38; 60] then ret (c, S s)
  else if c =? 62 then
    let! c2 := rd (S s) in
    if c2 =? 62 then ret (43, S (S s)) else ret (c, S s)
  else let! s := skip_word (es - s) s in ret (97, s).

Definition gettoken (ps es : nat) : M sst token :=
  let! s := skip_space (es - ps) ps in
  let q := s in
  let! c := rd s in
  let! r := token_end c s es in
  let! s := skip_space (es - r.2) r.2 in
  ret (Token r.1 q r.2 s).

(** The result and [*ps]. *)
Definition peek (ps es : nat) (toks : list Z) : M sst (bool * nat) :=
  let! s := skip_space (es - ps) ps in
  let! c := rd s in
  ret (negb (c =? 0) && strchr toks c, s).

(** [n] bounds the number of redirections by that of the bytes left. *)
Fixpoint parseredirs (n : nat) (cmd ps es : nat) : M sst (nat * nat) :=
  let! p := peek ps es [60; 62] in
  if negb p.1 then ret (cmd, p.2)
  else
    match n with
    | O => nofuel
    | S n' =>
        let! t := gettoken p.2 es in
        let! f := gettoken (tok_ps t) es in
        if negb (tok f =? 97) then panic "missing file for redirection"
        else
          let! cmd :=
            if tok t =? 60 then redircmd cmd (tok_q f) (tok_eq f) O_RDONLY 0
            else if tok t =? 62 then redircmd cmd (tok_q f) (tok_eq f) (Z.lor O_WRONLY O_CREATE) 1
            else if tok t =? 43 then redircmd cmd (tok_q f) (tok_eq f) (Z.lor O_WRONLY O_CREATE) 1
            else ret cmd in
          parseredirs n' cmd (tok_ps f) es
    end.

(** [cmd->argv[argc] = q; cmd->eargv[argc] = eq] *)
Definition set_arg (cmd argc : nat) (q eq : option nat) : M sst unit := fun s =>
  match heap s !! cmd with
  | Some (EXEC a e) =>
      if (argc <? MAXARGS)%nat then Done tt (Sst (buf s) (<[cmd := EXEC (<[argc := q]> a) (<[argc := eq]> e)]> (heap s)))
      else Wild "argv"
  | _ => Wild "not an execcmd"
  end.

(** [while (!peek(ps, es, ``|)&;''))]: [ret], the number of arguments and [*ps]. *)
Fixpoint parseargs (n : nat) (cmd ret_ argc ps es : nat) : M sst (nat * nat * nat) :=
  let! p := peek ps es [124; 41; 38; 59] in
  if p.1 then ret (ret_, argc, p.2)
  else
    let! t := gettoken p.2 es in
    if tok t =? 0 then ret (ret_, argc, tok_ps t)
    else if negb (tok t =? 97) then panic "syntax"
    else
      set_arg cmd argc (Some (tok_q t)) (Some (tok_eq t)) ;!
      let argc := S argc in
      if (MAXARGS <=? argc)%nat then panic "too many args"
      else
        match n with
        | O => nofuel
        | S n' => let! r := parseredirs (es - tok_ps t) ret_ (tok_ps t) es in parseargs n' cmd r.1 argc r.2 es
        end.

(** [while (peek(ps, es, ``&''))] *)
Fixpoint parseback (n : nat) (cmd ps es : nat) : M sst (nat * nat) :=
  let! p := peek ps es [38] in
  if negb p.1 then ret (cmd, p.2)
  else
    match n with
    | O => nofuel
    | S n' => let! t := gettoken p.2 es in let! c := backcmd cmd in parseback n' c (tok_ps t) es
    end.

(** The functions that call each other. *)
Inductive func := FLine | FPipe | FExec | FBlock.

(** Each of them, given what [call] does for the calls it makes; it returns the command
    and [*ps]. *)
Definition parseline (call : func -> nat -> nat -> M sst (nat * nat)) (ps es : nat) : M sst (nat * nat) :=
  let! c := call FPipe ps es in
  let! c := parseback (es - c.2) c.1 c.2 es in
  let! p := peek c.2 es [59] in
  if p.1 then
    let! t := gettoken p.2 es in
    let! r := call FLine (tok_ps t) es in
    let! k := listcmd c.1 r.1 in
    ret (k, r.2)
  else ret (c.1, p.2).

Definition parsepipe (call : func -> nat -> nat -> M sst (nat * nat)) (ps es : nat) : M sst (nat * nat) :=
  let! c := call FExec ps es in
  let! p := peek c.2 es [124] in
  if p.1 then
    let! t := gettoken p.2 es in
    let! r := call FPipe (tok_ps t) es in
    let! k := pipecmd c.1 r.1 in
    ret (k, r.2)
  else ret (c.1, p.2).

Definition parseexec (call : func -> nat -> nat -> M sst (nat * nat)) (ps es : nat) : M sst (nat * nat) :=
  let! p := peek ps es [40] in
  if p.1 then call FBlock p.2 es
  else
    let! cmd := execcmd in
    let! r := parseredirs (es - p.2) cmd p.2 es in
    let! a := parseargs (es - r.2) cmd r.1 0 r.2 es in
    set_arg cmd a.1.2 None None ;!
    ret (a.1.1, a.2).

Definition parseblock (call : func -> nat -> nat -> M sst (nat * nat)) (ps es : nat) : M sst (nat * nat) :=
  let! p := peek ps es [40] in
  if negb p.1 then panic "parseblock"
  else
    let! t := gettoken p.2 es in
    let! c := call FLine (tok_ps t) es in
    let! p := peek c.2 es [41] in
    if negb p.1 then panic "syntax - missing )"
    else
      let! t := gettoken p.2 es in
      parseredirs (es - tok_ps t) c.1 (tok_ps t) es.

(** A call of one of them, at most [fuel] calls deep. *)
Fixpoint parse_call (fuel : nat) (k : func) (ps es : nat) : M sst (nat * nat) :=
  match fuel with
  | O => nofuel
  | S f =>
      match k with
      | FLine => parseline (parse_call f) ps es
      | FPipe => parsepipe (parse_call f) ps es
      | FExec => parseexec (parse_call f) ps es
      | FBlock => parseblock (parse_call f) ps es
      end
  end.

(** [*p = 0] *)
Definition cut (p : nat) : M sst unit := fun s =>
  if (p <? length (buf s))%nat then Done tt (Sst (<[p := 0]> (buf s)) (heap s)) else Wild "write outside the line".

Definition get_node (c : nat) : M sst node := fun s =>
  match heap s !! c with Some n => Done n s | None => Wild "command pointer" end.

(** [for (i = 0; ecmd->argv[i]; i++) *ecmd->eargv[i] = 0]; the entry behind the
    last argument is null. *)
Fixpoint cut_args (a e : list (option nat)) : M sst unit :=
  match a, e with
  | Some _ :: a', Some q :: e' => cut q ;! cut_args a' e'
  | None :: _, _ => ret tt
  | _, _ => wild "argv"
  end.

(** [fuel] is more than the length of a path down from the command. *)
Fixpoint nulterminate (fuel c : nat) : M sst unit :=
  match fuel with
  | O => nofuel
  | S f =>
      let! n := get_node c in
      match n with
      | EXEC a e => cut_args a e
      | REDIR c _ e _ _ => nulterminate f c ;! cut e
      | PIPE l r | LIST l r => nulterminate f l ;! nulterminate f r
      | BACK c => nulterminate f c
      end
  end.

(** The bytes in front of the first NUL. *)
Fixpoint strlen (l : list Z) : option nat :=
  match l with [] => None | c :: l' => if c =? 0 then Some O else S <$> strlen l' end.

Definition parsecmd : M sst nat := fun s =>
  match strlen (buf s) with
  | None => Wild "no NUL in the line"
  | Some es =>
      (let! c := parse_call (4 * es + 4) FLine 0 es in
       let! p := peek c.2 es [] in
       if negb (p.2 =? es)%nat then panic "syntax"
       else nulterminate (S c.1) c.1 ;! ret c.1) s
  end.

(** ** Running a command *)

(** [panic] of the shell. *)
Definition sh_panic {A} (m : string) : prog A := printf 2 (line "%s") [AStr (Some (text m))] ;* Exit.

Definition fork1 : prog Z := let* pid := ask SysFork in if pid =? -1 then sh_panic "fork" else Ret pid.

(** The string at a position of the line. *)
Definition cstring (b : list Z) (q : nat) : option (list Z) := n ← strlen (drop q b); Some (take n (drop q b)).

(** The strings of [argv], up to its null pointer. *)
Fixpoint argv_strings (b : list Z) (a : list (option nat)) : option (list (list Z)) :=
  match a with
  | Some q :: a' => w ← cstring b q; ws ← argv_strings b a'; Some (w :: ws)
  | None :: _ => Some []
  | [] => None
  end.

(** The EXEC case; [path] has room for 517 bytes and gets at most 512 of a string. *)
Definition run_exec (args : list (list Z)) : prog unit :=
  match args with
  | [] => Exit
  | w :: _ =>
      if (512 <=? length w)%nat then Crash "path without NUL"
      else
        let* r := ask (SysOpen w O_RDONLY) in
        let fd := if r <? 0 then 1 else 0 in
        let* path :=
          if negb (fd =? 0) then Ret (text "/bin/" ++ w)
          else ask (SysClose fd) ;* Ret w in
        ask (SysExec path args) ;*
        printf 2 (line "exec %s failed") [AStr (Some path)] ;*
        Exit
  end.

(** [fuel] is more than the length of a path down from the command.  A call of
    [runcmd] does not return. *)
Fixpoint runcmd (fuel : nat) (s : sst) (c : nat) : prog unit :=
  match fuel with
  | O => Spin
  | S f =>
      match heap s !! c with
      | None => Crash "command pointer"
      | Some (EXEC a _) => match argv_strings (buf s) a with Some args => run_exec args | None => Crash "argv" end
      | Some (REDIR c file _ mode fd) =>
          match cstring (buf s) file with
          | None => Crash "file"
          | Some w =>
              ask (SysClose fd) ;*
              let* r := ask (SysOpen w mode) in
              if r <? 0 then printf 2 (line "open %s failed") [AStr (Some w)] ;* Exit
              else runcmd f s c
          end
      | Some (LIST l r) =>
          let* pid := fork1 in
          if pid =? 0 then runcmd f s l
          else ask SysWait ;* runcmd f s r
      | Some (PIPE l r) =>
          Call SysPipe (fun r0 p =>
            if r0 <? 0 then sh_panic "pipe"
            else
              let* pid := fork1 in
              if pid =? 0 then
                ask (SysClose 1) ;* ask (SysDup (p !!! 1%nat)) ;* ask (SysClose (p !!! 0%nat)) ;* ask (SysClose (p !!! 1%nat)) ;* runcmd f s l
              else
                let* pid := fork1 in
                if pid =? 0 then
                  ask (SysClose 0) ;* ask (SysDup (p !!! 0%nat)) ;* ask (SysClose (p !!! 0%nat)) ;* ask (SysClose (p !!! 1%nat)) ;* runcmd f s r
                else
                  ask (SysClose (p !!! 0%nat)) ;* ask (SysClose (p !!! 1%nat)) ;*
                  ask SysWait ;* ask SysWait ;* Exit)
      | Some (BACK c) =>
          let* pid := fork1 in
          if pid =? 0 then runcmd f s c else Exit
      end
  end.

(** The buffer, or [None] at the end of the input. *)
Definition getcmd (nbuf : nat) : prog (option (list Z)) :=
  printf 2 (text "$ ") [] ;*
  let* buf := gets (replicate nbuf 0) nbuf in
  Ret (if buf !!! 0%nat =? 0 then None else Some buf).

(** [while ((fd = open(``/dev/console'', O_RDWR)) >= 0)], at most [n] times. *)
Fixpoint open_console (n : nat) : prog unit :=
  match n with
  | O => Spin
  | S n' =>
      let* fd := ask (SysOpen (text "/dev/console") 2) in
      if fd <? 0 then Ret tt
      else if 3 <=? fd then ask (SysClose fd) ;* Ret tt
      else open_console n'
  end.

(** [n] rounds of the loop over the commands.  The text that [parsecmd] prints in
    front of a panic over what it has not read is left out. *)
Fixpoint main_loop (n : nat) : prog unit :=
  match n with
  | O => Spin
  | S n' =>
      let* b := getcmd 100 in
      match b with
      | None => Exit
      | Some buf =>
          if (buf !!! 0%nat =? 99) && (buf !!! 1%nat =? 100) && (buf !!! 2%nat =? 32) then
            match strlen buf with
            | None => Crash "no NUL in the line"
            | Some len =>
                let buf := <[(len - 1)%nat := 0]> buf in
                match cstring buf 3 with
                | None => Crash "no NUL in the line"
                | Some dir =>
                    let* r := ask (SysChdir dir) in
                    (if r <? 0 then printf 2 (line "cannot cd %s") [AStr (Some dir)] else Ret tt) ;*
                    main_loop n'
                end
            end
          else
            let* pid := fork1 in
            if pid =? 0 then
              match parsecmd (Sst buf []) with
              | Done c s => runcmd (S c) s c
              | Panic m => sh_panic m
              | _ => Crash "parsecmd"
              end
            else ask SysWait ;* main_loop n'
      end
  end.

Definition main (n : nat) : prog unit := open_console 4 ;* main_loop n.

End Sh.
