(* ===== verification/ShOk.v ===== *)
(** * What the shell's parser accepts

    A grammar over tokens as the reference, the simulation of the recursive
    functions of apps/sh.c by it, and a printer.  [parsecmd] never leaves the line,
    always ends, and builds the command the grammar gives, its strings ended in
    place; every well-formed command is read back from its printed text. *)

From Stdlib Require Import List.
From S2P Require Import Prelude Sh.

Import Sh.

Module ShOk.

(** ** A reference: commands, tokens and a grammar *)

Inductive cmd :=
  | CExec (args : list (list Z))
  | CRedir (c : cmd) (file : list Z) (mode fd : Z)
  | CPipe (l r : cmd)
  | CList (l r : cmd)
  | CBack (c : cmd).

(** A word, or a symbol by the number [gettoken] returns for it. *)
Inductive tk := TW (w : list Z) | TS (c : Z).

Definition is_space (c : Z) : bool := existsb (Z.eqb c) whitespace.
Definition is_symbol (c : Z) : bool := existsb (Z.eqb c) symbols.
Definition is_word (c : Z) : bool := negb (c =? 0) && negb (is_space c) && negb (is_symbol c).

Arguments is_space : simpl never.
Arguments is_symbol : simpl never.
Arguments is_word : simpl never.
Arguments strchr : simpl never.

Fixpoint trim (l : list Z) : list Z := match l with c :: l' => if is_space c then trim l' else l | [] => [] end.
Fixpoint word_of (l : list Z) : list Z := match l with c :: l' => if is_word c then c :: word_of l' else [] | [] => [] end.

(** The first token of a text without leading space, and what follows it. *)
Definition lex1 (c : Z) (l : list Z) : tk * list Z :=
  if c =? 62 then match l with 62 :: l' => (TS 43, l') | _ => (TS 62, l) end
  else if is_symbol c then (TS c, l)
  else (TW (word_of (c :: l)), drop (length (word_of (c :: l))) (c :: l)).

Fixpoint lexn (n : nat) (l : list Z) : list tk :=
  match n with
  | O => []
  | S n' => match trim l with [] => [] | c :: l' => let '(t, r) := lex1 c l' in t :: lexn n' r end
  end.

(** The tokens of a text. *)
Definition lex (l : list Z) : list tk := lexn (length l) l.

(** A redirection: file, mode and descriptor. *)
Definition redir : Type := list Z * Z * Z.
Definition redir_to (k : Z) (w : list Z) : redir := if k =? 60 then (w, O_RDONLY, 0) else (w, Z.lor O_WRONLY O_CREATE, 1).
Definition is_redir (k : Z) : bool := existsb (Z.eqb k) [60; 62; 43].

Fixpoint wrap (c : cmd) (rs : list redir) : cmd :=
  match rs with [] => c | (w, m, d) :: rs' => wrap (CRedir c w m d) rs' end.

Fixpoint gredirs (ts : list tk) : option (list redir * list tk) :=
  match ts with
  | TS k :: ts' =>
      if is_redir k then
        match ts' with
        | TW w :: ts'' => '(rs, r) ← gredirs ts''; Some (redir_to k w :: rs, r)
        | _ => None
        end
      else Some ([], ts)
  | _ => Some ([], ts)
  end.

(** The arguments from number [argc] on, with the redirections between them. *)
Fixpoint gargs (n argc : nat) (ts : list tk) : option (list (list Z) * list redir * list tk) :=
  match ts with
  | [] => Some ([], [], [])
  | TS k :: _ => if existsb (Z.eqb k) [124; 41; 38; 59] then Some ([], [], ts) else None
  | TW w :: ts' =>
      if (MAXARGS <=? S argc)%nat then None
      else
        match n with
        | O => None
        | S n' =>
            '(rs, r) ← gredirs ts';
            '(ws, rs', r') ← gargs n' (S argc) r;
            Some (w :: ws, rs ++ rs', r')
        end
  end.

Fixpoint gback (n : nat) (c : cmd) (ts : list tk) : cmd * list tk :=
  match n, ts with
  | S n', TS k :: ts' => if k =? 38 then gback n' (CBack c) ts' else (c, ts)
  | _, _ => (c, ts)
  end.

Definition gsimple (ts : list tk) : option (cmd * list tk) :=
  '(rs, r) ← gredirs ts;
  '(ws, rs', r) ← gargs (length r) 0 r;
  Some (wrap (CExec ws) (rs ++ rs'), r).

(** A line is pipes in the background or not, separated by semicolons; a pipe is
    commands separated by bars; a command is words and redirections, or a line in
    parentheses with redirections behind it. *)
Fixpoint gline (n : nat) (ts : list tk) : option (cmd * list tk) :=
  match n with
  | O => None
  | S n' =>
      '(c, r) ← gpipe n' ts;
      let '(c, r) := gback (length r) c r in
      match r with
      | TS k :: r' => if k =? 59 then '(d, r) ← gline n' r'; Some (CList c d, r) else Some (c, r)
      | _ => Some (c, r)
      end
  end
with gpipe (n : nat) (ts : list tk) : option (cmd * list tk) :=
  match n with
  | O => None
  | S n' =>
      '(c, r) ← gexec n' ts;
      match r with
      | TS k :: r' => if k =? 124 then '(d, r) ← gpipe n' r'; Some (CPipe c d, r) else Some (c, r)
      | _ => Some (c, r)
      end
  end
with gexec (n : nat) (ts : list tk) : option (cmd * list tk) :=
  match n with
  | O => None
  | S n' => match ts with TS k :: ts' => if k =? 40 then gblock n' ts' else gsimple ts | _ => gsimple ts end
  end
with gblock (n : nat) (ts : list tk) : option (cmd * list tk) :=
  match n with
  | O => None
  | S n' =>
      '(c, r) ← gline n' ts;
      match r with
      | TS k :: r' => if k =? 41 then '(rs, r) ← gredirs r'; Some (wrap c rs, r) else None
      | _ => None
      end
  end.

(** The command of a text, if it is one. *)
Definition parse (l : list Z) : option cmd :=
  match gline (4 * length l + 4) (lex l) with Some (c, []) => Some c | _ => None end.

(** ** Scanning *)

Lemma trim_length l : (length (trim l) <= length l)%nat.
Proof. induction l as [|c l IH]; cbn; [lia|]. destruct (is_space c); cbn; lia. Qed.

Lemma trim_head l c r : trim l = c :: r -> is_space c = false.
Proof. induction l as [|d l IH]; cbn; [done|]. destruct (is_space d) eqn:E; [done|]. by intros [= -> _]. Qed.

Lemma trim_trim l : trim (trim l) = trim l.
Proof. destruct (trim l) as [|c r] eqn:E; [done|]. cbn. by rewrite (trim_head _ _ _ E). Qed.

Lemma trim_keep (P : Z -> Prop) l : Forall P l -> Forall P (trim l).
Proof. induction 1 as [|c l Hc Hl IH]; cbn; [done|]. destruct (is_space c); [done|by constructor]. Qed.

Lemma word_of_length l : (length (word_of l) <= length l)%nat.
Proof. induction l as [|c l IH]; cbn; [lia|]. destruct (is_word c); cbn; lia. Qed.

(** A token takes at least one byte. *)
Lemma lex1_length c l : is_space c = false -> c <> 0 -> (length (lex1 c l).2 <= length l)%nat.
Proof.
  intros Hs Hz. unfold lex1. destruct (Z.eqb_spec c 62) as [->|N].
  - destruct l as [|d l]; [done|]. destruct (decide (d = 62)) as [->|]; cbn; [lia|].
    repeat (case_match; cbn; try lia).
  - destruct (is_symbol c) eqn:E; cbn [snd]; [lia|]. cbn [word_of]. unfold is_word. rewrite Hs, E.
    rewrite (proj2 (Z.eqb_neq _ _) Hz). cbn [negb andb length drop]. rewrite length_drop. lia.
Qed.

Lemma lex1_keep (P : Z -> Prop) c l : Forall P (c :: l) -> Forall P (lex1 c l).2.
Proof.
  intros H. unfold lex1. destruct (c =? 62).
  - inversion H as [|? ? ? H']; subst. destruct l as [|d l]; [done|]. assert (Forall P l) by (by inversion H').
    repeat (case_match; cbn; try done).
  - destruct (is_symbol c); cbn [snd]; [by inversion H|]. by apply Forall_drop.
Qed.

Lemma lexn_enough n m l : Forall (fun c => c <> 0) l -> (length l <= n)%nat -> (length l <= m)%nat -> lexn n l = lexn m l.
Proof.
  revert m l. induction n as [|n IH]; intros m l Hz Hn Hm.
  { destruct l; [|cbn in Hn; lia]. by destruct m. }
  destruct m as [|m]; [destruct l; [done|cbn in Hm; lia]|]. cbn [lexn].
  pose proof (trim_length l). pose proof (trim_keep _ _ Hz) as Hz'. destruct (trim l) as [|c r] eqn:E; [done|].
  destruct (lex1 c r) as [t r'] eqn:E1. f_equal. pose proof (lex1_length c r (trim_head _ _ _ E)) as L.
  pose proof (lex1_keep _ _ _ Hz') as K. rewrite E1 in L, K. cbn in *. apply IH; [done|..].
  all: assert (c <> 0) by (by inversion Hz'); specialize (L ltac:(done)); lia.
Qed.

Lemma lex_trim l : Forall (fun c => c <> 0) l ->
  lex l = match trim l with [] => [] | c :: r => (lex1 c r).1 :: lex (lex1 c r).2 end.
Proof.
  intros Hz. unfold lex at 1. pose proof (trim_length l) as L. pose proof (trim_keep _ _ Hz) as Hz'.
  destruct l as [|d l]; [done|]. cbn [length lexn]. destruct (trim (d :: l)) as [|c r] eqn:E; [done|].
  destruct (lex1 c r) as [t r'] eqn:E1. f_equal. pose proof (lex1_length c r (trim_head _ _ _ E)) as L1.
  pose proof (lex1_keep _ _ _ Hz') as K. rewrite E1 in L1, K. cbn in *.
  assert (c <> 0) by (by inversion Hz'). specialize (L1 ltac:(done)). apply lexn_enough; [done|lia|lia].
Qed.

Lemma lex_of_trim l : Forall (fun c => c <> 0) l -> lex (trim l) = lex l.
Proof. intros Hz. rewrite !lex_trim, trim_trim by (done || by apply trim_keep). done. Qed.

(** ** The line *)

Section Line.
Context (b : list Z) (es : nat) (Hline : strlen b = Some es).

(** What is left of the line at a position. *)
Definition text (p : nat) : list Z := take (es - p) (drop p b).

Lemma strlen_line : forall (l : list Z) (n : nat), strlen l = Some n -> l !! n = Some 0 /\ Forall (fun c => c <> 0) (take n l).
Proof.
  induction l as [|c l IH]; intros n; cbn; [done|]. destruct (Z.eqb_spec c 0) as [->|N]; [intros [= <-]; by split|].
  destruct (strlen l) as [m|]; [|done]. intros [= <-]. destruct (IH m eq_refl). split; [done|by constructor].
Qed.

Lemma text_cons p : (p < es)%nat -> exists c, b !! p = Some c /\ c <> 0 /\ text p = c :: text (S p).
Proof.
  intros Hp. destruct (strlen_line _ _ Hline) as [H0 Hf]. pose proof (lookup_lt_Some _ _ _ H0) as Hl.
  destruct (lookup_lt_is_Some_2 b p ltac:(lia)) as [c Hc]. exists c. split; [done|]. split.
  - apply (Forall_lookup_1 _ _ p c Hf). by rewrite lookup_take_lt.
  - unfold text. rewrite (drop_S _ _ _ Hc). replace (es - p)%nat with (S (es - S p)) by lia. done.
Qed.

Lemma text_end : text es = [].
Proof. unfold text. by rewrite Nat.sub_diag. Qed.

Lemma text_length p : (p <= es)%nat -> length (text p) = (es - p)%nat.
Proof.
  intros Hp. destruct (strlen_line _ _ Hline) as [H0 _]. pose proof (lookup_lt_Some _ _ _ H0).
  unfold text. rewrite length_take, length_drop. lia.
Qed.

Lemma text_nz p : (p <= es)%nat -> Forall (fun c => c <> 0) (text p).
Proof.
  intros Hp. remember (es - p)%nat as n eqn:En. revert p Hp En. induction n as [|n IH]; intros p Hp En.
  - replace p with es by lia. by rewrite text_end.
  - destruct (text_cons p) as (c & _ & Hc & ->); [lia|]. constructor; [done|]. apply IH; lia.
Qed.

Lemma text_drop p n : (p + n <= es)%nat -> drop n (text p) = text (p + n).
Proof.
  intros Hn. unfold text. rewrite skipn_firstn_comm, drop_drop. f_equal. lia.
Qed.

Lemma rd_text p h : (p <= es)%nat -> rd p (Sst b h) = Done (match text p with c :: _ => c | [] => 0 end) (Sst b h).
Proof.
  intros Hp. unfold rd. cbn. destruct (decide (p = es)) as [->|].
  - rewrite (proj1 (strlen_line _ _ Hline)), text_end. done.
  - destruct (text_cons p) as (c & -> & _ & ->); [lia|done].
Qed.

Lemma strchr_nz set c : c <> 0 -> strchr set c = existsb (Z.eqb c) set.
Proof. intros N. unfold strchr. rewrite existsb_app. cbn. rewrite (proj2 (Z.eqb_neq _ _) N). by rewrite !orb_false_r. Qed.

Lemma skip_space_ok p h : (p <= es)%nat -> exists p', skip_space (es - p) p (Sst b h) = Done p' (Sst b h) /\
  (p <= p' <= es)%nat /\ text p' = trim (text p).
Proof.
  remember (es - p)%nat as n eqn:En. revert p En. induction n as [|n IH]; intros p En Hp; cbn [skip_space].
  - exists p. replace p with es by lia. rewrite text_end. split; [done|]. split; [lia|done].
  - rewrite (bind_Done _ _ _ _ _ (rd_text p h Hp)). destruct (text_cons p) as (c & _ & Hc & E); [lia|]. rewrite E. cbn [trim].
    rewrite strchr_nz by done. fold (is_space c). destruct (is_space c).
    + destruct (IH (S p)) as (p' & E' & Hp' & Et); [lia..|]. exists p'. split; [done|]. split; [lia|done].
    + exists p. by rewrite E.
Qed.

Lemma skip_word_ok p h : (p <= es)%nat ->
  skip_word (es - p) p (Sst b h) = Done (p + length (word_of (text p)))%nat (Sst b h).
Proof.
  remember (es - p)%nat as n eqn:En. revert p En. induction n as [|n IH]; intros p En Hp; cbn [skip_word].
  - replace p with es by lia. rewrite text_end. by rewrite Nat.add_0_r.
  - rewrite (bind_Done _ _ _ _ _ (rd_text p h Hp)). destruct (text_cons p) as (c & _ & Hc & E); [lia|]. rewrite E. cbn [word_of].
    rewrite !strchr_nz by done. fold (is_space c) (is_symbol c).
    assert (Ew : is_word c = negb (is_space c) && negb (is_symbol c)) by (unfold is_word; by rewrite (proj2 (Z.eqb_neq _ _) Hc)).
    rewrite Ew. destruct (negb (is_space c) && negb (is_symbol c)).
    + rewrite IH by lia. f_equal. cbn. lia.
    + by rewrite Nat.add_0_r.
Qed.

(** The span [q, e) is a word of the line: as many word characters as there are. *)
Definition span (q e : nat) (w : list Z) : Prop :=
  (q < e <= es)%nat /\ e = (q + length w)%nat /\ w = word_of (text q).

(** The numbers of the symbols. *)
Definition codes : list Z := [60; 124; 62; 38; 59; 40; 41; 43].
Definition code (t : tk) : Z := match t with TW _ => 97 | TS k => k end.
Definition tk_ok (t : tk) : Prop := match t with TW w => w <> [] | TS k => k ∈ codes end.

Lemma symbol_codes c : is_symbol c = true -> c ∈ codes /\ c <> 43.
Proof.
  unfold is_symbol. intros (x & Hx & ->%Z.eqb_eq)%existsb_exists. unfold symbols, codes in *.
  repeat (destruct Hx as [<-|Hx]; [split; [|done]; apply (bool_decide_unpack _); done|]). done.
Qed.

Lemma text_first p c l : (p <= es)%nat -> text p = c :: l -> (p < es)%nat /\ c <> 0 /\ l = text (S p).
Proof.
  intros Hp E. destruct (decide (p = es)) as [->|]; [by rewrite text_end in E|].
  destruct (text_cons p) as (d & _ & Hd & E'); [lia|]. rewrite E' in E. injection E as <- <-. split; [lia|done].
Qed.

Lemma lex1_greater l : lex1 62 l = match l with d :: l' => if d =? 62 then (TS 43, l') else (TS 62, l) | [] => (TS 62, []) end.
Proof.
  unfold lex1. cbn. destruct l as [|d l]; [done|]. destruct (Z.eqb_spec d 62) as [->|]; [done|]. repeat (case_match; try done).
Qed.

Lemma token_end_ok q c l h : text q = c :: l -> (q < es)%nat -> c <> 0 -> is_space c = false ->
  exists e, token_end c q es (Sst b h) = Done (code (lex1 c l).1, e) (Sst b h) /\ (q < e <= es)%nat /\ text e = (lex1 c l).2 /\
    tk_ok (lex1 c l).1 /\ forall w, (lex1 c l).1 = TW w -> span q e w.
Proof.
  intros Ex Hq Hc Hs. destruct (text_first q c l ltac:(lia) Ex) as (_ & _ & El). unfold token_end.
  rewrite (proj2 (Z.eqb_neq _ _) Hc). destruct (Z.eqb_spec c 62) as [->|N62].
  - change (existsb (Z.eqb 62) [124; 40; 41; 59; 38; 60]) with false. cbn iota.
    rewrite (bind_Done _ _ _ _ _ (rd_text (S q) h ltac:(lia))). rewrite lex1_greater, <- El.
    destruct l as [|d l'] eqn:Ed; [|destruct (text_first (S q) d l' ltac:(lia) (eq_sym El)) as (Hq' & _ & El'); destruct (Z.eqb_spec d 62)].
    + exists (S q). do 2 (split; [done || lia|]). split; [done|]. split; [by apply (bool_decide_unpack _)|done].
    + exists (S (S q)). split; [done|]. split; [lia|]. split; [done|]. split; [by apply (bool_decide_unpack _)|done].
    + exists (S q). split; [done|]. split; [lia|]. split; [done|]. split; [by apply (bool_decide_unpack _)|done].
  - unfold lex1. rewrite (proj2 (Z.eqb_neq _ _) N62).
    assert (E6 : existsb (Z.eqb c) [124; 40; 41; 59; 38; 60] = is_symbol c).
    { unfold is_symbol, symbols. cbn. apply (Z.eqb_neq c 62) in N62. rewrite N62. 
      destruct (c =? 124), (c =? 40), (c =? 41), (c =? 59), (c =? 38), (c =? 60); done. }
    rewrite E6. destruct (is_symbol c) eqn:Sy; cbn [fst snd code].
    + exists (S q). split; [done|]. split; [lia|]. split; [done|]. split; [apply (symbol_codes c Sy)|done].
    + rewrite (bind_Done _ _ _ _ _ (skip_word_ok q h ltac:(lia))). rewrite <- Ex.
      assert (Lw : (0 < length (word_of (text q)) <= es - q)%nat).
      { pose proof (word_of_length (text q)). rewrite (text_length q) in * by lia. split; [|done]. rewrite Ex. cbn [word_of].
        unfold is_word. rewrite Hs, Sy, (proj2 (Z.eqb_neq _ _) Hc). cbn. lia. }
      exists (q + length (word_of (text q)))%nat. split; [done|]. split; [lia|]. split; [by rewrite text_drop by lia|]. split.
      * cbn. intros E. rewrite E in Lw. cbn in Lw. lia.
      * intros w [= <-]. split; [lia|done].
Qed.

Lemma gettoken_ok p h : (p <= es)%nat ->
  match lex (text p) with
  | [] => gettoken p es (Sst b h) = Done (Token 0 es es es) (Sst b h)
  | t :: ts => exists q e p', gettoken p es (Sst b h) = Done (Token (code t) q e p') (Sst b h) /\
      (p < p' <= es)%nat /\ lex (text p') = ts /\ tk_ok t /\ forall w, t = TW w -> span q e w
  end.
Proof.
  intros Hp. rewrite lex_trim by (by apply text_nz). destruct (skip_space_ok p h Hp) as (q & Eq & Hq & Et). rewrite <- Et.
  unfold gettoken. rewrite (bind_Done _ _ _ _ _ Eq), (bind_Done _ _ _ _ _ (rd_text q h ltac:(lia))).
  destruct (text q) as [|c l] eqn:Ex.
  { assert (q = es) as ->. { pose proof (text_length q ltac:(lia)) as L. rewrite Ex in L. cbn in L. lia. }
    cbn. unfold bind, ret. rewrite Nat.sub_diag. done. }
  destruct (text_first q c l ltac:(lia) Ex) as (Hlt & Hc & El). pose proof (trim_head _ _ _ (eq_sym Et)) as Hs.
  destruct (token_end_ok q c l h Ex Hlt Hc Hs) as (e & Ee & He & Er & Ok & Sp). rewrite (bind_Done _ _ _ _ _ Ee). cbn [fst snd].
  destruct (skip_space_ok e h ltac:(lia)) as (p' & E' & Hp' & Et'). exists q, e, p'. rewrite (bind_Done _ _ _ _ _ E').
  split; [done|]. split; [lia|]. split; [|done]. rewrite Et', lex_of_trim, Er by (apply text_nz; lia). done.
Qed.

(** Whether the next token starts with one of some symbols. *)
Definition at_head (toks : list Z) (ts : list tk) : bool :=
  match ts with TS k :: _ => existsb (Z.eqb (if k =? 43 then 62 else k)) toks | _ => false end.

Lemma head_symbol toks c l : Forall (fun x => is_symbol x = true) toks -> c <> 0 -> is_space c = false ->
  strchr toks c = at_head toks [(lex1 c l).1].
Proof.
  intros Ft Hc Hs. rewrite strchr_nz by done. destruct (Z.eqb_spec c 62) as [->|N62].
  - rewrite lex1_greater. destruct l as [|d l]; [done|]. by destruct (d =? 62).
  - unfold lex1. rewrite (proj2 (Z.eqb_neq _ _) N62). destruct (is_symbol c) eqn:E; cbn [fst at_head].
    + destruct (symbol_codes c E) as [_ N43]. by rewrite (proj2 (Z.eqb_neq _ _) N43).
    + destruct (existsb (Z.eqb c) toks) eqn:X; [|done]. apply existsb_exists in X as (x & Hx & ->%Z.eqb_eq).
      rewrite Forall_forall in Ft. rewrite (Ft x) in E; [done|]. by apply list_elem_of_In.
Qed.

Lemma peek_ok p h toks : (p <= es)%nat -> Forall (fun x => is_symbol x = true) toks ->
  exists p', peek p es toks (Sst b h) = Done (at_head toks (lex (text p)), p') (Sst b h) /\ (p <= p' <= es)%nat /\
    lex (text p') = lex (text p).
Proof.
  intros Hp Ft. destruct (skip_space_ok p h Hp) as (p' & E & Hp' & Et). exists p'. unfold peek.
  rewrite (bind_Done _ _ _ _ _ E), (bind_Done _ _ _ _ _ (rd_text p' h ltac:(lia))). split; [|split; [done|]].
  - unfold ret. do 2 f_equal. rewrite (lex_trim (text p)) by (by apply text_nz). rewrite <- Et. destruct (text p') as [|c l] eqn:Ex; [done|].
    destruct (text_first p' c l ltac:(lia) Ex) as (_ & Hc & _). rewrite (proj2 (Z.eqb_neq _ _) Hc). cbn [negb andb].
    by rewrite (head_symbol toks c l Ft Hc (trim_head _ _ _ (eq_sym Et))).
  - rewrite Et. apply lex_of_trim. by apply text_nz.
Qed.

End Line.

(** ** Commands in the heap *)

(** [W q e w]: the span [q, e) stands for the word [w]. *)
Section Rep.
Context (W : nat -> nat -> list Z -> Prop).

(** The two arrays of an execcmd: the spans of the arguments, then null. *)
Definition args (a e : list (option nat)) (ws : list (list Z)) : Prop :=
  exists sp : list (nat * nat), Forall2 (fun x w => W x.1 x.2 w) sp ws /\ (length sp < MAXARGS)%nat /\
    a = ((fun x => Some x.1) <$> sp) ++ replicate (MAXARGS - length sp) None /\
    e = ((fun x => Some x.2) <$> sp) ++ replicate (MAXARGS - length sp) None.

(** Node [k] of the heap is the root of a command; its parts are older nodes. *)
Fixpoint rep (h : list node) (k : nat) (c : cmd) : Prop :=
  match c with
  | CExec ws => exists a e, h !! k = Some (EXEC a e) /\ args a e ws
  | CRedir c w m d => exists k' q e, h !! k = Some (REDIR k' q e m d) /\ W q e w /\ (k' < k)%nat /\ rep h k' c
  | CPipe l r => exists i j, h !! k = Some (PIPE i j) /\ (i < k)%nat /\ (j < k)%nat /\ rep h i l /\ rep h j r
  | CList l r => exists i j, h !! k = Some (LIST i j) /\ (i < k)%nat /\ (j < k)%nat /\ rep h i l /\ rep h j r
  | CBack c => exists i, h !! k = Some (BACK i) /\ (i < k)%nat /\ rep h i c
  end.

(** Node [k] is node [c] with redirections around it. *)
Fixpoint chain (h : list node) (c : nat) (rs : list redir) (k : nat) : Prop :=
  match rs with
  | [] => k = c
  | (w, m, d) :: rs' => exists k' q e, h !! k' = Some (REDIR c q e m d) /\ W q e w /\ (c < k')%nat /\ chain h k' rs' k
  end.

Lemma rep_wrap h rs : forall c k cm, rep h c cm -> chain h c rs k -> rep h k (wrap cm rs).
Proof.
  induction rs as [|[[w m] d] rs IH]; intros c k cm R C; [by rewrite C|]. destruct C as (k' & q & e & Hk & Hw & Hc & C).
  apply (IH k'); [|done]. exists c, q, e. done.
Qed.

Lemma chain_join h rs rs' : forall c j k, chain h c rs j -> chain h j rs' k -> chain h c (rs ++ rs') k.
Proof.
  induction rs as [|[[w m] d] rs IH]; intros c j k C C'; [by rewrite <- C|]. destruct C as (k' & q & e & Hk & Hw & Hc & C).
  exists k', q, e. eauto.
Qed.

(** What holds of the nodes there are holds when there are more. *)
Definition keeps (h h' : list node) : Prop := forall k n, h !! k = Some n -> h' !! k = Some n.

Lemma keeps_refl h : keeps h h.
Proof. by intros k n. Qed.
Lemma keeps_trans h h' h'' : keeps h h' -> keeps h' h'' -> keeps h h''.
Proof. intros K K' k n Hk. by apply K', K. Qed.
Lemma keeps_app h l : keeps h (h ++ l).
Proof. intros k n. apply lookup_app_l_Some. Qed.

Lemma rep_keeps h h' k c : keeps h h' -> rep h k c -> rep h' k c.
Proof.
  intros K. revert k. induction c as [ws|c IH w m d|l IHl r IHr|l IHl r IHr|c IH]; intros k; cbn.
  - intros (a & e & Hk & Ha). exists a, e. auto.
  - intros (k' & q & e & Hk & Hw & Hl & R). exists k', q, e. auto.
  - intros (i & j & Hk & Hi & Hj & Rl & Rr). exists i, j. split_and!; auto.
  - intros (i & j & Hk & Hi & Hj & Rl & Rr). exists i, j. split_and!; auto.
  - intros (i & Hk & Hi & R). exists i. auto.
Qed.

Lemma chain_keeps h h' rs : keeps h h' -> forall c k, chain h c rs k -> chain h' c rs k.
Proof.
  intros K. induction rs as [|[[w m] d] rs IH]; intros c k; cbn; [done|]. intros (k' & q & e & Hk & Hw & Hl & C).
  exists k', q, e. auto.
Qed.

(** A store to an execcmd leaves the redirections around it. *)
Lemma chain_store h rs x a e n : h !! x = Some (EXEC a e) -> forall c k, chain h c rs k -> chain (<[x := n]> h) c rs k.
Proof.
  intros Hx. induction rs as [|[[w m] d] rs IH]; intros c k; cbn; [done|]. intros (k' & q & f & Hk & Hw & Hl & C).
  exists k', q, f. split; [|auto]. rewrite list_lookup_insert_ne; [done|]. intros ->. congruence.
Qed.

End Rep.

(** ** The parser does what the grammar says *)

Section Parser.
Context (b : list Z) (es : nat) (Hline : strlen b = Some es).
Local Notation text := (text b es).
Local Notation span := (span b es).
Local Notation toks p := (lex (text p)).

(** A result of the parser against one of the grammar. *)
Definition sim (g : option (cmd * list tk)) (o : outcome sst (nat * nat)) (p : nat) (h : list node) : Prop :=
  match g with
  | Some (c, ts) => exists k p' h', o = Done (k, p') (Sst b h') /\ keeps h h' /\ rep span h' k c /\ (p <= p' <= es)%nat /\ toks p' = ts
  | None => exists m, o = Panic m
  end.

Lemma rep_lt h k c : rep span h k c -> (k < length h)%nat.
Proof.
  destruct c; cbn; [intros (? & ? & Hk & _)|intros (? & ? & ? & Hk & _)|intros (? & ? & Hk & _)|intros (? & ? & Hk & _)|intros (? & Hk & _)];
    by eapply lookup_lt_Some.
Qed.

Lemma new_node h n : keeps h (h ++ [n]) /\ (h ++ [n]) !! length h = Some n.
Proof. split; [apply keeps_app|]. by rewrite lookup_app_r, Nat.sub_diag by lia. Qed.

Lemma is_redir_code k : k ∈ codes -> is_redir k = at_head [60; 62] [TS k].
Proof. intros Hk. unfold codes in Hk. repeat (apply elem_of_cons in Hk as [->|Hk]; [done|]). by apply elem_of_nil in Hk. Qed.

Lemma redirs_stop ts : at_head [60; 62] ts = false -> Forall tk_ok ts -> gredirs ts = Some ([], ts).
Proof.
  destruct ts as [|[w|k] ts]; [done..|]. intros Hk F. inversion F as [|? ? Ok]; subst. cbn [gredirs].
  rewrite (is_redir_code k Ok). change (at_head [60; 62] [TS k] = false) in Hk. by rewrite Hk.
Qed.

Lemma lex_ok p : (p <= es)%nat -> Forall tk_ok (toks p).
Proof.
  remember (es - p)%nat as n eqn:En. revert p En. induction n as [n IH] using lt_wf_ind. intros p -> Hp.
  pose proof (gettoken_ok b es Hline p [] Hp) as G. destruct (toks p) as [|t ts] eqn:E; [done|].
  destruct G as (q & e & p' & _ & Hp' & <- & Ok & _). constructor; [done|]. apply (IH (es - p')%nat); lia.
Qed.

Lemma lex_short p : (p <= es)%nat -> (length (toks p) <= es - p)%nat.
Proof.
  remember (es - p)%nat as n eqn:En. revert p En. induction n as [n IH] using lt_wf_ind. intros p -> Hp.
  pose proof (gettoken_ok b es Hline p [] Hp) as G. destruct (toks p) as [|t ts] eqn:E; [cbn; lia|].
  destruct G as (q & e & p' & _ & Hp' & <- & _). cbn. pose proof (IH (es - p')%nat ltac:(lia) p' eq_refl ltac:(lia)). lia.
Qed.

Lemma parseredirs_ok n : forall k p h, (p <= es)%nat -> (es - p <= n)%nat -> (k < length h)%nat ->
  match gredirs (toks p) with
  | Some (rs, ts) => exists k' p' h', parseredirs n k p es (Sst b h) = Done (k', p') (Sst b h') /\ keeps h h' /\
      chain span h' k rs k' /\ (p <= p' <= es)%nat /\ toks p' = ts
  | None => exists m, parseredirs n k p es (Sst b h) = Panic m
  end.
Proof.
  induction n as [n IH] using lt_wf_ind. intros k p h Hp Hn Hk.
  destruct (peek_ok b es Hline p h [60; 62] Hp ltac:(by repeat constructor)) as (p1 & E1 & Hp1 & T1).
  assert (Hd : parseredirs n k p es (Sst b h) = (if negb (at_head [60; 62] (toks p)) then ret (k, p1) else
    match n with O => nofuel | S n' => let! t := gettoken p1 es in let! f := gettoken (tok_ps t) es in
      if negb (tok f =? 97) then panic "missing file for redirection"
      else let! cmd := if tok t =? 60 then redircmd k (tok_q f) (tok_eq f) O_RDONLY 0
            else if tok t =? 62 then redircmd k (tok_q f) (tok_eq f) (Z.lor O_WRONLY O_CREATE) 1
            else if tok t =? 43 then redircmd k (tok_q f) (tok_eq f) (Z.lor O_WRONLY O_CREATE) 1
            else ret k in parseredirs n' cmd (tok_ps f) es end) (Sst b h)).
  { destruct n; cbn [parseredirs]; by rewrite (bind_Done _ _ _ _ _ E1). }
  rewrite Hd. clear Hd. pose proof (lex_ok p Hp) as Fok.
  destruct (at_head [60; 62] (toks p)) eqn:Hh; cbn [negb].
  2:{ rewrite (redirs_stop _ Hh Fok). exists k, p1, h. split; [done|]. split; [apply keeps_refl|]. split; [done|]. split; [done|done]. }
  pose proof (gettoken_ok b es Hline p1 h ltac:(lia)) as G. rewrite T1 in G.
  destruct (toks p) as [|[w|c] ts] eqn:Et; [done..|]. destruct G as (q & e & p2 & E2 & Hp2 & T2 & Ok & _).
  destruct n as [|n]; [lia|]. rewrite (bind_Done _ _ _ _ _ E2). cbn [tok tok_ps code]. cbn [gredirs].
  rewrite (is_redir_code c Ok). change (at_head [60; 62] [TS c] = true) in Hh. rewrite Hh.
  pose proof (gettoken_ok b es Hline p2 h ltac:(lia)) as G. rewrite T2 in G. destruct ts as [|t ts].
  { rewrite (bind_Done _ _ _ _ _ G). eexists. reflexivity. }
  destruct G as (q3 & e3 & p3 & E3 & Hp3 & T3 & Ok3 & Sp). rewrite (bind_Done _ _ _ _ _ E3). cbn [tok tok_ps tok_q tok_eq].
  destruct t as [w|c3]; cbn [code].
  2:{ assert (c3 <> 97) by (intros ->; by apply (bool_decide_unpack _) in Ok3 || (cbn in Ok3; set_solver)).
      rewrite (proj2 (Z.eqb_neq _ _)) by done. eexists. reflexivity. }
  cbn [negb Z.eqb Pos.eqb]. specialize (Sp w eq_refl).
  set (r := redir_to c w). set (nd := REDIR k q3 e3 r.1.2 r.2).
  assert (Er : (if c =? 60 then redircmd k q3 e3 O_RDONLY 0
     else if c =? 62 then redircmd k q3 e3 (Z.lor O_WRONLY O_CREATE) 1
     else if c =? 43 then redircmd k q3 e3 (Z.lor O_WRONLY O_CREATE) 1 else ret k) (Sst b h) = Done (length h) (Sst b (h ++ [nd]))).
  { unfold nd, r, redir_to, at_head in *. unfold codes in Ok.
    repeat (apply elem_of_cons in Ok as [->|Ok]; [first [reflexivity|discriminate Hh]|]). by apply elem_of_nil in Ok. }
  rewrite (bind_Done _ _ _ _ _ Er). destruct (new_node h nd) as [Kn Ln].
  specialize (IH n ltac:(lia) (length h) p3 (h ++ [nd]) ltac:(lia) ltac:(lia) ltac:(rewrite length_app; cbn; lia)).
  rewrite T3 in IH. destruct (gredirs ts) as [[rs ts']|]; [|exact IH]. cbn [mbind option_bind].
  destruct IH as (k' & p' & h' & E & K & C & Hp' & T). exists k', p', h'. split; [exact E|].
  split; [by eapply keeps_trans|]. split; [|split; [lia|done]]. fold r. destruct r as [[w' m] d] eqn:Ew. cbn [chain].
  assert (w' = w) as -> by (unfold r, redir_to in Ew; destruct (c =? 60); congruence).
  exists (length h), q3, e3. split; [by apply K|]. split; [done|]. split; [lia|done].
Qed.

Lemma gargs_word m argc w ts : (MAXARGS <= S argc -> gargs m argc (TW w :: ts) = None)%nat /\
  ((S argc < MAXARGS)%nat -> forall k, m = S k -> gargs m argc (TW w :: ts) =
    ('(rs, r) ← gredirs ts; '(ws, rs', r') ← gargs k (S argc) r; Some (w :: ws, rs ++ rs', r'))).
Proof.
  split.
  - intros Hl. destruct m; cbn [gargs]; by rewrite (proj2 (Nat.leb_le _ _)) by lia.
  - intros Hl k ->. cbn [gargs]. by rewrite (proj2 (Nat.leb_gt _ _)) by lia.
Qed.

Lemma chain_lt h rs : forall c k, chain span h c rs k -> (c < length h)%nat -> (k < length h)%nat.
Proof.
  induction rs as [|[[w m] d] rs IH]; intros c k; cbn; [by intros ->|]. intros (k' & q & e & Hk & _ & _ & C) _.
  apply (IH k'); [done|]. by eapply lookup_lt_Some.
Qed.

Lemma gredirs_rest : forall ts rs ts', gredirs ts = Some (rs, ts') -> (length ts' <= length ts)%nat.
Proof.
  fix IH 1. intros ts rs ts'. destruct ts as [|[w|k] ts]; cbn [gredirs]; [by intros [= <- <-]|by intros [= <- <-]|].
  intros E. destruct (is_redir k) eqn:Er; [|by injection E as <- <-].
  destruct ts as [|[w|] ts]; [done| |done]. destruct (gredirs ts) as [[rs' r]|] eqn:Eg; [|done]. injection E as <- <-.
  pose proof (IH ts rs' r Eg). cbn. lia.
Qed.

(** One more argument in the arrays. *)
Lemma args_snoc a e ws q f w : args span a e ws -> span q f w -> (S (length ws) < MAXARGS)%nat ->
  args span (<[length ws := Some q]> a) (<[length ws := Some f]> e) (ws ++ [w]).
Proof.
  intros (sp & F & L & -> & ->) Sp Hl. pose proof (Forall2_length _ _ _ F) as El. exists (sp ++ [(q, f)]).
  rewrite length_app. cbn [length]. split; [apply Forall2_app; [done|by constructor]|]. split; [lia|].
  assert (R : replicate (MAXARGS - length sp) (@None nat) = None :: replicate (MAXARGS - (length sp + 1)) None).
  { replace (MAXARGS - length sp)%nat with (S (MAXARGS - (length sp + 1))) by lia. done. }
  rewrite R, !fmap_app. cbn [fmap list_fmap]. rewrite <- El, !insert_app_r_alt by (rewrite length_fmap; lia).
  rewrite !length_fmap, Nat.sub_diag. cbn. by rewrite <- !app_assoc.
Qed.

Lemma args_done a e ws : args span a e ws -> <[length ws := None]> a = a /\ <[length ws := None]> e = e.
Proof.
  intros (sp & F & L & -> & ->). pose proof (Forall2_length _ _ _ F) as El.
  assert (K : forall (g : nat * nat -> option nat), ((g <$> sp) ++ replicate (MAXARGS - length sp) None) !! length ws = Some None).
  { intros g. rewrite lookup_app_r by (rewrite length_fmap; lia). apply lookup_replicate. rewrite length_fmap. split; [done|lia]. }
  split; apply list_insert_id; apply K.
Qed.

(** Old nodes other than the execcmd that is being filled in are kept. *)
Definition keeps_but (x : nat) (h h' : list node) : Prop := forall k n, k <> x -> h !! k = Some n -> h' !! k = Some n.

Lemma parseargs_ok n : forall x r p h a e ws rs m, (p <= es)%nat -> (es - p <= n)%nat -> (length (toks p) <= m)%nat ->
  h !! x = Some (EXEC a e) -> args span a e ws -> chain span h x rs r ->
  match gargs m (length ws) (toks p) with
  | Some (ws', rs', ts) => exists r' p' h' a' e', parseargs n x r (length ws) p es (Sst b h) =
        Done (r', length (ws ++ ws'), p') (Sst b h') /\
      keeps_but x h h' /\ h' !! x = Some (EXEC a' e') /\ args span a' e' (ws ++ ws') /\ chain span h' x (rs ++ rs') r' /\
      (p <= p' <= es)%nat /\ toks p' = ts
  | None => exists m', parseargs n x r (length ws) p es (Sst b h) = Panic m'
  end.
Proof.
  induction n as [n IH] using lt_wf_ind. intros x r p h a e ws rs m Hp Hn Hm Hx Ha Hc.
  destruct (peek_ok b es Hline p h [124; 41; 38; 59] Hp ltac:(by repeat constructor)) as (p1 & E1 & Hp1 & T1).
  pose proof (gettoken_ok b es Hline p1 h ltac:(lia)) as G. rewrite T1 in G. pose proof (lex_ok p Hp) as Fok.
  assert (Stop : forall p' ts, parseargs n x r (length ws) p es (Sst b h) = Done (r, length ws, p') (Sst b h) ->
    (p <= p' <= es)%nat -> toks p' = ts -> exists r' p' h' a' e', parseargs n x r (length ws) p es (Sst b h) =
        Done (r', length (ws ++ []), p') (Sst b h') /\
      keeps_but x h h' /\ h' !! x = Some (EXEC a' e') /\ args span a' e' (ws ++ []) /\ chain span h' x (rs ++ []) r' /\
      (p <= p' <= es)%nat /\ toks p' = ts).
  { intros p' ts E Hp' T. exists r, p', h, a, e. rewrite !app_nil_r. split; [done|]. split; [by intros ? ? ?|]. done. }
  destruct (toks p) as [|[w|c] ts] eqn:Et.
  - replace (gargs m (length ws) []) with (Some (@nil (list Z), @nil redir, @nil tk)) by (by destruct m).
    apply (Stop es); [|lia|by rewrite text_end]. destruct n; cbn [parseargs]; rewrite (bind_Done _ _ _ _ _ E1); cbn [fst snd at_head];
      by rewrite (bind_Done _ _ _ _ _ G).
  - destruct G as (q & f & p2 & E2 & Hp2 & T2 & _ & Sp). specialize (Sp w eq_refl).
    assert (Es : forall n, parseargs n x r (length ws) p es (Sst b h) =
      (set_arg x (length ws) (Some q) (Some f) ;!
       if (MAXARGS <=? S (length ws))%nat then panic "too many args"
       else match n with O => nofuel | S n' =>
         let! r := parseredirs (es - p2) r p2 es in parseargs n' x r.1 (S (length ws)) r.2 es end) (Sst b h)).
    { intros k. destruct k; cbn [parseargs]; rewrite (bind_Done _ _ _ _ _ E1); cbn [fst snd at_head];
        by rewrite (bind_Done _ _ _ _ _ E2). }
    rewrite Es. destruct Ha as (sp & F & L & Ea & Ee). pose proof (Forall2_length _ _ _ F) as El.
    assert (Esa : set_arg x (length ws) (Some q) (Some f) (Sst b h) =
      Done tt (Sst b (<[x := EXEC (<[length ws := Some q]> a) (<[length ws := Some f]> e)]> h))).
    { unfold set_arg. cbn [heap]. rewrite Hx. by rewrite (proj2 (Nat.ltb_lt _ _)) by lia. }
    rewrite (bind_Done _ _ _ _ _ Esa). destruct (gargs_word m (length ws) w ts) as [Gn Gs].
    destruct (Nat.leb_spec MAXARGS (S (length ws))) as [Hbig|Hsm]; [rewrite Gn by lia; by eexists|].
    cbn [length] in Hm. destruct m as [|m]; [lia|]. rewrite (Gs ltac:(lia) m eq_refl). destruct n as [|n]; [lia|].
    set (h1 := <[x := _]> h). assert (Hx1 : h1 !! x = Some (EXEC (<[length ws := Some q]> a) (<[length ws := Some f]> e)))
      by (apply list_lookup_insert_eq; by eapply lookup_lt_Some).
    assert (C1 : chain span h1 x rs r) by (by eapply chain_store).
    assert (Hr : (r < length h1)%nat) by (by eapply chain_lt; [..|eapply lookup_lt_Some]).
    pose proof (parseredirs_ok (es - p2) r p2 h1 ltac:(lia) ltac:(lia) Hr) as Pr. rewrite T2 in Pr.
    destruct (gredirs ts) as [[rs1 ts1]|] eqn:Eg; [|destruct Pr as (m' & Em); exists m'; cbn [mbind option_bind]; by apply bind_Panic].
    destruct Pr as (r1 & p3 & h2 & E3 & K3 & C3 & Hp3 & T3). rewrite (bind_Done _ _ _ _ _ E3). cbn [fst snd mbind option_bind].
    assert (A2 : args span (<[length ws := Some q]> a) (<[length ws := Some f]> e) (ws ++ [w])).
    { apply args_snoc; [exists sp; done|done|lia]. }
    pose proof (IH n ltac:(lia) x r1 p3 h2 (<[length ws := Some q]> a) (<[length ws := Some f]> e) (ws ++ [w]) (rs ++ rs1) m ltac:(lia) ltac:(lia)) as I.
    rewrite T3, length_app, Nat.add_1_r in I.
    pose proof (gredirs_rest ts rs1 ts1 Eg) as Hts.
    specialize (I ltac:(lia) (K3 _ _ Hx1) A2). specialize (I (chain_join _ _ _ _ _ _ _ (chain_keeps _ _ _ _ K3 _ _ C1) C3)).
    destruct (gargs m (S (length ws)) ts1) as [[[ws' rs'] ts']|]; [|exact I]. cbn [mbind option_bind].
    destruct I as (r' & p' & h' & a' & e' & E & K & Hx' & A' & C' & Hp' & T). exists r', p', h', a', e'.
    rewrite <- app_assoc in E, A'. rewrite <- app_assoc in C'. split; [exact E|]. split; [|split; [done|split; [done|split; [done|split; [lia|done]]]]].
    intros k nd Nk Hk. apply K; [done|]. apply K3. unfold h1. by rewrite list_lookup_insert_ne.
  - destruct G as (q & f & p2 & E2 & Hp2 & T2 & Ok & _).
    assert (Es : parseargs n x r (length ws) p es (Sst b h) =
      (if at_head [124; 41; 38; 59] (TS c :: ts) then ret (r, length ws, p1) else
       if c =? 0 then ret (r, length ws, p2) else if negb (c =? 97) then panic "syntax" else nofuel) (Sst b h) \/ c = 97).
    { destruct (decide (c = 97)) as [|N97]; [by right|left]. destruct n; cbn [parseargs]; rewrite (bind_Done _ _ _ _ _ E1); cbn [fst snd];
        (destruct (at_head [124; 41; 38; 59] (TS c :: ts)); cbn iota; [done|]); rewrite (bind_Done _ _ _ _ _ E2); cbn [tok tok_ps code];
        (destruct (c =? 0); cbn iota; [done|]); rewrite (proj2 (Z.eqb_neq _ _)) by done; done. }
    replace (gargs m (length ws) (TS c :: ts)) with
      (if existsb (Z.eqb c) [124; 41; 38; 59] then Some (@nil (list Z), @nil redir, TS c :: ts) else None) by (by destruct m).
    assert (Hcc : c <> 97 /\ c <> 0 /\ at_head [124; 41; 38; 59] (TS c :: ts) = existsb (Z.eqb c) [124; 41; 38; 59]).
    { cbn in Ok. unfold codes in Ok. repeat (apply elem_of_cons in Ok as [->|Ok]; [done|]). by apply elem_of_nil in Ok. }
    destruct Hcc as (N97 & N0 & Eh). destruct Es as [Es|]; [|done]. rewrite Eh, (proj2 (Z.eqb_neq _ _) N0), (proj2 (Z.eqb_neq _ _) N97) in Es.
    destruct (existsb _ _); [apply (Stop p1); done|]. rewrite Es. by eexists.
Qed.

(** The next token is a given symbol. *)
Lemma head_is k ts : k ∈ [124; 41; 38; 59; 40] -> Forall tk_ok ts -> at_head [k] ts = true -> exists ts', ts = TS k :: ts'.
Proof.
  destruct ts as [|[w|c] ts]; [done..|]. intros Hk F H. inversion F as [|? ? Ok _]; subst. exists ts. unfold codes in Ok. cbn in Ok, H.
  repeat (apply elem_of_cons in Hk as [->|Hk]; [repeat (apply elem_of_cons in Ok as [->|Ok]; [done|]); by apply elem_of_nil in Ok|]).
  by apply elem_of_nil in Hk.
Qed.

(** The one symbol the parser looks for, and reads if it is there. *)
Lemma symbol_ok k p h : (p <= es)%nat -> k ∈ [124; 41; 38; 59; 40] ->
  exists p1, peek p es [k] (Sst b h) = Done (at_head [k] (toks p), p1) (Sst b h) /\ (p <= p1 <= es)%nat /\ toks p1 = toks p /\
    (at_head [k] (toks p) = true -> exists ts t, toks p = TS k :: ts /\ gettoken p1 es (Sst b h) = Done t (Sst b h) /\
      (p < tok_ps t <= es)%nat /\ toks (tok_ps t) = ts).
Proof.
  intros Hp Hk. assert (Fs : Forall (fun x => is_symbol x = true) [k]).
  { constructor; [|done]. repeat (apply elem_of_cons in Hk as [->|Hk]; [done|]). by apply elem_of_nil in Hk. }
  destruct (peek_ok b es Hline p h [k] Hp Fs) as (p1 & E1 & Hp1 & T1). exists p1. do 3 (split; [done|]). intros H.
  destruct (head_is k (toks p) Hk (lex_ok p Hp) H) as [ts Et]. pose proof (gettoken_ok b es Hline p1 h ltac:(lia)) as G.
  rewrite T1, Et in G. destruct G as (q & e & p2 & E2 & Hp2 & T2 & _). exists ts, (Token (code (TS k)) q e p2). cbn [tok_ps].
  split; [done|]. split; [done|]. split; [lia|done].
Qed.

Lemma parseback_ok n : forall k c p h m, (p <= es)%nat -> (es - p <= n)%nat -> (length (toks p) <= m)%nat -> rep span h k c ->
  exists k' p' h', parseback n k p es (Sst b h) = Done (k', p') (Sst b h') /\ keeps h h' /\
    rep span h' k' (gback m c (toks p)).1 /\ (p <= p' <= es)%nat /\ toks p' = (gback m c (toks p)).2.
Proof.
  induction n as [n IH] using lt_wf_ind. intros k c p h m Hp Hn Hm R.
  destruct (symbol_ok 38 p h Hp ltac:(by apply (bool_decide_unpack _))) as (p1 & E1 & Hp1 & T1 & Ht).
  destruct (at_head [38] (toks p)) eqn:Hh.
  - destruct (Ht eq_refl) as (ts & t & Et & E2 & Hp2 & T2). rewrite Et in *. cbn [length] in Hm. destruct m as [|m]; [lia|]. cbn [gback Z.eqb Pos.eqb].
    destruct n as [|n]; [lia|]. cbn [parseback]. rewrite (bind_Done _ _ _ _ _ E1). cbn [fst snd negb]. rewrite (bind_Done _ _ _ _ _ E2).
    destruct (new_node h (BACK k)) as [Kn Ln].
    rewrite (bind_Done (backcmd k) _ (Sst b h) (length h) (Sst b (h ++ [BACK k])) eq_refl).
    destruct (IH n ltac:(lia) (length h) (CBack c) (tok_ps t) (h ++ [BACK k]) m ltac:(lia) ltac:(lia)) as (k' & p' & h' & E & K & R' & Hp' & T).
    + rewrite T2. lia.
    + exists k. split; [done|]. split; [by apply (rep_lt _ _ _ R)|]. by apply (rep_keeps _ _ _ _ _ Kn).
    + rewrite T2 in *. exists k', p', h'. split; [done|]. split; [by eapply keeps_trans|]. split; [done|]. split; [lia|done].
  - assert (Eg : gback m c (toks p) = (c, toks p)).
    { destruct m; [done|]. cbn [gback]. destruct (toks p) as [|[w|x] ts]; [done..|]. destruct (Z.eqb_spec x 38) as [->|]; done. }
    rewrite Eg. exists k, p1, h. split; [destruct n; cbn [parseback]; by rewrite (bind_Done _ _ _ _ _ E1)|]. split; [apply keeps_refl|]. done.
Qed.

(** ** The recursive functions *)

(** Four calls may pass before a byte is read. *)
Definition line_sim (f : nat) : Prop := forall p h, (p <= es)%nat -> (4 * (es - p) + 4 <= f)%nat -> sim (gline f (toks p)) (parse_call f FLine p es (Sst b h)) p h.
Definition pipe_sim (f : nat) : Prop := forall p h, (p <= es)%nat -> (4 * (es - p) + 3 <= f)%nat -> sim (gpipe f (toks p)) (parse_call f FPipe p es (Sst b h)) p h.
Definition exec_sim (f : nat) : Prop := forall p h, (p <= es)%nat -> (4 * (es - p) + 2 <= f)%nat -> sim (gexec f (toks p)) (parse_call f FExec p es (Sst b h)) p h.
Definition block_sim (f : nat) : Prop := forall p h ts, (p <= es)%nat -> (4 * (es - p) + 1 <= f)%nat -> toks p = TS 40 :: ts ->
  sim (gblock f ts) (parse_call f FBlock p es (Sst b h)) p h.

Lemma sim_from g o p p' h h' : (p <= p')%nat -> keeps h h' -> sim g o p' h' -> sim g o p h.
Proof.
  intros Hp K. destruct g as [[c ts]|]; cbn; [|done]. intros (k & q & h2 & E & K2 & R & Hq & T).
  exists k, q, h2. split; [done|]. split; [by eapply keeps_trans|]. split; [done|]. split; [lia|done].
Qed.

(** The second half of a pipe or of a list. *)
Lemma pair_ok (mk : nat -> nat -> node) (cmk : cmd -> cmd -> cmd) (kmk : nat -> nat -> M sst nat) g o i c p p1 h h1 :
  (forall l r s, kmk l r s = Done (length (heap s)) (Sst (buf s) (heap s ++ [mk l r]))) ->
  (forall h k l r, rep span h k (cmk l r) = exists i j, h !! k = Some (mk i j) /\ (i < k)%nat /\ (j < k)%nat /\ rep span h i l /\ rep span h j r) ->
  rep span h1 i c -> keeps h h1 -> (p <= p1)%nat -> sim g o p1 h1 ->
  sim ('(d, r) ← g; Some (cmk c d, r)) (match o with
    | Done r s => (let! k := kmk i r.1 in ret (k, r.2)) s | Panic m => Panic m | Sleep ch s => Sleep ch s | Wild m => Wild m | NoFuel => NoFuel end) p h.
Proof.
  intros Hk Hr R K Hp S. destruct g as [[d ts]|]; cbn [mbind option_bind sim] in *; [|by destruct S as [m ->]; exists m].
  destruct S as (j & p' & h' & -> & K' & R' & Hp' & T). destruct (new_node h' (mk i j)) as [Kn Ln]. cbn [fst snd].
  exists (length h'), p', (h' ++ [mk i j]). split; [by rewrite (bind_Done _ _ _ _ _ (Hk _ _ _))|].
  split; [eapply keeps_trans; [|exact Kn]; by eapply keeps_trans|]. split; [|split; [lia|done]]. rewrite Hr. exists i, j. split; [done|].
  pose proof (rep_keeps _ _ _ _ _ K' R) as R1. split; [by apply (rep_lt _ _ _ R1)|]. split; [by apply (rep_lt _ _ _ R')|].
  split; by apply (rep_keeps _ _ _ _ _ Kn).
Qed.

Ltac no_symbol ts G :=
  destruct ts as [|[?|x] ?]; [exact G|exact G|destruct (Z.eqb_spec x 59), (Z.eqb_spec x 124), (Z.eqb_spec x 41); subst; first [done|exact G]].

Lemma line_step f : pipe_sim f -> line_sim f -> line_sim (S f).
Proof.
  intros Hpipe Hline_ p h Hp Hf. cbn [gline parse_call]. unfold parseline. pose proof (Hpipe p h Hp ltac:(lia)) as S1.
  destruct (gpipe f (toks p)) as [[c ts]|]; cbn [mbind option_bind]; [|destruct S1 as [m S1]; exists m; by apply bind_Panic].
  destruct S1 as (k & p1 & h1 & E1 & K1 & R1 & Hp1 & T1). rewrite (bind_Done _ _ _ _ _ E1). cbn [fst snd].
  destruct (parseback_ok (es - p1) k c p1 h1 (length ts) ltac:(lia) ltac:(lia) ltac:(by rewrite T1) R1) as (k2 & p2 & h2 & E2 & K2 & R2 & Hp2 & T2).
  rewrite (bind_Done _ _ _ _ _ E2). cbn [fst snd]. rewrite T1 in *. destruct (gback (length ts) c ts) as [c2 ts2]. cbn [fst snd] in *.
  destruct (symbol_ok 59 p2 h2 ltac:(lia) ltac:(by apply (bool_decide_unpack _))) as (p3 & E3 & Hp3 & T3 & Ht).
  rewrite (bind_Done _ _ _ _ _ E3). cbn [fst snd]. rewrite T2 in *. destruct (at_head [59] ts2) eqn:Hh.
  - destruct (Ht eq_refl) as (ts' & t & -> & E4 & Hp4 & T4). rewrite (bind_Done _ _ _ _ _ E4). cbn [Z.eqb Pos.eqb]. rewrite <- T4.
    apply (pair_ok LIST CList listcmd _ (parse_call f FLine (tok_ps t) es (Sst b h2)) k2 c2 p (tok_ps t) h h2); [done..|by eapply keeps_trans|lia|].
    apply Hline_; lia.
  - assert (G : sim (Some (c2, ts2)) (ret (k2, p3) (Sst b h2)) p h).
    { exists k2, p3, h2. split; [done|]. split; [by eapply keeps_trans|]. split; [done|]. split; [lia|congruence]. }
    no_symbol ts2 G.
Qed.

Lemma pipe_step f : exec_sim f -> pipe_sim f -> pipe_sim (S f).
Proof.
  intros Hexec Hpipe p h Hp Hf. cbn [gpipe parse_call]. unfold parsepipe. pose proof (Hexec p h Hp ltac:(lia)) as S1.
  destruct (gexec f (toks p)) as [[c ts]|]; cbn [mbind option_bind]; [|destruct S1 as [m S1]; exists m; by apply bind_Panic].
  destruct S1 as (k & p1 & h1 & E1 & K1 & R1 & Hp1 & T1). rewrite (bind_Done _ _ _ _ _ E1). cbn [fst snd].
  destruct (symbol_ok 124 p1 h1 ltac:(lia) ltac:(by apply (bool_decide_unpack _))) as (p3 & E3 & Hp3 & T3 & Ht).
  rewrite (bind_Done _ _ _ _ _ E3). cbn [fst snd]. rewrite T1 in *. destruct (at_head [124] ts) eqn:Hh.
  - destruct (Ht eq_refl) as (ts' & t & -> & E4 & Hp4 & T4). rewrite (bind_Done _ _ _ _ _ E4). cbn [Z.eqb Pos.eqb]. rewrite <- T4.
    apply (pair_ok PIPE CPipe pipecmd _ (parse_call f FPipe (tok_ps t) es (Sst b h1)) k c p (tok_ps t) h h1); [done..|lia|].
    apply Hpipe; lia.
  - assert (G : sim (Some (c, ts)) (ret (k, p3) (Sst b h1)) p h).
    { exists k, p3, h1. split; [done|]. split; [done|]. split; [done|]. split; [lia|congruence]. }
    no_symbol ts G.
Qed.

Lemma block_step f : line_sim f -> block_sim (S f).
Proof.
  intros Hl p h ts Hp Hf Et. cbn [gblock parse_call]. unfold parseblock.
  destruct (symbol_ok 40 p h ltac:(lia) ltac:(by apply (bool_decide_unpack _))) as (p1 & E1 & Hp1 & T1 & Ht).
  rewrite Et in *. destruct (Ht eq_refl) as (ts' & t & [= <-] & E2 & Hp2 & T2).
  rewrite (bind_Done _ _ _ _ _ E1). cbn [fst snd at_head existsb Z.eqb Pos.eqb orb negb]. rewrite (bind_Done _ _ _ _ _ E2).
  pose proof (Hl (tok_ps t) h ltac:(lia) ltac:(lia)) as S1. rewrite T2 in S1.
  destruct (gline f ts) as [[c r]|]; cbn [mbind option_bind]; [|destruct S1 as [m S1]; exists m; by apply bind_Panic].
  destruct S1 as (k & p3 & h3 & E3 & K3 & R3 & Hp3 & T3). rewrite (bind_Done _ _ _ _ _ E3). cbn [fst snd].
  destruct (symbol_ok 41 p3 h3 ltac:(lia) ltac:(by apply (bool_decide_unpack _))) as (p4 & E4 & Hp4 & T4 & Ht4).
  rewrite (bind_Done _ _ _ _ _ E4). cbn [fst snd]. rewrite T3 in *. destruct (at_head [41] r) eqn:Hh; cbn [negb].
  2:{ assert (G : sim None (panic "syntax - missing )" (Sst b h3)) p h) by (by eexists). no_symbol r G. }
  destruct (Ht4 eq_refl) as (ts4 & t4 & -> & E5 & Hp5 & T5). rewrite (bind_Done _ _ _ _ _ E5). cbn [Z.eqb Pos.eqb].
  pose proof (parseredirs_ok (es - tok_ps t4) k (tok_ps t4) h3 ltac:(lia) ltac:(lia) ltac:(by eapply rep_lt)) as S6. rewrite T5 in S6.
  destruct (gredirs ts4) as [[rs ts6]|]; cbn [mbind option_bind]; [|done].
  destruct S6 as (k6 & p6 & h6 & E6 & K6 & C6 & Hp6 & T6). exists k6, p6, h6. split; [done|]. split; [by eapply keeps_trans|].
  split; [|split; [lia|done]]. eapply rep_wrap; [|done]. by apply (rep_keeps _ _ _ _ _ K6).
Qed.

Lemma simple_ok p p1 h : (p <= p1 <= es)%nat -> sim (gsimple (toks p1))
  ((let! cmd := execcmd in
    let! r := parseredirs (es - p1) cmd p1 es in
    let! a := parseargs (es - r.2) cmd r.1 0 r.2 es in
    set_arg cmd a.1.2 None None ;!
    ret (a.1.1, a.2)) (Sst b h)) p h.
Proof.
  intros Hp. set (x := length h). set (nd := EXEC (replicate MAXARGS None) (replicate MAXARGS None)). destruct (new_node h nd) as [Kn Ln].
  rewrite (bind_Done execcmd _ (Sst b h) x (Sst b (h ++ [nd])) eq_refl). unfold gsimple.
  pose proof (parseredirs_ok (es - p1) x p1 (h ++ [nd]) ltac:(lia) ltac:(lia) ltac:(unfold x; rewrite length_app; cbn; lia)) as S1.
  destruct (gredirs (toks p1)) as [[rs r]|]; cbn [mbind option_bind]; [|destruct S1 as [m S1]; exists m; by apply bind_Panic].
  destruct S1 as (k2 & p2 & h2 & E2 & K2 & C2 & Hp2 & T2). rewrite (bind_Done _ _ _ _ _ E2). cbn [fst snd].
  assert (A0 : args span (replicate MAXARGS None) (replicate MAXARGS None) []) by (exists []; split; [done|]; split; [unfold MAXARGS; cbn; lia|done]).
  pose proof (parseargs_ok (es - p2) x k2 p2 h2 _ _ [] rs (length r) ltac:(lia) ltac:(lia) ltac:(by rewrite T2) (K2 _ _ Ln) A0 C2) as S3.
  rewrite T2 in S3. cbn [length] in S3. destruct (gargs (length r) 0 r) as [[[ws rs'] ts]|]; cbn [mbind option_bind].
  2:{ destruct S3 as [m S3]; exists m; by apply bind_Panic. }
  destruct S3 as (k3 & p3 & h3 & a & e & E3 & K3 & Hx & A & C & Hp3 & T3). rewrite (bind_Done _ _ _ _ _ E3). cbn [fst snd app] in *.
  destruct (args_done _ _ _ A) as [Ea Ee]. assert (Hlen : (length ws < MAXARGS)%nat).
  { destruct A as (sp & F & L & _). by rewrite <- (Forall2_length _ _ _ F). }
  assert (Es : set_arg x (length ws) None None (Sst b h3) = Done tt (Sst b h3)).
  { unfold set_arg. cbn [heap buf]. rewrite Hx, (proj2 (Nat.ltb_lt _ _) Hlen), Ea, Ee. by rewrite list_insert_id. }
  rewrite (bind_Done _ _ _ _ _ Es). exists k3, p3, h3. split; [done|]. split; [|split; [|split; [lia|done]]].
  - intros k n Hk. apply K3; [apply lookup_lt_Some in Hk; unfold x; lia|]. by apply K2, Kn.
  - eapply rep_wrap; [|exact C]. by exists a, e.
Qed.

Lemma exec_step f : block_sim f -> exec_sim (S f).
Proof.
  intros Hb p h Hp Hf. cbn [gexec parse_call]. unfold parseexec.
  destruct (symbol_ok 40 p h ltac:(lia) ltac:(by apply (bool_decide_unpack _))) as (p1 & E1 & Hp1 & T1 & Ht).
  rewrite (bind_Done _ _ _ _ _ E1). cbn [fst snd]. destruct (at_head [40] (toks p)) eqn:Hh.
  - destruct (Ht eq_refl) as (ts & t & Et & _). rewrite Et. cbn [Z.eqb Pos.eqb].
    apply (sim_from _ _ p p1 h h); [lia|apply keeps_refl|]. apply Hb; [lia..|congruence].
  - pose proof (simple_ok p p1 h ltac:(lia)) as G. rewrite T1 in G. destruct (toks p) as [|[w|x] r]; [exact G..|].
    destruct (Z.eqb_spec x 40) as [->|]; [done|exact G].
Qed.

Lemma parser_ok f : line_sim f /\ pipe_sim f /\ exec_sim f /\ block_sim f.
Proof.
  induction f as [|f (IHl & IHp & IHe & IHb)].
  - split_and!; intros p h; intros; lia.
  - split_and!; auto using line_step, pipe_step, exec_step, block_step.
Qed.

(** ** Ending the strings *)

(** A word ends at [i]. *)
Definition ends (i : nat) : Prop := exists q w, span q i w.

Lemma word_of_word l : Forall (fun c => is_word c = true) (word_of l).
Proof. induction l as [|c l IH]; cbn; [done|]. destruct (is_word c) eqn:E; [by constructor|done]. Qed.

Lemma word_of_next l : match drop (length (word_of l)) l with c :: _ => is_word c = false | [] => True end.
Proof. induction l as [|c l IH]; cbn; [done|]. destruct (is_word c) eqn:E; cbn; [done|]. by rewrite E. Qed.

Lemma word_of_take l : take (length (word_of l)) l = word_of l.
Proof. induction l as [|c l IH]; cbn; [done|]. destruct (is_word c) eqn:E; cbn; [by rewrite IH|done]. Qed.

Lemma span_chars q e w : span q e w -> Forall (fun c => is_word c = true) w /\ w <> [] /\ take (length w) (drop q b) = w.
Proof.
  intros (He & -> & Hw). split; [rewrite Hw; apply word_of_word|]. split; [intros ->; cbn in He; lia|].
  pose proof (word_of_take (text q)) as T. rewrite <- Hw in T. unfold ShOk.text in T. rewrite take_take in T.
  by rewrite Nat.min_l in T by lia.
Qed.

(** The end of one word is not inside another. *)
Lemma span_ends q e w i : span q e w -> (q <= i < e)%nat -> ~ ends i.
Proof.
  intros Sp Hi (q' & w' & (He' & Ei & Hw')). destruct (span_chars _ _ _ Sp) as (Fw & _ & Tw). destruct Sp as (He & -> & Hw).
  assert (exists c, b !! i = Some c /\ is_word c = true) as (c & Hc & Wc).
  { destruct (lookup_lt_is_Some_2 w (i - q)) as [c Hc]; [lia|]. exists c. split; [|by apply (Forall_lookup_1 _ _ _ _ Fw Hc)].
    rewrite <- Tw in Hc. apply lookup_take_Some in Hc as [Hc _]. rewrite lookup_drop in Hc. by replace (q + (i - q))%nat with i in Hc by lia. }
  pose proof (word_of_next (text q')) as N. rewrite <- Hw' in N. rewrite (text_drop b es) in N by lia. rewrite <- Ei in N.
  destruct (text_cons b es Hline i) as (d & Hd & _ & Et); [lia|]. rewrite Et in N. congruence.
Qed.

(** Bytes change only to NUL, and only where words end. *)
Definition cuts (b1 b2 : list Z) : Prop :=
  length b2 = length b1 /\ forall i, b2 !! i = b1 !! i \/ (b2 !! i = Some 0 /\ ends i).

Lemma cuts_refl b1 : cuts b1 b1.
Proof. split; [done|]. by left. Qed.
Lemma cuts_trans b1 b2 b3 : cuts b1 b2 -> cuts b2 b3 -> cuts b1 b3.
Proof. intros [L H] [L' H']. split; [congruence|]. intros i. destruct (H' i) as [->|]; [apply H|by right]. Qed.
Lemma cuts_nul b1 b2 i : cuts b1 b2 -> b1 !! i = Some 0 -> b2 !! i = Some 0.
Proof. intros [_ H] E. destruct (H i) as [->|[? _]]; done. Qed.

Lemma cut_ok b1 h q e w : span q e w -> length b1 = length b -> exists b2, cut e (Sst b1 h) = Done tt (Sst b2 h) /\ cuts b1 b2 /\ b2 !! e = Some 0.
Proof.
  intros Sp L. assert (e < length b1)%nat as He.
  { destruct Sp as (He & _). destruct (strlen_line _ _ Hline) as [H0 _]. apply lookup_lt_Some in H0. lia. }
  exists (<[e := 0]> b1). unfold cut. cbn [buf heap]. rewrite (proj2 (Nat.ltb_lt _ _) He). split; [done|].
  split; [|by apply list_lookup_insert_eq]. split; [apply length_insert|]. intros i. destruct (decide (i = e)) as [->|].
  - right. split; [by apply list_lookup_insert_eq|by exists q, w].
  - left. by rewrite list_lookup_insert_ne.
Qed.

(** A span whose end has been cut. *)
Definition cspan (b1 : list Z) (q e : nat) (w : list Z) : Prop := span q e w /\ b1 !! e = Some 0.

Lemma cut_args_ok h sp : forall ws m b1, Forall2 (fun x w => span x.1 x.2 w) sp ws -> length b1 = length b ->
  exists b2, cut_args (((fun x => Some x.1) <$> sp) ++ replicate (S m) None) (((fun x => Some x.2) <$> sp) ++ replicate (S m) None) (Sst b1 h) =
    Done tt (Sst b2 h) /\ cuts b1 b2 /\ Forall2 (fun x w => cspan b2 x.1 x.2 w) sp ws.
Proof.
  induction sp as [|[q e] sp IH]; intros ws m b1 F L; inversion F as [|? w ? ws' Sp F']; subst.
  - exists b1. split; [done|]. split; [apply cuts_refl|done].
  - destruct (cut_ok b1 h q e w Sp L) as (b2 & E & C & Z). destruct (IH ws' m b2 F') as (b3 & E' & C' & F2); [by rewrite (proj1 C)|].
    exists b3. cbn [fmap list_fmap app cut_args fst snd]. rewrite (bind_Done _ _ _ _ _ E). split; [exact E'|]. split; [by eapply cuts_trans|].
    constructor; [|done]. split; [done|]. by apply (cuts_nul b2).
Qed.

Lemma rep_mono (W W' : nat -> nat -> list Z -> Prop) h c : (forall q e w, W q e w -> W' q e w) -> forall k, rep W h k c -> rep W' h k c.
Proof.
  intros HW. induction c as [ws|c IH w m d|l IHl r IHr|l IHl r IHr|c IH]; intros k; cbn.
  - intros (a & e & Hk & sp & F & Ha). exists a, e. split; [done|]. exists sp. split; [|done]. eapply Forall2_impl; [done|]. auto.
  - intros (k' & q & e & Hk & Hw & Hl & R). exists k', q, e. auto.
  - intros (i & j & Hk & Hi & Hj & Rl & Rr). exists i, j. split_and!; auto.
  - intros (i & j & Hk & Hi & Hj & Rl & Rr). exists i, j. split_and!; auto.
  - intros (i & Hk & Hi & R). exists i. auto.
Qed.

Lemma cspan_cuts b1 b2 h k c : cuts b1 b2 -> rep (cspan b1) h k c -> rep (cspan b2) h k c.
Proof. intros C. apply rep_mono. intros q e w [Sp Z]. split; [done|]. by apply (cuts_nul b1). Qed.

Lemma nulterminate_ok h c : forall f k b1, rep span h k c -> (k < f)%nat -> length b1 = length b ->
  exists b2, nulterminate f k (Sst b1 h) = Done tt (Sst b2 h) /\ cuts b1 b2 /\ rep (cspan b2) h k c.
Proof.
  assert (G : forall k n b1, h !! k = Some n -> get_node k (Sst b1 h) = Done n (Sst b1 h)).
  { intros k n b1 Hk. unfold get_node. cbn [heap]. by rewrite Hk. }
  assert (Two : forall l r i j f b1, length b1 = length b ->
    (forall f k b1, rep span h k l -> (k < f)%nat -> length b1 = length b ->
      exists b2, nulterminate f k (Sst b1 h) = Done tt (Sst b2 h) /\ cuts b1 b2 /\ rep (cspan b2) h k l) ->
    (forall f k b1, rep span h k r -> (k < f)%nat -> length b1 = length b ->
      exists b2, nulterminate f k (Sst b1 h) = Done tt (Sst b2 h) /\ cuts b1 b2 /\ rep (cspan b2) h k r) ->
    (i < f)%nat -> (j < f)%nat -> rep span h i l -> rep span h j r ->
    exists b2, (nulterminate f i ;! nulterminate f j) (Sst b1 h) = Done tt (Sst b2 h) /\ cuts b1 b2 /\
      rep (cspan b2) h i l /\ rep (cspan b2) h j r).
  { intros l r i j f b1 L IHl IHr Hi Hj Rl Rr. destruct (IHl f i b1) as (b2 & E2 & C2 & R2); [done..|].
    destruct (IHr f j b2) as (b3 & E3 & C3 & R3); [done|done|by rewrite (proj1 C2)|]. exists b3. rewrite (bind_Done _ _ _ _ _ E2).
    split; [done|]. split; [by eapply cuts_trans|]. split; [|done]. by eapply cspan_cuts. }
  induction c as [ws|c IH w m d|l IHl r IHr|l IHl r IHr|c IH]; intros [|f] k b1 R Hk L; try lia; cbn [rep] in R; cbn [nulterminate].
  - destruct R as (a & e & Hn & sp & F & Hsp & -> & ->). rewrite (bind_Done _ _ _ _ _ (G _ _ _ Hn)).
    destruct (MAXARGS - length sp)%nat as [|n] eqn:E0; [lia|].
    destruct (cut_args_ok h sp ws n b1 F L) as (b2 & E & C & F2). exists b2. split; [exact E|]. split; [done|].
    eexists _, _. split; [exact Hn|]. exists sp. split; [done|]. split; [done|]. by rewrite E0.
  - destruct R as (k' & q & e & Hn & Sp & Hl & R). rewrite (bind_Done _ _ _ _ _ (G _ _ _ Hn)).
    destruct (IH f k' b1 R ltac:(lia) L) as (b2 & E & C & R2). rewrite (bind_Done _ _ _ _ _ E).
    destruct (cut_ok b2 h q e w Sp ltac:(by rewrite (proj1 C))) as (b3 & E3 & C3 & Z). exists b3. split; [done|]. split; [by eapply cuts_trans|].
    exists k', q, e. split; [done|]. split; [done|]. split; [done|]. by eapply cspan_cuts.
  - destruct R as (i & j & Hn & Hi & Hj & Rl & Rr). rewrite (bind_Done _ _ _ _ _ (G _ _ _ Hn)).
    destruct (Two l r i j f b1 L IHl IHr) as (b2 & E & C & R1 & R2); [lia..|done|done|]. exists b2. split; [done|]. split; [done|]. by exists i, j.
  - destruct R as (i & j & Hn & Hi & Hj & Rl & Rr). rewrite (bind_Done _ _ _ _ _ (G _ _ _ Hn)).
    destruct (Two l r i j f b1 L IHl IHr) as (b2 & E & C & R1 & R2); [lia..|done|done|]. exists b2. split; [done|]. split; [done|]. by exists i, j.
  - destruct R as (i & Hn & Hi & R). rewrite (bind_Done _ _ _ _ _ (G _ _ _ Hn)).
    destruct (IH f i b1 R ltac:(lia) L) as (b2 & E & C & R2). exists b2. split; [done|]. split; [done|]. by exists i.
Qed.

End Parser.

(** The string at [q] is [w]; it ends at [e]. *)
Definition cstr (b : list Z) (q e : nat) (w : list Z) : Prop :=
  w <> [] /\ Forall (fun c => is_word c = true) w /\ take (length w) (drop q b) = w /\ e = (q + length w)%nat /\ b !! e = Some 0.

Lemma cspan_cstr b es b1 q e w : strlen b = Some es -> cuts b es b b1 -> cspan b es b1 q e w -> cstr b1 q e w.
Proof.
  intros H C [Sp Z]. destruct (span_chars b es q e w Sp) as (Fw & Nw & Tw). split; [done|]. split; [done|].
  pose proof Sp as (He & Ee & _). split; [|done]. rewrite <- Tw at 2. apply list_eq. intros i.
  destruct (decide (i < length w)%nat) as [Hi|]; [|rewrite !lookup_take_ge by lia; done].
  rewrite !lookup_take_lt, !lookup_drop by done. destruct (proj2 C (q + i)%nat) as [->|[_ X]]; [done|].
  exfalso. apply (span_ends b es H q e w (q + i) Sp); [lia|done].
Qed.

Lemma parsecmd_ok b es h : strlen b = Some es ->
  match parse (take es b) with
  | Some c => exists k b' h', parsecmd (Sst b h) = Done k (Sst b' h') /\ length b' = length b /\ keeps h h' /\ rep (cstr b') h' k c
  | None => exists m, parsecmd (Sst b h) = Panic m
  end.
Proof.
  intros H. unfold parsecmd. cbn [buf]. rewrite H. assert (Et : text b es 0 = take es b) by (unfold text; by rewrite Nat.sub_0_r).
  assert (El : length (take es b) = es) by (rewrite <- Et, (text_length b es H) by lia; lia).
  destruct (parser_ok b es H (4 * es + 4)) as (S1 & _). specialize (S1 0%nat h ltac:(lia) ltac:(lia)). rewrite Et in S1.
  unfold parse. rewrite El. destruct (gline (4 * es + 4) (lex (take es b))) as [[c ts]|]; [|destruct S1 as [m S1]; exists m; by apply bind_Panic].
  destruct S1 as (k & p1 & h1 & E1 & K1 & R1 & Hp1 & T1). rewrite (bind_Done _ _ _ _ _ E1). cbn [fst snd].
  destruct (skip_space_ok b es H p1 h1 ltac:(lia)) as (p2 & E2 & Hp2 & T2).
  assert (E3 : exists x, peek p1 es [] (Sst b h1) = Done (x, p2) (Sst b h1)).
  { eexists. unfold peek. rewrite (bind_Done _ _ _ _ _ E2), (bind_Done _ _ _ _ _ (rd_text b es H p2 h1 ltac:(lia))). reflexivity. }
  destruct E3 as [x E3]. rewrite (bind_Done _ _ _ _ _ E3). cbn [fst snd].
  rewrite lex_trim, <- T2 in T1 by (apply text_nz; [done|lia]).
  pose proof (text_length b es H p2 ltac:(lia)) as L2. destruct (text b es p2) as [|d r] eqn:Ex; subst ts; cbn [length] in L2.
  - assert (p2 = es) as -> by lia. rewrite Nat.eqb_refl. cbn [negb].
    destruct (nulterminate_ok b es H h1 c (S k) k b R1 ltac:(lia) eq_refl) as (b2 & E4 & C4 & R4). rewrite (bind_Done _ _ _ _ _ E4).
    exists k, b2, h1. split; [done|]. split; [apply C4|]. split; [done|]. eapply rep_mono; [|done]. intros q e w. by eapply cspan_cstr.
  - rewrite (proj2 (Nat.eqb_neq p2 es)) by lia. by eexists.
Qed.

(** ** Well-formed commands and their text *)

Definition word_ok (w : list Z) : bool := negb (bool_decide (w = [])) && forallb is_word w.

(** Words of word characters, at most nine of them, and the two kinds of redirection. *)
Fixpoint wf_cmd (c : cmd) : bool :=
  match c with
  | CExec ws => forallb word_ok ws && (length ws <? MAXARGS)%nat
  | CRedir c w m d => wf_cmd c && word_ok w && bool_decide ((m, d) = (O_RDONLY, 0) \/ (m, d) = (Z.lor O_WRONLY O_CREATE, 1))
  | CPipe l r | CList l r => wf_cmd l && wf_cmd r
  | CBack c => wf_cmd c
  end.

(** The rule of the grammar a command belongs to: a list is a line, the rest in turn
    needs no parentheses before an ampersand, a bar and a redirection. *)
Definition level (c : cmd) : nat := match c with CList _ _ => 0 | CBack _ => 1 | CPipe _ _ => 2 | _ => 3 end.
Definition enclose (lev : nat) (c : cmd) (ts : list tk) : list tk :=
  if (level c <? lev)%nat then TS 40 :: ts ++ [TS 41] else ts.
Definition redir_tk (r : redir) : list tk := let '(w, m, d) := r in [TS (if m =? O_RDONLY then 60 else 62); TW w].

Fixpoint body (c : cmd) : list tk :=
  match c with
  | CExec ws => TW <$> ws
  | CRedir c w m d => enclose 3 c (body c) ++ redir_tk (w, m, d)
  | CPipe l r => enclose 3 l (body l) ++ TS 124 :: enclose 2 r (body r)
  | CList l r => enclose 1 l (body l) ++ TS 59 :: body r
  | CBack c => enclose 1 c (body c) ++ [TS 38]
  end.

(** Tokens as text, a space behind each. *)
Definition show_tk (t : tk) : list Z := match t with TW w => w ++ [32] | TS k => [k; 32] end.
Definition show (ts : list tk) : list Z := ts ≫= show_tk.
Definition print (c : cmd) : list Z := show (body c).

(** *** The text has the tokens *)

Definition tk_wf (t : tk) : Prop := match t with TW w => word_ok w = true | TS k => is_symbol k = true end.

Lemma word_of_app w c l : forallb is_word w = true -> is_word c = false -> word_of (w ++ c :: l) = w.
Proof.
  intros Hw Hc. induction w as [|d w IH]; cbn; [by rewrite Hc|]. cbn in Hw. apply andb_prop in Hw as [-> Hw]. by rewrite IH.
Qed.

Lemma word_char c : is_word c = true -> c <> 0 /\ is_space c = false /\ is_symbol c = false.
Proof.
  unfold is_word. intros [[N S]%andb_prop Y]%andb_prop. apply negb_true_iff in N, S, Y. by apply Z.eqb_neq in N.
Qed.

Lemma symbol_char k : is_symbol k = true -> k <> 0 /\ is_space k = false.
Proof.
  unfold is_symbol. intros (x & Hx & ->%Z.eqb_eq)%existsb_exists. unfold symbols in Hx.
  repeat (destruct Hx as [<-|Hx]; [done|]). done.
Qed.

Lemma word_nonempty w : word_ok w = true -> exists c w', w = c :: w' /\ is_word c = true /\ forallb is_word w = true.
Proof.
  unfold word_ok. intros [N F]%andb_prop. destruct w as [|c w]; [done|]. exists c, w. pose proof F as F'. cbn in F'.
  apply andb_prop in F' as [Hc _]. done.
Qed.

Lemma show_nz ts : Forall tk_wf ts -> Forall (fun c => c <> 0) (show ts).
Proof.
  intros F. unfold show. rewrite Forall_bind. eapply Forall_impl; [done|]. intros [w|k]; cbn.
  - intros (c & w' & _ & _ & Hw)%word_nonempty. apply Forall_app. split; [|by repeat constructor]. apply Forall_forall. intros x Hx.
    apply list_elem_of_In in Hx. rewrite forallb_forall in Hw. by apply word_char, Hw.
  - intros Hk. repeat constructor; [|done]. by apply symbol_char.
Qed.

Lemma lex_space l : Forall (fun c => c <> 0) l -> lex (32 :: l) = lex l.
Proof. intros F. rewrite <- (lex_of_trim (32 :: l)) by (by constructor). cbn [trim]. change (is_space 32) with true. cbn iota. by apply lex_of_trim. Qed.

Lemma lex_show ts : Forall tk_wf ts -> lex (show ts) = ts.
Proof.
  induction 1 as [|t ts Ht F IH]; [done|]. pose proof (show_nz ts F) as Z. assert (F' : Forall tk_wf (t :: ts)) by (by constructor).
  pose proof (show_nz _ F') as Z'. change (show (t :: ts)) with (show_tk t ++ show ts) in *. destruct t as [w|k]; cbn [show_tk] in *.
  - destruct (word_nonempty w Ht) as (c & w' & -> & Hc & Hw). destruct (word_char c Hc) as (N0 & Ns & Ny). rewrite lex_trim by done.
    rewrite <- app_assoc in *. cbn [app trim] in *. rewrite Ns. unfold lex1.
    assert (c <> 62) as N62 by (by intros ->). rewrite (proj2 (Z.eqb_neq _ _) N62), Ny. cbn [fst snd].
    change (c :: w' ++ 32 :: show ts) with ((c :: w') ++ 32 :: show ts). rewrite word_of_app by done. f_equal.
    rewrite drop_app_length. rewrite lex_space by done. exact IH.
  - destruct (symbol_char k Ht) as [N0 Ns]. rewrite lex_trim by done. cbn [app trim] in *. rewrite Ns. unfold lex1. cbn in Ht. rewrite Ht.
    destruct (Z.eqb_spec k 62) as [->|]; cbn [fst snd]; by rewrite lex_space, IH.
Qed.

Lemma enclose_wf lev c ts : Forall tk_wf ts -> Forall tk_wf (enclose lev c ts).
Proof. intros F. unfold enclose. destruct (_ <? _)%nat; [|done]. constructor; [done|]. apply Forall_app. split; [done|]. by constructor. Qed.

Lemma redir_tk_wf w m d : word_ok w = true -> Forall tk_wf (redir_tk (w, m, d)).
Proof. intros Hw. constructor; [by destruct (m =? O_RDONLY)|]. by constructor. Qed.

Lemma body_wf c : wf_cmd c = true -> Forall tk_wf (body c).
Proof.
  induction c as [ws|c IH w m d|l IHl r IHr|l IHl r IHr|c IH]; cbn [wf_cmd body].
  - intros [Hw _]%andb_prop. apply Forall_fmap. apply Forall_forall. intros w Hin. rewrite forallb_forall in Hw. cbn.
    apply Hw. by apply list_elem_of_In.
  - intros [[Hc Hw]%andb_prop _]%andb_prop. apply Forall_app. split; [by apply enclose_wf, IH|by apply redir_tk_wf].
  - intros [Hl Hr]%andb_prop. apply Forall_app. split; [by apply enclose_wf, IHl|]. constructor; [done|]. by apply enclose_wf, IHr.
  - intros [Hl Hr]%andb_prop. apply Forall_app. split; [by apply enclose_wf, IHl|]. constructor; [done|]. by apply IHr.
  - intros Hc. apply Forall_app. split; [by apply enclose_wf, IH|]. by constructor.
Qed.

(** *** The tokens have the command *)

(** What may follow: the symbols of a set, or nothing. *)
Definition follow (ks : list Z) (ts : list tk) : bool := match ts with [] => true | TS k :: _ => existsb (Z.eqb k) ks | _ => false end.

Definition redir_ok (r : redir) : Prop := r.1.2 = O_RDONLY /\ r.2 = 0 \/ r.1.2 = Z.lor O_WRONLY O_CREATE /\ r.2 = 1.

Lemma follow_cases ks ts : follow ks ts = true -> ts = [] \/ exists k ts', ts = TS k :: ts' /\ In k ks.
Proof.
  destruct ts as [|[w|k] ts]; [by left|done|]. cbn. intros (x & Hx & ->%Z.eqb_eq)%existsb_exists. right. by exists x, ts.
Qed.

Lemma gredirs_show rs rest : Forall redir_ok rs -> follow [124; 41; 38; 59] rest = true -> gredirs ((rs ≫= redir_tk) ++ rest) = Some (rs, rest).
Proof.
  intros F Hr. induction F as [|[[w m] d] rs Hm F IH].
  - cbn. destruct (follow_cases _ _ Hr) as [->|(k & ts & -> & Hk)]; [done|]. cbn in Hk.
    repeat (destruct Hk as [<-|Hk]; [done|]). done.
  - change (((w, m, d) :: rs) ≫= redir_tk) with (redir_tk (w, m, d) ++ (rs ≫= redir_tk)). rewrite <- app_assoc. cbn [redir_tk app gredirs].
    destruct Hm as [[Em Ed]|[Em Ed]]; cbn in Em, Ed; subst; cbn [Z.eqb Pos.eqb]; change (is_redir _) with true; cbn iota; rewrite IH; done.
Qed.

Lemma gargs_show ws rs rest : Forall redir_ok rs -> follow [124; 41; 38; 59] rest = true ->
  forall w n i, (length ws <= n)%nat -> (i + length ws < MAXARGS - 1)%nat ->
  gargs (S n) i (TW w :: (TW <$> ws) ++ (rs ≫= redir_tk) ++ rest) = Some (w :: ws, rs, rest).
Proof.
  intros F Hr. assert (Stop : forall n i, gargs n i rest = Some ([], [], rest)).
  { intros n i. destruct (follow_cases _ _ Hr) as [->|(k & ts & -> & Hk)]; [by destruct n|]. cbn in Hk.
    repeat (destruct Hk as [<-|Hk]; [by destruct n|]). done. }
  induction ws as [|v ws IH]; intros w n i Hn Hi; cbn [length] in *; cbn [gargs fmap list_fmap app].
  - rewrite (proj2 (Nat.leb_gt _ _)) by lia. rewrite gredirs_show by done. cbn [mbind option_bind]. rewrite Stop. cbn. by rewrite app_nil_r.
  - rewrite (proj2 (Nat.leb_gt _ _)) by lia. cbn [gredirs mbind option_bind]. destruct n as [|n]; [lia|]. rewrite (IH v n (S i)) by lia. done.
Qed.

Lemma gsimple_show ws rs rest : (length ws < MAXARGS)%nat -> Forall redir_ok rs -> follow [124; 41; 38; 59] rest = true ->
  gsimple ((TW <$> ws) ++ (rs ≫= redir_tk) ++ rest) = Some (wrap (CExec ws) rs, rest).
Proof.
  intros Hw F Hr. unfold gsimple. destruct ws as [|w ws].
  - cbn [fmap list_fmap app]. rewrite gredirs_show by done. cbn [mbind option_bind].
    destruct (follow_cases _ _ Hr) as [->|(k & ts & -> & Hk)]; [cbn; by rewrite app_nil_r|]. cbn in Hk.
    repeat (destruct Hk as [<-|Hk]; [cbn; by rewrite app_nil_r|]). done.
  - cbn [fmap list_fmap app gredirs mbind option_bind length]. cbn [length] in Hw.
    rewrite (gargs_show ws rs rest F Hr) by (rewrite ?length_app, ?length_fmap; lia). done.
Qed.

(** A printed command is read back by each of the grammar's functions, with the fuel
    [parser_ok] asks for. *)
Definition pr (lev : nat) (c : cmd) : list tk := enclose lev c (body c).
Arguments pr : simpl never.
Definition reads_exec (c : cmd) : Prop := forall rs rest n, Forall redir_ok rs -> follow [124; 41; 38; 59] rest = true ->
  (4 * length (pr 3 c) + 2 <= n)%nat -> gexec n (pr 3 c ++ (rs ≫= redir_tk) ++ rest) = Some (wrap c rs, rest).
Definition reads_pipe (c : cmd) : Prop := forall rest n, follow [41; 38; 59] rest = true ->
  (4 * length (pr 2 c) + 3 <= n)%nat -> gpipe n (pr 2 c ++ rest) = Some (c, rest).
Definition reads_back (c : cmd) : Prop := forall rest n, follow [41; 38; 59] rest = true -> (4 * length (pr 1 c) + 3 <= n)%nat ->
  exists d ts, gpipe n (pr 1 c ++ rest) = Some (d, ts) /\ gback (length ts) d ts = gback (length rest) c rest.
Definition reads_line (c : cmd) : Prop := forall rest n, follow [41] rest = true ->
  (4 * length (body c) + 4 <= n)%nat -> gline n (body c ++ rest) = Some (c, rest).

Lemma follow_sub ks ks' ts : (forall k, In k ks -> In k ks') -> follow ks ts = true -> follow ks' ts = true.
Proof.
  intros H. destruct ts as [|[w|k] ts]; cbn; [done..|]. rewrite !existsb_exists. intros (x & Hx & E). exists x. auto.
Qed.

Ltac sub := eapply follow_sub; [|eassumption]; cbn; tauto.

Lemma gexec_simple n ts : match ts with TS k :: _ => (k =? 40) = false | _ => True end -> gexec (S n) ts = gsimple ts.
Proof. intros H. cbn [gexec]. destruct ts as [|[w|k] ts]; [done..|]. by rewrite H. Qed.

Lemma exec_of_line c : (level c < 3)%nat -> reads_line c -> reads_exec c.
Proof.
  intros Hl R rs rest n F Hr. unfold pr, enclose. rewrite (proj2 (Nat.ltb_lt _ _) Hl). cbn [length]. rewrite length_app. cbn [length]. intros Hn.
  destruct n as [|[|n]]; [lia..|]. cbn [app gexec gblock Z.eqb Pos.eqb]. rewrite <- !app_assoc. rewrite (R _ n) by (done || lia).
  cbn [mbind option_bind app Z.eqb Pos.eqb]. by rewrite gredirs_show.
Qed.

Lemma pipe_of_exec c : level c <> 2%nat -> reads_exec c -> reads_pipe c.
Proof.
  intros Hl R rest n Hr Hn. assert (E : pr 2 c = pr 3 c).
  { unfold pr, enclose. destruct c; cbn in *; done. }
  rewrite E in *. destruct n as [|n]; [lia|]. cbn [gpipe]. pose proof (R [] rest n ltac:(done) ltac:(sub) ltac:(lia)) as G. cbn [mbind list_bind app] in G.
  rewrite G. cbn [mbind option_bind wrap]. destruct (follow_cases _ _ Hr) as [->|(k & ts & -> & Hk)]; [done|]. cbn in Hk.
  repeat (destruct Hk as [<-|Hk]; [done|]). done.
Qed.

Lemma back_of_pipe c : level c <> 1%nat -> reads_pipe c -> reads_back c.
Proof.
  intros Hl R rest n Hr Hn. assert (E : pr 1 c = pr 2 c).
  { unfold pr, enclose. destruct c; cbn in *; done. }
  rewrite E in *. exists c, rest. split; [|done]. by apply R.
Qed.

Lemma line_of_back c : level c <> 0%nat -> reads_back c -> reads_line c.
Proof.
  intros Hl R rest n Hr Hn. assert (E : pr 1 c = body c).
  { unfold pr, enclose. destruct c; cbn in *; done. }
  rewrite <- E in *. destruct n as [|n]; [lia|]. destruct (R rest n ltac:(sub) ltac:(lia)) as (d & ts & G & B).
  cbn [gline]. rewrite G. cbn [mbind option_bind]. rewrite B. destruct (follow_cases _ _ Hr) as [->|(k & r & -> & Hk)]; [done|]. cbn in Hk.
  destruct Hk as [<-|[]]. done.
Qed.

Lemma reads_redir c w m d : redir_ok (w, m, d) -> reads_exec c -> reads_exec (CRedir c w m d).
Proof.
  intros Hm R rs rest n F Hr. change (pr 3 (CRedir c w m d)) with (pr 3 c ++ redir_tk (w, m, d)). rewrite length_app. intros Hn.
  rewrite <- app_assoc. rewrite (app_assoc (redir_tk _)). change (redir_tk (w, m, d) ++ (rs ≫= redir_tk)) with (((w, m, d) :: rs) ≫= redir_tk).
  apply R; [by constructor|done|lia].
Qed.

Lemma reads_exec_simple ws : (length ws < MAXARGS)%nat -> reads_exec (CExec ws).
Proof.
  intros Hw rs rest n F Hr Hn. change (pr 3 (CExec ws)) with (TW <$> ws) in *. destruct n as [|n]; [lia|].
  rewrite gexec_simple; [by apply gsimple_show|]. destruct ws as [|w ws]; [|done]. cbn [fmap list_fmap app]. destruct rs as [|[[w m] d] rs].
  - cbn. destruct (follow_cases _ _ Hr) as [->|(k & r & -> & Hk)]; [done|]. cbn in Hk. repeat (destruct Hk as [<-|Hk]; [done|]). done.
  - cbn. by destruct (m =? O_RDONLY).
Qed.

Lemma reads_cpipe l r : reads_exec l -> reads_pipe r -> reads_pipe (CPipe l r).
Proof.
  intros Rl Rr rest n Hr. change (pr 2 (CPipe l r)) with (pr 3 l ++ TS 124 :: pr 2 r). rewrite length_app. cbn [length]. intros Hn.
  destruct n as [|n]; [lia|]. cbn [gpipe]. rewrite <- app_assoc. pose proof (Rl [] ((TS 124 :: pr 2 r) ++ rest) n ltac:(done) ltac:(done) ltac:(lia)) as G.
  cbn [mbind list_bind app] in G. cbn [app]. rewrite G. cbn [mbind option_bind wrap Z.eqb Pos.eqb]. by rewrite Rr by (done || lia).
Qed.

Lemma reads_cback c : reads_back c -> reads_back (CBack c).
Proof.
  intros R rest n Hr. change (pr 1 (CBack c)) with (pr 1 c ++ [TS 38]). rewrite length_app. cbn [length]. intros Hn. rewrite <- app_assoc.
  destruct (R ([TS 38] ++ rest) n ltac:(done) ltac:(lia)) as (d & ts & G & B). exists d, ts. split; [done|]. rewrite B. done.
Qed.

Lemma reads_clist l r : reads_back l -> reads_line r -> reads_line (CList l r).
Proof.
  intros Rl Rr rest n Hr. cbn [body]. fold (pr 1 l). rewrite length_app. cbn [length]. intros Hn. destruct n as [|n]; [lia|]. cbn [gline].
  rewrite <- app_assoc. destruct (Rl ((TS 59 :: body r) ++ rest) n ltac:(done) ltac:(lia)) as (d & ts & G & B). rewrite G.
  cbn [mbind option_bind]. rewrite B. cbn [app length gback Z.eqb Pos.eqb]. by rewrite Rr by (done || lia).
Qed.

Lemma reads c : wf_cmd c = true -> reads_exec c /\ reads_pipe c /\ reads_back c /\ reads_line c.
Proof.
  induction c as [ws|c IH w m d|l IHl r IHr|l IHl r IHr|c IH]; cbn [wf_cmd].
  - intros [_ Hl%Nat.ltb_lt]%andb_prop. pose proof (reads_exec_simple ws Hl) as R.
    split_and!; auto using pipe_of_exec, back_of_pipe, line_of_back.
  - intros [[Hc _]%andb_prop Hm%bool_decide_eq_true]%andb_prop. destruct (IH Hc) as (R & _).
    assert (R' : reads_exec (CRedir c w m d)) by (apply reads_redir; [unfold redir_ok; cbn; destruct Hm as [[= -> ->]|[= -> ->]]; auto|done]).
    split_and!; auto using pipe_of_exec, back_of_pipe, line_of_back.
  - intros [Hl Hr]%andb_prop. destruct (IHl Hl) as (Re & _). destruct (IHr Hr) as (_ & Rp & _). pose proof (reads_cpipe l r Re Rp) as R.
    assert (Rl : reads_line (CPipe l r)) by auto using back_of_pipe, line_of_back.
    split_and!; auto using back_of_pipe. apply exec_of_line; [cbn; lia|done].
  - intros [Hl Hr]%andb_prop. destruct (IHl Hl) as (_ & _ & Rb & _). destruct (IHr Hr) as (_ & _ & _ & Rl). pose proof (reads_clist l r Rb Rl) as R.
    assert (Rx : reads_exec (CList l r)) by (apply exec_of_line; [cbn; lia|done]).
    split_and!; auto using pipe_of_exec, back_of_pipe.
  - intros Hc. destruct (IH Hc) as (_ & _ & Rb & _). pose proof (reads_cback c Rb) as R.
    assert (Rx : reads_exec (CBack c)) by (apply exec_of_line; [cbn; lia|auto using line_of_back]).
    split_and!; auto using pipe_of_exec, line_of_back.
Qed.

Lemma show_length ts : (length ts <= length (show ts))%nat.
Proof.
  induction ts as [|t ts IH]; [done|]. change (show (t :: ts)) with (show_tk t ++ show ts). rewrite length_app. cbn [length].
  destruct t; cbn; rewrite ?length_app; cbn; lia.
Qed.

Lemma parse_printed c : wf_cmd c = true -> parse (print c) = Some c.
Proof.
  intros Hc. unfold parse, print. rewrite lex_show by (by apply body_wf). destruct (reads c Hc) as (_ & _ & _ & R).
  pose proof (show_length (body c)). pose proof (R [] (4 * length (show (body c)) + 4)%nat eq_refl ltac:(lia)) as G. rewrite app_nil_r in G. by rewrite G.
Qed.

Lemma strlen_app l t : Forall (fun c => c <> 0) l -> strlen (l ++ 0 :: t) = Some (length l).
Proof. induction 1 as [|c l Hc F IH]; cbn; [done|]. by rewrite (proj2 (Z.eqb_neq _ _) Hc), IH. Qed.

(** *** What the grammar gives is well formed *)

Definition tk_word (t : tk) : Prop := match t with TW w => word_ok w = true | TS _ => True end.

Lemma lex_words l : Forall (fun c => c <> 0) l -> Forall tk_word (lex l).
Proof.
  remember (length l) as n eqn:En. revert l En. induction n as [n IH] using lt_wf_ind. intros l -> F. rewrite lex_trim by done.
  pose proof (trim_length l) as L. pose proof (trim_keep _ _ F) as F'. destruct (trim l) as [|c r] eqn:E; [done|].
  pose proof (trim_head _ _ _ E) as Hs. assert (Hc : c <> 0) by (by inversion F'). pose proof (lex1_length c r Hs Hc) as L1. cbn in L.
  constructor; [|eapply IH; [|reflexivity|by apply lex1_keep]; lia]. unfold lex1. destruct (c =? 62); [by repeat case_match|].
  destruct (is_symbol c) eqn:Sy; [done|]. cbn [fst tk_word]. unfold word_ok. apply andb_true_intro. split.
  - cbn [word_of]. unfold is_word. rewrite (proj2 (Z.eqb_neq _ _) Hc), Hs, Sy. done.
  - apply forallb_forall. intros x Hx. pose proof (word_of_word (c :: r)) as W. rewrite Forall_forall in W. apply W. by apply list_elem_of_In.
Qed.

Definition redir_wf (r : redir) : bool := word_ok r.1.1 && bool_decide ((r.1.2, r.2) = (O_RDONLY, 0) \/ (r.1.2, r.2) = (Z.lor O_WRONLY O_CREATE, 1)).

Lemma gredirs_wf : forall ts rs r, gredirs ts = Some (rs, r) -> Forall tk_word ts -> forallb redir_wf rs = true /\ Forall tk_word r.
Proof.
  fix IH 1. intros ts rs r. destruct ts as [|[w|k] ts]; cbn [gredirs]; [by intros [= <- <-]|by intros [= <- <-]|]. intros E F.
  destruct (is_redir k) eqn:Er; [|by injection E as <- <-]. destruct ts as [|[w|] ts]; [done| |done].
  inversion F as [|? ? _ F1]; subst. inversion F1 as [|? ? Hw F2]; subst.
  destruct (gredirs ts) as [[rs' r']|] eqn:Eg; [|done]. injection E as <- <-. destruct (IH ts rs' r' Eg F2) as [R G]. split; [|done].
  cbn [forallb]. rewrite R. cbn in Hw. unfold redir_wf, redir_to. destruct (k =? 60); cbn; by rewrite Hw.
Qed.

Lemma gargs_wf n : forall i ts ws rs r, gargs n i ts = Some (ws, rs, r) -> (i < MAXARGS)%nat -> Forall tk_word ts ->
  forallb word_ok ws = true /\ (i + length ws < MAXARGS)%nat /\ forallb redir_wf rs = true /\ Forall tk_word r.
Proof.
  induction n as [|n IH]; intros i ts ws rs r E Hi F; (destruct ts as [|[w|k] ts]; cbn [gargs] in E;
    [injection E as <- <- <-; cbn; split; [done|split; [lia|done]]| |
     destruct (existsb _ _); [|done]; injection E as <- <- <-; cbn; split; [done|split; [lia|done]]]).
  - by destruct (_ <=? _)%nat.
  - destruct (Nat.leb_spec MAXARGS (S i)); [done|]. inversion F as [|? ? Hw F1]; subst. destruct (gredirs ts) as [[rs1 r1]|] eqn:Eg; [|done].
    destruct (gredirs_wf _ _ _ Eg F1) as [R1 F2]. cbn [mbind option_bind] in E.
    destruct (gargs n (S i) r1) as [[[ws2 rs2] r2]|] eqn:E2; [|done]. injection E as <- <- <-.
    destruct (IH _ _ _ _ _ E2 ltac:(lia) F2) as (W & L & R & F3). cbn. rewrite forallb_app. cbn in Hw. rewrite Hw, W, R1, R. cbn. split; [done|].
    split; [lia|done].
Qed.

Lemma wrap_wf rs : forall c, wf_cmd c = true -> forallb redir_wf rs = true -> wf_cmd (wrap c rs) = true.
Proof.
  induction rs as [|[[w m] d] rs IH]; intros c Hc; cbn [forallb wrap]; [done|]. intros [Hr F]%andb_prop. apply IH; [|done].
  cbn [wf_cmd]. unfold redir_wf in Hr. cbn [fst snd] in Hr. apply andb_prop in Hr as [-> Hm]. by rewrite Hc, Hm.
Qed.

Lemma gback_wf n : forall c ts, wf_cmd c = true -> Forall tk_word ts -> wf_cmd (gback n c ts).1 = true /\ Forall tk_word (gback n c ts).2.
Proof.
  induction n as [|n IH]; intros c ts Hc F; [done|]. destruct ts as [|[w|k] ts]; [done..|]. cbn [gback]. destruct (k =? 38); [|done].
  apply IH; [done|by inversion F].
Qed.

Lemma gsimple_wf ts c r : gsimple ts = Some (c, r) -> Forall tk_word ts -> wf_cmd c = true /\ Forall tk_word r.
Proof.
  unfold gsimple. intros E F. destruct (gredirs ts) as [[rs1 r1]|] eqn:Eg; [|done]. destruct (gredirs_wf _ _ _ Eg F) as [R1 F1]. cbn [mbind option_bind] in E.
  destruct (gargs _ 0 r1) as [[[ws rs2] r2]|] eqn:E2; [|done]. injection E as <- <-.
  destruct (gargs_wf _ _ _ _ _ _ E2 ltac:(unfold MAXARGS; lia) F1) as (W & L & R2 & F2). split; [|done].
  apply wrap_wf; [cbn [wf_cmd]; rewrite W; by apply Nat.ltb_lt|]. by rewrite forallb_app, R1, R2.
Qed.

Definition yields_wf (g : list tk -> option (cmd * list tk)) : Prop := forall ts c r, g ts = Some (c, r) -> Forall tk_word ts -> wf_cmd c = true /\ Forall tk_word r.

Lemma grammar_wf n : yields_wf (gline n) /\ yields_wf (gpipe n) /\ yields_wf (gexec n) /\ yields_wf (gblock n).
Proof.
  induction n as [|n (IHl & IHp & IHe & IHb)]; [by repeat split|]. split_and!; intros ts c r E F.
  - cbn [gline] in E. destruct (gpipe n ts) as [[c1 r1]|] eqn:E1; [|done]. destruct (IHp _ _ _ E1 F) as [W1 F1]. cbn [mbind option_bind] in E.
    destruct (gback_wf (length r1) c1 r1 W1 F1) as [W2 F2]. destruct (gback (length r1) c1 r1) as [c2 r2]. cbn [fst snd] in *.
    destruct r2 as [|[w|k] r2]; [by injection E as <- <-..|]. destruct (k =? 59); [|by injection E as <- <-].
    destruct (gline n r2) as [[d r3]|] eqn:E3; [|done]. injection E as <- <-. inversion F2 as [|? ? _ F3]; subst.
    destruct (IHl _ _ _ E3 F3) as [W3 F4]. cbn. by rewrite W2, W3.
  - cbn [gpipe] in E. destruct (gexec n ts) as [[c2 r2]|] eqn:E1; [|done]. destruct (IHe _ _ _ E1 F) as [W2 F2]. cbn [mbind option_bind] in E.
    destruct r2 as [|[w|k] r2]; [by injection E as <- <-..|]. destruct (k =? 124); [|by injection E as <- <-].
    destruct (gpipe n r2) as [[d r3]|] eqn:E3; [|done]. injection E as <- <-. inversion F2 as [|? ? _ F3]; subst.
    destruct (IHp _ _ _ E3 F3) as [W3 F4]. cbn. by rewrite W2, W3.
  - cbn [gexec] in E. destruct ts as [|[w|k] ts]; [by apply (gsimple_wf _ _ _ E F)..|]. destruct (k =? 40); [|by apply (gsimple_wf _ _ _ E F)].
    apply (IHb _ _ _ E). by inversion F.
  - cbn [gblock] in E. destruct (gline n ts) as [[c1 r1]|] eqn:E1; [|done]. destruct (IHl _ _ _ E1 F) as [W1 F1]. cbn [mbind option_bind] in E.
    destruct r1 as [|[w|k] r1]; [done..|]. destruct (k =? 41); [|done]. destruct (gredirs r1) as [[rs r2]|] eqn:E2; [|done]. injection E as <- <-.
    inversion F1 as [|? ? _ F2]; subst. destruct (gredirs_wf _ _ _ E2 F2) as [R F3]. split; [by apply wrap_wf|done].
Qed.

Lemma parse_wf l c : Forall (fun x => x <> 0) l -> parse l = Some c -> wf_cmd c = true.
Proof.
  intros F. unfold parse. destruct (gline _ _) as [[d [|]]|] eqn:E; [|done..]. intros [= <-].
  by apply (proj1 (grammar_wf _) _ _ _ E), lex_words.
Qed.

(** C16: The shell's parser is type safe and refines its grammar.  On every line that
    holds a NUL, [parsecmd] reads and writes only inside the line and its own nodes
    and ends.  Either the text is not in the grammar and it panics, or it returns the
    root of a tree of nodes that stands for the command of the grammar: node types
    and pointers agree, every argv array is closed by a null pointer, every argument
    and file name is a string that ends with the NUL the parser has put into the
    line, and the command is well formed.  Nodes allocated before are kept. *)
Theorem parsecmd_typed b es h : strlen b = Some es ->
  match parse (take es b) with
  | Some c => wf_cmd c = true /\ exists k b' h', parsecmd (Sst b h) = Done k (Sst b' h') /\ length b' = length b /\ keeps h h' /\ rep (cstr b') h' k c
  | None => exists m, parsecmd (Sst b h) = Panic m
  end.
Proof.
  intros H. pose proof (parsecmd_ok b es h H) as P. pose proof (parse_wf (take es b)) as W.
  destruct (parse (take es b)) as [c|]; [|done]. split; [|done]. apply W; [|done]. by apply (strlen_line _ _ H).
Qed.

(** C33: Round trip of the shell's syntax: a well-formed command, printed with
    parentheses where the grammar needs them and a space behind every token, is read
    back by [parsecmd] as that command, whatever follows the text's NUL in the line. *)
Theorem parsecmd_print c t h : wf_cmd c = true ->
  exists k b' h', parsecmd (Sst (print c ++ 0 :: t) h) = Done k (Sst b' h') /\ rep (cstr b') h' k c.
Proof.
  intros Hc. pose proof (show_nz _ (body_wf c Hc)) as Z. pose proof (strlen_app _ t Z) as L. pose proof (parsecmd_ok _ _ h L) as P.
  rewrite take_app_length in P. fold (print c) in P. rewrite (parse_printed c Hc) in P.
  destruct P as (k & b' & h' & E & _ & _ & R). by exists k, b', h'.
Qed.

(** [ls /bin | (grep a > f; b) &] *)
Definition sample : cmd :=
  CBack (CPipe (CExec [[108; 115]; [47; 98; 105; 110]])
    (CList (CRedir (CExec [[103; 114; 101; 112]; [97]]) [102] 513 1) (CExec [[98]]))).

Lemma parsecmd_print_witness : wf_cmd sample = true /\
  exists k b' h', parsecmd (Sst (print sample ++ [0]) []) = Done k (Sst b' h') /\ rep (cstr b') h' k sample.
Proof. split; [done|]. apply (parsecmd_print sample [] []). done. Defined.

(** [a>>b;c] and a line without a closing parenthesis. *)
Lemma parsecmd_typed_witness :
  (exists k b' h', parsecmd (Sst [97; 62; 62; 98; 59; 99; 10; 0] []) = Done k (Sst b' h') /\ length b' = 8%nat /\ keeps [] h' /\
    rep (cstr b') h' k (CList (CRedir (CExec [[97]]) [98] 513 1) (CExec [[99]]))) /\
  exists m, parsecmd (Sst [40; 97; 10; 0] []) = Panic m.
Proof.
  split.
  - assert (E : parse (take 7 [97; 62; 62; 98; 59; 99; 10; 0]) = Some (CList (CRedir (CExec [[97]]) [98] 513 1) (CExec [[99]]))) by (vm_compute; reflexivity).
    pose proof (parsecmd_typed [97; 62; 62; 98; 59; 99; 10; 0] 7 [] eq_refl) as P. rewrite E in P. exact (proj2 P).
  - assert (E : parse (take 3 [40; 97; 10; 0]) = None) by (vm_compute; reflexivity).
    pose proof (parsecmd_typed [40; 97; 10; 0] 3 [] eq_refl) as P. rewrite E in P. exact P.
Defined.

End ShOk.
