(* ===== verification/ShRun.v ===== *)
(** * How the shell connects the programs it runs

    The processes a command makes, each with its descriptor table: [fork] copies the
    table, [open], [dup] and [pipe] take the lowest free descriptors, [close] frees
    one, as kernel/sysfile.c does it.  The programs of a pipeline hold exactly the
    ends of the pipes that are theirs. *)

From Stdlib Require Import List.
From S2P Require Import Prelude Digits User Sh ShOk.

Import User Sh ShOk.

Module ShRun.

(** What a descriptor refers to: a file the shell was given, one that was opened, or
    an end of a pipe, named by the process that made it. *)
Inductive file := Given (n : nat) | Opened (path : list Z) (mode : Z) | PipeR (id : list nat) | PipeW (id : list nat).

Definition table : Type := list (option file).
Definition NOFILE : nat := 16.

(** The lowest free descriptor. *)
Fixpoint lowest (t : table) : nat := match t with None :: _ => O | _ :: t' => S (lowest t') | [] => O end.
Definition full (t : table) : bool := forallb (fun x : option file => match x with None => false | Some _ => true end) t.
Definition fd_put (f : file) (t : table) : table := <[lowest t := Some f]> t.

(** The programs that are run, in the order of the shell's forks, each with its
    arguments and its table.  [opens] says which files can be opened; a program that
    is executed does not return to the shell. *)
Fixpoint procs (opens : list Z -> Z -> bool) {A} (p : prog A) (t : table) (id : list nat) : list (list Z * list (list Z) * table) :=
  match p with
  | Call SysFork k => procs opens (k 0 []) t (id ++ [0%nat]) ++ procs opens (k 1 []) t (id ++ [1%nat])
  | Call SysPipe k =>
      let r := lowest t in
      let t1 := fd_put (PipeR id) t in
      let w := lowest t1 in
      if full t || full t1 then procs opens (k (-1) []) t id
      else procs opens (k 0 [Z.of_nat r; Z.of_nat w]) (fd_put (PipeW id) t1) id
  | Call (SysClose fd) k => procs opens (k 0 []) (<[Z.to_nat fd := None]> t) id
  | Call (SysDup fd) k =>
      match t !! Z.to_nat fd with
      | Some (Some f) => if full t then procs opens (k (-1) []) t id else procs opens (k (Z.of_nat (lowest t)) []) (fd_put f t) id
      | _ => procs opens (k (-1) []) t id
      end
  | Call (SysOpen path mode) k =>
      if opens path mode && negb (full t) then procs opens (k (Z.of_nat (lowest t)) []) (fd_put (Opened path mode) t) id
      else procs opens (k (-1) []) t id
  | Call (SysExec path argv) k => [(path, argv, t)]
  | Call _ k => procs opens (k 0 []) t id
  | Ret _ | Exit | Crash _ | Spin => []
  end.

(** Standard input, output and error output, and nothing else. *)
Definition std (i o e : file) : table := [Some i; Some o; Some e] ++ replicate (NOFILE - 3) None.

(** What a command means.  A name that can be opened where the shell is is run as it
    is; any other one is looked for in /bin. *)
Fixpoint meant (opens : list Z -> Z -> bool) (e : file) (c : cmd) (i o : file) (id : list nat) : list (list Z * list (list Z) * table) :=
  match c with
  | CExec [] => []
  | CExec (w :: ws) =>
      if opens w O_RDONLY then [(w, w :: ws, [None; Some o; Some e; Some (Opened w O_RDONLY)] ++ replicate (NOFILE - 4) None)]
      else [(Digits.text "/bin/" ++ w, w :: ws, std i o e)]
  | CRedir c w m d =>
      if opens w m then
        if d =? 0 then meant opens e c (Opened w m) o id else meant opens e c i (Opened w m) id
      else []
  | CPipe l r => meant opens e l i (PipeW id) (id ++ [0%nat]) ++ meant opens e r (PipeR id) o (id ++ [1%nat; 0%nat])
  | CList l r => meant opens e l i o (id ++ [0%nat]) ++ meant opens e r i o (id ++ [1%nat])
  | CBack c => meant opens e c i o (id ++ [0%nat])
  end.

Section Run.
Context (opens : list Z -> Z -> bool).

(** A program that only writes. *)
Inductive quiet {A} : prog A -> Prop :=
  | quiet_ret a : quiet (Ret a)
  | quiet_crash y : quiet (Crash y)
  | quiet_write fd d k : (forall r x, quiet (k r x)) -> quiet (Call (SysWrite fd d) k).

Lemma quiet_bind {A B} (p : prog A) (f : A -> prog B) : quiet p -> (forall a, quiet (f a)) -> quiet (pbind p f).
Proof. intros Q F. induction Q; cbn; [apply F|constructor|constructor; auto]. Qed.

Lemma quiet_put_all fd l : quiet (put_all fd l).
Proof. induction l as [|c l IH]; cbn; [constructor|]. constructor. intros _ _. exact IH. Qed.

Lemma quiet_printint fd x base sgn : quiet (printint fd x base sgn).
Proof. unfold printint. repeat case_match; first [apply quiet_put_all|constructor]. Qed.

Lemma quiet_printf fd fmt : forall pct ap, quiet (printf_loop fd fmt pct ap).
Proof.
  assert (P : forall c, quiet (putc fd c)) by (intros c; constructor; constructor).
  induction fmt as [|c fmt IH]; intros pct ap; cbn [printf_loop]; [constructor|].
  repeat case_match; repeat (apply quiet_bind; [|intros _]); auto using quiet_put_all, quiet_printint; constructor.
Qed.

Lemma procs_quiet {A} (p : prog A) t id : quiet p -> procs opens (p ;* Exit (A := unit)) t id = [].
Proof. intros Q. induction Q as [| |fd d k Q IH]; cbn; [done..|]. apply IH. Qed.

(** The strings of the line. *)
Lemma cstr_string b q e w : cstr b q e w -> cstring b q = Some w.
Proof.
  intros (Nw & Fw & Tw & -> & Hz). unfold cstring.
  assert (E : drop q b = w ++ 0 :: drop (S (q + length w)) b).
  { rewrite <- (take_drop (length w) (drop q b)), Tw, drop_drop. f_equal. by rewrite (drop_S _ _ _ Hz). }
  rewrite E, strlen_app; [|].
  - cbn [mbind option_bind]. by rewrite take_app_length.
  - eapply Forall_impl; [exact Fw|]. intros c Hc. by apply word_char.
Qed.

Lemma args_strings b a e ws : args (cstr b) a e ws -> argv_strings b a = Some ws.
Proof.
  intros (sp & F & L & -> & _). destruct (MAXARGS - length sp)%nat as [|n] eqn:En; [lia|]. clear L En.
  induction F as [|[q f] w sp ws Hw F IH]; [done|]. cbn [fmap list_fmap app argv_strings fst snd] in *.
  rewrite (cstr_string _ _ _ _ Hw), IH. done.
Qed.

Lemma cstr_short b q e w : cstr b q e w -> (length w < length b)%nat.
Proof. intros (_ & _ & _ & -> & Hz). apply lookup_lt_Some in Hz. lia. Qed.

Lemma run_exec_ok i o e w ws id : (length w < 512)%nat ->
  procs opens (run_exec (w :: ws)) (std i o e) id = meant opens e (CExec (w :: ws)) i o id.
Proof.
  intros Hw. unfold run_exec. rewrite (proj2 (Nat.leb_gt _ _) Hw). cbn [meant pbind ask procs]. cbn [full std app forallb andb negb].
  rewrite andb_true_r. destruct (opens w O_RDONLY); done.
Qed.

Lemma runcmd_ok b h e c : (length b <= 512)%nat -> wf_cmd c = true -> forall f k i o id, rep (cstr b) h k c -> (k < f)%nat ->
  procs opens (runcmd f (Sst b h) k) (std i o e) id = meant opens e c i o id.
Proof.
  intros Hb. induction c as [ws|c IH w m d|l IHl r IHr|l IHl r IHr|c IH]; cbn [wf_cmd rep]; intros Hc [|f] k i o id R Hk; try lia; cbn [runcmd].
  - destruct R as (a & g & Hn & Ha). cbn [heap buf]. rewrite Hn, (args_strings _ _ _ _ Ha). destruct ws as [|w ws]; [done|].
    apply run_exec_ok. destruct Ha as (sp & F & _). inversion F as [|x ? ? ? Hw]; subst. apply cstr_short in Hw. lia.
  - apply andb_prop in Hc as [[Hc _]%andb_prop Hm%bool_decide_eq_true]. destruct R as (k' & q & g & Hn & Hw & Hl & R).
    cbn [heap buf]. rewrite Hn, (cstr_string _ _ _ _ Hw). cbn [pbind ask procs meant].
    destruct (opens w m); [|apply procs_quiet, quiet_printf].
    destruct Hm as [[= -> ->]|[= -> ->]]; cbn [andb negb full forallb Z.to_nat std app Z.eqb]; apply (IH Hc f k' _ _ id R); lia.
  - apply andb_prop in Hc as [Hl Hr]. destruct R as (x & y & Hn & Hx & Hy & Rl & Rr). cbn [heap buf]. rewrite Hn.
    cbn [meant]. rewrite <- (IHl Hl f x i (PipeW id) (id ++ [0%nat]) Rl), <- (IHr Hr f y (PipeR id) o (id ++ [1%nat; 0%nat]) Rr) by lia.
    change (id ++ [1%nat; 0%nat]) with (id ++ [1%nat] ++ [0%nat]). rewrite app_assoc.
    transitivity (procs opens (runcmd f (Sst b h) x) (std i (PipeW id) e) (id ++ [0%nat]) ++
      procs opens (runcmd f (Sst b h) y) (std (PipeR id) o e) ((id ++ [1%nat]) ++ [0%nat]) ++ []); [reflexivity|]. by rewrite app_nil_r.
  - apply andb_prop in Hc as [Hl Hr]. destruct R as (x & y & Hn & Hx & Hy & Rl & Rr). cbn [heap buf]. rewrite Hn.
    cbn [pbind ask procs meant fork1]. f_equal; [apply (IHl Hl f x _ _ _ Rl); lia|]. apply (IHr Hr f y _ _ _ Rr); lia.
  - destruct R as (x & Hn & Hx & R). cbn [heap buf]. rewrite Hn. cbn [pbind ask procs meant fork1]. rewrite app_nil_r. apply (IH Hc f x _ _ _ R); lia.
Qed.

End Run.

(** C17: The shell runs what the line says, connected as it says.  For every line of up to
    512 bytes that is in the grammar, the processes that the parsed command makes run
    exactly the programs of the line.  Each has the error output of the shell; the
    neighbours of a pipeline hold the two ends of its pipe as output and input, and a
    redirected program the file; and no process that runs a program holds any other
    end of a pipe.  A program whose name can be opened where the shell is started
    without standard input, with one more descriptor on the program's file.  [procs]
    takes every fork and every exec to succeed; open, dup and pipe can fail. *)
Theorem shell_connects opens b es c i o e id : strlen b = Some es -> (length b <= 512)%nat -> parse (take es b) = Some c ->
  exists k s, parsecmd (Sst b []) = Done k s /\ procs opens (runcmd (S k) s k) (std i o e) id = meant opens e c i o id.
Proof.
  intros H Hb Hp. pose proof (parsecmd_ok b es [] H) as P. rewrite Hp in P. destruct P as (k & b' & h' & E & L & _ & R).
  exists k, (Sst b' h'). split; [done|]. apply runcmd_ok; [lia| |done|lia].
  apply (parse_wf (take es b)); [|done]. by apply (strlen_line _ _ H).
Qed.

(** [cat<f|/wc], where [f] and [/wc] can be opened. *)
Definition sample_line : list Z := Digits.text "cat<f|/wc" ++ [10; 0].
Definition sample_opens (path : list Z) (mode : Z) : bool := bool_decide (path = [102]) || bool_decide (path = Digits.text "/wc").

Lemma shell_connects_witness : exists k s, parsecmd (Sst sample_line []) = Done k s /\
  procs sample_opens (runcmd (S k) s k) (std (Given 0) (Given 1) (Given 2)) [] =
    [(Digits.text "/bin/cat", [Digits.text "cat"], std (Opened [102] 0) (PipeW []) (Given 2));
     (Digits.text "/wc", [Digits.text "/wc"], [None; Some (Given 1); Some (Given 2); Some (Opened (Digits.text "/wc") 0)] ++ replicate 12 None)].
Proof.
  assert (E : parse (take 10 sample_line) = Some (CPipe (CRedir (CExec [Digits.text "cat"]) [102] 0 0) (CExec [Digits.text "/wc"]))) by (vm_compute; reflexivity).
  destruct (shell_connects sample_opens sample_line 10 _ (Given 0) (Given 1) (Given 2) [] eq_refl (ltac:(vm_compute; lia)) E) as (k & s & P & R).
  exists k, s. split; [exact P|]. rewrite R. vm_compute. reflexivity.
Defined.

End ShRun.
