(* ===== verification/Apps.v ===== *)
(** * Small user programs (apps)

    [cat], [echo], [wc], [ls], [mkdir], [rm], [ln], [kill], [init] and [zombie] as trees
    of system calls.  Loops that the kernel's answers end have a number of rounds;
    the theorems show how many are enough.

    [cat] copies its files whatever pieces they are read in, and [wc] counts their
    lines, words and bytes. *)

From Stdlib Require Import List.
From S2P Require Import Prelude KString CStdlib Digits User.

Import Digits User.

Module Apps.

(** [exit()] *)
Definition stop : prog unit := Exit.

(** ** cat.c *)

(** [while ((n = read(fd, buf, sizeof(buf))) > 0)], at most [n] times. *)
Fixpoint cat (n : nat) (fd : Z) : prog unit :=
  match n with
  | O => Spin
  | S n' =>
      Call (SysRead fd 512) (fun r d =>
        if 0 <? r then ask (SysWrite 1 d) ;* cat n' fd
        else if r <? 0 then printf 1 (line "cat: read error") [] ;* Exit
        else Ret tt)
  end.

(** The loop over the files, shared in form by [cat], [wc] and [grep]: [name] is the
    program's. *)
Fixpoint each_file (name : list Z) (job : Z -> list Z -> prog unit) (files : list (list Z)) : prog unit :=
  match files with
  | [] => Exit
  | f :: files' =>
      let* fd := ask (SysOpen f 0) in
      if fd <? 0 then printf 1 (name ++ line ": cannot open %s") [AStr (Some f)] ;* Exit
      else job fd f ;* ask (SysClose fd) ;* each_file name job files'
  end.

(** [argv] without the name of the program. *)
Definition cat_main (n : nat) (args : list (list Z)) : prog unit :=
  match args with
  | [] => cat n 0 ;* Exit
  | _ => each_file (text "cat") (fun fd _ => cat n fd) args
  end.

(** ** wc.c *)

Record counts := Counts { wl : Z; ww : Z; wch : Z; inword : bool }.

(** [strchr] finds the NUL of the set as well. *)
Definition wc_space (c : Z) : bool := existsb (Z.eqb c) [32; 13; 9; 10; 11; 0].

(** One turn of the loop over the bytes. *)
Definition wc_byte (s : counts) (b : Z) : counts :=
  let c := wch s + 1 in
  let l := if b =? 10 then wl s + 1 else wl s in
  if wc_space b then Counts l (ww s) c false
  else if negb (inword s) then Counts l (ww s + 1) c true
  else Counts l (ww s) c (inword s).

Fixpoint wc_loop (n : nat) (fd : Z) (s : counts) : prog counts :=
  match n with
  | O => Spin
  | S n' =>
      Call (SysRead fd 512) (fun r d =>
        if 0 <? r then wc_loop n' fd (foldl wc_byte s d)
        else if r <? 0 then printf 1 (line "wc: read error") [] ;* Exit
        else Ret s)
  end.

Definition wc (n : nat) (fd : Z) (name : list Z) : prog unit :=
  let* s := wc_loop n fd (Counts 0 0 0 false) in
  printf 1 (line "%d %d %d %s") [AInt (wl s); AInt (ww s); AInt (wch s); AStr (Some name)].

Definition wc_main (n : nat) (args : list (list Z)) : prog unit :=
  match args with
  | [] => wc n 0 [] ;* Exit
  | _ => each_file (text "wc") (fun fd f => wc n fd f) args
  end.

(** ** echo.c *)

Fixpoint echo (args : list (list Z)) : prog unit :=
  match args with
  | [] => Exit
  | a :: args' =>
      printf 1 (text "%s%s") [AStr (Some a); AStr (Some (match args' with [] => [10] | _ => [32] end))] ;* echo args'
  end.

(** ** ls.c *)

Definition DIRSIZ : nat := 14.

(** The bytes behind the last slash. *)
Fixpoint last_part (path : list Z) : list Z :=
  match path with
  | [] => []
  | c :: path' => if existsb (Z.eqb 47) path' then last_part path' else if c =? 47 then path' else path
  end.

Definition fmtname (path : list Z) : list Z :=
  let p := last_part path in
  if (DIRSIZ <=? length p)%nat then p else p ++ replicate (DIRSIZ - length p) 32.

(** [struct stat]: type, inode number and size. *)
Definition st_type (st : list Z) : Z := s16 (get16 st 0).
Definition st_ino (st : list Z) : Z := get32 st 8.
Definition st_size (st : list Z) : Z := get32 st 16.

Definition ls_line (path st : list Z) : prog unit :=
  printf 1 (line "%s %d %d %d") [AStr (Some (fmtname path)); AInt (st_type st); AInt (st_ino st); AInt (st_size st)].

Fixpoint upto_nul (l : list Z) : list Z := match l with c :: l' => if c =? 0 then [] else c :: upto_nul l' | [] => [] end.

(** [while (read(fd, &de, sizeof(de)) == sizeof(de))]; [path] ends with a slash. *)
Fixpoint ls_loop (n : nat) (fd : Z) (path : list Z) : prog unit :=
  match n with
  | O => Spin
  | S n' =>
      Call (SysRead fd 16) (fun r de =>
        if negb (r =? 16) then Ret tt
        else if get16 de 0 =? 0 then ls_loop n' fd path
        else
          let buf := path ++ upto_nul (take DIRSIZ (drop 2 de)) in
          let* st := stat buf in
          (if st.1 <? 0 then printf 1 (line "ls: cannot stat %s") [AStr (Some buf)] else ls_line buf st.2) ;*
          ls_loop n' fd path)
  end.

Definition ls (n : nat) (path : list Z) : prog unit :=
  let* fd := ask (SysOpen path 0) in
  if fd <? 0 then printf 2 (line "ls: cannot open %s") [AStr (Some path)]
  else
    Call (SysFstat fd) (fun r st =>
      if r <? 0 then printf 2 (line "ls: cannot stat %s") [AStr (Some path)] ;* ask (SysClose fd) ;* Ret tt
      else
        (if st_type st =? 2 then ls_line path st
         else if st_type st =? 1 then
           if (512 <? length path + 1 + DIRSIZ + 1)%nat then printf 1 (line "ls: path too long") []
           else ls_loop n fd (path ++ [47])
         else Ret tt) ;*
        ask (SysClose fd) ;* Ret tt).

Fixpoint ls_each (n : nat) (args : list (list Z)) : prog unit :=
  match args with [] => Exit | a :: args' => ls n a ;* ls_each n args' end.

Definition ls_main (n : nat) (args : list (list Z)) : prog unit :=
  match args with [] => ls n [46] ;* Exit | _ => ls_each n args end.

(** ** mkdir.c, rm.c, ln.c, kill.c *)

Fixpoint mkdir_loop (args : list (list Z)) : prog unit :=
  match args with
  | [] => Exit
  | a :: args' =>
      let* r := ask (SysMkdir a) in
      if r <? 0 then printf 2 (line "mkdir: %s failed to create") [AStr (Some a)] ;* Exit else mkdir_loop args'
  end.

Definition mkdir_main (args : list (list Z)) : prog unit :=
  match args with [] => printf 2 (line "Usage: mkdir files...") [] ;* Exit | _ => mkdir_loop args end.

Fixpoint rm_loop (args : list (list Z)) : prog unit :=
  match args with
  | [] => Exit
  | a :: args' =>
      let* r := ask (SysUnlink a) in
      if r <? 0 then printf 2 (line "rm: %s failed to delete") [AStr (Some a)] ;* Exit else rm_loop args'
  end.

Definition rm_main (args : list (list Z)) : prog unit :=
  match args with [] => printf 2 (line "Usage: rm files...") [] ;* Exit | _ => rm_loop args end.

Definition ln_main (args : list (list Z)) : prog unit :=
  match args with
  | [old; new] =>
      let* r := ask (SysLink old new) in
      (if r <? 0 then printf 2 (line "link %s %s: failed") [AStr (Some old); AStr (Some new)] else Ret tt) ;* Exit
  | _ => printf 2 (line "Usage: ln old new") [] ;* Exit
  end.

(** A string as memory, at address 0. *)
Definition at_zero (s : list Z) : mem := fun a => if (0 <=? a) then s !!! Z.to_nat a else 0.

(** [argc] is at least 1, so the test for it never prints the usage. *)
Fixpoint kill_main (args : list (list Z)) : prog unit :=
  match args with
  | [] => Exit
  | a :: args' =>
      match CStdlib.atoi (S (length a)) (at_zero a) 0 with
      | Some pid => ask (SysKill pid) ;* kill_main args'
      | None => Crash "atoi"
      end
  end.

(** ** init.c, zombie.c *)

(** [while ((wpid = wait()) >= 0 && wpid != pid)] *)
Fixpoint init_wait (n : nat) (pid : Z) : prog unit :=
  match n with
  | O => Spin
  | S n' =>
      let* wpid := ask SysWait in
      if (0 <=? wpid) && negb (wpid =? pid) then printf 1 (line "zombie!") [] ;* init_wait n' pid else Ret tt
  end.

Definition init_argv : list (list Z) := [text "sh"].
Definition init_envp : list (list Z) := [text "PATH=/bin:"; text "USER=lain"].

Fixpoint init_loop (n : nat) : prog unit :=
  match n with
  | O => Spin
  | S n' =>
      printf 1 (line "init: starting sh") [] ;*
      let* pid := ask SysFork in
      if pid <? 0 then printf 1 (line "init: fork failed") [] ;* Exit
      else if pid =? 0 then
        ask (SysExecve (text "sh") init_argv init_envp) ;* printf 1 (line "init: exec sh failed") [] ;* Exit
      else init_wait n pid ;* init_loop n'
  end.

Definition init_main (n : nat) : prog unit :=
  let* r := ask (SysOpen (text "/dev/console") 2) in
  (if r <? 0 then
     ask (SysMknod (text "/dev/console") 1 1) ;* ask (SysOpen (text "/dev/console") 2) ;* Ret tt
   else Ret tt) ;*
  ask (SysDup 0) ;* ask (SysDup 0) ;*
  init_loop n.

Definition zombie_main : prog unit :=
  let* r := ask SysFork in
  (if 0 <? r then ask (SysSleep 5) ;* Ret tt else Ret tt) ;* Exit.

(** ** Files that are read in pieces *)

(** The pieces that reads of a descriptor will give, the files by name, and what was
    written to the standard output and error output. *)
Record world := World { fds : Z -> option (list (list Z)); fs : list Z -> option (list (list Z)); out : list Z; err : list Z }.

(** A descriptor for a new file. *)
Definition fresh : Z := 3.

Definition set_fd (w : world) (fd : Z) (x : option (list (list Z))) : world :=
  World (fun k => if k =? fd then x else fds w k) (fs w) (out w) (err w).

(** A piece longer than the buffer is given in parts.  One file is open at a time. *)
Definition kernel (w : world) (c : call) : Z * list Z * world :=
  match c with
  | SysRead fd n =>
      match fds w fd with
      | Some (p :: ps) =>
          let d := take (Z.to_nat n) p in
          let rest := drop (Z.to_nat n) p in
          (Z.of_nat (length d), d, set_fd w fd (Some (if bool_decide (rest = []) then ps else rest :: ps)))
      | Some [] => (0, [], w)
      | None => (-1, [], w)
      end
  | SysWrite fd d =>
      let n := Z.of_nat (length d) in
      if fd =? 1 then (n, [], World (fds w) (fs w) (out w ++ d) (err w))
      else if fd =? 2 then (n, [], World (fds w) (fs w) (out w) (err w ++ d))
      else (-1, [], w)
  | SysOpen path _ => match fs w path with Some ps => (fresh, [], set_fd w fresh (Some ps)) | None => (-1, [], w) end
  | SysClose fd => (0, [], set_fd w fd None)
  | _ => (-1, [], w)
  end.

Definition print_out (d : list Z) (w : world) : world := World (fds w) (fs w) (out w ++ d) (err w).

#[export] Instance kernel_writes : Writes kernel 1 print_out.
Proof.
  split; intros; unfold print_out; cbn.
  - by eexists.
  - by rewrite app_assoc.
  - rewrite app_nil_r. by destruct w.
Qed.

(** Pieces are not empty. *)
Definition pieces (ps : list (list Z)) : Prop := Forall (fun p => p <> []) ps.

Lemma read_piece w fd p ps : fds w fd = Some (p :: ps) -> pieces (p :: ps) -> exists d ps' w',
  kernel w (SysRead fd 512) = (Z.of_nat (length d), d, w') /\ d <> [] /\ d ++ concat ps' = concat (p :: ps) /\ pieces ps' /\
  fds w' fd = Some ps' /\ fs w' = fs w /\ out w' = out w /\ err w' = err w.
Proof.
  intros Hf Hp. inversion Hp as [|? ? Np Hps]; subst. set (d := take 512 p). set (rest := drop 512 p).
  exists d, (if bool_decide (rest = []) then ps else rest :: ps). eexists. unfold kernel. rewrite Hf. change (Z.to_nat 512) with 512%nat. cbv zeta.
  fold d rest. split; [done|]. split; [by destruct p|]. assert (E : d ++ rest = p) by apply take_drop.
  cbn [fds fs out err set_fd]. rewrite Z.eqb_refl. case_bool_decide as Er.
  - split_and!; try done. cbn. by rewrite <- E, Er, app_nil_r.
  - split_and!; try done; [cbn; by rewrite app_assoc, E|by constructor].
Qed.

Lemma read_end w fd : fds w fd = Some [] -> kernel w (SysRead fd 512) = (0, [], w).
Proof. intros E. cbn. by rewrite E. Qed.

Lemma cat_ok n : forall w fd ps, fds w fd = Some ps -> pieces ps -> (length (concat ps) < n)%nat ->
  exists w', run kernel (cat n fd) w = Value tt w' /\ out w' = out w ++ concat ps /\ fs w' = fs w /\ err w' = err w.
Proof.
  induction n as [|n IH]; intros w fd ps Hf Hp Hn; [lia|]. cbn [cat run]. destruct ps as [|p ps].
  - rewrite (read_end w fd Hf). exists w. cbn. by rewrite app_nil_r.
  - destruct (read_piece w fd p ps Hf Hp) as (d & ps' & w1 & -> & Nd & E & Hp' & F1 & S1 & O1 & R1).
    assert (0 < length d)%nat by (destruct d; [done|cbn; lia]). rewrite (proj2 (Z.ltb_lt 0 _)) by lia.
    rewrite (run_value kernel (ask (SysWrite 1 d)) _ w1 (Z.of_nat (length d)) (print_out d w1) eq_refl).
    destruct (IH (print_out d w1) fd ps') as (w' & Er & O & S & R); [done|done| |].
    { rewrite <- E, length_app in Hn. lia. }
    exists w'. split; [done|]. rewrite O, S, R. cbn [print_out out fs err]. rewrite O1, S1, R1, <- app_assoc, E. done.
Qed.

(** The files of a list of names, one after the other. *)
Definition contents (w : world) (files : list (list Z)) : option (list (list Z)) := mapM (fun f => (fun ps => concat ps) <$> fs w f) files.

Lemma each_file_ok name job (result : list Z -> list Z -> list Z) (ok : list (list Z) -> Prop) files :
  (forall w fd f ps, fds w fd = Some ps -> ok ps ->
    exists w', run kernel (job fd f) w = Value tt w' /\ out w' = out w ++ result f (concat ps) /\ fs w' = fs w /\ err w' = err w) ->
  forall w ds, contents w files = Some ds -> (forall f ps, f ∈ files -> fs w f = Some ps -> ok ps) ->
    exists w', run kernel (each_file name job files) w = Exited w' /\ out w' = out w ++ concat (zip_with result files ds) /\ err w' = err w.
Proof.
  intros Hjob. induction files as [|f files IH]; intros w ds Hd Hok; cbn in Hd.
  - injection Hd as <-. exists w. cbn. by rewrite app_nil_r.
  - destruct (fs w f) as [ps|] eqn:Ef; [|done]. cbn in Hd. fold (contents w files) in Hd. destruct (contents w files) as [ds'|] eqn:Ed; [|done].
    injection Hd as <-. cbn [each_file].
    rewrite (run_value kernel (ask (SysOpen f 0)) _ w fresh (set_fd w fresh (Some ps))) by (cbn; by rewrite Ef). cbn [fresh Z.ltb Z.compare].
    destruct (Hjob (set_fd w fresh (Some ps)) fresh f ps) as (w1 & E1 & O1 & S1 & R1); [done|by apply (Hok f); [left|]|].
    rewrite (run_value kernel _ _ _ _ _ E1). rewrite (run_value kernel (ask (SysClose fresh)) _ w1 0 (set_fd w1 fresh None) eq_refl).
    destruct (IH (set_fd w1 fresh None) ds') as (w' & E & O & R).
    { unfold contents in *. cbn [fs set_fd]. by rewrite S1. }
    { cbn [fs set_fd]. rewrite S1. intros g ps' Hg. apply Hok. by right. }
    exists w'. split; [done|]. rewrite O, R. cbn [out err set_fd]. rewrite O1, R1. cbn [out err set_fd zip_with concat].
    by rewrite <- app_assoc.
Qed.

(** ** wc counts lines, words and bytes *)

(** The pieces between spaces. *)
Fixpoint split (l : list Z) : list Z * list (list Z) :=
  match l with
  | [] => ([], [])
  | c :: l' => let '(w, ws) := split l' in if wc_space c then ([], w :: ws) else (c :: w, ws)
  end.

Definition words (l : list Z) : list (list Z) := filter (fun w => w <> []) ((split l).1 :: (split l).2).
Definition lines (l : list Z) : nat := count_occ Z.eq_dec l 10.

Lemma words_nil (ws : list (list Z)) : filter (fun w => w <> []) ([] :: ws) = filter (fun w => w <> []) ws.
Proof. apply filter_cons_False. naive_solver. Qed.
Lemma words_cons (c : Z) w ws : filter (fun w => w <> []) ((c :: w) :: ws) = (c :: w) :: filter (fun w => w <> []) ws.
Proof. by apply filter_cons_True. Qed.

Lemma wc_bytes l : forall s, let s' := foldl wc_byte s l in
  wl s' = wl s + Z.of_nat (lines l) /\ wch s' = wch s + Z.of_nat (length l) /\
  ww s' = ww s + Z.of_nat (length (words l)) - (if inword s && negb (bool_decide ((split l).1 = [])) then 1 else 0).
Proof.
  induction l as [|c l IH]; intros s; cbn [foldl].
  - change (length (words [])) with 0%nat. change (negb (bool_decide ((split []).1 = []))) with false. rewrite andb_false_r. cbn. lia.
  - destruct (IH (wc_byte s c)) as (Hl & Hc & Hw). unfold lines, words in *. cbn [split count_occ length]. destruct (split l) as [w ws] eqn:Es.
    cbn [fst snd] in *. assert (El : wl (wc_byte s c) = wl s + (if decide (c = 10) then 1 else 0)).
    { unfold wc_byte. destruct (decide (c = 10)) as [->|N]; [cbn; lia|]. apply Z.eqb_neq in N. rewrite N. repeat case_match; cbn; lia. }
    assert (Ec : wch (wc_byte s c) = wch s + 1) by (unfold wc_byte; repeat case_match; done).
    split; [rewrite Hl, El; destruct (decide (c = 10)), (Z.eq_dec c 10); done || lia|]. split; [lia|].
    rewrite Hw. unfold wc_byte. destruct (wc_space c) eqn:Esp; cbn [ww inword fst snd].
    + rewrite words_nil, andb_false_r. cbn [andb]. lia.
    + rewrite words_cons. cbn [length]. rewrite (bool_decide_false (c :: w = [])) by done.
      destruct w as [|d w]; rewrite ?words_nil, ?words_cons; destruct (inword s); cbn [negb ww inword andb length]; rewrite ?andb_false_r;
        try change (bool_decide (@nil Z = [])) with true; rewrite ?(bool_decide_false (d :: w = [])) by done; cbn [negb]; lia.
Qed.

Lemma wc_loop_ok n : forall w fd ps s, fds w fd = Some ps -> pieces ps -> (length (concat ps) < n)%nat ->
  exists w', run kernel (wc_loop n fd s) w = Value (foldl wc_byte s (concat ps)) w' /\ out w' = out w /\ fs w' = fs w /\ err w' = err w.
Proof.
  induction n as [|n IH]; intros w fd ps s Hf Hp Hn; [lia|]. cbn [wc_loop run]. destruct ps as [|p ps].
  - rewrite (read_end w fd Hf). by exists w.
  - destruct (read_piece w fd p ps Hf Hp) as (d & ps' & w1 & -> & Nd & E & Hp' & F1 & S1 & O1 & R1).
    assert (0 < length d)%nat by (destruct d; [done|cbn; lia]). rewrite (proj2 (Z.ltb_lt 0 _)) by lia.
    destruct (IH w1 fd ps' (foldl wc_byte s d)) as (w' & Er & O & S & R); [done|done| |].
    { rewrite <- E, length_app in Hn. lia. }
    exists w'. rewrite <- foldl_app, E in Er. rewrite O, S, R. done.
Qed.

(** The line that [wc] prints. *)
Definition wc_text (name d : list Z) : list Z :=
  decimal (Z.of_nat (lines d)) ++ 32 :: decimal (Z.of_nat (length (words d))) ++ 32 ::
  decimal (Z.of_nat (length d)) ++ 32 :: (u8 <$> name) ++ [10].

Lemma words_bound l : (length (words l) <= length l)%nat.
Proof.
  unfold words. induction l as [|c l IH]; [vm_compute; lia|]. cbn [split length]. destruct (split l) as [x xs]. cbn [fst snd] in *.
  destruct (wc_space c); cbn [fst snd]; rewrite ?words_nil, ?words_cons; cbn [length]; [lia|].
  destruct x; rewrite ?words_nil, ?words_cons in IH; cbn [length] in IH; lia.
Qed.

Lemma wc_format a b c name : format (line "%d %d %d %s") false [AInt a; AInt b; AInt c; AStr (Some name)] =
  Some (decimal (s32 a) ++ 32 :: decimal (s32 b) ++ 32 :: decimal (s32 c) ++ 32 :: (u8 <$> name) ++ [10]).
Proof. reflexivity. Qed.

Lemma wc_ok n w fd f ps : fds w fd = Some ps -> pieces ps -> (length (concat ps) < n)%nat -> Z.of_nat (length (concat ps)) < 2 ^ 31 ->
  exists w', run kernel (wc n fd f) w = Value tt w' /\ out w' = out w ++ wc_text f (concat ps) /\ fs w' = fs w /\ err w' = err w.
Proof.
  intros Hf Hp Hn Hlen. unfold wc. destruct (wc_loop_ok n w fd ps (Counts 0 0 0 false) Hf Hp Hn) as (w1 & E1 & O1 & S1 & R1).
  rewrite (run_value kernel _ _ _ _ _ E1). destruct (wc_bytes (concat ps) (Counts 0 0 0 false)) as (El & Ec & Ew). cbn [wl ww wch inword andb] in *.
  set (d := concat ps) in *. assert (Hl : (lines d <= length d)%nat) by apply count_occ_bound.
  pose proof (words_bound d) as Hws.
  rewrite (run_printf kernel 1 print_out _ _ (wc_text f d)).
  - exists (print_out (wc_text f d) w1). cbn [out fs err print_out]. rewrite O1, S1, R1. done.
  - rewrite wc_format. unfold wc_text. rewrite El, Ec, Ew, !Z.add_0_l, Z.sub_0_r, !s32_small by lia. done.
Qed.

Definition readable (n : nat) (ps : list (list Z)) : Prop :=
  pieces ps /\ (length (concat ps) < n)%nat /\ Z.of_nat (length (concat ps)) < 2 ^ 31.

Lemma zip_with_right (a b : list (list Z)) : length a = length b -> zip_with (fun _ d => d) a b = b.
Proof. revert b. induction a as [|x a IH]; intros [|y b] E; try done. cbn. by rewrite IH by (by injection E). Qed.

Lemma contents_length w files ds : contents w files = Some ds -> length files = length ds.
Proof. apply length_mapM. Qed.

(** C34: [cat] and [wc] over files.  For every list of names of files, and whatever pieces
    the kernel gives the files in, [cat] writes the bytes of the files one after the
    other and [wc] writes a line for each with the numbers of its newlines, of its words,
    the longest runs of bytes other than space, and of its bytes, as decimal numerals;
    both end after at most one read more than there are bytes in a file. *)
Theorem cat_wc_files n w files ds : files <> [] -> contents w files = Some ds -> (forall f ps, f ∈ files -> fs w f = Some ps -> readable n ps) ->
  (exists w', run kernel (cat_main n files) w = Exited w' /\ out w' = out w ++ concat ds /\ err w' = err w) /\
  (exists w', run kernel (wc_main n files) w = Exited w' /\ out w' = out w ++ concat (zip_with wc_text files ds) /\ err w' = err w).
Proof.
  intros Nf Hd Hf. destruct files as [|f files]; [done|]. unfold cat_main, wc_main. split.
  - destruct (each_file_ok (text "cat") (fun fd _ => cat n fd) (fun _ d => d) (readable n) (f :: files)) with (w := w) (ds := ds) as (w' & E & O & R); [|done..|].
    { intros v fd g ps Hfd (Hp & Hn & _). by apply cat_ok. }
    exists w'. split; [done|]. split; [|done]. rewrite O. do 2 f_equal. apply zip_with_right. by apply contents_length in Hd.
  - apply (each_file_ok _ _ _ (readable n)); [|done..]. intros v fd g ps Hfd (Hp & Hn & Hl). by apply wc_ok.
Qed.

(** [echo] writes its arguments, a space between two and a newline at the end. *)
Fixpoint echo_text (args : list (list Z)) : list Z :=
  match args with
  | [] => []
  | [a] => (u8 <$> a) ++ [10]
  | a :: args' => (u8 <$> a) ++ 32 :: echo_text args'
  end.

Lemma echo_ok args w : run kernel (echo args) w = Exited (print_out (echo_text args) w).
Proof.
  revert w. induction args as [|a args IH]; intros w; cbn [echo].
  - cbn. by rewrite (writes_nil kernel (fd:=1)).
  - set (z := match args with [] => [10] | _ => [32] end).
    assert (F : format (text "%s%s") false [AStr (Some a); AStr (Some z)] = Some ((u8 <$> a) ++ (u8 <$> z) ++ [])) by reflexivity.
    rewrite (run_value kernel _ _ _ _ _ (run_printf kernel 1 print_out _ _ _ w F)), IH, (writes_app kernel (fd:=1)). do 2 f_equal.
    rewrite app_nil_r. unfold z. destruct args; cbn [echo_text]; [by rewrite app_nil_r|]. rewrite <- app_assoc. done.
Qed.

Definition two_files (f : list Z) : option (list (list Z)) :=
  if bool_decide (f = [97]) then Some [text "ab c"; [10]; text "d"] else if bool_decide (f = [98]) then Some [] else None.

Lemma cat_wc_files_witness :
  (exists w', run kernel (cat_main 10 [[97]; [98]]) (World (fun _ => None) two_files [] []) = Exited w' /\ out w' = text "ab c" ++ 10 :: text "d" /\ err w' = []) /\
  (exists w', run kernel (wc_main 10 [[97]; [98]]) (World (fun _ => None) two_files [] []) = Exited w' /\ out w' = line "1 3 6 a" ++ line "0 0 0 b" /\ err w' = []).
Proof.
  apply (cat_wc_files 10 (World (fun _ => None) two_files [] []) [[97]; [98]] [text "ab c" ++ 10 :: text "d"; []]); [done|reflexivity|].
  intros f ps Hf. apply elem_of_cons in Hf as [->|Hf]; [|apply list_elem_of_singleton in Hf as ->]; cbn; intros [= <-].
  - split; [by repeat constructor|]. split; cbn; lia.
  - split; [constructor|]. split; cbn; lia.
Defined.

End Apps.
