(* ===== verification/Grep.v ===== *)
(** * grep (apps/grep.c)

    The matcher on strings, and the loop over the input with its static buffer: lines
    are ended in place by a NUL that is turned back into a newline only when the line
    is printed, and the bytes behind what was read are those of earlier reads.

    The matcher decides the language of its patterns.  A file that fits the buffer is
    searched line by line; what is left in the buffer from it is found again in the
    next file. *)

From Stdlib Require Import List.
From S2P Require Import Prelude Digits User Apps.

Import Digits User Apps.

Module Grep.

(** ** The matcher *)

(** [matchstar(c, re, text)], with [here] for [matchhere(re, text)]. *)
Fixpoint matchstar (here : list Z -> bool) (c : Z) (text : list Z) : bool :=
  here text || match text with t :: text' => ((t =? c) || (c =? 46)) && matchstar here c text' | [] => false end.

Fixpoint matchhere (re text : list Z) {struct re} : bool :=
  match re with
  | [] => true
  | c :: re1 =>
      let plain := match text with t :: text' => ((c =? 46) || (c =? t)) && matchhere re1 text' | [] => false end in
      match re1 with
      | d :: re2 => if d =? 42 then matchstar (matchhere re2) c text else plain
      | [] => if c =? 36 then match text with [] => true | _ => false end else plain
      end
  end.

(** [do ... while ( *text++ != 0 )] *)
Fixpoint match_from (re text : list Z) : bool :=
  matchhere re text || match text with _ :: text' => match_from re text' | [] => false end.

Definition match_ (re text : list Z) : bool :=
  match re with
  | c :: re' => if c =? 94 then matchhere re' text else match_from re text
  | [] => match_from re text
  end.

(** ** The loop over the input *)

Definition BUF : nat := 1024.

(** [strchr(p, '\n')]: the place of the newline, [Some None] if a NUL comes first, and
    [None] when the search leaves the buffer. *)
Fixpoint find_newline (l : list Z) (p : nat) : option (option nat) :=
  match l with
  | [] => None
  | c :: l' => if c =? 10 then Some (Some p) else if c =? 0 then Some None else find_newline l' (S p)
  end.

(** [while ((q = strchr(p, '\n')) != 0)], for at most [n] lines: the buffer and [p]. *)
Fixpoint grep_lines (n : nat) (re : list Z) (buf : list Z) (p : nat) : prog (list Z * nat) :=
  match find_newline (drop p buf) p with
  | None => Crash "strchr past buf"
  | Some None => Ret (buf, p)
  | Some (Some q) =>
      match n with
      | O => Spin
      | S n' =>
          let buf := <[q := 0]> buf in
          let text := take (q - p) (drop p buf) in
          if match_ re text then
            let buf := <[q := 10]> buf in
            ask (SysWrite 1 (take (q + 1 - p) (drop p buf))) ;* grep_lines n' re buf (q + 1)
          else grep_lines n' re buf (q + 1)
      end
  end.

(** [while ((n = read(fd, buf + m, sizeof(buf) - m)) > 0)], at most [n] times; the
    result is the buffer, which the next file finds as it was left. *)
Fixpoint grep (n : nat) (re : list Z) (fd : Z) (m : nat) (buf : list Z) : prog (list Z) :=
  match n with
  | O => Spin
  | S n' =>
      Call (SysRead fd (Z.of_nat (BUF - m))) (fun r d =>
        if negb (0 <? r) then Ret buf
        else
          let buf := poke m d buf in
          let m := (m + length d)%nat in
          let* s := grep_lines BUF re buf 0 in
          let '(buf, p) := s in
          let m := if (p =? 0)%nat then 0%nat else m in
          if (0 <? m)%nat then
            if (m <? p)%nat then Crash "memmove of a negative size"
            else grep n' re fd (m - p) (poke 0 (peek p (m - p) buf) buf)
          else grep n' re fd m buf)
  end.

(** The loop over the files. *)
Fixpoint grep_files (n : nat) (re : list Z) (files : list (list Z)) (buf : list Z) : prog unit :=
  match files with
  | [] => Exit
  | f :: files' =>
      let* fd := ask (SysOpen f 0) in
      if fd <? 0 then printf 1 (line "grep: cannot open %s") [AStr (Some f)] ;* Exit
      else
        let* buf := grep n re fd 0 buf in
        ask (SysClose fd) ;* grep_files n re files' buf
  end.

Definition grep_main (n : nat) (args : list (list Z)) : prog unit :=
  match args with
  | [] => printf 2 (line "usage: grep pattern [file ...]") [] ;* Exit
  | [re] => grep n re 0 0 (replicate BUF 0) ;* Exit
  | re :: files => grep_files n re files (replicate BUF 0)
  end.

(** ** The language of a pattern *)

Inductive atom := Lit (c : Z) | Any.
Inductive item := One (a : atom) | Star (a : atom).

Definition atom_of (c : Z) : atom := if c =? 46 then Any else Lit c.

(** The items of a pattern, and whether it ends with a dollar sign. *)
Fixpoint items (re : list Z) : list item * bool :=
  match re with
  | [] => ([], false)
  | c :: re1 =>
      match re1 with
      | d :: re2 =>
          if d =? 42 then let '(l, e) := items re2 in (Star (atom_of c) :: l, e)
          else let '(l, e) := items re1 in (One (atom_of c) :: l, e)
      | [] => if c =? 36 then ([], true) else ([One (atom_of c)], false)
      end
  end.

Definition one (a : atom) (x : Z) : Prop := match a with Lit c => x = c | Any => True end.

(** The strings of a sequence of items. *)
Inductive lang : list item -> list Z -> Prop :=
  | lang_nil : lang [] []
  | lang_one a x l s : one a x -> lang l s -> lang (One a :: l) (x :: s)
  | lang_star a xs l s : Forall (one a) xs -> lang l s -> lang (Star a :: l) (xs ++ s).

(** [s] starts with a string of the pattern, and ends there if the pattern says so. *)
Definition starts (re s : list Z) : Prop :=
  exists b c, s = b ++ c /\ lang (items re).1 b /\ ((items re).2 = true -> c = []).

Lemma one_spec c t : (c =? 46) || (c =? t) = true <-> one (atom_of c) t.
Proof.
  unfold atom_of. destruct (Z.eqb_spec c 46); cbn; [done|]. rewrite Z.eqb_eq. split; congruence.
Qed.

Lemma matchstar_spec here c text : matchstar here c text = true <->
  exists xs s, text = xs ++ s /\ Forall (one (atom_of c)) xs /\ here s = true.
Proof.
  induction text as [|t text IH]; cbn [matchstar]; rewrite orb_true_iff.
  - split; [intros [H|]; [by exists [], []|done]|]. intros (xs & s & E & _ & H). destruct xs, s; try done. by left.
  - rewrite andb_true_iff, IH. rewrite (orb_comm (t =? c)), (Z.eqb_sym t c), one_spec. split.
    + intros [H|[Ht (xs & s & -> & F & H)]]; [by exists [], (t :: text)|]. exists (t :: xs), s. split; [done|]. split; [by constructor|done].
    + intros (xs & s & E & F & H). destruct xs as [|x xs]; [cbn in E; subst; by left|]. right. injection E as <- ->.
      inversion F; subst. split; [done|]. by exists xs, s.
Qed.

Lemma matchhere_spec re : forall text, matchhere re text = true <-> starts re text.
Proof.
  induction re as [re IH] using (induction_ltof1 _ (@length Z)). unfold ltof in IH. intros text. destruct re as [|c re1].
  - split; [|done]. intros _. exists [], text. split; [done|]. split; [constructor|done].
  - assert (Plain : (items (c :: re1)).1 = One (atom_of c) :: (items re1).1 -> (items (c :: re1)).2 = (items re1).2 ->
      match text with t :: text' => ((c =? 46) || (c =? t)) && matchhere re1 text' | [] => false end = true <-> starts (c :: re1) text).
    { intros E1 E2. unfold starts. rewrite E1, E2. destruct text as [|t text].
      - split; [done|]. intros (b & s & E & L & _). inversion L; subst. done.
      - rewrite andb_true_iff, one_spec, (IH re1) by (cbn; lia). split.
        + intros [Ht (b & s & -> & L & He)]. exists (t :: b), s. split; [done|]. split; [by constructor|done].
        + intros (b & s & E & L & He). inversion L; subst. injection E as <- ->. split; [done|]. by exists s0, s. }
    destruct re1 as [|d re2].
    + cbn [matchhere]. destruct (Z.eqb_spec c 36) as [->|N].
      * unfold starts. cbn. split.
        -- destruct text; [|done]. intros _. exists [], []. split; [done|]. split; [constructor|done].
        -- intros (b & s & -> & L & He). inversion L; subst. by rewrite He.
      * apply Plain; cbn; apply Z.eqb_neq in N; rewrite N; done.
    + change (matchhere (c :: d :: re2) text) with (if d =? 42 then matchstar (matchhere re2) c text else
        match text with t :: text' => ((c =? 46) || (c =? t)) && matchhere (d :: re2) text' | [] => false end).
      destruct (Z.eqb_spec d 42) as [->|N].
      * rewrite matchstar_spec. unfold starts. cbn [items Z.eqb Pos.eqb]. destruct (items re2) as [l e] eqn:Ei. cbn [fst snd]. split.
        -- intros (xs & s & -> & F & H). apply IH in H as (b & s' & -> & L & He); [|cbn; lia]. rewrite Ei in L, He.
           exists (xs ++ b), s'. rewrite app_assoc. split; [done|]. split; [by constructor|done].
        -- intros (b & s & -> & L & He). inversion L as [| |? xs ? s1 F L1]; subst. exists xs, (s1 ++ s). rewrite app_assoc. split; [done|]. split; [done|].
           apply IH; [cbn; lia|]. exists s1, s. rewrite Ei. done.
      * apply Plain; apply Z.eqb_neq in N; cbn [items]; rewrite N; destruct (items (d :: re2)) eqn:Ei; cbn [items] in Ei; rewrite Ei; done.
Qed.

Lemma match_from_spec re text : match_from re text = true <-> exists a s, text = a ++ s /\ starts re s.
Proof.
  induction text as [|t text IH]; cbn [match_from]; rewrite orb_true_iff, matchhere_spec.
  - split; [intros [H|]; [by exists [], []|done]|]. intros (a & s & E & H). destruct a, s; try done. by left.
  - rewrite IH. split.
    + intros [H|(a & s & -> & H)]; [by exists [], (t :: text)|by exists (t :: a), s].
    + intros (a & s & E & H). destruct a as [|x a]; [cbn in E; subst; by left|]. injection E as <- ->. right. by exists a, s.
Qed.

(** ** A file that fits the buffer *)

(** The complete lines, and what follows the last newline. *)
Fixpoint lines_of (d : list Z) : list (list Z) * list Z :=
  match d with
  | [] => ([], [])
  | c :: d' =>
      let '(ls, r) := lines_of d' in
      if c =? 10 then ([] :: ls, r) else match ls with l :: ls' => ((c :: l) :: ls', r) | [] => ([], c :: r) end
  end.

(** The lines that match, each with its newline. *)
Definition selected (re : list Z) (ls : list (list Z)) : list Z := concat ((fun l => l ++ [10]) <$> filter (fun l => match_ re l = true) ls).

(** Text without NUL. *)
Definition plain (d : list Z) : Prop := Forall (fun c => c <> 0) d.

Lemma find_newline_ok d z p : plain d ->
  match (lines_of d).1 with
  | [] => find_newline (d ++ 0 :: z) p = Some None /\ (lines_of d).2 = d
  | l :: ls => find_newline (d ++ 0 :: z) p = Some (Some (p + length l)%nat) /\ exists r, d = l ++ 10 :: r /\ lines_of r = (ls, (lines_of d).2)
  end.
Proof.
  intros F. revert p. induction F as [|c d Hc F IH]; intros p; [done|]. cbn [lines_of app find_newline]. specialize (IH (S p)).
  destruct (lines_of d) as [ls r] eqn:E. cbn [fst snd] in *. destruct (Z.eqb_spec c 10) as [->|N]; cbn [fst snd].
  - cbn [length]. rewrite Nat.add_0_r. split; [done|]. by exists d.
  - rewrite (proj2 (Z.eqb_neq c 0) Hc). destruct ls as [|l ls]; cbn [fst snd].
    + destruct IH as [-> <-]. done.
    + destruct IH as [-> (r' & -> & E')]. split; [cbn; do 2 f_equal; lia|]. by exists r'.
Qed.

Lemma insert_mid {A} (x : A) pre l y post : <[(length pre + length l)%nat := x]> (pre ++ l ++ y :: post) = pre ++ l ++ x :: post.
Proof. rewrite insert_app_r. f_equal. by rewrite insert_app_r_alt, Nat.sub_diag by lia. Qed.

Lemma grep_lines_ok re z n : forall d pre w, plain d -> (length (lines_of d).1 <= n)%nat ->
  exists pre', length pre' = (length pre + (length d - length (lines_of d).2))%nat /\ (length (lines_of d).2 <= length d)%nat /\
    run kernel (grep_lines n re (pre ++ d ++ 0 :: z) (length pre)) w =
    Value (pre' ++ (lines_of d).2 ++ 0 :: z, length pre') (print_out (selected re (lines_of d).1) w).
Proof.
  induction n as [|n IH]; intros d pre w F Hn; pose proof (find_newline_ok d z (length pre) F) as H; cbn [grep_lines];
    rewrite drop_app_length; destruct (lines_of d) as [[|l ls] r] eqn:E; cbn [fst snd length] in *; try lia.
  1,2: destruct H as [-> ->]; exists pre; split; [lia|]; split; [done|]; cbn; by rewrite (writes_nil kernel (fd:=1)).
  destruct H as [-> (d' & -> & E')]. assert (Fd : plain d') by (apply Forall_app in F as [_ F]; by inversion F). rewrite <- app_assoc. cbn [app].
  rewrite insert_mid, drop_app_length. replace (length pre + length l - length pre)%nat with (length l) by lia. rewrite take_app_length.
  specialize (IH d'). rewrite E' in IH. cbn [fst snd] in IH.
  assert (Step : forall c w, exists pre', length pre' = (length pre + (length (l ++ 10%Z :: d') - length r))%nat /\ (length r <= length (l ++ 10%Z :: d'))%nat /\
    run kernel (grep_lines n re (pre ++ l ++ c :: d' ++ 0 :: z) (length pre + length l + 1)) w = Value (pre' ++ r ++ 0 :: z, length pre') (print_out (selected re ls) w)).
  { intros c w1. destruct (IH (pre ++ l ++ [c]) w1 Fd ltac:(lia)) as (pre' & L & Lr & R). rewrite !length_app in L. cbn [length] in L.
    exists pre'. rewrite length_app. cbn [length]. split; [lia|]. split; [lia|]. rewrite <- R, <- !app_assoc. cbn [app]. f_equal. f_equal.
    rewrite !length_app. cbn. lia. }
  unfold selected. destruct (match_ re l) eqn:Em.
  - rewrite filter_cons_True by done. rewrite insert_mid, drop_app_length.
    assert (T : take (length pre + length l + 1 - length pre) (l ++ 10 :: d' ++ 0 :: z) = l ++ [10]).
    { replace (length pre + length l + 1 - length pre)%nat with (length (l ++ [10%Z])) by (rewrite length_app; cbn; lia).
      change (10 :: d' ++ 0 :: z) with ([10] ++ d' ++ 0 :: z). by rewrite app_assoc, take_app_length. }
    rewrite T.
    destruct (Step 10 (print_out (l ++ [10]) w)) as (pre' & L & Lr & R). exists pre'. split; [done|]. split; [done|].
    rewrite (run_value kernel (ask (SysWrite 1 (l ++ [10]))) _ w _ (print_out (l ++ [10]) w) eq_refl), R, (writes_app kernel (fd:=1)). done.
  - rewrite filter_cons_False by congruence. destruct (Step 0 w) as (pre' & L & Lr & R). by exists pre'.
Qed.

Lemma lines_short d : (length (lines_of d).1 <= length d)%nat.
Proof.
  induction d as [|c d IH]; [done|]. cbn. destruct (lines_of d) as [ls r]. cbn in IH. destruct (c =? 10); cbn; [lia|]. destruct ls; cbn in *; lia.
Qed.

Lemma grep_file_ok n re fd d w : plain d -> (0 < length d < BUF)%nat -> fds w fd = Some [d] -> (2 <= n)%nat ->
  exists buf w', run kernel (grep n re fd 0 (replicate BUF 0)) w = Value buf w' /\ out w' = out w ++ selected re (lines_of d).1 /\ fs w' = fs w /\ err w' = err w.
Proof.
  intros F Hd Hf Hn. destruct n as [|[|n]]; [lia..|]. set (w1 := set_fd w fd (Some [])).
  assert (R1 : kernel w (SysRead fd (Z.of_nat (BUF - 0))) = (Z.of_nat (length d), d, w1)).
  { unfold kernel. rewrite Hf, Nat2Z.id, take_ge, drop_ge by lia. done. }
  assert (Stop : forall u k b, fds u fd = Some [] -> run kernel (grep (S n) re fd k b) u = Value b u).
  { intros u k b Hu. cbn [grep run]. unfold kernel. by rewrite Hu. }
  assert (Eb : poke 0 d (replicate BUF 0) = [] ++ d ++ 0 :: replicate (BUF - length d - 1) 0).
  { unfold poke. rewrite drop_replicate. replace (BUF - (0 + length d))%nat with (S (BUF - length d - 1)) by lia. done. }
  destruct (grep_lines_ok re (replicate (BUF - length d - 1) 0) BUF d [] w1 F) as (pre & L & Lr & R).
  { pose proof (lines_short d). lia. }
  set (k := S n) in *. cbn [grep run]. rewrite R1. rewrite (proj2 (Z.ltb_lt 0 _)) by lia. cbn [negb]. rewrite Eb.
  change (0 + length d)%nat with (length d). rewrite (run_value kernel _ _ _ _ _ R). cbn [length] in L.
  assert (Hw : fds (print_out (selected re (lines_of d).1) w1) fd = Some []) by (cbn; by rewrite Z.eqb_refl).
  destruct (Nat.eqb_spec (length pre) 0) as [E0|N0].
  - cbn [Nat.ltb Nat.leb]. rewrite Stop by done. eexists _, _. split; [done|]. done.
  - rewrite (proj2 (Nat.ltb_lt 0 _)) by lia. rewrite (proj2 (Nat.ltb_ge _ _)) by lia. rewrite Stop by done. eexists _, _. split; [done|]. done.
Qed.

(** C25: [grep] prints the lines of a file that match.  The matcher decides the language
    of its patterns: a text matches iff some part of it is a string of the pattern,
    the start of the text if the pattern starts with a caret and its end if the pattern
    ends with a dollar sign, where a star repeats the character or the dot in front of
    it.  [grep] on one file of less than 1024 bytes without NUL writes exactly the
    complete lines that match, in their order. *)
Theorem grep_prints re n f d w : plain d -> (0 < length d < BUF)%nat -> fs w f = Some [d] -> (2 <= n)%nat ->
  (exists w', run kernel (grep_main n [re; f]) w = Exited w' /\ out w' = out w ++ selected re (lines_of d).1 /\ err w' = err w) /\
  forall text, match_ re text = true <-> exists a s, text = a ++ s /\
    match re with c :: re' => if c =? 94 then a = [] /\ starts re' s else starts re s | [] => starts re s end.
Proof.
  intros F Hd Hf Hn. split.
  - unfold grep_main. cbn [grep_files]. rewrite (run_value kernel (ask (SysOpen f 0)) _ w fresh (set_fd w fresh (Some [d]))) by (cbn; by rewrite Hf).
    cbn [fresh Z.ltb Z.compare]. destruct (grep_file_ok n re fresh d (set_fd w fresh (Some [d])) F Hd eq_refl Hn) as (buf & w' & R & O & S & E).
    rewrite (run_value kernel _ _ _ _ _ R). rewrite (run_value kernel (ask (SysClose fresh)) _ w' 0 (set_fd w' fresh None) eq_refl).
    exists (set_fd w' fresh None). split; [done|]. cbn [out err set_fd] in *. done.
  - intros text. unfold match_. destruct re as [|c re]; [apply match_from_spec|]. destruct (c =? 94).
    + rewrite matchhere_spec. split; [intros H; by exists [], text|]. by intros (a & s & -> & -> & H).
    + apply match_from_spec.
Qed.

(** Searching [a] in a file with the lines [aaaa] and [b], then in one with the line [b]:
    the second file is searched together with what is left of the first, and the size
    of the rest is negative. *)
Definition stale (f : list Z) : option (list (list Z)) :=
  if bool_decide (f = [49]) then Some [[97; 97; 97; 97; 10; 98; 10]] else if bool_decide (f = [50]) then Some [[98; 10]] else None.

Lemma grep_searches_again : run kernel (grep_main 3 [[97]; [49]; [50]]) (World (fun _ => None) stale [] []) = Crashed "memmove of a negative size".
Proof. vm_compute. reflexivity. Qed.

Lemma grep_prints_witness : (exists w', run kernel (grep_main 2 [text "^a*b"; [49]]) (World (fun _ => None) stale [] []) = Exited w' /\
  out w' = [98; 10] /\ err w' = []) /\ match_ (text "^a*b") [97; 98] = true.
Proof.
  destruct (grep_prints (text "^a*b") 2 [49] [97; 97; 97; 97; 10; 98; 10] (World (fun _ => None) stale [] [])) as [P M].
  - repeat constructor; done.
  - vm_compute. lia.
  - reflexivity.
  - lia.
  - split; [exact P|]. apply M. exists [], [97; 98]. split; [done|]. split; [done|].
    exists [97; 98], []. split; [done|]. split; [|done]. apply (lang_star (Lit 97) [97] [One (Lit 98)] [98]); [by repeat constructor|].
    apply lang_one; [done|constructor].
Defined.

End Grep.
