(* ===== verification/Mp.v ===== *)
(** * Processors and interrupt controllers (kernel/mp.c, lapic.c, ioapic.c, picirq.c, timer.c)

    The tables the firmware leaves in memory, as bytes: the search for the floating
    pointer, the checks of the configuration table and the walk over its entries.  For
    every table that describes at most eight processors in the order of their
    identifiers, [mpinit] ends with these processors.  An entry of an unknown type is
    never left: the walk does not end.  The interrupt controllers are the registers
    that were written, in order. *)

From S2P Require Import Prelude.

Module Mp.

Definition NCPU : Z := 8.
Definition MPPROC : Z := 0.
Definition MPBUS : Z := 1.
Definition MPIOAPIC : Z := 2.
Definition MPIOINTR : Z := 3.
Definition MPLINTR : Z := 4.
Definition MPBOOT : Z := 2.

(** Physical memory. *)
Notation mem := (Z -> Z).

Definition bytes_at (m : mem) (a : Z) (n : nat) : list Z := map (fun i => m (a + Z.of_nat i)) (seq 0 n).
Definition word16 (m : mem) (a : Z) : Z := le_dec (bytes_at m a 2).
Definition word32 (m : mem) (a : Z) : Z := le_dec (bytes_at m a 4).

(** [struct mp], 16 bytes, and [struct mpconf], 44 bytes. *)
Definition sizeof_mp : Z := 16.
Definition mp_physaddr (m : mem) (a : Z) : Z := word32 m (a + 4).
Definition mp_imcrp (m : mem) (a : Z) : Z := m (a + 12).
Definition sizeof_mpconf : Z := 44.
Definition conf_length (m : mem) (a : Z) : Z := word16 m (a + 4).
Definition conf_version (m : mem) (a : Z) : Z := m (a + 6).
Definition conf_lapicaddr (m : mem) (a : Z) : Z := word32 m (a + 36).
Definition sizeof_mpproc : Z := 20.
Definition sizeof_mpioapic : Z := 8.

(** "_MP_" and "PCMP" *)
Definition MP_SIGNATURE : list Z := [95; 77; 80; 95].
Definition CONF_SIGNATURE : list Z := [80; 67; 77; 80].

(** ** The search *)

Definition sum (m : mem) (a len : Z) : Z := u8 (foldl Z.add 0 (bytes_at m a (Z.to_nat len))).

Definition is_mp (m : mem) (p : Z) : bool := bool_decide (bytes_at m p 4 = MP_SIGNATURE) && (sum m p sizeof_mp =? 0).

Fixpoint mpsearch_loop (n : nat) (m : mem) (p e : Z) : option Z :=
  match n with
  | O => None
  | S n' => if p <? e then if is_mp m p then Some p else mpsearch_loop n' m (p + sizeof_mp) e else None
  end.

Definition mpsearch1 (m : mem) (a len : Z) : option Z := mpsearch_loop (Z.to_nat len) m a (a + len).

Definition mpsearch (m : mem) : option Z :=
  let bda := 1024 in
  let p := Z.shiftl (Z.lor (Z.shiftl (m (bda + 15)) 8) (m (bda + 14))) 4 in
  let found :=
    if negb (p =? 0) then mpsearch1 m p 1024
    else let p := Z.lor (Z.shiftl (m (bda + 20)) 8) (m (bda + 19)) * 1024 in mpsearch1 m (u32 (p - 1024)) 1024 in
  match found with Some mp => Some mp | None => mpsearch1 m 983040 65536 end.

(** The structure and the table. *)
Definition mpconfig (m : mem) : option (Z * Z) :=
  match mpsearch m with
  | None => None
  | Some mp =>
      if mp_physaddr m mp =? 0 then None
      else
        let conf := mp_physaddr m mp in
        if negb (bool_decide (bytes_at m conf 4 = CONF_SIGNATURE)) then None
        else if negb (conf_version m conf =? 1) && negb (conf_version m conf =? 4) then None
        else if negb (sum m conf (conf_length m conf) =? 0) then None
        else Some (mp, conf)
  end.

(** ** The walk *)

(** [cpus[i].id], [bcpu] as an index, the other variables, and the ports written. *)
Record mpst := Mpst { ids : list Z; bcpu : Z; ismp : bool; ncpu : Z; ioapicid : Z; lapic : Z; ports : list (Z * Z) }.

Definition set_bcpu (x : Z) (s : mpst) : mpst := Mpst (ids s) x (ismp s) (ncpu s) (ioapicid s) (lapic s) (ports s).
Definition set_ismp (x : bool) (s : mpst) : mpst := Mpst (ids s) (bcpu s) x (ncpu s) (ioapicid s) (lapic s) (ports s).
Definition set_ioapicid (x : Z) (s : mpst) : mpst := Mpst (ids s) (bcpu s) (ismp s) (ncpu s) x (lapic s) (ports s).
Definition set_lapic (x : Z) (s : mpst) : mpst := Mpst (ids s) (bcpu s) (ismp s) (ncpu s) (ioapicid s) x (ports s).

(** [cpus[ncpu].id = ncpu; ncpu++] *)
Definition add_cpu : M mpst unit := fun s =>
  if ncpu s <? NCPU then Done tt (Mpst (<[Z.to_nat (ncpu s) := ncpu s]> (ids s)) (bcpu s) (ismp s) (ncpu s + 1) (ioapicid s) (lapic s) (ports s))
  else Wild "cpus".

Fixpoint mpinit_loop (fuel : nat) (m : mem) (p e : Z) : M mpst unit :=
  if p <? e then
    match fuel with
    | O => nofuel
    | S f =>
        if m p =? MPPROC then
          let! n := gets ncpu in
          when (negb (n =? m (p + 1))) (modify (set_ismp false)) ;!
          when (negb (Z.land (m (p + 3)) MPBOOT =? 0)) (modify (fun s => set_bcpu (ncpu s) s)) ;!
          add_cpu ;!
          mpinit_loop f m (p + sizeof_mpproc) e
        else if m p =? MPIOAPIC then
          modify (set_ioapicid (m (p + 1))) ;!
          mpinit_loop f m (p + sizeof_mpioapic) e
        else if (m p =? MPBUS) || (m p =? MPIOINTR) || (m p =? MPLINTR) then mpinit_loop f m (p + 8) e
        else modify (set_ismp false) ;! mpinit_loop f m p e
    end
  else ret tt.

(** [imcr] is what port 0x23 reads. *)
Definition mpinit (fuel : nat) (m : mem) (imcr : Z) : M mpst unit :=
  modify (set_bcpu 0) ;!
  match mpconfig m with
  | None => ret tt
  | Some (mp, conf) =>
      modify (set_ismp true) ;!
      modify (set_lapic (conf_lapicaddr m conf)) ;!
      mpinit_loop fuel m (conf + sizeof_mpconf) (conf + conf_length m conf) ;!
      let! ok := gets ismp in
      if negb ok then modify (fun s => Mpst (ids s) (bcpu s) false 1 0 0 (ports s))
      else when (negb (mp_imcrp m mp =? 0)) (modify (fun s =>
        Mpst (ids s) (bcpu s) (ismp s) (ncpu s) (ioapicid s) (lapic s) (ports s ++ [(34, 112); (35, Z.lor imcr 1)])))
  end.

(** The state before: the variables are zero. *)
Definition mp_zero : mpst := Mpst (replicate 8 0) 0 false 0 0 0 [].

(** ** Interrupt controllers *)

Definition T_IRQ0 : Z := 32.

(** The writes to the ports, the oldest first. *)
Notation writes := (list (Z * Z)).

Definition IRQ_SLAVE : Z := 2.
Definition irqmask0 : Z := Z.land 65535 (Z.lnot (Z.shiftl 1 IRQ_SLAVE)).

(** The mask in memory, and the writes. *)
Definition picsetmask (mask : Z) (w : writes) : Z * writes := (mask, w ++ [(33, u8 mask); (161, u8 (Z.shiftr mask 8))]).

Definition picenable (irq : Z) (s : Z * writes) : Z * writes := picsetmask (u16 (Z.land s.1 (Z.lnot (Z.shiftl 1 irq)))) s.2.

Definition picinit (s : Z * writes) : Z * writes :=
  let w := s.2 ++ [(33, 255); (161, 255);
                   (32, 17); (33, T_IRQ0); (33, Z.shiftl 1 IRQ_SLAVE); (33, 3);
                   (160, 17); (161, T_IRQ0 + 8); (161, IRQ_SLAVE); (161, 3);
                   (32, 104); (32, 10); (160, 104); (160, 10)] in
  if negb (s.1 =? 65535) then picsetmask s.1 w else (s.1, w).

Definition TIMER_DIV (x : Z) : Z := (1193182 + x / 2) / x.

Definition timerinit (s : Z * writes) : Z * writes :=
  picenable 0 (s.1, s.2 ++ [(67, Z.lor (Z.lor 0 4) 48); (64, TIMER_DIV 100 mod 256); (64, TIMER_DIV 100 / 256)]).

(** The registers of the I/O APIC. *)
Definition REG_TABLE : Z := 16.
Definition INT_DISABLED : Z := 65536.

Definition ioapicwrite (r v : Z) (t : gmap Z Z) : gmap Z Z := <[r := u32 v]> t.

Definition ioapicinit (mp : bool) (t : gmap Z Z) : gmap Z Z :=
  if negb mp then t
  else
    let maxintr := Z.land (Z.shiftr (default 0 (t !! 1)) 16) 255 in
    foldl (fun t i => ioapicwrite (REG_TABLE + 2 * i + 1) 0 (ioapicwrite (REG_TABLE + 2 * i) (Z.lor INT_DISABLED (T_IRQ0 + i)) t)) t
      (map Z.of_nat (seq 0 (Z.to_nat maxintr + 1))).

Definition ioapicenable (mp : bool) (irq cpunum : Z) (t : gmap Z Z) : gmap Z Z :=
  if negb mp then t
  else ioapicwrite (REG_TABLE + 2 * irq + 1) (Z.shiftl cpunum 24) (ioapicwrite (REG_TABLE + 2 * irq) (T_IRQ0 + irq) t).

(** The registers of the local APIC, as indices of its array of words. *)
Definition LAPIC_ID : Z := 8.
Definition TPR : Z := 32.
Definition EOI : Z := 44.
Definition SVR : Z := 60.
Definition ESR : Z := 160.
Definition ICRLO : Z := 192.
Definition ICRHI : Z := 196.
Definition TIMER : Z := 200.
Definition PCINT : Z := 208.
Definition LINT0 : Z := 212.
Definition LINT1 : Z := 216.
Definition ERROR : Z := 220.
Definition TICR : Z := 224.
Definition TDCR : Z := 248.

(** [present] says whether [lapic] is set and [ver] is what its version register reads;
    the wait for the delivery of the command follows the last but one write. *)
Definition lapicinit (present : bool) (ver : Z) : writes :=
  if negb present then []
  else
    [(SVR, Z.lor 256 (T_IRQ0 + 31)); (TDCR, 11); (TIMER, Z.lor 131072 (T_IRQ0 + 0)); (TICR, 10000000); (LINT0, 65536); (LINT1, 65536)] ++
    (if 4 <=? Z.land (Z.shiftr ver 16) 255 then [(PCINT, 65536)] else []) ++
    [(ERROR, T_IRQ0 + 19); (ESR, 0); (ESR, 0); (EOI, 0); (ICRHI, 0); (ICRLO, Z.lor (Z.lor 524288 1280) 32768); (TPR, 0)].

Definition cpunum (present : bool) (id : Z) : Z := if present then Z.shiftr id 24 else 0.
Definition lapiceoi (present : bool) : writes := if present then [(EOI, 0)] else [].

(** The ports, the warm reset vector and the registers written to start a processor. *)
Definition lapicstartap (apicid addr : Z) : writes * (Z * Z) * writes :=
  ([(112, 15); (113, 10)], (0, u16 (Z.shiftr addr 4)),
   let hi := (ICRHI, u32 (Z.shiftl apicid 24)) in let go := (ICRLO, Z.lor 1536 (Z.shiftr addr 12)) in
   [hi; (ICRLO, Z.lor (Z.lor 1280 32768) 16384); (ICRLO, Z.lor 1280 32768); hi; go; hi; go]).

(** ** What a table says *)

(** An entry with the bytes that are not looked at. *)
Inductive entry :=
  | EProc (apicid version flags : Z) (rest : list Z)
  | EIoapic (apicno : Z) (rest : list Z)
  | EOther (type : Z) (rest : list Z).

Definition entry_ok (e : entry) : Prop :=
  match e with
  | EProc _ _ _ rest => length rest = 16%nat
  | EIoapic _ rest => length rest = 6%nat
  | EOther t rest => length rest = 7%nat /\ (t = MPBUS \/ t = MPIOINTR \/ t = MPLINTR)
  end.

Definition encode (e : entry) : list Z :=
  match e with
  | EProc id v f rest => [MPPROC; id; v; f] ++ rest
  | EIoapic id rest => [MPIOAPIC; id] ++ rest
  | EOther t rest => t :: rest
  end.

(** The processors: identifiers and flags. *)
Definition proc_of (e : entry) : option (Z * Z) := match e with EProc id _ f _ => Some (id, f) | _ => None end.
Definition processors (es : list entry) : list (Z * Z) := omap proc_of es.
Definition ioapic_of (e : entry) : option Z := match e with EIoapic id _ => Some id | _ => None end.

(** The place of the last processor marked as the one that boots, in front of which [k]
    others were found. *)
Fixpoint boot_index (k : Z) (l : list (Z * Z)) (d : Z) : Z :=
  match l with [] => d | (_, f) :: l' => boot_index (k + 1) l' (if Z.land f MPBOOT =? 0 then d else k) end.

Lemma bytes_at_app m a l1 l2 : bytes_at m a (length (l1 ++ l2)) = l1 ++ l2 ->
  bytes_at m a (length l1) = l1 /\ bytes_at m (a + Z.of_nat (length l1)) (length l2) = l2.
Proof.
  intros E. assert (P : forall i x, (l1 ++ l2) !! i = Some x -> m (a + Z.of_nat i) = x).
  { intros i x Hi. rewrite <- E in Hi. unfold bytes_at in Hi. rewrite list_lookup_fmap in Hi.
    apply fmap_Some in Hi as (j & Hj & ->). by apply lookup_seq in Hj as [-> _]. }
  assert (B : forall a l, (forall i x, l !! i = Some x -> m (a + Z.of_nat i) = x) -> bytes_at m a (length l) = l).
  { clear. intros a l H. apply list_eq. intros i. unfold bytes_at. rewrite list_lookup_fmap. destruct (l !! i) as [x|] eqn:Hi.
    - pose proof (lookup_lt_Some _ _ _ Hi). rewrite lookup_seq_lt by lia. cbn. by rewrite (H i x).
    - apply lookup_ge_None in Hi. rewrite lookup_seq_ge by lia. done. }
  split; apply B; intros i x Hi.
  - apply P. by rewrite lookup_app_l by (by eapply lookup_lt_Some).
  - replace (a + Z.of_nat (length l1) + Z.of_nat i) with (a + Z.of_nat (length l1 + i)) by lia. apply P. rewrite lookup_app_r by lia. rewrite <- Hi. f_equal. lia.
Qed.

(** What the walk over [es] leaves when [s] is what it started with. *)
Record walked (es : list entry) (s s' : mpst) : Prop := {
  w_ncpu : ncpu s' = ncpu s + Z.of_nat (length (processors es));
  w_ids : take (Z.to_nat (ncpu s')) (ids s') = seqZ 0 (ncpu s');
  w_len : length (ids s') = 8%nat;
  w_bcpu : bcpu s' = boot_index (ncpu s) (processors es) (bcpu s);
  w_ismp : ismp s' = ismp s && bool_decide (map fst (processors es) = seqZ (ncpu s) (Z.of_nat (length (processors es))));
  w_ioapic : ioapicid s' = default (ioapicid s) (last (omap ioapic_of es));
  w_rest : lapic s' = lapic s /\ ports s' = ports s;
}.

Lemma take_ids l k : 0 <= k < 8 -> length l = 8%nat -> take (Z.to_nat k) l = seqZ 0 k -> take (Z.to_nat (k + 1)) (<[Z.to_nat k := k]> l) = seqZ 0 (k + 1).
Proof.
  intros Hk L E. replace (Z.to_nat (k + 1)) with (S (Z.to_nat k)) by lia. rewrite (take_S_r _ _ k) by (apply list_lookup_insert_eq; lia).
  rewrite take_insert_ge by lia. rewrite E. symmetry. rewrite (seqZ_app 0 k 1) by lia. done.
Qed.

Lemma mpinit_loop_ok es : Forall entry_ok es -> forall fuel m p e s,
  bytes_at m p (length (concat (map encode es))) = concat (map encode es) -> e = p + Z.of_nat (length (concat (map encode es))) -> (length es <= fuel)%nat ->
  0 <= ncpu s -> ncpu s + Z.of_nat (length (processors es)) <= 8 -> length (ids s) = 8%nat -> take (Z.to_nat (ncpu s)) (ids s) = seqZ 0 (ncpu s) ->
  exists s', mpinit_loop fuel m p e s = Done tt s' /\ walked es s s'.
Proof.
  induction 1 as [|x es Hx Hes IH]; intros fuel m p e s Hb He Hf H0 Hn Hl Ht.
  - cbn in He. exists s. split; [destruct fuel; cbn; (replace (p <? e) with false by lia); done|]. constructor; cbn; try done; [lia|by rewrite andb_true_r].
  - destruct fuel as [|fuel]; [cbn in Hf; lia|]. cbn [map concat] in Hb, He. rewrite length_app in He. apply bytes_at_app in Hb as [Hb1 Hb2].
    assert (Hp : p < e) by (destruct x; cbn in He; lia). cbn [mpinit_loop]. rewrite (proj2 (Z.ltb_lt p e) Hp). cbn [length] in Hf.
    destruct x as [id v f rest|id rest|t rest]; cbn in Hx.
    + cbn in Hb1. injection Hb1 as B0 B1 _ B3 _. rewrite Z.add_0_r in B0. change (Z.of_nat 1) with 1 in B1. change (Z.of_nat 3) with 3 in B3. rewrite B0, B1, B3. cbn [Z.eqb MPPROC]. change (processors (EProc id v f rest :: es)) with ((id, f) :: processors es) in Hn. cbn [length] in Hn.
      set (s2 := Mpst (<[Z.to_nat (ncpu s) := ncpu s]> (ids s)) (if Z.land f MPBOOT =? 0 then bcpu s else ncpu s) (ismp s && (ncpu s =? id)) (ncpu s + 1) (ioapicid s) (lapic s) (ports s)).
      assert (E : (let! n := gets ncpu in when (negb (n =? id)) (modify (set_ismp false)) ;! when (negb (Z.land f MPBOOT =? 0)) (modify (fun s => set_bcpu (ncpu s) s)) ;!
                   add_cpu ;! mpinit_loop fuel m (p + sizeof_mpproc) e) s = mpinit_loop fuel m (p + sizeof_mpproc) e s2).
      { unfold bind, gets, add_cpu, s2. destruct s as [a b c n i l q]. cbn in *. destruct (n =? id), (Z.land f MPBOOT =? 0); cbn; rewrite (proj2 (Z.ltb_lt n NCPU)) by (unfold NCPU; lia);
          by rewrite ?andb_true_r, ?andb_false_r. }
      rewrite E. destruct (IH fuel m (p + sizeof_mpproc) e s2) as (s' & E' & [W1 W2 W3 W4 W5 W6 W7]); cbn [ncpu s2 ids]; try lia.
      * replace (p + sizeof_mpproc) with (p + Z.of_nat (length (encode (EProc id v f rest)))) by (cbn; unfold sizeof_mpproc; lia). done.
      * cbn in He. unfold sizeof_mpproc. lia.
      * by rewrite length_insert.
      * apply take_ids; [lia|done|done].
      * exists s'. split; [done|]. cbn [s2 ncpu ids bcpu ismp ioapicid lapic ports] in *. constructor; try done; change (processors (EProc id v f rest :: es)) with ((id, f) :: processors es); cbn [length map fst].
        -- rewrite W1. lia.
        -- rewrite W5, <- andb_assoc. f_equal. rewrite Nat2Z.inj_succ, (seqZ_cons (ncpu s)) by lia. rewrite Z.pred_succ.
           destruct (Z.eqb_spec (ncpu s) id) as [->|N]; cbn [andb]; [apply bool_decide_ext; unfold Z.succ; split; [by intros ->|by intros [= ->]]|].
           rewrite bool_decide_false by congruence. done.
    + cbn in Hb1. injection Hb1 as B0 B1 _. rewrite Z.add_0_r in B0. change (Z.of_nat 1) with 1 in B1. rewrite B0, B1. cbn [Z.eqb MPPROC MPIOAPIC Pos.eqb]. unfold bind at 1, modify.
      destruct (IH fuel m (p + sizeof_mpioapic) e (set_ioapicid id s)) as (s' & E' & [W1 W2 W3 W4 W5 W6 W7]); cbn [ncpu set_ioapicid ids]; try done; try lia.
      * replace (p + sizeof_mpioapic) with (p + Z.of_nat (length (encode (EIoapic id rest)))) by (cbn; unfold sizeof_mpioapic; lia). done.
      * cbn in He. unfold sizeof_mpioapic. lia.
      * exists s'. split; [done|]. constructor; try done. rewrite W6. cbn [omap list_omap ioapic_of]. rewrite last_cons. by destruct (last _).
    + cbn in Hb1. injection Hb1 as B0 _. rewrite Z.add_0_r in B0. rewrite B0. destruct Hx as [Hx Ht'].
      replace (t =? MPPROC) with false by (destruct Ht' as [->|[->| ->]]; done). replace (t =? MPIOAPIC) with false by (destruct Ht' as [->|[->| ->]]; done).
      replace ((t =? MPBUS) || (t =? MPIOINTR) || (t =? MPLINTR)) with true by (destruct Ht' as [->|[->| ->]]; done).
      destruct (IH fuel m (p + 8) e s) as (s' & E' & W); try done; try lia.
      * replace (p + 8) with (p + Z.of_nat (length (encode (EOther t rest)))) by (cbn; lia). done.
      * cbn in He. lia.
      * exists s'. split; [done|]. destruct W. by constructor.
Qed.

(** ** Correctness *)

(** The search finds the first structure at a multiple of 16 bytes from its start. *)
Lemma mpsearch_loop_spec n : forall m a e, 0 <= e - a <= 16 * Z.of_nat n -> match mpsearch_loop n m a e with
  | Some p => exists k, 0 <= k /\ p = a + 16 * k /\ p < e /\ is_mp m p = true /\ forall j, 0 <= j < k -> is_mp m (a + 16 * j) = false
  | None => forall j, 0 <= j -> a + 16 * j < e -> is_mp m (a + 16 * j) = false
  end.
Proof.
  induction n as [|n IH]; intros m a e He; cbn [mpsearch_loop]; [intros j Hj Hl; lia|]. destruct (Z.ltb_spec a e) as [Hl|Hl]; [|intros j Hj Hx; lia].
  destruct (is_mp m a) eqn:Em; [exists 0; rewrite Z.mul_0_r, Z.add_0_r; split_and!; try done; lia|]. unfold sizeof_mp.
  destruct (decide (a + 16 < e)) as [Hb|Hb].
  - specialize (IH m (a + 16) e ltac:(lia)). destruct (mpsearch_loop n m (a + 16) e) as [p|].
    + destruct IH as (k & Hk & -> & Hp & Hi & Hj). exists (k + 1). split_and!; [lia|lia|done|done|]. intros j Hj'. destruct (decide (j = 0)) as [->|]; [by rewrite Z.mul_0_r, Z.add_0_r|].
      replace (a + 16 * j) with (a + 16 + 16 * (j - 1)) by lia. apply Hj. lia.
    + intros j Hj Hx. destruct (decide (j = 0)) as [->|]; [by rewrite Z.mul_0_r, Z.add_0_r|]. replace (a + 16 * j) with (a + 16 + 16 * (j - 1)) by lia. apply IH; lia.
  - replace (mpsearch_loop n m (a + 16) e) with (None : option Z) by (destruct n; cbn; [done|]; by rewrite (proj2 (Z.ltb_ge (a + 16) e)) by lia).
    intros j Hj Hx. assert (j = 0) as -> by lia. by rewrite Z.mul_0_r, Z.add_0_r.
Qed.

(** An entry of an unknown type is never left. *)
Lemma unknown_entry_hangs m p e s fuel : p < e -> 4 < m p -> mpinit_loop fuel m p e s = NoFuel.
Proof.
  intros Hp Ht. revert s. induction fuel as [|f IH]; intros s; cbn [mpinit_loop]; rewrite (proj2 (Z.ltb_lt p e) Hp); [done|]. unfold MPPROC, MPIOAPIC, MPBUS, MPIOINTR, MPLINTR.
  rewrite !(proj2 (Z.eqb_neq (m p) _)) by lia. cbn [orb]. apply IH.
Qed.

(** C24: Finding the processors.  When the firmware has left a structure and a table that
    pass the checks, the table holds any sequence of entries of the five known types,
    and it names at most eight processors, then [mpinit] ends; and if the processors
    are numbered from 0 in the order of their entries, the kernel has exactly these
    processors with their numbers, the one that boots is the one marked so, and the
    local APIC and the I/O APIC are those of the table.  Otherwise the kernel runs on
    one processor without them. *)
Theorem mpinit_finds fuel m imcr mp conf es : mpconfig m = Some (mp, conf) -> Forall entry_ok es ->
  let bytes := concat (map encode es) in
  bytes_at m (conf + sizeof_mpconf) (length bytes) = bytes -> conf_length m conf = sizeof_mpconf + Z.of_nat (length bytes) ->
  (length (processors es) <= 8)%nat -> (length es <= fuel)%nat ->
  let n := Z.of_nat (length (processors es)) in
  exists s, mpinit fuel m imcr mp_zero = Done tt s /\
    if bool_decide (map fst (processors es) = seqZ 0 n) then
      ismp s = true /\ ncpu s = n /\ take (length (processors es)) (ids s) = seqZ 0 n /\ bcpu s = boot_index 0 (processors es) 0 /\
      ioapicid s = default 0 (last (omap ioapic_of es)) /\ lapic s = conf_lapicaddr m conf /\
      ports s = (if mp_imcrp m mp =? 0 then [] else [(34, 112); (35, Z.lor imcr 1)])
    else ismp s = false /\ ncpu s = 1 /\ ioapicid s = 0 /\ lapic s = 0 /\ ports s = [].
Proof.
  intros Hc Hes bytes Hb Hl Hn Hf n. unfold mpinit, bind at 1, modify at 1. rewrite Hc. unfold bind at 1, modify at 1. unfold bind at 1, modify at 1.
  set (s0 := set_lapic _ _). destruct (mpinit_loop_ok es Hes fuel m (conf + sizeof_mpconf) (conf + conf_length m conf) s0) as (s1 & E1 & [W1 W2 W3 W4 W5 W6 [W7 W8]]);
    [exact Hb|fold bytes; lia|exact Hf|cbn; lia|cbn; lia|done|done|].
  run E1. rewrite (bind_Done (gets ismp) _ s1 (ismp s1) s1 eq_refl). cbn in W1, W4, W5, W6, W7, W8. fold n in W5. rewrite W5.
  destruct (bool_decide (map fst (processors es) = seqZ 0 n)); cbn [negb].
  - exists (Mpst (ids s1) (bcpu s1) (ismp s1) (ncpu s1) (ioapicid s1) (lapic s1) (if mp_imcrp m mp =? 0 then [] else [(34, 112); (35, Z.lor imcr 1)])).
    split; [unfold when, modify; destruct (mp_imcrp m mp =? 0); cbn [negb]; rewrite ?W8; [destruct s1; cbn in *; by subst|done]|]. cbn.
    rewrite Z.add_0_l in W1. fold n in W1. split_and!; try done. rewrite W1 in W2. unfold n in W2 at 1. by rewrite Nat2Z.id in W2.
  - eexists. split; [reflexivity|]. cbn. by rewrite W8.
Qed.

(** A structure in the extended BIOS data area at 0x9fc00, and a table at 0x9fd00 of two
    processors, of which the second boots, a bus and an I/O APIC. *)
Definition demo_entries : list entry :=
  [EProc 0 20 1 (replicate 16 0); EProc 1 20 3 (replicate 16 0); EOther MPBUS (replicate 7 0); EIoapic 2 (replicate 6 0)].
Definition demo_conf : list Z :=
  CONF_SIGNATURE ++ [100; 0; 4; 88] ++ replicate 28 0 ++ [0; 0; 224; 254] ++ replicate 4 0 ++ concat (map encode demo_entries).
Definition demo_mp : list Z := MP_SIGNATURE ++ [0; 253; 9; 0; 1; 4; 154; 0; 0; 0; 0; 0].
Definition demo_memory : mem := fun a =>
  if (654336 <=? a) && (a <? 654592) then default 0 (demo_mp !! Z.to_nat (a - 654336))
  else if 654592 <=? a then default 0 (demo_conf !! Z.to_nat (a - 654592))
  else if a =? 1038 then 192 else if a =? 1039 then 159 else 0.

Lemma mpinit_finds_witness : exists s, mpinit 10 demo_memory 0 mp_zero = Done tt s /\ ismp s = true /\ ncpu s = 2 /\ bcpu s = 1 /\ ioapicid s = 2 /\ lapic s = 4276092928.
Proof.
  destruct (mpinit_finds 10 demo_memory 0 654336 654592 demo_entries) as (s & E & H).
  - vm_compute. reflexivity.
  - repeat constructor.
  - vm_compute. reflexivity.
  - vm_compute. reflexivity.
  - cbn. lia.
  - cbn. lia.
  - destruct (bool_decide _) eqn:B in H; [|discriminate B]. destruct H as (H1 & H2 & _ & H4 & H5 & H6 & _). exists s. split; [exact E|].
    split; [exact H1|]. split; [exact H2|]. split; [exact H4|]. split; [exact H5|exact H6].
Defined.

(** Enabling an interrupt clears its bit of the mask and no other. *)
Lemma picenable_bit irq s i : 0 <= irq < 16 -> 0 <= i < 16 -> Z.testbit (picenable irq s).1 i = Z.testbit s.1 i && negb (i =? irq).
Proof.
  intros Hr Hi. cbn. unfold u16. rewrite Z.mod_pow2_bits_low by lia. rewrite Z.land_spec, Z.lnot_spec by lia. f_equal. f_equal.
  rewrite Z.shiftl_spec by lia. destruct (Z.eqb_spec i irq) as [->|N]; [by rewrite Z.sub_diag|]. change 1 with (2 ^ 0). destruct (Z.ltb_spec i irq).
  - apply Z.testbit_neg_r. lia.
  - apply Z.pow2_bits_false. lia.
Qed.

End Mp.
