(* ===== verification/Boot.v ===== *)
(** * The boot loader (kernel/bootmain.c)

    The loader reads the kernel from the disk that starts with the boot sector, through
    the controller of Ide.v, into physical memory.  Whole sectors are read, so a
    segment also writes up to a sector in front of it and behind it; for a kernel
    whose segments come in increasing order, and are not in front of each other by
    less than that, memory ends up with every segment and with zeros behind it. *)

From S2P Require Import Prelude KString Spinlock Bio Disk Ide.

Module Boot.
Import Ide.

Definition SECTSIZE : Z := 512.
Definition ELF_MAGIC : Z := 1179403647.

Record bst (H : Type) := Bst { bm : mem; bhw : H }.
Arguments Bst {H}. Arguments bm {H}. Arguments bhw {H}.

Definition word (m : mem) (a : Z) (n : nat) : Z := le_dec (map (fun i => m (a + Z.of_nat i)) (seq 0 n)).

(** The bytes [l] at [a]. *)
Definition put (a : Z) (l : list Z) (m : mem) : mem := fun b => if (a <=? b) && (b <? a + Z.of_nat (length l)) then l !!! Z.to_nat (b - a) else m b.

Section Boot.
Context {H : Type} `{Controller H} (fuel : nat).

Definition on_hw {A} (m : M H A) : M (bst H) A := zoom bhw (fun h s => Bst (bm s) h) m.

Fixpoint waitdisk (n : nat) : M H unit := fun h =>
  match n with
  | O => NoFuel
  | S n' => let '(r, h) := inb 503 h in if negb (Z.land r 192 =? 64) then waitdisk n' h else Done tt h
  end.

Definition readsect (dst offset : Z) : M (bst H) unit :=
  on_hw (
    waitdisk fuel ;!
    out 498 1 ;!
    out 499 (u8 offset) ;!
    out 500 (u8 (Z.shiftr offset 8)) ;!
    out 501 (u8 (Z.shiftr offset 16)) ;!
    out 502 (u8 (Z.lor (Z.shiftr offset 24) 224)) ;!
    out 503 32 ;!
    waitdisk fuel) ;!
  let! d := on_hw (fun h => let '(d, h) := insl 496 128 h in Done d h) in
  modify (fun s => Bst (put dst d (bm s)) (bhw s)).

(** [for (; pa < epa; pa += SECTSIZE, offset++) readsect(pa, offset);] *)
Fixpoint readseg_loop (n : nat) (pa epa offset : Z) : M (bst H) unit :=
  if pa <? epa then
    match n with
    | O => nofuel
    | S n' => readsect pa offset ;! readseg_loop n' (u32 (pa + SECTSIZE)) epa (u32 (offset + 1))
    end
  else ret tt.

Definition readseg (pa count offset : Z) : M (bst H) unit :=
  let epa := u32 (pa + count) in
  let pa := u32 (pa - offset mod SECTSIZE) in
  readseg_loop (Z.to_nat (count / SECTSIZE + 2)) pa epa (offset / SECTSIZE + 1).

(** [for (; ph < eph; ph++)] *)
Fixpoint load_all (n : nat) (ph eph : Z) : M (bst H) unit :=
  if ph <? eph then
    match n with
    | O => nofuel
    | S n' =>
        let! m := gets bm in
        let off := word m (ph + 4) 4 in
        let pa := word m (ph + 12) 4 in
        let filesz := word m (ph + 16) 4 in
        let memsz := word m (ph + 20) 4 in
        readseg pa filesz off ;!
        when (filesz <? memsz) (modify (fun s => Bst (KString.stosb (u32 (pa + filesz)) 0 (Z.to_nat (memsz - filesz)) (bm s)) (bhw s))) ;!
        load_all n' (u32 (ph + 32)) eph
    end
  else ret tt.

(** [None] when the disk holds no kernel, otherwise the entry point. *)
Definition bootmain : M (bst H) (option Z) :=
  let elf := 65536 in
  readseg elf 4096 0 ;!
  let! m := gets bm in
  if negb (word m elf 4 =? ELF_MAGIC) then ret None
  else
    let phnum := word m (elf + 44) 2 in
    let ph := u32 (elf + word m (elf + 28) 4) in
    let eph := u32 (ph + 32 * phnum) in
    load_all (Z.to_nat phnum) ph eph ;!
    let! m := gets bm in
    ret (Some (word m (elf + 24) 4)).

End Boot.

(** ** Reading *)

Section Loads.
Context {H : Type} `{HA : Ata H} (fuel : nat) (Hfuel : (polls <= fuel)%nat).
Context (Hgood : forall h, 0 <= lba h < sectors (drive h) -> faulty h = false).

(** A byte of the kernel, which starts at sector 1. *)
Definition kbyte (h : H) (x : Z) : Z := media h 0 (x / 512 + 1) !!! Z.to_nat (x mod 512).

Lemma waitdisk_loop_ok n : forall h, (delay h < n)%nat -> exists h', waitdisk n h = Done tt h' /\ delay h' = 0%nat /\ media h' = media h /\ reg h' = reg h /\ cmd h' = cmd h /\ faulty h' = faulty h.
Proof.
  induction n as [|n IH]; intros h Hd; [lia|]. cbn [waitdisk]. destruct (inb_status h) as (R & _ & D & Em & Er & Ec & Ef). change (Z.lor IDE_BSY IDE_DRDY) with 192 in R.
  change IDE_DRDY with 64 in R. destruct (inb 503 h) as [r h1]. cbn [fst snd] in *. rewrite R. destruct (Nat.eqb_spec (delay h) 0) as [Z0|N0]; cbn [negb].
  - exists h1. rewrite Z0 in D. split_and!; done.
  - destruct (IH h1) as (h' & E & D' & M' & R' & C' & F'); [lia|]. exists h'. split_and!; congruence.
Qed.

Lemma waitdisk_ok h : exists h', waitdisk fuel h = Done tt h' /\ delay h' = 0%nat /\ media h' = media h /\ reg h' = reg h /\ cmd h' = cmd h /\ faulty h' = faulty h.
Proof. apply waitdisk_loop_ok. pose proof (delay_polls h). lia. Qed.

Lemma readsect_ok dst offset s : 0 <= offset < 2 ^ 28 -> offset < sectors 0 ->
  exists h', readsect fuel dst offset s = Done tt (Bst (put dst (media (bhw s) 0 offset) (bm s)) h') /\ media h' = media (bhw s).
Proof.
  intros Ho Hn. unfold readsect. destruct (waitdisk_ok (bhw s)) as (h1 & E1 & D1 & M1 & _).
  set (v6 := u8 (Z.lor (Z.shiftr offset 24) 224)).
  assert (W : exists h', (waitdisk fuel ;! out 498 1 ;! out 499 (u8 offset) ;! out 500 (u8 (Z.shiftr offset 8)) ;! out 501 (u8 (Z.shiftr offset 16)) ;! out 502 v6 ;! out 503 32 ;! waitdisk fuel) (bhw s) = Done tt h' /\
    delay h' = 0%nat /\ media h' = media (bhw s) /\ cmd h' = Reading /\ reg h' 498 = 1 /\ drive h' = 0 /\ lba h' = offset).
  { run E1. write_register h2 D2 M2 R2. write_register h3 D3 M3 R3. write_register h4 D4 M4 R4. write_register h5 D5 M5 R5. write_register h6 D6 M6 R6.
    destruct (outb_command 32 h6 D6 ltac:(by left)) as (M7 & R7 & C7). change (32 =? IDE_CMD_READ) with true in C7. set (h7 := outb 503 32 h6) in *. rewrite (bind_Done (out 503 32) _ h6 tt h7 eq_refl).
    destruct (waitdisk_ok h7) as (h8 & E8 & D8 & M8 & R8 & C8 & _). exists h8. rewrite E8. split; [done|]. split; [done|]. split; [congruence|]. split; [congruence|].
    assert (Hk : 0 <= Z.shiftr offset 24 < 16) by (rewrite Z.shiftr_div_pow2 by lia; change (2 ^ 24) with 16777216; Z.div_mod_to_equations; lia).
    pose proof (drive_register 0 (Z.shiftr offset 24) ltac:(lia) Hk) as [Lo Up]. change (Z.lor 224 (Z.shiftl 0 4)) with 224 in Lo, Up. rewrite Z.lor_comm in Lo, Up. cbv zeta in Lo, Up.
    assert (E6 : v6 = Z.lor (Z.shiftr offset 24) 224).
    { unfold v6, u8. apply Z.mod_small. change (2 ^ 8) with 256. split; [apply Z.lor_nonneg; lia|]. apply Z.log2_lt_cancel. change (Z.log2 256) with 8.
      rewrite Z.log2_lor by lia. change (Z.log2 224) with 7. assert (Z.log2 (Z.shiftr offset 24) <= 3) by (apply (Z.log2_le_mono _ 15); lia). lia. }
    unfold drive, lba. rewrite R8, R7, !R6, !R5, !R4, !R3, !R2. cbn [Z.eqb Pos.eqb]. rewrite E6. split; [done|]. split; [done|]. rewrite Lo.
    unfold u8. rewrite !Z.shiftr_div_pow2 by lia. change (2 ^ 8) with 256. change (2 ^ 16) with 65536. change (2 ^ 24) with 16777216. Z.div_mod_to_equations. lia. }
  destruct W as (h' & Ew & D' & M' & C' & R' & Dr & Lb). rewrite (bind_Done _ _ s tt (Bst (bm s) h') (zoom_Done bhw (fun h s => Bst (bm s) h) _ s tt h' Ew)).
  destruct (insl_data h' C' D') as [Ed Mi]; [apply Hgood; rewrite Dr, Lb; lia|done|rewrite Dr, Lb; lia|]. destruct (insl 496 128 h') as [d h2] eqn:Ei. cbn [fst snd] in *.
  rewrite (bind_Done _ _ (Bst (bm s) h') d (Bst (bm s) h2)) by (unfold on_hw, zoom; cbn; by rewrite Ei). exists h2.
  unfold modify. cbn. rewrite Ed, Dr, Lb, M'. split; [done|congruence].
Qed.

(** Bytes of the kernel at an address: [put] of a sector. *)
Lemma put_sector h a sec m b : 0 <= sec < sectors 0 -> put a (media h 0 sec) m b =
  if (a <=? b) && (b <? a + 512) then media h 0 sec !!! Z.to_nat (b - a) else m b.
Proof using Type. clear fuel Hfuel Hgood. intros Hs. unfold put. rewrite media_length by done. done. Qed.

(** The loop writes the sectors that cover the area, and nothing else. *)
Lemma readseg_loop_ok n : forall pa epa offset s, 0 <= pa -> epa + 512 <= 2 ^ 32 -> epa <= pa + 512 * Z.of_nat n -> 0 <= offset -> offset + Z.of_nat n <= 2 ^ 28 -> offset + Z.of_nat n <= sectors 0 ->
  exists h' m' k, readseg_loop fuel n pa epa offset s = Done tt (Bst m' h') /\ media h' = media (bhw s) /\ 0 <= k <= Z.of_nat n /\ epa <= pa + 512 * k /\ (epa <= pa -> k = 0) /\
    forall b, m' b = if (pa <=? b) && (b <? pa + 512 * k) then media (bhw s) 0 (offset + (b - pa) / 512) !!! Z.to_nat ((b - pa) mod 512) else bm s b.
Proof.
  assert (Stop : forall pa epa offset (s : bst H), epa <= pa -> forall b, bm s b = if (pa <=? b) && (b <? pa + 512 * 0) then media (bhw s) 0 (offset + (b - pa) / 512) !!! Z.to_nat ((b - pa) mod 512) else bm s b).
  { intros pa epa offset s _ b. destruct (_ && _) eqn:E; [lia|done]. }
  induction n as [|n IH]; intros pa epa offset s Hpa Hepa He Ho Hb Hs; cbn [readseg_loop]; destruct (Z.ltb_spec pa epa) as [Hl|Hl].
  1: lia.
  1, 3: exists (bhw s), (bm s), 0; split; [by destruct s|]; split; [done|]; split_and!; [lia|lia|lia|done|by apply (Stop pa epa)].
  destruct (readsect_ok pa offset s) as (h1 & E1 & M1); [lia|lia|]. run E1. rewrite !u32_small by (unfold SECTSIZE; lia).
  destruct (IH (pa + SECTSIZE) epa (offset + 1) (Bst (put pa (media (bhw s) 0 offset) (bm s)) h1)) as (h' & m' & k & E & M' & Hk & Hc & _ & Hm); [unfold SECTSIZE; lia|lia|unfold SECTSIZE; lia|lia|lia|lia|].
  exists h', m', (k + 1). split; [done|]. cbn in M', Hm. unfold SECTSIZE in *. split; [congruence|]. split; [lia|]. split; [lia|]. split; [lia|]. intros b. rewrite Hm, M1.
  rewrite put_sector by lia. destruct (Z.leb_spec (pa + 512) b) as [Hge|Hlt]; cbn [andb].
  - replace (pa + 512 * (k + 1)) with (pa + 512 + 512 * k) by lia. rewrite (proj2 (Z.leb_le pa b)) by lia. cbn [andb]. destruct (b <? pa + 512 + 512 * k).
    + replace (b - pa) with (b - (pa + 512) + 1 * 512) by lia. rewrite Z.div_add, Z.mod_add by lia. do 2 f_equal. lia.
    + rewrite (proj2 (Z.ltb_ge b (pa + 512))) by lia. done.
  - rewrite (proj2 (Z.ltb_lt b (pa + 512))) by lia. rewrite (proj2 (Z.ltb_lt b (pa + 512 * (k + 1)))) by lia. rewrite andb_true_r. destruct (Z.leb_spec pa b); [|done]. cbn [andb].
    rewrite Z.div_small, Z.mod_small by lia. by rewrite Z.add_0_r.
Qed.

(** [readseg] puts the bytes of the kernel at [pa], and writes at most a sector more on
    each side. *)
Lemma readseg_ok pa count offset s : 0 <= offset -> offset mod 512 <= pa -> pa + count + 512 <= 2 ^ 32 -> 0 <= count -> offset / 512 + count / 512 + 3 <= 2 ^ 28 -> offset / 512 + count / 512 + 3 <= sectors 0 ->
  exists h' m', readseg fuel pa count offset s = Done tt (Bst m' h') /\ media h' = media (bhw s) /\
    (forall i, 0 <= i < count -> m' (pa + i) = kbyte (bhw s) (offset + i)) /\
    (forall b, b < pa - offset mod 512 \/ (count = 0 /\ offset mod 512 = 0) -> m' b = bm s b).
Proof.
  intros Ho Hlow Htop Hc H1 H2. unfold readseg, SECTSIZE. pose proof (Z.mod_pos_bound offset 512 ltac:(lia)) as Hm. pose proof (Z.div_mod offset 512 ltac:(lia)) as Hd.
  pose proof (Z.div_mod count 512 ltac:(lia)) as Hcd. pose proof (Z.mod_pos_bound count 512 ltac:(lia)) as Hcm. pose proof (Z.div_pos offset 512 ltac:(lia) ltac:(lia)). pose proof (Z.div_pos count 512 ltac:(lia) ltac:(lia)).
  rewrite !u32_small by lia. destruct (readseg_loop_ok (Z.to_nat (count / 512 + 2)) (pa - offset mod 512) (pa + count) (offset / 512 + 1) s) as (h' & m' & k & E & M' & Hk & Hcov & Hz & Hm'); [lia..|].
  exists h', m'. split; [done|]. split; [done|]. split.
  - intros i Hi. rewrite Hm'. rewrite (proj2 (Z.leb_le _ _)), (proj2 (Z.ltb_lt _ _)) by lia. cbn [andb]. unfold kbyte.
    replace (pa + i - (pa - offset mod 512)) with (offset + i - (offset / 512) * 512) by lia. f_equal.
    + f_equal. replace (offset + i - offset / 512 * 512) with (offset + i + (- (offset / 512)) * 512) by lia. by rewrite Z.mod_add by lia.
    + f_equal. replace (offset + i - offset / 512 * 512) with (offset + i + (- (offset / 512)) * 512) by lia. rewrite Z.div_add by lia. lia.
  - intros b Hb. rewrite Hm'. destruct Hb as [Hb|[-> Hb]]; [rewrite (proj2 (Z.leb_gt _ _)) by lia; done|]. rewrite (Hz ltac:(lia)). destruct (_ && _) eqn:Eb; [lia|done].
Qed.

(** ** Loading *)

Record seg := Seg { s_off : Z; s_pa : Z; s_filesz : Z; s_memsz : Z }.

(** The program headers at [ph]. *)
Fixpoint headers (m : mem) (ph : Z) (segs : list seg) : Prop :=
  match segs with
  | [] => True
  | x :: l => word m (ph + 4) 4 = s_off x /\ word m (ph + 12) 4 = s_pa x /\ word m (ph + 16) 4 = s_filesz x /\ word m (ph + 20) 4 = s_memsz x /\ headers m (ph + 32) l
  end.

(** A segment is on the disk, and its place in memory ends a sector below 4 GB, so that no
    address wraps around. *)
Definition on_image (x : seg) : Prop :=
  0 <= s_off x /\ 0 <= s_filesz x /\ 0 <= s_memsz x /\ s_pa x + Z.max (s_filesz x) (s_memsz x) + 512 <= 2 ^ 32 /\ s_off x / 512 + s_filesz x / 512 + 3 <= 2 ^ 28 /\ s_off x / 512 + s_filesz x / 512 + 3 <= sectors 0.

(** Each segment, and the rest of its first sector, is behind what was loaded before. *)
Fixpoint increasing (lo : Z) (segs : list seg) : Prop :=
  match segs with [] => True | x :: l => lo <= s_pa x - s_off x mod 512 /\ increasing (s_pa x + Z.max (s_filesz x) (s_memsz x)) l end.

Definition in_memory (h : H) (m : mem) (x : seg) : Prop :=
  (forall i, 0 <= i < s_filesz x -> m (s_pa x + i) = kbyte h (s_off x + i)) /\ (forall i, s_filesz x <= i < s_memsz x -> m (s_pa x + i) = 0).

(** The end of the page the file header is read to. *)
Definition SCRATCH_END : Z := 69632.

Lemma word_same m m' lo a n : (forall b, b < lo -> m' b = m b) -> a + Z.of_nat n <= lo -> word m' a n = word m a n.
Proof using Type. clear fuel Hfuel Hgood. intros E Ha. unfold word. f_equal. apply map_ext_in. intros i Hi. apply in_seq in Hi. apply E. lia. Qed.

Lemma headers_same m m' lo segs : (forall b, b < lo -> m' b = m b) -> forall ph, ph + 32 * Z.of_nat (length segs) <= lo -> headers m ph segs -> headers m' ph segs.
Proof using Type. clear fuel Hfuel Hgood.
  intros E. induction segs as [|x l IH]; intros ph Hp; cbn [headers length] in *; [done|]. intros (H1 & H2 & H3 & H4 & H5). rewrite !(word_same m m' lo) by (done || lia).
  split_and!; try done. apply IH; [lia|done].
Qed.

Lemma load_all_ok segs : Forall on_image segs -> forall ph lo s, headers (bm s) ph segs -> 0 <= ph -> ph + 32 * Z.of_nat (length segs) <= SCRATCH_END -> SCRATCH_END <= lo -> increasing lo segs ->
  exists h' m', load_all fuel (length segs) ph (ph + 32 * Z.of_nat (length segs)) s = Done tt (Bst m' h') /\ media h' = media (bhw s) /\ (forall b, b < lo -> m' b = bm s b) /\ Forall (in_memory (bhw s) m') segs.
Proof.
  induction 1 as [|x l Hx Hl IH]; intros ph lo s Hh Hp0 Hp Hlo Hi; cbn [load_all length headers increasing] in *; [rewrite (proj2 (Z.ltb_ge _ _)) by lia; exists (bhw s), (bm s); split; [by destruct s|done]|].
  destruct Hh as (W1 & W2 & W3 & W4 & Hh). destruct Hi as [Hi Hr]. destruct Hx as (O1 & O2 & O3 & Ot & O4 & O5). rewrite (proj2 (Z.ltb_lt _ _)) by lia. rewrite (bind_Done (gets bm) _ s (bm s) s eq_refl), W1, W2, W3, W4.
  pose proof (Z.mod_pos_bound (s_off x) 512 ltac:(lia)) as Hmod. unfold SCRATCH_END in *. rewrite !u32_small by lia.
  destruct (readseg_ok (s_pa x) (s_filesz x) (s_off x) s O1 ltac:(lia) ltac:(lia) O2 O4 O5) as (h1 & m1 & E1 & M1 & B1 & K1). run E1.
  set (m2 := if s_filesz x <? s_memsz x then KString.stosb (s_pa x + s_filesz x) 0 (Z.to_nat (s_memsz x - s_filesz x)) m1 else m1).
  assert (E2 : when (s_filesz x <? s_memsz x) (modify (fun s => Bst (KString.stosb (s_pa x + s_filesz x) 0 (Z.to_nat (s_memsz x - s_filesz x)) (bm s)) (bhw s))) (Bst m1 h1) = Done tt (Bst m2 h1)) by (unfold m2; by destruct (_ <? _)).
  run E2.
  assert (V2 : forall b, m2 b = if (s_pa x + s_filesz x <=? b) && (b <? s_pa x + s_memsz x) then 0 else m1 b).
  { intros b. unfold m2. destruct (Z.ltb_spec (s_filesz x) (s_memsz x)) as [Hm|Hm]; [|KString.in_range; done]. rewrite (KString.stosb_stored _ _ _ m1 b). KString.in_range; done. }
  assert (K2 : forall b, b < lo -> m2 b = bm s b). { intros b Hb. rewrite V2. KString.in_range; apply K1; lia. }
  destruct (IH (ph + 32) (s_pa x + Z.max (s_filesz x) (s_memsz x)) (Bst m2 h1)) as (h' & m' & E & M' & K' & F').
  - cbn. eapply headers_same; [exact K2| |exact Hh]. lia.
  - lia.
  - lia.
  - lia.
  - done.
  - replace (ph + 32 + 32 * Z.of_nat (length l)) with (ph + 32 * Z.of_nat (S (length l))) in E by lia.
    exists h', m'. cbn in M', K', F'. split; [done|]. split; [congruence|]. split; [intros b Hb; rewrite K' by lia; by apply K2|]. constructor.
    + split; intros i Hii; rewrite K' by lia; rewrite V2.
      * rewrite (proj2 (Z.leb_gt _ _)) by lia. cbn [andb]. by apply B1.
      * rewrite (proj2 (Z.leb_le _ _)), (proj2 (Z.ltb_lt _ _)) by lia. done.
    + eapply Forall_impl; [exact F'|]. intros y [Y1 Y2]. unfold in_memory, kbyte in *. rewrite M1 in Y1. done.
Qed.

(** A number in the image of the kernel, and the program headers there. *)
Definition kword (h : H) (x : Z) (n : nat) : Z := le_dec (map (fun i => kbyte h (x + Z.of_nat i)) (seq 0 n)).

Fixpoint kheaders (h : H) (x : Z) (segs : list seg) : Prop :=
  match segs with
  | [] => True
  | y :: l => kword h (x + 4) 4 = s_off y /\ kword h (x + 12) 4 = s_pa y /\ kword h (x + 16) 4 = s_filesz y /\ kword h (x + 20) 4 = s_memsz y /\ kheaders h (x + 32) l
  end.

Lemma kword_word h m x n : (forall i, 0 <= i < 4096 -> m (65536 + i) = kbyte h i) -> 0 <= x -> x + Z.of_nat n <= 4096 -> word m (65536 + x) n = kword h x n.
Proof using Type. clear fuel Hfuel Hgood. intros E Hx Hn. unfold word, kword. f_equal. apply map_ext_in. intros i Hi. apply in_seq in Hi. rewrite <- Z.add_assoc. apply E. lia. Qed.

Lemma kheaders_headers h m segs : (forall i, 0 <= i < 4096 -> m (65536 + i) = kbyte h i) -> forall x, 0 <= x -> x + 32 * Z.of_nat (length segs) <= 4096 ->
  kheaders h x segs -> headers m (65536 + x) segs.
Proof using Type. clear fuel Hfuel Hgood.
  intros E. induction segs as [|y l IH]; intros x Hx Hn; cbn [kheaders headers length] in *; [done|]. rewrite <- !Z.add_assoc. rewrite !(kword_word h m) by (done || lia).
  intros (H1 & H2 & H3 & H4 & H5). split_and!; try done. apply IH; [lia|lia|done].
Qed.

End Loads.

Section Property.
Context {H : Type} `{HA : Ata H}.

(** C23: The boot loader loads the kernel.  The loader does not look at the controller's
    error bit, so no command for a sector of the disk may fail.  When the disk then holds
    an ELF file from its second sector on, whose program headers are in the first page
    and describe segments that are on the disk, in increasing order above the scratch
    page and with their ends a sector below 4 GB ([on_image], [increasing]), the loader
    ends with every segment at its physical address, byte for byte as in the file, with
    zeros up to the size in memory, and jumps to the entry point of the file.  Without
    the magic number it gives up. *)
Theorem bootmain_loads fuel segs (s : bst H) : let h := bhw s in
  (polls <= fuel)%nat -> (forall h : H, 0 <= lba h < sectors (drive h) -> faulty h = false) ->
  11 <= sectors 0 -> kword h 44 2 = Z.of_nat (length segs) -> let po := kword h 28 4 in 0 <= po -> po + 32 * Z.of_nat (length segs) <= 4096 ->
  kheaders h po segs -> Forall on_image segs -> increasing SCRATCH_END segs ->
  if kword h 0 4 =? ELF_MAGIC then exists s', bootmain fuel s = Done (Some (kword h 24 4)) s' /\ Forall (in_memory h (bm s')) segs
  else exists s', bootmain fuel s = Done None s'.
Proof.
  intros h Hf Hg Hsec Hnum po Hpo Hph Hk Hseg Hinc. unfold bootmain. destruct (readseg_ok fuel Hf Hg 65536 4096 0 s) as (h1 & m1 & E1 & M1 & B1 & _); [lia|done|lia|lia|done|by change (0 / 512 + 4096 / 512 + 3) with 11|].
  run E1. rewrite (bind_Done (gets bm) _ (Bst m1 h1) m1 (Bst m1 h1) eq_refl). fold h in B1.
  pose proof (kword_word h m1 0 4 B1 ltac:(lia) ltac:(lia)) as Wm. rewrite Z.add_0_r in Wm. rewrite Wm. destruct (kword h 0 4 =? ELF_MAGIC); cbn [negb]; [|by eexists].
  rewrite (kword_word h m1 44 2 B1), (kword_word h m1 28 4 B1) by lia. rewrite Hnum, Nat2Z.id. fold po. cbv zeta. rewrite !u32_small by lia.
  destruct (load_all_ok fuel Hf Hg segs Hseg (65536 + po) SCRATCH_END (Bst m1 h1)) as (h2 & m2 & E2 & M2 & K2 & F2); [cbn; by apply (kheaders_headers h)|lia|unfold SCRATCH_END; lia|done|done|].
  run E2. rewrite (bind_Done (gets bm) _ (Bst m2 h2) m2 (Bst m2 h2) eq_refl). exists (Bst m2 h2). split.
  - unfold ret. do 2 f_equal. rewrite (word_same m1 m2 SCRATCH_END); [|exact K2|unfold SCRATCH_END; lia]. by apply kword_word.
  - cbn in *. eapply Forall_impl; [exact F2|]. intros x [X1 X2]. unfold in_memory, kbyte in *. rewrite M1 in X1. done.
Qed.

End Property.

(** A kernel of one segment of 600 bytes and 100 zeros, at the third sector of the file. *)
Definition header : list Z :=
  le_enc 4 ELF_MAGIC ++ replicate 20 0 ++ le_enc 4 1048588 ++ le_enc 4 52 ++ replicate 12 0 ++ [1; 0] ++ replicate 6 0 ++
  le_enc 4 1 ++ le_enc 4 1024 ++ le_enc 4 0 ++ le_enc 4 1048576 ++ le_enc 4 600 ++ le_enc 4 700.
Definition kernel_disk : ctl := Ctl (fun d s => if s =? 1 then header else if (s =? 3) || (s =? 4) then replicate 512 144 else []) (fun _ => 0) Idle 0.

Lemma bootmain_loads_witness : exists s', bootmain (H0 := ctl_ports 16) 4 (Bst (fun _ => 0) kernel_disk) = Done (Some 1048588) s' /\ bm s' 1048576 = 144 /\ bm s' 1049176 = 0.
Proof.
  pose proof (bootmain_loads (HA := ctl_ata 16) 4 [Seg 1024 1048576 600 700] (Bst (fun _ => 0) kernel_disk)) as B. cbv zeta in B. cbn [bhw] in B.
  destruct B as (s' & E & F).
  - apply le_n.
  - intros h Hl. change ((c_lba h =? 16) = false). change (0 <= c_lba h < if c_drive h =? 0 then 16 else 0) in Hl. destruct (_ =? 0) in Hl; lia.
  - discriminate.
  - reflexivity.
  - discriminate.
  - discriminate.
  - repeat split; vm_compute; reflexivity.
  - repeat constructor; vm_compute; discriminate.
  - split; [vm_compute; discriminate|exact I].
  - exists s'. apply Forall_cons in F as [[F1 F2] _]. split; [exact E|]. split; [exact (F1 0 ltac:(cbn; lia))|exact (F2 600 ltac:(cbn; lia))].
Defined.

End Boot.
