(* ===== verification/Mkfs.v ===== *)
(** * The builder of the disk image (mkfs.c)

    The builder as a function of the directory tree it is given: a file is the pieces
    its bytes are read in, a directory the list of its entries in the order the host
    gives them.  [add_dir] is written over the three things it does to the image
    ([Image]); run on a list of files it gives the files the image should hold, and the
    run on the sectors is proved to hold exactly these, as the kernel reads them
    ([stands], [reads_as]). *)

From S2P Require Import Prelude Spinlock Bio Log Fs FsBlocks FsFile.

Module Mkfs.
Import Fs FsBlocks FsFile.

Definition ninodes : Z := 200.
Definition LOGSIZE : Z := 10.
Definition ROOTINO : Z := 1.

(** The image by sectors and their number, and the counters. *)
Record mst := Mst { img : Z -> block; nsect : Z; freeblock : Z; usedblocks : Z; freeinode : Z }.

Definition zeroes : block := replicate 512 0.
Definition empty_image : mst := Mst (fun _ => zeroes) 0 0 0 1.

Definition set_img (v : Z -> block) (n : Z) (s : mst) : mst := Mst v n (freeblock s) (usedblocks s) (freeinode s).

(** Reading behind the end of the image fails, writing extends it. *)
Definition rsect (sec : Z) : M mst block := fun s => if sec <? nsect s then Done (img s sec) s else Panic "read".
Definition wsect (sec : Z) (x : block) : M mst unit := modify (fun s => set_img (vupd sec x (img s)) (Z.max (nsect s) (sec + 1)) s).

(** [struct superblock]: size, nblocks, ninodes, nlog. *)
Definition sb_bytes (size nblocks nlog : Z) : list Z := le_enc 4 size ++ le_enc 4 nblocks ++ le_enc 4 ninodes ++ le_enc 4 nlog.

Definition mkfs (nblocks nlog size : Z) : M mst unit :=
  let bitblocks := size / (512 * 8) + 1 in
  let used := ninodes / IPB + 3 + bitblocks in
  modify (fun s => Mst (img s) (nsect s) used used (freeinode s)) ;!
  if negb (nblocks + used + nlog =? size) then panic "assert"
  else
    forM (seqZ 0 (nblocks + used + nlog)) (fun i => wsect i zeroes) ;!
    wsect 1 (poke 0 (sb_bytes size nblocks nlog) zeroes).

Definition i2b (inum : Z) : Z := u32 (inum / IPB + 2).

Definition winode (inum : Z) (din : inode) : M mst unit :=
  let! x := rsect (i2b inum) in
  wsect (i2b inum) (dinode_put (islot inum) din x).

Definition rinode (inum : Z) : M mst inode :=
  let! x := rsect (i2b inum) in
  ret (dinode_get (islot inum) x zero_inode).

Definition ialloc (type : Z) : M mst Z :=
  let! inum := gets freeinode in
  modify (fun s => Mst (img s) (nsect s) (freeblock s) (usedblocks s) (freeinode s + 1)) ;!
  winode inum (Inode 0 0 0 0 type 0 0 1 0 (replicate (S NDIRECT) 0)) ;!
  ret inum.

(** [freeblock++] with [usedblocks++] *)
Definition take_block : M mst Z := fun s =>
  Done (freeblock s) (Mst (img s) (nsect s) (u32 (freeblock s + 1)) (u32 (usedblocks s + 1)) (freeinode s)).

(** The block of the file's block [fbn], which is allocated if need be. *)
Definition file_block (din : inode) (fbn : Z) : M mst (Z * inode) :=
  if fbn <? Z.of_nat NDIRECT then
    let k := Z.to_nat fbn in
    if i_addrs din !!! k =? 0 then let! b := take_block in ret (b, set_addrs (<[k := b]> (i_addrs din)) din)
    else ret (i_addrs din !!! k, din)
  else
    let! din :=
      if i_addrs din !!! NDIRECT =? 0 then let! b := take_block in ret (set_addrs (<[NDIRECT := b]> (i_addrs din)) din)
      else ret din in
    let a := i_addrs din !!! NDIRECT in
    let p := Z.to_nat (4 * (fbn - Z.of_nat NDIRECT)) in
    let! indirect := rsect a in
    if get32 indirect p =? 0 then
      let! b := take_block in
      wsect a (put32 p b indirect) ;!
      ret (b, din)
    else ret (get32 indirect p, din).

(** [while (n > 0)] *)
Fixpoint iappend_loop (fuel : nat) (din : inode) (off : Z) (p : list Z) : M mst (inode * Z) :=
  match p with
  | [] => ret (din, off)
  | _ =>
      match fuel with
      | O => nofuel
      | S f =>
          let fbn := off / 512 in
          if negb (fbn <? MAXFILE) then panic "assert"
          else
            let! r := file_block din fbn in
            let n1 := Z.min (Z.of_nat (length p)) ((fbn + 1) * 512 - off) in
            let! buf := rsect r.1 in
            wsect r.1 (poke (Z.to_nat (off - fbn * 512)) (take (Z.to_nat n1) p) buf) ;!
            iappend_loop f r.2 (off + n1) (drop (Z.to_nat n1) p)
      end
  end.

Definition iappend (inum : Z) (p : list Z) : M mst unit :=
  let! din := rinode inum in
  let! r := iappend_loop (length p) din (i_size din) p in
  winode inum (set_size r.2 r.1).

(** [struct dirent]: [strncpy] pads the name. *)
Definition dirent (inum : Z) (name : list Z) : list Z := le_enc 2 inum ++ strncpy_from DIRSIZ 0 name.

(** The host's files: the pieces in which [read] gives a file, the entries of a
    directory in the order of [readdir_r], [None] for a directory that cannot be read,
    and an entry that cannot be opened. *)
Inductive host :=
  | HFile (name : list Z) (pieces : list (list Z))
  | HDir (name : list Z) (entries : option (list host))
  | HClosed (name : list Z).

Definition host_name (t : host) : list Z := match t with HFile n _ | HDir n _ | HClosed n => n end.

(** The entries that are passed over, and the name in the image. *)
Definition hidden (name : list Z) : bool := match name with c :: _ => c =? 46 | [] => false end.
Definition image_name (name : list Z) : list Z :=
  match strncpy_from DIRSIZ 0 name with c :: l => (if c =? 95 then 46 else c) :: l | [] => [] end.

(** What [add_dir] does to the image: [ialloc], [iappend], and the end, where the size
    of the directory becomes whole blocks. *)
Class Image (S : Type) := { new_inode : Z -> M S Z; append_to : Z -> list Z -> M S unit; whole_size : Z -> M S unit }.

Definition fix_size (inum : Z) : M mst unit :=
  let! din := rinode inum in
  winode inum (set_size ((i_size din / BSIZE + 1) * BSIZE) din).

#[export] Instance on_image : Image mst := {| new_inode := ialloc; append_to := iappend; whole_size := fix_size |}.

Section AddDir.
Context {S : Type} `{Image S}.

Definition dots (cur parent : Z) : M S unit :=
  append_to cur (dirent cur [46]) ;!
  append_to cur (dirent parent [46; 46]).

Definition each {A} (f : A -> M S unit) : list A -> M S unit :=
  fix go l := match l with [] => ret tt | x :: l' => f x ;! go l' end.

(** [add_dir], whose loop runs [add] on the entries. *)
Definition fill_dir (add : Z -> host -> M S unit) (cur_dir : option (list host)) (cur_inode parent_inode : Z) : M S unit :=
  dots cur_inode parent_inode ;!
  match cur_dir with
  | None => ret tt
  | Some l => each (add cur_inode) l ;! whole_size cur_inode
  end.

(** The body of the loop: the file or directory [t], then its name in [cur_inode]. *)
Fixpoint add_entry (cur_inode : Z) (t : host) : M S unit :=
  if hidden (host_name t) then ret tt
  else
    let! child_inode :=
      match t with
      | HFile _ pieces =>
          let! child_inode := new_inode T_FILE in
          each (append_to child_inode) pieces ;!
          ret child_inode
      | HDir _ entries =>
          let! child_inode := new_inode T_DIR in
          fill_dir add_entry entries child_inode cur_inode ;!
          ret child_inode
      | HClosed _ => panic "open"
      end in
    append_to cur_inode (le_enc 2 child_inode ++ image_name (host_name t)).

Definition add_dir : option (list host) -> Z -> Z -> M S unit := fill_dir add_entry.

End AddDir.

Definition bitmap (used : Z) : block := foldl (fun x i => bit_set i x) zeroes (seqZ 0 used).

Definition balloc (used : Z) : M mst unit :=
  if negb (used <? 512 * 8) then panic "assert" else wsect (ninodes / IPB + 3) (bitmap used).

Definition main (root : option (list host)) : M mst unit :=
  mkfs 985 LOGSIZE 1024 ;!
  let! root_inode := ialloc T_DIR in
  if negb (root_inode =? ROOTINO) then panic "assert"
  else
    add_dir root root_inode root_inode ;!
    let! used := gets usedblocks in
    balloc used.

(** ** A file with its first blocks

    [wf v i fb nb ib]: the first [nb] blocks of the file are there, each between the
    bitmap and [fb] and none of them twice, and [ib] says if it has a block of
    addresses. *)
Definition DATA : Z := 29.
#[local] Arguments ind : simpl never.
#[local] Arguments baddr : simpl never.

Record wf (v : Z -> block) (i : inode) (fb nb : Z) (ib : bool) : Prop := {
  w_len : length (i_addrs i) = S NDIRECT;
  w_nb : 0 <= nb <= MAXFILE;
  w_in m : 0 <= m < nb -> DATA <= baddr v i m < fb;
  w_out m : nb <= m < MAXFILE -> baddr v i m = 0;
  w_ind : if ib then DATA <= ind i < fb else ind i = 0 /\ nb <= Z.of_nat NDIRECT;
  w_inj m m' : 0 <= m < nb -> 0 <= m' < nb -> baddr v i m = baddr v i m' -> m = m';
  w_sep m : 0 <= m < nb -> baddr v i m <> ind i }.

Lemma wf_owns v i fb nb ib z : wf v i fb nb ib -> owns v i z -> DATA <= z < fb.
Proof.
  intros W [Hz [-> | (m & Hm & <-)]].
  - pose proof (w_ind _ _ _ _ _ W) as Hi. destruct ib; [done|]. by destruct Hi.
  - destruct (decide (m < nb)); [apply W; lia|]. rewrite (w_out _ _ _ _ _ W) in Hz by lia. done.
Qed.

(** Block [b] becomes block [p] of the file, or its block of addresses. *)
Record grows (v : Z -> block) (i : inode) (b : Z) (p : option Z) (v' : Z -> block) (i' : inode) : Prop := {
  gr_len : length (i_addrs i') = S NDIRECT;
  gr_addr m : 0 <= m < MAXFILE -> baddr v' i' m = if decide (p = Some m) then b else baddr v i m;
  gr_ind : ind i' = if decide (p = None) then b else ind i;
  gr_frame z : (z = ind i -> ind i = 0) -> v' z = v z }.

Lemma grows_block v i fb nb ib v' i' : wf v i fb nb ib -> DATA <= fb -> nb < MAXFILE ->
  grows v i fb (Some nb) v' i' -> (nb < Z.of_nat NDIRECT \/ ib = true) -> wf v' i' (fb + 1) (nb + 1) ib.
Proof.
  intros W Hf Hn G Hi. destruct G as [Gl Ga Gi Gf]. rewrite decide_False in Gi by done. unfold MAXFILE in *.
  assert (A : forall m, 0 <= m < nb -> baddr v' i' m = baddr v i m).
  { intros m Hm. rewrite Ga by lia. rewrite decide_False; [done|]. intros [= ->]. lia. }
  assert (A1 : baddr v' i' nb = fb). { rewrite Ga by (pose proof (w_nb _ _ _ _ _ W); lia). by rewrite decide_True. }
  assert (C : forall m, 0 <= m < nb + 1 -> m = nb \/ 0 <= m < nb) by lia.
  pose proof (w_nb _ _ _ _ _ W) as Hnb. unfold MAXFILE in Hnb. pose proof (w_in _ _ _ _ _ W) as Win. constructor.
  - done.
  - unfold MAXFILE. lia.
  - intros m [-> | Hm]%C; [rewrite A1; lia|]. rewrite A by done. specialize (Win m Hm). lia.
  - intros m Hm. unfold MAXFILE in Hm. rewrite Ga by lia. rewrite decide_False by (intros [= ->]; lia). apply (w_out _ _ _ _ _ W). unfold MAXFILE. lia.
  - pose proof (w_ind _ _ _ _ _ W) as Wi. rewrite Gi. destruct ib; [lia|]. destruct Hi; [|done]. lia.
  - intros m m' [-> | Hm]%C [-> | Hm']%C; rewrite ?A1, ?A by done; intros E.
    + done.
    + specialize (Win m' Hm'). lia.
    + specialize (Win m Hm). lia.
    + by apply (w_inj _ _ _ _ _ W).
  - pose proof (w_ind _ _ _ _ _ W) as Wi. unfold DATA in *. rewrite Gi.
    intros m [-> | Hm]%C; [rewrite A1; destruct ib; lia|]. rewrite A by done. by apply W.
Qed.

Lemma grows_ind v i fb nb v' i' : wf v i fb nb false -> DATA <= fb -> grows v i fb None v' i' -> wf v' i' (fb + 1) nb true.
Proof.
  intros W Hf [Gl Ga Gi Gf]. rewrite decide_True in Gi by done. pose proof (w_nb _ _ _ _ _ W) as Hnb.
  assert (A : forall m, 0 <= m < MAXFILE -> baddr v' i' m = baddr v i m) by (intros m Hm; by rewrite Ga).
  pose proof (w_in _ _ _ _ _ W) as Win. constructor.
  - done.
  - done.
  - intros m Hm. rewrite A by lia. specialize (Win m Hm). lia.
  - intros m Hm. rewrite A by lia. by apply W.
  - rewrite Gi. lia.
  - intros m m' Hm Hm'. rewrite !A by lia. by apply W.
  - intros m Hm. rewrite A, Gi by lia. specialize (Win m Hm). lia.
Qed.

(** The contents of a file do not change when it gets an empty block. *)
Lemma grows_fblock v i fb nb ib p v' i' m : wf v i fb nb ib -> DATA <= fb -> grows v i fb p v' i' ->
  (p = None \/ p = Some nb) -> v' fb = zeroes -> 0 <= m < MAXFILE -> fblock v' i' m = fblock v i m.
Proof.
  intros W Hf G Hp Hz Hm. unfold fblock. rewrite (gr_addr _ _ _ _ _ _ G m Hm). unfold DATA in *. case_decide as E.
  - destruct Hp as [-> | ->]; [done|]. injection E as <-. rewrite (w_out _ _ _ _ _ W) by lia.
    rewrite (proj2 (Z.eqb_neq fb 0)) by lia. exact Hz.
  - destruct (Z.eqb_spec (baddr v i m) 0) as [|Hb]; [done|]. apply (gr_frame _ _ _ _ _ _ G). intros Hi.
    destruct (decide (m < nb)); [by destruct (w_sep _ _ _ _ _ W m ltac:(lia))|]. by rewrite (w_out _ _ _ _ _ W) in Hb by lia.
Qed.

Lemma get32_zeroes p : get32 zeroes p = 0.
Proof.
  unfold get32, peek, zeroes. rewrite drop_replicate, take_replicate. generalize (Nat.min 4 (512 - p)).
  intros q. induction q; cbn; lia.
Qed.

Lemma grows_direct v i k b : length (i_addrs i) = S NDIRECT -> 0 <= k < Z.of_nat NDIRECT ->
  grows v i b (Some k) v (set_addrs (<[Z.to_nat k := b]> (i_addrs i)) i).
Proof.
  intros Hl Hk. unfold NDIRECT in *. constructor; cbn.
  - by rewrite length_insert.
  - intros m Hm. unfold baddr, ind, NDIRECT. cbn [i_addrs set_addrs]. destruct (Z.ltb_spec m (Z.of_nat 12)) as [Hm'|Hm'].
    + destruct (decide (k = m)) as [->|].
      * rewrite list_lookup_total_insert_eq by lia. by rewrite decide_True.
      * rewrite list_lookup_total_insert_ne by lia. rewrite decide_False; [done|]. by intros [= <-].
    + rewrite !list_lookup_total_insert_ne by lia. rewrite decide_False; [done|]. intros [= <-]. lia.
  - unfold ind, NDIRECT. cbn. by rewrite list_lookup_total_insert_ne by lia.
  - done.
Qed.

Lemma grows_address v i b : length (i_addrs i) = S NDIRECT -> ind i = 0 -> b <> 0 -> v b = zeroes ->
  grows v i b None v (set_addrs (<[NDIRECT := b]> (i_addrs i)) i).
Proof.
  intros Hl Hi Hb Hz. assert (Ei : ind (set_addrs (<[NDIRECT := b]> (i_addrs i)) i) = b).
  { unfold ind. cbn. by rewrite list_lookup_total_insert_eq by (unfold NDIRECT in *; lia). }
  constructor; cbn.
  - by rewrite length_insert.
  - intros m Hm. unfold baddr. rewrite Ei. cbn [i_addrs set_addrs]. destruct (Z.ltb_spec m (Z.of_nat NDIRECT)).
    + by rewrite list_lookup_total_insert_ne by lia.
    + rewrite Hi. cbn [Z.eqb]. by rewrite (proj2 (Z.eqb_neq b 0)), Hz, get32_zeroes by done.
  - done.
  - done.
Qed.

Lemma grows_entry v i n b : length (i_addrs i) = S NDIRECT -> ind i <> 0 -> Z.of_nat NDIRECT <= n < MAXFILE ->
  length (v (ind i)) = 512%nat -> 0 <= b < 2 ^ 32 ->
  grows v i b (Some n) (vupd (ind i) (put32 (Z.to_nat (4 * (n - Z.of_nat NDIRECT))) b (v (ind i))) v) i.
Proof.
  intros Hl Hi Hn Hv Hb. unfold NDIRECT, MAXFILE in *. constructor.
  - done.
  - intros m Hm. unfold baddr, NDIRECT. destruct (Z.ltb_spec m (Z.of_nat 12)) as [Hm'|Hm'].
    + rewrite decide_False; [done|]. intros [= <-]. lia.
    + rewrite (proj2 (Z.eqb_neq _ _) Hi), vupd_eq. unfold MAXFILE in Hm. destruct (decide (Some n = Some m)) as [[= <-]|Ne].
      * rewrite get_put32 by lia. apply u32_small. lia.
      * rewrite get_put32_ne; [done|lia|]. assert (n <> m) by congruence. lia.
  - done.
  - intros z Hz. apply vupd_ne. intros E. by apply Hi, Hz.
Qed.

(** ** Moves of the builder *)

(** The sectors of the image; behind [freeblock] they are empty, and the log is not
    reached. *)
Record disk_ok (s : mst) : Prop := {
  d_n : nsect s = 1024;
  d_len z : 0 <= z < 1024 -> length (img s z) = 512%nat;
  d_fb : DATA <= freeblock s <= 1014;
  d_used : usedblocks s = freeblock s;
  d_zero z : freeblock s <= z < 1024 -> img s z = zeroes }.

Definition bump (s : mst) : mst := Mst (img s) (nsect s) (freeblock s + 1) (usedblocks s + 1) (freeinode s).

Lemma bump_disk s : disk_ok s -> freeblock s < 1014 -> disk_ok (bump s).
Proof. intros [D1 D2 D3 D4 D5] Hf. constructor; cbn; auto; [lia..|]. intros z Hz. apply D5. lia. Qed.

Lemma take_block_ok s : disk_ok s -> freeblock s < 1014 -> take_block s = Done (freeblock s) (bump s).
Proof.
  intros [D1 D2 D3 D4 D5] Hf. unfold take_block, bump, DATA in *. rewrite D4, !u32_small by lia. done.
Qed.

Definition wrote (z : Z) (x : block) (s : mst) : mst := set_img (vupd z x (img s)) (nsect s) s.

Lemma rsect_ok s z : disk_ok s -> 0 <= z < 1024 -> rsect z s = Done (img s z) s.
Proof. intros D Hz. unfold rsect. rewrite (d_n _ D), (proj2 (Z.ltb_lt _ _)) by lia. done. Qed.

Lemma wsect_ok s z x : disk_ok s -> 0 <= z < 1024 -> wsect z x s = Done tt (wrote z x s).
Proof. intros D Hz. unfold wsect, modify, wrote. rewrite (d_n _ D), Z.max_l by lia. done. Qed.

Lemma wrote_disk s z x : disk_ok s -> 0 <= z < freeblock s -> length x = 512%nat -> disk_ok (wrote z x s).
Proof.
  intros [D1 D2 D3 D4 D5] Hz Hx. constructor; cbn; auto.
  - intros y Hy. unfold vupd. case_decide; auto.
  - intros y Hy. rewrite vupd_ne by lia. auto.
Qed.

(** What a move on a file leaves alone. *)
Record moved (s : mst) (i : inode) (s' : mst) (i' : inode) : Prop := {
  m_disk : disk_ok s';
  m_fi : freeinode s' = freeinode s;
  m_fb : freeblock s <= freeblock s';
  m_frame z : z < freeblock s -> ~ owns (img s) i z -> img s' z = img s z;
  m_new z : owns (img s') i' z -> owns (img s) i z \/ freeblock s <= z < freeblock s';
  m_same : i' = set_addrs (i_addrs i') i }.

Lemma set_addrs_self i : i = set_addrs (i_addrs i) i.
Proof. by destruct i. Qed.

Lemma moved_refl s i : disk_ok s -> moved s i s i.
Proof. intros D. constructor; auto; [lia|]. apply set_addrs_self. Qed.

Lemma moved_trans s i s1 i1 s2 i2 : moved s i s1 i1 -> moved s1 i1 s2 i2 -> moved s i s2 i2.
Proof.
  intros [A1 A2 A3 A4 A5 A6] [B1 B2 B3 B4 B5 B6]. constructor.
  - done.
  - congruence.
  - lia.
  - intros z Hz Ho. rewrite B4, A4; [done|done|done|lia|]. intros [?|?]%A5; [done|lia].
  - intros z [[?|?]%A5|?]%B5; [by left|right; lia..].
  - rewrite B6, A6. done.
Qed.

Lemma grows_moved s i p s' i' nb ib : wf (img s) i (freeblock s) nb ib -> grows (img s) i (freeblock s) p (img s') i' ->
  disk_ok s' -> freeblock s' = freeblock s + 1 -> freeinode s' = freeinode s -> i' = set_addrs (i_addrs i') i ->
  moved s i s' i'.
Proof.
  intros W G D Ef Ei Es. constructor; try done; [lia|..].
  - intros z Hz Ho. apply (gr_frame _ _ _ _ _ _ G). intros ->. destruct (decide (ind i = 0)); [done|]. by destruct Ho, (ind_owned (img s) i).
  - intros z [Hz [-> | (m & Hm & <-)]].
    + rewrite (gr_ind _ _ _ _ _ _ G) in *. case_decide; [right; lia|left]. by apply ind_owned.
    + rewrite (gr_addr _ _ _ _ _ _ G m Hm) in *. case_decide; [right; lia|left]. by apply baddr_owned.
Qed.

(** A move that leaves the bytes of the file as they are. *)
Record stepped (s : mst) (i : inode) (s' : mst) (i' : inode) (nb : Z) (ib : bool) : Prop := {
  st_moved : moved s i s' i';
  st_wf : wf (img s') i' (freeblock s') nb ib;
  st_same m : 0 <= m < MAXFILE -> fblock (img s') i' m = fblock (img s) i m }.

Lemma stepped_trans s i s1 i1 s2 i2 nb ib nb' ib' : stepped s i s1 i1 nb ib -> stepped s1 i1 s2 i2 nb' ib' ->
  stepped s i s2 i2 nb' ib'.
Proof.
  intros [A1 A2 A3] [B1 B2 B3]. constructor; [by eapply moved_trans|done|]. intros m Hm. by rewrite B3, A3.
Qed.

Lemma fresh s : disk_ok s -> freeblock s < 1014 -> img s (freeblock s) = zeroes /\ 0 < freeblock s < 2 ^ 32.
Proof. intros D Hf. pose proof (d_fb _ D). unfold DATA in *. split; [apply D; lia|lia]. Qed.

Lemma direct_ok s i nb ib : disk_ok s -> wf (img s) i (freeblock s) nb ib -> nb < Z.of_nat NDIRECT -> freeblock s < 1014 ->
  stepped s i (bump s) (set_addrs (<[Z.to_nat nb := freeblock s]> (i_addrs i)) i) (nb + 1) ib.
Proof.
  intros D W Hn Hf. destruct (fresh s D Hf) as [Hz Hp]. pose proof (w_nb _ _ _ _ _ W) as Hb.
  assert (G : grows (img s) i (freeblock s) (Some nb) (img (bump s)) (set_addrs (<[Z.to_nat nb := freeblock s]> (i_addrs i)) i)).
  { apply grows_direct; [apply W|lia]. }
  constructor.
  - eapply grows_moved; [exact W|exact G|by apply bump_disk|done..].
  - eapply grows_block; [exact W|apply D|unfold NDIRECT, MAXFILE in *; lia|exact G|by left].
  - intros m Hm. eapply grows_fblock; [exact W|apply D|exact G|by right|exact Hz|done].
Qed.

Lemma address_ok s i nb : disk_ok s -> wf (img s) i (freeblock s) nb false -> freeblock s < 1014 ->
  stepped s i (bump s) (set_addrs (<[NDIRECT := freeblock s]> (i_addrs i)) i) nb true.
Proof.
  intros D W Hf. destruct (fresh s D Hf) as [Hz Hp]. destruct (w_ind _ _ _ _ _ W) as [Hi _].
  assert (G : grows (img s) i (freeblock s) None (img (bump s)) (set_addrs (<[NDIRECT := freeblock s]> (i_addrs i)) i)).
  { apply grows_address; [apply W|done|lia|done]. }
  constructor.
  - eapply grows_moved; [exact W|exact G|by apply bump_disk|done..].
  - eapply grows_ind; [exact W|apply D|exact G].
  - intros m Hm. eapply grows_fblock; [exact W|apply D|exact G|by left|exact Hz|done].
Qed.

Definition entry_at (n : Z) : nat := Z.to_nat (4 * (n - Z.of_nat NDIRECT)).

Lemma entry_ok s i nb : disk_ok s -> wf (img s) i (freeblock s) nb true -> Z.of_nat NDIRECT <= nb < MAXFILE -> freeblock s < 1014 ->
  stepped s i (wrote (ind i) (put32 (entry_at nb) (freeblock s) (img s (ind i))) (bump s)) i (nb + 1) true.
Proof.
  intros D W Hn Hf. destruct (fresh s D Hf) as [Hz Hp]. pose proof (w_ind _ _ _ _ _ W : DATA <= ind i < freeblock s) as Hi.
  pose proof (d_fb _ D) as Hd. unfold DATA in *. assert (Hl : length (img s (ind i)) = 512%nat) by (apply D; lia).
  set (s' := wrote _ _ _).
  assert (G : grows (img s) i (freeblock s) (Some nb) (img s') i) by (apply grows_entry; [apply W|lia|done|done|lia]).
  assert (D' : disk_ok s').
  { apply wrote_disk; [by apply bump_disk|cbn; lia|]. apply len32; [done|]. unfold entry_at, NDIRECT, MAXFILE in *. lia. }
  constructor.
  - eapply grows_moved; [exact W|exact G|done|done|done|apply set_addrs_self].
  - eapply grows_block; [exact W|unfold DATA; lia|lia|exact G|by right].
  - intros m Hm. eapply grows_fblock; [exact W|unfold DATA; lia|exact G|by right| |done].
    unfold s'. cbn. rewrite vupd_ne by lia. exact Hz.
Qed.

(** The blocks of a file of [nb] blocks, with the block of addresses. *)
Definition far (nb : Z) : bool := Z.of_nat NDIRECT <? nb.
Definition cost (nb : Z) : Z := nb + (if far nb then 1 else 0).

Lemma baddr_direct v i n : n < Z.of_nat NDIRECT -> baddr v i n = i_addrs i !!! Z.to_nat n.
Proof. intros Hn. unfold baddr. by rewrite (proj2 (Z.ltb_lt _ _)). Qed.

Lemma baddr_far v i n : Z.of_nat NDIRECT <= n -> ind i <> 0 -> baddr v i n = get32 (v (ind i)) (entry_at n).
Proof. intros Hn Hi. unfold baddr. by rewrite (proj2 (Z.ltb_ge _ _)), (proj2 (Z.eqb_neq _ _)). Qed.

(** Part of [file_block]: the block of addresses is there. *)
Lemma file_entry_ok s i nb n : disk_ok s -> wf (img s) i (freeblock s) nb true -> Z.of_nat NDIRECT <= n < MAXFILE ->
  nb = n \/ nb = n + 1 -> freeblock s + (n + 1 - nb) <= 1014 ->
  exists s', (let a := i_addrs i !!! NDIRECT in
    let! indirect := rsect a in
    if get32 indirect (entry_at n) =? 0 then
      let! b := take_block in
      wsect a (put32 (entry_at n) b indirect) ;!
      ret (b, i)
    else ret (get32 indirect (entry_at n), i)) s = Done (baddr (img s') i n, i) s' /\
    stepped s i s' i (n + 1) true /\ freeblock s' = freeblock s + (n + 1 - nb).
Proof.
  intros D W Hn Hc Hf. pose proof (w_ind _ _ _ _ _ W : DATA <= ind i < freeblock s) as Hi. pose proof (d_fb _ D) as Hd. unfold DATA in *.
  cbv zeta. fold (ind i). rewrite (bind_Done _ _ _ _ _ (rsect_ok s (ind i) D ltac:(lia))).
  rewrite <- (baddr_far (img s)) by lia. destruct Hc as [-> | ->].
  - rewrite (w_out _ _ _ _ _ W) by lia. cbn [Z.eqb]. eexists. split; [|split].
    + rewrite (bind_Done _ _ _ _ _ (take_block_ok s D ltac:(lia))).
      rewrite (bind_Done _ _ _ _ _ (wsect_ok (bump s) (ind i) _ (bump_disk s D ltac:(lia)) ltac:(lia))).
      unfold ret. do 2 f_equal. rewrite baddr_far by lia. cbn. rewrite vupd_eq.
      rewrite get_put32 by (rewrite (d_len _ D) by lia; unfold entry_at, NDIRECT, MAXFILE in *; lia).
      symmetry. apply u32_small. lia.
    + apply entry_ok; [done|done|lia|lia].
    + cbn. lia.
  - pose proof (w_in _ _ _ _ _ W n ltac:(unfold NDIRECT in *; lia)) as Hb. unfold DATA in Hb. rewrite (proj2 (Z.eqb_neq _ 0)) by lia.
    exists s. split; [done|]. split; [|lia]. constructor; [by apply moved_refl|done|done].
Qed.

Lemma far_step n : 0 <= n -> n <> Z.of_nat NDIRECT -> far (n + 1) = far n.
Proof. intros. unfold far. destruct (Z.ltb_spec (Z.of_nat NDIRECT) n); [apply Z.ltb_lt|apply Z.ltb_ge]; lia. Qed.

Lemma file_block_ok s i nb n : disk_ok s -> wf (img s) i (freeblock s) nb (far nb) -> 0 <= n < MAXFILE ->
  nb = n \/ nb = n + 1 -> freeblock s + (cost (n + 1) - cost nb) <= 1014 ->
  exists i' s', file_block i n s = Done (baddr (img s') i' n, i') s' /\ stepped s i s' i' (n + 1) (far (n + 1)) /\
    freeblock s' = freeblock s + (cost (n + 1) - cost nb).
Proof.
  intros D W Hn Hc Hf. unfold file_block. fold (entry_at n). destruct (Z.ltb_spec n (Z.of_nat NDIRECT)) as [Hd|Hd].
  - assert (F : far n = false /\ far (n + 1) = false) by (unfold far; split; apply Z.ltb_ge; lia). destruct F as [F1 F2].
    rewrite <- (baddr_direct (img s)) by done. destruct Hc as [-> | ->].
    + rewrite (w_out _ _ _ _ _ W) by lia. cbn [Z.eqb]. unfold cost in *. rewrite F1, F2 in *.
      do 2 eexists. split; [|split].
      * rewrite (bind_Done _ _ _ _ _ (take_block_ok s D ltac:(lia))). unfold ret. do 2 f_equal.
        rewrite baddr_direct by done. cbn. rewrite list_lookup_total_insert_eq; [done|].
        rewrite (w_len _ _ _ _ _ W). lia.
      * by apply direct_ok; [..|lia].
      * cbn. lia.
    + pose proof (w_in _ _ _ _ _ W n ltac:(lia)) as Hb. unfold DATA in Hb. rewrite (proj2 (Z.eqb_neq _ 0)) by lia.
      exists i, s. split; [done|]. split; [|lia]. constructor; [by apply moved_refl|done|done].
  - assert (F : far (n + 1) = true) by (apply Z.ltb_lt; lia). rewrite F.
    destruct (far nb) eqn:Fn.
    + assert (Hi : (i_addrs i !!! NDIRECT =? 0) = false).
      { pose proof (w_ind _ _ _ _ _ W : DATA <= ind i < freeblock s) as Hi. unfold DATA, ind in Hi. apply Z.eqb_neq. lia. }
      rewrite Hi. rewrite (bind_Done (ret i) _ s i s eq_refl). unfold cost in *. rewrite F, Fn in *.
      destruct (file_entry_ok s i nb n D W ltac:(lia) Hc ltac:(lia)) as (s' & E & St & Ef).
      exists i, s'. split; [exact E|]. split; [done|lia].
    + destruct (w_ind _ _ _ _ _ W) as [Hi Hb]. fold (ind i). rewrite Hi. cbn [Z.eqb]. unfold cost in *. rewrite F, Fn in *.
      assert (nb = n) as -> by (destruct Hc; [done|lia]).
      pose proof (address_ok s i n D W ltac:(lia)) as S1. set (i1 := set_addrs _ i) in *.
      assert (E1 : (let! b := take_block in ret (set_addrs (<[NDIRECT := b]> (i_addrs i)) i)) s = Done i1 (bump s)).
      { by rewrite (bind_Done _ _ _ _ _ (take_block_ok s D ltac:(lia))). }
      rewrite (bind_Done _ _ _ _ _ E1).
      destruct (file_entry_ok (bump s) i1 n n (bump_disk s D ltac:(lia)) (st_wf _ _ _ _ _ _ S1) ltac:(lia) ltac:(by left) ltac:(cbn; lia))
        as (s' & E & St & Ef).
      exists i1, s'. split; [exact E|]. split; [by eapply stepped_trans|]. rewrite Ef. cbn. lia.
Qed.

(** A store into block [n]. *)
Lemma store_data_ok s i nb ib n x : disk_ok s -> wf (img s) i (freeblock s) nb ib -> 0 <= n < nb -> length x = 512%nat ->
  let s' := wrote (baddr (img s) i n) x s in
  moved s i s' i /\ wf (img s') i (freeblock s') nb ib /\
  forall m, 0 <= m < MAXFILE -> fblock (img s') i m = if decide (m = n) then x else fblock (img s) i m.
Proof.
  intros D W Hn Hx s'. pose proof (w_nb _ _ _ _ _ W) as Hnb. pose proof (w_in _ _ _ _ _ W n Hn) as Hb. pose proof (d_fb _ D) as Hd.
  assert (Ba : forall m, baddr (img s') i m = baddr (img s) i m).
  { intros m. unfold baddr. destruct (m <? Z.of_nat NDIRECT); [done|]. destruct (Z.eqb_spec (ind i) 0); [done|].
    cbn. rewrite vupd_ne; [done|]. intros E. by destruct (w_sep _ _ _ _ _ W n Hn). }
  unfold DATA in *. split; [|split].
  - constructor; [apply wrote_disk; [done|lia|done]|done|cbn; lia|..|apply set_addrs_self].
    + intros z Hz Ho. cbn. apply vupd_ne. intros ->. apply Ho, baddr_owned; lia.
    + intros z [Hz [Hi | (m & Hm & <-)]]; left; (split; [done|]); [by left|right]. exists m. by rewrite Ba.
  - destruct W as [W1 W2 W3 W4 W5 W6 W7]. constructor; cbn; auto.
    + intros m Hm. rewrite Ba. auto.
    + intros m Hm. rewrite Ba. auto.
    + intros m m' Hm Hm'. rewrite !Ba. auto.
    + intros m Hm. rewrite Ba. auto.
  - intros m Hm. unfold fblock. rewrite Ba. case_decide as E.
    + subst m. rewrite (proj2 (Z.eqb_neq _ 0)) by lia. apply vupd_eq.
    + destruct (Z.eqb_spec (baddr (img s) i m) 0) as [|Hz]; [done|]. cbn. apply vupd_ne. intros E'. apply E, (w_inj _ _ _ _ _ W); [|done..].
      destruct (decide (m < nb)); [lia|]. by rewrite (w_out _ _ _ _ _ W) in Hz by lia.
Qed.

(** The blocks of a file of [off] bytes. *)
Definition blocks_of (off : Z) : Z := (off + 511) / BSIZE.

Lemma cost_mono a b : a <= b -> cost a <= cost b.
Proof. intros. unfold cost, far. destruct (Z.ltb_spec (Z.of_nat NDIRECT) a), (Z.ltb_spec (Z.of_nat NDIRECT) b); lia. Qed.

Lemma blocks_mono a b : a <= b -> blocks_of a <= blocks_of b.
Proof. intros. unfold blocks_of, BSIZE. apply Z.div_le_mono; lia. Qed.

Lemma block_facts off n : 0 <= off -> 0 < n -> let k := off / BSIZE in
  (blocks_of off = k \/ blocks_of off = k + 1) /\ blocks_of (off + chunk off n) = k + 1 /\ off - k * BSIZE = off mod BSIZE /\
  Z.min n ((k + 1) * BSIZE - off) = chunk off n.
Proof.
  intros Ho Hn k. subst k. destruct (chunk_facts off n Ho Hn) as (C1 & C2 & C3 & _). unfold blocks_of, chunk, BSIZE in *.
  pose proof (Z.div_mod off 512 ltac:(lia)) as E. pose proof (Z.mod_pos_bound off 512 ltac:(lia)) as Hm.
  assert (U : forall q r, 0 <= r < 512 -> (512 * q + r) / 512 = q).
  { intros q r Hr. symmetry. by apply (Z.div_unique_pos _ _ _ r). }
  split; [|split; [|lia]].
  - destruct (decide (off mod 512 = 0)) as [Z0|Z0]; [left|right].
    + replace (off + 511) with (512 * (off / 512) + 511) by lia. apply U. lia.
    + replace (off + 511) with (512 * (off / 512 + 1) + (off mod 512 - 1)) by lia. apply U. lia.
  - set (c := Z.min n (512 - off mod 512)) in *.
    replace (off + c + 511) with (512 * (off / 512 + 1) + (off mod 512 + c - 1)) by lia. apply U. lia.
Qed.

(** The state after [p] was appended at [off]. *)
Record appended (s : mst) (i : inode) (off : Z) (p : list Z) (s' : mst) (i' : inode) : Prop := {
  ap_moved : moved s i s' i';
  ap_wf : let nb := blocks_of (off + Z.of_nat (length p)) in wf (img s') i' (freeblock s') nb (far nb);
  ap_cost : freeblock s' = freeblock s + (cost (blocks_of (off + Z.of_nat (length p))) - cost (blocks_of off));
  ap_bytes k : 0 <= k < MAXFILE * BSIZE -> fbyte (img s') i' k =
    if decide (off <= k < off + Z.of_nat (length p)) then p !!! Z.to_nat (k - off) else fbyte (img s) i k }.

(** One turn of the loop. *)
Lemma append_step s i off p : disk_ok s -> wf (img s) i (freeblock s) (blocks_of off) (far (blocks_of off)) ->
  0 <= off < MAXFILE * BSIZE -> p <> [] -> let n := off / BSIZE in
  let n1 := chunk off (Z.of_nat (length p)) in freeblock s + (cost (n + 1) - cost (blocks_of off)) <= 1014 ->
  exists r s1, file_block i n s = Done r s1 /\ 0 <= r.1 < 1024 /\ disk_ok s1 /\
    appended s i off (take (Z.to_nat n1) p) (wrote r.1 (poke (Z.to_nat (off mod BSIZE)) (take (Z.to_nat n1) p) (img s1 r.1)) s1) r.2.
Proof.
  intros D W Ho Hp n n1 Hf. assert (Hl : 0 < Z.of_nat (length p)) by (destruct p; [done|cbn; lia]).
  destruct (block_facts off (Z.of_nat (length p)) ltac:(lia) Hl) as (B1 & B2 & B3 & B4).
  destruct (chunk_facts off (Z.of_nat (length p)) ltac:(lia) Hl) as (C1 & C2 & C3 & _). fold n n1 in B1, B2, B4, C1, C2.
  assert (Hn : 0 <= n < MAXFILE) by (apply div_range; lia).
  destruct (file_block_ok s i (blocks_of off) n D W Hn B1 Hf) as (i' & s1 & E & [M W1 Fb] & Ef).
  exists (baddr (img s1) i' n, i'), s1. cbn [fst snd]. pose proof (m_disk _ _ _ _ M) as D1. pose proof (d_fb _ D1).
  pose proof (w_in _ _ _ _ _ W1 n ltac:(lia)) as Hb. unfold DATA in *.
  split; [done|]. split; [lia|]. split; [done|].
  assert (Lt : length (take (Z.to_nat n1) p) = Z.to_nat n1) by (rewrite length_take; lia).
  assert (Lb : length (img s1 (baddr (img s1) i' n)) = 512%nat) by (apply D1; lia).
  assert (Eb : img s1 (baddr (img s1) i' n) = fblock (img s1) i' n).
  { unfold fblock. by rewrite (proj2 (Z.eqb_neq _ 0)) by lia. }
  destruct (store_data_ok s1 i' (n + 1) (far (n + 1)) n (poke (Z.to_nat (off mod BSIZE)) (take (Z.to_nat n1) p) (img s1 (baddr (img s1) i' n))))
    as (M2 & W2 & Fb2); [done|done|lia|rewrite length_poke; unfold BSIZE in *; lia|].
  set (s2 := wrote _ _ _) in *. constructor.
  - by eapply moved_trans.
  - rewrite Lt, Z2Nat.id, B2 by lia. exact W2.
  - rewrite Lt, Z2Nat.id, B2 by lia. exact Ef.
  - intros k Hk. rewrite Lt, Z2Nat.id by lia. unfold fbyte at 1. rewrite Fb2 by (apply div_range; done).
    pose proof (store_bytes (img s1) i' off (Z.of_nat (length p)) p _ k ltac:(lia) Hl ltac:(fold n1; lia) Eb Lb) as Sb.
    fold n n1 in Sb. etransitivity; [exact Sb|]. clear Sb. case_decide as Dk.
    + rewrite !list_lookup_total_alt, lookup_take_lt by lia. done.
    + unfold fbyte. rewrite Fb; [done|]. by apply div_range.
Qed.

Lemma appended_trans s i off p q s1 i1 s2 i2 : appended s i off p s1 i1 ->
  appended s1 i1 (off + Z.of_nat (length p)) q s2 i2 -> appended s i off (p ++ q) s2 i2.
Proof.
  intros [A1 A2 A3 A4] [B1 B2 B3 B4]. rewrite <- Z.add_assoc, <- Nat2Z.inj_add, <- length_app in *. constructor; [by eapply moved_trans|done|lia|].
  intros k Hk. rewrite B4, A4 by done. rewrite length_app in *. rewrite !list_lookup_total_alt.
  repeat case_decide; try lia; try done.
  - rewrite lookup_app_r by lia. do 2 f_equal. lia.
  - rewrite lookup_app_l by lia. done.
Qed.

Lemma appended_nil s i off : disk_ok s -> wf (img s) i (freeblock s) (blocks_of off) (far (blocks_of off)) ->
  appended s i off [] s i.
Proof.
  intros D W. constructor; cbn [length Z.of_nat]; rewrite ?Z.add_0_r; [by apply moved_refl|done|lia|].
  intros k Hk. case_decide; [lia|done].
Qed.

Lemma iappend_loop_ok fuel s i off p : disk_ok s -> wf (img s) i (freeblock s) (blocks_of off) (far (blocks_of off)) ->
  0 <= off -> off + Z.of_nat (length p) <= MAXFILE * BSIZE -> (length p <= fuel)%nat ->
  freeblock s + (cost (blocks_of (off + Z.of_nat (length p))) - cost (blocks_of off)) <= 1014 ->
  exists i' s', iappend_loop fuel i off p s = Done (i', off + Z.of_nat (length p)) s' /\ appended s i off p s' i'.
Proof.
  revert s i off p. induction fuel as [|fuel IH]; intros s i off p D W Ho Hm Hl Hf.
  { destruct p; [|cbn in Hl; lia]. exists i, s. cbn [iappend_loop length Z.of_nat]. rewrite Z.add_0_r.
    split; [done|by apply appended_nil]. }
  destruct (decide (p = [])) as [->|Hp].
  { exists i, s. cbn [iappend_loop length Z.of_nat]. rewrite Z.add_0_r. split; [done|by apply appended_nil]. }
  assert (Hp' : 0 < Z.of_nat (length p)) by (destruct p; [done|cbn; lia]).
  destruct (block_facts off (Z.of_nat (length p)) ltac:(lia) Hp') as (B1 & B2 & B3 & B4).
  destruct (chunk_facts off (Z.of_nat (length p)) ltac:(lia) Hp') as (C1 & C2 & C3 & _).
  set (n := off / BSIZE) in *. set (n1 := chunk off (Z.of_nat (length p))) in *.
  assert (Mn : cost (n + 1) <= cost (blocks_of (off + Z.of_nat (length p)))).
  { rewrite <- B2. apply cost_mono, blocks_mono. lia. }
  destruct (append_step s i off p D W ltac:(lia) Hp) as (r & s1 & E & Hr & D1 & A); [fold n; lia|].
  fold n n1 in E, A. set (s2 := wrote _ _ s1) in *.
  assert (Lt : length (take (Z.to_nat n1) p) = Z.to_nat n1) by (rewrite length_take; lia).
  assert (Ep : Z.of_nat (length p) = n1 + Z.of_nat (length (drop (Z.to_nat n1) p))) by (rewrite length_drop; lia).
  pose proof (ap_wf _ _ _ _ _ _ A) as W2. pose proof (ap_cost _ _ _ _ _ _ A) as Ec. cbv zeta in W2. rewrite Lt, Z2Nat.id in W2, Ec by lia.
  destruct (IH s2 r.2 (off + n1) (drop (Z.to_nat n1) p)) as (i' & s' & E' & A').
  - apply A.
  - exact W2.
  - lia.
  - lia.
  - rewrite length_drop. lia.
  - rewrite <- Z.add_assoc, <- Ep, Ec. lia.
  - exists i', s'. rewrite <- Z.add_assoc, <- Ep in E'. split.
    + destruct p as [|b p]; [done|]. cbn [iappend_loop]. fold BSIZE. fold n.
      rewrite (proj2 (Z.ltb_lt n MAXFILE)) by (apply div_range; lia). cbn [negb]. rewrite (bind_Done _ _ _ _ _ E).
      cbv zeta. rewrite B4, B3. rewrite (bind_Done _ _ _ _ _ (rsect_ok s1 r.1 D1 Hr)), (bind_Done _ _ _ _ _ (wsect_ok s1 r.1 _ D1 Hr)).
      exact E'.
    + rewrite <- (take_drop (Z.to_nat n1) p). eapply appended_trans; [exact A|]. by rewrite Lt, Z2Nat.id by lia.
Qed.

(** ** The files of the image *)

Definition ino (v : Z -> block) (n : Z) : inode := dinode_get (islot n) (v (i2b n)) zero_inode.

(** A file as the image should have it: the bytes written, and the size, which is more
    for a finished directory. *)
Record afile := AFile { a_type : Z; a_data : list Z; a_size : Z }.

Definition a_len (f : afile) : Z := Z.of_nat (length (a_data f)).
Definition a_blocks (f : afile) : Z := blocks_of (a_len f).

(** What the kernel finds in inode [n]. *)
Record file_at (v : Z -> block) (fb n : Z) (f : afile) : Prop := {
  fa_disk : disk_inode (ino v n);
  fa_type : i_type (ino v n) = a_type f;
  fa_nlink : i_nlink (ino v n) = 1;
  fa_size : i_size (ino v n) = a_size f;
  fa_len : a_len f <= a_size f;
  fa_wf : wf v (ino v n) fb (a_blocks f) (far (a_blocks f));
  fa_bytes k : 0 <= k < MAXFILE * BSIZE -> fbyte v (ino v n) k = default 0 (a_data f !! Z.to_nat k) }.

Lemma baddr_same v v' i m : (forall z, owns v i z -> v' z = v z) -> baddr v' i m = baddr v i m.
Proof.
  intros F. unfold baddr. destruct (m <? Z.of_nat NDIRECT); [done|]. destruct (Z.eqb_spec (ind i) 0); [done|].
  rewrite F; [done|]. by apply ind_owned.
Qed.

Lemma fbyte_same v v' i k : (forall z, owns v i z -> v' z = v z) -> 0 <= k < MAXFILE * BSIZE -> fbyte v' i k = fbyte v i k.
Proof.
  intros F Hk. apply div_range in Hk. unfold fbyte, fblock. rewrite (baddr_same v v' i _ F).
  destruct (Z.eqb_spec (baddr v i (k / BSIZE)) 0); [done|]. rewrite F; [done|]. by apply baddr_owned.
Qed.

Lemma wf_same v v' i fb fb' nb ib : (forall z, owns v i z -> v' z = v z) -> fb <= fb' -> wf v i fb nb ib -> wf v' i fb' nb ib.
Proof.
  intros F Hf [W1 W2 W3 W4 W5 W6 W7]. pose proof (fun m => baddr_same v v' i m F) as Ba. constructor; auto.
  - intros m Hm. rewrite Ba. specialize (W3 m Hm). lia.
  - intros m Hm. rewrite Ba. auto.
  - destruct ib; [lia|done].
  - intros m m' Hm Hm'. rewrite !Ba. auto.
  - intros m Hm. rewrite Ba. auto.
Qed.

Lemma file_at_same v v' fb fb' n f : (forall z, owns v (ino v n) z -> v' z = v z) -> fb <= fb' -> ino v' n = ino v n ->
  file_at v fb n f -> file_at v' fb' n f.
Proof.
  intros F Hf E [A1 A2 A3 A4 A4' A5 A6]. constructor; rewrite ?E; auto.
  - by eapply wf_same.
  - intros k Hk. rewrite (fbyte_same v) by done. auto.
Qed.

Lemma wf_addrs v i fb nb ib : wf v i fb nb ib -> fb <= 2 ^ 32 -> Forall (fun a => 0 <= a < 2 ^ 32) (i_addrs i).
Proof.
  intros W Hf. apply Forall_lookup_2. intros k a Hk. pose proof (lookup_lt_Some _ _ _ Hk) as Hl. rewrite (w_len _ _ _ _ _ W) in Hl.
  destruct (decide (a = 0)) as [->|Ha]; [lia|]. assert (Hk' : i_addrs i !!! k = a) by (by apply list_lookup_total_correct).
  assert (O : owns v i a).
  { split; [done|]. destruct (decide (k = NDIRECT)) as [->|]; [left; by rewrite <- Hk'|]. right. exists (Z.of_nat k).
    unfold NDIRECT, MAXFILE in *. split; [lia|]. rewrite baddr_direct by (unfold NDIRECT; lia). by rewrite Nat2Z.id. }
  pose proof (wf_owns _ _ _ _ _ _ W O). unfold DATA in *. lia.
Qed.

(** Reading and writing an inode. *)
Lemma i2b_range n : 0 <= n < ninodes -> i2b n = n / 8 + 2 /\ 2 <= i2b n < 28.
Proof.
  intros Hn. unfold i2b, IPB, ninodes in *. assert (0 <= n / 8) by (apply Z.div_pos; lia).
  assert (n / 8 < 26) by (apply Z.div_lt_upper_bound; lia). rewrite u32_small by lia. lia.
Qed.

Lemma rinode_ok s n : disk_ok s -> 0 <= n < ninodes -> rinode n s = Done (ino (img s) n) s.
Proof.
  intros D Hn. destruct (i2b_range n Hn) as [_ Hb]. unfold rinode. by rewrite (bind_Done _ _ _ _ _ (rsect_ok s (i2b n) D ltac:(lia))).
Qed.

Definition put_inode (n : Z) (i : inode) (s : mst) : mst := wrote (i2b n) (dinode_put (islot n) i (img s (i2b n))) s.

Lemma winode_ok s n i : disk_ok s -> 0 <= n < ninodes -> disk_inode i ->
  winode n i s = Done tt (put_inode n i s) /\ disk_ok (put_inode n i s) /\
  ino (img (put_inode n i s)) n = with_contents i zero_inode /\
  (forall k, 0 <= k < ninodes -> k <> n -> ino (img (put_inode n i s)) k = ino (img s) k) /\
  forall z, z < 2 \/ 28 <= z -> img (put_inode n i s) z = img s z.
Proof.
  intros D Hn Hi. destruct (i2b_range n Hn) as [Eb Hb]. pose proof (d_fb _ D) as Hd. unfold DATA in Hd.
  assert (Hl : length (img s (i2b n)) = 512%nat) by (apply D; lia). pose proof (islot_lt n) as Hs. split; [|split; [|split; [|split]]].
  - unfold winode. rewrite (bind_Done _ _ _ _ _ (rsect_ok s (i2b n) D ltac:(lia))). by apply wsect_ok; [|lia].
  - apply wrote_disk; [done|lia|by apply length_dinode_put].
  - unfold ino, put_inode. cbn. rewrite vupd_eq. by apply dinode_get_put.
  - intros k Hk Hne. destruct (i2b_range k Hk) as [Ek _]. unfold ino, put_inode. cbn. unfold vupd. case_decide as E; [|done].
    rewrite E. apply dinode_get_other; [done|apply islot_lt| |done|done]. intros Es. apply Hne. symmetry.
    apply same_slot; [lia|lia| |done]. unfold IPB. lia.
  - intros z Hz. unfold put_inode. cbn. apply vupd_ne. lia.
Qed.

(** The blocks of all files. *)
Definition total (l : list afile) : Z := foldr (fun f acc => cost (a_blocks f) + acc) 0 l.

Lemma total_app l l' : total (l ++ l') = total l + total l'.
Proof. induction l as [|f l IH]; cbn [app total foldr]; [done|]. fold (total (l ++ l')) (total l). lia. Qed.

Lemma total_insert l k f f' : l !! k = Some f -> total (<[k := f']> l) = total l + (cost (a_blocks f') - cost (a_blocks f)).
Proof.
  intros Hk. rewrite (insert_take_drop l k f') by (by eapply lookup_lt_Some).
  rewrite <- (take_drop_middle l k f Hk) at 3. rewrite !total_app. cbn [total foldr]. fold (total (drop (S k) l)). lia.
Qed.

(** The image holds the files [l], the first in inode 1. *)
Record image_ok (s : mst) (l : list afile) : Prop := {
  g_disk : disk_ok s;
  g_fi : freeinode s = Z.of_nat (length l) + 1;
  g_cnt : Z.of_nat (length l) < ninodes;
  g_fb : freeblock s = DATA + total l;
  g_files k f : l !! k = Some f -> file_at (img s) (freeblock s) (Z.of_nat k + 1) f;
  g_apart k k' z : (k < length l)%nat -> (k' < length l)%nat -> k <> k' ->
    owns (img s) (ino (img s) (Z.of_nat k + 1)) z -> ~ owns (img s) (ino (img s) (Z.of_nat k' + 1)) z;
  g_super : img s 1 = poke 0 (sb_bytes 1024 985 LOGSIZE) zeroes }.

(** The files but [k] have kept their inodes and blocks. *)
Definition rest_kept (s : mst) (l : list afile) (k : nat) (s' : mst) : Prop :=
  forall j f, l !! j = Some f -> j <> k -> let n := Z.of_nat j + 1 in ino (img s') n = ino (img s) n /\
    forall z, owns (img s) (ino (img s) n) z -> DATA <= z < freeblock s /\ img s' z = img s z.

Lemma rest_owns s l k s' j z : rest_kept s l k s' -> (j < length l)%nat -> j <> k -> let n := Z.of_nat j + 1 in
  owns (img s') (ino (img s') n) z -> owns (img s) (ino (img s) n) z.
Proof.
  intros R Hj Hne n [Hz0 Hz1]. destruct (lookup_lt_is_Some_2 l j Hj) as [g Hg]. destruct (R j g Hg Hne) as [E F]. fold n in E, F.
  rewrite E in Hz1. split; [done|]. destruct Hz1 as [?|(q & Hq & Eq)]; [by left|right]. exists q. split; [done|].
  rewrite <- Eq. symmetry. apply baddr_same. intros y Hy. by apply F.
Qed.

Lemma rest_file s l k s' j f : image_ok s l -> rest_kept s l k s' -> freeblock s <= freeblock s' -> l !! j = Some f -> j <> k ->
  file_at (img s') (freeblock s') (Z.of_nat j + 1) f.
Proof.
  intros G R Hf Hj Hne. destruct (R j f Hj Hne) as [E F]. apply (file_at_same (img s) _ (freeblock s)); [|done|done|by apply G].
  intros z O. by apply F.
Qed.

(** A change of file [k]: its blocks moved from [s] to [s1], then its inode was written. *)
Record updated (s : mst) (n : Z) (s1 : mst) (i1 : inode) (s2 : mst) : Prop := {
  u_moved : moved s (ino (img s) n) s1 i1;
  u_disk : disk_ok s2;
  u_fb : freeblock s2 = freeblock s1;
  u_fi : freeinode s2 = freeinode s1;
  u_img z : z < 2 \/ 28 <= z -> img s2 z = img s1 z;
  u_ino j : 0 <= j < ninodes -> j <> n -> ino (img s2) j = ino (img s1) j;
  u_owns z : owns (img s2) (ino (img s2) n) z -> owns (img s1) i1 z }.

Lemma front_kept s l k s1 i1 : image_ok s l -> (k < length l)%nat -> moved s (ino (img s) (Z.of_nat k + 1)) s1 i1 ->
  forall z, z < 28 -> img s1 z = img s z.
Proof.
  intros G Hk M z Hz. destruct (lookup_lt_is_Some_2 l k Hk) as [f Hf]. pose proof (d_fb _ (g_disk _ _ G)). unfold DATA in *.
  apply (m_frame _ _ _ _ M); [lia|]. intros O. pose proof (wf_owns _ _ _ _ _ _ (fa_wf _ _ _ _ (g_files _ _ G k f Hf)) O).
  unfold DATA in *. lia.
Qed.

Lemma updated_rest s l k s1 i1 s2 : image_ok s l -> (k < length l)%nat -> updated s (Z.of_nat k + 1) s1 i1 s2 -> rest_kept s l k s2.
Proof.
  intros G Hk U j g Hg Hne m. pose proof (lookup_lt_Some _ _ _ Hg) as Hlj. pose proof (g_cnt _ _ G) as Hc.
  pose proof (u_moved _ _ _ _ _ U) as M. split.
  - rewrite (u_ino _ _ _ _ _ U) by (unfold m; lia). unfold ino. rewrite (front_kept s l k s1 i1 G Hk M); [done|].
    apply i2b_range. unfold m. lia.
  - intros z O. pose proof (wf_owns _ _ _ _ _ _ (fa_wf _ _ _ _ (g_files _ _ G j g Hg)) O) as Hr. split; [done|]. unfold DATA in Hr.
    rewrite (u_img _ _ _ _ _ U) by lia. apply (m_frame _ _ _ _ M); [lia|]. by apply (g_apart _ _ G j k z).
Qed.

Lemma image_update s l k f f' s1 i1 s2 : image_ok s l -> l !! k = Some f -> let n := Z.of_nat k + 1 in
  updated s n s1 i1 s2 -> freeblock s1 = DATA + total (<[k := f']> l) -> file_at (img s2) (freeblock s2) n f' ->
  image_ok s2 (<[k := f']> l).
Proof.
  intros G Hk n U Et Hf. pose proof (lookup_lt_Some _ _ _ Hk) as Hl. pose proof (updated_rest s l k s1 i1 s2 G Hl U) as R.
  pose proof (u_moved _ _ _ _ _ U) as M. constructor.
  - apply U.
  - rewrite length_insert, (u_fi _ _ _ _ _ U), (m_fi _ _ _ _ M). apply G.
  - rewrite length_insert. apply G.
  - rewrite (u_fb _ _ _ _ _ U). done.
  - intros j g. destruct (decide (j = k)) as [->|Hne].
    + rewrite list_lookup_insert_eq by done. intros [= <-]. exact Hf.
    + rewrite list_lookup_insert_ne by done. intros Hg. eapply rest_file; [done|done| |done|done].
      rewrite (u_fb _ _ _ _ _ U). apply (m_fb _ _ _ _ M).
  - intros j j' z. rewrite length_insert. intros Hj1 Hj2 Hne O1 O2.
    assert (X : forall b, (b < length l)%nat -> b <> k -> owns (img s2) (ino (img s2) n) z ->
       owns (img s2) (ino (img s2) (Z.of_nat b + 1)) z -> False).
    { intros b Hb Hbk Oa Ob. pose proof (rest_owns s l k s2 b z R Hb Hbk Ob) as Ob'.
      destruct (lookup_lt_is_Some_2 l b Hb) as [g Hg]. destruct (R b g Hg Hbk) as [_ F]. destruct (F z Ob') as [Fz _].
      destruct (m_new _ _ _ _ M z (u_owns _ _ _ _ _ U z Oa)) as [Oa'|?]; [|lia].
      by apply (g_apart _ _ G k b z Hl Hb (not_eq_sym Hbk) Oa'). }
    destruct (decide (j = k)) as [->|E]; [by apply (X j')|]. destruct (decide (j' = k)) as [->|E']; [by apply (X j)|].
    apply (g_apart _ _ G j j' z Hj1 Hj2 Hne); by apply (rest_owns s l k s2).
  - rewrite (u_img _ _ _ _ _ U), (front_kept s l k s1 i1 G Hl M) by lia. apply G.
Qed.

Lemma wf_size v i fb nb ib z : wf v i fb nb ib -> wf v (set_size z i) fb nb ib.
Proof. intros [W1 W2 W3 W4 W5 W6 W7]. constructor; assumption. Qed.

(** The inode [i1] of file [n] is written with size [z]. *)
Lemma inode_written s n s1 i1 z nb : moved s (ino (img s) n) s1 i1 -> 0 <= n < ninodes -> disk_inode (ino (img s) n) ->
  wf (img s1) i1 (freeblock s1) nb (far nb) -> 0 <= z < 2 ^ 32 -> let i2 := set_size z i1 in let s2 := put_inode n i2 s1 in
  winode n i2 s1 = Done tt s2 /\ updated s n s1 i1 s2 /\ ino (img s2) n = i2 /\ disk_inode i2 /\
  wf (img s2) i2 (freeblock s2) nb (far nb) /\ forall k, 0 <= k < MAXFILE * BSIZE -> fbyte (img s2) i2 k = fbyte (img s1) i1 k.
Proof.
  intros M Hn Hd W Hz i2 s2. pose proof (m_disk _ _ _ _ M) as D1. pose proof (d_fb _ D1) as Hf. pose proof (m_same _ _ _ _ M) as Es.
  assert (Di : disk_inode i2).
  { destruct Hd. unfold i2. rewrite Es. constructor; cbn; try done; [|by apply W].
    apply (wf_addrs _ _ _ _ _ W). lia. }
  destruct (winode_ok s1 n i2 D1 Hn Di) as (E & D2 & Ei & Ej & Ez). fold s2 in E, D2, Ei, Ej, Ez.
  assert (Ew : with_contents i2 zero_inode = i2) by (unfold i2; rewrite Es; done). rewrite Ew in Ei.
  assert (F : forall z, owns (img s1) i1 z -> img s2 z = img s1 z).
  { intros y O. pose proof (wf_owns _ _ _ _ _ _ W O). unfold DATA in *. apply Ez. lia. }
  split; [done|]. split; [|split; [done|split; [done|split]]].
  - constructor; try done. intros y [Hy Ho]. rewrite Ei in Ho. split; [done|]. destruct Ho as [?|(m & Hm & Em)]; [by left|right].
    exists m. split; [done|]. rewrite <- Em. symmetry. exact (baddr_same (img s1) (img s2) i1 m F).
  - apply wf_size. eapply wf_same; [exact F|done|exact W].
  - intros k Hk. exact (fbyte_same (img s1) (img s2) i1 k F Hk).
Qed.

Definition grown (f : afile) (p : list Z) : afile := AFile (a_type f) (a_data f ++ p) (a_size f + Z.of_nat (length p)).

Lemma iappend_ok s l k f p : image_ok s l -> l !! k = Some f -> a_size f = a_len f -> a_len (grown f p) <= MAXFILE * BSIZE ->
  DATA + total (<[k := grown f p]> l) <= 1014 ->
  exists s', iappend (Z.of_nat k + 1) p s = Done tt s' /\ image_ok s' (<[k := grown f p]> l).
Proof.
  intros G Hk Ha Hm Ht. pose proof (lookup_lt_Some _ _ _ Hk) as Hl. pose proof (g_cnt _ _ G) as Hc. pose proof (g_disk _ _ G) as D.
  destruct (g_files _ _ G k f Hk) as [F1 F2 F3 F4 F4' F5 F6]. rewrite (total_insert l k f _ Hk) in Ht. pose proof (g_fb _ _ G) as Hf.
  assert (Lg : a_len (grown f p) = a_len f + Z.of_nat (length p)) by (unfold a_len; cbn; rewrite length_app; lia).
  unfold a_blocks in *. rewrite Lg in *. unfold iappend. set (n := Z.of_nat k + 1) in *.
  assert (Hn : 0 <= n < ninodes) by (unfold n; lia). rewrite (bind_Done _ _ _ _ _ (rinode_ok s n D Hn)). rewrite F4, Ha.
  destruct (iappend_loop_ok (length p) s (ino (img s) n) (a_len f) p D F5) as (i1 & s1 & E & [A1 A2 A3 A4]);
    [unfold a_len; lia|done|done|lia|].
  rewrite (bind_Done _ _ _ _ _ E). cbn [fst snd].
  destruct (inode_written s n s1 i1 (a_len f + Z.of_nat (length p)) _ A1 Hn F1 A2) as (E2 & U & Ei & Di & W2 & By);
    [unfold a_len, MAXFILE, BSIZE in *; lia|].
  eexists. split; [exact E2|]. eapply image_update; [exact G|exact Hk|exact U| |].
  - rewrite (total_insert l k f _ Hk), A3. unfold a_blocks. rewrite Lg. lia.
  - fold n. constructor; rewrite ?Ei; try done.
    + cbn. by rewrite (m_same _ _ _ _ A1).
    + cbn. by rewrite (m_same _ _ _ _ A1).
    + cbn. lia.
    + rewrite Lg. cbn. lia.
    + unfold a_blocks. rewrite Lg. exact W2.
    + intros q Hq. rewrite By, A4 by done. cbn [a_data grown]. unfold a_len in *. case_decide as Dq.
      * rewrite lookup_app_r, list_lookup_total_alt by lia. replace (Z.to_nat q - length (a_data f))%nat with (Z.to_nat (q - Z.of_nat (length (a_data f)))) by lia.
        destruct (lookup_lt_is_Some_2 p (Z.to_nat (q - Z.of_nat (length (a_data f))))) as [x Hx]; [lia|]. by rewrite Hx.
      * rewrite F6 by done. destruct (decide (q < Z.of_nat (length (a_data f)))).
        -- by rewrite lookup_app_l by lia.
        -- rewrite !(proj2 (lookup_ge_None _ _)); [done|rewrite length_app; lia|lia].
Qed.

Definition rounded (f : afile) : afile := AFile (a_type f) (a_data f) ((a_size f / BSIZE + 1) * BSIZE).

Lemma fix_size_ok s l k f : image_ok s l -> l !! k = Some f -> 0 <= a_size f < 2 ^ 31 ->
  exists s', fix_size (Z.of_nat k + 1) s = Done tt s' /\ image_ok s' (<[k := rounded f]> l).
Proof.
  intros G Hk Ha. pose proof (lookup_lt_Some _ _ _ Hk) as Hl. pose proof (g_cnt _ _ G) as Hc. pose proof (g_disk _ _ G) as D.
  destruct (g_files _ _ G k f Hk) as [F1 F2 F3 F4 F4' F5 F6]. set (n := Z.of_nat k + 1) in *.
  assert (Hn : 0 <= n < ninodes) by (unfold n; lia). unfold fix_size. rewrite (bind_Done _ _ _ _ _ (rinode_ok s n D Hn)). rewrite F4.
  pose proof (Z.div_mod (a_size f) 512 ltac:(lia)). pose proof (Z.mod_pos_bound (a_size f) 512 ltac:(lia)).
  destruct (inode_written s n s (ino (img s) n) ((a_size f / BSIZE + 1) * BSIZE) _ (moved_refl _ _ D) Hn F1 F5) as (E2 & U & Ei & Di & W2 & By);
    [unfold BSIZE; lia|].
  eexists. split; [exact E2|]. eapply image_update; [exact G|exact Hk|exact U| |].
  - rewrite (total_insert l k f _ Hk), (g_fb _ _ G). unfold a_blocks, a_len. cbn. lia.
  - fold n. constructor; rewrite ?Ei; try done; [|intros q Hq; rewrite By by done; auto].
    unfold a_len in *. cbn. unfold BSIZE. lia.
Qed.

(** A new inode has no blocks. *)
Definition empty_inode (type : Z) : inode := Inode 0 0 0 0 type 0 0 1 0 (replicate (S NDIRECT) 0).

Lemma empty_addrs v type m : 0 <= m < MAXFILE -> baddr v (empty_inode type) m = 0.
Proof.
  intros Hm. unfold baddr, ind. cbn [i_addrs empty_inode]. destruct (Z.ltb_spec m (Z.of_nat NDIRECT)); [|done].
  apply list_lookup_total_correct, lookup_replicate_2. unfold NDIRECT in *. lia.
Qed.

Lemma empty_owns v type z : ~ owns v (empty_inode type) z.
Proof. intros [Hz [->|(m & Hm & E)]]; [done|]. by rewrite empty_addrs in E. Qed.

Lemma empty_disk type : - 2 ^ 15 <= type < 2 ^ 15 -> disk_inode (empty_inode type).
Proof. intros Ht. constructor; cbn; try lia; [repeat constructor; lia|done]. Qed.

Lemma empty_file v fb n type : - 2 ^ 15 <= type < 2 ^ 15 -> ino v n = empty_inode type -> file_at v fb n (AFile type [] 0).
Proof.
  intros Ht E. constructor; rewrite ?E; try done.
  - by apply empty_disk.
  - change (a_blocks _) with 0. constructor; try done; try (intros; lia). intros m Hm. by apply empty_addrs.
  - intros k Hk. unfold fbyte, fblock. rewrite empty_addrs by (by apply div_range). cbn [Z.eqb a_data]. rewrite lookup_nil. cbn [default].
    apply list_lookup_total_correct, lookup_replicate_2. unfold BSIZE. pose proof (Z.mod_pos_bound k 512 ltac:(lia)). lia.
Qed.

Lemma ialloc_ok s l type : image_ok s l -> Z.of_nat (length l) + 1 < ninodes -> - 2 ^ 15 <= type < 2 ^ 15 ->
  exists s', ialloc type s = Done (Z.of_nat (length l) + 1) s' /\ image_ok s' (l ++ [AFile type [] 0]).
Proof.
  intros G Hc Ht. pose proof (g_disk _ _ G) as D. set (n := Z.of_nat (length l) + 1) in *.
  set (s1 := Mst (img s) (nsect s) (freeblock s) (usedblocks s) (freeinode s + 1)).
  assert (E0 : ialloc type s = (winode n (empty_inode type) ;! ret n) s1) by (unfold n; rewrite <- (g_fi _ _ G); reflexivity).
  assert (D1 : disk_ok s1) by (destruct D; by constructor).
  assert (Hn : 0 <= n < ninodes) by (unfold n; lia).
  destruct (winode_ok s1 n (empty_inode type) D1 Hn (empty_disk type Ht)) as (E & D2 & Ei & Ej & Ez). set (s2 := put_inode n (empty_inode type) s1) in *.
  exists s2. rewrite E0, (bind_Done _ _ _ _ _ E). split; [done|].
  assert (R : rest_kept s l (length l) s2).
  { intros j g Hg Hne m. pose proof (lookup_lt_Some _ _ _ Hg) as Hlj. split; [apply Ej; unfold m, n; lia|].
    intros z O. pose proof (wf_owns _ _ _ _ _ _ (fa_wf _ _ _ _ (g_files _ _ G j g Hg)) O) as Hr. split; [done|].
    unfold DATA in Hr. by rewrite Ez by lia. }
  constructor.
  - done.
  - change (freeinode s2) with (freeinode s + 1). rewrite length_app, (g_fi _ _ G). cbn [length]. lia.
  - rewrite length_app. cbn [length]. lia.
  - change (freeblock s2) with (freeblock s). rewrite total_app, (g_fb _ _ G). change (total [_]) with 0. lia.
  - intros k f. rewrite lookup_app_Some. intros [Hk|[Hk Hk2]].
    + pose proof (lookup_lt_Some _ _ _ Hk). eapply (rest_file s l (length l)); [done|done|cbn; lia|done|lia].
    + destruct (k - length l)%nat as [|q] eqn:Eq; [|by destruct q]. injection Hk2 as <-.
      replace (Z.of_nat k + 1) with n by (unfold n; lia). by apply empty_file.
  - assert (X : forall k z, (k < length (l ++ [AFile type [] 0]))%nat -> owns (img s2) (ino (img s2) (Z.of_nat k + 1)) z ->
       (k < length l)%nat /\ owns (img s) (ino (img s) (Z.of_nat k + 1)) z).
    { intros k z Hk O. rewrite length_app in Hk. cbn in Hk. destruct (decide (k = length l)) as [->|Hne].
      - fold n in O. rewrite Ei in O. by destruct (empty_owns (img s2) type z).
      - split; [lia|]. apply (rest_owns s l (length l) s2); [done|lia|done|done]. }
    intros k k' z Hk Hk' Hne O O'. destruct (X k z Hk O) as [? ?], (X k' z Hk' O') as [? ?]. by apply (g_apart _ _ G k k' z).
  - rewrite Ez by lia. apply G.
Qed.

(** ** The builder on a list of files

    The same [add_dir] on the list of the files the image should hold. *)
Definition file_no (n : Z) (l : list afile) : option afile := if 1 <=? n then l !! Z.to_nat (n - 1) else None.
Definition set_file (n : Z) (f : afile) (l : list afile) : list afile := <[Z.to_nat (n - 1) := f]> l.

(** The file [n], which is not finished. *)
Definition change_file (n : Z) (g : afile -> afile) : M (list afile) unit := fun l =>
  match file_no n l with
  | Some f => if a_size f =? a_len f then Done tt (set_file n (g f) l) else Wild "finished"
  | None => Wild "no file"
  end.

#[export] Instance on_list : Image (list afile) := {|
  new_inode := fun type l => Done (Z.of_nat (length l) + 1) (l ++ [AFile type [] 0]);
  append_to := fun n p => change_file n (fun f => grown f p);
  whole_size := fun n => change_file n rounded |}.

(** The files of a directory tree, and that they fit the image. *)
Definition files_of (root : option (list host)) : outcome (list afile) unit :=
  (let! n := new_inode T_DIR in add_dir root n n) [].

Definition fits (l : list afile) : bool :=
  (Z.of_nat (length l) <? ninodes) && (DATA + total l <=? 1014) && forallb (fun f => a_len f <=? MAXFILE * BSIZE) l.

(** The blocks of a file are all there.  This is so for every file, and for a directory
    unless its entries end with a block, which gives it a size of one block more: see
    [rounded_hole]. *)
Definition solid (f : afile) : bool := (a_size f <=? MAXFILE * BSIZE) && (blocks_of (a_size f) =? a_blocks f).

(** Files only grow. *)
Definition extends (l l' : list afile) : Prop :=
  (length l <= length l')%nat /\ forall k f, l !! k = Some f -> exists f', l' !! k = Some f' /\ a_len f <= a_len f'.

Lemma extends_refl l : extends l l.
Proof. split; [lia|]. intros k f Hk. exists f. split; [done|lia]. Qed.

Lemma extends_trans l1 l2 l3 : extends l1 l2 -> extends l2 l3 -> extends l1 l3.
Proof.
  intros [A1 A2] [B1 B2]. split; [lia|]. intros k f Hk. destruct (A2 k f Hk) as (f' & Hk' & L). destruct (B2 k f' Hk') as (f'' & Hk'' & L').
  exists f''. split; [done|lia].
Qed.

Lemma extends_set n f f' l : file_no n l = Some f -> a_len f <= a_len f' -> extends l (set_file n f' l).
Proof.
  unfold file_no, set_file. destruct (1 <=? n); [|done]. intros Hk Hl. split; [by rewrite length_insert|]. intros k g Hg.
  destruct (decide (k = Z.to_nat (n - 1))) as [->|].
  - rewrite Hk in Hg. injection Hg as <-. exists f'. split; [|done]. apply list_lookup_insert_eq. by eapply lookup_lt_Some.
  - exists g. rewrite list_lookup_insert_ne by done. split; [done|lia].
Qed.

Lemma cost_nonneg n : 0 <= n -> 0 <= cost n.
Proof. intros. unfold cost. destruct (far n); lia. Qed.

Lemma a_blocks_nonneg f : 0 <= a_blocks f.
Proof. unfold a_blocks, blocks_of, a_len, BSIZE. apply Z.div_pos; lia. Qed.

Lemma total_mono l l' : extends l l' -> total l <= total l'.
Proof.
  revert l'. induction l as [|f l IH]; intros l' [E1 E2].
  - cbn. clear. induction l' as [|f l' IH]; cbn [total foldr]; [lia|]. fold (total l').
    pose proof (cost_nonneg _ (a_blocks_nonneg f)). lia.
  - destruct (E2 0%nat f eq_refl) as (f' & H0 & L). destruct l' as [|g l']; [done|]. injection H0 as ->. cbn [total foldr].
    fold (total l) (total l'). assert (total l <= total l').
    { apply IH. split; [cbn in E1; lia|]. intros k h Hk. apply (E2 (S k) h Hk). }
    pose proof (cost_mono _ _ (blocks_mono _ _ L) : cost (a_blocks f) <= cost (a_blocks f')). lia.
Qed.

Lemma fits_mono l l' : extends l l' -> fits l' = true -> fits l = true.
Proof.
  intros E. pose proof (total_mono _ _ E). destruct E as [E1 E2]. unfold fits. rewrite !andb_true_iff, !Z.ltb_lt, !Z.leb_le, !forallb_forall.
  intros [[F1 F2] F3]. split; [split; lia|]. intros f Hf%list_elem_of_In. apply list_elem_of_lookup in Hf as [k Hk].
  destruct (E2 k f Hk) as (f' & Hk' & L). apply Z.leb_le. assert (a_len f' <= MAXFILE * BSIZE); [|lia].
  apply Z.leb_le, F3, list_elem_of_In. by eapply list_elem_of_lookup_2.
Qed.

(** A piece of the builder does to the image what it does to the list. *)
Definition sims {A} (m : M mst A) (m' : M (list afile) A) : Prop := forall l a l', m' l = Done a l' ->
  extends l l' /\ (fits l' = true -> forall s, image_ok s l -> exists s', m s = Done a s' /\ image_ok s' l').

Lemma sims_ret {A} (a : A) : sims (ret a) (ret a).
Proof. intros l b l' [= <- <-]. split; [apply extends_refl|]. intros _ s G. by exists s. Qed.

Lemma sims_panic {A} x : sims (A := A) (panic x) (panic x).
Proof. intros l a l'. done. Qed.

Lemma sims_bind {A C} (m : M mst A) m' (k : A -> M mst C) k' : sims m m' -> (forall a, sims (k a) (k' a)) -> sims (bind m k) (bind m' k').
Proof.
  intros Hm Hk l c l2 E. apply bind_inv in E as (a & l1 & E1 & E2). destruct (Hm _ _ _ E1) as [X1 S1], (Hk a _ _ _ E2) as [X2 S2].
  split; [by eapply extends_trans|]. intros Hf s G. destruct (S1 (fits_mono _ _ X2 Hf) s G) as (s1 & R1 & G1).
  destruct (S2 Hf s1 G1) as (s2 & R2 & G2). exists s2. split; [|done]. by rewrite (bind_Done _ _ _ _ _ R1).
Qed.

Lemma sims_each {A} (f : A -> M mst unit) f' l : Forall (fun x => sims (f x) (f' x)) l -> sims (each f l) (each f' l).
Proof. induction 1; cbn [each]; [apply sims_ret|]. by apply sims_bind. Qed.

Lemma fits_facts l : fits l = true -> Z.of_nat (length l) < ninodes /\ DATA + total l <= 1014 /\
  forall k f, l !! k = Some f -> a_len f <= MAXFILE * BSIZE.
Proof.
  unfold fits. rewrite !andb_true_iff, Z.ltb_lt, Z.leb_le, forallb_forall. intros [[F1 F2] F3]. split; [done|]. split; [done|].
  intros k f Hk. apply Z.leb_le, F3, list_elem_of_In. by eapply list_elem_of_lookup_2.
Qed.

Lemma sims_new type : - 2 ^ 15 <= type < 2 ^ 15 -> sims (new_inode type) (new_inode type).
Proof.
  intros Ht l a l' [= <- <-]. split.
  - split; [rewrite length_app; lia|]. intros k f Hk. exists f. rewrite lookup_app_l by (by eapply lookup_lt_Some). split; [done|lia].
  - intros (F & _ & _)%fits_facts s G. rewrite length_app in F. cbn [length] in F. apply ialloc_ok; [done|lia|done].
Qed.

Lemma change_file_inv n g l a l' : change_file n g l = Done a l' -> exists k f, n = Z.of_nat k + 1 /\ l !! k = Some f /\
  file_no n l = Some f /\ a_size f = a_len f /\ l' = <[k := g f]> l /\ l' = set_file n (g f) l.
Proof.
  unfold change_file. destruct (file_no n l) as [f|] eqn:E; [|done]. destruct (Z.eqb_spec (a_size f) (a_len f)) as [Ea|]; [|done].
  intros [= <- <-]. pose proof E as E'. unfold file_no in E'. destruct (Z.leb_spec 1 n); [|done].
  exists (Z.to_nat (n - 1)), f. split; [lia|]. done.
Qed.

Lemma sims_append n p : sims (append_to n p) (append_to n p).
Proof.
  intros l a l' (k & f & -> & Hk & Hn & Ha & El & El')%change_file_inv. split.
  - rewrite El'. eapply extends_set; [exact Hn|]. unfold a_len. cbn. rewrite length_app. lia.
  - intros (_ & F2 & F3)%fits_facts s G. rewrite El in F2, F3 |- *. destruct a.
    apply iappend_ok; [done|done|done| |done]. apply (F3 k). apply list_lookup_insert_eq. by eapply lookup_lt_Some.
Qed.

Lemma sims_whole n : sims (whole_size n) (whole_size n).
Proof.
  intros l a l' (k & f & -> & Hk & Hn & Ha & El & El')%change_file_inv. split.
  - rewrite El'. eapply extends_set; [exact Hn|]. unfold a_len. cbn. lia.
  - intros (_ & F2 & F3)%fits_facts s G. rewrite El in F2, F3 |- *. destruct a.
    apply fix_size_ok; [done|done|]. rewrite Ha. assert (a_len f <= MAXFILE * BSIZE).
    { apply (F3 k (rounded f)). apply list_lookup_insert_eq. by eapply lookup_lt_Some. }
    unfold a_len, MAXFILE, BSIZE in *. lia.
Qed.

Create HintDb sims.
#[local] Hint Resolve sims_ret sims_panic sims_bind sims_append sims_whole : sims.

Lemma sims_fill add add' es cur parent : (forall l, es = Some l -> Forall (fun t => sims (add cur t) (add' cur t)) l) ->
  sims (fill_dir add es cur parent) (fill_dir add' es cur parent).
Proof.
  intros Ha. unfold fill_dir, dots. apply sims_bind; [auto with sims|]. intros _. destruct es as [l|]; [|auto with sims].
  apply sims_bind; [apply sims_each; auto|auto with sims].
Qed.

(** Induction on directory trees. *)
Lemma host_induction (P : host -> Prop) : (forall name pieces, P (HFile name pieces)) -> (forall name, P (HClosed name)) ->
  (forall name es, (forall l, es = Some l -> Forall P l) -> P (HDir name es)) -> forall t, P t.
Proof.
  intros HF HC HD. fix IH 1. intros [name pieces|name es|name]; [apply HF| |apply HC]. apply HD. intros l E.
  destruct es as [l'|]; [|done]. injection E as <-. induction l' as [|t l' IHl]; constructor; [apply IH|exact IHl].
Qed.

Lemma sims_entry t cur : sims (add_entry cur t) (add_entry cur t).
Proof.
  revert cur. induction t as [name pieces|name|name es IH] using host_induction; intros cur; cbn [add_entry host_name];
    (destruct (hidden name); [apply sims_ret|]); (apply sims_bind; [|intros; apply sims_append]).
  - apply sims_bind; [apply sims_new; cbv; done|]. intros n. apply sims_bind; [|intros; apply sims_ret].
    apply sims_each, Forall_true. intros p. apply sims_append.
  - apply sims_panic.
  - apply sims_bind; [apply sims_new; cbv; done|]. intros n. apply sims_bind; [|intros; apply sims_ret].
    apply sims_fill. intros l El. specialize (IH l El). eapply Forall_impl; [exact IH|]. intros t Ht. apply Ht.
Qed.

Lemma sims_dir root n : sims (add_dir root n n) (add_dir root n n).
Proof. apply sims_fill. intros l _. apply Forall_true. intros t. apply sims_entry. Qed.

(** ** The empty image, and the bitmap *)

Lemma zero_all l s : (forall z, img s z = zeroes) -> exists v, (forall z, v z = zeroes) /\
  forM l (fun i => wsect i zeroes) s = Done tt (set_img v (foldl (fun n i => Z.max n (i + 1)) (nsect s) l) s).
Proof.
  revert s. induction l as [|i l IH]; intros s Hz; cbn [forM foldl].
  - exists (img s). split; [done|]. by destruct s.
  - set (s1 := set_img (vupd i zeroes (img s)) (Z.max (nsect s) (i + 1)) s).
    destruct (IH s1) as (v & Hv & E); [intros z; cbn; unfold vupd; by case_decide|]. exists v. split; [done|].
    by rewrite (bind_Done _ _ _ _ _ (eq_refl : wsect i zeroes s = Done tt s1)), E.
Qed.

Lemma mkfs_ok : exists s, mkfs 985 LOGSIZE 1024 empty_image = Done tt s /\ image_ok s [].
Proof.
  set (s0 := Mst (fun _ => zeroes) 0 29 29 1). destruct (zero_all (seqZ 0 1024) s0) as (v & Hv & E); [done|].
  assert (En : foldl (fun n i => Z.max n (i + 1)) (nsect s0) (seqZ 0 1024) = 1024) by (vm_compute; reflexivity). rewrite En in E.
  set (sup := poke 0 (sb_bytes 1024 985 LOGSIZE) zeroes). assert (Ls : length sup = 512%nat) by (apply length_poke; vm_compute; lia).
  exists (wrote 1 sup (set_img v 1024 s0)). split.
  - unfold mkfs. cbv zeta. change (ninodes / IPB + 3 + (1024 / (512 * 8) + 1)) with 29. change (985 + 29 + LOGSIZE) with 1024.
    change (negb (1024 =? 1024)) with false. cbv iota.
    rewrite (bind_Done _ _ empty_image tt s0 eq_refl), (bind_Done _ _ _ _ _ E). done.
  - assert (D : disk_ok (wrote 1 sup (set_img v 1024 s0))).
    { constructor; cbn [wrote set_img img nsect freeblock usedblocks s0].
      - reflexivity.
      - intros z _. unfold vupd. case_decide; [exact Ls|]. rewrite Hv. apply length_replicate.
      - unfold DATA. lia.
      - reflexivity.
      - intros z Hz. rewrite vupd_ne by lia. apply Hv. }
    constructor; [exact D|reflexivity|reflexivity|reflexivity| | |apply vupd_eq].
    + intros k f Hk. by rewrite lookup_nil in Hk.
    + intros k k' z Hk. cbn in Hk. lia.
Qed.

Lemma bitmap_bits used b : 0 <= used <= BPB -> 0 <= b < BPB ->
  length (bitmap used) = 512%nat /\ bit_used b (bitmap used) = (b <? used).
Proof.
  intros Hu Hb. unfold bitmap. rewrite <- (Z2Nat.id used) in * by lia. induction (Z.to_nat used) as [|n IH].
  - split; [done|]. change (seqZ 0 (Z.of_nat 0)) with (@nil Z). cbn [foldl]. rewrite (proj2 (Z.ltb_ge b (Z.of_nat 0))) by lia.
    unfold bit_used, bit_byte. assert (E : zeroes !!! Z.to_nat (b / 8) = 0); [|by rewrite E].
    apply list_lookup_total_correct, lookup_replicate_2. unfold BPB in *.
    assert (b / 8 < 512) by (apply Z.div_lt_upper_bound; lia). assert (0 <= b / 8) by (apply Z.div_pos; lia). lia.
  - destruct IH as [L IH]; [lia|]. rewrite seqZ_S, foldl_app. cbn [foldl]. rewrite length_bit_set. split; [done|].
    rewrite bit_set_used by (done || unfold bit_in; lia). rewrite IH. case_bool_decide as E; cbn [orb]; symmetry.
    + apply Z.ltb_lt. lia.
    + destruct (Z.ltb_spec b (Z.of_nat n)); [apply Z.ltb_lt|apply Z.ltb_ge]; lia.
Qed.

(** ** The tree on the image

    [stands F n parent t]: the tree [t] is in the file system whose file [n] is
    described by [F], with [n] as its inode, the entries of a directory in order. *)
Definition lined (P : Z -> host -> Prop) : list host -> list Z -> Prop :=
  fix go es ks :=
    match es with
    | [] => ks = []
    | e :: es' =>
        if hidden (host_name e) then go es' ks
        else match ks with k :: ks' => P k e /\ go es' ks' | [] => False end
    end.

Fixpoint dir_entries (es : list host) (ks : list Z) : list Z :=
  match es with
  | [] => []
  | e :: es' =>
      if hidden (host_name e) then dir_entries es' ks
      else match ks with k :: ks' => (le_enc 2 k ++ image_name (host_name e)) ++ dir_entries es' ks' | [] => [] end
  end.

Definition whole_file (type : Z) (data : list Z) : afile := AFile type data (Z.of_nat (length data)).
Definition dot_entries (n parent : Z) : list Z := dirent n [46] ++ dirent parent [46; 46].

Fixpoint stands (F : Z -> afile -> Prop) (n parent : Z) (t : host) : Prop :=
  match t with
  | HFile _ pieces => F n (whole_file T_FILE (concat pieces))
  | HDir _ None => F n (whole_file T_DIR (dot_entries n parent))
  | HDir _ (Some es) => exists ks, lined (fun k e => stands F k n e) es ks /\
      F n (rounded (whole_file T_DIR (dot_entries n parent ++ dir_entries es ks)))
  | HClosed _ => False
  end.

Lemma lined_mono (P Q : Z -> host -> Prop) es ks : Forall (fun e => forall k, P k e -> Q k e) es -> lined P es ks -> lined Q es ks.
Proof.
  intros H. revert ks. induction H as [|e es He H IH]; intros ks; cbn [lined]; [done|]. destruct (hidden _); [apply IH|].
  destruct ks; [done|]. intros [? ?]. auto.
Qed.

Lemma stands_mono (F F' : Z -> afile -> Prop) t n parent : (forall k f, F k f -> F' k f) -> stands F n parent t -> stands F' n parent t.
Proof.
  intros HF. revert n parent. induction t as [name pieces|name|name es IH] using host_induction; intros n parent; cbn [stands]; [apply HF|done|].
  destruct es as [es|]; [|apply HF]. intros (ks & H & Hf). exists ks. split; [|by apply HF].
  eapply lined_mono; [|exact H]. eapply Forall_impl; [exact (IH es eq_refl)|]. auto.
Qed.

(** Nothing but file [n] and new files changed. *)
Definition only (n : Z) (l l' : list afile) : Prop :=
  (length l <= length l')%nat /\ forall k, (k < length l)%nat -> Z.of_nat k + 1 <> n -> l' !! k = l !! k.

Lemma only_refl n l : only n l l.
Proof. split; [lia|done]. Qed.

Lemma only_trans n l1 l2 l3 : only n l1 l2 -> only n l2 l3 -> only n l1 l3.
Proof. intros [A1 A2] [B1 B2]. split; [lia|]. intros k Hk Hn. rewrite B2, A2 by (done || lia). done. Qed.

Lemma only_new n f l l' : only (Z.of_nat (length l) + 1) (l ++ [f]) l' -> only n l l'.
Proof.
  intros [A1 A2]. rewrite length_app in A1. cbn in A1. split; [lia|]. intros k Hk _. rewrite A2 by (rewrite ?length_app; cbn; lia).
  by apply lookup_app_l.
Qed.

Lemma file_no_S k l : file_no (Z.of_nat k + 1) l = l !! k.
Proof. unfold file_no. rewrite (proj2 (Z.leb_le _ _)) by lia. f_equal. lia. Qed.

Lemma changed n g l a l' : change_file n g l = Done a l' -> exists f, file_no n l = Some f /\ a_size f = a_len f /\
  file_no n l' = Some (g f) /\ only n l l' /\ length l' = length l.
Proof.
  intros (k & f & -> & Hk & Hn & Ha & -> & _)%change_file_inv. exists f. rewrite !file_no_S.
  split; [done|]. split; [done|]. split; [apply list_lookup_insert_eq; by eapply lookup_lt_Some|]. rewrite length_insert. split; [|done].
  split; [by rewrite length_insert|]. intros j Hj Hne. apply list_lookup_insert_ne. intros ->. done.
Qed.

Lemma grown_app f p q : grown (grown f p) q = grown f (p ++ q).
Proof. unfold grown. cbn. f_equal; [by rewrite app_assoc|]. rewrite length_app. lia. Qed.

Lemma grown_nil f : grown f [] = f.
Proof. destruct f. unfold grown. cbn. f_equal; [apply app_nil_r|lia]. Qed.

Lemma each_append n f pieces l l' : file_no n l = Some f -> each (append_to n) pieces l = Done tt l' ->
  file_no n l' = Some (grown f (concat pieces)) /\ only n l l' /\ length l' = length l.
Proof.
  revert f l. induction pieces as [|p pieces IH]; intros f l Hf; cbn [each concat].
  - intros [= <-]. by rewrite grown_nil.
  - intros ([] & l1 & E1 & E2)%bind_inv. destruct (changed _ _ _ _ _ E1) as (f' & Hf' & _ & G & O & L).
    rewrite Hf in Hf'. injection Hf' as <-. destruct (IH _ _ G E2) as (G2 & O2 & L2). rewrite grown_app in G2.
    split; [done|]. split; [by eapply only_trans|lia].
Qed.

(** The files behind the first [m]. *)
Definition newer (m : nat) (l : list afile) (n : Z) (f : afile) : Prop := Z.of_nat m < n /\ file_no n l = Some f.

Lemma file_no_range n l f : file_no n l = Some f -> 1 <= n <= Z.of_nat (length l).
Proof.
  unfold file_no. destruct (Z.leb_spec 1 n); [|done]. intros Hk. pose proof (lookup_lt_Some _ _ _ Hk). lia.
Qed.

Lemma newer_only m cur l l' n f : only cur l l' -> cur <= Z.of_nat m -> newer m l n f -> newer m l' n f.
Proof.
  intros [_ O] Hc [Hn Hf]. split; [done|]. pose proof (file_no_range _ _ _ Hf). unfold file_no in *.
  destruct (1 <=? n); [|done]. rewrite O by lia. done.
Qed.

(** What the loop of [add_dir] has done with the entries [es]. *)
Definition placed (cur : Z) (es : list host) (l l' : list afile) : Prop := forall f, file_no cur l = Some f ->
  exists ks, lined (fun k e => stands (newer (length l) l') k cur e) es ks /\
    file_no cur l' = Some (grown f (dir_entries es ks)) /\ only cur l l'.

Lemma placed_cons cur e es l l1 l2 : placed cur [e] l l1 -> placed cur es l1 l2 -> placed cur (e :: es) l l2.
Proof.
  intros A B f Hf. destruct (A f Hf) as (ks1 & L1 & F1 & O1). destruct (B _ F1) as (ks2 & L2 & F2 & O2).
  pose proof (file_no_range _ _ _ Hf) as Hc. rewrite grown_app in F2. exists (ks1 ++ ks2).
  split; [|split; [|by eapply only_trans]].
  - assert (L2' : lined (fun k e => stands (newer (length l) l2) k cur e) es ks2).
    { eapply lined_mono; [|exact L2]. apply Forall_true. intros t k. apply stands_mono. intros n g [? ?]. destruct O1. split; [lia|done]. }
    cbn [lined] in *. destruct (hidden (host_name e)); [by subst ks1|]. destruct ks1 as [|k ks1]; [done|]. destruct L1 as [L1 ->].
    split; [|done]. eapply stands_mono; [|exact L1]. intros n g. apply (newer_only _ cur); [done|lia].
  - cbn [dir_entries lined] in *. destruct (hidden (host_name e)); [by subst ks1|]. destruct ks1 as [|k ks1]; [done|]. destruct L1 as [_ ->].
    cbn [app]. by rewrite app_nil_r in F2.
Qed.

Lemma each_placed cur es l l' : Forall (fun e => forall l l', add_entry cur e l = Done tt l' -> placed cur [e] l l') es ->
  each (add_entry cur) es l = Done tt l' -> placed cur es l l'.
Proof.
  intros H. revert l. induction H as [|e es He H IH]; intros l; cbn [each].
  - intros [= <-] f Hf. exists []. rewrite grown_nil. split; [done|]. split; [done|apply only_refl].
  - intros ([] & l1 & E1 & E2)%bind_inv. eapply placed_cons; [by apply He|by apply IH].
Qed.

Lemma grown_whole type data p : grown (whole_file type data) p = whole_file type (data ++ p).
Proof. unfold grown, whole_file. cbn. f_equal. rewrite length_app. lia. Qed.

Lemma fill_placed name m n parent es l l' :
  (forall x, es = Some x -> Forall (fun e => forall l l', add_entry n e l = Done tt l' -> placed n [e] l l') x) ->
  file_no n l = Some (whole_file T_DIR []) -> Z.of_nat m < n -> (m <= length l)%nat ->
  fill_dir add_entry es n parent l = Done tt l' -> stands (newer m l') n parent (HDir name es) /\ only n l l'.
Proof.
  intros H Hf Hm Hl. unfold fill_dir, dots. intros ([] & l2 & ([] & l1 & E1 & E2)%bind_inv & E3)%bind_inv.
  destruct (changed _ _ _ _ _ E1) as (f1 & F1 & _ & G1 & O1 & L1). destruct (changed _ _ _ _ _ E2) as (f2 & F2 & _ & G2 & O2 & L2).
  rewrite F1 in Hf. injection Hf as ->. rewrite G1 in F2. injection F2 as <-. rewrite grown_app, grown_whole in G2. cbn [app] in G2.
  fold (dot_entries n parent) in G2. destruct es as [es|].
  - apply bind_inv in E3 as ([] & l3 & E3 & E4). destruct (each_placed _ _ _ _ (H es eq_refl) E3 _ G2) as (ks & L & G3 & O3).
    destruct (changed _ _ _ _ _ E4) as (f4 & F4 & _ & G4 & O4 & L4). rewrite G3 in F4. injection F4 as <-. rewrite grown_whole in G4.
    split; [|eapply only_trans; [exact O1|]; eapply only_trans; [exact O2|]; by eapply only_trans].
    exists ks. split; [|done]. eapply lined_mono; [|exact L]. apply Forall_true. intros t k. apply stands_mono. intros j g Hj.
    pose proof (file_no_range _ _ _ G2). destruct (newer_only (length l2) n l3 l' j g O4 ltac:(lia) Hj) as [? ?]. split; [lia|done].
  - injection E3 as <-. split; [|by eapply only_trans]. done.
Qed.

(** The end of the loop's body: the entry [t] has become file [child], and is named. *)
Lemma name_placed cur t l l2 l' : hidden (host_name t) = false -> let child := Z.of_nat (length l) + 1 in only cur l l2 ->
  (forall f, file_no cur l = Some f -> file_no cur l2 = Some f) -> stands (newer (length l) l2) child cur t ->
  append_to cur (le_enc 2 child ++ image_name (host_name t)) l2 = Done tt l' -> placed cur [t] l l'.
Proof.
  intros Hh child O Hc St E f Hf. pose proof (file_no_range _ _ _ Hf). destruct (changed _ _ _ _ _ E) as (f' & F & _ & G & O' & L).
  rewrite (Hc f Hf) in F. injection F as <-. exists [child]. cbn [lined dir_entries]. rewrite Hh, app_nil_r.
  split; [split; [|done]|split; [done|by eapply only_trans]]. eapply stands_mono; [|exact St]. intros n g.
  apply (newer_only _ cur); [done|lia].
Qed.

Lemma only_file n m l l' f : only n l l' -> m <> n -> file_no m l = Some f -> file_no m l' = Some f.
Proof.
  intros [_ O] Hne Hf. pose proof (file_no_range _ _ _ Hf). unfold file_no in *. destruct (1 <=? m); [|done]. rewrite O by lia. done.
Qed.

Lemma file_no_app n l x f : file_no n l = Some f -> file_no n (l ++ x) = Some f.
Proof. unfold file_no. destruct (1 <=? n); [|done]. intros Hk. rewrite lookup_app_l; [done|]. by eapply lookup_lt_Some. Qed.

Lemma file_no_last l f : file_no (Z.of_nat (length l) + 1) (l ++ [f]) = Some f.
Proof. rewrite file_no_S. by apply list_lookup_middle. Qed.

Lemma entry_placed t cur l l' : add_entry cur t l = Done tt l' -> placed cur [t] l l'.
Proof.
  revert cur l l'. induction t as [name pieces|name|name es IH] using host_induction; intros cur l l'; cbn [add_entry host_name];
    (destruct (hidden name) eqn:Hh; [intros [= <-] f Hf; exists []; cbn [lined dir_entries host_name]; rewrite Hh, grown_nil;
       split; [done|]; split; [done|apply only_refl]|]); intros (child & l2 & E & E2)%bind_inv.
  - apply bind_inv in E as (c & l1 & [= <- <-] & E). apply bind_inv in E as ([] & l3 & E & [= <- <-]).
    destruct (each_append _ _ _ _ _ (file_no_last l _) E) as (G & O & L).
    change (AFile T_FILE [] 0) with (whole_file T_FILE []) in G. rewrite grown_whole in G.
    apply (name_placed cur (HFile name pieces) l l3 l'); [done|by eapply only_new| | |done].
    + intros f Hf. pose proof (file_no_range _ _ _ Hf). eapply only_file; [exact O|lia|by apply file_no_app].
    + cbn [stands]. split; [lia|done].
  - done.
  - apply bind_inv in E as (c & l1 & [= <- <-] & E). apply bind_inv in E as ([] & l3 & E & [= <- <-]).
    destruct (fill_placed name (length l) (Z.of_nat (length l) + 1) cur es (l ++ [whole_file T_DIR []]) l3) as [St O]; [|apply file_no_last|lia|rewrite length_app; lia|exact E|].
    { intros x Ex. eapply Forall_impl; [exact (IH x Ex)|]. auto. }
    apply (name_placed cur (HDir name es) l l3 l'); [done|by eapply only_new| |done|done].
    intros f Hf. pose proof (file_no_range _ _ _ Hf). eapply only_file; [exact O|lia|by apply file_no_app].
Qed.

(** The list of files of a tree holds the tree. *)
Lemma files_of_stand name root l : files_of root = Done tt l -> stands (fun n f => file_no n l = Some f) ROOTINO ROOTINO (HDir name root).
Proof.
  intros (n & l1 & [= <- <-] & E)%bind_inv. destruct (fill_placed name 0 1 1 root [whole_file T_DIR []] l) as [St _]; [|done|done|cbn; lia|exact E|].
  - intros x _. apply Forall_true. intros t. apply entry_placed.
  - eapply stands_mono; [|exact St]. by intros k f [_ Hf].
Qed.

(** ** The image as the kernel reads it *)

(** Inode [n] after [iget] and [ilock]. *)
Definition kernel_inode (dev : Z) (v : Z -> block) (n : Z) : inode :=
  dinode_get (islot n) (v (IBLOCK n)) (Inode dev n 1 2 0 0 0 0 0 []).

Lemma main_runs root l : files_of root = Done tt l -> fits l = true ->
  exists s, image_ok s l /\ main root empty_image = Done tt (wrote 28 (bitmap (freeblock s)) s).
Proof.
  intros E Hf. destruct mkfs_ok as (s0 & E0 & G0). unfold files_of in E.
  apply bind_inv in E as (n & l1 & E1 & E2). destruct (sims_new T_DIR ltac:(cbv; done) _ _ _ E1) as [_ S1].
  destruct (sims_dir root n _ _ _ E2) as [X2 S2]. destruct (S1 (fits_mono _ _ X2 Hf) s0 G0) as (s1 & R1 & G1).
  destruct (S2 Hf s1 G1) as (s2 & R2 & G2). exists s2. split; [done|]. injection E1 as <- <-.
  pose proof (g_disk _ _ G2) as D. pose proof (d_fb _ D) as Hb. unfold DATA in Hb.
  unfold main. rewrite (bind_Done _ _ _ _ _ E0), (bind_Done _ _ _ _ _ R1). change (negb (_ =? ROOTINO)) with false. cbv iota.
  rewrite (bind_Done _ _ _ _ _ R2), (bind_Done _ _ _ _ _ (eq_refl : gets usedblocks s2 = Done (usedblocks s2) s2)).
  unfold balloc. rewrite (d_used _ D), (proj2 (Z.ltb_lt _ _)) by lia. cbn [negb]. apply wsect_ok; [done|change (ninodes / IPB + 3) with 28; lia].
Qed.

Section Kernel.
Context {B : Type} `{BlocksSpec B} (Hhome : home = 1014).

(** What is in file [f], with zeroes up to its size. *)
Definition a_content (f : afile) : list Z := a_data f ++ replicate (Z.to_nat (a_size f - a_len f)) 0.

(** What the kernel finds in file [n]: it is a file the theorems of FsFile.v are about,
    and in every state of the kernel whose blocks are those of the image and which has the
    inode in its table, [readi] gives the bytes of the file. *)
Definition reads_as (v : Z -> block) (n : Z) (f : afile) : Prop :=
  let i := kernel_inode bdev v n in
  inode_ok v i /\ i_type i = a_type f /\ i_nlink i = 1 /\ i_size i = a_size f /\ content v i = a_content f /\
  forall (Dv : Devices) s w ip o m, rep (blk s) v ∅ w -> icache s !! ip = Some i -> a_type f <> T_DEV -> (size w < nbufs)%nat ->
    0 <= o <= a_size f -> 0 <= m -> o + m < 2 ^ 32 ->
    let t := take (Z.to_nat m) (drop (Z.to_nat o) (a_content f)) in
    exists bs, readi ip o m s = Done (Z.of_nat (length t), t) (set_blk bs s) /\ rep bs v ∅ w.

Lemma content_at v fb n f i : file_at v fb n f -> i_addrs i = i_addrs (ino v n) -> i_size i = a_size f -> a_size f <= MAXFILE * BSIZE ->
  content v i = a_content f.
Proof.
  unfold a_content. intros A Ea Es Hm. pose proof (fa_len _ _ _ _ A) as Hl. unfold content. rewrite Es. apply list_eq. intros k. unfold a_len in *.
  assert (Hb : forall q, fbyte v i q = fbyte v (ino v n) q).
  { intros q. unfold fbyte, fblock, baddr, ind. by rewrite Ea. }
  destruct (decide (Z.of_nat k < a_size f)) as [Hk|Hk].
  - rewrite lookup_bytes by done. rewrite Hb, (fa_bytes _ _ _ _ A) by lia. replace (Z.to_nat (0 + Z.of_nat k)) with k by lia.
    destruct (decide (k < length (a_data f))%nat) as [Hd|Hd].
    + rewrite lookup_app_l by done. destruct (lookup_lt_is_Some_2 (a_data f) k Hd) as [x Hx]. by rewrite Hx.
    + rewrite lookup_app_r by lia. rewrite lookup_replicate_2 by lia. by rewrite (proj2 (lookup_ge_None _ _)) by lia.
  - rewrite !(proj2 (lookup_ge_None _ _)); [done|rewrite length_app, length_replicate; lia|rewrite length_bytes; lia].
Qed.

(** The finished image. *)
Variables (s : mst) (l : list afile).
Hypothesis G : image_ok s l.
Let v : Z -> block := vupd 28 (bitmap (freeblock s)) (img s).

Lemma final_sb : sb v = Log.Superblock 1024 985 200 10.
Proof. unfold sb, v. rewrite vupd_ne by done. rewrite (g_super _ _ G). vm_compute. reflexivity. Qed.

Lemma final_used z : 0 <= z < 1024 -> used v z = (z <? freeblock s).
Proof.
  intros Hz. pose proof (d_fb _ (g_disk _ _ G)) as Hb. unfold DATA in Hb. unfold used, map_block. rewrite final_sb. cbn [Log.sb_ninodes].
  unfold BBLOCK. rewrite (Z.mod_small z BPB), (Z.div_small z BPB) by (unfold BPB; lia). change (u32 (0 + 200 / IPB + 3)) with 28.
  unfold v. rewrite vupd_eq. apply bitmap_bits; unfold BPB; lia.
Qed.

Lemma final_fs : fs_ok v /\ dstart v = 29.
Proof.
  pose proof final_sb as Es. pose proof (d_fb _ (g_disk _ _ G)) as Hb. unfold DATA in Hb.
  assert (Ed : dstart v = 29) by (unfold dstart, map_start; rewrite Es; reflexivity).
  assert (Um : forall b, 0 <= b < 1024 -> map_block v b = 28).
  { intros b Hz. unfold map_block, BBLOCK. rewrite Es, Z.div_small by (unfold BPB; lia). reflexivity. }
  split; [|done]. constructor; rewrite ?Ed, ?Es; cbn [Log.sb_size]; try lia.
  - constructor; rewrite ?Es, ?Hhome; cbn [Log.sb_size Log.sb_ninodes]; try lia.
    + intros b Hz. rewrite Z.div_small by (unfold BPB; lia). reflexivity.
    + intros _. rewrite final_used by lia. apply Z.ltb_lt. lia.
    + intros b Hz _. rewrite Um, final_used by lia. apply Z.ltb_lt. lia.
  - intros z Hz. rewrite final_used by lia. apply Z.ltb_lt. lia.
Qed.

Lemma final_file k f : l !! k = Some f -> file_at v (freeblock s) (Z.of_nat k + 1) f /\ ino v (Z.of_nat k + 1) = ino (img s) (Z.of_nat k + 1).
Proof.
  intros Hk. pose proof (lookup_lt_Some _ _ _ Hk). pose proof (g_cnt _ _ G). pose proof (g_files _ _ G k f Hk) as A.
  assert (E : ino v (Z.of_nat k + 1) = ino (img s) (Z.of_nat k + 1)).
  { unfold ino, v. destruct (i2b_range (Z.of_nat k + 1)); [lia|]. by rewrite vupd_ne by lia. }
  split; [|done]. eapply file_at_same; [|reflexivity|exact E|exact A]. intros z O.
  pose proof (wf_owns _ _ _ _ _ _ (fa_wf _ _ _ _ A) O). unfold DATA in *. unfold v. by rewrite vupd_ne by lia.
Qed.

(** A file of the image is a file of the kernel. *)
Lemma wf_file i nb ib : wf v i (freeblock s) nb ib -> i_dev i = bdev -> file_ok v i.
Proof.
  intros W Hd. destruct final_fs as [_ Ed]. pose proof (d_fb _ (g_disk _ _ G)) as Hb. unfold DATA in Hb. constructor.
  - done.
  - apply W.
  - intros z O. pose proof (wf_owns _ _ _ _ _ _ W O) as Hz. unfold DATA in Hz. rewrite Ed, final_sb, Hhome. cbn [Log.sb_size].
    rewrite final_used by lia. rewrite Z.ltb_lt. lia.
  - intros n m Hn Hm E Hz. assert (X : forall q, 0 <= q < MAXFILE -> baddr v i q <> 0 -> q < nb).
    { intros q Hq Hz'. destruct (decide (q < nb)); [done|]. by rewrite (w_out _ _ _ _ _ W) in Hz' by lia. }
    apply (w_inj _ _ _ _ _ W); [|split; [lia|apply X; [done|congruence]]|done]. split; [lia|by apply X].
  - intros n Hn E. destruct (decide (n < nb)); [by destruct (w_sep _ _ _ _ _ W n ltac:(lia))|]. rewrite <- E. apply (w_out _ _ _ _ _ W). lia.
Qed.

Lemma wf_inode i j fb nb ib : i_addrs i = i_addrs j -> wf v j fb nb ib -> wf v i fb nb ib.
Proof.
  intros E. assert (Eb : forall m, baddr v i m = baddr v j m) by (intros m; unfold baddr, ind; by rewrite E).
  assert (Ei : ind i = ind j) by (unfold ind; by rewrite E). intros [W1 W2 W3 W4 W5 W6 W7]. constructor; rewrite ?E, ?Ei; auto.
  - intros m. rewrite Eb. auto.
  - intros m. rewrite Eb. auto.
  - intros m m'. rewrite !Eb. auto.
  - intros m. rewrite Eb. auto.
Qed.

Lemma final_reads k f : l !! k = Some f -> solid f = true -> reads_as v (Z.of_nat k + 1) f.
Proof.
  intros Hk [Hm%Z.leb_le Hb%Z.eqb_eq]%andb_prop. destruct (final_file k f Hk) as [A E]. pose proof (lookup_lt_Some _ _ _ Hk) as Hl. pose proof (g_cnt _ _ G) as Hc.
  set (n := Z.of_nat k + 1) in *. set (i := kernel_inode bdev v n).
  assert (Ea : i_addrs i = i_addrs (ino v n)) by done. assert (Es : i_size i = a_size f) by (apply (fa_size _ _ _ _ A)).
  pose proof (wf_inode i _ _ _ _ Ea (fa_wf _ _ _ _ A)) as W. pose proof (wf_file i _ _ W eq_refl) as F.
  assert (Io : inode_ok v i).
  { constructor.
    - done.
    - destruct (fa_disk _ _ _ _ A). by constructor.
    - rewrite final_sb. cbn. unfold ninodes, n in *. lia.
    - fold i. by rewrite Es.
    - intros q Hq. fold i in Hq |- *. rewrite Es in Hq. assert (q / BSIZE < a_blocks f).
      { rewrite <- Hb. unfold blocks_of, BSIZE. pose proof (Z.div_mod q 512 ltac:(lia)). pose proof (Z.mod_pos_bound q 512 ltac:(lia)).
        assert (q / 512 + 1 <= (a_size f + 511) / 512) by (apply Z.div_le_lower_bound; lia). lia. }
      pose proof (w_in _ _ _ _ _ W (q / BSIZE) ltac:(split; [apply Z.div_pos; unfold BSIZE; lia|done])). unfold DATA in *. lia.
    - intros e. reflexivity. }
  pose proof (content_at v _ n f i A Ea Es Hm) as Ec. split; [done|]. split; [apply (fa_type _ _ _ _ A)|]. split; [apply (fa_nlink _ _ _ _ A)|].
  split; [done|]. split; [done|]. intros Dv st w ip o m R Hi Ht Hw Ho Hm0 H32. rewrite <- Ec.
  apply (readi_content st v w ip i o m R Hi (proj1 final_fs) Io); [|done|by rewrite Es|done|done].
  unfold i. rewrite (fa_type _ _ _ _ A : i_type (kernel_inode bdev v n) = _). done.
Qed.

Lemma final_apart j k : (j < length l)%nat -> (k < length l)%nat -> j <> k ->
  apart_files v (kernel_inode bdev v (Z.of_nat j + 1)) (kernel_inode bdev v (Z.of_nat k + 1)).
Proof.
  intros Hj Hk Hne. assert (X : forall q z, (q < length l)%nat -> owns v (kernel_inode bdev v (Z.of_nat q + 1)) z ->
     owns (img s) (ino (img s) (Z.of_nat q + 1)) z).
  { intros q z Hq O. destruct (lookup_lt_is_Some_2 l q Hq) as [f Hf]. destruct (final_file q f Hf) as [A E].
    destruct O as [Hz O]. split; [done|]. rewrite <- E. destruct O as [?|(m & Hm & Em)]; [by left|right]. exists m. split; [done|].
    rewrite <- Em. rewrite <- (baddr_same (img s) v).
    - reflexivity.
    - rewrite E. intros y Oy. pose proof (wf_owns _ _ _ _ _ _ (fa_wf _ _ _ _ (g_files _ _ G q f Hf)) Oy). unfold DATA in *.
      unfold v. by rewrite vupd_ne by lia. }
  intros z O O'. by apply (g_apart _ _ G j k z Hj Hk Hne); apply X.
Qed.

End Kernel.

(** C12: The builder of the disk image is correct.  Take a directory tree whose files fit
    into the image ([fits]: fewer than 200 of them, no file over 140 blocks, all of them in
    front of the log), in which no directory's entries end exactly with a block ([solid]:
    such a directory gets a size with a block that is missing).  Then the builder
    finishes, and the image holds that tree as the kernel reads it: the super block
    describes it, the log is empty, the bitmap marks exactly the blocks in use, and the
    disk and every file satisfy what the theorems on the file system assume of them.
    [readi] of the kernel reads every file as its bytes, and a directory as its entries
    with the inodes of its files in order and zeroes behind; no two files share a block. *)
Theorem mkfs_image root l : files_of root = Done tt l -> fits l = true -> forallb solid l = true ->
  exists s, main root empty_image = Done tt s /\ let v := img s in
    sb v = Log.Superblock 1024 985 200 10 /\ v 1014 = zeroes /\
    (forall z, 0 <= z < 1024 -> used v z = (z <? DATA + total l)) /\
    forall B (HB : Blocks B) (HS : BlocksSpec B), home = 1014 -> fs_ok v /\
      stands (reads_as v) ROOTINO ROOTINO (HDir [] root) /\
      forall j k, (j < length l)%nat -> (k < length l)%nat -> j <> k ->
        apart_files v (kernel_inode bdev v (Z.of_nat j + 1)) (kernel_inode bdev v (Z.of_nat k + 1)).
Proof.
  intros E Hf Hs. destruct (main_runs root l E Hf) as (s & G & R). eexists. split; [exact R|]. cbn [img wrote set_img]. cbv zeta.
  pose proof (g_disk _ _ G) as D. split; [by apply (final_sb s l)|]. split; [|split].
  - pose proof (d_fb _ D). unfold DATA in *. rewrite vupd_ne by lia. apply D. lia.
  - intros z Hz. rewrite (final_used s l G z Hz). by rewrite (g_fb _ _ G).
  - intros B HB HS Hh. split; [by apply (final_fs Hh s l)|]. split; [|intros; by apply (final_apart s l)].
    eapply stands_mono; [|exact (files_of_stand [] root l E)]. intros n f Hn. pose proof (file_no_range _ _ _ Hn).
    replace n with (Z.of_nat (Z.to_nat (n - 1)) + 1) in * by lia. rewrite file_no_S in Hn. apply (final_reads Hh s l); [done..|].
    rewrite forallb_forall in Hs. apply Hs, list_elem_of_In. by eapply list_elem_of_lookup_2.
Qed.

(** ** An example *)

(** A file read in two pieces, one that is passed over, and a directory with a file of
    two blocks, whose name starts with a dot in the image. *)
Definition demo_root : option (list host) :=
  Some [HFile [97] [[1; 2]; [3]]; HFile [46; 120] [[9]]; HDir [95; 100] (Some [HFile [98] [replicate 512 7; [8]]])].
Definition demo_files : list afile := match files_of demo_root with Done _ l => l | _ => [] end.

Lemma mkfs_image_witness : length demo_files = 4%nat /\ exists s, main demo_root empty_image = Done tt s /\
  sb (img s) = Log.Superblock 1024 985 200 10 /\ used (img s) 33 = true /\ used (img s) 34 = false.
Proof.
  split; [vm_compute; reflexivity|].
  destruct (mkfs_image demo_root demo_files) as (s & R & Es & _ & Hu & _); [vm_compute; reflexivity..|].
  exists s. split; [exact R|]. split; [exact Es|]. rewrite !Hu by lia. split; vm_compute; reflexivity.
Defined.

(** ** Two remarks on the code *)

(** A directory whose entries fill its blocks gets a size with a block that is missing. *)
Lemma rounded_hole v fb n f : file_at v fb n (rounded f) -> a_size f = a_len f -> a_len f mod BSIZE = 0 -> a_len f < MAXFILE * BSIZE ->
  a_len f < i_size (ino v n) /\ baddr v (ino v n) (a_len f / BSIZE) = 0.
Proof.
  intros A Ea Hm Hl. pose proof (fa_size _ _ _ _ A) as Es. pose proof (Z.div_mod (a_len f) 512 ltac:(lia)) as Ed.
  cbn [a_size rounded] in Es. rewrite Es, Ea. unfold BSIZE in *. split; [lia|]. apply (w_out _ _ _ _ _ (fa_wf _ _ _ _ A)).
  unfold a_blocks, a_len, blocks_of, MAXFILE, BSIZE in *. cbn [a_data rounded]. set (x := Z.of_nat (length (a_data f))) in *.
  assert (0 <= x) by (unfold x; lia). split; [|apply Z.div_lt_upper_bound; lia].
  replace (x + 511) with (x / 512 * 512 + 511) by lia. rewrite Z.div_add_l by lia. change (511 / 512) with 0. lia.
Qed.

(** Nothing keeps the files out of the log: with the data blocks used up, the next byte
    goes into the block of the log's header. *)
Definition full_image : mst := Mst (fun _ => zeroes) 1024 1014 1014 2.

Lemma append_into_log : match iappend 1 [5] full_image with Done _ s => img s 1014 !! 0%nat = Some 5 | _ => False end.
Proof. vm_compute. reflexivity. Qed.

End Mkfs.
